(* ===== verification/_CoqProject ===== *)
-Q . S2P
Prelude.v
Crc32c.v
Errors.v
Registry.v
Frame.v
FrameIntegrity.v
Tlv.v
Sha256.v
Crypto.v
Aead.v
Kem.v
KeySchedule.v
Transcript.v
Handshake.v
Cbor.v
ErrorFrame.v
Conn.v
ConnLogic.v
ConnLive.v
ConnNonce.v
ConnRecv.v
ConnSync.v
ConnDrop.v
ConnClose.v
ConnRekem.v
ConnControl.v
ConnEdge.v
SdkHandshake.v
HandshakeRuns.v
HandshakeHonest.v
Entry.v
ChannelFrames.v
Bodies.v
BodySpec.v
BodyRoundtrip.v
BodyFrames.v
Bridge.v
Keyformat.v
Relay.v
WireValidator.v
RegistryData.v
Firewall.v
CodecBind.v
CarriageHttp.v
CarriageStream.v
RegistryMatch.v
Json.v
JsonLine.v
CarriageJson.v
JsonAny.v
JsonTypes.v
JsonRoundtrip.v
Base64.v
Discovery.v
Gnap.v
GnapSafety.v
SchemaVersion.v
Otel.v
SupplyChain.v
JsonSchema.v
Provenance.v
ReleaseRuns.v
Url.v
ProxyEgress.v
Proxy.v
ProxyRuns.v
ProxyExchange.v
ProxyStream.v
ProxySamples.v
Stdio.v
Sul.v
SulLearned.v
SulRoles.v
SulRuns.v
Conform.v
Runner.v
ConformRuns.v
CorpusRuns.v
Interop.v
Commands.v
