(* ===== verification/Prelude.v ===== *)
(** * Verification of the N-PAMP reference implementation (Go)

    N-PAMP is a post-quantum agent messaging protocol.  Its reference implementation is the
    Go module under src/impl/go: the wire package [npamp] (frames, TLVs, record protection,
    key schedule, handshake messages, channel bodies), the session package [npamp/sdk]
    (handshake driver and connection) and packages around them: stored keys, relay, wire
    validator, firewall, the proxy that carries HTTP, JSON-RPC, gRPC and opaque protocols
    over the bridge channel, the ecosystem packages (discovery, GNAP, telemetry, supply
    chain) and the commands.  Under src/harness are the conformance runner with its Go
    adapter and the driver for active automata learning.  This library translates that
    code into Rocq functions and proves what makes it correct.

    ** How the code is translated

    A Go integer is a [Z]; conversions and arithmetic that can wrap are written with [u8],
    [u16], [u32], [u64] and [i64] of this file.  A [[]byte] and a [string] are lists of
    [Byte.byte], a Go map is a [gmap] (or an association list where iteration order or
    duplicates matter), a struct a [Record], an error return the [result] monad of this
    file, a panic an [option].  Stateful code passes its state explicitly: [Conn.M] is the
    state, output and error monad of a connection, [SdkHandshake.hs] the reads and writes of
    a handshake, [Keyformat.reading] a cursor.  Concurrency is a step relation
    ([Relay.run_step], [Proxy], [Stdio], [Interop.net_step]), a schedule ([HandshakeHonest])
    or a queue of tasks run in any order ([Conn.run_task]).  Randomness, deadlines and transport failures are arguments.

    Code outside the repository is a parameter: the class [Crypto.Crypto] has the primitives
    of Go's crypto packages that are not computed here (AES-256-GCM, Ed25519, X25519,
    ML-KEM-768) and [Crypto.CryptoLaws] their documented behaviour (opening inverts sealing,
    a signature verifies under its key, both KEM sides agree, output sizes).  Theorems that
    need a law take it from the class; a toy instance shows the laws can hold and is what
    the witnesses run.  SHA-256, SHA-384, SHA-512, HMAC, HKDF and CRC-32C are computed, and so
    is what the code uses of encoding/json, encoding/base64, encoding/hex and strconv, floats
    included.  Other collaborators are arguments too: an HTTP backend, a child process, the
    files of a directory.

    ** Files, in order

    - Prelude: bytes, widths, slices, big-endian integers, the [result] monad, the class
      [Codec] that the wire codecs implement, tactics ([inv_res], [bprop]) and hint
      databases.  Crc32c: hash/crc32 with the Castagnoli table.  Errors: the sentinels.
    - Registry: channels.go, frametypes.go, profiles.go, suites.go.
    - Frame, FrameIntegrity: frame.go.  Tlv: tlv.go.
    - Sha256, Crypto: the hash functions and the crypto interface.  Aead: aead.go.  Kem:
      kem.go and, in Module HybridKem, hybridkem.  KeySchedule: keyschedule.go.  Transcript:
      transcript.go.  Handshake: handshake.go (messages, CertVerify, Finished).
    - Cbor: memory_cbor.go.  ErrorFrame: errorframe.go.
    - Conn: sdk/conn.go, keyupdate.go, ratchet.go, close.go, pendingack.go as operations of
      one state.  ConnLogic is a program logic for them; ConnNonce, ConnRecv, ConnLive,
      ConnSync, ConnDrop, ConnClose, ConnRekem, ConnControl and ConnEdge hold the theorems.
    - SdkHandshake: sdk/handshake.go, dialconn.go, dialraw.go, fallback.go.  HandshakeRuns,
      HandshakeHonest and Entry hold the theorems.
    - ChannelFrames, Bodies: the frame types and the body validators and codecs of the ten
      companion channels (stream, memory, capability, immune, settlement, telemetry,
      commerce, interaction, workflow, knowledge).  BodySpec has the class [BodyChannel]
      that each validator instantiates; BodyRoundtrip and BodyFrames are proved against it.
    - Bridge: bridge.go, bridge_bodies.go, bridge_api.go.  Keyformat: keyformat.
    - Relay: relay.  WireValidator: wirevalidator, with the tables of registries/ in
      RegistryData.  Firewall: firewall.  RegistryMatch: the tables against the code.
      CodecBind: codecbind.
    - Json, JsonLine, JsonAny, JsonTypes: encoding/json as the packages use it:
      the scanner, raw messages, values behind an [any], integers as float64, Go types with
      field tags.  JsonRoundtrip: what is marshalled reads back.  Base64.
    - CarriageHttp, CarriageStream, CarriageJson: the codecs of proxy/.  Url: net/url and
      net/http as the HTTP egress uses them.  ProxyEgress: the handlers of inbound requests.  Proxy: calls, waiters and the receive loop.  ProxyRuns,
      ProxyExchange, ProxyStream and ProxySamples hold the theorems.  Stdio: proxy/stdio.go.
    - Discovery, Gnap, GnapSafety, Otel: ecosystem/npamp-discovery, npamp-gnap, npamp-otel.
      SchemaVersion: schemaversion.  SupplyChain, JsonSchema, Provenance: the package
      ecosystem/npamp-supply-chain and its command, with theorems in ReleaseRuns.
    - Sul: harness/statelearn/sul, the endpoint under active learning and its line protocol.
      SulLearned: the learned automata, equal to what the endpoints do.  SulRoles and SulRuns:
      whole conversations against the state table of the draft.
    - Conform: harness/adapters/go.  Runner: harness/runner, against the class [Runner.Testee]
      that the adapter instantiates.  ConformRuns holds the theorems, CorpusRuns samples
      from the corpus.
    - Interop: cmd/npamp-interop.  Commands: the other commands.

    ** What the theorems show

    - Codecs are exact: a decoder accepts precisely the octets the encoder writes for a
      well-formed value, so each value has one encoding and each octet string at most one
      reading ([Frame.unmarshal_iff], [Frame.read_frame_iff], [Tlv.decode_tlvs_iff],
      [Handshake.handshake_messages_exact], [Cbor.cbor_exact],
      [ErrorFrame.error_body_exact], [BodySpec.bodies_typed], [BodyRoundtrip.body_roundtrip],
      [Bridge.bridge_exact], [Keyformat.key_decode_exact], [Keyformat.key_store_roundtrip]).
      Header corruption is detected ([FrameIntegrity.header_corruption_detected]).
    - The key schedule separates its uses ([KeySchedule.traffic_secret_separation]), and no
      key and nonce protect two frames, in the handshake
      ([HandshakeRuns.handshake_nonces]) or in a session ([ConnNonce.nonce_unique]).
    - A handshake that completes has authenticated its peer over the octets exchanged
      ([HandshakeRuns.client_accepts], [HandshakeRuns.server_accepts],
      [Handshake.cert_verify_spec]); two honest endpoints always complete and are in step
      ([HandshakeHonest.honest_handshake]); entry points own or leave the transport as
      documented ([Entry.transport_ownership], [Entry.fallback_transparent]).
    - A session refines a reliable ordered stream ([ConnSync.session_sync]) and stays usable
      through sends, key updates and ratchets ([ConnSync.session_live]); a re-KEM heals both
      roots ([ConnRekem.rekem_heals]); injected frames change nothing but drop counters
      and the cache of receive keys ([ConnDrop.injection_harmless], [ConnDrop.operation_similar]); teardown is final
      ([ConnClose.teardown_final]); acknowledgements and protocol violations are handled as
      specified ([ConnControl.pending_acks_multiset], [ConnControl.unexpected_frame_fatal]).
    - The endpoints behave as the draft's state table says, on every word of inputs, for
      both roles ([SulRuns.responder_conforms], [SulRuns.initiator_conforms]).
    - The relay forwards verbatim and fails closed ([Relay.relay_fail_closed],
      [Relay.relay_forward_exact]), the firewall lets only admitted frames through it
      ([Firewall.firewalled_relay]) and the firewall command enforces its flags
      ([Commands.firewall_command]), registry tables load exactly or not at all
      ([WireValidator.load_exact]), and the tables and the code define the same code points
      but for three TLV types that only the code has
      ([RegistryMatch.registry_matches_code], [BodyFrames.frame_types_exact]).
    - In every interleaving of the proxy's receive loop with its calls, a call gets only a
      reply of its own and the loop never blocks ([ProxyRuns.proxy_safe]); every readable
      request is answered, errors included, unless a send fails or the result of its handler
      does not marshal ([ProxyEgress.request_answered]); a call through two proxies
      returns what the backend answered ([ProxyExchange.http_exchange],
      [ProxyExchange.jsonrpc_exchange]); streams arrive in order
      ([ProxyStream.stream_delivery]); replies of a child process reach the call they are
      for, up to the first line of 16 MiB ([Stdio.stdio_delivered]).
    - A discovery document is trusted only under its key ([Discovery.discovery_trust]), a key
      proof binds the covered components of requests without newlines
      ([GnapSafety.key_proof_binds]), an exported
      assertion confers no more than its grant ([GnapSafety.waypoint_export]); a release
      whose bill of materials the schema accepts is attested ([ReleaseRuns.release_attested]) and an accepted
      attestation is signed and bound to what is on disk ([ReleaseRuns.attestation_binds]).
      The schema validator decides as draft-07 does wherever the draft's rules and its own
      subset reach a verdict ([JsonSchema.validate_decides]).
    - A conformance run grades what the implementation answers, whatever pipes and JSON do
      in between ([ConformRuns.conformance_run]).  The interop command completes with itself
      and with the SDK on either side ([Interop.interop_compatible]).
    - Where the code does less than its comments say, a theorem states what it does
      ([ConnEdge], [Bridge.bridge_label_confusion], [BodyRoundtrip.body_reencode],
      [Keyformat.key_decode_exact], [ProxyRuns.jsonrpc_id_reuse],
      [ReleaseRuns.module_stream], [ConformRuns.frame_seal_other_aad],
      [Interop.interop_ignores_selections], [Commands.vectors_pinned],
      [JsonSchema.silent_passes], [JsonSchema.negative_zero], [Url.target_rewritten]).

    ** Bounds and fuel

    [Tlv.DecodeTLVs] runs with as much fuel as there are octets, each TLV taking four;
    [Cbor.cborDecode] recurses on the nesting levels left, the eight of the code;
    [Conn.recvLocked] has one more than the octets of the stream, each frame taking 36;
    [Relay.forward] needs one iteration more than there are frames to forward, and a run of
    the relay at most as many steps as octets and three more.  The JSON scanner and decoder,
    the module list and the adapter's request loop have as much fuel as octets, every
    token, value, module or request taking at least one; [Runner.fold_to] follows the
    folding orbit of a rune, which has at most four.  Each bound is part of a theorem or
    of a lemma that more fuel changes nothing, so no result rests on fuel running out.  A hypothesis [blen b < 2 ^ 63] states
    that a buffer is a Go slice.

    ** Not modelled

    The ports to other languages are separate programs.  The octets of the vendored
    CycloneDX schema are a parameter of the release pipeline, and the engine of regular
    expressions one of the schema validator; what net/url makes of a bracketed host, or of
    one with several colons, is one of the HTTP egress, since releases of Go differ in it.
    The conformance corpus is test data.  Of the commands, flag
    parsing, listeners, signals and printing; of the harness, starting and killing the
    testee and the clocks behind its timers; of the telemetry package, the constructors of
    the OpenTelemetry SDK; of the schema check, finding the repository root.  Within the
    modelled packages: sockets, TLS and UDP probing, timers and clock readings, the texts of
    error messages and [String] methods, and generation of randomness (an argument).  The
    profiles High and Sovereign are refused by the code, and are modelled as refused.  Go's
    memory model is abstracted by the locks the code takes: an operation under the
    connection mutex is one step. *)

From Stdlib Require Export ZArith Lia.
From Stdlib Require Import Strings.Byte Strings.String.
From stdpp Require Export base tactics list.
From stdpp Require Import countable.

Export String.StringSyntax.
Open Scope Z_scope.

(** ** Bytes

    Go's [byte] is [Byte.byte], so a [[]byte] carries no side condition.
    [b2z] and [z2b] are the conversions [uint64(b)] and [byte(x)]: the second
    truncates, as the Go conversion does. *)

Abbreviation byte := Corelib.Init.Byte.byte.
Abbreviation bytes := (list byte).

Definition b2z (b : byte) : Z := Z.of_N (Byte.to_N b).

Definition z2b (z : Z) : byte :=
  match Byte.of_N (Z.to_N (z mod 256)) with
  | Some b => b
  | None => x00
  end.

#[export] Instance byte_eq_dec : EqDecision byte := Byte.byte_eq_dec.
#[export] Instance byte_inhabited : Inhabited byte := populate x00.

Lemma b2z_range b : 0 <= b2z b < 256.
Proof. unfold b2z. pose proof (Byte.to_N_bounded b). lia. Qed.

Lemma b2z_z2b z : b2z (z2b z) = z mod 256.
Proof.
  unfold b2z, z2b. pose proof (Z.mod_pos_bound z 256 eq_refl) as Hr.
  destruct (Byte.of_N _) as [b|] eqn:E.
  - apply Byte.to_of_N in E. rewrite E. lia.
  - apply Byte.of_N_None_iff in E. lia.
Qed.

Lemma b2z_inj b1 b2 : b2z b1 = b2z b2 -> b1 = b2.
Proof.
  unfold b2z. intros H. apply N2Z.inj in H.
  pose proof (Byte.of_to_N b1). pose proof (Byte.of_to_N b2). congruence.
Qed.

Lemma z2b_b2z b : z2b (b2z b) = b.
Proof. apply b2z_inj. rewrite b2z_z2b. apply Z.mod_small, b2z_range. Qed.

Lemma b2z_z2b_small z : 0 <= z < 256 -> b2z (z2b z) = z.
Proof. intros. rewrite b2z_z2b. by apply Z.mod_small. Qed.

(** Octet strings are keys of the finite maps. *)
#[export] Instance byte_countable : Countable byte := inj_countable' b2z z2b z2b_b2z.

(** ASCII literals of the source as byte strings. *)
Definition str (s : string) : bytes := list_byte_of_string s.
Arguments str s%_string_scope.

(** Hexadecimal literals of the test vectors. *)
Definition hex_digit (b : byte) : Z :=
  let z := Z.of_N (Byte.to_N b) in
  if z <? 58 then z - 48 else if z <? 71 then z - 55 else z - 87.

Fixpoint hex_bytes (l : bytes) : bytes :=
  match l with
  | h :: l :: rest => z2b (16 * hex_digit h + hex_digit l) :: hex_bytes rest
  | _ => []
  end.

Definition hex (s : string) : bytes := hex_bytes (list_byte_of_string s).
Arguments hex s%_string_scope.

(** [len(b)] as a Go [int]. *)
Definition blen {A} (l : list A) : Z := Z.of_nat (length l).

(** [b[i]] of a slice whose length has been checked. *)
Definition at_ (b : bytes) (i : nat) : Z := b2z (nth i b x00).

(** [b[i:j]] of a slice whose length has been checked. *)
Definition slice {A} (i j : nat) (b : list A) : list A := take (j - i) (drop i b).

(** ** Machine integers *)

Definition u8 (z : Z) : Z := z mod 2 ^ 8.
Definition u16 (z : Z) : Z := z mod 2 ^ 16.
Definition u32 (z : Z) : Z := z mod 2 ^ 32.
Definition u64 (z : Z) : Z := z mod 2 ^ 64.
(** [int(x)] and [int64(x)]: two's complement wrap-around. *)
Definition i64 (z : Z) : Z := (z + 2 ^ 63) mod 2 ^ 64 - 2 ^ 63.

Definition is_u8 (z : Z) : Prop := 0 <= z < 2 ^ 8.
Definition is_u16 (z : Z) : Prop := 0 <= z < 2 ^ 16.
Definition is_u32 (z : Z) : Prop := 0 <= z < 2 ^ 32.
Definition is_u64 (z : Z) : Prop := 0 <= z < 2 ^ 64.

(** Bitwise operations stay within the width of their operands. *)
Lemma lxor_bound n a b :
  0 <= n -> 0 <= a < 2 ^ n -> 0 <= b < 2 ^ n -> 0 <= Z.lxor a b < 2 ^ n.
Proof.
  intros Hn Ha Hb. assert (0 <= Z.lxor a b) as H0 by (apply Z.lxor_nonneg; lia).
  split; [done|]. replace (Z.lxor a b) with (Z.lxor a b mod 2 ^ n);
    [apply Z.mod_pos_bound; lia|].
  apply Z.bits_inj'. intros i Hi. destruct (decide (i < n)).
  - by rewrite Z.mod_pow2_bits_low by lia.
  - rewrite Z.mod_pow2_bits_high, Z.lxor_spec by lia.
    rewrite <- (Z.mod_small a (2 ^ n)), <- (Z.mod_small b (2 ^ n)) by lia.
    by rewrite !Z.mod_pow2_bits_high by lia.
Qed.

(** [acc<<8 | x] on octets. *)
Lemma shl8_disjoint a x : 0 <= x < 256 -> Z.land (Z.shiftl a 8) x = 0.
Proof.
  intros Hx. apply Z.bits_inj'. intros n Hn. rewrite Z.land_spec, Z.bits_0.
  destruct (decide (n < 8)).
  - by rewrite Z.shiftl_spec_low.
  - rewrite <- (Z.mod_small x (2 ^ 8)) by done.
    rewrite Z.mod_pow2_bits_high by lia. apply andb_false_r.
Qed.

Lemma shl8_lxor a x : 0 <= x < 256 -> a * 256 + x = Z.lxor (Z.shiftl a 8) x.
Proof.
  intros Hx. rewrite <- Z.add_nocarry_lxor by (by apply shl8_disjoint).
  rewrite Z.shiftl_mul_pow2 by lia. lia.
Qed.

Lemma shl8_lor a x : 0 <= x < 256 -> Z.lor (Z.shiftl a 8) x = a * 256 + x.
Proof. intros Hx. rewrite shl8_lxor, Z.lxor_lor by (done || by apply shl8_disjoint). done. Qed.

Lemma u8_range z : is_u8 (u8 z).
Proof. apply Z.mod_pos_bound. lia. Qed.
Lemma u16_range z : is_u16 (u16 z).
Proof. apply Z.mod_pos_bound. lia. Qed.
Lemma u64_range z : is_u64 (u64 z).
Proof. apply Z.mod_pos_bound. lia. Qed.
Lemma u64_id z : is_u64 z -> u64 z = z.
Proof. apply Z.mod_small. Qed.
Lemma i64_id z : - 2 ^ 63 <= z < 2 ^ 63 -> i64 z = z.
Proof. intros. unfold i64. rewrite Z.mod_small; lia. Qed.

(** ** Results of fallible code

    A Go function that returns [(T, error)] returns [result E T], where [E]
    lists the sentinel errors it can return.  The text [fmt.Errorf] wraps around
    a sentinel is not modelled. *)

Inductive result (E A : Type) : Type :=
| Ok (a : A)
| Err (e : E).
Arguments Ok {E A} _.
Arguments Err {E A} _.

#[export] Instance result_ret {E} : MRet (result E) := fun A a => Ok a.
#[export] Instance result_bind {E} : MBind (result E) := fun A B f m =>
  match m with Ok a => f a | Err e => Err e end.
#[export] Instance result_fmap {E} : FMap (result E) := fun A B f m =>
  match m with Ok a => Ok (f a) | Err e => Err e end.

(** [if cond { return err }] *)
Definition check {E} (cond : bool) (e : E) : result E unit :=
  if cond then Err e else Ok tt.

Definition map_err {E F A} (f : E -> F) (r : result E A) : result F A :=
  match r with Ok a => Ok a | Err e => Err (f e) end.

Lemma bind_Ok {E A B} (f : A -> result E B) (m : result E A) (b : B) :
  (m ≫= f) = Ok b <-> exists a, m = Ok a /\ f a = Ok b.
Proof. destruct m; simpl; [|split; [done|intros (?&[=]&_)]]. split; [eauto|intros (?&[=->]&?); done]. Qed.

Lemma check_Ok {E} (c : bool) (e : E) (u : unit) : check c e = Ok u <-> c = false.
Proof. destruct c, u; naive_solver. Qed.

Lemma map_err_Ok {E F A} (f : E -> F) (r : result E A) (a : A) :
  map_err f r = Ok a <-> r = Ok a.
Proof. destruct r; naive_solver. Qed.

Create HintDb npamp discriminated.
Create Rewrite HintDb res.
#[export] Hint Rewrite @bind_Ok @check_Ok @map_err_Ok : res.

(** Turns a hypothesis that a computation returned [Ok] into the facts its
    guards established. *)
Ltac inv_res_core H :=
  lazymatch type of H with
  | (_ ≫= _) = Ok _ =>
      let a := fresh "r" in let H1 := fresh H in let H2 := fresh H in
      apply bind_Ok in H as (a & H1 & H2);
      try inv_res_core H1; try inv_res_core H2
  | check _ _ = Ok _ => apply check_Ok in H
  | map_err _ _ = Ok _ => apply map_err_Ok in H
  | Ok _ = Ok _ => injection H as H; try subst
  | Err _ = Ok _ => discriminate H
  | mret _ = Ok _ => injection H as H; try subst
  | (if ?c then Err _ else _) = Ok _ =>
      let E := fresh "C" in destruct c eqn:E; [discriminate H|]; try inv_res_core H
  end.

(** Boolean guards as propositions. *)
Ltac bprop :=
  repeat match goal with
  | H : negb _ = false |- _ => apply negb_false_iff in H
  | H : negb _ = true |- _ => apply negb_true_iff in H
  | H : (_ || _) = false |- _ => apply orb_false_iff in H as [? ?]
  | H : (_ && _) = true |- _ => apply andb_true_iff in H as [? ?]
  | H : (_ =? _) = true |- _ => apply Z.eqb_eq in H
  | H : (_ =? _) = false |- _ => apply Z.eqb_neq in H
  | H : (_ <? _) = true |- _ => apply Z.ltb_lt in H
  | H : (_ <? _) = false |- _ => apply Z.ltb_ge in H
  | H : (_ <=? _) = true |- _ => apply Z.leb_le in H
  | H : (_ <=? _) = false |- _ => apply Z.leb_gt in H
  | H : bool_decide _ = true |- _ => apply bool_decide_eq_true in H
  | H : bool_decide _ = false |- _ => apply bool_decide_eq_false in H
  | u : unit |- _ => destruct u
  end.

Ltac inv_res H := inv_res_core H; bprop.

(** ** Codecs

    The contract between the byte-level codecs and their clients: decoding an
    encoded well-formed value gives it back, and the only octets that decode to
    a value are the ones encoding produces (so an octet string has one reading
    and a value one representation). *)

Class Codec (E A : Type) (wf : A -> Prop) (enc : A -> bytes)
    (dec : bytes -> result E A) : Prop := {
  dec_enc : forall a, wf a -> dec (enc a) = Ok a;
  enc_dec : forall b a, dec b = Ok a -> enc a = b;
}.

(** The two halves every client uses: encoding is injective on well-formed
    values, decoding is injective on the octets it accepts. *)
Section codec.
Context {E A : Type} {wf : A -> Prop} {enc : A -> bytes}
  {dec : bytes -> result E A} `{HC : !Codec E A wf enc dec}.

Lemma codec_enc_inj a1 a2 : wf a1 -> wf a2 -> enc a1 = enc a2 -> a1 = a2.
Proof.
  intros H1 H2 Heq. apply (dec_enc (Codec:=HC)) in H1, H2. congruence.
Qed.

Lemma codec_dec_inj b1 b2 a : dec b1 = Ok a -> dec b2 = Ok a -> b1 = b2.
Proof.
  intros H1 H2. apply (enc_dec (Codec:=HC)) in H1, H2. congruence.
Qed.
End codec.

(** ** Big-endian integers: [binary.BigEndian] *)

(** [PutUint16/32/64]: the low [8*n] bits of [z], most significant octet first. *)
Fixpoint be_put (n : nat) (z : Z) : bytes :=
  match n with
  | O => []
  | S n' => z2b (Z.shiftr z (8 * Z.of_nat n')) :: be_put n' z
  end.

(** [Uint16/32/64]: the octets as one number. *)
Definition be_get (b : bytes) : Z := fold_left (fun acc x => acc * 256 + b2z x) b 0.

Lemma length_be_put n z : length (be_put n z) = n.
Proof. induction n; simpl; congruence. Qed.

Lemma be_get_fold b acc :
  fold_left (fun acc x => acc * 256 + b2z x) b acc = acc * 256 ^ blen b + be_get b.
Proof.
  unfold be_get, blen. revert acc.
  induction b as [|x b IH]; intros acc; [simpl; lia|].
  cbn [fold_left length]. rewrite Nat2Z.inj_succ, Z.pow_succ_r by lia.
  rewrite (IH (acc * 256 + b2z x)), (IH (0 * 256 + b2z x)). lia.
Qed.

Lemma be_get_cons x b : be_get (x :: b) = b2z x * 256 ^ blen b + be_get b.
Proof. unfold be_get at 1. cbn [fold_left]. rewrite be_get_fold. lia. Qed.

Lemma be_get_range b : 0 <= be_get b < 256 ^ blen b.
Proof.
  induction b as [|x b IH]; [cbv; split; congruence|].
  rewrite be_get_cons. unfold blen in *. cbn [length].
  rewrite Nat2Z.inj_succ, Z.pow_succ_r by lia. pose proof (b2z_range x). nia.
Qed.

Lemma be_get_put n z : be_get (be_put n z) = z mod 256 ^ Z.of_nat n.
Proof.
  induction n as [|n IH].
  - change (0 = z mod 1). by rewrite Z.mod_1_r.
  - cbn [be_put]. rewrite be_get_cons, IH, b2z_z2b.
    unfold blen. rewrite length_be_put, Z.shiftr_div_pow2 by lia.
    rewrite Z.pow_mul_r by lia. change (2 ^ 8) with 256.
    rewrite Nat2Z.inj_succ, Z.pow_succ_r by lia.
    pose proof (Z.pow_pos_nonneg 256 (Z.of_nat n) ltac:(lia) ltac:(lia)).
    rewrite (Z.mul_comm 256), Z.rem_mul_r by lia. lia.
Qed.

Lemma be_get_put_small n z : 0 <= z < 256 ^ Z.of_nat n -> be_get (be_put n z) = z.
Proof. intros. rewrite be_get_put. by apply Z.mod_small. Qed.

Lemma be_put_cong m z z' :
  z mod 256 ^ Z.of_nat m = z' mod 256 ^ Z.of_nat m -> be_put m z = be_put m z'.
Proof.
  induction m as [|m IH]; intros H; [done|]. cbn [be_put].
  rewrite Nat2Z.inj_succ, Z.pow_succ_r in H by lia.
  pose proof (Z.pow_pos_nonneg 256 (Z.of_nat m) ltac:(lia) ltac:(lia)).
  rewrite (Z.mul_comm 256), !Z.rem_mul_r in H by lia.
  assert (z mod 256 ^ Z.of_nat m = z' mod 256 ^ Z.of_nat m) as Hm.
  { apply (f_equal (fun x => x mod 256 ^ Z.of_nat m)) in H.
    by rewrite !(Z.mul_comm (256 ^ Z.of_nat m)), !Z.mod_add, !Z.mod_mod in H by lia. }
  f_equal; [|by apply IH].
  apply b2z_inj. rewrite !b2z_z2b, !Z.shiftr_div_pow2, Z.pow_mul_r by lia.
  change (2 ^ 8) with 256. nia.
Qed.

Lemma be_put_get_eq b n : length b = n -> be_put n (be_get b) = b.
Proof.
  intros <-. induction b as [|x b IH]; [done|].
  cbn [length be_put]. f_equal.
  - apply b2z_inj. rewrite b2z_z2b, Z.shiftr_div_pow2, Z.pow_mul_r by lia.
    change (2 ^ 8) with 256. rewrite be_get_cons.
    pose proof (be_get_range b) as Hb. unfold blen in *.
    rewrite Z.div_add_l by lia. rewrite (Z.div_small (be_get b)) by lia.
    rewrite Z.add_0_r. apply Z.mod_small, b2z_range.
  - etrans; [|exact IH]. apply be_put_cong. rewrite be_get_cons. unfold blen.
    rewrite Z.add_comm, Z.mod_add; [done|lia].
Qed.

Lemma be_put_inj n z1 z2 :
  0 <= z1 < 256 ^ Z.of_nat n -> 0 <= z2 < 256 ^ Z.of_nat n ->
  be_put n z1 = be_put n z2 -> z1 = z2.
Proof.
  intros H1 H2 H. apply (f_equal be_get) in H.
  by rewrite !be_get_put_small in H.
Qed.

#[global] Arguments b2z : simpl never.
#[global] Arguments z2b : simpl never.
#[global] Arguments be_put : simpl never.
#[global] Arguments be_get : simpl never.
#[global] Arguments slice : simpl never.
#[global] Arguments at_ : simpl never.
#[global] Arguments blen : simpl never.
#[global] Arguments u8 : simpl never.
#[global] Arguments u16 : simpl never.
#[global] Arguments u32 : simpl never.
#[global] Arguments u64 : simpl never.
#[global] Arguments i64 : simpl never.

(** ** Lengths of slices *)

Lemma blen_nonneg {A} (l : list A) : 0 <= blen l.
Proof. unfold blen. lia. Qed.

Lemma blen_app {A} (l k : list A) : blen (l ++ k) = blen l + blen k.
Proof. unfold blen. rewrite length_app. lia. Qed.

Lemma blen_cons {A} (x : A) (l : list A) : blen (x :: l) = 1 + blen l.
Proof. unfold blen. cbn [length]. lia. Qed.

Lemma blen_nil {A} : blen (@nil A) = 0.
Proof. done. Qed.

Lemma blen_be_put n z : blen (be_put n z) = Z.of_nat n.
Proof. unfold blen. by rewrite length_be_put. Qed.

#[export] Hint Rewrite @blen_app @blen_cons @blen_nil blen_be_put : res.
#[export] Hint Resolve blen_nonneg b2z_range u8_range u16_range u64_range : npamp.

(** ** Cutting slices *)

Lemma slice_app_cut {A} (i j : nat) (b : list A) :
  (i <= j)%nat -> slice i j b ++ drop j b = drop i b.
Proof.
  intros H. unfold slice. rewrite <- (take_drop (j - i) (drop i b)) at 2.
  f_equal. rewrite drop_drop. f_equal. lia.
Qed.

Lemma length_slice {A} (i j : nat) (b : list A) :
  (i <= j <= length b)%nat -> length (slice i j b) = (j - i)%nat.
Proof. intros H. unfold slice. rewrite length_take, length_drop. lia. Qed.

Lemma be_get_fixed b n : length b = n -> 0 <= be_get b < 256 ^ Z.of_nat n.
Proof. intros <-. apply be_get_range. Qed.


Lemma slice_split {A} (i j k : nat) (b : list A) :
  (i <= j <= k)%nat -> slice i k b = slice i j b ++ slice j k b.
Proof.
  intros H. unfold slice. rewrite <- (take_drop (j - i) (drop i b)) at 1.
  rewrite drop_drop. replace (i + (j - i))%nat with j by lia. rewrite take_app.
  rewrite take_take, Nat.min_r by lia. f_equal.
  rewrite length_take, length_drop. destruct (decide (j <= length b)%nat).
  - f_equal. lia.
  - rewrite (drop_ge b j) by lia. by rewrite !take_nil.
Qed.

Lemma slice_take {A} (i n : nat) (b : list A) : slice i (i + n) b = take n (drop i b).
Proof. unfold slice. f_equal. lia. Qed.
