(* ===== verification/Crc32c.v ===== *)
(** * CRC32C (Castagnoli)

    [hash/crc32] with the Castagnoli table, as [frame.go] uses it:
    [crc32.Checksum(data, castagnoli)].  The definition is the reflected
    bit-at-a-time form of the code.  The lemmas give its linearity over exclusive
    or, from which the error-detection theorem of [Frame] follows. *)

From S2P Require Import Prelude.
From Stdlib Require Import Strings.Byte.

(** The reflected polynomial [crc32.Castagnoli]. *)
Definition castagnoli : Z := 0x82F63B78.

(** One step of the shift register. *)
Definition crc_bit (c : Z) : Z :=
  Z.lxor (Z.shiftr c 1) (if Z.odd c then castagnoli else 0).

Definition crc_byte (c v : Z) : Z := Nat.iter 8 crc_bit (Z.lxor c v).

Definition crc_update (c : Z) (data : bytes) : Z :=
  fold_left (fun c b => crc_byte c (b2z b)) data c.

(** [crc32.Checksum(data, castagnoli)]. *)
Definition crc32c (data : bytes) : Z :=
  Z.lxor (crc_update 0xFFFFFFFF data) 0xFFFFFFFF.

Example crc32c_check : crc32c (str "123456789") = 0xE3069283.
Proof. by vm_compute. Qed.

(** ** The register keeps 32 bits *)

Lemma lxor_u32 a b : is_u32 a -> is_u32 b -> is_u32 (Z.lxor a b).
Proof. by apply lxor_bound. Qed.

Lemma crc_bit_u32 c : is_u32 c -> is_u32 (crc_bit c).
Proof.
  intros H. apply lxor_u32; [|destruct (Z.odd c); unfold is_u32, castagnoli; lia].
  unfold is_u32 in *. rewrite Z.shiftr_div_pow2 by lia. change (2 ^ 1) with 2.
  split; [by apply Z.div_pos; lia|]. apply Z.div_lt_upper_bound; lia.
Qed.

Lemma crc_byte_u32 c v : is_u32 c -> is_u32 v -> is_u32 (crc_byte c v).
Proof.
  intros Hc Hv. unfold crc_byte. generalize 8%nat; intros n; induction n as [|n IH]; [by apply lxor_u32|].
  rewrite Nat.iter_succ. by apply crc_bit_u32.
Qed.

Lemma crc_update_cons c b data : crc_update c (b :: data) = crc_update (crc_byte c (b2z b)) data.
Proof. reflexivity. Qed.

Lemma crc_update_u32 data c : is_u32 c -> is_u32 (crc_update c data).
Proof.
  revert c. induction data as [|b data IH]; intros c Hc; [done|].
  rewrite crc_update_cons. apply IH, crc_byte_u32; [done|]. unfold is_u32. pose proof (b2z_range b). lia.
Qed.

Lemma crc32c_u32 data : is_u32 (crc32c data).
Proof. apply lxor_u32; [apply crc_update_u32|]; unfold is_u32; lia. Qed.

(** ** Linearity *)

Lemma crc_bit_lxor a b : crc_bit (Z.lxor a b) = Z.lxor (crc_bit a) (crc_bit b).
Proof.
  unfold crc_bit. rewrite Z.shiftr_lxor, <- !Z.bit0_odd, Z.lxor_spec.
  generalize (Z.shiftr a 1), (Z.shiftr b 1). intros x y.
  apply Z.bits_inj'; intros n _.
  destruct (Z.testbit a 0), (Z.testbit b 0); cbn [xorb]; rewrite !Z.lxor_spec, ?Z.bits_0;
    by destruct (Z.testbit x n), (Z.testbit y n), (Z.testbit castagnoli n).
Qed.

Lemma crc_byte_lxor c d v w :
  crc_byte (Z.lxor c d) (Z.lxor v w) = Z.lxor (crc_byte c v) (crc_byte d w).
Proof.
  unfold crc_byte.
  replace (Z.lxor (Z.lxor c d) (Z.lxor v w)) with (Z.lxor (Z.lxor c v) (Z.lxor d w))
    by (rewrite !Z.lxor_assoc; f_equal; rewrite <- !Z.lxor_assoc; f_equal; apply Z.lxor_comm).
  generalize 8%nat; intros n; induction n as [|n IH]; [done|]. by rewrite !Nat.iter_succ, IH, crc_bit_lxor.
Qed.

(** Bitwise exclusive or of two octet strings of one length. *)
Definition xorb_bytes (a b : bytes) : bytes :=
  zip_with (fun x y => z2b (Z.lxor (b2z x) (b2z y))) a b.

Lemma b2z_lxor x y : b2z (z2b (Z.lxor (b2z x) (b2z y))) = Z.lxor (b2z x) (b2z y).
Proof. apply b2z_z2b_small, (lxor_bound 8); [done|apply b2z_range..]. Qed.

Lemma crc_update_lxor a b c d :
  length a = length b ->
  crc_update (Z.lxor c d) (xorb_bytes a b) = Z.lxor (crc_update c a) (crc_update d b).
Proof.
  revert b c d. induction a as [|x a IH]; intros [|y b] c d Hl; try done.
  change (xorb_bytes (x :: a) (y :: b))
    with (z2b (Z.lxor (b2z x) (b2z y)) :: xorb_bytes a b).
  rewrite !crc_update_cons, b2z_lxor, crc_byte_lxor. apply IH. by injection Hl.
Qed.

(** The checksum is affine: corrupting the data by [e] changes it by the
    register image of [e] from the all-zero state. *)
Lemma crc32c_lxor a e :
  length a = length e -> crc32c (xorb_bytes a e) = Z.lxor (crc32c a) (crc_update 0 e).
Proof.
  intros H. unfold crc32c.
  replace 0xFFFFFFFF with (Z.lxor 0xFFFFFFFF 0) at 1 by done.
  rewrite crc_update_lxor by done. rewrite !Z.lxor_assoc. f_equal. apply Z.lxor_comm.
Qed.
