(* ===== verification/Errors.v ===== *)
(** * Errors

    The sentinel errors of the packages [npamp] and [npamp/sdk].  Go's [error]
    interface is one open sum, so functions that propagate each other's errors
    share one type; [errors.Is] on a sentinel is equality here.  The constructors
    that carry no Go name stand for an error the source builds with [fmt.Errorf]
    and no sentinel. *)

From S2P Require Import Prelude.

Inductive error : Type :=
(* frame.go *)
| ErrShortHeader | ErrBadMagic | ErrBadVersion | ErrBadCRC | ErrReservedNonzero
| ErrReservedFlag | ErrLengthMismatch | ErrIncompleteFrame | ErrFrameTooLarge
(* tlv.go *)
| ErrTruncatedTLV | ErrTooManyTLVs | ErrUnknownCriticalTLV
(* aead.go, keyschedule.go *)
| ErrNoAEADSuite | ErrNoSuiteForProfile
(* handshake.go, kem.go *)
| ErrHandshakeTLVOrder | ErrHandshakeTLVValue | ErrInvalidRole | ErrCertVerifyScheme
| ErrCertVerifySignature | ErrCertVerifyKeySize | ErrFinishedMismatch
| ErrKEMShareSize | ErrKEMCiphertextSize
(* memory_cbor.go *)
| errCBORTrailing | errCBORTruncated | errCBORNotShortest | errCBORIndefinite
| errCBORUnsupported | errCBORMapOrder | errCBORDepthExceeded
(* errorframe.go, *_bodies.go *)
| ErrMalformedErrorBody | ErrMemoryMalformed | ErrStreamMalformed | ErrCapMalformed
| ErrImmuneMalformed | ErrSettlementMalformed | ErrCommerceMalformed
| ErrTelemetryMalformed | ErrInteractionMalformed | ErrWorkflowMalformed
| ErrKnowledgeMalformed | ErrBridgeMalformed
(* sdk *)
| errClosed | ErrPeerClosed | errKeyUpdateOutOfOrder | errUnsolicitedReKEMAck
| ErrKEMDowngrade
| ErrMarkerLayout          (* keyupdate.go, ratchet.go: a marker TLV of the wrong shape *)
| ErrSeqExhausted          (* conn.go: the epoch's sequence space is used up *)
| ErrReKEMInFlight         (* ratchet.go *)
| ErrGenMismatch           (* ratchet.go: a generation other than the expected one *)
| ErrFrameTooShort         (* conn.go: writeFrame *)
| ErrFrameOverMax          (* conn.go: readFrame, writeFrame *)
| ErrIO                    (* a transport or deadline error *)
| ErrEOF                   (* io.EOF *)
| ErrUnexpectedEOF         (* io.ErrUnexpectedEOF *)
| ErrCrypto                (* an error of a Go crypto package *)
| ErrConfig                (* handshake.go, dialconn.go: a missing TLSConfig or connection *)
| ErrALPN                  (* handshake.go: requireALPN *)
| ErrFallback              (* fallback.go: both legs failed, the errors formatted with %v *)
| ErrInvalidProfile        (* handshake.go: an undefined profile code in Config *)
| ErrNoCommonProfile       (* handshake.go: selectProfile *)
| ErrProfileNotOffered | ErrSelection | ErrOffer
| ErrWrongFrameType | ErrEncryption | ErrNoIdentity | ErrPinMismatch
| ErrUnsolicitedAck | ErrClosePayload | ErrUnexpectedFrame
| ErrSessionError (code : Z) (context : bytes).

#[export] Instance error_eq_dec : EqDecision error.
Proof. solve_decision. Defined.

