(* ===== verification/Registry.v ===== *)
(** * Code points

    [channels.go], [frametypes.go], [profiles.go], [suites.go]: the channel,
    frame-type, profile and algorithm registries and the predicates on them. *)

From S2P Require Import Prelude Errors.
From stdpp Require Import gmap.
Open Scope Z_scope.

(** ** Frame types of every channel (frametypes.go) *)

Definition FramePing : Z := 0x0001.
Definition FramePong : Z := 0x0002.
Definition FrameClose : Z := 0x0003.
Definition FrameCloseAck : Z := 0x0004.
Definition FrameError : Z := 0x0005.
Definition FrameKeyUpdate : Z := 0x0006.
Definition FrameKeyUpdateAck : Z := 0x0007.
Definition FramePathChallenge : Z := 0x0008.
Definition FramePathResponse : Z := 0x0009.
Definition FrameFlowUpdate : Z := 0x000A.
Definition ChannelSpecificBase : Z := 0x0100.

(** ** Channels (channels.go) *)

Definition ChanControl : Z := 0x0000.
Definition ChanMemory : Z := 0x0001.
Definition ChanCapability : Z := 0x0002.
Definition ChanIdentity : Z := 0x0003.
Definition ChanGovernance : Z := 0x0004.
Definition ChanImmune : Z := 0x0005.
Definition ChanFederation : Z := 0x0006.
Definition ChanSettlement : Z := 0x0007.
Definition ChanCompliance : Z := 0x0008.
Definition ChanSensory : Z := 0x0009.
Definition ChanTelemetry : Z := 0x000A.
Definition ChanAudit : Z := 0x000B.
Definition ChanStream : Z := 0x000C.
Definition ChanBridge : Z := 0x000D.
Definition ChanCommerce : Z := 0x000E.
Definition ChanInteraction : Z := 0x000F.
Definition ChanDiscovery : Z := 0x0010.
Definition ChanWorkflow : Z := 0x0011.
Definition ChanKnowledge : Z := 0x0012.
Definition ChanSpatial : Z := 0x0013.

Definition channelNames : gmap Z bytes := list_to_map
  [ (0x0000, str "Control"); (0x0001, str "Memory"); (0x0002, str "Capability");
    (0x0003, str "Identity"); (0x0004, str "Governance"); (0x0005, str "Immune");
    (0x0006, str "Federation"); (0x0007, str "Settlement"); (0x0008, str "Compliance");
    (0x0009, str "Sensory"); (0x000A, str "Telemetry"); (0x000B, str "Audit");
    (0x000C, str "Stream"); (0x000D, str "Bridge"); (0x000E, str "Commerce");
    (0x000F, str "Interaction"); (0x0010, str "Discovery"); (0x0011, str "Workflow");
    (0x0012, str "Knowledge"); (0x0013, str "Spatial") ].

(** A missing map key reads as the zero value, the empty string. *)
Definition Channel_Name (c : Z) : bytes := default [] (channelNames !! c).
Definition Channel_Reserved (c : Z) : bool := 0x0014 <=? c.

(** ** Profiles (profiles.go) *)

Definition ProfileStandard : Z := 0x01.
Definition ProfileHigh : Z := 0x02.
Definition ProfileSovereign : Z := 0x03.

Definition KEMX25519MLKEM768 : Z := 0x11ec.
Definition KEMSecP384r1MLKEM1024 : Z := 0x11ed.
Definition AEADAES256GCM : Z := 0x0001.
Definition AEADChaCha20Poly1305 : Z := 0x0002.
Definition SigEd25519 : Z := 0x0807.
Definition SigMLDSA44 : Z := 0x0904.
Definition SigMLDSA65 : Z := 0x0905.
Definition SigMLDSA87 : Z := 0x0906.
Definition ALPN : bytes := str "n-pamp/3".

Definition Profile_Valid (p : Z) : bool :=
  (ProfileStandard <=? p) && (p <=? ProfileSovereign).

Definition KDFHash (p : Z) : bytes :=
  if p =? ProfileStandard then str "SHA-256" else str "SHA-384".

Definition MinKEM (p : Z) : Z :=
  if p =? ProfileStandard then KEMX25519MLKEM768 else KEMSecP384r1MLKEM1024.

Definition Profile_String (p : Z) : bytes :=
  if p =? ProfileStandard then str "Standard"
  else if p =? ProfileHigh then str "High"
  else if p =? ProfileSovereign then str "Sovereign"
  else str "reserved".

(** ** The registry predicates agree *)

(** A 16-bit channel has a registered name exactly when it is not in the
    reserved range. *)
Lemma channel_named_iff (c : Z) (Hc : is_u16 c) :
  Channel_Name c <> [] <-> Channel_Reserved c = false.
Proof.
  unfold Channel_Reserved. destruct (decide (c < 0x14)).
  - assert (0 <= c < 0x14) as H by (unfold is_u16 in Hc; lia).
    assert (Forall (fun c => Channel_Name c <> []) (Z.of_nat <$> seq 0 0x14)) as HF
      by (repeat constructor; vm_compute; discriminate).
    rewrite Forall_forall in HF. specialize (HF c). split; [intros _; lia|].
    intros _. apply HF. apply list_elem_of_fmap. exists (Z.to_nat c).
    split; [lia|]. apply elem_of_seq. lia.
  - assert (channelNames !! c = None) as Hn.
    { apply not_elem_of_list_to_map_1. cbn. rewrite !not_elem_of_cons.
      repeat split; first [lia|apply not_elem_of_nil]. }
    unfold Channel_Name. rewrite Hn. split; [done|lia].
Qed.

(** Code points 0x00 and 0x04..0xFF name no profile. *)
Lemma profile_valid_iff p : Profile_Valid p = true <-> Profile_String p <> str "reserved".
Proof.
  unfold Profile_Valid, Profile_String, ProfileStandard, ProfileHigh, ProfileSovereign.
  repeat case_match; try (split; [done|intros _; lia]).
  split; [lia|done].
Qed.
