(* ===== verification/Frame.v ===== *)
(** * The frame codec (frame.go)

    The 36-octet header, [MarshalBinary], [UnmarshalBinary] and the stream
    reader [ReadFrame]. *)

From S2P Require Import Prelude Errors Crc32c.
From Stdlib Require Import Strings.Byte.
Open Scope Z_scope.

Definition HeaderSize : Z := 36.
Definition MaxFrameSize : Z := Z.shiftl 16 20.
Definition ProtocolVersion : Z := 0x2.
Definition Magic : bytes := [x4e; x50; x41; x4d].
Definition FlagENC : Z := 0x02.
Definition FlagCOMP : Z := 0x04.
Definition reservedFlagMask : Z := 0x09.

Record Frame : Type := mkFrame {
  Version : Z;   (* uint8 *)
  Flags : Z;     (* uint8 *)
  Type_ : Z;     (* uint16 *)
  Channel : Z;   (* uint16 *)
  Seq : Z;       (* uint64 *)
  Payload : bytes
}.

(** The 21 octets written into [dst]. *)
Definition HeaderPrefix (f : Frame) (payloadLen : Z) : bytes :=
  let ver := if Version f =? 0 then ProtocolVersion else Version f in
  Magic ++ [z2b (Z.lor (Z.shiftl ver 4) (Z.land (Flags f) 0x0F))]
        ++ be_put 2 (Type_ f) ++ be_put 2 (Channel f)
        ++ be_put 8 (Seq f) ++ be_put 4 payloadLen.

Definition marshalHeaderInto (f : Frame) (payloadLen : Z) : bytes :=
  let prefix := HeaderPrefix f payloadLen in
  prefix ++ be_put 4 (crc32c prefix) ++ replicate 11 x00.

(** [MarshalBinary] also fills a zero [Version] of its receiver in, so it
    returns the receiver's new value beside the octets; it never fails. *)
Definition MarshalBinary (f : Frame) : Frame * bytes :=
  let f := if Version f =? 0
           then mkFrame ProtocolVersion (Flags f) (Type_ f) (Channel f) (Seq f) (Payload f)
           else f in
  (f, marshalHeaderInto f (u32 (blen (Payload f))) ++ Payload f).

Definition UnmarshalBinary (buf : bytes) : result error Frame :=
  check (blen buf <? HeaderSize) ErrShortHeader;;
  let got := be_get (slice 21 25 buf) in
  let want := crc32c (slice 0 21 buf) in
  check (negb (got =? want)) ErrBadCRC;;
  check (negb (bool_decide (slice 0 4 buf = Magic))) ErrBadMagic;;
  let ver := Z.shiftr (at_ buf 4) 4 in
  check (negb (ver =? ProtocolVersion)) ErrBadVersion;;
  check (negb (Z.land (at_ buf 4) reservedFlagMask =? 0)) ErrReservedFlag;;
  check (existsb (fun b => negb (b2z b =? 0)) (slice 25 36 buf)) ErrReservedNonzero;;
  let payloadLen := be_get (slice 17 21 buf) in
  check (negb (payloadLen =? blen buf - HeaderSize)) ErrLengthMismatch;;
  Ok (mkFrame ver (Z.land (at_ buf 4) 0x0F) (be_get (slice 5 7 buf))
        (be_get (slice 7 9 buf)) (be_get (slice 9 17 buf)) (drop 36 buf)).

(** The frame at the front of a stream buffer and the octets it occupies. *)
Definition ReadFrame (buf : bytes) : result error (Frame * Z) :=
  check (blen buf <? HeaderSize) ErrShortHeader;;
  let payloadLen := be_get (slice 17 21 buf) in
  let total := HeaderSize + payloadLen in
  check (MaxFrameSize <? total) ErrFrameTooLarge;;
  check (blen buf <? total) ErrIncompleteFrame;;
  f ← UnmarshalBinary (take (Z.to_nat total) buf);
  Ok (f, total).

(** ** Well-formed frames *)

(** The frames the wire format can carry: the wire version, no reserved flag
    bit, field widths, and a payload length the 32-bit field can hold. *)
Definition frame_wf (f : Frame) : Prop :=
  Version f = ProtocolVersion /\ 0 <= Flags f < 16 /\ Z.land (Flags f) reservedFlagMask = 0 /\
  is_u16 (Type_ f) /\ is_u16 (Channel f) /\ is_u64 (Seq f) /\ blen (Payload f) < 2 ^ 32.

Definition marshal (f : Frame) : bytes := (MarshalBinary f).2.

#[global] Arguments marshal : simpl never.
#[global] Arguments marshalHeaderInto : simpl never.
#[global] Arguments HeaderPrefix : simpl never.
#[global] Arguments UnmarshalBinary : simpl never.

Definition frame_size (f : Frame) : Z := HeaderSize + blen (Payload f).

Lemma length_HeaderPrefix f n : length (HeaderPrefix f n) = 21%nat.
Proof. done. Qed.

Lemma length_marshalHeaderInto f n : length (marshalHeaderInto f n) = 36%nat.
Proof. unfold marshalHeaderInto. by rewrite !length_app, length_HeaderPrefix, length_be_put. Qed.

Lemma marshal_eq f :
  Version f = ProtocolVersion ->
  marshal f = marshalHeaderInto f (u32 (blen (Payload f))) ++ Payload f.
Proof. intros H. unfold marshal, MarshalBinary. by rewrite H. Qed.

Lemma blen_marshal f : blen (marshal f) = frame_size f.
Proof.
  unfold marshal, MarshalBinary. destruct (Version f =? 0); cbn [snd];
    rewrite blen_app; unfold blen at 1; rewrite length_marshalHeaderInto; done.
Qed.

(** The layout of a marshalled header, field by field. *)
Lemma header_layout f n p :
  let b := marshalHeaderInto f n ++ p in
  slice 21 25 b = be_put 4 (crc32c (HeaderPrefix f n)) /\
  slice 0 21 b = HeaderPrefix f n /\ slice 0 4 b = Magic /\
  slice 25 36 b = replicate 11 x00 /\ slice 17 21 b = be_put 4 n /\
  slice 5 7 b = be_put 2 (Type_ f) /\ slice 7 9 b = be_put 2 (Channel f) /\
  slice 9 17 b = be_put 8 (Seq f) /\ drop 36 b = p.
Proof. repeat split; reflexivity. Qed.

(** Octet 4 packs the version and the flags; both come back. *)
Lemma octet4 f n p :
  Version f = ProtocolVersion -> 0 <= Flags f < 16 ->
  let b := marshalHeaderInto f n ++ p in
  Z.shiftr (at_ b 4) 4 = ProtocolVersion /\ Z.land (at_ b 4) 0x0F = Flags f /\
  Z.land (at_ b 4) reservedFlagMask = Z.land (Flags f) reservedFlagMask.
Proof.
  intros Hv Hf b.
  assert (at_ b 4 = b2z (z2b (Z.lor (Z.shiftl (Version f) 4) (Z.land (Flags f) 0x0F)))) as ->.
  { unfold b. change (at_ (marshalHeaderInto f n ++ p) 4) with (at_ (HeaderPrefix f n) 4).
    unfold HeaderPrefix. by rewrite Hv. }
  rewrite Hv. assert (exists k, (k < 16)%nat /\ Flags f = Z.of_nat k) as (k & Hk & ->)
    by (exists (Z.to_nat (Flags f)); lia).
  do 16 (destruct k as [|k]; [done|]). exfalso; clear -Hk; lia.
Qed.

Lemma crc_field f n : be_get (be_put 4 (crc32c (HeaderPrefix f n))) = crc32c (HeaderPrefix f n).
Proof. apply be_get_put_small, crc32c_u32. Qed.

Lemma unmarshal_marshal f : frame_wf f -> UnmarshalBinary (marshal f) = Ok f.
Proof.
  intros (Hv & Hf & Hres & Ht & Hc & Hs & Hp). pose proof (blen_marshal f) as Hlen.
  rewrite marshal_eq in * by done. unfold UnmarshalBinary.
  set (n := u32 _) in *. set (p := Payload f) in *.
  destruct (header_layout f n p) as (-> & -> & -> & -> & -> & -> & -> & -> & ->).
  destruct (octet4 f n p Hv Hf) as (-> & -> & ->).
  rewrite Hlen, crc_field, Hres. unfold frame_size, HeaderSize.
  rewrite (proj2 (Z.ltb_ge _ _)) by (unfold blen; lia).
  rewrite !Z.eqb_refl, bool_decide_true by done.
  change (existsb _ (replicate 11 x00)) with false. cbn.
  rewrite (be_get_put_small 4), !(be_get_put_small 2), (be_get_put_small 8)
    by first [exact Ht | exact Hc | exact Hs | apply Z.mod_pos_bound; done].
  replace (n =? _) with true.
  - cbn. by rewrite <- Hv; destruct f.
  - symmetry. pose proof (blen_nonneg p). unfold n, u32. rewrite Z.mod_small by done. unfold p. lia.
Qed.

(** ** Decoding accepts exactly the marshalled frames *)

(** A header of 36 octets is the concatenation of its fields. *)
Lemma header_fields (b : bytes) :
  (36 <= length b)%nat ->
  b = (slice 0 4 b ++ [nth 4 b x00] ++ slice 5 7 b ++ slice 7 9 b ++ slice 9 17 b
        ++ slice 17 21 b) ++ slice 21 25 b ++ slice 25 36 b ++ drop 36 b /\
  slice 0 21 b = slice 0 4 b ++ [nth 4 b x00] ++ slice 5 7 b ++ slice 7 9 b
        ++ slice 9 17 b ++ slice 17 21 b.
Proof.
  intros H. do 36 (destruct b as [|? b]; [cbn in H; lia|]). split; reflexivity.
Qed.

Lemma octet4_inv x :
  Z.shiftr (b2z x) 4 = ProtocolVersion ->
  z2b (Z.lor (Z.shiftl ProtocolVersion 4) (Z.land (Z.land (b2z x) 0x0F) 0x0F)) = x /\
  0 <= Z.land (b2z x) 0x0F < 16.
Proof. destruct x; try discriminate; intros _; vm_compute; split; congruence || split; congruence. Qed.

Lemma land_flags_mask z :
  Z.land (Z.land z 0x0F) reservedFlagMask = Z.land z reservedFlagMask.
Proof. by rewrite <- Z.land_assoc. Qed.

Lemma zero_octets l :
  existsb (fun b => negb (b2z b =? 0)) l = false -> l = replicate (length l) x00.
Proof.
  induction l as [|x l IH]; [done|]. cbn. rewrite orb_false_iff, negb_false_iff, Z.eqb_eq.
  intros [Hx Hl]. rewrite IH by done. f_equal; [by apply b2z_inj|]. by rewrite length_replicate.
Qed.

Lemma marshal_unmarshal b f :
  UnmarshalBinary b = Ok f -> frame_wf f /\ marshal f = b.
Proof.
  unfold UnmarshalBinary. intros H. inv_res H.
  rename H2 into Hcrc, H1 into Hmagic, H3 into Hver, H4 into Hres, H5 into Hz, H6 into Hlen.
  unfold HeaderSize, blen in *. assert (36 <= length b)%nat as H36 by lia.
  pose proof (octet4_inv _ Hver) as [Hx Hfl].
  assert (forall i j k, (i <= j <= 36)%nat -> (k = j - i)%nat -> length (slice i j b) = k) as Hsl
    by (intros; rewrite length_slice; lia).
  assert (blen (drop 36 b) = be_get (slice 17 21 b)) as Hp
    by (unfold blen; rewrite length_drop; lia).
  pose proof (be_get_fixed (slice 17 21 b) 4 ltac:(apply Hsl; lia)) as Hpl.
  split.
  - unfold frame_wf. cbn. rewrite land_flags_mask, Hp.
    split_and!; first [done | apply Hfl | apply Hpl
      | apply (be_get_fixed _ 2), Hsl; lia | apply (be_get_fixed _ 8), Hsl; lia].
  - rewrite marshal_eq by done. cbn [Payload].
    destruct (header_fields b H36) as [Hb Hpre]. etrans; [|symmetry; exact Hb].
    assert (HeaderPrefix (mkFrame (Z.shiftr (at_ b 4) 4) (Z.land (at_ b 4) 0x0F)
        (be_get (slice 5 7 b)) (be_get (slice 7 9 b)) (be_get (slice 9 17 b)) (drop 36 b))
        (u32 (blen (drop 36 b))) = slice 0 21 b) as Hh.
    { unfold HeaderPrefix. cbn [Version Flags Type_ Channel Seq]. rewrite Hver, Hp, Hpre, Hmagic.
      unfold u32. rewrite Z.mod_small by done.
      rewrite !be_put_get_eq by (apply Hsl; lia). unfold at_ in *. cbn. by rewrite Hx. }
    unfold marshalHeaderInto. rewrite Hh, <- Hcrc, be_put_get_eq by (apply Hsl; lia).
    apply zero_octets in Hz. rewrite (Hsl 25 36 11)%nat in Hz by lia.
    rewrite Hz, <- Hpre. by rewrite <- !app_assoc.
Qed.


#[export] Instance frame_codec : Codec error Frame frame_wf marshal UnmarshalBinary.
Proof.
  split; [exact unmarshal_marshal|]. intros b f H. by apply marshal_unmarshal.
Qed.

(** C11: a buffer parses to a frame exactly when the frame is well-formed (wire
    version, no reserved flag, field widths) and the buffer is its marshalled
    form: parsing inverts marshalling, and no other octets are accepted. *)
Theorem unmarshal_iff (b : bytes) (f : Frame) :
  UnmarshalBinary b = Ok f <-> frame_wf f /\ b = marshal f.
Proof.
  split; [intros H; apply marshal_unmarshal in H as [? <-]; done|].
  intros [? ->]. by apply unmarshal_marshal.
Qed.

(** ** The stream reader *)

(** The declared payload length of a marshalled header. *)
Lemma declared_length f rest :
  frame_wf f -> be_get (slice 17 21 (marshal f ++ rest)) = blen (Payload f).
Proof.
  intros (Hv & _ & _ & _ & _ & _ & Hp). rewrite marshal_eq, <- app_assoc by done.
  destruct (header_layout f (u32 (blen (Payload f))) (Payload f ++ rest))
    as (_ & _ & _ & _ & -> & _).
  rewrite be_get_put. unfold u32. pose proof (blen_nonneg (Payload f)).
  change (256 ^ Z.of_nat 4) with (2 ^ 32). by rewrite Z.mod_mod, Z.mod_small.
Qed.

Lemma read_marshal f rest :
  frame_wf f -> frame_size f <= MaxFrameSize ->
  ReadFrame (marshal f ++ rest) = Ok (f, frame_size f).
Proof.
  intros Hf Hmax. unfold ReadFrame. rewrite declared_length, blen_app, blen_marshal by done.
  change (HeaderSize + blen (Payload f)) with (frame_size f).
  pose proof (blen_nonneg rest). pose proof (blen_nonneg (Payload f)).
  assert (36 <= frame_size f) by (unfold frame_size, HeaderSize; lia).
  rewrite (proj2 (Z.ltb_ge _ HeaderSize)) by (unfold HeaderSize; lia). cbn.
  rewrite (proj2 (Z.ltb_ge MaxFrameSize _)) by lia. cbn.
  rewrite (proj2 (Z.ltb_ge _ (frame_size f))) by lia. cbn.
  rewrite take_app_length' by (pose proof (blen_marshal f); unfold blen in *; lia).
  by rewrite unmarshal_marshal.
Qed.

(** [ReadFrame] returns a frame exactly when the buffer starts with the
    marshalled form of a well-formed frame of at most [MaxFrameSize] octets, and
    the count it returns is the size of that frame; what follows is not read. *)
Theorem read_frame_iff (buf : bytes) (f : Frame) (n : Z) :
  ReadFrame buf = Ok (f, n) <->
  frame_wf f /\ n = frame_size f /\ n <= MaxFrameSize /\ exists rest, buf = marshal f ++ rest.
Proof.
  split.
  - unfold ReadFrame. intros H. inv_res H.
    match goal with Hu : UnmarshalBinary _ = Ok _ |- _ =>
      apply marshal_unmarshal in Hu as [Hf Hb]; symmetry in Hb end.
    set (total := HeaderSize + _) in *.
    assert (frame_size f = total) as Hsz.
    { rewrite <- blen_marshal, <- Hb. unfold blen in *. rewrite length_take.
      pose proof (be_get_range (slice 17 21 buf)). unfold total, HeaderSize in *. lia. }
    split_and!; [done|done|done|]. exists (drop (Z.to_nat total) buf).
    by rewrite <- Hb, take_drop.
  - intros (Hf & -> & Hmax & rest & ->). by apply read_marshal.
Qed.

(** Fed any proper prefix of a frame that fits the cap, [ReadFrame] asks for
    more octets ([ErrShortHeader] below 36 octets, [ErrIncompleteFrame] after);
    it never reports a hard parse error on a stream that is merely slow. *)
Theorem read_frame_prefix (f : Frame) (b tail : bytes)
    (Hf : frame_wf f) (Hmax : frame_size f <= MaxFrameSize)
    (Hb : b ++ tail = marshal f) (Htail : tail <> []) :
  ReadFrame b = Err (if blen b <? HeaderSize then ErrShortHeader else ErrIncompleteFrame).
Proof.
  unfold ReadFrame. destruct (Z.ltb_spec (blen b) HeaderSize) as [|Hge]; [done|]. cbn.
  assert (be_get (slice 17 21 b) = blen (Payload f)) as ->.
  { rewrite <- (declared_length f []), app_nil_r, <- Hb by done. f_equal.
    unfold slice. rewrite drop_app_le, take_app_le; [done| |];
      rewrite ?length_drop; unfold blen, HeaderSize in Hge; lia. }
  change (HeaderSize + blen (Payload f)) with (frame_size f).
  rewrite (proj2 (Z.ltb_ge MaxFrameSize _)) by lia. cbn.
  rewrite (proj2 (Z.ltb_lt _ _)); [done|].
  rewrite <- blen_marshal, <- Hb, blen_app. destruct tail; [done|].
  rewrite blen_cons. pose proof (blen_nonneg tail). lia.
Qed.

(** The caller's loop over a stream: parse the frame at the front, advance by
    the returned count, repeat; [rest] is what is left. *)
Inductive reads : bytes -> list Frame -> bytes -> Prop :=
| reads_done b : reads b [] b
| reads_step b f n fs rest :
    ReadFrame b = Ok (f, n) -> reads (drop (Z.to_nat n) b) fs rest ->
    reads b (f :: fs) rest.

Lemma reads_nil_inv b rest : reads b [] rest -> b = rest.
Proof. by inversion 1. Qed.

Lemma reads_cons_inv b f fs rest :
  reads b (f :: fs) rest ->
  exists n, ReadFrame b = Ok (f, n) /\ reads (drop (Z.to_nat n) b) fs rest.
Proof. inversion 1; eauto. Qed.

(** A stream that is the concatenation of marshalled frames is cut into
    exactly those frames, whatever follows them. *)
Theorem reads_concat (fs : list Frame) (rest : bytes)
    (Hfs : Forall (fun f => frame_wf f /\ frame_size f <= MaxFrameSize) fs) :
  reads (concat (marshal <$> fs) ++ rest) fs rest /\
  forall fs', reads (concat (marshal <$> fs) ++ rest) fs' rest -> rest = [] -> fs' = fs.
Proof.
  assert (forall f tl, frame_wf f ->
    drop (Z.to_nat (frame_size f)) (marshal f ++ tl) = tl) as Hdrop.
  { intros f tl _. apply drop_app_length'. pose proof (blen_marshal f). unfold blen in *. lia. }
  induction Hfs as [|f fs [Hf Hmax] Hfs [IH1 IH2]]; cbn [fmap list_fmap concat].
  - split; [constructor|]. intros fs' H ->. inversion H as [|? f n ? ? Hr]; subst; [done|].
    by vm_compute in Hr.
  - rewrite <- app_assoc. split.
    + econstructor; [by apply read_marshal|]. by rewrite Hdrop.
    + intros fs' H ->. destruct fs' as [|f' fs'].
      * apply reads_nil_inv, (f_equal blen) in H as Heq. rewrite blen_app, blen_marshal in Heq.
        pose proof (blen_nonneg (concat (marshal <$> fs) ++ [])).
        pose proof (blen_nonneg (Payload f)).
        unfold frame_size, HeaderSize, blen in *. cbn [length] in *. lia.
      * apply reads_cons_inv in H as (n & Hr & Hrest). rewrite read_marshal in Hr by done. injection Hr as <- <-.
        f_equal. apply IH2; [|done]. by rewrite Hdrop in Hrest.
Qed.

Definition sample_frame : Frame := mkFrame 2 2 0x0101 1 7 (str "hello").

Lemma sample_frame_wf : frame_wf sample_frame.
Proof. repeat split; by vm_compute. Qed.

Lemma read_frame_prefix_witness :
  ReadFrame (take 38 (marshal sample_frame)) = Err ErrIncompleteFrame.
Proof.
  exact (read_frame_prefix sample_frame (take 38 (marshal sample_frame))
    (drop 38 (marshal sample_frame)) sample_frame_wf ltac:(by vm_compute)
    (take_drop _ _) ltac:(by vm_compute)).
Defined.

Lemma reads_concat_witness :
  reads (concat (marshal <$> [sample_frame; sample_frame]) ++ [x4e])
    [sample_frame; sample_frame] [x4e].
Proof.
  refine (proj1 (reads_concat [sample_frame; sample_frame] [x4e] _)).
  repeat constructor; first [exact sample_frame_wf | by vm_compute].
Defined.
