(* ===== verification/FrameIntegrity.v ===== *)
(** * What the header checksum detects

    [UnmarshalBinary] recomputes CRC32C over octets 0..20 and compares it with
    octets 21..24 before it looks at any other field.  This file proves what that
    check catches in the 200 bits it covers: every corruption of at most five
    bits and every corruption of an odd number of bits.  The argument is the
    linear-code one: the check fails exactly when the syndrome (the exclusive or
    of the syndromes of the flipped positions) is non-zero. *)

From S2P Require Import Prelude Errors Crc32c Frame.
From Stdlib Require Import Strings.Byte.
Open Scope Z_scope.

(** ** Flipping bits *)

(** Bit [p mod 8] of octet [p / 8]. *)
Definition flip_bit (p : nat) (b : bytes) : bytes :=
  alter (fun x => z2b (Z.lxor (b2z x) (2 ^ (Z.of_nat (p mod 8))))) (p / 8)%nat b.

Definition flip_bits (ps : list nat) (b : bytes) : bytes := foldr flip_bit b ps.

(** The error pattern of one flipped bit. *)
Definition unit_error (n p : nat) : bytes :=
  alter (fun _ => z2b (2 ^ (Z.of_nat (p mod 8)))) (p / 8)%nat (replicate n x00).

Lemma xorb_zero b : xorb_bytes b (replicate (length b) x00) = b.
Proof.
  induction b as [|x b IH]; [done|]. cbn. rewrite Z.lxor_0_r, z2b_b2z. f_equal. exact IH.
Qed.

Lemma bit_value p : 0 <= 2 ^ Z.of_nat (p mod 8) < 256.
Proof.
  pose proof (Nat.mod_upper_bound p 8 ltac:(lia)). split; [lia|].
  change 256 with (2 ^ 8). apply Z.pow_lt_mono_r; lia.
Qed.

Lemma flip_bit_xor p b : flip_bit p b = xorb_bytes b (unit_error (length b) p).
Proof.
  unfold flip_bit, unit_error. pose proof (bit_value p) as Hv. revert Hv.
  generalize (2 ^ Z.of_nat (p mod 8)), (p / 8)%nat. intros v i Hv. revert i.
  induction b as [|x b IH]; intros [|i]; try done; cbn.
  - rewrite b2z_z2b_small by done. f_equal. symmetry. apply xorb_zero.
  - rewrite Z.lxor_0_r, z2b_b2z. f_equal. apply IH.
Qed.

Lemma length_flip_bit p b : length (flip_bit p b) = length b.
Proof. apply length_alter. Qed.

Lemma length_flip_bits ps b : length (flip_bits ps b) = length b.
Proof. unfold flip_bits. induction ps; cbn [foldr]; [done|]. by rewrite length_flip_bit. Qed.

(** ** Linearity of the two halves of the check *)

Lemma lxor_shuffle a b c d :
  Z.lxor (Z.lxor a b) (Z.lxor c d) = Z.lxor (Z.lxor a c) (Z.lxor b d).
Proof. rewrite !Z.lxor_assoc. f_equal. rewrite <- !Z.lxor_assoc. f_equal. apply Z.lxor_comm. Qed.

Lemma be_get_lxor a b :
  length a = length b -> be_get (xorb_bytes a b) = Z.lxor (be_get a) (be_get b).
Proof.
  unfold be_get, xorb_bytes. change 0 with (Z.lxor 0 0) at 1. generalize 0 at 1 3. generalize 0.
  revert b. induction a as [|x a IH]; intros [|y b] u v Hl; try done.
  cbn [zip_with fold_left]. rewrite b2z_lxor.
  replace (Z.lxor v u * 256 + Z.lxor (b2z x) (b2z y))
    with (Z.lxor (v * 256 + b2z x) (u * 256 + b2z y)); [apply IH; by injection Hl|].
  rewrite !shl8_lxor by first [apply b2z_range | apply (lxor_bound 8); [done|apply b2z_range..]].
  rewrite Z.shiftl_lxor. apply lxor_shuffle.
Qed.

Lemma xorb_bytes_slice i j a b :
  slice i j (xorb_bytes a b) = xorb_bytes (slice i j a) (slice i j b).
Proof. unfold slice, xorb_bytes. by rewrite zip_with_drop, zip_with_take. Qed.

(** The stored checksum against the computed one. *)
Definition syndrome (buf : bytes) : Z :=
  Z.lxor (be_get (slice 21 25 buf)) (crc32c (slice 0 21 buf)).

(** What an error pattern adds to the syndrome. *)
Definition error_syndrome (e : bytes) : Z :=
  Z.lxor (be_get (slice 21 25 e)) (crc_update 0 (slice 0 21 e)).

Lemma syndrome_lxor b e :
  length b = length e -> syndrome (xorb_bytes b e) = Z.lxor (syndrome b) (error_syndrome e).
Proof.
  intros H. unfold syndrome, error_syndrome. rewrite !xorb_bytes_slice.
  rewrite be_get_lxor, crc32c_lxor
    by (unfold slice; rewrite !length_take, !length_drop; lia).
  apply lxor_shuffle.
Qed.

(** The contribution of bit [p]; octets after the first 25 contribute nothing,
    so it does not depend on the length of the buffer. *)
Definition bit_syndrome (p : nat) : Z := error_syndrome (unit_error 25 p).

Lemma unit_error_slice i j n p :
  (j <= 25 <= n)%nat -> slice i j (unit_error n p) = slice i j (unit_error 25 p).
Proof.
  intros H. unfold slice, unit_error. apply list_eq. intros k.
  destruct (decide (k < j - i)%nat) as [Hk|Hk];
    [|by rewrite !lookup_take_ge by lia].
  rewrite !lookup_take_lt, !lookup_drop by lia.
  destruct (decide (p / 8 = i + k)%nat) as [->|Hne].
  - rewrite !list_lookup_alter_eq. by rewrite !lookup_replicate_2 by lia.
  - rewrite !list_lookup_alter_ne by done. by rewrite !lookup_replicate_2 by lia.
Qed.

Lemma syndrome_flip_bit p b :
  (25 <= length b)%nat -> syndrome (flip_bit p b) = Z.lxor (syndrome b) (bit_syndrome p).
Proof.
  intros H. rewrite flip_bit_xor, syndrome_lxor.
  - f_equal. unfold bit_syndrome, error_syndrome.
    by rewrite (unit_error_slice 21 25 (length b)), (unit_error_slice 0 21 (length b)) by lia.
  - unfold unit_error. by rewrite length_alter, length_replicate.
Qed.

Definition xor_sum (l : list Z) : Z := foldr Z.lxor 0 l.

Lemma syndrome_flip_bits ps b :
  (25 <= length b)%nat ->
  syndrome (flip_bits ps b) = Z.lxor (syndrome b) (xor_sum (bit_syndrome <$> ps)).
Proof.
  intros H. induction ps as [|p ps IH]; [cbn; by rewrite Z.lxor_0_r|].
  change (flip_bits (p :: ps) b) with (flip_bit p (flip_bits ps b)).
  rewrite syndrome_flip_bit, IH by (by rewrite length_flip_bits).
  change (xor_sum (bit_syndrome <$> p :: ps))
    with (Z.lxor (bit_syndrome p) (xor_sum (bit_syndrome <$> ps))).
  rewrite (Z.lxor_comm (bit_syndrome p)). by rewrite <- Z.lxor_assoc.
Qed.

(** ** A fast test that a list of numbers has no duplicates: split on the low
    bit until every part has at most one element. *)

Fixpoint distinct (fuel : nat) (l : list Z) : bool :=
  match l with
  | [] | [_] => true
  | _ => match fuel with
         | O => false
         | S n => distinct n (map Z.div2 (List.filter Z.odd l)) &&
                  distinct n (map Z.div2 (List.filter Z.even l))
         end
  end.

Lemma NoDup_split_odd l :
  NoDup (List.filter Z.odd l) -> NoDup (List.filter Z.even l) -> NoDup l.
Proof.
  induction l as [|x l IH]; cbn; [constructor|]. rewrite <- Z.negb_odd.
  destruct (Z.odd x) eqn:E; cbn; intros H1 H2.
  - apply NoDup_cons in H1 as [Hx H1]. constructor; [|by apply IH].
    rewrite list_elem_of_In, filter_In in Hx. rewrite list_elem_of_In. tauto.
  - apply NoDup_cons in H2 as [Hx H2]. constructor; [|by apply IH].
    rewrite list_elem_of_In, filter_In, <- Z.negb_odd, E in Hx. rewrite list_elem_of_In. tauto.
Qed.

Lemma distinct_NoDup n l : distinct n l = true -> NoDup l.
Proof.
  revert l. induction n as [|n IH]; intros [|x [|y l]] H; try done; try apply NoDup_nil_2;
    try apply NoDup_singleton.
  cbn [distinct] in H. apply andb_true_iff in H as [H1 H2].
  apply NoDup_split_odd; eapply NoDup_fmap_1; by apply IH.
Qed.

(** ** Two, three and four syndromes never cancel *)

Fixpoint pair_xors (l : list Z) : list Z :=
  match l with
  | [] => []
  | x :: l => map (Z.lxor x) l ++ pair_xors l
  end.

Lemma lookup_map_Some {A B} (f : A -> B) l i x :
  l !! i = Some x -> map f l !! i = Some (f x).
Proof. intros H. change (map f l) with (f <$> l). by rewrite list_lookup_fmap, H. Qed.

Lemma pair_xors_lookup l i j x y :
  (i < j)%nat -> l !! i = Some x -> l !! j = Some y -> Z.lxor x y ∈ pair_xors l.
Proof.
  revert i j. induction l as [|z l IH]; intros i j Hij Hi Hj; [done|].
  destruct j as [|j]; [lia|]. cbn [pair_xors]. apply elem_of_app. destruct i as [|i].
  - injection Hi as ->. left. apply list_elem_of_fmap_2. by eapply list_elem_of_lookup_2.
  - right. apply (IH i j); [lia|done|done].
Qed.

Lemma pair_xors_inj l i j k m x y z w :
  NoDup (pair_xors l) -> (i < j)%nat -> (k < m)%nat ->
  l !! i = Some x -> l !! j = Some y -> l !! k = Some z -> l !! m = Some w ->
  Z.lxor x y = Z.lxor z w -> i = k /\ j = m.
Proof.
  revert i j k m. induction l as [|a l IH]; intros i j k m Hnd Hij Hkm Hi Hj Hk Hm Heq; [done|].
  cbn [pair_xors] in Hnd. apply NoDup_app in Hnd as (Hn1 & Hdis & Hn2).
  assert (forall j y, l !! j = Some y -> Z.lxor a y ∈ map (Z.lxor a) l) as Hin
    by (intros; apply list_elem_of_fmap_2; by eapply list_elem_of_lookup_2).
  destruct j as [|j], m as [|m]; try lia. cbn in Hj, Hm.
  destruct i as [|i], k as [|k]; cbn in Hi, Hk; try injection Hi as <-; try injection Hk as <-.
  - split; [done|]. f_equal. eapply (NoDup_lookup (map (Z.lxor a) l)); [done| |].
    + by apply lookup_map_Some, Hj.
    + rewrite Heq. by apply lookup_map_Some.
  - destruct (Hdis (Z.lxor a y)); [by eapply Hin|]. rewrite Heq.
    apply (pair_xors_lookup l k m); [lia|done|done].
  - destruct (Hdis (Z.lxor a w)); [by eapply Hin|]. rewrite <- Heq.
    apply (pair_xors_lookup l i j); [lia|done|done].
  - destruct (IH i j k m) as [-> ->]; [done|lia|lia|done..].
Qed.

(** The syndromes of the 200 positions. *)
Definition syndrome_table : list Z := Eval vm_compute in map bit_syndrome (seq 0 200).

Lemma syndrome_table_eq : map bit_syndrome (seq 0 200) = syndrome_table.
Proof. by vm_compute. Qed.

Lemma syndrome_pairs_distinct : distinct 32 (0 :: pair_xors syndrome_table) = true.
Proof. by vm_compute. Qed.

(** The parity of the 32 bits; it is linear, and every single-bit syndrome is
    odd (the generator polynomial has the factor x+1). *)
Definition parity32 (z : Z) : bool := foldr (fun i acc => xorb (Z.testbit z (Z.of_nat i)) acc) false (seq 0 32).

Lemma parity32_lxor a b : parity32 (Z.lxor a b) = xorb (parity32 a) (parity32 b).
Proof.
  unfold parity32. induction (seq 0 32) as [|i l IH]; [done|].
  cbn [foldr]. rewrite IH, Z.lxor_spec.
  clear IH. repeat match goal with |- context [foldr ?f false l] => destruct (foldr f false l) end;
    by destruct (Z.testbit a (Z.of_nat i)), (Z.testbit b (Z.of_nat i)).
Qed.

Lemma syndrome_table_odd : forallb parity32 syndrome_table = true.
Proof. by vm_compute. Qed.

Lemma table_lookup p : (p < 200)%nat -> syndrome_table !! p = Some (bit_syndrome p).
Proof.
  intros H. rewrite <- syndrome_table_eq. apply lookup_map_Some.
  by apply (lookup_seq_lt 0 200 p H).
Qed.

Lemma parity32_sum ps :
  Forall (fun p => (p < 200)%nat) ps ->
  parity32 (xor_sum (bit_syndrome <$> ps)) = Nat.odd (length ps).
Proof.
  induction 1 as [|p ps Hp Hps IH]; [done|].
  change (xor_sum (bit_syndrome <$> p :: ps))
    with (Z.lxor (bit_syndrome p) (xor_sum (bit_syndrome <$> ps))).
  rewrite parity32_lxor, IH. cbn [length]. rewrite Nat.odd_succ, <- Nat.negb_odd.
  pose proof syndrome_table_odd as Hodd. rewrite forallb_forall in Hodd.
  rewrite Hodd; [done|]. rewrite <- list_elem_of_In.
  eapply list_elem_of_lookup_2. by apply table_lookup.
Qed.

Lemma syndrome_pair_nonzero p q :
  (p < 200)%nat -> (q < 200)%nat -> p <> q -> Z.lxor (bit_syndrome p) (bit_syndrome q) <> 0.
Proof.
  intros Hp Hq Hne. pose proof (distinct_NoDup _ _ syndrome_pairs_distinct) as Hnd.
  apply NoDup_cons in Hnd as [H0 _]. intros Heq. apply H0. rewrite <- Heq.
  destruct (decide (p < q)%nat); [|rewrite Z.lxor_comm].
  - apply (pair_xors_lookup _ p q); eauto using table_lookup.
  - apply (pair_xors_lookup _ q p); [lia|eauto using table_lookup..].
Qed.

Lemma syndrome_pairs_inj p q r s :
  (p < 200)%nat -> (q < 200)%nat -> (r < 200)%nat -> (s < 200)%nat ->
  p <> q -> p <> r -> p <> s -> r <> s ->
  Z.lxor (bit_syndrome p) (bit_syndrome q) <> Z.lxor (bit_syndrome r) (bit_syndrome s).
Proof.
  intros Hp Hq Hr Hs Hpq Hpr Hps Hrs Heq.
  pose proof (distinct_NoDup _ _ syndrome_pairs_distinct) as Hnd.
  apply NoDup_cons in Hnd as [_ Hnd].
  assert (forall i j k m, (i < j)%nat -> (k < m)%nat -> (j < 200)%nat -> (m < 200)%nat ->
    Z.lxor (bit_syndrome i) (bit_syndrome j) = Z.lxor (bit_syndrome k) (bit_syndrome m) ->
    i = k /\ j = m) as Hinj.
  { intros i j k m Hij Hkm Hj Hm. eapply pair_xors_inj; try done; apply table_lookup; lia. }
  destruct (decide (p < q)%nat), (decide (r < s)%nat).
  - destruct (Hinj p q r s); auto; lia.
  - rewrite (Z.lxor_comm (bit_syndrome r)) in Heq. destruct (Hinj p q s r); auto; lia.
  - rewrite (Z.lxor_comm (bit_syndrome p)) in Heq. destruct (Hinj q p r s); auto; lia.
  - rewrite (Z.lxor_comm (bit_syndrome r)), (Z.lxor_comm (bit_syndrome p)) in Heq.
    destruct (Hinj q p s r); auto; lia.
Qed.

Lemma error_syndrome_nonzero ps :
  Forall (fun p => (p < 200)%nat) ps -> NoDup ps -> ps <> [] ->
  (length ps <= 5)%nat \/ Nat.odd (length ps) = true ->
  xor_sum (bit_syndrome <$> ps) <> 0.
Proof.
  intros Hb Hnd Hne Hlen Hz. pose proof (parity32_sum ps Hb) as Hpar.
  rewrite Hz in Hpar. change (parity32 0) with false in Hpar.
  destruct Hlen as [Hlen|]; [|congruence].
  destruct ps as [|p [|q [|r [|s [|t [|]]]]]]; try done; [| |cbn in Hlen; lia].
  - rewrite !Forall_cons in Hb. apply NoDup_cons in Hnd as [Hpq _].
    apply not_elem_of_cons in Hpq as [Hpq _].
    apply (syndrome_pair_nonzero p q); [tauto|tauto|done|].
    cbn in Hz. by rewrite Z.lxor_0_r in Hz.
  - rewrite !Forall_cons in Hb. rewrite !NoDup_cons, !not_elem_of_cons in Hnd.
    destruct_and!. apply (syndrome_pairs_inj p q r s); [done..|].
    apply Z.lxor_eq. cbn in Hz. by rewrite Z.lxor_0_r, <- Z.lxor_assoc in Hz.
Qed.

(** C33: flipping any one to five bits of octets 0..24 of a frame that parses,
    or any odd number of them, is detected as a checksum error, whatever the
    header and the payload are. *)
Theorem header_corruption_detected (b : bytes) (f : Frame) (ps : list nat)
    (Hf : UnmarshalBinary b = Ok f)
    (Hps : Forall (fun p => (p < 200)%nat) ps) (Hnd : NoDup ps) (Hne : ps <> [])
    (Hlen : (length ps <= 5)%nat \/ Nat.odd (length ps) = true) :
  UnmarshalBinary (flip_bits ps b) = Err ErrBadCRC.
Proof.
  unfold UnmarshalBinary in Hf. inv_res Hf.
  assert (25 <= length b)%nat as H25 by (unfold blen, HeaderSize in *; lia).
  pose proof (syndrome_flip_bits ps b H25) as Hs.
  assert ((blen (flip_bits ps b) <? HeaderSize) = false) as Hl
    by (unfold blen in *; rewrite length_flip_bits; by apply Z.ltb_ge).
  unfold UnmarshalBinary. rewrite Hl. cbn [check mbind result_bind].
  rewrite (proj2 (Z.eqb_neq (be_get (slice 21 25 _)) _)); [reflexivity|]. intros Heq.
  apply (error_syndrome_nonzero ps Hps Hnd Hne Hlen).
  transitivity (syndrome (flip_bits ps b)).
  - rewrite Hs. unfold syndrome. by rewrite Hf2, Z.lxor_nilpotent, Z.lxor_0_l.
  - unfold syndrome. by rewrite Heq, Z.lxor_nilpotent.
Qed.

Lemma header_corruption_detected_witness :
  UnmarshalBinary (flip_bits [3; 100; 101; 199]%nat (marshal sample_frame)) = Err ErrBadCRC.
Proof.
  apply (header_corruption_detected _ sample_frame); [by vm_compute| | |done|left; cbn; lia].
  - repeat constructor; lia.
  - by apply (bool_decide_unpack _); vm_compute.
Defined.
