(* ===== verification/Tlv.v ===== *)
(** * Extension TLVs (tlv.go)

    Type-length-value lists: [Encode], the decoding loop of [DecodeTLVs] and the
    must-understand rule. *)

From S2P Require Import Prelude Errors.
From Stdlib Require Import Strings.Byte.
Open Scope Z_scope.

Definition TLVProfileOffer : Z := 0x01.
Definition TLVProfileSelect : Z := 0x02.
Definition TLVKEMOffer : Z := 0x03.
Definition TLVKEMSelect : Z := 0x04.
Definition TLVSigOffer : Z := 0x05.
Definition TLVSigSelect : Z := 0x06.
Definition TLVKEMShare : Z := 0x07.
Definition TLVKEMCiphertext : Z := 0x08.
Definition TLVIdentityKey : Z := 0x09.
Definition TLVCertVerify : Z := 0x0A.
Definition TLVFinished : Z := 0x0B.
Definition TLVAEADOffer : Z := 0x0C.
Definition TLVAEADSelect : Z := 0x0D.
Definition TLVKeyUpdateMarker : Z := 0x17.
Definition TLVProtectionMode : Z := 0x18.
Definition TLVRatchetGeneration : Z := 0x19.

Definition MaxTLVsPerFrame : Z := 64.

Record TLV : Type := mkTLV {
  TLVType : Z;   (* uint16 *)
  TLVValue : bytes
}.

Definition ForwardIncompatible (t : Z) : bool := negb (Z.land t 0x8000 =? 0).

Fixpoint CheckMustUnderstand (tlvs : list TLV) (recognized : Z -> bool) : result error unit :=
  match tlvs with
  | [] => Ok tt
  | t :: tlvs =>
      check (ForwardIncompatible (TLVType t) && negb (recognized (TLVType t)))
        ErrUnknownCriticalTLV;;
      CheckMustUnderstand tlvs recognized
  end.

Definition TLV_Encode (t : TLV) (dst : bytes) : bytes :=
  (dst ++ be_put 2 (TLVType t) ++ be_put 2 (u16 (blen (TLVValue t)))) ++ TLVValue t.

(** The loop of [DecodeTLVs]; an iteration consumes at least four octets, so
    [length buf] bounds the number of iterations. *)
Fixpoint DecodeTLVs_loop (fuel : nat) (out : list TLV) (buf : bytes) : result error (list TLV) :=
  match buf, fuel with
  | [], _ => Ok out
  | _, O => Err ErrTruncatedTLV
  | _, S fuel =>
      check (blen buf <? 4) ErrTruncatedTLV;;
      let typ := be_get (slice 0 2 buf) in
      let ln := be_get (slice 2 4 buf) in
      check (blen buf <? 4 + ln) ErrTruncatedTLV;;
      let n := Z.to_nat (4 + ln) in
      let out := out ++ [mkTLV typ (slice 4 n buf)] in
      check (MaxTLVsPerFrame <? blen out) ErrTooManyTLVs;;
      DecodeTLVs_loop fuel out (drop n buf)
  end.

Definition DecodeTLVs (buf : bytes) : result error (list TLV) :=
  DecodeTLVs_loop (length buf) [] buf.

(** ** Encoding a list *)

Definition tlv_wf (t : TLV) : Prop := is_u16 (TLVType t) /\ blen (TLVValue t) < 2 ^ 16.

Definition encode_tlv (t : TLV) : bytes := TLV_Encode t [].

(** Chained [dst = t.Encode(dst)] calls. *)
Definition encode_tlvs (ts : list TLV) : bytes := fold_left (fun dst t => TLV_Encode t dst) ts [].

Lemma TLV_Encode_app t dst : TLV_Encode t dst = dst ++ encode_tlv t.
Proof. unfold encode_tlv, TLV_Encode. by rewrite !app_nil_l, !app_assoc. Qed.

Lemma encode_tlvs_fold ts dst :
  fold_left (fun dst t => TLV_Encode t dst) ts dst = dst ++ concat (encode_tlv <$> ts).
Proof.
  revert dst. induction ts as [|t ts IH]; intros dst; [by rewrite app_nil_r|].
  cbn. by rewrite IH, TLV_Encode_app, app_assoc.
Qed.

Lemma encode_tlvs_concat ts : encode_tlvs ts = concat (encode_tlv <$> ts).
Proof. apply encode_tlvs_fold. Qed.

Lemma encode_tlvs_app ts1 ts2 : encode_tlvs (ts1 ++ ts2) = encode_tlvs ts1 ++ encode_tlvs ts2.
Proof. by rewrite !encode_tlvs_concat, fmap_app, concat_app. Qed.

Lemma encode_tlvs_cons t ts : encode_tlvs (t :: ts) = encode_tlv t ++ encode_tlvs ts.
Proof. by rewrite !encode_tlvs_concat. Qed.

Lemma blen_encode_tlv t : blen (encode_tlv t) = 4 + blen (TLVValue t).
Proof. unfold encode_tlv, TLV_Encode. by autorewrite with res. Qed.

(** ** One iteration of the loop *)

(** What the loop reads off the front of [encode_tlv t ++ rest]. *)
Lemma decode_front t rest :
  tlv_wf t ->
  let b := encode_tlv t ++ rest in
  let n := Z.to_nat (4 + blen (TLVValue t)) in
  be_get (slice 0 2 b) = TLVType t /\ be_get (slice 2 4 b) = blen (TLVValue t) /\
  slice 4 n b = TLVValue t /\ drop n b = rest.
Proof.
  intros [Ht Hv] b n. pose proof (blen_nonneg (TLVValue t)) as H0.
  assert (b = be_put 2 (TLVType t) ++ be_put 2 (u16 (blen (TLVValue t))) ++ TLVValue t ++ rest) as Hb.
  { unfold b, encode_tlv, TLV_Encode. by rewrite app_nil_l, <- !app_assoc. }
  assert (slice 0 2 b = be_put 2 (TLVType t)) as -> by (by rewrite Hb).
  assert (slice 2 4 b = be_put 2 (u16 (blen (TLVValue t)))) as -> by (by rewrite Hb).
  assert (drop 4 b = TLVValue t ++ rest) as Hd by (by rewrite Hb).
  split_and!.
  - by apply be_get_put_small.
  - rewrite be_get_put_small; [by apply Z.mod_small|apply u16_range].
  - unfold slice. rewrite Hd. apply take_app_length'. unfold n, blen. lia.
  - replace n with (4 + length (TLVValue t))%nat by (unfold n, blen; lia).
    rewrite <- drop_drop, Hd. by apply drop_app_length'.
Qed.

Lemma loop_iter fuel out t rest :
  tlv_wf t ->
  DecodeTLVs_loop (S fuel) out (encode_tlv t ++ rest)
  = if MaxTLVsPerFrame <? blen out + 1 then Err ErrTooManyTLVs
    else DecodeTLVs_loop fuel (out ++ [t]) rest.
Proof.
  intros Ht. destruct (decode_front t rest Ht) as (H1 & H2 & H3 & H4).
  set (b := encode_tlv t ++ rest) in *.
  assert (blen b = 4 + blen (TLVValue t) + blen rest) as Hl
    by (unfold b; rewrite blen_app, blen_encode_tlv; done).
  pose proof (blen_nonneg (TLVValue t)). pose proof (blen_nonneg rest).
  destruct b as [|x b'] eqn:Eb; [change (blen []) with 0 in Hl; lia|]. cbn [DecodeTLVs_loop].
  rewrite H1, H2, H3, H4. rewrite (proj2 (Z.ltb_ge _ 4)), (proj2 (Z.ltb_ge _ (4 + _))) by lia.
  rewrite blen_app. change (blen [_]) with 1.
  cbn. destruct t. by destruct (MaxTLVsPerFrame <? _).
Qed.

Lemma loop_decodes fuel out ts rest :
  Forall tlv_wf ts -> blen out + blen ts <= MaxTLVsPerFrame ->
  DecodeTLVs_loop (length ts + fuel) out (encode_tlvs ts ++ rest)
  = DecodeTLVs_loop fuel (out ++ ts) rest.
Proof.
  intros Hts. revert out. induction Hts as [|t ts Ht Hts IH]; intros out Hlen.
  - by rewrite app_nil_r.
  - rewrite blen_cons in Hlen. pose proof (blen_nonneg ts).
    rewrite encode_tlvs_cons, <- app_assoc. cbn [length Nat.add].
    rewrite loop_iter by done. rewrite (proj2 (Z.ltb_ge _ _)) by lia.
    rewrite IH by (rewrite blen_app; change (blen [_]) with 1; lia).
    by rewrite <- app_assoc.
Qed.

(** Every buffer the loop is run on either starts with a TLV or is cut short. *)
Lemma front_cases b :
  b <> [] ->
  (exists t rest, tlv_wf t /\ b = encode_tlv t ++ rest) \/
  (blen b <? 4) = true \/ (blen b <? 4 + be_get (slice 2 4 b)) = true.
Proof.
  intros Hne. destruct (Z.ltb_spec (blen b) 4) as [|H4]; [by right; left|].
  destruct (Z.ltb_spec (blen b) (4 + be_get (slice 2 4 b))) as [|Hl]; [by right; right|].
  left. set (ln := be_get (slice 2 4 b)) in *. set (n := Z.to_nat (4 + ln)).
  assert (0 <= ln < 2 ^ 16) as Hln.
  { pose proof (be_get_range (slice 2 4 b)). fold ln in H. unfold blen in *.
    replace (length (slice 2 4 b)) with 2%nat in H; [done|].
    unfold slice. rewrite length_take, length_drop. lia. }
  assert (blen (slice 4 n b) = ln) as Hv.
  { unfold blen, slice in *. rewrite length_take, length_drop. unfold n. lia. }
  exists (mkTLV (be_get (slice 0 2 b)) (slice 4 n b)), (drop n b).
  do 4 (destruct b as [|? b]; [cbn in H4; unfold blen in H4; cbn in H4; lia|]).
  split.
  - split; cbn [TLVType TLVValue]; [exact (be_get_range [_; _])|lia].
  - unfold encode_tlv, TLV_Encode. cbn [TLVType TLVValue]. rewrite Hv.
    unfold u16. rewrite Z.mod_small by done.
    unfold ln. rewrite !be_put_get_eq by done. rewrite app_nil_l, <- !app_assoc.
    by rewrite !slice_app_cut by (unfold n; lia).
Qed.

Lemma loop_truncated fuel out b :
  (forall t rest, tlv_wf t -> b <> encode_tlv t ++ rest) -> b <> [] ->
  DecodeTLVs_loop (S fuel) out b = Err ErrTruncatedTLV.
Proof.
  intros Hno Hne. destruct (front_cases b Hne) as [(t & rest & Ht & ->)|Hcut].
  { by destruct (Hno t rest Ht). }
  destruct b as [|x b]; [done|]. cbn [DecodeTLVs_loop].
  destruct Hcut as [->| ->]; [done|]. by destruct (blen _ <? 4).
Qed.

(** A buffer is a run of TLVs followed by octets that do not start with one. *)
Lemma tlv_prefix b :
  exists ts rest, b = encode_tlvs ts ++ rest /\ Forall tlv_wf ts /\
    forall t rest', tlv_wf t -> rest <> encode_tlv t ++ rest'.
Proof.
  remember (length b) as n eqn:Hn. revert b Hn.
  induction (lt_wf n) as [n _ IH]; intros b ->.
  destruct (decide (b = [])) as [->|Hne].
  { exists [], []. split_and!; [done|done|]. intros t r _ Heq.
    apply (f_equal blen) in Heq. rewrite blen_app, blen_encode_tlv in Heq.
    pose proof (blen_nonneg (TLVValue t)). pose proof (blen_nonneg r).
    change (blen []) with 0 in Heq. lia. }
  assert ((exists t rest, tlv_wf t /\ b = encode_tlv t ++ rest) \/
          forall t rest, tlv_wf t -> b <> encode_tlv t ++ rest) as [(t & r & Ht & ->)|Hno].
  { destruct (front_cases b Hne) as [?|Hcut]; [by left|]. right. intros t r Ht ->.
    destruct (decode_front t r Ht) as (_ & H2 & _). rewrite H2, blen_app, blen_encode_tlv in Hcut.
    pose proof (blen_nonneg (TLVValue t)). pose proof (blen_nonneg r). lia. }
  - destruct (IH (length r)) with (b := r) as (ts & rest & -> & Hts & Hrest); [|done|].
    { pose proof (blen_encode_tlv t). pose proof (blen_nonneg (TLVValue t)).
      unfold blen in *. rewrite length_app. lia. }
    exists (t :: ts), rest. rewrite encode_tlvs_cons, app_assoc.
    split_and!; [done|by constructor|done].
  - by exists [], b.
Qed.

Lemma length_encode_tlvs ts : (4 * length ts <= length (encode_tlvs ts))%nat.
Proof.
  induction ts as [|t ts IH]; [done|]. rewrite encode_tlvs_cons, length_app. cbn [length].
  pose proof (blen_encode_tlv t). pose proof (blen_nonneg (TLVValue t)). unfold blen in *. lia.
Qed.

(** The whole behaviour of [DecodeTLVs], on the decomposition of its input. *)
Lemma decode_tlvs_prefix ts rest :
  Forall tlv_wf ts -> (forall t rest', tlv_wf t -> rest <> encode_tlv t ++ rest') ->
  DecodeTLVs (encode_tlvs ts ++ rest) =
    if MaxTLVsPerFrame <? blen ts then Err ErrTooManyTLVs
    else match rest with [] => Ok ts | _ => Err ErrTruncatedTLV end.
Proof.
  intros Hts Hrest. unfold DecodeTLVs. pose proof (length_encode_tlvs ts) as Hlen.
  destruct (Z.ltb_spec MaxTLVsPerFrame (blen ts)) as [Hmany|Hfew].
  - assert (exists ts1 t ts2, ts = ts1 ++ t :: ts2 /\ length ts1 = 64%nat)
      as (ts1 & t & ts2 & -> & H64).
    { unfold blen, MaxTLVsPerFrame in Hmany. exists (take 64 ts).
      destruct (drop 64 ts) as [|t ts2] eqn:Ed.
      - apply (f_equal length) in Ed. rewrite length_drop in Ed. cbn in Ed. lia.
      - exists t, ts2. rewrite <- Ed, take_drop, length_take. split; [done|lia]. }
    apply Forall_app in Hts as [Hts1 Hts2]. apply Forall_cons in Hts2 as [Ht _].
    rewrite encode_tlvs_app, <- app_assoc, encode_tlvs_cons, <- app_assoc.
    set (r := encode_tlvs ts2 ++ rest). pose proof (length_encode_tlvs ts1).
    match goal with |- DecodeTLVs_loop ?n _ _ = _ =>
      replace n with (length ts1 + S (n - length ts1 - 1))%nat
        by (rewrite (length_app (encode_tlvs ts1)); lia) end.
    rewrite loop_decodes by (done || (unfold blen, MaxTLVsPerFrame; cbn [length]; lia)).
    rewrite loop_iter, app_nil_l by done. unfold blen. by rewrite H64.
  - rewrite length_app.
    replace (length (encode_tlvs ts) + length rest)%nat with
      (length ts + (length (encode_tlvs ts) - length ts + length rest))%nat by lia.
    rewrite loop_decodes by (done || (unfold blen at 1; cbn; lia)). rewrite app_nil_l.
    destruct rest as [|x rest]; [by destruct (_ + _)%nat|].
    cbn [length]. rewrite Nat.add_succ_r. by apply loop_truncated.
Qed.

Definition tlvs_wf (ts : list TLV) : Prop := Forall tlv_wf ts /\ blen ts <= MaxTLVsPerFrame.

Lemma no_tlv_in_nil t rest : [] <> encode_tlv t ++ rest.
Proof.
  intros Heq. apply (f_equal blen) in Heq. rewrite blen_app, blen_encode_tlv in Heq.
  pose proof (blen_nonneg (TLVValue t)). pose proof (blen_nonneg rest).
  change (blen []) with 0 in Heq. lia.
Qed.

Lemma decode_encode_tlvs ts : tlvs_wf ts -> DecodeTLVs (encode_tlvs ts) = Ok ts.
Proof.
  intros [Hts Hlen]. rewrite <- (app_nil_r (encode_tlvs ts)).
  rewrite decode_tlvs_prefix; [|done|intros; apply no_tlv_in_nil].
  by rewrite (proj2 (Z.ltb_ge _ _)).
Qed.

Lemma decode_tlvs_inv b ts : DecodeTLVs b = Ok ts -> tlvs_wf ts /\ b = encode_tlvs ts.
Proof.
  destruct (tlv_prefix b) as (ts' & rest & -> & Hts & Hrest).
  rewrite decode_tlvs_prefix by done.
  destruct (Z.ltb_spec MaxTLVsPerFrame (blen ts')) as [|Hlen]; [done|].
  destruct rest; [|done]. intros [=<-]. by rewrite app_nil_r.
Qed.

#[export] Instance tlvs_codec : Codec error (list TLV) tlvs_wf encode_tlvs DecodeTLVs.
Proof. split; [exact decode_encode_tlvs|]. intros b ts H. by apply decode_tlvs_inv in H as [_ ->]. Qed.

(** C31: decoding a payload gives a list of TLVs exactly when the payload is the
    concatenation of their encodings and there are at most 64 of them: decoding
    inverts encoding and accepts nothing else. *)
Theorem decode_tlvs_iff (b : bytes) (ts : list TLV) :
  DecodeTLVs b = Ok ts <-> tlvs_wf ts /\ b = encode_tlvs ts.
Proof.
  split; [apply decode_tlvs_inv|]. intros [? ->]. by apply decode_encode_tlvs.
Qed.

(** Every payload splits into a maximal run of TLVs and a remainder, and
    that split decides the result: the cap is reported first (even when the
    remainder is cut short), then truncation, else the list is returned. *)
Theorem decode_tlvs_total (b : bytes) :
  exists ts rest, b = encode_tlvs ts ++ rest /\ Forall tlv_wf ts /\
    (forall t rest', tlv_wf t -> rest <> encode_tlv t ++ rest') /\
    DecodeTLVs b = (if MaxTLVsPerFrame <? blen ts then Err ErrTooManyTLVs
                    else match rest with [] => Ok ts | _ => Err ErrTruncatedTLV end).
Proof.
  destruct (tlv_prefix b) as (ts & rest & -> & Hts & Hrest). exists ts, rest.
  split_and!; [done..|]. by apply decode_tlvs_prefix.
Qed.

Lemma check_must_understand_iff tlvs recognized :
  CheckMustUnderstand tlvs recognized = Ok tt <->
  Forall (fun t => ForwardIncompatible (TLVType t) = true -> recognized (TLVType t) = true) tlvs.
Proof.
  induction tlvs as [|t tlvs IH]; [by repeat constructor|]. cbn [CheckMustUnderstand].
  rewrite Forall_cons, <- IH. destruct (ForwardIncompatible _), (recognized _); cbn; intuition congruence.
Qed.

(** The must-understand bit is bit 15. *)
Lemma forward_incompatible_bit t : ForwardIncompatible t = Z.testbit t 15.
Proof.
  unfold ForwardIncompatible. destruct (Z.testbit t 15) eqn:E.
  - apply negb_true_iff, Z.eqb_neq. intros H. apply (f_equal (fun z => Z.testbit z 15)) in H.
    rewrite Z.land_spec, E in H. done.
  - apply negb_false_iff, Z.eqb_eq. apply Z.bits_inj'. intros n Hn.
    rewrite Z.land_spec, Z.bits_0. destruct (decide (n = 15)) as [->|Hne]; [by rewrite E|].
    change 0x8000 with (2 ^ 15). rewrite Z.pow2_bits_false by lia. apply andb_false_r.
Qed.
