(* ===== verification/Sha256.v ===== *)
(** * SHA-256, HMAC and HKDF

    The part of Go's [crypto/sha256], [crypto/hmac] and [crypto/hkdf] the key
    schedule, the transcript and the Finished MACs are built on, written out so
    that the derivations evaluate.  The examples are the published vectors
    (FIPS 180-4, RFC 4231, RFC 5869, RFC 8448) the repository anchors its own
    vectors to ([test-vectors/v1/key-schedule-kat.json]). *)

From S2P Require Import Prelude.
From Stdlib Require Import Strings.Byte.
Open Scope Z_scope.

(** ** SHA-256 *)

Definition rotr (n x : Z) : Z := Z.lor (Z.shiftr x n) (u32 (Z.shiftl x (32 - n))).

Definition big_sigma0 (x : Z) : Z := Z.lxor (Z.lxor (rotr 2 x) (rotr 13 x)) (rotr 22 x).
Definition big_sigma1 (x : Z) : Z := Z.lxor (Z.lxor (rotr 6 x) (rotr 11 x)) (rotr 25 x).
Definition small_sigma0 (x : Z) : Z := Z.lxor (Z.lxor (rotr 7 x) (rotr 18 x)) (Z.shiftr x 3).
Definition small_sigma1 (x : Z) : Z := Z.lxor (Z.lxor (rotr 17 x) (rotr 19 x)) (Z.shiftr x 10).
Definition ch (x y z : Z) : Z := Z.lxor (Z.land x y) (Z.land (Z.lxor x 0xFFFFFFFF) z).
Definition maj (x y z : Z) : Z := Z.lxor (Z.lxor (Z.land x y) (Z.land x z)) (Z.land y z).

Fixpoint chunks {A} (fuel n : nat) (l : list A) : list (list A) :=
  match fuel, l with
  | S fuel, _ :: _ => take n l :: chunks fuel n (drop n l)
  | _, _ => []
  end.

Definition blocks {A} (n : nat) (l : list A) : list (list A) := chunks (length l) n l.

(** Octets as big-endian 32-bit words. *)
Definition words (b : bytes) : list Z := be_get <$> blocks 4 b.

Definition sha256_k : list Z := words (
    hex "428a2f9871374491b5c0fbcfe9b5dba53956c25b59f111f1923f82a4ab1c5ed5" ++
    hex "d807aa9812835b01243185be550c7dc372be5d7480deb1fe9bdc06a7c19bf174" ++
    hex "e49b69c1efbe47860fc19dc6240ca1cc2de92c6f4a7484aa5cb0a9dc76f988da" ++
    hex "983e5152a831c66db00327c8bf597fc7c6e00bf3d5a7914706ca635114292967" ++
    hex "27b70a852e1b21384d2c6dfc53380d13650a7354766a0abb81c2c92e92722c85" ++
    hex "a2bfe8a1a81a664bc24b8b70c76c51a3d192e819d6990624f40e3585106aa070" ++
    hex "19a4c1161e376c082748774c34b0bcb5391c0cb34ed8aa4a5b9cca4f682e6ff3" ++
    hex "748f82ee78a5636f84c878148cc7020890befffaa4506cebbef9a3f7c67178f2").

Definition sha256_init : list Z := words (
    hex "6a09e667bb67ae853c6ef372a54ff53a510e527f9b05688c1f83d9ab5be0cd19").

(** The 64-octet blocks of the padded message. *)
Definition sha256_pad (msg : bytes) : bytes :=
  msg ++ [x80] ++ replicate (Z.to_nat ((55 - blen msg) mod 64)) x00 ++ be_put 8 (8 * blen msg).

(** The message schedule, newest word first. *)
Fixpoint schedule (n : nat) (w : list Z) : list Z :=
  match n with
  | O => w
  | S n =>
      let t := u32 (small_sigma1 (nth 1 w 0) + nth 6 w 0
                    + small_sigma0 (nth 14 w 0) + nth 15 w 0) in
      schedule n (t :: w)
  end.

Definition sha256_round (s : list Z) (kw : Z * Z) : list Z :=
  match s with
  | [a; b; c; d; e; f; g; h] =>
      let t1 := h + big_sigma1 e + ch e f g + kw.1 + kw.2 in
      let t2 := big_sigma0 a + maj a b c in
      [u32 (t1 + t2); a; b; c; u32 (d + t1); e; f; g]
  | _ => s
  end.

Definition sha256_block (st : list Z) (blk : bytes) : list Z :=
  let w := rev (schedule 48 (rev (words blk))) in
  let st' := fold_left sha256_round (zip sha256_k w) st in
  zip_with (fun a b => u32 (a + b)) st st'.

Definition sha256 (msg : bytes) : bytes :=
  concat (be_put 4 <$> fold_left sha256_block (blocks 64 (sha256_pad msg)) sha256_init).

Example sha256_abc :
  sha256 (str "abc") = hex "ba7816bf8f01cfea414140de5dae2223b00361a396177a9cb410ff61f20015ad".
Proof. by vm_compute. Qed.

(** ** HMAC and HKDF over a hash *)

(** [func() hash.Hash]: the digest function with its output and block sizes. *)
Record hash_fn : Type := mkHash {
  hash_sum : bytes -> bytes;
  hash_size : nat;
  hash_block : nat
}.

Definition SHA256 : hash_fn := mkHash sha256 32 64.

Definition xor_pad (v : Z) (key : bytes) : bytes := (fun b => z2b (Z.lxor (b2z b) v)) <$> key.

(** [hmac.New(h, key)], one [Write] of [msg], [Sum]. *)
Definition hmac (h : hash_fn) (key msg : bytes) : bytes :=
  let key := if (hash_block h <? length key)%nat then hash_sum h key else key in
  let key := key ++ replicate (hash_block h - length key) x00 in
  hash_sum h (xor_pad 0x5c key ++ hash_sum h (xor_pad 0x36 key ++ msg)).

(** [hkdf.Extract(h, secret, salt)] with a non-nil salt. *)
Definition hkdf_extract (h : hash_fn) (secret salt : bytes) : bytes := hmac h salt secret.

Fixpoint hkdf_blocks (h : hash_fn) (prk info prev : bytes) (i : Z) (n : nat) : bytes :=
  match n with
  | O => []
  | S n => let t := hmac h prk (prev ++ info ++ [z2b i]) in t ++ hkdf_blocks h prk info t (i + 1) n
  end.

(** [hkdf.Expand(h, prk, info, length)]: fails when more than 255 blocks are
    asked for. *)
Definition hkdf_expand (h : hash_fn) (prk info : bytes) (length : nat) : option bytes :=
  if (255 * hash_size h <? length)%nat then None
  else Some (take length
    (hkdf_blocks h prk info [] 1 ((length + hash_size h - 1) / hash_size h)%nat)).

(** RFC 4231 test case 2. *)
Example hmac_rfc4231 :
  hmac SHA256 (str "Jefe") (str "what do ya want for nothing?")
  = hex "5bdcc146bf60754e6a042426089575c75a003f089d2739839dec58b964ec3843".
Proof. by vm_compute. Qed.

(** RFC 5869 test case 1. *)
Example hkdf_rfc5869 :
  let prk := hkdf_extract SHA256 (replicate 22 x0b) (hex "000102030405060708090a0b0c") in
  prk = hex "077709362c2e32df0ddc3f0dc47bba6390b6c73bb50f9c3122ec844ad7c2b3e5" /\
  hkdf_expand SHA256 prk (hex "f0f1f2f3f4f5f6f7f8f9") 42 = Some (hex
    "3cb25f25faacd57a90434f64d0362f2a2d2d0a90cf1a5a4c5db02d56ecc4c5bf34007208d5b887185865").
Proof. by vm_compute. Qed.

(** ** Sizes *)

Lemma length_sha256_round s kw : length (sha256_round s kw) = length s.
Proof. by destruct s as [|? [|? [|? [|? [|? [|? [|? [|? [|]]]]]]]]]. Qed.

Lemma length_sha256_block st blk : length (sha256_block st blk) = length st.
Proof.
  unfold sha256_block. rewrite length_zip_with. set (l := zip _ _). clearbody l.
  assert (forall st, length (fold_left sha256_round l st) = length st) as ->; [|lia].
  induction l as [|kw l IH]; intros s; [done|]. cbn. by rewrite IH, length_sha256_round.
Qed.

Lemma length_sha256 msg : length (sha256 msg) = 32%nat.
Proof.
  unfold sha256. assert (forall l st, length (fold_left sha256_block l st) = length st) as Hl.
  { induction l as [|b l IH]; intros st; [done|]. cbn [fold_left]. by rewrite IH, length_sha256_block. }
  specialize (Hl (blocks 64 (sha256_pad msg)) sha256_init).
  destruct (fold_left _ _ _) as [|? [|? [|? [|? [|? [|? [|? [|? [|]]]]]]]]]; done.
Qed.

#[global] Arguments sha256 : simpl never.

(** A hash whose digests have the declared size. *)
Class HashSized (h : hash_fn) : Prop := {
  hash_sum_length : forall m, length (hash_sum h m) = hash_size h;
  hash_size_pos : (0 < hash_size h)%nat
}.

#[export] Instance sha256_sized : HashSized SHA256.
Proof. split; [exact length_sha256|cbn; lia]. Qed.

Section sized.
Context (h : hash_fn) `{HashSized h}.

Lemma length_hmac key msg : length (hmac h key msg) = hash_size h.
Proof. apply hash_sum_length. Qed.

Lemma length_hkdf_blocks prk info prev i n :
  length (hkdf_blocks h prk info prev i n) = (n * hash_size h)%nat.
Proof.
  revert prev i. induction n as [|n IH]; intros; [done|]. cbn [hkdf_blocks].
  rewrite length_app, IH, length_hmac. lia.
Qed.

Lemma hkdf_expand_ok prk info n :
  (n <= 255 * hash_size h)%nat ->
  exists okm, hkdf_expand h prk info n = Some okm /\ length okm = n.
Proof.
  intros Hn. unfold hkdf_expand. rewrite (proj2 (Nat.ltb_ge _ _)) by done.
  eexists; split; [done|]. rewrite length_take, length_hkdf_blocks.
  pose proof hash_size_pos. pose proof (Nat.div_mod (n + hash_size h - 1) (hash_size h) ltac:(lia)).
  pose proof (Nat.mod_upper_bound (n + hash_size h - 1) (hash_size h) ltac:(lia)). nia.
Qed.
End sized.

(** ** SHA-512 and SHA-384

    Go's [crypto/sha512] as the content digests of key proofs and the release digests use
    it, written out so that they evaluate (FIPS 180-4). *)

Definition rotr64 (n x : Z) : Z := Z.lor (Z.shiftr x n) (u64 (Z.shiftl x (64 - n))).

Definition big_sigma0_64 (x : Z) : Z := Z.lxor (Z.lxor (rotr64 28 x) (rotr64 34 x)) (rotr64 39 x).
Definition big_sigma1_64 (x : Z) : Z := Z.lxor (Z.lxor (rotr64 14 x) (rotr64 18 x)) (rotr64 41 x).
Definition small_sigma0_64 (x : Z) : Z := Z.lxor (Z.lxor (rotr64 1 x) (rotr64 8 x)) (Z.shiftr x 7).
Definition small_sigma1_64 (x : Z) : Z := Z.lxor (Z.lxor (rotr64 19 x) (rotr64 61 x)) (Z.shiftr x 6).
Definition ch64 (x y z : Z) : Z := Z.lxor (Z.land x y) (Z.land (Z.lxor x 0xFFFFFFFFFFFFFFFF) z).

(** Octets as big-endian 64-bit words. *)
Definition words64 (b : bytes) : list Z := be_get <$> blocks 8 b.

Definition sha512_k : list Z := words64 (
    hex "428a2f98d728ae227137449123ef65cdb5c0fbcfec4d3b2fe9b5dba58189dbbc" ++
    hex "3956c25bf348b53859f111f1b605d019923f82a4af194f9bab1c5ed5da6d8118" ++
    hex "d807aa98a303024212835b0145706fbe243185be4ee4b28c550c7dc3d5ffb4e2" ++
    hex "72be5d74f27b896f80deb1fe3b1696b19bdc06a725c71235c19bf174cf692694" ++
    hex "e49b69c19ef14ad2efbe4786384f25e30fc19dc68b8cd5b5240ca1cc77ac9c65" ++
    hex "2de92c6f592b02754a7484aa6ea6e4835cb0a9dcbd41fbd476f988da831153b5" ++
    hex "983e5152ee66dfaba831c66d2db43210b00327c898fb213fbf597fc7beef0ee4" ++
    hex "c6e00bf33da88fc2d5a79147930aa72506ca6351e003826f142929670a0e6e70" ++
    hex "27b70a8546d22ffc2e1b21385c26c9264d2c6dfc5ac42aed53380d139d95b3df" ++
    hex "650a73548baf63de766a0abb3c77b2a881c2c92e47edaee692722c851482353b" ++
    hex "a2bfe8a14cf10364a81a664bbc423001c24b8b70d0f89791c76c51a30654be30" ++
    hex "d192e819d6ef5218d69906245565a910f40e35855771202a106aa07032bbd1b8" ++
    hex "19a4c116b8d2d0c81e376c085141ab532748774cdf8eeb9934b0bcb5e19b48a8" ++
    hex "391c0cb3c5c95a634ed8aa4ae3418acb5b9cca4f7763e373682e6ff3d6b2b8a3" ++
    hex "748f82ee5defb2fc78a5636f43172f6084c87814a1f0ab728cc702081a6439ec" ++
    hex "90befffa23631e28a4506cebde82bde9bef9a3f7b2c67915c67178f2e372532b" ++
    hex "ca273eceea26619cd186b8c721c0c207eada7dd6cde0eb1ef57d4f7fee6ed178" ++
    hex "06f067aa72176fba0a637dc5a2c898a6113f9804bef90dae1b710b35131c471b" ++
    hex "28db77f523047d8432caab7b40c724933c9ebe0a15c9bebc431d67c49c100d4c" ++
    hex "4cc5d4becb3e42b6597f299cfc657e2a5fcb6fab3ad6faec6c44198c4a475817").

Definition sha512_init : list Z := words64 (
    hex "6a09e667f3bcc908bb67ae8584caa73b3c6ef372fe94f82ba54ff53a5f1d36f1" ++
    hex "510e527fade682d19b05688c2b3e6c1f1f83d9abfb41bd6b5be0cd19137e2179").

Definition sha384_init : list Z := words64 (
    hex "cbbb9d5dc1059ed8629a292a367cd5079159015a3070dd17152fecd8f70e5939" ++
    hex "67332667ffc00b318eb44a8768581511db0c2e0d64f98fa747b5481dbefa4fa4").

(** The 128-octet blocks of the padded message. *)
Definition sha512_pad (msg : bytes) : bytes :=
  msg ++ [x80] ++ replicate (Z.to_nat ((111 - blen msg) mod 128)) x00 ++ be_put 16 (8 * blen msg).

(** The message schedule, newest word first. *)
Fixpoint schedule64 (n : nat) (w : list Z) : list Z :=
  match n with
  | O => w
  | S n => schedule64 n (u64 (small_sigma1_64 (nth 1 w 0) + nth 6 w 0 + small_sigma0_64 (nth 14 w 0) + nth 15 w 0) :: w)
  end.

Definition sha512_round (s : list Z) (kw : Z * Z) : list Z :=
  match s with
  | [a; b; c; d; e; f; g; h] =>
      let t1 := h + big_sigma1_64 e + ch64 e f g + kw.1 + kw.2 in
      let t2 := big_sigma0_64 a + maj a b c in
      [u64 (t1 + t2); a; b; c; u64 (d + t1); e; f; g]
  | _ => s
  end.

Definition sha512_block (st : list Z) (blk : bytes) : list Z :=
  let w := rev (schedule64 64 (rev (words64 blk))) in
  zip_with (fun a b => u64 (a + b)) st (fold_left sha512_round (zip sha512_k w) st).

Definition sha512_sum (init : list Z) (msg : bytes) : bytes :=
  concat (be_put 8 <$> fold_left sha512_block (blocks 128 (sha512_pad msg)) init).

Definition sha512 (msg : bytes) : bytes := sha512_sum sha512_init msg.
Definition sha384 (msg : bytes) : bytes := take 48 (sha512_sum sha384_init msg).

Example sha512_abc :
  sha512 (str "abc") = hex "ddaf35a193617abacc417349ae20413112e6fa4e89a97ea20a9eeee64b55d39a" ++
    hex "2192992a274fc1a836ba3c23a3feebbd454d4423643ce80e2a9ac94fa54ca49f" /\
  sha384 (str "abc") = hex "cb00753f45a35e8bb5a03d699ac65007272c32ab0eded1631a8b605a43ff5bed8086072ba1e7cc2358baeca134c825a7" /\
  sha384 (replicate 120 x61) = hex "ca2f7755efa04d43651f9bcb466044511102e472c2a3981c836b487ee4508ca8461f8c396653123400762de4d6d17e63".
Proof. by vm_compute. Qed.
