(* ===== verification/Crypto.v ===== *)
(** * Cryptographic primitives as an interface

    AES-256-GCM, Ed25519, ML-KEM-768 and X25519 are operations of the class
    [Crypto]; the rest of the development is parametric in it.  The documented
    behaviour the code relies on is the class [CryptoLaws]: it states functional
    correctness (what was sealed opens, what was signed verifies, the two sides of
    a Diffie-Hellman exchange agree) and sizes, never a secrecy or unforgeability
    assumption.  [Toy] implements the interface with computable stand-ins, so that
    every theorem that assumes the laws can be run on a concrete input. *)

From S2P Require Import Prelude.
From Stdlib Require Import Strings.Byte.
Open Scope Z_scope.

Class Crypto : Type := {
  (** [cipher.AEAD.Seal] and [Open] of AES-256-GCM *)
  gcm_seal : forall (key nonce plaintext aad : bytes), bytes;
  gcm_open : forall (key nonce sealed aad : bytes), option bytes;
  (** [ed25519.Sign], [Verify] and the public half of a private key *)
  ed25519_public : forall (priv : bytes), bytes;
  ed25519_sign : forall (priv msg : bytes), bytes;
  ed25519_verify : forall (pub msg sig : bytes), bool;
  (** [mlkem.NewDecapsulationKey768], its encapsulation key, [NewEncapsulationKey768]
      (does it parse), [Encapsulate] on explicit randomness: (secret, ciphertext),
      and [Decapsulate] *)
  mlkem_seed_ok : forall (seed : bytes), bool;
  mlkem_ek : forall (seed : bytes), bytes;
  mlkem_ek_ok : forall (ek : bytes), bool;
  mlkem_encap : forall (ek rnd : bytes), bytes * bytes;
  mlkem_decap : forall (seed ct : bytes), option bytes;
  (** [ecdh.X25519()]: public key, and [ECDH], which fails on an all-zero result *)
  x25519_public : forall (priv : bytes), bytes;
  x25519_dh : forall (priv pub : bytes), option bytes
}.

(** [mlkem.EncapsulationKeySize768], [CiphertextSize768], [SharedKeySize]. *)
Definition EncapsulationKeySize768 : Z := 1184.
Definition CiphertextSize768 : Z := 1088.
Definition SharedKeySize : Z := 32.

Class CryptoLaws `{Crypto} : Prop := {
  gcm_open_seal : forall k n p a, gcm_open k n (gcm_seal k n p a) a = Some p;
  gcm_seal_open : forall k n c a p, gcm_open k n c a = Some p -> c = gcm_seal k n p a;
  gcm_overhead : forall k n p a, blen (gcm_seal k n p a) = blen p + 16;
  ed25519_verify_sign : forall k m, ed25519_verify (ed25519_public k) m (ed25519_sign k m) = true;
  ed25519_public_size : forall k, blen (ed25519_public k) = 32;
  ed25519_sign_size : forall k m, blen (ed25519_sign k m) = 64;
  mlkem_ek_size : forall s, blen (mlkem_ek s) = EncapsulationKeySize768;
  mlkem_ek_valid : forall s, mlkem_seed_ok s = true -> mlkem_ek_ok (mlkem_ek s) = true;
  mlkem_ct_size : forall ek r, blen (mlkem_encap ek r).2 = CiphertextSize768;
  mlkem_ss_size : forall ek r, blen (mlkem_encap ek r).1 = SharedKeySize;
  x25519_public_size : forall k, blen (x25519_public k) = 32;
  x25519_comm : forall a b, x25519_dh a (x25519_public b) = x25519_dh b (x25519_public a)
}.

(** ** A computable instance *)

Module Toy.

(** A checksum of [n] octets modulo a Mersenne prime: enough to tell inputs apart. *)
Definition sum_octets (n : nat) (b : bytes) : bytes := be_put n (be_get b mod (2 ^ 127 - 1)).

Definition tag (key nonce p aad : bytes) : bytes := sum_octets 16 (key ++ nonce ++ aad ++ p).

Definition seal (key nonce p aad : bytes) : bytes := p ++ tag key nonce p aad.

Definition open (key nonce c aad : bytes) : option bytes :=
  let n := (length c - 16)%nat in
  if bool_decide (c = seal key nonce (take n c) aad) then Some (take n c) else None.

Definition sign_with (pub msg : bytes) : bytes := sum_octets 32 (pub ++ msg) ++ sum_octets 32 (msg ++ pub).

Definition ek (seed : bytes) : bytes := take 1184 (seed ++ replicate 1184 x00).

Definition encap (k rnd : bytes) : bytes * bytes :=
  let r := take 32 (rnd ++ replicate 32 x00) in
  (r, r ++ replicate 1056 x00).

Definition decap (seed ct : bytes) : option bytes := Some (take 32 ct).

Definition dh (priv pub : bytes) : option bytes :=
  let v := be_put 32 (be_get priv * be_get pub) in
  if be_get v =? 0 then None else Some v.

#[export] Instance crypto : Crypto := {|
  gcm_seal := seal; gcm_open := open;
  ed25519_public := sum_octets 32;
  ed25519_sign k m := sign_with (sum_octets 32 k) m;
  ed25519_verify p m s := bool_decide (s = sign_with p m);
  mlkem_seed_ok s := (length s =? 64)%nat;
  mlkem_ek := ek;
  mlkem_ek_ok k := (length k =? 1184)%nat;
  mlkem_encap := encap;
  mlkem_decap := decap;
  x25519_public k := be_put 32 (be_get k);
  x25519_dh := dh
|}.

Lemma length_tag k n p a : length (tag k n p a) = 16%nat.
Proof. apply length_be_put. Qed.

Lemma open_seal k n p a : open k n (seal k n p a) a = Some p.
Proof.
  unfold open. assert (take (length (seal k n p a) - 16) (seal k n p a) = p) as ->.
  { unfold seal. apply take_app_length'. rewrite length_app, length_tag. lia. }
  by rewrite bool_decide_true.
Qed.

Lemma length_ek s : length (ek s) = 1184%nat.
Proof. unfold ek. rewrite length_take, length_app, length_replicate. lia. Qed.

Lemma dh_comm a b : dh a (be_put 32 (be_get b)) = dh b (be_put 32 (be_get a)).
Proof.
  unfold dh. enough (be_put 32 (be_get a * be_get (be_put 32 (be_get b)))
    = be_put 32 (be_get b * be_get (be_put 32 (be_get a)))) as -> by done.
  apply be_put_cong. rewrite !be_get_put.
  rewrite !Zmult_mod_idemp_r. by rewrite Z.mul_comm.
Qed.

#[export] Instance laws : CryptoLaws (H := crypto).
Proof.
  split; cbn -[replicate encap ek blen sum_octets sign_with].
  - exact open_seal.
  - intros k n c a p. unfold open. case_bool_decide as E; [|done]. by intros [= <-].
  - intros. unfold seal. rewrite blen_app. unfold blen at 2. by rewrite length_tag.
  - intros. by apply bool_decide_true.
  - intros. apply blen_be_put.
  - intros. unfold sign_with, sum_octets. by rewrite blen_app, !blen_be_put.
  - intros. unfold blen. by rewrite length_ek.
  - intros. by rewrite length_ek.
  - intros. unfold encap, blen. cbn [snd].
    rewrite length_app, length_take, length_app, !length_replicate.
    unfold CiphertextSize768. lia.
  - intros. unfold encap, blen. cbn [fst]. rewrite length_take, length_app, length_replicate.
    unfold SharedKeySize. lia.
  - intros. by rewrite blen_be_put.
  - exact dh_comm.
Qed.

End Toy.
