(* ===== verification/Aead.v ===== *)
(** * Record protection (aead.go)

    The per-frame nonce, sealing and opening with AES-256-GCM, and the per-frame
    suite selection. *)

From S2P Require Import Prelude Errors Crypto.
From Stdlib Require Import Strings.Byte.
Open Scope Z_scope.

(** The sequence number in the low 8 of 12 octets, exclusive-or the IV. *)
Definition DeriveNonce (iv : bytes) (seq : Z) : bytes :=
  zip_with (fun n v => z2b (Z.lxor (b2z n) (b2z v))) (replicate 4 x00 ++ be_put 8 seq) iv.

Section aead.
Context `{Crypto}.

(** [aes.NewCipher] fails only on a key size other than 16, 24 or 32 octets and
    [cipher.NewGCM] only on a block size other than 16, so neither error path of
    the source is reachable with a [[32]byte] key. *)
Definition SealAES256GCM (key iv : bytes) (seq : Z) (aad plaintext : bytes) : result error bytes :=
  Ok (gcm_seal key (DeriveNonce iv seq) plaintext aad).

Definition OpenAES256GCM (key iv : bytes) (seq : Z) (aad sealed : bytes) : result error bytes :=
  match gcm_open key (DeriveNonce iv seq) sealed aad with
  | Some p => Ok p
  | None => Err ErrCrypto
  end.
End aead.

Definition SelectAEAD (suites : list Z) (seq : Z) : result error Z :=
  check (blen suites =? 0) ErrNoAEADSuite;;
  match suites !! Z.to_nat (seq mod blen suites) with
  | Some s => Ok s
  | None => Err ErrNoAEADSuite (* unreachable: the index is below the length *)
  end.

Lemma xor_octet_inj a b v :
  z2b (Z.lxor (b2z a) (b2z v)) = z2b (Z.lxor (b2z b) (b2z v)) -> a = b.
Proof.
  intros Heq. apply (f_equal b2z) in Heq.
  rewrite !b2z_z2b_small in Heq by (apply (lxor_bound 8); [done|apply b2z_range..]).
  apply b2z_inj. apply (f_equal (fun z => Z.lxor z (b2z v))) in Heq.
  by rewrite !Z.lxor_assoc, !Z.lxor_nilpotent, !Z.lxor_0_r in Heq.
Qed.

Lemma xor_octets_inj (iv a b : bytes) :
  length a = length iv -> length b = length iv ->
  zip_with (fun n v => z2b (Z.lxor (b2z n) (b2z v))) a iv
  = zip_with (fun n v => z2b (Z.lxor (b2z n) (b2z v))) b iv -> a = b.
Proof.
  revert a b. induction iv as [|v iv IH]; intros [|x a] [|y b] Ha Hb; try done.
  cbn. intros [= Hx Hr]. f_equal; [by eapply xor_octet_inj|]. apply IH; [by injection Ha|by injection Hb|done].
Qed.

Lemma DeriveNonce_inj iv s1 s2 :
  length iv = 12%nat -> is_u64 s1 -> is_u64 s2 ->
  DeriveNonce iv s1 = DeriveNonce iv s2 -> s1 = s2.
Proof.
  intros Hiv H1 H2 Heq. apply xor_octets_inj in Heq;
    [|by rewrite length_app, length_be_put, length_replicate, Hiv..].
  apply app_inv_head in Heq. by apply be_put_inj in Heq.
Qed.

Lemma SelectAEAD_total suites seq :
  suites <> [] -> 0 <= seq ->
  exists s, SelectAEAD suites seq = Ok s /\
    suites !! Z.to_nat (seq mod blen suites) = Some s.
Proof.
  intros Hne Hseq. unfold SelectAEAD.
  assert (0 < blen suites) as Hl by (destruct suites; [done|]; rewrite blen_cons;
    pose proof (blen_nonneg suites); lia).
  rewrite (proj2 (Z.eqb_neq _ _)) by lia. cbn.
  destruct (lookup_lt_is_Some_2 suites (Z.to_nat (seq mod blen suites))) as [s Hs].
  { pose proof (Z.mod_pos_bound seq (blen suites) Hl). unfold blen in *. lia. }
  rewrite Hs. eauto.
Qed.

(** Opening is the inverse of sealing, and only of sealing. *)
Lemma open_iff `{CryptoLaws} key iv seq aad c p :
  OpenAES256GCM key iv seq aad c = Ok p <-> SealAES256GCM key iv seq aad p = Ok c.
Proof.
  unfold OpenAES256GCM, SealAES256GCM. split.
  - destruct (gcm_open _ _ _ _) as [q|] eqn:E; [|done]. intros [= ->].
    by apply gcm_seal_open in E as ->.
  - intros [= <-]. by rewrite gcm_open_seal.
Qed.
