(* ===== verification/Kem.v ===== *)
(** * The hybrid KEM X25519MLKEM768 (kem.go, hybridkem/hybridkem.go)

    Client key material, the KEMShare and KEMCiphertext layouts and the two sides
    of the exchange.  Randomness drawn from [rand.Reader] is an argument.  Module
    [HybridKem] is the stand-alone combiner on raw component secrets, shown to agree with
    [SharedSecrets.Combined] of the root package, which the package comment requires. *)

From S2P Require Import Prelude Errors Registry Crypto.
Open Scope Z_scope.

Definition KEMShareSize768 : Z := EncapsulationKeySize768 + 32.
Definition KEMCiphertextSize768 : Z := CiphertextSize768 + 32.
Definition CombinedSecretSize : Z := 2 * SharedKeySize.

Record SharedSecrets : Type := mkSS {
  ss_MLKEM : bytes;
  ss_X25519 : bytes
}.

Definition Combined (s : SharedSecrets) : bytes := ss_MLKEM s ++ ss_X25519 s.

Record KEMClient : Type := mkKEMClient {
  mlkemKey : bytes;   (* the seed of the decapsulation key *)
  x25519Key : bytes
}.

Section kem.
Context `{Crypto}.

(** [crypto/ecdh] accepts a private or public X25519 key of exactly 32 octets. *)
Definition NewKEMClient (mlkemSeed x25519PrivateKey : bytes) : result error KEMClient :=
  check (negb (mlkem_seed_ok mlkemSeed)) ErrCrypto;;
  check (negb (blen x25519PrivateKey =? 32)) ErrCrypto;;
  Ok (mkKEMClient mlkemSeed x25519PrivateKey).

Definition KEMShare (c : KEMClient) : bytes :=
  mlkem_ek (mlkemKey c) ++ x25519_public (x25519Key c).

Definition KEMClient_SharedSecrets (c : KEMClient) (kemCiphertext : bytes)
    : result error SharedSecrets :=
  check (negb (blen kemCiphertext =? KEMCiphertextSize768)) ErrKEMCiphertextSize;;
  let n := Z.to_nat CiphertextSize768 in
  let ct := take n kemCiphertext in
  let serverPub := drop n kemCiphertext in
  match mlkem_decap (mlkemKey c) ct with
  | None => Err ErrCrypto
  | Some mlkemSS =>
      check (negb (blen serverPub =? 32)) ErrCrypto;;
      match x25519_dh (x25519Key c) serverPub with
      | None => Err ErrCrypto
      | Some xSS => Ok (mkSS mlkemSS xSS)
      end
  end.

Definition EncapsulateWith (kemShare serverX25519 rnd : bytes)
    : result error (bytes * SharedSecrets) :=
  check (negb (blen kemShare =? KEMShareSize768)) ErrKEMShareSize;;
  let n := Z.to_nat EncapsulationKeySize768 in
  let ek := take n kemShare in
  let clientPub := drop n kemShare in
  check (negb (mlkem_ek_ok ek)) ErrCrypto;;
  check (negb (blen clientPub =? 32)) ErrCrypto;;
  let '(mlkemSS, ct) := mlkem_encap ek rnd in
  match x25519_dh serverX25519 clientPub with
  | None => Err ErrCrypto
  | Some xSS => Ok (ct ++ x25519_public serverX25519, mkSS mlkemSS xSS)
  end.

(** [Encapsulate] with the fresh X25519 key [rand.Reader] yields. *)
Definition Encapsulate (kemShare freshX25519 rnd : bytes) : result error (bytes * SharedSecrets) :=
  EncapsulateWith kemShare freshX25519 rnd.

(** ** The exchange agrees *)

(** ML-KEM decapsulation recovers the secret of this encapsulation (FIPS 203: it
    does except with negligible probability over [rnd]). *)
Definition mlkem_recovers (seed rnd : bytes) : Prop :=
  mlkem_decap seed (mlkem_encap (mlkem_ek seed) rnd).2
  = Some (mlkem_encap (mlkem_ek seed) rnd).1.

Context `{!CryptoLaws}.

Lemma blen_KEMShare c : blen (KEMShare c) = KEMShareSize768.
Proof. unfold KEMShare. by rewrite blen_app, mlkem_ek_size, x25519_public_size. Qed.

Lemma KEMShare_split c :
  take (Z.to_nat EncapsulationKeySize768) (KEMShare c) = mlkem_ek (mlkemKey c) /\
  drop (Z.to_nat EncapsulationKeySize768) (KEMShare c) = x25519_public (x25519Key c).
Proof.
  unfold KEMShare. pose proof (mlkem_ek_size (mlkemKey c)) as Hl. unfold blen in Hl.
  split; [apply take_app_length'|apply drop_app_length']; lia.
Qed.

Lemma Encapsulate_size share xk rnd ct ss :
  EncapsulateWith share xk rnd = Ok (ct, ss) -> blen ct = KEMCiphertextSize768.
Proof.
  unfold EncapsulateWith. intros He. inv_res_core He. bprop.
  destruct (mlkem_encap _ rnd) as [ms mct] eqn:Em, (x25519_dh _ _); simplify_eq.
  rewrite blen_app, x25519_public_size. pose proof (mlkem_ct_size (take (Z.to_nat EncapsulationKeySize768) share) rnd) as Hc.
  rewrite Em in Hc. cbn in Hc. rewrite Hc. done.
Qed.

(** Both sides of an exchange end with the same two secrets: whatever the server
    computes from the client's share, the client computes from the reply. *)
Lemma kem_agreement seed xc c xs rnd ct ss :
  NewKEMClient seed xc = Ok c -> mlkem_recovers seed rnd ->
  EncapsulateWith (KEMShare c) xs rnd = Ok (ct, ss) ->
  KEMClient_SharedSecrets c ct = Ok ss.
Proof.
  intros Hc Hrec He. pose proof (Encapsulate_size _ _ _ _ _ He) as Hct.
  unfold NewKEMClient in Hc. inv_res Hc. unfold EncapsulateWith in He.
  destruct (KEMShare_split (mkKEMClient seed xc)) as [Ht Hd]. cbn [mlkemKey x25519Key] in *.
  inv_res_core He. rewrite Ht, Hd in *. bprop. clear Ht Hd.
  unfold mlkem_recovers in Hrec. pose proof (mlkem_ct_size (mlkem_ek seed) rnd) as Hcs.
  destruct (mlkem_encap (mlkem_ek seed) rnd) as [ms mct]. cbn [fst snd] in *.
  destruct (x25519_dh xs _) as [xSS|] eqn:Ex; simplify_eq.
  unfold KEMClient_SharedSecrets. rewrite Hct. cbn [negb check mbind result_bind].
  unfold blen in Hcs. rewrite take_app_length', drop_app_length' by lia.
  cbn [mlkemKey x25519Key]. rewrite Hrec, x25519_public_size. cbn.
  by rewrite x25519_comm, Ex.
Qed.

End kem.

(** ** The stand-alone combiner *)

Module HybridKem.
Definition X25519MLKEM768 : Z := 0x11ec.
Definition SecP384r1MLKEM1024 : Z := 0x11ed.
Definition MLKEMSharedSecretSize : Z := 32.
Definition X25519SharedSecretSize : Z := 32.
Definition CombinedSecretSizeX25519MLKEM768 : Z := MLKEMSharedSecretSize + X25519SharedSecretSize.

Inductive combine_error : Type :=
| ErrUnknownGroup | ErrHybridGroupNotSupported | ErrMLKEMSecretSize | ErrClassicalSecretSize.

(** [concat] *)
Definition concat_secrets (a b : bytes) : bytes := a ++ b.

Definition Combine (group : Z) (mlkemSS classicalSS : bytes) : result combine_error bytes :=
  if group =? X25519MLKEM768 then
    check (negb (blen mlkemSS =? MLKEMSharedSecretSize)) ErrMLKEMSecretSize;;
    check (negb (blen classicalSS =? X25519SharedSecretSize)) ErrClassicalSecretSize;;
    Ok (concat_secrets mlkemSS classicalSS)
  else if group =? SecP384r1MLKEM1024 then Err ErrHybridGroupNotSupported
  else Err ErrUnknownGroup.

(** The combiner succeeds exactly for the supported group and secrets of 32 octets; its
    output is that of the handshake, of the declared size, and determines both secrets. *)
Lemma combine_iff group m x out :
  Combine group m x = Ok out <->
  group = KEMX25519MLKEM768 /\ blen m = 32 /\ blen x = 32 /\ out = Combined (mkSS m x).
Proof.
  unfold Combine, Combined. cbn [ss_MLKEM ss_X25519]. destruct (Z.eqb_spec group X25519MLKEM768) as [->|Hg].
  - destruct (Z.eqb_spec (blen m) MLKEMSharedSecretSize) as [Hm|Hm]; cbn [negb check mbind result_bind].
    + destruct (Z.eqb_spec (blen x) X25519SharedSecretSize) as [Hx|Hx]; cbn [negb check mbind result_bind].
      * split; [by intros [= <-]|]. by intros (_ & _ & _ & ->).
      * split; [discriminate|]. by intros (_ & _ & ? & _).
    + split; [discriminate|]. by intros (_ & ? & _).
  - split; [by destruct (group =? SecP384r1MLKEM1024)|]. by intros [-> _].
Qed.

Lemma combine_size group m x out : Combine group m x = Ok out -> blen out = CombinedSecretSizeX25519MLKEM768.
Proof. intros (_ & Hm & Hx & ->)%combine_iff. unfold Combined. rewrite blen_app. cbn [ss_MLKEM ss_X25519]. unfold CombinedSecretSizeX25519MLKEM768, MLKEMSharedSecretSize, X25519SharedSecretSize. lia. Qed.

Lemma combine_inj group m x m' x' out :
  Combine group m x = Ok out -> Combine group m' x' = Ok out -> m = m' /\ x = x'.
Proof.
  intros (_ & Hm & _ & ->)%combine_iff (_ & Hm' & _ & He)%combine_iff. apply app_inj_1 in He; [done|].
  cbn [ss_MLKEM]. unfold blen in *. lia.
Qed.
End HybridKem.
