(* ===== verification/KeySchedule.v ===== *)
(** * The key schedule (keyschedule.go)

    HKDF-Expand-Label with the protocol prefix and every derivation built on it:
    traffic secrets, handshake secrets, the master secret, the Finished key, the
    two master ratchet steps, and AEAD key and IV. *)

From S2P Require Import Prelude Errors Registry Sha256 Crypto Kem.
From Stdlib Require Import Strings.Byte.
Open Scope Z_scope.

Definition LabelPrefix : bytes := str "n-pamp ".

Definition DirClientToServer : Z := 0.
Definition DirServerToClient : Z := 1.

Definition hashForProfile (p : Z) : result error hash_fn :=
  if p =? ProfileStandard then Ok SHA256 else Err ErrNoSuiteForProfile.

(** The [info] octets: two- and one-octet length fields, truncated as the Go
    conversions truncate. *)
Definition expand_info (label context : bytes) (length : Z) : bytes :=
  let full := LabelPrefix ++ label in
  be_put 2 (u16 length) ++ [z2b (blen full)] ++ full ++ [z2b (blen context)] ++ context.

Definition HkdfExpandLabel (secret label context : bytes) (length : Z) (h : hash_fn)
    : result error bytes :=
  match hkdf_expand h secret (expand_info label context length) (Z.to_nat length) with
  | Some okm => Ok okm
  | None => Err ErrCrypto
  end.

Definition hash_len (h : hash_fn) : Z := Z.of_nat (hash_size h).

(** The 13 octets that bind direction, epoch, suite and channel. *)
Definition traffic_context (dir epoch suite channel : Z) : bytes :=
  [z2b dir] ++ be_put 8 epoch ++ be_put 2 suite ++ be_put 2 channel.

Definition DeriveTrafficSecret (master : bytes) (dir epoch suite channel p : Z)
    : result error bytes :=
  let ctx := traffic_context dir epoch suite channel in
  h ← hashForProfile p;
  HkdfExpandLabel master (str "traffic") ctx (hash_len h) h.

Definition HandshakeSecret (ss : SharedSecrets) (p : Z) : result error bytes :=
  h ← hashForProfile p;
  Ok (hkdf_extract h (Combined ss) (replicate (hash_size h) x00)).

Definition DeriveHandshakeTrafficSecrets (handshakeSecret thKEM : bytes) (p : Z)
    : result error (bytes * bytes) :=
  h ← hashForProfile p;
  cHS ← HkdfExpandLabel handshakeSecret (str "c hs") thKEM (hash_len h) h;
  sHS ← HkdfExpandLabel handshakeSecret (str "s hs") thKEM (hash_len h) h;
  Ok (cHS, sHS).

Definition DeriveMasterSecret (handshakeSecret thCCV : bytes) (p : Z) : result error bytes :=
  h ← hashForProfile p;
  HkdfExpandLabel handshakeSecret (str "master") thCCV (hash_len h) h.

Definition DeriveFinishedKey (handshakeTrafficSecret : bytes) (p : Z) : result error bytes :=
  h ← hashForProfile p;
  HkdfExpandLabel handshakeTrafficSecret (str "finished") [] (hash_len h) h.

Definition RatchetMasterTier1 (master : bytes) (targetGen p : Z) : result error bytes :=
  h ← hashForProfile p;
  let ctx := be_put 8 targetGen in
  HkdfExpandLabel master (str "master ratchet") ctx (hash_len h) h.

(** The in-place wipe of [rekemSecret], a local buffer, leaves no trace in the
    result and is not represented. *)
Definition RatchetMasterTier2 (master newSS thRekem : bytes) (p : Z) : result error bytes :=
  h ← hashForProfile p;
  let rekemSecret := hkdf_extract h newSS master in
  HkdfExpandLabel rekemSecret (str "master ratchet rekem") thRekem (hash_len h) h.

Definition DeriveKeyIV (secret : bytes) (p : Z) : result error (bytes * bytes) :=
  h ← hashForProfile p;
  k ← HkdfExpandLabel secret (str "key") [] 32 h;
  v ← HkdfExpandLabel secret (str "iv") [] 12 h;
  Ok (k, v).

(** RFC 8448, section 3: the same construction with the TLS prefix. *)
Example expand_label_rfc8448 :
  let secret := hex "b3eddb126e067f35a780b3abf45e2d8f3b1a950738f52e9600746a0e27a55a21" in
  let info label n := be_put 2 n ++ [z2b (6 + blen label)] ++ str "tls13 " ++ label ++ [x00] in
  hkdf_expand SHA256 secret (info (str "key") 16) 16 = Some (hex "dbfaa693d1762c5b666af5d950258d01") /\
  hkdf_expand SHA256 secret (info (str "finished") 32) 32
  = Some (hex "b80ad01015fb2f0bd65ff7d4da5d6bf83f84821d1f87fdc7d3c75b5a7b42d9c4").
Proof. by vm_compute. Qed.

(** ** The expansion input has one reading *)

Lemma one_octet n : 0 <= n < 256 -> b2z (z2b n) = n.
Proof. apply b2z_z2b_small. Qed.

(** A length-prefixed string is determined by any octets it is a prefix of. *)
Lemma counted_inj (a1 a2 r1 r2 : bytes) :
  blen a1 < 256 -> blen a2 < 256 ->
  [z2b (blen a1)] ++ a1 ++ r1 = [z2b (blen a2)] ++ a2 ++ r2 -> a1 = a2 /\ r1 = r2.
Proof.
  intros H1 H2 [= Hl Hr]. apply (f_equal b2z) in Hl.
  rewrite !one_octet in Hl by (split; [apply blen_nonneg|done]).
  apply app_inj_1; [unfold blen in Hl; lia|done].
Qed.

Lemma expand_info_inj l1 c1 n1 l2 c2 n2 :
  blen l1 <= 248 -> blen l2 <= 248 -> blen c1 < 256 -> blen c2 < 256 ->
  is_u16 n1 -> is_u16 n2 ->
  expand_info l1 c1 n1 = expand_info l2 c2 n2 -> l1 = l2 /\ c1 = c2 /\ n1 = n2.
Proof.
  intros Hl1 Hl2 Hc1 Hc2 Hn1 Hn2 Heq. unfold expand_info in Heq.
  apply app_inj_1 in Heq as [Hn Heq]; [|by rewrite !length_be_put].
  apply be_put_inj in Hn; [|apply u16_range..]. unfold u16 in Hn. rewrite !Z.mod_small in Hn by done.
  apply counted_inj in Heq as [Hl Heq]; [|rewrite blen_app; change (blen LabelPrefix) with 7; lia..].
  apply app_inv_head in Hl.
  destruct (counted_inj c1 c2 [] []) as [Hc _]; [done|done|by rewrite !app_nil_r|done].
Qed.

Lemma traffic_context_inj d1 e1 s1 c1 d2 e2 s2 c2 :
  is_u8 d1 -> is_u8 d2 -> is_u64 e1 -> is_u64 e2 -> is_u16 s1 -> is_u16 s2 ->
  is_u16 c1 -> is_u16 c2 ->
  traffic_context d1 e1 s1 c1 = traffic_context d2 e2 s2 c2 ->
  d1 = d2 /\ e1 = e2 /\ s1 = s2 /\ c1 = c2.
Proof.
  intros Hd1 Hd2 He1 He2 Hs1 Hs2 Hc1 Hc2 Heq. unfold traffic_context in Heq.
  apply app_inj_1 in Heq as [Hd Heq]; [|done]. injection Hd as Hd. apply (f_equal b2z) in Hd.
  rewrite !one_octet in Hd by done. apply app_inj_1 in Heq as [He Heq]; [|by rewrite !length_be_put].
  apply app_inj_1 in Heq as [Hs Hc]; [|by rewrite !length_be_put].
  apply be_put_inj in He; [|done..]. apply be_put_inj in Hs; [|done..].
  apply be_put_inj in Hc; done.
Qed.

(** ** Separation of the derived secrets *)

(** The coordinates of a traffic secret, and the expansion input they yield. *)
Definition traffic_coords : Type := Z * Z * Z * Z.   (* direction, epoch, suite, channel *)

Definition coords_wf (t : traffic_coords) : Prop :=
  let '(d, e, s, c) := t in is_u8 d /\ is_u64 e /\ is_u16 s /\ is_u16 c.

Definition traffic_info (t : traffic_coords) : bytes :=
  let '(d, e, s, c) := t in expand_info (str "traffic") (traffic_context d e s c) 32.

(** The other labels of the schedule. *)
Definition other_labels : list bytes :=
  [str "c hs"; str "s hs"; str "master"; str "finished"; str "master ratchet";
   str "master ratchet rekem"; str "key"; str "iv"].

Lemma HkdfExpandLabel_ok secret label ctx n h :
  HashSized h -> 0 <= n <= 255 * hash_len h ->
  exists okm, HkdfExpandLabel secret label ctx n h = Ok okm /\ blen okm = n.
Proof.
  intros Hh Hn. unfold HkdfExpandLabel, hash_len in *.
  destruct (hkdf_expand_ok h secret (expand_info label ctx n) (Z.to_nat n)) as (okm & -> & Hl); [lia|].
  exists okm. split; [done|]. unfold blen. lia.
Qed.

(** C30: a traffic secret is HKDF-Expand of the master secret on an input that
    determines the direction, the epoch, the suite and the channel; two different
    contexts never share that input, and no other label of the schedule can
    produce it.  So two traffic secrets of one master coincide only if
    HKDF-Expand itself collides on these two inputs. *)
Theorem traffic_secret_separation (master : bytes) (t1 t2 : traffic_coords)
    (H1 : coords_wf t1) (H2 : coords_wf t2) :
  (let '(d, e, s, c) := t1 in DeriveTrafficSecret master d e s c ProfileStandard)
    = (match hkdf_expand SHA256 master (traffic_info t1) 32 with
       | Some k => Ok k | None => Err ErrCrypto end) /\
  (traffic_info t1 = traffic_info t2 -> t1 = t2) /\
  (forall label ctx n, label ∈ other_labels -> blen ctx < 256 -> is_u16 n ->
     expand_info label ctx n <> traffic_info t1).
Proof.
  destruct t1 as [[[d1 e1] s1] c1], t2 as [[[d2 e2] s2] c2].
  destruct H1 as (Hd1 & He1 & Hs1 & Hc1), H2 as (Hd2 & He2 & Hs2 & Hc2).
  split_and!; [done| |].
  - intros Heq. apply expand_info_inj in Heq as (_ & Hctx & _); [|done..].
    by apply traffic_context_inj in Hctx as (-> & -> & -> & ->).
  - intros label ctx n Hl Hctx Hn Heq.
    assert (blen label <= 248 /\ label <> str "traffic") as [Hb Hne].
    { revert Hl. clear. unfold other_labels. rewrite !elem_of_cons, elem_of_nil.
      intros Hl. destruct_or! Hl; subst; done. }
    apply expand_info_inj in Heq as [-> _]; done.
Qed.

Lemma traffic_secret_separation_witness :
  traffic_info (0, 1, 1, 0) <> traffic_info (1, 1, 1, 0) /\
  exists k, DeriveTrafficSecret (str "m") 0 1 1 0 ProfileStandard = Ok k.
Proof.
  assert (coords_wf (0, 1, 1, 0)) as H1 by (by vm_compute).
  assert (coords_wf (1, 1, 1, 0)) as H2 by (by vm_compute).
  destruct (traffic_secret_separation (str "m") _ _ H1 H2) as (Heq & Hinj & _).
  split; [intros E; by specialize (Hinj E)|]. rewrite Heq. eexists. by vm_compute.
Defined.

(** At the Standard profile every derivation succeeds and has the size its
    caller relies on (32 octets; 32 and 12 for key and IV); for any other profile
    every derivation is refused with [ErrNoSuiteForProfile]. *)
Theorem schedule_profiles (secret th : bytes) (ss : SharedSecrets) (d e s c gen p : Z) :
  let results := [DeriveTrafficSecret secret d e s c p; HandshakeSecret ss p;
    fst <$> DeriveHandshakeTrafficSecrets secret th p;
    snd <$> DeriveHandshakeTrafficSecrets secret th p;
    DeriveMasterSecret secret th p; DeriveFinishedKey secret p;
    RatchetMasterTier1 secret gen p; RatchetMasterTier2 secret (Combined ss) th p;
    fst <$> DeriveKeyIV secret p] in
  if p =? ProfileStandard
  then Forall (fun r => exists k, r = Ok k /\ blen k = 32) results /\
       exists k iv, DeriveKeyIV secret p = Ok (k, iv) /\ blen iv = 12
  else Forall (fun r => r = Err ErrNoSuiteForProfile) results /\
       DeriveKeyIV secret p = Err ErrNoSuiteForProfile.
Proof.
  unfold DeriveTrafficSecret, HandshakeSecret, DeriveHandshakeTrafficSecrets, DeriveMasterSecret,
    DeriveFinishedKey, RatchetMasterTier1, RatchetMasterTier2, DeriveKeyIV, hashForProfile.
  destruct (p =? ProfileStandard); cbn -[HkdfExpandLabel hkdf_extract str replicate]; [|by repeat constructor].
  assert (forall secret label ctx n, 0 <= n <= 255 * 32 ->
    exists k, HkdfExpandLabel secret label ctx n SHA256 = Ok k /\ blen k = n) as Hok
    by (intros; apply HkdfExpandLabel_ok; [apply _|done]).
  change (hash_len SHA256) with 32 in *.
  destruct (Hok secret (str "c hs") th 32) as (k1 & -> & ?); [lia|].
  destruct (Hok secret (str "s hs") th 32) as (k2 & -> & ?); [lia|].
  destruct (Hok secret (str "key") [] 32) as (k3 & -> & ?); [lia|].
  destruct (Hok secret (str "iv") [] 12) as (k4 & -> & ?); [lia|].
  split; [|by exists k3, k4].
  repeat apply Forall_cons_2; try apply Forall_nil_2; try (apply Hok; lia);
    cbn [fmap result_fmap mbind result_bind fst snd]; eauto.
  eexists; split; [done|]. unfold hkdf_extract, blen. by rewrite (length_hmac SHA256).
Qed.
