(* ===== verification/Transcript.v ===== *)
(** * The handshake transcript (transcript.go) *)

From S2P Require Import Prelude Errors Registry Sha256 Crypto Tlv Kem KeySchedule.
From Stdlib Require Import Strings.Byte.
Open Scope Z_scope.

Record Transcript : Type := mkTranscript {
  newHash : hash_fn;
  t_buf : bytes
}.

Definition NewTranscript (p : Z) : result error Transcript :=
  h ← hashForProfile p;
  Ok (mkTranscript h []).

Definition AddFrameType (ft : Z) (t : Transcript) : Transcript :=
  mkTranscript (newHash t) (t_buf t ++ be_put 2 ft).

Definition AddTLV (v : TLV) (t : Transcript) : Transcript :=
  mkTranscript (newHash t) (TLV_Encode v (t_buf t)).

Definition AddFrame (ft : Z) (tlvs : list TLV) (t : Transcript) : Transcript :=
  fold_left (fun t v => AddTLV v t) tlvs (AddFrameType ft t).

Definition Transcript_Sum (t : Transcript) : bytes := hash_sum (newHash t) (t_buf t).

(** ** What has been absorbed *)

Definition frame_octets (f : Z * list TLV) : bytes := be_put 2 f.1 ++ encode_tlvs f.2.

Lemma AddFrame_buf ft tlvs t :
  AddFrame ft tlvs t = mkTranscript (newHash t) (t_buf t ++ frame_octets (ft, tlvs)).
Proof.
  unfold AddFrame. rewrite <- (rev_involutive tlvs). generalize (rev tlvs). clear tlvs.
  intros l. induction l as [|v l IH]; cbn [rev fold_left].
  - unfold frame_octets. cbn. by rewrite app_nil_r.
  - rewrite fold_left_app, IH. cbn [fold_left]. unfold AddTLV. cbn [newHash t_buf].
    rewrite TLV_Encode_app. f_equal. unfold frame_octets. cbn [fst snd].
    by rewrite encode_tlvs_app, <- !app_assoc.
Qed.

(** The octets of a run of frames, each with a known number of TLVs, determine
    the frames: the transcript has one reading for a given message flow. *)
Lemma encode_tlv_inj t1 t2 r1 r2 :
  tlv_wf t1 -> tlv_wf t2 -> encode_tlv t1 ++ r1 = encode_tlv t2 ++ r2 -> t1 = t2 /\ r1 = r2.
Proof.
  intros H1 H2 Heq. destruct (decode_front t1 r1 H1) as (Ht1 & Hl1 & Hv1 & Hr1).
  destruct (decode_front t2 r2 H2) as (Ht2 & Hl2 & Hv2 & Hr2).
  rewrite Heq in Ht1, Hl1, Hv1, Hr1. rewrite Hl2 in Hl1. rewrite <- Hl1 in *.
  split; [|congruence]. destruct t1, t2; cbn in *; congruence.
Qed.

Lemma encode_tlvs_inj ts1 ts2 r1 r2 :
  Forall tlv_wf ts1 -> Forall tlv_wf ts2 -> length ts1 = length ts2 ->
  encode_tlvs ts1 ++ r1 = encode_tlvs ts2 ++ r2 -> ts1 = ts2 /\ r1 = r2.
Proof.
  intros H1. revert ts2. induction H1 as [|t1 ts1 Ht1 H1 IH]; intros [|t2 ts2] H2 Hl; try done.
  apply Forall_cons in H2 as [Ht2 H2]. rewrite !encode_tlvs_cons, <- !app_assoc.
  intros [-> Heq]%encode_tlv_inj; [|done..].
  apply IH in Heq as [-> ->]; [done|done|by injection Hl].
Qed.

Definition flight_wf (f : Z * list TLV) : Prop := is_u16 f.1 /\ Forall tlv_wf f.2.

Lemma frames_inj (fs1 fs2 : list (Z * list TLV)) :
  Forall flight_wf fs1 -> Forall flight_wf fs2 ->
  (length ∘ snd) <$> fs1 = (length ∘ snd) <$> fs2 ->
  concat (frame_octets <$> fs1) = concat (frame_octets <$> fs2) -> fs1 = fs2.
Proof.
  intros H1. revert fs2. induction H1 as [|[ft1 ts1] fs1 [Hf1 Ht1] H1 IH];
    intros [|[ft2 ts2] fs2] H2 Hl Heq; try done.
  apply Forall_cons in H2 as [[Hf2 Ht2] H2]. cbn in *. injection Hl as Hl Hl'.
  unfold frame_octets in Heq at 1 3. cbn in Heq. rewrite <- !app_assoc in Heq.
  apply app_inj_1 in Heq as [Hft Heq]; [|by rewrite !length_be_put].
  apply be_put_inj in Hft as ->; [|done..].
  apply encode_tlvs_inj in Heq as [-> Heq]; [|done..]. f_equal. by apply IH.
Qed.
