(* ===== verification/Handshake.v ===== *)
(** * Handshake messages and authentication (handshake.go)

    CLIENT_HELLO, SERVER_HELLO and the AUTH message with their codecs, the
    CertVerify signature and the Finished MAC. *)

From S2P Require Import Prelude Errors Registry Sha256 Crypto Tlv Kem KeySchedule.
From Stdlib Require Import Strings.Byte.
Open Scope Z_scope.

Definition FrameClientHello : Z := 0x0100.
Definition FrameServerHello : Z := 0x0101.
Definition FrameServerAuth : Z := 0x0102.
Definition FrameClientAuth : Z := 0x0103.
Definition FrameMasterRatchet : Z := 0x0104.
Definition FrameMasterRatchetAck : Z := 0x0105.
Definition FrameReKEM : Z := 0x0106.
Definition FrameReKEMAck : Z := 0x0107.

Definition RoleClient : Z := 1.
Definition RoleServer : Z := 2.

Definition certVerifyContext (r : Z) : bytes :=
  if r =? RoleClient then str "N-PAMP/3, client CertificateVerify"
  else if r =? RoleServer then str "N-PAMP/3, server CertificateVerify"
  else [].

Record ClientHello : Type := mkClientHello {
  ProfileOffer : list Z;   (* []Profile, 8-bit *)
  KEMOffer : list Z;       (* []KEMID, 16-bit *)
  SigOffer : list Z;
  AEADOffer : list Z;
  ch_KEMShare : bytes
}.

Record ServerHello : Type := mkServerHello {
  ProfileSelect : Z;
  KEMSelect : Z;
  SigSelect : Z;
  AEADSelect : Z;
  sh_KEMCiphertext : bytes
}.

Record AuthMessage : Type := mkAuth {
  IdentityKey : bytes;
  CertVerify : bytes;
  Finished : bytes
}.

Definition u16ListBytes (ids : list Z) : bytes := concat (be_put 2 <$> ids).

(** The loop [for i := 0; i < len(v); i += 2]. *)
Fixpoint u16_pairs (v : bytes) : list Z :=
  match v with
  | a :: b :: v => be_get [a; b] :: u16_pairs v
  | _ => []
  end.

Definition parseU16List (v : bytes) : result error (list Z) :=
  check ((blen v =? 0) || negb (blen v mod 2 =? 0)) ErrHandshakeTLVValue;;
  Ok (u16_pairs v).

Definition requireTLVs (tlvs : list TLV) (want : list Z) : result error unit :=
  let wanted t := existsb (Z.eqb t) want in
  CheckMustUnderstand tlvs wanted;;
  check (negb (blen tlvs =? blen want)) ErrHandshakeTLVOrder;;
  check (negb (bool_decide ((TLVType <$> tlvs) = want))) ErrHandshakeTLVOrder.

Definition ClientHello_TLVs (m : ClientHello) : list TLV :=
  [ mkTLV TLVProfileOffer (z2b <$> ProfileOffer m);
    mkTLV TLVKEMOffer (u16ListBytes (KEMOffer m));
    mkTLV TLVSigOffer (u16ListBytes (SigOffer m));
    mkTLV TLVAEADOffer (u16ListBytes (AEADOffer m));
    mkTLV TLVKEMShare (ch_KEMShare m) ].

Definition ClientHello_Encode (m : ClientHello) : bytes := encode_tlvs (ClientHello_TLVs m).

(** [tlvs[i].Value] of a list whose length [requireTLVs] has checked. *)
Definition tlv_value (tlvs : list TLV) (i : nat) : bytes := TLVValue (nth i tlvs (mkTLV 0 [])).

Definition DecodeClientHello (payload : bytes) : result error ClientHello :=
  tlvs ← DecodeTLVs payload;
  requireTLVs tlvs [TLVProfileOffer; TLVKEMOffer; TLVSigOffer; TLVAEADOffer; TLVKEMShare];;
  check (blen (tlv_value tlvs 0) =? 0) ErrHandshakeTLVValue;;
  let profiles := b2z <$> tlv_value tlvs 0 in
  kems ← parseU16List (tlv_value tlvs 1);
  sigs ← parseU16List (tlv_value tlvs 2);
  aeads ← parseU16List (tlv_value tlvs 3);
  check (blen (tlv_value tlvs 4) =? 0) ErrHandshakeTLVValue;;
  Ok (mkClientHello profiles kems sigs aeads (tlv_value tlvs 4)).

Definition ServerHello_TLVs (m : ServerHello) : list TLV :=
  [ mkTLV TLVProfileSelect [z2b (ProfileSelect m)];
    mkTLV TLVKEMSelect (be_put 2 (KEMSelect m));
    mkTLV TLVSigSelect (be_put 2 (SigSelect m));
    mkTLV TLVAEADSelect (be_put 2 (AEADSelect m));
    mkTLV TLVKEMCiphertext (sh_KEMCiphertext m) ].

Definition ServerHello_Encode (m : ServerHello) : bytes := encode_tlvs (ServerHello_TLVs m).

Definition DecodeServerHello (payload : bytes) : result error ServerHello :=
  tlvs ← DecodeTLVs payload;
  requireTLVs tlvs [TLVProfileSelect; TLVKEMSelect; TLVSigSelect; TLVAEADSelect; TLVKEMCiphertext];;
  check (negb (blen (tlv_value tlvs 0) =? 1)) ErrHandshakeTLVValue;;
  check (negb (blen (tlv_value tlvs 1) =? 2)) ErrHandshakeTLVValue;;
  check (negb (blen (tlv_value tlvs 2) =? 2)) ErrHandshakeTLVValue;;
  check (negb (blen (tlv_value tlvs 3) =? 2)) ErrHandshakeTLVValue;;
  check (blen (tlv_value tlvs 4) =? 0) ErrHandshakeTLVValue;;
  Ok (mkServerHello (at_ (tlv_value tlvs 0) 0) (be_get (tlv_value tlvs 1))
        (be_get (tlv_value tlvs 2)) (be_get (tlv_value tlvs 3)) (tlv_value tlvs 4)).

Definition AuthMessage_TLVs (m : AuthMessage) : list TLV :=
  [ mkTLV TLVIdentityKey (IdentityKey m);
    mkTLV TLVCertVerify (CertVerify m);
    mkTLV TLVFinished (Finished m) ].

Definition AuthMessage_Encode (m : AuthMessage) : bytes := encode_tlvs (AuthMessage_TLVs m).

Definition DecodeAuthMessage (payload : bytes) : result error AuthMessage :=
  tlvs ← DecodeTLVs payload;
  requireTLVs tlvs [TLVIdentityKey; TLVCertVerify; TLVFinished];;
  check (blen (tlv_value tlvs 0) =? 0) ErrHandshakeTLVValue;;
  check (blen (tlv_value tlvs 1) =? 0) ErrHandshakeTLVValue;;
  check (blen (tlv_value tlvs 2) =? 0) ErrHandshakeTLVValue;;
  Ok (mkAuth (tlv_value tlvs 0) (tlv_value tlvs 1) (tlv_value tlvs 2)).

(** ** Authentication *)

Definition CertVerifySigningInput (role : Z) (transcriptHash : bytes) : result error bytes :=
  let ctx := certVerifyContext role in
  check (bool_decide (ctx = [])) ErrInvalidRole;;
  Ok (replicate 64 x20 ++ ctx ++ [x00] ++ transcriptHash).

Definition ed25519_PublicKeySize : Z := 32.
Definition ed25519_SignatureSize : Z := 64.

Section auth.
Context `{Crypto}.

Definition SignCertVerify (priv : bytes) (role : Z) (transcriptHash : bytes) : result error bytes :=
  input ← CertVerifySigningInput role transcriptHash;
  Ok (be_put 2 SigEd25519 ++ ed25519_sign priv input).

Definition VerifyCertVerify (pub : bytes) (role : Z) (transcriptHash certVerifyValue : bytes)
    : result error unit :=
  check (negb (blen pub =? ed25519_PublicKeySize)) ErrCertVerifyKeySize;;
  check (negb (blen certVerifyValue =? 2 + ed25519_SignatureSize)) ErrCertVerifySignature;;
  check (negb (be_get (slice 0 2 certVerifyValue) =? SigEd25519)) ErrCertVerifyScheme;;
  input ← CertVerifySigningInput role transcriptHash;
  check (negb (ed25519_verify pub input (drop 2 certVerifyValue))) ErrCertVerifySignature.
End auth.

Definition ComputeFinished (finishedKey transcriptHash : bytes) (p : Z) : result error bytes :=
  h ← hashForProfile p;
  Ok (hmac h finishedKey transcriptHash).

Definition VerifyFinished (finishedKey transcriptHash verifyData : bytes) (p : Z)
    : result error unit :=
  want ← ComputeFinished finishedKey transcriptHash p;
  check (negb (bool_decide (want = verifyData))) ErrFinishedMismatch.

(** ** The shape check *)

Lemma requireTLVs_iff tlvs want : requireTLVs tlvs want = Ok tt <-> TLVType <$> tlvs = want.
Proof.
  unfold requireTLVs. rewrite !bind_Ok. split.
  - intros ([] & Hm & H). inv_res H. done.
  - intros <-. exists tt. split.
    + apply check_must_understand_iff, Forall_forall. intros t Ht _.
      apply existsb_exists. exists (TLVType t). split; [|apply Z.eqb_refl].
      apply list_elem_of_In. by apply list_elem_of_fmap_2.
    + unfold blen. rewrite length_fmap, Z.eqb_refl, bool_decide_true by done. done.
Qed.

Lemma decode_shape payload tlvs want u :
  DecodeTLVs payload = Ok tlvs -> requireTLVs tlvs want = Ok u ->
  TLVType <$> tlvs = want /\ Forall tlv_wf tlvs /\ payload = encode_tlvs tlvs.
Proof.
  destruct u. intros [[Hwf _] ->]%decode_tlvs_inv Hr. by apply requireTLVs_iff in Hr.
Qed.

(** ** Lists of code points *)

Lemma u16_pairs_bytes ids : Forall is_u16 ids -> u16_pairs (u16ListBytes ids) = ids.
Proof.
  induction 1 as [|x ids Hx Hids IH]; [done|]. unfold u16ListBytes. cbn [fmap list_fmap concat].
  change (u16_pairs (be_put 2 x ++ ?r)) with (be_get (be_put 2 x) :: u16_pairs r).
  rewrite be_get_put_small by done. f_equal. apply IH.
Qed.

Lemma blen_u16ListBytes ids : blen (u16ListBytes ids) = 2 * blen ids.
Proof.
  induction ids as [|x ids IH]; [done|]. unfold u16ListBytes in *. cbn [fmap list_fmap concat].
  rewrite blen_app, IH, blen_be_put, blen_cons. lia.
Qed.

Lemma u16_bytes_pairs v : Nat.even (length v) = true ->
  u16ListBytes (u16_pairs v) = v /\ Forall is_u16 (u16_pairs v).
Proof.
  enough (forall n v, (length v <= n)%nat -> Nat.even (length v) = true ->
    u16ListBytes (u16_pairs v) = v /\ Forall is_u16 (u16_pairs v)) as H by (by apply (H (length v))).
  clear v. induction n as [|n IH]; intros [|a [|b v]] Hn Hev; cbn in Hn; try done; try lia.
  destruct (IH v) as [H1 H2]; [lia|done|]. split.
  - unfold u16ListBytes in *. cbn [u16_pairs fmap list_fmap concat].
    rewrite (be_put_get_eq [a; b] 2) by done. cbn [app]. do 2 f_equal. exact H1.
  - constructor; [exact (be_get_range [a; b])|done].
Qed.

Definition u16_offer_wf (ids : list Z) : Prop := ids <> [] /\ Forall is_u16 ids /\ 2 * blen ids < 2 ^ 16.

Lemma blen_nonempty {A} (l : list A) : l <> [] <-> (blen l =? 0) = false.
Proof. rewrite Z.eqb_neq. unfold blen. destruct l; cbn; split; intros; congruence || lia. Qed.

Lemma parseU16List_bytes ids : u16_offer_wf ids -> parseU16List (u16ListBytes ids) = Ok ids.
Proof.
  intros (Hne & Hids & _). unfold parseU16List. rewrite blen_u16ListBytes.
  apply blen_nonempty, Z.eqb_neq in Hne. rewrite (proj2 (Z.eqb_neq _ _)) by lia.
  replace (2 * blen ids mod 2) with 0 by (rewrite Z.mul_comm, Z.mod_mul; lia). cbn.
  by rewrite u16_pairs_bytes.
Qed.

Lemma parseU16List_inv v ids :
  parseU16List v = Ok ids -> blen v < 2 ^ 16 -> u16_offer_wf ids /\ v = u16ListBytes ids.
Proof.
  unfold parseU16List. intros Hp Hlt. inv_res Hp.
  assert (Nat.even (length v) = true) as Hev.
  { unfold blen in *. apply Nat.even_spec. exists (Z.to_nat (Z.of_nat (length v) / 2)).
    pose proof (Z.div_mod (Z.of_nat (length v)) 2). lia. }
  destruct (u16_bytes_pairs v Hev) as [Hb Hf]. split; [|done].
  assert (blen v = 2 * blen (u16_pairs v)) as Hl by (rewrite <- Hb at 1; apply blen_u16ListBytes).
  split_and!; [|done|lia]. apply blen_nonempty, Z.eqb_neq. lia.
Qed.

(** ** The message codecs *)

Definition value_wf (v : bytes) : Prop := v <> [] /\ blen v < 2 ^ 16.

Definition client_hello_wf (m : ClientHello) : Prop :=
  ProfileOffer m <> [] /\ Forall is_u8 (ProfileOffer m) /\ blen (ProfileOffer m) < 2 ^ 16 /\
  u16_offer_wf (KEMOffer m) /\ u16_offer_wf (SigOffer m) /\ u16_offer_wf (AEADOffer m) /\
  value_wf (ch_KEMShare m).

Definition server_hello_wf (m : ServerHello) : Prop :=
  is_u8 (ProfileSelect m) /\ is_u16 (KEMSelect m) /\ is_u16 (SigSelect m) /\
  is_u16 (AEADSelect m) /\ value_wf (sh_KEMCiphertext m).

Definition auth_wf (m : AuthMessage) : Prop :=
  value_wf (IdentityKey m) /\ value_wf (CertVerify m) /\ value_wf (Finished m).

Lemma profiles_octets l : Forall is_u8 l -> b2z <$> (z2b <$> l) = l.
Proof. induction 1 as [|x l Hx Hl IH]; [done|]. cbn. by rewrite b2z_z2b_small, IH. Qed.

Lemma octets_profiles v : z2b <$> (b2z <$> v) = v /\ Forall is_u8 (b2z <$> v).
Proof.
  induction v as [|x v [IH1 IH2]]; [done|]. cbn. rewrite z2b_b2z, IH1.
  split; [done|]. constructor; [apply b2z_range|done].
Qed.

Lemma tlvs_wf_intro ts : Forall tlv_wf ts -> (length ts <= 64)%nat -> tlvs_wf ts.
Proof. intros H Hl. split; [done|]. unfold blen, MaxTLVsPerFrame. lia. Qed.

Ltac tlv_wf_tac :=
  split; cbn [TLVType TLVValue];
  [by vm_compute | rewrite ?blen_u16ListBytes; unfold blen in *; rewrite ?length_fmap; done].

Lemma ClientHello_TLVs_wf m : client_hello_wf m -> Forall tlv_wf (ClientHello_TLVs m).
Proof.
  intros (_ & _ & Hp & (_ & _ & Hk) & (_ & _ & Hs) & (_ & _ & Ha) & (_ & Hc)).
  repeat (constructor; [tlv_wf_tac|]). constructor.
Qed.

Lemma decode_client_hello m :
  client_hello_wf m -> DecodeClientHello (ClientHello_Encode m) = Ok m.
Proof.
  intros Hm. unfold DecodeClientHello, ClientHello_Encode.
  rewrite decode_encode_tlvs by (apply tlvs_wf_intro; [by apply ClientHello_TLVs_wf|cbn; lia]).
  destruct Hm as (Hp & Hp8 & _ & Hk & Hs & Ha & (Hc & _)). cbn [mbind result_bind].
  rewrite (proj2 (requireTLVs_iff _ _)) by done. unfold tlv_value. cbn [nth ClientHello_TLVs TLVValue mbind result_bind].
  rewrite (proj1 (blen_nonempty (z2b <$> ProfileOffer m))) by (by destruct (ProfileOffer m)).
  cbn [check mbind result_bind]. rewrite !parseU16List_bytes by done. cbn [mbind result_bind].
  rewrite (proj1 (blen_nonempty (ch_KEMShare m))) by done. cbn [check mbind result_bind].
  rewrite profiles_octets by done. by destruct m.
Qed.

Lemma client_hello_decode b m :
  DecodeClientHello b = Ok m -> client_hello_wf m /\ b = ClientHello_Encode m.
Proof.
  unfold DecodeClientHello. intros Hd. inv_res_core Hd.
  match goal with H1 : DecodeTLVs _ = _, H2 : requireTLVs _ _ = _ |- _ =>
    destruct (decode_shape _ _ _ _ H1 H2) as (Hshape & Hwf & ->); clear H1 H2 end.
  destruct r as [|t0 [|t1 [|t2 [|t3 [|t4 [|]]]]]]; try discriminate Hshape.
  unfold tlv_value in *. cbn [nth] in *. rewrite !Forall_cons in Hwf.
  destruct Hwf as ([_ H0] & [_ H1] & [_ H2] & [_ H3] & [_ H4] & _).
  repeat match goal with H : parseU16List _ = Ok _ |- _ =>
    apply parseU16List_inv in H as [? ?]; [|done] end.
  destruct (octets_profiles (TLVValue t0)) as [Hz Hu].
  split.
  - unfold client_hello_wf, value_wf. cbn. split_and!; try done.
    + apply blen_nonempty. unfold blen in *. by rewrite length_fmap.
    + unfold blen in *. by rewrite length_fmap.
    + by apply blen_nonempty.
  - unfold ClientHello_Encode, ClientHello_TLVs. cbn [ProfileOffer KEMOffer SigOffer AEADOffer ch_KEMShare].
    rewrite Hz. destruct t0, t1, t2, t3, t4. cbn in *. simplify_eq. done.
Qed.

#[export] Instance client_hello_codec :
  Codec error ClientHello client_hello_wf ClientHello_Encode DecodeClientHello.
Proof. split; [exact decode_client_hello|]. intros b m H. by apply client_hello_decode in H as [_ ->]. Qed.

Lemma ServerHello_TLVs_wf m : server_hello_wf m -> Forall tlv_wf (ServerHello_TLVs m).
Proof.
  intros (_ & _ & _ & _ & (_ & Hc)).
  repeat (constructor; [split; cbn [TLVType TLVValue]; [by vm_compute|done]|]). constructor.
Qed.

Lemma decode_server_hello m :
  server_hello_wf m -> DecodeServerHello (ServerHello_Encode m) = Ok m.
Proof.
  intros Hm. unfold DecodeServerHello, ServerHello_Encode.
  rewrite decode_encode_tlvs by (apply tlvs_wf_intro; [by apply ServerHello_TLVs_wf|cbn; lia]).
  destruct Hm as (Hp & Hk & Hs & Ha & (Hc & _)). cbn [mbind result_bind].
  rewrite (proj2 (requireTLVs_iff _ _)) by done. unfold tlv_value.
  cbn [nth ServerHello_TLVs TLVValue mbind result_bind].
  change (blen [z2b (ProfileSelect m)]) with 1. rewrite !blen_be_put.
  rewrite (proj1 (blen_nonempty (sh_KEMCiphertext m))) by done. cbn [check mbind result_bind].
  unfold at_. cbn [nth]. rewrite b2z_z2b_small, !be_get_put_small by done. by destruct m.
Qed.

Lemma server_hello_decode b m :
  DecodeServerHello b = Ok m -> server_hello_wf m /\ b = ServerHello_Encode m.
Proof.
  unfold DecodeServerHello. intros Hd. inv_res_core Hd. bprop.
  match goal with H1 : DecodeTLVs _ = _, H2 : requireTLVs _ _ = _ |- _ =>
    destruct (decode_shape _ _ _ _ H1 H2) as (Hshape & Hwf & ->); clear H1 H2 end.
  destruct r as [|t0 [|t1 [|t2 [|t3 [|t4 [|]]]]]]; try discriminate Hshape.
  unfold tlv_value in *. cbn [nth] in *. rewrite !Forall_cons in Hwf.
  destruct Hwf as ([_ H0] & [_ H1] & [_ H2] & [_ H3] & [_ H4] & _).
  assert (forall v : bytes, blen v = 2 -> length v = 2%nat) as H2l by (unfold blen; lia).
  assert (exists p0, TLVValue t0 = [p0]) as [p0 Hp0].
  { unfold blen in Hd1. destruct (TLVValue t0) as [|p0 [|]]; cbn in Hd1; [lia|eauto|lia]. }
  destruct t0, t1, t2, t3, t4; cbn in *; simplify_eq.
  split.
  - unfold server_hello_wf, value_wf. cbn. split_and!;
      first [apply b2z_range | by apply (be_get_fixed _ 2), H2l | done
            | by apply blen_nonempty, Z.eqb_neq].
  - unfold ServerHello_Encode, ServerHello_TLVs.
    cbn [ProfileSelect KEMSelect SigSelect AEADSelect sh_KEMCiphertext]. unfold at_. cbn [nth].
    by rewrite z2b_b2z, !be_put_get_eq by (by apply H2l).
Qed.

#[export] Instance server_hello_codec :
  Codec error ServerHello server_hello_wf ServerHello_Encode DecodeServerHello.
Proof. split; [exact decode_server_hello|]. intros b m H. by apply server_hello_decode in H as [_ ->]. Qed.

Lemma AuthMessage_TLVs_wf m : auth_wf m -> Forall tlv_wf (AuthMessage_TLVs m).
Proof.
  intros ((_ & H1) & (_ & H2) & (_ & H3)).
  repeat (constructor; [split; cbn [TLVType TLVValue]; [by vm_compute|done]|]). constructor.
Qed.

Lemma decode_auth m : auth_wf m -> DecodeAuthMessage (AuthMessage_Encode m) = Ok m.
Proof.
  intros Hm. unfold DecodeAuthMessage, AuthMessage_Encode.
  rewrite decode_encode_tlvs by (apply tlvs_wf_intro; [by apply AuthMessage_TLVs_wf|cbn; lia]).
  destruct Hm as ((H1 & _) & (H2 & _) & (H3 & _)). cbn [mbind result_bind].
  rewrite (proj2 (requireTLVs_iff _ _)) by done. unfold tlv_value.
  cbn [nth AuthMessage_TLVs TLVValue mbind result_bind].
  rewrite (proj1 (blen_nonempty (IdentityKey m))), (proj1 (blen_nonempty (CertVerify m))),
    (proj1 (blen_nonempty (Finished m))) by done. by destruct m.
Qed.

Lemma auth_decode b m : DecodeAuthMessage b = Ok m -> auth_wf m /\ b = AuthMessage_Encode m.
Proof.
  unfold DecodeAuthMessage. intros Hd. inv_res_core Hd.
  match goal with H1 : DecodeTLVs _ = _, H2 : requireTLVs _ _ = _ |- _ =>
    destruct (decode_shape _ _ _ _ H1 H2) as (Hshape & Hwf & ->); clear H1 H2 end.
  destruct r as [|t0 [|t1 [|t2 [|]]]]; try discriminate Hshape.
  unfold tlv_value in *. cbn [nth] in *. rewrite !Forall_cons in Hwf.
  destruct Hwf as ([_ H0] & [_ H1] & [_ H2] & _).
  destruct t0, t1, t2; cbn in *; simplify_eq.
  split; [|done]. unfold auth_wf, value_wf. cbn. split_and!; try done; by apply blen_nonempty.
Qed.

#[export] Instance auth_codec : Codec error AuthMessage auth_wf AuthMessage_Encode DecodeAuthMessage.
Proof. split; [exact decode_auth|]. intros b m H. by apply auth_decode in H as [_ ->]. Qed.

(** C29: each handshake message decodes from exactly one octet string: decoding
    accepts the encodings of well-formed messages (non-empty offers and values,
    code points within their width) and nothing else, and gives the message back. *)
Theorem handshake_messages_exact (b : bytes) (c : ClientHello) (s : ServerHello) (a : AuthMessage) :
  (DecodeClientHello b = Ok c <-> client_hello_wf c /\ b = ClientHello_Encode c) /\
  (DecodeServerHello b = Ok s <-> server_hello_wf s /\ b = ServerHello_Encode s) /\
  (DecodeAuthMessage b = Ok a <-> auth_wf a /\ b = AuthMessage_Encode a).
Proof.
  split_and!; (split; [|intros [? ->]]).
  - apply client_hello_decode.
  - by apply decode_client_hello.
  - apply server_hello_decode.
  - by apply decode_server_hello.
  - apply auth_decode.
  - by apply decode_auth.
Qed.

(** ** CertVerify and Finished *)

Definition role_valid (r : Z) : Prop := r = RoleClient \/ r = RoleServer.

Lemma certVerifyContext_valid r : role_valid r <-> certVerifyContext r <> [].
Proof.
  unfold role_valid, certVerifyContext.
  destruct (Z.eqb_spec r RoleClient), (Z.eqb_spec r RoleServer); split; intros; try done; tauto.
Qed.

Lemma signing_input_iff r th i :
  CertVerifySigningInput r th = Ok i <->
  role_valid r /\ i = replicate 64 x20 ++ certVerifyContext r ++ [x00] ++ th.
Proof.
  unfold CertVerifySigningInput. rewrite certVerifyContext_valid. split.
  - intros Hi. inv_res Hi. done.
  - intros [Hr ->]. by rewrite bool_decide_false.
Qed.

Lemma signing_input_inj r1 r2 th1 th2 i :
  CertVerifySigningInput r1 th1 = Ok i -> CertVerifySigningInput r2 th2 = Ok i ->
  r1 = r2 /\ th1 = th2.
Proof.
  rewrite !signing_input_iff. intros [H1 ->] [H2 Heq]. apply app_inv_head in Heq.
  apply app_inj_1 in Heq as [Hc Heq]; [|by destruct H1 as [->| ->], H2 as [->| ->]].
  injection Heq as Heq. split; [|done]. by destruct H1 as [->| ->], H2 as [->| ->].
Qed.

Section auth_proofs.
Context `{CryptoLaws}.

Lemma verify_sign priv role th v :
  SignCertVerify priv role th = Ok v ->
  VerifyCertVerify (ed25519_public priv) role th v = Ok tt.
Proof.
  unfold SignCertVerify. intros Hs. apply bind_Ok in Hs as (input & Hi & Hv).
  assert (v = be_put 2 SigEd25519 ++ ed25519_sign priv input) as -> by congruence.
  unfold VerifyCertVerify. rewrite ed25519_public_size, blen_app, ed25519_sign_size, blen_be_put.
  change (slice 0 2 (be_put 2 SigEd25519 ++ _)) with (be_put 2 SigEd25519).
  change (drop 2 (be_put 2 SigEd25519 ++ ?x)) with x.
  rewrite Hi. change (be_get (be_put 2 SigEd25519)) with SigEd25519. cbn.
  by rewrite ed25519_verify_sign.
Qed.

(** [VerifyCertVerify] accepts a value exactly when it is the Ed25519
    scheme identifier followed by a 64-octet signature that verifies, under the
    32-octet key, over the input of a valid role; the input determines role and
    transcript hash, so one signature is never checked over the same octets for
    two roles or two transcripts; and what [SignCertVerify] makes is accepted. *)
Theorem cert_verify_spec (pub priv th v : bytes) (role : Z) :
  (VerifyCertVerify pub role th v = Ok tt <->
   blen pub = 32 /\ exists sig, v = be_put 2 SigEd25519 ++ sig /\ blen sig = 64 /\
     exists input, CertVerifySigningInput role th = Ok input /\
       ed25519_verify pub input sig = true) /\
  (forall role' th' input, CertVerifySigningInput role th = Ok input ->
     CertVerifySigningInput role' th' = Ok input -> role = role' /\ th = th') /\
  (forall v', SignCertVerify priv role th = Ok v' ->
     VerifyCertVerify (ed25519_public priv) role th v' = Ok tt).
Proof.
  split_and!; [split| |].
  - unfold VerifyCertVerify. intros Hv. inv_res Hv. split; [done|].
    exists (drop 2 v). assert (length v = 66%nat) as Hl by (unfold blen, ed25519_SignatureSize in *; lia).
    split_and!.
    + rewrite <- (take_drop 2 v) at 1. f_equal. change (take 2 v) with (slice 0 2 v).
      match goal with Hg : be_get _ = SigEd25519 |- _ => rewrite <- Hg end.
      symmetry. apply be_put_get_eq. rewrite length_slice; lia.
    + unfold blen. rewrite length_drop. lia.
    + eauto.
  - intros (Hp & sig & -> & Hs & input & Hi & Hv). unfold VerifyCertVerify.
    rewrite Hp, blen_app, Hs, blen_be_put.
    change (slice 0 2 (be_put 2 SigEd25519 ++ _)) with (be_put 2 SigEd25519).
    change (drop 2 (be_put 2 SigEd25519 ++ ?x)) with x.
    rewrite Hi. change (be_get (be_put 2 SigEd25519)) with SigEd25519. cbn. by rewrite Hv.
  - intros. by eapply signing_input_inj.
  - apply verify_sign.
Qed.

End auth_proofs.

Lemma cert_verify_spec_witness :
  let cv := match SignCertVerify (H := Toy.crypto) (str "k") RoleServer (str "th") with
            | Ok v => v | Err _ => [] end in
  VerifyCertVerify (H := Toy.crypto) (ed25519_public (Crypto := Toy.crypto) (str "k"))
    RoleServer (str "th") cv = Ok tt.
Proof.
  apply (proj2 (proj2 (cert_verify_spec (H := Toy.crypto) (H0 := Toy.laws)
    [] (str "k") (str "th") [] RoleServer))). by vm_compute.
Defined.

(** At the Standard profile [VerifyFinished] accepts exactly the MAC. *)
Lemma verify_finished_iff key th d :
  VerifyFinished key th d ProfileStandard = Ok tt <-> d = hmac SHA256 key th.
Proof.
  unfold VerifyFinished, ComputeFinished, hashForProfile. cbn. split.
  - intros Hv. inv_res Hv. done.
  - intros ->. by rewrite bool_decide_true.
Qed.
