(* ===== verification/Cbor.v ===== *)
(** * Deterministic CBOR (memory_cbor.go)

    The value type, [cborEncode], [cborDecode] with its nesting bound, and the
    canonical map.  The main result is that decoding accepts exactly the canonical
    encodings of values nested at most eight deep. *)

From S2P Require Import Prelude Errors.
From Stdlib Require Import Strings.Byte Sorting.Sorted.
From stdpp Require Import sorting gmap.
Open Scope Z_scope.
Open Scope Z_scope.

(** The dynamic Go types the codec handles.  [VInt] stands for [int64] and [int],
    which [cborEncode] treats alike; [VGoMap] is a [map[uint64]any] with its entries
    in some iteration order. *)
#[local] Unset Elimination Schemes.
Inductive value : Type :=
| VUint (n : Z)
| VInt (n : Z)
| VBytes (b : bytes)
| VText (b : bytes)
| VArray (l : list value)
| VMap (entries : list (bytes * value * value))   (* *cborMap: keyEnc, key, val *)
| VGoMap (m : list (Z * value))
| VBool (b : bool)
| VNil.
#[local] Set Elimination Schemes.

Abbreviation cborEntry := (prod (prod bytes value) value).
Definition keyEnc (e : cborEntry) : bytes := e.1.1.
Definition ekey (e : cborEntry) : value := e.1.2.
Definition eval (e : cborEntry) : value := e.2.

Definition cborMaxNestingDepth : nat := 8.

Fixpoint byteEqual (a b : bytes) : bool :=
  match a, b with
  | [], [] => true
  | x :: a, y :: b => (b2z x =? b2z y) && byteEqual a b
  | _, _ => false
  end.

Fixpoint byteLess (a b : bytes) : bool :=
  match a, b with
  | _, [] => false
  | [], _ :: _ => true
  | x :: a, y :: b => if b2z x =? b2z y then byteLess a b else b2z x <? b2z y
  end.

(** ** Encoding *)

Definition encodeHead (major arg : Z) : bytes :=
  let mb := Z.shiftl major 5 in
  if arg <? 24 then [z2b (Z.lor mb arg)]
  else if arg <? Z.shiftl 1 8 then z2b (Z.lor mb 24) :: be_put 1 arg
  else if arg <? Z.shiftl 1 16 then z2b (Z.lor mb 25) :: be_put 2 arg
  else if arg <? Z.shiftl 1 32 then z2b (Z.lor mb 26) :: be_put 4 arg
  else z2b (Z.lor mb 27) :: be_put 8 arg.

(** [sort.Slice] by the encoded key; keys of a Go map are distinct, so the result
    does not depend on the sorting algorithm. *)
Section sort_entries.
Context {A : Type} (key : A -> bytes).

Fixpoint insert_entry (e : A) (l : list A) : list A :=
  match l with
  | [] => [e]
  | x :: l' => if byteLess (key e) (key x) then e :: l else x :: insert_entry e l'
  end.

Definition sort_entries (l : list A) : list A := foldr insert_entry [] l.
End sort_entries.

Fixpoint cborEncode (v : value) : bytes :=
  match v with
  | VUint n => encodeHead 0 n
  | VInt n => if n <? 0 then encodeHead 1 (-1 - n) else encodeHead 0 n
  | VBytes b => encodeHead 2 (blen b) ++ b
  | VText b => encodeHead 3 (blen b) ++ b
  | VArray l => encodeHead 4 (blen l) ++ concat (map cborEncode l)
  | VMap es => encodeHead 5 (blen es) ++
      concat (map (fun e => match e with (ke, _, x) => ke ++ cborEncode x end) es)
  | VGoMap m =>
      (* newCBORMapU, then the [*cborMap] case: see [encode_newCBORMapU] *)
      encodeHead 5 (blen m) ++
      concat (map (fun e => e.1 ++ e.2) (sort_entries fst
        (map (fun e => match e with (k, x) => (encodeHead 0 k, cborEncode x) end) m)))
  | VBool b => if b then [xf5] else [xf4]
  | VNil => [xf6]
  end.

Definition newCBORMapU (m : list (Z * value)) : list cborEntry :=
  sort_entries keyEnc (map (fun e => (cborEncode (VUint e.1), VUint e.1, e.2)) m).

(** ** Reading a canonical map *)

Fixpoint cborMap_get (m : list cborEntry) (key : Z) : option value :=
  match m with
  | [] => None
  | e :: m => if byteEqual (keyEnc e) (cborEncode (VUint key)) then Some (eval e) else cborMap_get m key
  end.

Definition cborMap_keys (m : list cborEntry) : list value := map ekey m.

(** ** Decoding *)

(** The argument and the header length. *)
Definition decodeArg (ai : Z) (b : bytes) : result error (Z * nat) :=
  let wide (k : nat) (floor : Z) :=
    check (blen b <? 1 + Z.of_nat k) errCBORTruncated;;
    let v := be_get (slice 1 (1 + k) b) in
    check (v <? floor) errCBORNotShortest;;
    Ok (v, (1 + k)%nat) in
  if ai <? 24 then Ok (ai, 1%nat)
  else if ai =? 24 then wide 1%nat 24
  else if ai =? 25 then wide 2%nat (Z.shiftl 1 8)
  else if ai =? 26 then wide 4%nat (Z.shiftl 1 16)
  else if ai =? 27 then wide 8%nat (Z.shiftl 1 32)
  else if ai =? 31 then Err errCBORIndefinite
  else Err errCBORUnsupported.

Section loops.
Context (decode : bytes -> result error (value * nat)).

(** The element loop: [off] is the offset reached in [b]. *)
Fixpoint decode_array (count : nat) (b : bytes) (off : nat) : result error (list value * nat) :=
  match count with
  | O => Ok ([], off)
  | S count =>
      '(el, en) ← decode (drop off b);
      '(els, off') ← decode_array count b (off + en);
      Ok (el :: els, off')
  end.

Fixpoint decode_map (count : nat) (b : bytes) (prev : option bytes) (off : nat)
    : result error (list cborEntry * nat) :=
  match count with
  | O => Ok ([], off)
  | S count =>
      '(key, kn) ← decode (drop off b);
      let ke := slice off (off + kn) b in
      check (match prev with Some p => negb (byteLess p ke) | None => false end) errCBORMapOrder;;
      let off := (off + kn)%nat in
      '(val, vn) ← decode (drop off b);
      '(es, off') ← decode_map count b (Some ke) (off + vn);
      Ok ((ke, key, val) :: es, off')
  end.
End loops.

(** [levels] is [cborMaxNestingDepth + 1 - depth]: the guard [depth >
    cborMaxNestingDepth] is [levels = 0]. *)
Fixpoint cborDecode (levels : nat) (b : bytes) : result error (value * nat) :=
  match levels with
  | O => Err errCBORDepthExceeded
  | S levels =>
      match b with
      | [] => Err errCBORTruncated
      | ib :: _ =>
          let major := Z.shiftr (b2z ib) 5 in
          let ai := Z.land (b2z ib) 0x1f in
          if major =? 7 then
            if ai =? 20 then Ok (VBool false, 1%nat)
            else if ai =? 21 then Ok (VBool true, 1%nat)
            else if ai =? 22 then Ok (VNil, 1%nat)
            else Err errCBORUnsupported
          else
            '(arg, n) ← decodeArg ai b;
            if major =? 0 then Ok (VUint arg, n)
            else if major =? 1 then
              check (2 ^ 63 - 1 <? arg) errCBORUnsupported;;
              Ok (VInt (i64 (-1 - i64 arg)), n)
            else if (major =? 2) || (major =? 3) then
              let end_ := i64 (Z.of_nat n + i64 arg) in
              check ((blen b <? arg) || (blen b <? end_) || (end_ <? Z.of_nat n)) errCBORTruncated;;
              let payload := slice n (Z.to_nat end_) b in
              Ok (if major =? 2 then VBytes payload else VText payload, Z.to_nat end_)
            else if major =? 4 then
              check (blen b - Z.of_nat n <? arg) errCBORTruncated;;
              '(out, off) ← decode_array (cborDecode levels) (Z.to_nat arg) b n;
              Ok (VArray out, off)
            else if major =? 5 then
              check (blen b - Z.of_nat n <? arg) errCBORTruncated;;
              '(es, off) ← decode_map (cborDecode levels) (Z.to_nat arg) b None n;
              Ok (VMap es, off)
            else Err errCBORUnsupported
      end
  end.

Definition cborDecodeTop (b : bytes) : result error value :=
  '(v, n) ← cborDecode cborMaxNestingDepth b;
  check (negb (Z.of_nat n =? blen b)) errCBORTrailing;;
  Ok v.

Example cbor_map_example :
  cborEncode (VGoMap [(2, VBytes (str "ab")); (1, VUint 300)]) = hex "a20119012c02426162" /\
  cborDecodeTop (hex "a20119012c02426162")
  = Ok (VMap [([x01], VUint 1, VUint 300); ([x02], VUint 2, VBytes (str "ab"))]) /\
  cborDecodeTop (hex "a202426162" ++ hex "01190012") = Err errCBORMapOrder.
Proof. by vm_compute. Qed.

(** ** Headers *)

Lemma head_octet m a :
  0 <= m < 8 -> 0 <= a < 32 ->
  Z.shiftr (b2z (z2b (Z.lor (Z.shiftl m 5) a))) 5 = m /\
  Z.land (b2z (z2b (Z.lor (Z.shiftl m 5) a))) 0x1f = a.
Proof.
  intros Hm Ha.
  assert (forallb (fun m => forallb (fun a =>
    let x := b2z (z2b (Z.lor (Z.shiftl (Z.of_nat m) 5) (Z.of_nat a))) in
    (Z.shiftr x 5 =? Z.of_nat m) && (Z.land x 0x1f =? Z.of_nat a)) (seq 0 32)) (seq 0 8) = true) as H
    by (by vm_compute).
  rewrite forallb_forall in H. specialize (H (Z.to_nat m)). rewrite in_seq in H.
  specialize (H ltac:(lia)). rewrite forallb_forall in H. specialize (H (Z.to_nat a)).
  rewrite in_seq in H. specialize (H ltac:(lia)). rewrite !Z2Nat.id in H by lia. cbv zeta in H. by bprop.
Qed.

Lemma octet_head x :
  z2b (Z.lor (Z.shiftl (Z.shiftr (b2z x) 5) 5) (Z.land (b2z x) 0x1f)) = x /\
  0 <= Z.shiftr (b2z x) 5 < 8 /\ 0 <= Z.land (b2z x) 0x1f < 32.
Proof. destruct x; vm_compute; split_and!; first [reflexivity | discriminate]. Qed.

(** The argument classes: additional information, octets that follow, and the
    least value that needs them. *)
Definition arg_class (ai : Z) (k : nat) (floor : Z) : Prop :=
  (ai = 24 /\ k = 1%nat /\ floor = 24) \/ (ai = 25 /\ k = 2%nat /\ floor = 2 ^ 8) \/
  (ai = 26 /\ k = 4%nat /\ floor = 2 ^ 16) \/ (ai = 27 /\ k = 8%nat /\ floor = 2 ^ 32).

Lemma encodeHead_cases m arg :
  0 <= arg < 2 ^ 64 ->
  (arg < 24 /\ encodeHead m arg = [z2b (Z.lor (Z.shiftl m 5) arg)]) \/
  exists ai k floor, arg_class ai k floor /\ floor <= arg < 256 ^ Z.of_nat k /\
    encodeHead m arg = z2b (Z.lor (Z.shiftl m 5) ai) :: be_put k arg.
Proof.
  intros H. unfold encodeHead, arg_class.
  change (Z.shiftl 1 8) with (2 ^ 8). change (Z.shiftl 1 16) with (2 ^ 16).
  change (Z.shiftl 1 32) with (2 ^ 32).
  destruct (Z.ltb_spec arg 24); [by left|]. right.
  destruct (Z.ltb_spec arg (2 ^ 8)); [exists 24, 1%nat, 24; split_and!; [tauto|lia|lia|done]|].
  destruct (Z.ltb_spec arg (2 ^ 16)); [exists 25, 2%nat, (2 ^ 8); split_and!; [tauto|lia|lia|done]|].
  destruct (Z.ltb_spec arg (2 ^ 32)); [exists 26, 4%nat, (2 ^ 16); split_and!; [tauto|lia|lia|done]|].
  exists 27, 8%nat, (2 ^ 32). split_and!; [tauto|lia|lia|done].
Qed.

Lemma decodeArg_wide ai k floor b :
  arg_class ai k floor ->
  decodeArg ai b =
    (check (blen b <? 1 + Z.of_nat k) errCBORTruncated;;
     check (be_get (slice 1 (1 + k) b) <? floor) errCBORNotShortest;;
     Ok (be_get (slice 1 (1 + k) b), (1 + k)%nat)).
Proof. intros [(-> & -> & ->)|[(-> & -> & ->)|[(-> & -> & ->)|(-> & -> & ->)]]]; done. Qed.

(** Reading a header back. *)
Lemma decode_head m arg rest :
  0 <= m < 8 -> 0 <= arg < 2 ^ 64 ->
  exists x tl, encodeHead m arg ++ rest = x :: tl /\ Z.shiftr (b2z x) 5 = m /\
    decodeArg (Z.land (b2z x) 0x1f) (encodeHead m arg ++ rest) = Ok (arg, length (encodeHead m arg)).
Proof.
  intros Hm Harg.
  destruct (encodeHead_cases m arg Harg) as [[Hs ->]|(ai & k & floor & Hc & Hf & ->)].
  - destruct (head_octet m arg) as [H1 H2]; [lia|lia|]. eexists _, _. split_and!; [done|done|].
    rewrite H2. unfold decodeArg. by rewrite (proj2 (Z.ltb_lt _ _)).
  - destruct (head_octet m ai) as [H1 H2];
      [lia|destruct Hc as [(-> & _)|[(-> & _)|[(-> & _)|(-> & _)]]]; lia|].
    eexists _, _. split_and!; [done|done|]. rewrite H2, (decodeArg_wide _ k floor) by done.
    assert (slice 1 (1 + k) ((z2b (Z.lor (m ≪ 5) ai) :: be_put k arg) ++ rest) = be_put k arg) as ->.
    { unfold slice. cbn [app drop]. replace (1 + k - 1)%nat with k by lia.
      rewrite drop_0. apply take_app_length'. by rewrite length_be_put. }
    rewrite be_get_put_small by lia. cbn [app length]. rewrite length_be_put, blen_cons, blen_app, blen_be_put.
    rewrite (proj2 (Z.ltb_ge arg floor)) by lia.
    by rewrite (proj2 (Z.ltb_ge _ _)) by (pose proof (blen_nonneg rest); lia).
Qed.

(** The header read is the header written. *)
Lemma head_decode x tl arg n :
  decodeArg (Z.land (b2z x) 0x1f) (x :: tl) = Ok (arg, n) ->
  0 <= arg < 2 ^ 64 /\ (1 <= n <= length (x :: tl))%nat /\
  take n (x :: tl) = encodeHead (Z.shiftr (b2z x) 5) arg.
Proof.
  destruct (octet_head x) as (Hx & Hm & Ha). set (ai := Z.land (b2z x) 0x1f) in *.
  set (m := Z.shiftr (b2z x) 5) in *. intros Hd.
  destruct (Z.ltb_spec ai 24) as [Hlt|Hge].
  { unfold decodeArg in Hd. rewrite (proj2 (Z.ltb_lt ai 24)) in Hd by done. injection Hd as <- <-.
    split_and!; [lia|lia|lia|cbn; lia|]. unfold encodeHead. rewrite (proj2 (Z.ltb_lt ai 24)) by done.
    cbn. by rewrite Hx. }
  assert (exists k floor, arg_class ai k floor /\ 0 <= floor) as (k & floor & Hc & Hf0).
  { unfold arg_class. unfold decodeArg in Hd. rewrite (proj2 (Z.ltb_ge ai 24)) in Hd by done.
    repeat match type of Hd with
    | (if ?c then _ else _) = _ => destruct c eqn:?; bprop end; try done.
    - exists 1%nat, 24. split; [tauto|lia].
    - exists 2%nat, (2 ^ 8). split; [tauto|lia].
    - exists 4%nat, (2 ^ 16). split; [tauto|lia].
    - exists 8%nat, (2 ^ 32). split; [tauto|lia]. }
  rewrite (decodeArg_wide _ k floor) in Hd by done. inv_res Hd. rewrite blen_cons in *.
  unfold blen in *. assert (length (slice 1 (1 + k) (x :: tl)) = k) as Hk
    by (rewrite length_slice by (cbn; lia); lia).
  pose proof (be_get_fixed _ _ Hk) as Hr. set (v := be_get _) in *.
  assert (take (1 + k) (x :: tl) = x :: be_put k v) as Ht.
  { unfold v. rewrite be_put_get_eq by done. unfold slice. cbn. by rewrite drop_0, Nat.sub_0_r. }
  split_and!; try (destruct Hc as [(_ & -> & _)|[(_ & -> & _)|[(_ & -> & _)|(_ & -> & _)]]]; lia);
    [cbn; lia|].
  subst arg n. change (S k) with (1 + k)%nat. rewrite Ht. unfold encodeHead. change (Z.shiftl 1 8) with (2 ^ 8). change (Z.shiftl 1 16) with (2 ^ 16).
  change (Z.shiftl 1 32) with (2 ^ 32). clearbody v ai m.
  destruct Hc as [(-> & -> & ->)|[(-> & -> & ->)|[(-> & -> & ->)|(-> & -> & ->)]]];
    rewrite Hx; change (256 ^ Z.of_nat ?k) with (2 ^ (8 * Z.of_nat k)) in Hr;
    repeat (rewrite (proj2 (Z.ltb_ge v _)) by lia); repeat (rewrite (proj2 (Z.ltb_lt v _)) by lia);
    done.
Qed.

#[global] Arguments encodeHead : simpl never.
#[global] Arguments decodeArg : simpl never.

(** ** Canonical values *)

Definition key_lt (a b : bytes) : Prop := byteLess a b = true.

(** The values decoding can produce at [d] levels: integers within their width,
    negative integers only in [VInt], maps with strictly ascending encoded keys,
    and nesting at most [d]. *)
Fixpoint cbor_ok (d : nat) (v : value) : Prop :=
  match d with
  | O => False
  | S d =>
      match v with
      | VUint n => is_u64 n
      | VInt n => - 2 ^ 63 <= n < 0
      | VBytes _ | VText _ | VBool _ | VNil => True
      | VArray l => Forall (cbor_ok d) l
      | VMap es =>
          Forall (fun e => cbor_ok d (ekey e) /\ cbor_ok d (eval e) /\
                           keyEnc e = cborEncode (ekey e)) es /\
          Sorted key_lt (map keyEnc es)
      | VGoMap _ => False
      end
  end.

Lemma length_encodeHead m arg : (1 <= length (encodeHead m arg))%nat.
Proof.
  unfold encodeHead. repeat (destruct (_ <? _); [cbn; lia|]). cbn; lia.
Qed.

Lemma length_cborEncode_pos v : (1 <= length (cborEncode v))%nat.
Proof.
  destruct v; cbn [cborEncode]; rewrite ?length_app; try (destruct (_ <? _));
    try (pose proof (length_encodeHead 0 n)); try (pose proof (length_encodeHead 1 (-1 - n)));
    try match goal with |- (_ <= length (encodeHead ?m ?a) + _)%nat =>
      pose proof (length_encodeHead m a) end; try lia.
  - by destruct b; cbn; lia.
  - cbn; lia.
Qed.

Lemma length_concat_ge (l : list bytes) :
  Forall (fun x => (1 <= length x)%nat) l -> (length l <= length (concat l))%nat.
Proof. induction 1; cbn; rewrite ?length_app; lia. Qed.

(** An entry on the wire. *)
Definition entry_octets (e : cborEntry) : bytes := keyEnc e ++ cborEncode (eval e).

Lemma cborEncode_map es :
  cborEncode (VMap es) = encodeHead 5 (blen es) ++ concat (map entry_octets es).
Proof.
  cbn [cborEncode]. do 2 f_equal. apply map_ext. by intros [[ke k] x].
Qed.

(** ** Decoding what was encoded *)

Section complete.
Context (decode : bytes -> result error (value * nat)) (ok : value -> Prop).
Context (Hdec : forall v rest, ok v -> blen (cborEncode v ++ rest) < 2 ^ 63 ->
  decode (cborEncode v ++ rest) = Ok (v, length (cborEncode v))).

Lemma decode_array_encoded l pre rest :
  Forall ok l -> blen (pre ++ concat (map cborEncode l) ++ rest) < 2 ^ 63 ->
  decode_array decode (length l) (pre ++ concat (map cborEncode l) ++ rest) (length pre)
  = Ok (l, (length pre + length (concat (map cborEncode l)))%nat).
Proof.
  intros Hl. revert pre. induction Hl as [|v l Hv Hl IH]; intros pre Hlen.
  - cbn. by rewrite Nat.add_0_r.
  - cbn [map concat length decode_array] in *. rewrite drop_app_length, <- app_assoc.
    rewrite Hdec; [|done|rewrite <- app_assoc, blen_app in Hlen; pose proof (blen_nonneg pre); lia].
    cbn [mbind result_bind]. specialize (IH (pre ++ cborEncode v)).
    rewrite length_app, <- !app_assoc in IH. rewrite IH by (by rewrite <- app_assoc in Hlen).
    cbn. rewrite length_app. do 2 f_equal. lia.
Qed.

Lemma decode_map_encoded es pre rest prev :
  Forall (fun e => ok (ekey e) /\ ok (eval e) /\ keyEnc e = cborEncode (ekey e)) es ->
  Sorted key_lt (map keyEnc es) ->
  match prev with Some p => HdRel key_lt p (map keyEnc es) | None => True end ->
  blen (pre ++ concat (map entry_octets es) ++ rest) < 2 ^ 63 ->
  decode_map decode (length es) (pre ++ concat (map entry_octets es) ++ rest) prev (length pre)
  = Ok (es, (length pre + length (concat (map entry_octets es)))%nat).
Proof.
  intros Hes. revert pre prev.
  induction Hes as [|[[ke k] x] es (Hk & Hx & Hke) Hes IH]; intros pre prev Hs Hp Hlen.
  - cbn. by rewrite Nat.add_0_r.
  - unfold keyEnc, ekey, eval in Hk, Hx, Hke. cbn [fst snd] in Hk, Hx, Hke. subst ke.
    apply Sorted_inv in Hs as [Hs Hhd].
    set (r := concat (map entry_octets es)) in *.
    assert (concat (map entry_octets ((cborEncode k, k, x) :: es)) = cborEncode k ++ cborEncode x ++ r)
      as Hc by (cbn; unfold entry_octets; cbn; by rewrite <- app_assoc).
    rewrite Hc in Hlen |- *. clear Hc. cbn [length decode_map]. rewrite drop_app_length, <- app_assoc.
    assert (forall a b c : bytes, blen (a ++ b ++ c) < 2 ^ 63 -> blen (b ++ c) < 2 ^ 63) as Hsub
      by (intros a b c; rewrite !blen_app; pose proof (blen_nonneg a); lia).
    rewrite Hdec by (done || (rewrite <- app_assoc in Hlen; by apply Hsub in Hlen)).
    cbn [mbind result_bind]. rewrite slice_take, drop_app_length, take_app_length.
    replace (match prev with Some p => negb (byteLess p (cborEncode k)) | None => false end) with false
      by (destruct prev; [|done]; apply HdRel_inv in Hp; unfold key_lt, keyEnc in Hp; cbn in Hp; by rewrite Hp).
    cbn [check mbind result_bind].
    replace (pre ++ cborEncode k ++ (cborEncode x ++ r) ++ rest)
      with ((pre ++ cborEncode k) ++ cborEncode x ++ r ++ rest) in *
      by (by rewrite <- !app_assoc).
    rewrite <- !app_assoc in Hlen. rewrite (app_assoc pre) in Hlen.
    rewrite drop_app_length' by (by rewrite length_app).
    rewrite Hdec by (done || by apply Hsub in Hlen). cbn [mbind result_bind].
    specialize (IH ((pre ++ cborEncode k) ++ cborEncode x) (Some (cborEncode k)) Hs Hhd).
    rewrite <- (app_assoc (pre ++ _)) in IH. specialize (IH Hlen).
    rewrite !length_app in IH. rewrite IH. cbn [mbind result_bind]. rewrite !length_app.
    do 2 f_equal. lia.
Qed.
End complete.

(** A byte or text string. *)
Lemma decode_string d m b rest mk :
  m = 2 /\ mk = VBytes \/ m = 3 /\ mk = VText ->
  blen ((encodeHead m (blen b) ++ b) ++ rest) < 2 ^ 63 ->
  cborDecode (S d) ((encodeHead m (blen b) ++ b) ++ rest)
  = Ok (mk b, length (encodeHead m (blen b) ++ b)).
Proof.
  intros Hm Hlen. rewrite !blen_app in Hlen. set (h := encodeHead m (blen b)) in *.
  pose proof (blen_nonneg h). pose proof (blen_nonneg b). pose proof (blen_nonneg rest).
  assert (0 <= m < 7) as Hm7 by lia.
  destruct (decode_head m (blen b) (b ++ rest)) as (x & tl & Heq & Hmaj & Ha); [lia|lia|].
  fold h in Heq, Ha. rewrite <- app_assoc. rewrite Heq in *. cbn [cborDecode]. rewrite Hmaj, Ha.
  cbn [mbind result_bind]. rewrite (proj2 (Z.eqb_neq m 7)), (proj2 (Z.eqb_neq m 0)),
    (proj2 (Z.eqb_neq m 1)) by lia.
  replace ((m =? 2) || (m =? 3)) with true by (destruct Hm as [[-> _]|[-> _]]; done).
  assert (blen (x :: tl) = blen h + blen b + blen rest) as Hb
    by (rewrite <- Heq, !blen_app; lia).
  change (blen h) with (Z.of_nat (length h)) in *.
  rewrite (i64_id (blen b)) by lia. rewrite i64_id by lia.
  rewrite (proj2 (Z.ltb_ge (blen (x :: tl)) (blen b))) by lia.
  rewrite (proj2 (Z.ltb_ge (blen (x :: tl)) _)) by lia. rewrite (proj2 (Z.ltb_ge _ _)) by lia.
  cbn [check mbind result_bind orb]. unfold blen.
  replace (Z.to_nat (Z.of_nat (length h) + Z.of_nat (length b))) with (length h + length b)%nat by lia.
  rewrite slice_take, <- Heq, drop_app_length, take_app_length, length_app.
  destruct Hm as [[-> ->]|[-> ->]]; done.
Qed.

Lemma decode_encoded d v rest :
  cbor_ok d v -> blen (cborEncode v ++ rest) < 2 ^ 63 ->
  cborDecode d (cborEncode v ++ rest) = Ok (v, length (cborEncode v)).
Proof.
  revert v rest. induction d as [|d IH]; intros v rest Hv Hlen; [done|].
  assert (forall m arg p, 0 <= m < 7 -> 0 <= arg < 2 ^ 64 ->
    exists x tl, (encodeHead m arg ++ p) ++ rest = x :: tl /\ Z.shiftr (b2z x) 5 = m /\
    decodeArg (Z.land (b2z x) 0x1f) (x :: tl) = Ok (arg, length (encodeHead m arg))) as Hhead.
  { intros m arg p Hm Harg. rewrite <- app_assoc.
    destruct (decode_head m arg (p ++ rest)) as (x & tl & Heq & Hmaj & Ha); [lia|done|].
    exists x, tl. rewrite <- Heq. done. }
  pose proof (blen_nonneg rest) as Hr0.
  destruct v as [n|n|b|b|l|es|m|b|]; cbn [cbor_ok cborEncode] in *.
  - destruct (Hhead 0 n []) as (x & tl & Heq & Hmaj & Ha); [lia|done|].
    rewrite app_nil_r in Heq. rewrite Heq. cbn [cborDecode]. by rewrite Hmaj, Ha.
  - rewrite (proj2 (Z.ltb_lt _ _)) by lia.
    destruct (Hhead 1 (-1 - n) []) as (x & tl & Heq & Hmaj & Ha); [lia|lia|].
    rewrite app_nil_r in Heq. rewrite Heq. cbn [cborDecode]. rewrite Hmaj, Ha. cbn.
    rewrite (proj2 (Z.ltb_ge _ _)) by lia. cbn. do 3 f_equal.
    rewrite (i64_id (-1 - n)), i64_id by lia. lia.
  - exact (decode_string d 2 b rest VBytes ltac:(by left) Hlen).
  - exact (decode_string d 3 b rest VText ltac:(by right) Hlen).
  - assert (length l <= length (concat (map cborEncode l)))%nat as Hll.
    { rewrite <- (length_map cborEncode l). apply length_concat_ge, Forall_map, Forall_true.
      intros. apply length_cborEncode_pos. }
    set (body := concat (map cborEncode l)) in *.
    destruct (Hhead 4 (blen l) body) as (x & tl & Heq & Hmaj & Ha);
      [lia|rewrite !blen_app in Hlen; unfold blen in *; lia|].
    set (h := encodeHead 4 (blen l)) in *.
    assert (blen (x :: tl) = blen h + blen body + blen rest) as Hb
      by (rewrite <- Heq, !blen_app; lia).
    rewrite Heq. cbn [cborDecode]. rewrite Hmaj, Ha. cbn [mbind result_bind].
    change (4 =? 7) with false. cbn [Z.eqb Pos.eqb orb].
    rewrite (proj2 (Z.ltb_ge _ _)) by (unfold blen in *; lia). cbn [check mbind result_bind].
    unfold blen. rewrite Nat2Z.id, <- Heq, <- app_assoc.
    rewrite (decode_array_encoded _ (cbor_ok d) IH) by (done || by rewrite app_assoc).
    cbn [mbind result_bind]. by rewrite length_app.
  - match goal with |- cborDecode _ (?e ++ _) = _ => change e with (cborEncode (VMap es)) in * end.
    rewrite cborEncode_map in Hlen |- *. destruct Hv as [Hes Hs].
    assert (length es <= length (concat (map entry_octets es)))%nat as Hll.
    { rewrite <- (length_map entry_octets es). apply length_concat_ge, Forall_map, Forall_true.
      intros e. unfold entry_octets. rewrite length_app. pose proof (length_cborEncode_pos (eval e)). lia. }
    set (body := concat (map entry_octets es)) in *.
    destruct (Hhead 5 (blen es) body) as (x & tl & Heq & Hmaj & Ha);
      [lia|rewrite !blen_app in Hlen; unfold blen in *; lia|].
    set (h := encodeHead 5 (blen es)) in *.
    assert (blen (x :: tl) = blen h + blen body + blen rest) as Hb
      by (rewrite <- Heq, !blen_app; lia).
    rewrite Heq. cbn [cborDecode]. rewrite Hmaj, Ha. cbn [mbind result_bind].
    change (5 =? 7) with false. cbn [Z.eqb Pos.eqb orb].
    rewrite (proj2 (Z.ltb_ge _ _)) by (unfold blen in *; lia). cbn [check mbind result_bind].
    unfold blen. rewrite Nat2Z.id, <- Heq, <- app_assoc.
    rewrite (decode_map_encoded _ (cbor_ok d) IH) by (done || by rewrite app_assoc).
    cbn [mbind result_bind]. by rewrite length_app.
  - done.
  - by destruct b.
  - done.
Qed.

(** ** Only encodings decode *)

Section sound.
Context (decode : bytes -> result error (value * nat)) (ok : value -> Prop).
Context (Hdec : forall b v n, blen b < 2 ^ 63 -> decode b = Ok (v, n) ->
  ok v /\ (1 <= n <= length b)%nat /\ take n b = cborEncode v).

(** One item at offset [off]. *)
Lemma decode_at b off v n :
  blen b < 2 ^ 63 -> (off <= length b)%nat -> decode (drop off b) = Ok (v, n) ->
  ok v /\ (off + n <= length b)%nat /\ slice off (off + n) b = cborEncode v.
Proof.
  intros Hb Hoff Hd. apply Hdec in Hd as (Hv & Hn & Ht);
    [|unfold blen in *; rewrite length_drop; lia].
  rewrite length_drop in Hn. rewrite slice_take. split_and!; [done|lia|done].
Qed.

Lemma decode_array_sound count b off l off' :
  blen b < 2 ^ 63 -> (off <= length b)%nat -> decode_array decode count b off = Ok (l, off') ->
  length l = count /\ Forall ok l /\ (off <= off' <= length b)%nat /\
  slice off off' b = concat (map cborEncode l).
Proof.
  intros Hb. revert off l. induction count as [|count IH]; intros off l Hoff; cbn [decode_array].
  - intros [= <- <-]. split_and!; [done|done|lia|lia|]. unfold slice. by rewrite Nat.sub_diag.
  - intros H. apply bind_Ok in H as ([v n] & Hv & H). apply bind_Ok in H as ([l' o] & Hl & H).
    injection H as <- <-. apply decode_at in Hv as (Hok & Hle & Hs); [|done..].
    apply IH in Hl as (<- & Hl & Ho & Hs'); [|done].
    split_and!; [done|by constructor|lia|lia|].
    rewrite (slice_split off (off + n) o) by lia. cbn. by rewrite Hs, Hs'.
Qed.

Lemma decode_map_sound count b prev off es off' :
  blen b < 2 ^ 63 -> (off <= length b)%nat ->
  decode_map decode count b prev off = Ok (es, off') ->
  length es = count /\
  Forall (fun e => ok (ekey e) /\ ok (eval e) /\ keyEnc e = cborEncode (ekey e)) es /\
  Sorted key_lt (map keyEnc es) /\
  match prev with Some p => HdRel key_lt p (map keyEnc es) | None => True end /\
  (off <= off' <= length b)%nat /\ slice off off' b = concat (map entry_octets es).
Proof.
  intros Hb. revert prev off es. induction count as [|count IH]; intros prev off es Hoff; cbn [decode_map].
  - intros [= <- <-]. split_and!; try done; [by destruct prev|]. unfold slice. by rewrite Nat.sub_diag.
  - intros H. apply bind_Ok in H as ([k kn] & Hk & H). cbv zeta in H.
    apply bind_Ok in H as (? & Hc & H). apply bind_Ok in H as ([xv vn] & Hx & H).
    apply bind_Ok in H as ([es' o] & He & H). injection H as <- <-.
    apply decode_at in Hk as (Hok & Hle & Hs); [|done..].
    apply decode_at in Hx as (Hokx & Hlex & Hsx); [|done|lia].
    apply IH in He as (<- & Hes & Hsort & Hhd & Ho & Hs'); [|lia].
    split_and!; [done| | | |lia|lia|].
    + constructor; [|done]. unfold ekey, eval, keyEnc. cbn. by rewrite Hs.
    + cbn. constructor; [done|]. exact Hhd.
    + destruct prev as [p|]; [|done]. constructor. apply check_Ok, negb_false_iff in Hc. exact Hc.
    + rewrite (slice_split off (off + kn) o), (slice_split (off + kn) (off + kn + vn) o) by lia.
      cbn. unfold entry_octets at 1. cbn. by rewrite Hsx, Hs', app_assoc.
Qed.
End sound.

Lemma take_slice {A} k (b : list A) : take k b = slice 0 k b.
Proof. unfold slice. by rewrite Nat.sub_0_r. Qed.

Lemma decoded d b v n :
  blen b < 2 ^ 63 -> cborDecode d b = Ok (v, n) ->
  cbor_ok d v /\ (1 <= n <= length b)%nat /\ take n b = cborEncode v.
Proof.
  revert b v n. induction d as [|d IH]; intros b v n Hb Hd; [done|].
  destruct b as [|x tl]; [done|]. cbn [cborDecode] in Hd.
  destruct (octet_head x) as (Hx & Hmaj & Hai).
  set (m := Z.shiftr (b2z x) 5) in *. set (ai := Z.land (b2z x) 0x1f) in *.
  destruct (Z.eqb_spec m 7) as [H7|H7].
  { rewrite H7 in Hx. assert (take 1 (x :: tl) = [x]) as Ht by (cbn; by rewrite take_0).
    destruct (Z.eqb_spec ai 20) as [Hc|_]; [|destruct (Z.eqb_spec ai 21) as [Hc|_];
      [|destruct (Z.eqb_spec ai 22) as [Hc|_]; [|done]]];
    injection Hd as <- <-; rewrite Hc in Hx; (split_and!; [done|cbn; lia|cbn; lia|]);
    rewrite Ht, <- Hx; by vm_compute. }
  apply bind_Ok in Hd as ([arg hn] & Ha & Hd).
  unfold ai in Ha. apply head_decode in Ha as (Harg & Hhn & Hhead). fold m in Hhead.
  destruct (Z.eqb_spec m 0) as [H0|H0].
  { injection Hd as <- <-. cbn [cbor_ok cborEncode]. by rewrite <- H0. }
  destruct (Z.eqb_spec m 1) as [H1|H1].
  { apply bind_Ok in Hd as (? & Hc & Hd). apply check_Ok, Z.ltb_ge in Hc. injection Hd as <- <-.
    rewrite (i64_id arg), i64_id by lia. cbn [cbor_ok cborEncode].
    rewrite (proj2 (Z.ltb_lt _ _)) by lia. split_and!; [lia|lia|lia|lia|].
    rewrite Hhead, H1. f_equal. lia. }
  destruct ((m =? 2) || (m =? 3)) eqn:H23.
  { cbv zeta in Hd. apply bind_Ok in Hd as (? & Hc & Hd). apply check_Ok in Hc. bprop.
    rewrite (i64_id arg) in * by lia. 
    assert (i64 (Z.of_nat hn + arg) = Z.of_nat hn + arg) as Hend.
    { unfold i64 in *. unfold blen in *.
      destruct (decide (Z.of_nat hn + arg < 2 ^ 63)); [rewrite Z.mod_small; lia|].
      exfalso. rewrite <- (Z_mod_plus_full _ (-1)) in *. rewrite Z.mod_small in * by lia. lia. }
    rewrite Hend in *. injection Hd as Hv Hn.
    replace (Z.to_nat (Z.of_nat hn + arg)) with (hn + Z.to_nat arg)%nat in * by lia.
    rewrite slice_take in Hv. set (p := take (Z.to_nat arg) (drop hn (x :: tl))) in *.
    assert (blen p = arg) as Hp by (unfold p, blen in *; rewrite length_take, length_drop; lia).
    assert (take n (x :: tl) = encodeHead m arg ++ p) as Ht.
    { subst n. unfold p. rewrite <- Hhead. rewrite <- (take_drop hn (x :: tl)) at 1.
      rewrite take_app, length_take, Nat.min_l by lia. rewrite take_ge by (rewrite length_take; lia).
      do 2 f_equal. lia. }
    assert (1 <= n <= length (x :: tl))%nat as Hnb by (subst n; unfold blen in *; lia).
    rewrite Ht. apply orb_true_iff in H23 as [E%Z.eqb_eq|E%Z.eqb_eq].
    - rewrite E in Hv |- *. cbn in Hv. subst v. cbn [cbor_ok cborEncode]. by rewrite Hp.
    - rewrite E in Hv |- *. cbn in Hv. subst v. cbn [cbor_ok cborEncode]. by rewrite Hp. }
  assert (forall off l, (hn <= off)%nat -> slice hn off (x :: tl) = l ->
    take off (x :: tl) = encodeHead m arg ++ l) as Hbody.
  { intros off l Hle <-. rewrite <- Hhead. rewrite !take_slice.
    by apply slice_split; lia. }
  destruct (Z.eqb_spec m 4) as [H4|H4].
  { apply bind_Ok in Hd as (? & Hc & Hd). apply check_Ok, Z.ltb_ge in Hc.
    apply bind_Ok in Hd as ([l off] & Hl & Hd). injection Hd as <- <-.
    apply (decode_array_sound _ (cbor_ok d)) in Hl as (Hll & Hok & Ho & Hs); [|exact IH|done|lia].
    cbn [cbor_ok cborEncode]. split_and!; [done|lia|lia|].
    rewrite (Hbody off _ ltac:(lia) Hs), H4. do 2 f_equal. unfold blen. lia. }
  destruct (Z.eqb_spec m 5) as [H5|H5]; [|done].
  apply bind_Ok in Hd as (? & Hc & Hd). apply check_Ok, Z.ltb_ge in Hc.
  apply bind_Ok in Hd as ([es off] & Hl & Hd). injection Hd as <- <-.
  apply (decode_map_sound _ (cbor_ok d)) in Hl as (Hll & Hok & Hsort & _ & Ho & Hs); [|exact IH|done|lia].
  rewrite cborEncode_map. cbn [cbor_ok]. split_and!; [done|done|lia|lia|].
  rewrite (Hbody off _ ltac:(lia) Hs), H5. do 2 f_equal. unfold blen. lia.
Qed.

Lemma decode_top_sound b v :
  blen b < 2 ^ 63 -> cborDecodeTop b = Ok v -> cbor_ok cborMaxNestingDepth v /\ b = cborEncode v.
Proof.
  unfold cborDecodeTop. rewrite bind_Ok. intros Hb ([w n] & Hd & H). inv_res H.
  apply decoded in Hd as (Hok & Hn & Ht); [|done].
  split; [done|]. rewrite <- Ht. symmetry. apply take_ge. unfold blen in *. lia.
Qed.

Lemma decode_top_encoded v :
  cbor_ok cborMaxNestingDepth v -> blen (cborEncode v) < 2 ^ 63 -> cborDecodeTop (cborEncode v) = Ok v.
Proof.
  intros Hok Hb. unfold cborDecodeTop. rewrite bind_Ok. exists (v, length (cborEncode v)).
  rewrite <- (app_nil_r (cborEncode v)) at 1. rewrite decode_encoded by (done || by rewrite app_nil_r).
  split; [done|]. unfold blen. by rewrite Z.eqb_refl.
Qed.

(** C12: the canonical codec is exact: an octet string decodes to a value
    exactly when the value is canonical with nesting at most eight and the string
    is its encoding.  So every canonical value has one octet string, and
    non-shortest lengths, indefinite items, floats, tags, unsorted or repeated map
    keys, deeper nesting and trailing octets are all refused. *)
Theorem cbor_exact (b : bytes) (v : value) (Hb : blen b < 2 ^ 63) :
  cborDecodeTop b = Ok v <-> cbor_ok cborMaxNestingDepth v /\ b = cborEncode v.
Proof.
  split; [by apply decode_top_sound|]. intros [Hok ->]. by apply decode_top_encoded.
Qed.

Lemma cbor_exact_witness :
  cborDecodeTop (hex "a20119012c02426162")
  = Ok (VMap [([x01], VUint 1, VUint 300); ([x02], VUint 2, VBytes (str "ab"))]).
Proof.
  apply cbor_exact; [by vm_compute|]. split; [|by vm_compute].
  split; [|repeat constructor].
  repeat apply Forall_cons_2; [| |apply Forall_nil_2];
    (split; [|split; [|by vm_compute]]); cbn; unfold is_u64; lia.
Defined.

(** ** The bytewise key order *)

Lemma byteLess_irrefl a : byteLess a a = false.
Proof. induction a as [|x a IH]; [done|]. cbn. by rewrite Z.eqb_refl. Qed.

Lemma byteLess_trans a b c : byteLess a b = true -> byteLess b c = true -> byteLess a c = true.
Proof.
  revert b c. induction a as [|x a IH]; intros [|y b] [|z c]; cbn; try done.
  destruct (Z.eqb_spec (b2z x) (b2z y)), (Z.eqb_spec (b2z y) (b2z z)), (Z.eqb_spec (b2z x) (b2z z));
    rewrite ?Z.ltb_lt; intros; try lia; eauto.
Qed.

Lemma byteLess_total a b : byteLess a b = false -> a <> b -> byteLess b a = true.
Proof.
  revert b. induction a as [|x a IH]; intros [|y b]; cbn; try done.
  rewrite (Z.eqb_sym (b2z y)). destruct (Z.eqb_spec (b2z x) (b2z y)) as [E|E].
  - apply b2z_inj in E as ->. intros H Hne. apply IH; congruence.
  - rewrite Z.ltb_ge, Z.ltb_lt. lia.
Qed.

Lemma byteEqual_eq a b : byteEqual a b = true <-> a = b.
Proof.
  revert b. induction a as [|x a IH]; intros [|y b]; cbn; try done.
  rewrite andb_true_iff, Z.eqb_eq, IH. split; [intros [E%b2z_inj ->]; congruence|].
  intros [= -> ->]. done.
Qed.

(** ** Sorting entries *)

Section sorting.
Context {A : Type} (key : A -> bytes).

Definition entry_lt (a b : A) : Prop := byteLess (key a) (key b) = true.

#[local] Instance entry_lt_trans : Transitive entry_lt.
Proof. intros a b c. apply byteLess_trans. Qed.

#[local] Instance entry_lt_antisymm : AntiSymm (=) entry_lt.
Proof.
  intros a b H1 H2. pose proof (byteLess_trans _ _ _ H1 H2) as H. by rewrite byteLess_irrefl in H.
Qed.

Lemma insert_entry_perm e l : insert_entry key e l ≡ₚ e :: l.
Proof.
  induction l as [|x l IH]; [done|]. cbn. destruct (byteLess _ _); [done|].
  rewrite IH. apply Permutation_swap.
Qed.

Lemma sort_entries_perm l : sort_entries key l ≡ₚ l.
Proof. induction l as [|e l IH]; [done|]. cbn. by rewrite insert_entry_perm, IH. Qed.

Lemma insert_entry_hd x e l :
  HdRel entry_lt x l -> entry_lt x e -> HdRel entry_lt x (insert_entry key e l).
Proof. intros H He. destruct l; cbn; [by constructor|]. destruct (byteLess _ _); constructor; [done|].
  by inversion H. Qed.

Lemma insert_entry_sorted e l :
  Sorted entry_lt l -> key e ∉ map key l -> Sorted entry_lt (insert_entry key e l).
Proof.
  induction l as [|x l IH]; intros Hs Hn; [by repeat constructor|]. cbn.
  cbn in Hn. apply not_elem_of_cons in Hn as [Hne Hn]. destruct (byteLess (key e) (key x)) eqn:E.
  - constructor; [done|]. by constructor.
  - apply Sorted_inv in Hs as [Hs Hhd]. constructor; [by apply IH|].
    apply insert_entry_hd; [done|]. by apply byteLess_total.
Qed.

Lemma sort_entries_sorted l : NoDup (map key l) -> Sorted entry_lt (sort_entries key l).
Proof.
  induction l as [|e l IH]; cbn; [constructor|]. intros [Hn Hd]%NoDup_cons.
  apply insert_entry_sorted; [by apply IH|]. intros Hin. apply Hn.
  change (key e ∈ key <$> sort_entries key l) in Hin. by rewrite sort_entries_perm in Hin.
Qed.

(** Sorting forgets the order the entries came in. *)
Lemma sort_entries_unique l1 l2 :
  NoDup (map key l1) -> l1 ≡ₚ l2 -> sort_entries key l1 = sort_entries key l2.
Proof.
  intros Hn Hp. apply (Sorted_unique entry_lt).
  - by apply sort_entries_sorted.
  - apply sort_entries_sorted. change (NoDup (key <$> l2)). by rewrite <- Hp.
  - by rewrite !sort_entries_perm.
Qed.
End sorting.

Lemma sort_entries_map {A B} (k1 : A -> bytes) (k2 : B -> bytes) (g : A -> B) l :
  (forall a, k2 (g a) = k1 a) -> map g (sort_entries k1 l) = sort_entries k2 (map g l).
Proof.
  intros Hk. induction l as [|e l IH]; [done|].
  change (map g (insert_entry k1 e (sort_entries k1 l))
    = insert_entry k2 (g e) (sort_entries k2 (map g l))). rewrite <- IH.
  generalize (sort_entries k1 l). intros s. induction s as [|x s IHs]; [done|].
  cbn. rewrite !Hk. destruct (byteLess _ _); [done|]. cbn. by rewrite IHs.
Qed.

(** The Go-map case of [cborEncode] is [cborEncode(newCBORMapU(t))]. *)
Lemma encode_newCBORMapU m : cborEncode (VGoMap m) = cborEncode (VMap (newCBORMapU m)).
Proof.
  rewrite cborEncode_map. cbn [cborEncode]. unfold newCBORMapU.
  assert (forall l : list cborEntry, blen (sort_entries keyEnc l) = blen l) as ->.
  { intros l. unfold blen. by rewrite (sort_entries_perm keyEnc l). }
  f_equal; [unfold blen; by rewrite length_map|]. f_equal.
  set (l := map (fun e => (cborEncode (VUint e.1), VUint e.1, e.2)) m).
  transitivity (map (fun e : bytes * bytes => e.1 ++ e.2)
    (map (fun e : cborEntry => (keyEnc e, cborEncode (eval e))) (sort_entries keyEnc l))).
  - rewrite (sort_entries_map keyEnc fst) by done. do 2 f_equal. unfold l. rewrite map_map.
    apply map_ext. by intros [k x].
  - rewrite map_map. by apply map_ext.
Qed.

(** ** Canonical maps built from Go maps *)

Lemma encode_uint_inj k1 k2 :
  is_u64 k1 -> is_u64 k2 -> cborEncode (VUint k1) = cborEncode (VUint k2) -> k1 = k2.
Proof.
  intros H1 H2 Heq. destruct (decode_head 0 k1 []) as (x & tl & E1 & _ & D1); [lia|done|].
  destruct (decode_head 0 k2 []) as (y & tl2 & E2 & _ & D2); [lia|done|].
  cbn [cborEncode] in Heq. rewrite <- Heq in *. congruence.
Qed.

Definition go_entries (m : list (Z * value)) : list cborEntry :=
  map (fun e => (cborEncode (VUint e.1), VUint e.1, e.2)) m.

Lemma go_entries_keys_NoDup m :
  Forall (fun e => is_u64 e.1) m -> NoDup (map fst m) -> NoDup (map keyEnc (go_entries m)).
Proof.
  intros Hu Hn. unfold go_entries. rewrite map_map. induction Hu as [|e m He Hu IH]; [constructor|].
  cbn in *. apply NoDup_cons in Hn as [Hne Hn]. constructor; [|by apply IH].
  intros Hin. change (keyEnc (cborEncode (VUint e.1), VUint e.1, e.2)
    ∈ (fun x : Z * value => keyEnc (cborEncode (VUint x.1), VUint x.1, x.2)) <$> m) in Hin.
  apply list_elem_of_fmap in Hin as (e' & Heq & He'). apply Hne.
  unfold keyEnc in Heq. cbn [fst] in Heq. rewrite Forall_forall in Hu.
  apply encode_uint_inj in Heq as ->; [|done|by apply Hu].
  by apply (list_elem_of_fmap_2 fst) in He'.
Qed.

Lemma newCBORMapU_ok d m :
  Forall (fun e => is_u64 e.1 /\ cbor_ok (S d) e.2) m -> NoDup (map fst m) ->
  cbor_ok (S (S d)) (VMap (newCBORMapU m)).
Proof.
  intros Hm Hn. cbn [cbor_ok]. split.
  - unfold newCBORMapU. fold (go_entries m). rewrite sort_entries_perm. unfold go_entries.
    apply Forall_map. eapply Forall_impl; [exact Hm|]. intros [k x] [Hk Hx]. done.
  - unfold newCBORMapU. fold (go_entries m).
    assert (Sorted (entry_lt keyEnc) (sort_entries keyEnc (go_entries m))) as Hs.
    { apply sort_entries_sorted, go_entries_keys_NoDup; [|done].
      eapply Forall_impl; [exact Hm|]. by intros ? [? _]. }
    clear -Hs. induction Hs as [|e l Hs IH Hhd]; [constructor|]. cbn. constructor; [done|].
    destruct Hhd; cbn; by constructor.
Qed.

(** Looking a key up scans for the equal encoding. *)
Lemma cborMap_get_elem es k v :
  NoDup (map keyEnc es) -> (cborEncode (VUint k), VUint k, v) ∈ es -> cborMap_get es k = Some v.
Proof.
  induction es as [|e es IH]; intros Hn Hin; [by apply elem_of_nil in Hin|].
  cbn [map] in Hn. apply NoDup_cons in Hn as [Hne Hn]. cbn [cborMap_get].
  apply elem_of_cons in Hin as [<-|Hin].
  - by rewrite (proj2 (byteEqual_eq _ _)).
  - destruct (byteEqual _ _) eqn:E; [|by apply IH]. apply byteEqual_eq in E.
    destruct Hne. rewrite E. apply (list_elem_of_fmap_2 keyEnc) in Hin. exact Hin.
Qed.

Lemma cborMap_get_None es k :
  cborEncode (VUint k) ∉ map keyEnc es -> cborMap_get es k = None.
Proof.
  induction es as [|e es IH]; intros Hn; [done|]. cbn in *. apply not_elem_of_cons in Hn as [Hne Hn].
  destruct (byteEqual _ _) eqn:E; [apply byteEqual_eq in E; congruence|]. by apply IH.
Qed.

Lemma cborMap_get_newCBORMapU k m :
  is_u64 k -> Forall (fun e => is_u64 e.1) m -> NoDup (map fst m) ->
  cborMap_get (newCBORMapU m) k = (list_to_map m : gmap Z value) !! k.
Proof.
  intros Hk Hu Hn. unfold newCBORMapU. fold (go_entries m).
  pose proof (go_entries_keys_NoDup m Hu Hn) as Hnd.
  assert (NoDup (map keyEnc (sort_entries keyEnc (go_entries m)))) as Hnd'.
  { change (NoDup (keyEnc <$> sort_entries keyEnc (go_entries m))). by rewrite sort_entries_perm. }
  destruct (list_to_map m !! k) as [v|] eqn:E.
  - apply elem_of_list_to_map_2 in E. apply cborMap_get_elem; [done|].
    rewrite sort_entries_perm. unfold go_entries.
    exact (list_elem_of_fmap_2 (fun e => (cborEncode (VUint e.1), VUint e.1, e.2)) m (k, v) E).
  - apply not_elem_of_list_to_map_2 in E. apply cborMap_get_None.
    intros Hin. change (cborEncode (VUint k) ∈ keyEnc <$> sort_entries keyEnc (go_entries m)) in Hin.
    rewrite sort_entries_perm in Hin. apply list_elem_of_fmap in Hin as (e & Heq & He).
    unfold go_entries in He. apply (list_elem_of_fmap) in He as ([j x] & -> & Hj).
    rewrite Forall_forall in Hu. unfold keyEnc in Heq. cbn [fst] in Heq.
    apply encode_uint_inj in Heq as ->; [|done|exact (Hu _ Hj)]. apply E.
    exact (list_elem_of_fmap_2 fst _ _ Hj).
Qed.

(** Encoding a Go [map[uint64]any] is well defined although Go iterates the
    map in an unspecified order: any two orders give the same octets, the octets
    decode to the canonical map, and looking a key up in that map is looking it up
    in the Go map. *)
Theorem go_map_canonical (m : list (Z * value))
    (Hm : Forall (fun e => is_u64 e.1 /\ cbor_ok 7 e.2) m) (Hn : NoDup (map fst m))
    (Hsize : blen (cborEncode (VGoMap m)) < 2 ^ 63) :
  (forall m', m ≡ₚ m' -> cborEncode (VGoMap m') = cborEncode (VGoMap m)) /\
  cborDecodeTop (cborEncode (VGoMap m)) = Ok (VMap (newCBORMapU m)) /\
  (forall k, is_u64 k -> cborMap_get (newCBORMapU m) k = (list_to_map m : gmap Z value) !! k).
Proof.
  assert (Forall (fun e => is_u64 e.1) m) as Hu
    by (eapply Forall_impl; [exact Hm|]; by intros ? [? _]).
  split_and!.
  - intros m' Hp. rewrite !encode_newCBORMapU. do 2 f_equal. unfold newCBORMapU.
    apply sort_entries_unique.
    + apply go_entries_keys_NoDup; [by rewrite <- Hp|].
      change (NoDup (fst <$> m')). by rewrite <- Hp.
    + by rewrite Hp.
  - rewrite encode_newCBORMapU in *. unfold cborDecodeTop.
    rewrite <- (app_nil_r (cborEncode _)) at 1. rewrite decode_encoded;
      [|by apply newCBORMapU_ok|by rewrite app_nil_r].
    cbn. unfold blen. by rewrite Z.eqb_refl.
  - intros k Hk. by apply cborMap_get_newCBORMapU.
Qed.

Lemma go_map_canonical_witness :
  cborEncode (VGoMap [(1, VUint 7); (300, VText (str "a"))])
  = cborEncode (VGoMap [(300, VText (str "a")); (1, VUint 7)]).
Proof.
  apply (go_map_canonical [(300, VText (str "a")); (1, VUint 7)]).
  - repeat apply Forall_cons_2; try apply Forall_nil_2; (split; [unfold is_u64; cbn; lia|]);
      cbn; unfold is_u64; lia || exact I.
  - apply NoDup_cons; split; [by rewrite list_elem_of_singleton|apply NoDup_singleton].
  - by vm_compute.
  - apply Permutation_swap.
Defined.
