(* ===== verification/ErrorFrame.v ===== *)
(** * The ERROR frame body (errorframe.go)

    Session error codes with their registered reactions, and the two-entry CBOR
    body an ERROR frame carries, written with the general encoder and read by a
    small hand-written parser. *)

From S2P Require Import Prelude Errors Cbor.
From Stdlib Require Import Strings.Byte.
From stdpp Require Import gmap.
Open Scope Z_scope.

Definition ErrCodeUnexpectedMessage : Z := 1.
Definition ErrCodeDecryptFailed : Z := 2.
Definition ErrCodeReplayDetected : Z := 3.
Definition ErrCodeUnknownChannel : Z := 4.
Definition ErrCodeUnknownCriticalTLV : Z := 5.
Definition ErrCodeHandshakeTimeout : Z := 6.
Definition ErrCodeDowngradeDetected : Z := 7.
Definition ErrCodeCloseIncomplete : Z := 8.
Definition ErrCodeKeyUpdateOutOfOrder : Z := 9.
Definition ErrCodeFlowControl : Z := 10.

Inductive ErrorReaction : Type := ReactionFatal | ReactionDiscard.

Definition Reaction (c : Z) : ErrorReaction :=
  if (c =? ErrCodeReplayDetected) || (c =? ErrCodeUnknownChannel)
  then ReactionDiscard else ReactionFatal.

Definition errCodeName : gmap Z bytes := list_to_map
  [ (ErrCodeUnexpectedMessage, str "unexpected_message");
    (ErrCodeDecryptFailed, str "decrypt_failed");
    (ErrCodeReplayDetected, str "replay_detected");
    (ErrCodeUnknownChannel, str "unknown_channel");
    (ErrCodeUnknownCriticalTLV, str "unknown_critical_tlv");
    (ErrCodeHandshakeTimeout, str "handshake_timeout");
    (ErrCodeDowngradeDetected, str "downgrade_detected");
    (ErrCodeCloseIncomplete, str "close_incomplete");
    (ErrCodeKeyUpdateOutOfOrder, str "key_update_out_of_order");
    (ErrCodeFlowControl, str "flow_control_error") ].

(** The digit loop; 16 iterations exhaust a 64-bit value. *)
Fixpoint hex_digits (fuel : nat) (v : Z) (acc : bytes) : bytes :=
  match fuel with
  | O => acc
  | S fuel =>
      if v =? 0 then acc
      else hex_digits fuel (Z.shiftr v 4)
             (nth (Z.to_nat (Z.land v 0xf)) (str "0123456789abcdef") x00 :: acc)
  end.

Definition itoaHex (v : Z) : bytes :=
  if v =? 0 then str "0x0" else str "0x" ++ hex_digits 16 v [].

Definition SessionErrorCode_String (c : Z) : bytes :=
  match errCodeName !! c with
  | Some n => n
  | None => str "error_code(" ++ itoaHex c ++ str ")"
  end.

(** A nil context is encoded as the empty byte string, so both are [[]]. *)
Definition EncodeErrorBody (code : Z) (context : bytes) : bytes :=
  cborEncode (VGoMap [(1, VUint code); (2, VBytes context)]).

Definition cborReadUint (b : bytes) : result error (Z * nat) :=
  check ((blen b <? 1) || negb (Z.shiftr (at_ b 0) 5 =? 0)) ErrMalformedErrorBody;;
  let ai := Z.land (at_ b 0) 0x1f in
  if ai <? 24 then Ok (ai, 1%nat)
  else if ai =? 24 then
    check ((blen b <? 2) || (at_ b 1 <? 24)) ErrMalformedErrorBody;;
    Ok (at_ b 1, 2%nat)
  else if ai =? 25 then
    check (blen b <? 3) ErrMalformedErrorBody;;
    let v := Z.lor (Z.shiftl (at_ b 1) 8) (at_ b 2) in
    check (v <? 256) ErrMalformedErrorBody;;
    Ok (v, 3%nat)
  else Err ErrMalformedErrorBody.

Definition cborReadBstr (b : bytes) : result error (bytes * nat) :=
  check ((blen b <? 1) || negb (Z.shiftr (at_ b 0) 5 =? 2)) ErrMalformedErrorBody;;
  let hdr := <[0%nat := z2b (Z.land (at_ b 0) 0x1f)]> b in
  '(ln, hn) ← cborReadUint hdr;
  let end_ := i64 (Z.of_nat hn + i64 ln) in
  check ((end_ <? Z.of_nat hn) || (blen b <? end_)) ErrMalformedErrorBody;;
  Ok (slice hn (Z.to_nat end_) b, Z.to_nat end_).

Definition DecodeErrorBody (b : bytes) : result error (Z * bytes) :=
  check ((blen b <? 1) || negb (at_ b 0 =? 0xa2)) ErrMalformedErrorBody;;
  let p := 1%nat in
  check ((blen b <=? Z.of_nat p) || negb (at_ b p =? 0x01)) ErrMalformedErrorBody;;
  let p := (p + 1)%nat in
  '(code, n) ← cborReadUint (drop p b);
  check (255 <? code) ErrMalformedErrorBody;;
  let p := (p + n)%nat in
  check ((blen b <=? Z.of_nat p) || negb (at_ b p =? 0x02)) ErrMalformedErrorBody;;
  let p := (p + 1)%nat in
  '(ctx, n) ← cborReadBstr (drop p b);
  let p := (p + n)%nat in
  check (negb (Z.of_nat p =? blen b)) ErrMalformedErrorBody;;
  Ok (u8 code, ctx).

Example error_body_example :
  EncodeErrorBody ErrCodeUnexpectedMessage [] = hex "a201010240" /\
  DecodeErrorBody (hex "a20118c80243616263") = Ok (200, str "abc").
Proof. by vm_compute. Qed.

(** ** The parser against the encoder *)

Lemma EncodeErrorBody_eq code ctx :
  EncodeErrorBody code ctx
  = [xa2; x01] ++ encodeHead 0 code ++ [x02] ++ encodeHead 2 (blen ctx) ++ ctx.
Proof.
  unfold EncodeErrorBody. cbn -[encodeHead app]. change (encodeHead 0 1) with [x01].
  change (encodeHead 0 2) with [x02]. change (encodeHead 5 (blen _)) with [xa2].
  change (byteLess [x01] [x02]) with true. cbn [map concat fst snd].
  by rewrite app_nil_r, <- !app_assoc.
Qed.

(** [cborReadUint] reads a header of major type 0 with an argument of at most
    16 bits, as [decodeArg] does. *)
Lemma cborReadUint_inv b v n :
  cborReadUint b = Ok (v, n) ->
  0 <= v < 2 ^ 16 /\ (1 <= n <= length b)%nat /\ (n <= 3)%nat /\ take n b = encodeHead 0 v.
Proof.
  unfold cborReadUint. intros H. apply bind_Ok in H as ([] & Hc & H). apply check_Ok in Hc.
  destruct b as [|x b]; [done|]. cbn [orb] in Hc. apply orb_false_iff in Hc as [_ Hc].
  unfold at_ in *. cbn [nth] in *. apply negb_false_iff, Z.eqb_eq in Hc.
  destruct (octet_head x) as (Hx & _ & Hai). rewrite Hc in Hx.
  set (ai := Z.land (b2z x) 0x1f) in *. unfold encodeHead.
  destruct (Z.ltb_spec ai 24).
  { injection H as <- <-. rewrite (proj2 (Z.ltb_lt ai 24)) by done.
    cbn. rewrite take_0, Hx. split_and!; [lia|lia|lia|lia|lia|done]. }
  destruct (Z.eqb_spec ai 24) as [E|_]; [|destruct (Z.eqb_spec ai 25) as [E|_]; [|done]].
  - inv_res H. destruct b as [|y b]; [done|]. cbn [nth] in *. pose proof (b2z_range y).
    subst v n. rewrite (proj2 (Z.ltb_ge _ 24)) by lia. change (Z.shiftl 1 8) with 256.
    rewrite (proj2 (Z.ltb_lt _ 256)) by lia. split_and!; [lia|lia|lia|cbn; lia|lia|].
    cbn [take]. rewrite E in Hx. rewrite take_0, Hx. f_equal.
    unfold be_put. cbn [Z.of_nat Z.mul]. by rewrite Z.shiftr_0_r, z2b_b2z.
  - inv_res H. destruct b as [|y [|z b]]; [done..|]. cbn [nth] in *.
    assert (Z.lor (Z.shiftl (b2z y) 8) (b2z z) = be_get [y; z]) as Hv.
    { rewrite shl8_lor by apply b2z_range. unfold be_get. cbn [fold_left]. lia. }
    rewrite Hv in *. pose proof (be_get_range [y; z]) as Hr. change (256 ^ blen [y; z]) with (2 ^ 16) in Hr.
    subst v n. change (Z.shiftl 1 8) with 256. change (Z.shiftl 1 16) with (2 ^ 16).
    rewrite (proj2 (Z.ltb_ge _ 24)), (proj2 (Z.ltb_ge _ 256)), (proj2 (Z.ltb_lt _ (2 ^ 16))) by lia.
    split_and!; [lia|lia|lia|cbn; lia|lia|]. rewrite (be_put_get_eq [y; z] 2) by done.
    cbn. rewrite E in Hx. by rewrite take_0, Hx.
Qed.

Lemma cborReadUint_head v rest :
  0 <= v < 2 ^ 16 ->
  cborReadUint (encodeHead 0 v ++ rest) = Ok (v, length (encodeHead 0 v)).
Proof.
  intros Hv. unfold encodeHead. change (Z.shiftl 1 8) with 256. change (Z.shiftl 1 16) with (2 ^ 16).
  pose proof (blen_nonneg rest).
  destruct (Z.ltb_spec v 24); [|destruct (Z.ltb_spec v 256)].
  - destruct (head_octet 0 v) as [H1 H2]; [lia|lia|].
    unfold cborReadUint, at_. cbn [app nth]. rewrite H1, H2, blen_cons.
    rewrite (proj2 (Z.ltb_ge _ 1)), (proj2 (Z.ltb_lt v 24)) by lia. done.
  - unfold cborReadUint, at_, be_put. cbn [app nth length].
    change (Z.shiftr (b2z (z2b (Z.lor (0 ≪ 5) 24))) 5) with 0.
    change (Z.land (b2z (z2b (Z.lor (0 ≪ 5) 24))) 31) with 24.
    rewrite !blen_cons, (proj2 (Z.ltb_ge _ 1)), (proj2 (Z.ltb_ge _ 2)) by lia.
    cbn -[Z.shiftr]. rewrite Z.shiftr_0_r, b2z_z2b_small, (proj2 (Z.ltb_ge v 24)) by lia. done.
  - rewrite (proj2 (Z.ltb_lt v (2 ^ 16))) by lia.
    unfold cborReadUint, at_, be_put. cbn [app nth length].
    change (Z.shiftr (b2z (z2b (Z.lor (0 ≪ 5) 25))) 5) with 0.
    change (Z.land (b2z (z2b (Z.lor (0 ≪ 5) 25))) 31) with 25.
    assert (Z.lor (Z.shiftl (b2z (z2b (Z.shiftr v (8 * Z.of_nat 1)))) 8)
      (b2z (z2b (Z.shiftr v (8 * Z.of_nat 0)))) = v) as Hl.
    { rewrite shl8_lor by apply b2z_range. rewrite !b2z_z2b, !Z.shiftr_div_pow2 by lia.
      change (2 ^ (8 * Z.of_nat 1)) with 256. change (2 ^ (8 * Z.of_nat 0)) with 1.
      rewrite Z.div_1_r. rewrite (Z.mod_small (v / 256)) by (split; [apply Z.div_pos|apply Z.div_lt_upper_bound]; lia).
      pose proof (Z.div_mod v 256). lia. }
    rewrite !blen_cons, (proj2 (Z.ltb_ge _ 1)), (proj2 (Z.ltb_ge _ 3)) by lia.
    cbn -[Z.shiftr Z.shiftl Z.lor Z.of_nat Z.mul]. rewrite Hl, (proj2 (Z.ltb_ge v 256)) by lia. done.
Qed.

(** The major type only affects the first octet of a header. *)
Lemma encodeHead_major arg :
  0 <= arg < 2 ^ 64 -> exists a tl, 0 <= a < 32 /\ (length tl <= 8)%nat /\
    forall m, encodeHead m arg = z2b (Z.lor (Z.shiftl m 5) a) :: tl.
Proof.
  intros H. unfold encodeHead. destruct (Z.ltb_spec arg 24); [exists arg, []; split_and!; [lia|lia|rewrite ?length_be_put; cbn; lia|done]|].
  destruct (Z.ltb_spec arg (Z.shiftl 1 8)); [exists 24, (be_put 1 arg); split_and!; [lia|lia|rewrite ?length_be_put; cbn; lia|done]|].
  destruct (Z.ltb_spec arg (Z.shiftl 1 16)); [exists 25, (be_put 2 arg); split_and!; [lia|lia|rewrite ?length_be_put; cbn; lia|done]|].
  destruct (Z.ltb_spec arg (Z.shiftl 1 32)); [exists 26, (be_put 4 arg); split_and!; [lia|lia|rewrite ?length_be_put; cbn; lia|done]|].
  exists 27, (be_put 8 arg). split_and!; [lia|lia|rewrite ?length_be_put; cbn; lia|done].
Qed.

Lemma cborReadBstr_inv b ctx n :
  cborReadBstr b = Ok (ctx, n) ->
  blen ctx < 2 ^ 16 /\ (n <= length b)%nat /\ take n b = encodeHead 2 (blen ctx) ++ ctx.
Proof.
  unfold cborReadBstr. intros H. apply bind_Ok in H as ([] & Hc & H). apply check_Ok in Hc.
  destruct b as [|x b]; [done|]. apply orb_false_iff in Hc as [_ Hc].
  unfold at_ in *. cbn [nth] in *. apply negb_false_iff, Z.eqb_eq in Hc. cbv zeta in H.
  apply bind_Ok in H as ([ln hn] & Hu & H). apply cborReadUint_inv in Hu as (Hln & Hhn & Hh3 & Ht).
  change (<[0%nat:=?y]> (x :: b)) with (y :: b) in *. cbn [length] in Hhn.
  rewrite (i64_id ln), i64_id in H by lia. inv_res H. destruct_or?; subst.
  destruct (encodeHead_major ln) as (a & tl & Ha & Htl8 & Hm); [lia|]. rewrite Hm in Ht.
  destruct hn as [|hn]; [lia|]. cbn [take] in Ht. injection Ht as Hx' Htl.
  destruct (octet_head x) as (Hx & _ & Hai). rewrite Hc in Hx.
  destruct (head_octet 0 a) as [_ Ha']; [lia|lia|]. rewrite <- Hx', b2z_z2b_small in Ha' by lia.
  assert (Z.land (b2z x) 31 = a) as Hxa.
  { rewrite <- Ha'. rewrite <- Z.land_assoc. done. }
  rewrite Hxa in Hx.
  assert (take (S hn) (x :: b) = encodeHead 2 ln) as Hhead by (rewrite Hm; cbn; by rewrite Hx, Htl).
  unfold blen in *. cbn [length] in *.
  replace (Z.to_nat (Z.of_nat (S hn) + ln)) with (S hn + Z.to_nat ln)%nat in * by lia.
  rewrite slice_take in *. 
  assert (length (take (Z.to_nat ln) (drop (S hn) (x :: b))) = Z.to_nat ln) as Hl
    by (rewrite length_take, length_drop; cbn [length]; lia).
  rewrite Hl. split_and!; [lia|lia|].
  rewrite Z2Nat.id by lia. rewrite <- Hhead, !take_slice.
  rewrite (slice_split 0 (S hn) (S hn + Z.to_nat ln)) by lia. f_equal.
  rewrite slice_take. by rewrite take_slice.
Qed.

Lemma cborReadBstr_head ctx rest :
  blen ctx < 2 ^ 16 ->
  cborReadBstr ((encodeHead 2 (blen ctx) ++ ctx) ++ rest)
  = Ok (ctx, length (encodeHead 2 (blen ctx) ++ ctx)).
Proof.
  intros Hc. pose proof (blen_nonneg ctx) as H0. pose proof (blen_nonneg rest).
  destruct (encodeHead_major (blen ctx)) as (a & tl & Ha & Htl8 & Hm); [lia|].
  destruct (head_octet 2 a) as [H1 H2]; [lia|lia|].
  pose proof (cborReadUint_head (blen ctx) (ctx ++ rest) ltac:(lia)) as Hu.
  rewrite (Hm 0) in Hu. cbn [app length] in Hu.
  unfold cborReadBstr, at_. rewrite Hm. cbn [app nth length]. rewrite H1, H2, blen_cons.
  rewrite (proj2 (Z.ltb_ge _ 1)) by (pose proof (blen_nonneg ((tl ++ ctx) ++ rest)); lia).
  cbn [Z.eqb Pos.eqb negb orb check mbind result_bind].
  change (<[0%nat:=?y]> (?x :: ?b)) with (y :: b). rewrite <- app_assoc.
  change (Z.lor (Z.shiftl 0 5) a) with a in Hu. rewrite Hu. cbn [mbind result_bind].
  rewrite (i64_id (blen ctx)), i64_id by (unfold blen in *; rewrite ?length_app in *; lia).
  assert (length (encodeHead 2 (blen ctx)) = S (length tl)) as Hh by (by rewrite Hm).
  rewrite !blen_app. unfold blen.
  rewrite (proj2 (Z.ltb_ge (_ + _) _)), (proj2 (Z.ltb_ge _ (_ + _))) by (unfold blen in *; lia).
  cbn [orb check mbind result_bind]. rewrite length_app.
  replace (Z.to_nat (Z.of_nat (S (length tl)) + Z.of_nat (length ctx)))
    with (S (length tl) + length ctx)%nat by lia.
  rewrite slice_take. cbn [drop]. by rewrite drop_app_length, take_app_length.
Qed.

Lemma slice_one i (b : bytes) : (i < length b)%nat -> slice i (i + 1) b = [nth i b x00].
Proof.
  intros Hi. rewrite slice_take. revert i Hi.
  induction b as [|x b IH]; intros [|i] Hi; cbn in *; try lia; [by rewrite take_0|].
  apply IH. lia.
Qed.

Lemma at_byte b i (x : byte) : at_ b i = b2z x -> nth i b x00 = x.
Proof. apply b2z_inj. Qed.

Lemma decode_error_inv b code ctx :
  DecodeErrorBody b = Ok (code, ctx) ->
  is_u8 code /\ blen ctx < 2 ^ 16 /\ b = EncodeErrorBody code ctx.
Proof.
  unfold DecodeErrorBody. intros H. apply bind_Ok in H as ([] & Hc1 & H).
  apply bind_Ok in H as ([] & Hc2 & H). apply bind_Ok in H as ([v n] & Hu & H).
  apply bind_Ok in H as ([] & Hc3 & H). apply bind_Ok in H as ([] & Hc4 & H).
  apply bind_Ok in H as ([c m] & Hb & H). inv_res H. apply check_Ok in Hc1, Hc2, Hc3, Hc4. bprop.
  subst. apply cborReadUint_inv in Hu as (Hv & Hn & _ & Ht).
  apply cborReadBstr_inv in Hb as (Hctx & Hm & Hb). rewrite !length_drop in *.
  unfold u8. rewrite Z.mod_small by lia. split_and!; [split; lia|done|].
  rewrite EncodeErrorBody_eq. set (p2 := (2 + n)%nat).
  change (1 + 1)%nat with 2%nat in *. fold p2 in Hb, Hm, H |- *.
  assert (at_ b p2 = 2) as Hp2 by done.
  unfold blen in *. assert (length b = p2 + 1 + m)%nat as Hlen by lia.
  assert (b = slice 0 (length b) b) as Hall by (unfold slice; by rewrite drop_0, Nat.sub_0_r, firstn_all).
  rewrite Hall, (slice_split 0 2 (length b)), (slice_split 2 p2 (length b)),
    (slice_split p2 (p2 + 1) (length b)) by lia. f_equal; [|f_equal; [|f_equal]].
  - rewrite (slice_split 0 1 2), (slice_one 0), (slice_one 1) by lia.
    by rewrite (at_byte b 0 xa2), (at_byte b 1 x01).
  - unfold p2. by rewrite slice_take.
  - rewrite slice_one by lia. by rewrite (at_byte b p2 x02).
  - rewrite Hlen, slice_take. exact Hb.
Qed.

(** After the code, only the byte string decides. *)
Lemma decode_error_step code body :
  is_u8 code ->
  DecodeErrorBody ([xa2; x01] ++ encodeHead 0 code ++ [x02] ++ body)
  = ('(ctx, n) ← cborReadBstr body;
     check (negb (Z.of_nat n =? blen body)) ErrMalformedErrorBody;;
     Ok (code, ctx)).
Proof.
  intros Hcode. unfold DecodeErrorBody, is_u8 in *.
  pose proof (cborReadUint_head code ([x02] ++ body) ltac:(lia)) as Hu.
  set (h := encodeHead 0 code) in *.
  assert (blen ([xa2; x01] ++ h ++ [x02] ++ body) = 3 + blen h + blen body) as Hlen
    by (rewrite !blen_app; change (blen [xa2; x01]) with 2; change (blen [x02]) with 1; lia).
  pose proof (blen_nonneg h). pose proof (blen_nonneg body).
  rewrite Hlen. rewrite (proj2 (Z.ltb_ge _ 1)), (proj2 (Z.leb_gt _ (Z.of_nat 1))) by lia.
  change (at_ ([xa2; x01] ++ ?r) 0) with 0xa2. change (at_ ([xa2; x01] ++ ?r) 1) with 1.
  cbn [Z.eqb Pos.eqb negb orb check mbind result_bind Nat.add].
  change (drop 2 ([xa2; x01] ++ ?r)) with r. rewrite Hu. cbn [mbind result_bind].
  rewrite (proj2 (Z.ltb_ge 255 code)) by lia. cbn [check mbind result_bind].
  rewrite (proj2 (Z.leb_gt _ _)) by (unfold blen in *; lia).
  assert (at_ ([xa2; x01] ++ h ++ [x02] ++ body) (S (S (length h))) = 2) as ->.
  { unfold at_. cbn [app nth]. by rewrite app_nth2, Nat.sub_diag by lia. }
  cbn [Z.eqb Pos.eqb negb orb check mbind result_bind].
  replace ([xa2; x01] ++ h ++ [x02] ++ body) with (([xa2; x01] ++ h ++ [x02]) ++ body)
    by (by rewrite <- !app_assoc).
  rewrite drop_app_length' by (rewrite !length_app; cbn; lia).
  destruct (cborReadBstr body) as [[c n]|]; [|done]. cbn [mbind result_bind].
  unfold u8. rewrite (Z.mod_small code) by lia. unfold blen.
  destruct (Z.eqb_spec (Z.of_nat n) (Z.of_nat (length body)));
    [rewrite (proj2 (Z.eqb_eq _ _)) by lia|rewrite (proj2 (Z.eqb_neq _ _)) by lia]; done.
Qed.

Lemma decode_error_encoded code ctx :
  is_u8 code -> blen ctx < 2 ^ 16 ->
  DecodeErrorBody (EncodeErrorBody code ctx) = Ok (code, ctx).
Proof.
  intros Hcode Hctx. rewrite EncodeErrorBody_eq, decode_error_step by done.
  pose proof (cborReadBstr_head ctx [] Hctx) as Hb. rewrite app_nil_r in Hb. rewrite Hb.
  cbn [mbind result_bind]. unfold blen at 2. by rewrite Z.eqb_refl.
Qed.

(** The hand-written ERROR-body parser agrees with the general CBOR encoder:
    it returns a code and a context exactly on the encoding of a code in 0..255
    and a context of at most 65535 octets, and refuses every other payload. *)
Theorem error_body_exact (b ctx : bytes) (code : Z) :
  DecodeErrorBody b = Ok (code, ctx) <->
  is_u8 code /\ blen ctx < 2 ^ 16 /\ b = EncodeErrorBody code ctx.
Proof.
  split; [apply decode_error_inv|]. intros (? & ? & ->). by apply decode_error_encoded.
Qed.

(** A context of 65,536 octets or more (and fewer than [2^32]) is encoded but refused by the decoder, which
    reads lengths of at most 16 bits. *)
Lemma error_body_long_context (code : Z) (ctx : bytes)
    (Hcode : is_u8 code) (Hctx : 2 ^ 16 <= blen ctx < 2 ^ 32) :
  DecodeErrorBody (EncodeErrorBody code ctx) = Err ErrMalformedErrorBody.
Proof.
   rewrite EncodeErrorBody_eq, decode_error_step by done.
  assert (encodeHead 2 (blen ctx) = x5a :: be_put 4 (blen ctx)) as ->.
  { unfold encodeHead. change (Z.shiftl 1 8) with 256. change (Z.shiftl 1 16) with (2 ^ 16).
    change (Z.shiftl 1 32) with (2 ^ 32).
    by rewrite (proj2 (Z.ltb_ge _ 24)), (proj2 (Z.ltb_ge _ 256)), (proj2 (Z.ltb_ge _ (2 ^ 16))),
      (proj2 (Z.ltb_lt _ (2 ^ 32))) by lia. }
  unfold cborReadBstr. cbn [app]. set (r := be_put 4 _ ++ ctx). rewrite blen_cons.
  rewrite (proj2 (Z.ltb_ge _ 1)) by (pose proof (blen_nonneg r); lia).
  change (at_ (x5a :: r) 0) with 0x5a. cbn [orb check mbind result_bind].
  change (<[0%nat:=?y]> (x5a :: r)) with (x1a :: r). unfold cborReadUint. rewrite blen_cons.
  by rewrite (proj2 (Z.ltb_ge _ 1)) by (pose proof (blen_nonneg r); lia).
Qed.

Lemma error_body_long_context_witness :
  DecodeErrorBody (EncodeErrorBody 1 (replicate (Z.to_nat 65536) x00)) = Err ErrMalformedErrorBody.
Proof.
  apply (error_body_long_context 1 (replicate (Z.to_nat 65536) x00)).
  - split; [discriminate|reflexivity].
  - unfold blen. rewrite length_replicate, Z2Nat.id by discriminate. split; [discriminate|reflexivity].
Defined.
