(* ===== verification/Conn.v ===== *)
(** * The session: state and operations (sdk/conn.go, keyupdate.go, ratchet.go,
    close.go, pendingack.go)

    A [Conn] is the state of one endpoint.  An operation is a function of the state
    that returns the new state, the frames it wrote and a result; state changes
    made before an error stay, as in the source.  The parts of the environment the
    source depends on are arguments: whether the transport accepts a write ([io]),
    the octets that arrive, and the randomness of a key exchange.  The goroutines
    the receive path starts are collected in the field [tasks] and run as separate
    operations, in any order.

    The mutexes make each operation below atomic on the fields it touches.  [ReKEM]
    takes its locks in three separate regions and is three operations here. *)

From S2P Require Import Prelude Errors Registry Crypto Tlv Frame Aead Kem KeySchedule Transcript.
From S2P Require Import Handshake Cbor ErrorFrame.
From Stdlib Require Import Strings.Byte.
From stdpp Require Import gmap.
Open Scope Z_scope.

(** ** State *)

Record epochKeys : Type := mkKeys {
  k_epoch : Z;
  k_key : bytes;
  k_iv : bytes;
  k_seq : Z
}.

(** [&epochKeys{}]: the zero value. *)
Definition zeroKeys : epochKeys := mkKeys 0 (replicate 32 x00) (replicate 12 x00) 0.

Record pendingReKEM : Type := mkPending {
  pr_client : KEMClient;
  pr_kemShare : bytes;
  pr_targetGen : Z
}.

(** A goroutine started by the receive path. *)
Inductive task : Type :=
| TKeyUpdateAck (channel epoch : Z)
| TMasterRatchetAck (gen : Z)
| TRespondReKEM (kemShare : bytes) (target : Z).

Record Conn : Type := mkConn {
  c_profile : Z;
  masterSend : bytes;
  masterRecv : bytes;
  genSend : Z;
  genRecv : Z;
  peerID : bytes;
  sendDir : Z;
  recvDir : Z;
  sendKeys : gmap Z epochKeys;
  recvKeys : gmap Z epochKeys;
  c_pendingReKEM : option pendingReKEM;
  pendingKUAck : gmap Z (gmap Z Z);
  pendingMRAck : gset Z;
  droppedUnauthenticated : Z;
  droppedOutOfSequence : Z;
  closing : bool;
  closed : bool;
  rawClosed : bool;          (* the transport has been closed *)
  tasks : list task
}.

(** [newConn]: both roots start as the handshake master. *)
Definition sdkProfile : Z := ProfileStandard.

Definition newConn (master peer : bytes) (sendDir_ recvDir_ : Z) : Conn :=
  mkConn sdkProfile master master 0 0 peer sendDir_ recvDir_ ∅ ∅ None ∅ ∅ 0 0 false false false [].

Definition set_sendKeys (f : gmap Z epochKeys -> gmap Z epochKeys) (c : Conn) : Conn :=
  mkConn (c_profile c) (masterSend c) (masterRecv c) (genSend c) (genRecv c) (peerID c) (sendDir c) (recvDir c)
    (f (sendKeys c)) (recvKeys c) (c_pendingReKEM c) (pendingKUAck c) (pendingMRAck c)
    (droppedUnauthenticated c) (droppedOutOfSequence c) (closing c) (closed c) (rawClosed c) (tasks c).

Definition set_recvKeys (f : gmap Z epochKeys -> gmap Z epochKeys) (c : Conn) : Conn :=
  mkConn (c_profile c) (masterSend c) (masterRecv c) (genSend c) (genRecv c) (peerID c) (sendDir c) (recvDir c)
    (sendKeys c) (f (recvKeys c)) (c_pendingReKEM c) (pendingKUAck c) (pendingMRAck c)
    (droppedUnauthenticated c) (droppedOutOfSequence c) (closing c) (closed c) (rawClosed c) (tasks c).

(** The send root, its generation, and an emptied key cache. *)
Definition set_sendRoot (root : bytes) (gen : Z) (keys : gmap Z epochKeys) (c : Conn) : Conn :=
  mkConn (c_profile c) root (masterRecv c) gen (genRecv c) (peerID c) (sendDir c) (recvDir c)
    keys (recvKeys c) (c_pendingReKEM c) (pendingKUAck c) (pendingMRAck c)
    (droppedUnauthenticated c) (droppedOutOfSequence c) (closing c) (closed c) (rawClosed c) (tasks c).

Definition set_recvRoot (root : bytes) (gen : Z) (keys : gmap Z epochKeys) (c : Conn) : Conn :=
  mkConn (c_profile c) (masterSend c) root (genSend c) gen (peerID c) (sendDir c) (recvDir c)
    (sendKeys c) keys (c_pendingReKEM c) (pendingKUAck c) (pendingMRAck c)
    (droppedUnauthenticated c) (droppedOutOfSequence c) (closing c) (closed c) (rawClosed c) (tasks c).

(** The state [pmu] guards. *)
Definition set_pending (rk : option pendingReKEM) (ku : gmap Z (gmap Z Z)) (mr : gset Z)
    (c : Conn) : Conn :=
  mkConn (c_profile c) (masterSend c) (masterRecv c) (genSend c) (genRecv c) (peerID c) (sendDir c) (recvDir c)
    (sendKeys c) (recvKeys c) rk ku mr
    (droppedUnauthenticated c) (droppedOutOfSequence c) (closing c) (closed c) (rawClosed c) (tasks c).

Definition set_drops (unauth outseq : Z) (c : Conn) : Conn :=
  mkConn (c_profile c) (masterSend c) (masterRecv c) (genSend c) (genRecv c) (peerID c) (sendDir c) (recvDir c)
    (sendKeys c) (recvKeys c) (c_pendingReKEM c) (pendingKUAck c) (pendingMRAck c)
    unauth outseq (closing c) (closed c) (rawClosed c) (tasks c).

Definition set_flags (closing_ closed_ rawClosed_ : bool) (c : Conn) : Conn :=
  mkConn (c_profile c) (masterSend c) (masterRecv c) (genSend c) (genRecv c) (peerID c) (sendDir c) (recvDir c)
    (sendKeys c) (recvKeys c) (c_pendingReKEM c) (pendingKUAck c) (pendingMRAck c)
    (droppedUnauthenticated c) (droppedOutOfSequence c) closing_ closed_ rawClosed_ (tasks c).

Definition set_tasks (ts : list task) (c : Conn) : Conn :=
  mkConn (c_profile c) (masterSend c) (masterRecv c) (genSend c) (genRecv c) (peerID c) (sendDir c) (recvDir c)
    (sendKeys c) (recvKeys c) (c_pendingReKEM c) (pendingKUAck c) (pendingMRAck c)
    (droppedUnauthenticated c) (droppedOutOfSequence c) (closing c) (closed c) (rawClosed c) ts.

(** A frame handed to the transport, with the key coordinates it was sealed
    under (the coordinates are not on the wire: they are what the nonce theorems
    speak about). *)
Record sent : Type := mkSent {
  s_gen : Z;
  s_channel : Z;
  s_epoch : Z;
  s_seq : Z;
  s_wire : bytes
}.

(** ** The operation monad *)

Definition M (A : Type) : Type := Conn -> Conn * list sent * result error A.

#[export] Instance M_ret : MRet M := fun A a c => (c, [], Ok a).
#[export] Instance M_bind : MBind M := fun A B f m c =>
  match m c with
  | (c, out, Ok a) => let '(c', out', r) := f a c in (c', out ++ out', r)
  | (c, out, Err e) => (c, out, Err e)
  end.

Definition get : M Conn := fun c => (c, [], Ok c).
Definition modify (f : Conn -> Conn) : M unit := fun c => (f c, [], Ok tt).
Definition fail {A} (e : error) : M A := fun c => (c, [], Err e).
Definition lift {A} (r : result error A) : M A := fun c => (c, [], r).
Definition emit (s : sent) : M unit := fun c => (c, [s], Ok tt).
Definition guard_err (b : bool) (e : error) : M unit := if b then fail e else mret tt.
(** [if err := m; err != nil { cleanup; return err }] *)
Definition on_error {A} (m : M A) (cleanup : Conn -> Conn) : M A := fun c =>
  match m c with
  | (c, out, Err e) => (cleanup c, out, Err e)
  | r => r
  end.
(** The error as a value, for callers that inspect it. *)
Definition attempt {A} (m : M A) : M (result error A) := fun c =>
  let '(c, out, r) := m c in (c, out, Ok r).

(** ** epochKeys *)

Definition derive (k : epochKeys) (master : bytes) (dir channel p : Z) : result error epochKeys :=
  ts ← DeriveTrafficSecret master dir (k_epoch k) AEADAES256GCM channel p;
  '(key, iv) ← DeriveKeyIV ts p;
  Ok (mkKeys (k_epoch k) key iv (k_seq k)).

Definition zeroize (k : epochKeys) : epochKeys :=
  mkKeys (k_epoch k) (replicate 32 x00) (replicate 12 x00) (k_seq k).

(** The retired key is gone even when the derivation of the next one fails. *)
Definition advance (k : epochKeys) (master : bytes) (dir channel p : Z)
    : epochKeys * result error unit :=
  let k := zeroize k in
  let k := mkKeys (u64 (k_epoch k + 1)) (k_key k) (k_iv k) 0 in
  match derive k master dir channel p with
  | Ok k' => (k', Ok tt)
  | Err e => (k, Err e)
  end.

(** [st.seq++] *)
Definition bump (k : epochKeys) : epochKeys :=
  mkKeys (k_epoch k) (k_key k) (k_iv k) (u64 (k_seq k + 1)).

Definition maxSeq : Z := 2 ^ 64 - 1.   (* ^uint64(0) *)

Definition wipeRoot (b : bytes) : bytes := replicate (length b) x00.

Definition maxFrameSize : Z := MaxFrameSize.

(** [writeWire] over [writeFrame]; [io] says whether the transport takes the
    octets.  A failed write hands over no complete frame. *)
Definition writeWire (io : bool) (s : sent) : M unit :=
  guard_err (blen (s_wire s) <? HeaderSize) ErrFrameTooShort;;
  guard_err (maxFrameSize <? blen (s_wire s)) ErrFrameOverMax;;
  c ← get;
  if io && negb (rawClosed c) then emit s else fail ErrIO.

(** [readFrame]: one frame off the stream, and what is left of the stream; an
    error leaves what the reads before it did not take. *)
Definition readFrame (stream : bytes) : result error bytes * bytes :=
  if blen stream =? 0 then (Err ErrEOF, [])
  else if blen stream <? HeaderSize then (Err ErrUnexpectedEOF, [])
  else
    let header := take 36 stream in
    let stream' := drop 36 stream in
    if negb (bool_decide (slice 0 4 header = Magic)) then (Err ErrBadMagic, stream')
    else
      let payloadLen := be_get (slice 17 21 header) in
      let total := HeaderSize + payloadLen in
      if maxFrameSize <? total then (Err ErrFrameOverMax, stream')
      else if blen stream <? total then (Err ErrEOF, [])
      else (Ok (take (Z.to_nat total) stream), drop (Z.to_nat total) stream).

(** ** Pending acknowledgements (pendingack.go) *)

Definition addPendingKeyUpdateAck (channel epoch : Z) (c : Conn) : Conn :=
  let set := default ∅ (pendingKUAck c !! channel) in
  let set := <[epoch := default 0 (set !! epoch) + 1]> set in
  set_pending (c_pendingReKEM c) (<[channel := set]> (pendingKUAck c)) (pendingMRAck c) c.

(** [set[epoch]--] with the deletion of an entry that reaches zero and of a set
    that becomes empty. *)
Definition decrement (channel epoch : Z) (set : gmap Z Z) (ku : gmap Z (gmap Z Z)) : gmap Z (gmap Z Z) :=
  let n := default 0 (set !! epoch) - 1 in
  let set := if n =? 0 then delete epoch set else <[epoch := n]> set in
  if bool_decide (set = ∅) then delete channel ku else <[channel := set]> ku.

Definition removePendingKeyUpdateAck (channel epoch : Z) (c : Conn) : Conn :=
  match pendingKUAck c !! channel with
  | None => c
  | Some set =>
      let ku := if 0 <? default 0 (set !! epoch) then decrement channel epoch set (pendingKUAck c)
                else if bool_decide (set = ∅) then delete channel (pendingKUAck c)
                else pendingKUAck c in
      set_pending (c_pendingReKEM c) ku (pendingMRAck c) c
  end.

Definition consumePendingKeyUpdateAck (channel epoch : Z) (c : Conn) : Conn * bool :=
  match pendingKUAck c !! channel with
  | None => (c, false)
  | Some set =>
      if default 0 (set !! epoch) =? 0 then (c, false)
      else (set_pending (c_pendingReKEM c) (decrement channel epoch set (pendingKUAck c))
              (pendingMRAck c) c, true)
  end.

Definition addPendingRatchetAck (gen : Z) (c : Conn) : Conn :=
  set_pending (c_pendingReKEM c) (pendingKUAck c) ({[gen]} ∪ pendingMRAck c) c.

Definition removePendingRatchetAck (gen : Z) (c : Conn) : Conn :=
  set_pending (c_pendingReKEM c) (pendingKUAck c) (pendingMRAck c ∖ {[gen]}) c.

Definition consumePendingRatchetAck (gen : Z) (c : Conn) : Conn * bool :=
  if bool_decide (gen ∈ pendingMRAck c) then (removePendingRatchetAck gen c, true) else (c, false).

(** ** Markers (keyupdate.go, ratchet.go) *)

Definition keyUpdateMarker (epoch : Z) : bytes :=
  TLV_Encode (mkTLV TLVKeyUpdateMarker (be_put 8 epoch)) [].

(** One TLV of the given type holding eight octets. *)
Definition parse_marker (typ : Z) (payload : bytes) : result error Z :=
  tlvs ← DecodeTLVs payload;
  match tlvs with
  | [t] => check (negb (TLVType t =? typ)) ErrMarkerLayout;;
           check (negb (blen (TLVValue t) =? 8)) ErrMarkerLayout;;
           Ok (be_get (TLVValue t))
  | _ => Err ErrMarkerLayout
  end.

Definition parseKeyUpdateMarker (payload : bytes) : result error Z :=
  parse_marker TLVKeyUpdateMarker payload.

Definition ratchetGenMarker (gen : Z) : bytes :=
  TLV_Encode (mkTLV TLVRatchetGeneration (be_put 8 gen)) [].

Definition parseRatchetGenMarker (payload : bytes) : result error Z :=
  parse_marker TLVRatchetGeneration payload.

Definition encodeReKEM (kemShare : bytes) (gen : Z) : bytes :=
  let out := TLV_Encode (mkTLV TLVKEMShare kemShare) [] in
  TLV_Encode (mkTLV TLVRatchetGeneration (be_put 8 gen)) out.

(** A KEM value of the given type and size, then the generation. *)
Definition parse_rekem (typ size : Z) (e : error) (payload : bytes) : result error (bytes * Z) :=
  tlvs ← DecodeTLVs payload;
  match tlvs with
  | [t; g] =>
      check (negb (TLVType t =? typ) || negb (TLVType g =? TLVRatchetGeneration)) ErrMarkerLayout;;
      check (negb (blen (TLVValue t) =? size)) e;;
      check (negb (blen (TLVValue g) =? 8)) ErrMarkerLayout;;
      Ok (TLVValue t, be_get (TLVValue g))
  | _ => Err ErrMarkerLayout
  end.

Definition parseReKEM (payload : bytes) : result error (bytes * Z) :=
  parse_rekem TLVKEMShare KEMShareSize768 ErrKEMShareSize payload.

Definition encodeReKEMAck (kemCT : bytes) (gen : Z) : bytes :=
  let out := TLV_Encode (mkTLV TLVKEMCiphertext kemCT) [] in
  TLV_Encode (mkTLV TLVRatchetGeneration (be_put 8 gen)) out.

Definition parseReKEMAck (payload : bytes) : result error (bytes * Z) :=
  parse_rekem TLVKEMCiphertext KEMCiphertextSize768 ErrKEMCiphertextSize payload.

Definition thRekem (p : Z) (kemShare kemCT : bytes) (gen : Z) : result error bytes :=
  tr ← NewTranscript p;
  let tr := AddFrameType FrameReKEM tr in
  let tr := AddTLV (mkTLV TLVKEMShare kemShare) tr in
  let tr := AddTLV (mkTLV TLVRatchetGeneration (be_put 8 gen)) tr in
  let tr := AddFrameType FrameReKEMAck tr in
  let tr := AddTLV (mkTLV TLVKEMCiphertext kemCT) tr in
  let tr := AddTLV (mkTLV TLVRatchetGeneration (be_put 8 gen)) tr in
  Ok (Transcript_Sum tr).

(** Accessors. *)
Definition PeerIdentity (c : Conn) : bytes := peerID c.
Definition Conn_Profile (c : Conn) : Z := c_profile c.
Definition SecurityDrops (c : Conn) : Z * Z := (droppedUnauthenticated c, droppedOutOfSequence c).

Section operations.
Context `{Crypto}.

(** ** Record layer *)

Definition sealWith (st : epochKeys) (channel ft : Z) (plaintext : bytes) : result error bytes :=
  let f := mkFrame 0 FlagENC ft channel (k_seq st) [] in
  let aad := HeaderPrefix f (u32 (blen plaintext + 16)) in
  sealed ← SealAES256GCM (k_key st) (k_iv st) (k_seq st) aad plaintext;
  Ok (MarshalBinary (mkFrame 0 FlagENC ft channel (k_seq st) sealed)).2.

Definition openWith (st : epochKeys) (f : Frame) : result error bytes :=
  let aad := HeaderPrefix f (u32 (blen (Payload f))) in
  OpenAES256GCM (k_key st) (k_iv st) (Seq f) aad (Payload f).

Definition sendState (channel : Z) : M epochKeys :=
  c ← get;
  if closed c then fail errClosed else
  match sendKeys c !! channel with
  | Some st => mret st
  | None =>
      st ← lift (derive zeroKeys (masterSend c) (sendDir c) channel (c_profile c));
      modify (set_sendKeys <[channel := st]>);;
      mret st
  end.

Definition recvState (channel : Z) : M epochKeys :=
  c ← get;
  if closed c then fail errClosed else
  match recvKeys c !! channel with
  | Some st => mret st
  | None =>
      st ← lift (derive zeroKeys (masterRecv c) (recvDir c) channel (c_profile c));
      modify (set_recvKeys <[channel := st]>);;
      mret st
  end.

(** The store through the pointer [st] that [sendState] returned. *)
Definition putSend (channel : Z) (st : epochKeys) : M unit := modify (set_sendKeys <[channel := st]>).
Definition putRecv (channel : Z) (st : epochKeys) : M unit := modify (set_recvKeys <[channel := st]>).

(** [c.writeWire(ctx, wire)] for a frame sealed under [st]. *)
Definition writeSealed (io : bool) (st : epochKeys) (channel : Z) (wire : bytes) : M unit :=
  c ← get;
  writeWire io (mkSent (genSend c) channel (k_epoch st) (k_seq st) wire).

(** ** Teardown *)

Definition Zeroize (c : Conn) : Conn :=
  mkConn (c_profile c) (wipeRoot (masterSend c)) (wipeRoot (masterRecv c)) (genSend c) (genRecv c)
    (peerID c) (sendDir c) (recvDir c) (zeroize <$> sendKeys c) (zeroize <$> recvKeys c) None ∅ ∅
    (droppedUnauthenticated c) (droppedOutOfSequence c) (closing c) true (rawClosed c) (tasks c).

(** [closeOnce]: a second call finds the transport closed and does nothing. *)
Definition Close (c : Conn) : Conn :=
  if rawClosed c then c else Zeroize (set_flags (closing c) (closed c) true c).

(** ** Sending *)

Definition sendLocked (io : bool) (channel ft : Z) (payload : bytes) : M unit :=
  st ← sendState channel;
  guard_err (k_seq st =? maxSeq) ErrSeqExhausted;;
  wire ← lift (sealWith st channel ft payload);
  writeSealed io st channel wire;;
  putSend channel (bump st).

Definition Send (io : bool) (channel ft : Z) (payload : bytes) : M unit :=
  sendLocked io channel ft payload.

Definition KeyUpdate (io : bool) (channel : Z) : M unit :=
  st ← sendState channel;
  let announced := u64 (k_epoch st + 1) in
  wire ← lift (sealWith st channel FrameKeyUpdate (keyUpdateMarker announced));
  modify (addPendingKeyUpdateAck channel announced);;
  on_error (writeSealed io st channel wire) (removePendingKeyUpdateAck channel announced);;
  putSend channel (bump st);;
  c ← get;
  let '(st', r) := advance (bump st) (masterSend c) (sendDir c) channel (c_profile c) in
  putSend channel st';;
  lift r.

(** The send root steps to [target] and every cached send key is dropped. *)
Definition advanceSendRoot (nr : bytes) (target : Z) : M unit := modify (set_sendRoot nr target ∅).

Definition RatchetSend (io : bool) : M unit :=
  c ← get;
  guard_err (closed c) errClosed;;
  let target := u64 (genSend c + 1) in
  st ← sendState ChanControl;
  guard_err (k_seq st =? maxSeq) ErrSeqExhausted;;
  wire ← lift (sealWith st ChanControl FrameMasterRatchet (ratchetGenMarker target));
  modify (addPendingRatchetAck target);;
  on_error (writeSealed io st ChanControl wire) (removePendingRatchetAck target);;
  putSend ChanControl (bump st);;
  nr ← lift (RatchetMasterTier1 (masterSend c) target (c_profile c));
  advanceSendRoot nr target.

(** [ReKEM] in its three critical sections: the in-flight check, the request, the
    registration. *)
Definition ReKEM_check : M unit :=
  c ← get;
  guard_err (match c_pendingReKEM c with Some _ => true | None => false end) ErrReKEMInFlight.

Definition ReKEM_request (io : bool) (client : KEMClient) : M pendingReKEM :=
  let kemShare := KEMShare client in
  c ← get;
  guard_err (closed c) errClosed;;
  let target := u64 (genRecv c + 1) in
  st ← sendState ChanControl;
  guard_err (k_seq st =? maxSeq) ErrSeqExhausted;;
  wire ← lift (sealWith st ChanControl FrameReKEM (encodeReKEM kemShare target));
  writeSealed io st ChanControl wire;;
  putSend ChanControl (bump st);;
  mret (mkPending client kemShare target).

Definition ReKEM_register (p : pendingReKEM) : M unit :=
  modify (fun c => set_pending (Some p) (pendingKUAck c) (pendingMRAck c) c).

(** The three sections with nothing in between. *)
Definition ReKEM (io : bool) (client : KEMClient) : M unit :=
  ReKEM_check;; p ← ReKEM_request io client; ReKEM_register p.

(** ** Acknowledgements and errors sent off the receive path

    Each takes [sendState] and seals without the sequence-space guard; a seal or
    derivation error skips the frame, a failed write closes the connection where
    the source does. *)

Definition reply (io : bool) (channel ft : Z) (plaintext : bytes) (on_write_failure : Conn -> Conn)
    : M unit :=
  st ← sendState channel;
  wire ← lift (sealWith st channel ft plaintext);
  on_error (writeSealed io st channel wire) on_write_failure;;
  putSend channel (bump st).

(** The caller discards the error. *)
Definition ignore (m : M unit) : M unit := r ← attempt m; mret tt.

Definition sendKeyUpdateAck (io : bool) (channel epoch : Z) : M unit :=
  ignore (reply io channel FrameKeyUpdateAck (keyUpdateMarker epoch) Close).

Definition sendMasterRatchetAck (io : bool) (gen : Z) : M unit :=
  ignore (reply io ChanControl FrameMasterRatchetAck (ratchetGenMarker gen) Close).

Definition sendSessionError (io : bool) (code : Z) : M unit :=
  ignore (reply io ChanControl FrameError (EncodeErrorBody code []) id).

Definition sendCloseAck (io : bool) : M unit :=
  ignore (reply io ChanControl FrameCloseAck [] id).

(** [x] is the fresh X25519 key and [rnd] the ML-KEM randomness of
    [npamp.Encapsulate]. *)
Definition respondReKEM (io : bool) (x rnd : bytes) (kemShare : bytes) (target : Z) : M unit :=
  ignore (
    '(kemCT, ss) ← lift (Encapsulate kemShare x rnd);
    c ← get;
    th ← lift (thRekem (c_profile c) kemShare kemCT target);
    guard_err (closed c) errClosed;;
    guard_err (negb (target =? u64 (genSend c + 1))) ErrGenMismatch;;
    st ← sendState ChanControl;
    wire ← lift (sealWith st ChanControl FrameReKEMAck (encodeReKEMAck kemCT target));
    on_error (writeSealed io st ChanControl wire) Close;;
    putSend ChanControl (bump st);;
    nr ← on_error (lift (RatchetMasterTier2 (masterSend c) (Combined ss) th (c_profile c))) Close;
    advanceSendRoot nr target).

(** One goroutine of the run queue; [x] and [rnd] are its randomness. *)
Definition run_task (io : bool) (x rnd : bytes) (t : task) : M unit :=
  match t with
  | TKeyUpdateAck channel epoch => sendKeyUpdateAck io channel epoch
  | TMasterRatchetAck gen => sendMasterRatchetAck io gen
  | TRespondReKEM kemShare target => respondReKEM io x rnd kemShare target
  end.

Definition spawn (t : task) : M unit := modify (fun c => set_tasks (tasks c ++ [t]) c).

(** ** Graceful close (close.go) *)

Definition signalCloseAck (c : Conn) : Conn * bool :=
  if closing c then (set_flags false (closed c) (rawClosed c) c, true) else (c, false).

Definition clearClosing (c : Conn) : Conn := set_flags false (closed c) (rawClosed c) c.

(** [true] when the CLOSE reached the wire. *)
Definition sendClose (io : bool) : M bool :=
  c ← get;
  if closed c then mret false else
  st ← sendState ChanControl;
  guard_err (k_seq st =? maxSeq) ErrSeqExhausted;;
  wire ← lift (sealWith st ChanControl FrameClose []);
  modify (fun c => set_flags true (closed c) (rawClosed c) c);;
  on_error (writeSealed io st ChanControl wire) clearClosing;;
  putSend ChanControl (bump st);;
  mret true.

(** [CloseGraceful] up to the wait: [true] when it waits, otherwise the
    connection is already torn down. *)
Definition CloseGraceful_start (io : bool) : M bool :=
  r ← attempt (sendClose io);
  match r with
  | Ok true => mret true
  | _ => modify Close;; mret false
  end.

(** After the wait: [acked] says whether the acknowledgement arrived before the
    timer and the context. *)
Definition CloseGraceful_finish (acked : bool) : M unit :=
  modify (fun c => Close (if acked then c else clearClosing c)).

(** ** Receiving *)

Inductive recvAction : Type :=
| actDeliver (err : option error)
| actEmitError (code : Z) (err : error)
| actCloseAck
| actPeerError (err : error).

(** What [recvLocked] returns: channel, frame type, plaintext and action. *)
Definition received : Type := Z * Z * bytes * recvAction.

Definition deliver (ch ft : Z) (pt : bytes) : received := (ch, ft, pt, actDeliver None).
Definition failed (e : error) : received := (0, 0, [], actDeliver (Some e)).
Definition reject (code : Z) (e : error) : received := (0, 0, [], actEmitError code e).

Definition handleKeyUpdate (channel : Z) (st : epochKeys) (plaintext : bytes) : M unit :=
  next ← lift (map_err (fun _ => errKeyUpdateOutOfOrder) (parseKeyUpdateMarker plaintext));
  guard_err (negb (next =? u64 (k_epoch st + 1))) errKeyUpdateOutOfOrder;;
  c ← get;
  let '(st', r) := advance st (masterRecv c) (recvDir c) channel (c_profile c) in
  putRecv channel st';;
  lift r;;
  spawn (TKeyUpdateAck channel next).

Definition advanceRecvRoot (nr : bytes) (target : Z) : M unit := modify (set_recvRoot nr target ∅).

Definition handleMasterRatchet (plaintext : bytes) : M unit :=
  next ← lift (parseRatchetGenMarker plaintext);
  c ← get;
  guard_err (negb (next =? u64 (genRecv c + 1))) ErrGenMismatch;;
  nr ← lift (RatchetMasterTier1 (masterRecv c) next (c_profile c));
  advanceRecvRoot nr next;;
  spawn (TMasterRatchetAck next).

Definition handleReKEM (plaintext : bytes) : M unit :=
  '(kemShare, target) ← lift (parseReKEM plaintext);
  spawn (TRespondReKEM kemShare target).

(** The pending state is consumed whatever follows. *)
Definition handleReKEMAck (plaintext : bytes) : M unit :=
  '(kemCT, gen) ← lift (parseReKEMAck plaintext);
  c ← get;
  modify (fun c => set_pending None (pendingKUAck c) (pendingMRAck c) c);;
  match c_pendingReKEM c with
  | None => fail errUnsolicitedReKEMAck
  | Some pend =>
      guard_err (negb (gen =? u64 (genRecv c + 1)) || negb (gen =? pr_targetGen pend)) ErrGenMismatch;;
      ss ← lift (KEMClient_SharedSecrets (pr_client pend) kemCT);
      th ← lift (thRekem (c_profile c) (pr_kemShare pend) kemCT gen);
      nr ← lift (RatchetMasterTier2 (masterRecv c) (Combined ss) th (c_profile c));
      advanceRecvRoot nr gen
  end.

(** A control handler inside the receive loop: [None] is [continue]. *)
Definition handled (m : M unit) (on_err : error -> received) : M (option received) :=
  r ← attempt m;
  mret (match r with Ok _ => None | Err e => Some (on_err e) end).

(** A control frame type that only has its meaning on the Control channel. *)
Definition on_control (ch ft : Z) (pt : bytes) (m : M (option received)) : M (option received) :=
  if ch =? ChanControl then m else mret (Some (deliver ch ft pt)).

(** Whether the expected entry was there. *)
Definition consume (f : Conn -> Conn * bool) : M bool := fun c => let '(c', b) := f c in (c', [], Ok b).

(** The dispatch on an authenticated, in-sequence frame. *)
Definition dispatch (st : epochKeys) (ch ft : Z) (pt : bytes) : M (option received) :=
  if ft =? FrameKeyUpdate then
    handled (handleKeyUpdate ch st pt) (fun e =>
      if bool_decide (e = errKeyUpdateOutOfOrder) then reject ErrCodeKeyUpdateOutOfOrder e else failed e)
  else if ft =? FrameKeyUpdateAck then
    match parseKeyUpdateMarker pt with
    | Err _ => mret (Some (reject ErrCodeKeyUpdateOutOfOrder errKeyUpdateOutOfOrder))
    | Ok epoch =>
        ok ← consume (consumePendingKeyUpdateAck ch epoch);
        mret (if ok : bool then None else Some (reject ErrCodeUnexpectedMessage ErrUnsolicitedAck))
    end
  else if ft =? FrameMasterRatchet then
    on_control ch ft pt (handled (handleMasterRatchet pt) failed)
  else if ft =? FrameMasterRatchetAck then
    on_control ch ft pt
      match parseRatchetGenMarker pt with
      | Err e => mret (Some (failed e))
      | Ok gen =>
          ok ← consume (consumePendingRatchetAck gen);
          mret (if ok : bool then None else Some (reject ErrCodeUnexpectedMessage ErrUnsolicitedAck))
      end
  else if ft =? FrameReKEM then
    on_control ch ft pt (handled (handleReKEM pt) failed)
  else if ft =? FrameReKEMAck then
    on_control ch ft pt (handled (handleReKEMAck pt) (fun e =>
      if bool_decide (e = errUnsolicitedReKEMAck) then reject ErrCodeUnexpectedMessage e else failed e))
  else if ft =? FrameClose then
    on_control ch ft pt
      (if negb (blen pt =? 0) then mret (Some (reject ErrCodeUnexpectedMessage ErrClosePayload))
       else mret (Some (0, 0, [], actCloseAck)))
  else if ft =? FrameCloseAck then
    on_control ch ft pt
      (ok ← consume signalCloseAck;
       mret (Some (if ok : bool then failed ErrPeerClosed
                   else reject ErrCodeUnexpectedMessage ErrUnsolicitedAck)))
  else if ft =? FrameError then
    on_control ch ft pt
      match DecodeErrorBody pt with
      | Err e => mret (Some (failed e))
      | Ok (code, ectx) => mret (Some (0, 0, [], actPeerError (ErrSessionError code ectx)))
      end
  else if ch =? ChanControl then
    mret (Some (reject ErrCodeUnexpectedMessage ErrUnexpectedFrame))
  else mret (Some (deliver ch ft pt)).

Definition drop_unauthenticated (c : Conn) : Conn :=
  set_drops (u64 (droppedUnauthenticated c + 1)) (droppedOutOfSequence c) c.
Definition drop_out_of_sequence (c : Conn) : Conn :=
  set_drops (droppedUnauthenticated c) (u64 (droppedOutOfSequence c + 1)) c.

(** One iteration of the receive loop on a frame read from the wire. *)
Definition recv_frame (wire : bytes) : M (option received) :=
  match UnmarshalBinary wire with
  | Err e => mret (Some (failed e))
  | Ok f =>
      if Z.land (Flags f) FlagENC =? 0 then modify drop_unauthenticated;; mret None
      else
        let ch := Channel f in
        r ← attempt (recvState ch);
        match r with
        | Err e => mret (Some (failed e))
        | Ok st =>
            if negb (Seq f =? k_seq st) then modify drop_out_of_sequence;; mret None
            else
              match openWith st f with
              | Err _ => modify drop_unauthenticated;; mret None
              | Ok pt =>
                  let st := bump st in
                  putRecv ch st;;
                  dispatch st ch (Type_ f) pt
              end
        end
  end.

(** The loop over the octets that arrive; an iteration consumes at least a
    header, so the length of the stream bounds the iterations.  The rest of the
    stream is what a later call reads. *)
Fixpoint recvLocked (fuel : nat) (stream : bytes) : M (received * bytes) :=
  match fuel with
  | O => mret (failed ErrEOF, stream)
  | S fuel =>
      match readFrame stream with
      | (Err e, rest) => mret (failed e, rest)
      | (Ok wire, rest) =>
          r ← recv_frame wire;
          match r with
          | Some x => mret (x, rest)
          | None => recvLocked fuel rest
          end
      end
  end.

(** The switch of [Recv] on what the loop returned. *)
Definition react (io : bool) (x : received) : M (result error (Z * Z * bytes)) :=
  let '(ch, ft, pt, act) := x in
  match act with
  | actEmitError code e => sendSessionError io code;; modify Close;; mret (Err e)
  | actCloseAck => sendCloseAck io;; modify Close;; mret (Err ErrPeerClosed)
  | actPeerError e => modify Close;; mret (Err e)
  | actDeliver (Some e) => mret (Err e)
  | actDeliver None => mret (Ok (ch, ft, pt))
  end.

(** [Recv]: the loop, then the reaction that seals on the send direction. *)
Definition Recv (io : bool) (stream : bytes) : M (result error (Z * Z * bytes) * bytes) :=
  '(x, rest) ← recvLocked (S (length stream)) stream;
  r ← react io x;
  mret (r, rest).
End operations.
