(* ===== verification/ConnLogic.v ===== *)
(** * A program logic for session operations

    Triples over the operation monad of [Conn.v].  A triple [triple P m Q E] says:
    from a state and a log of sent frames satisfying [P], running [m] ends in [Q] of
    its result, the new state and the extended log, or, on an error, in [E].  The
    invariants of the session are proved with the rules below, one rule per
    combinator. *)

From S2P Require Import Prelude Errors Crypto Conn.
From stdpp Require Import gmap.
Open Scope Z_scope.

Definition assertion : Type := Conn -> list sent -> Prop.

Definition triple {A} (P : assertion) (m : M A) (Q : A -> assertion) (E : assertion) : Prop :=
  forall c log, P c log ->
    match m c with
    | (c', out, Ok a) => Q a c' (log ++ out)
    | (c', out, Err _) => E c' (log ++ out)
    end.

(** An invariant kept on every exit. *)
Definition preserves {A} (I : assertion) (m : M A) : Prop := triple I m (fun _ => I) I.

Implicit Types (P E : assertion).

Lemma triple_ret {A} P E (a : A) (Q : A -> assertion) :
  (forall c log, P c log -> Q a c log) -> triple P (mret a) Q E.
Proof. intros H c log Hp. cbn. rewrite app_nil_r. by apply H. Qed.

Lemma triple_bind {A B} P E (R : A -> assertion) (Q : B -> assertion) (m : M A) (f : A -> M B) :
  triple P m R E -> (forall a, triple (R a) (f a) Q E) -> triple P (m ≫= f) Q E.
Proof.
  intros Hm Hf c log Hp. specialize (Hm c log Hp). unfold mbind, M_bind.
  destruct (m c) as [[c1 o1] [a|e]]; [|done]. specialize (Hf a c1 _ Hm).
  destruct (f a c1) as [[c2 o2] [b|e]]; by rewrite app_assoc.
Qed.

Lemma triple_conseq {A} P P' E E' (Q Q' : A -> assertion) (m : M A) :
  triple P' m Q' E' ->
  (forall c log, P c log -> P' c log) -> (forall a c log, Q' a c log -> Q a c log) ->
  (forall c log, E' c log -> E c log) -> triple P m Q E.
Proof.
  intros Hm HP HQ HE c log Hp. specialize (Hm c log (HP _ _ Hp)).
  destruct (m c) as [[c1 o1] [a|e]]; auto.
Qed.

Lemma triple_pre {A} P P' E (Q : A -> assertion) (m : M A) :
  (forall c log, P c log -> P' c log) -> triple P' m Q E -> triple P m Q E.
Proof. intros HP Hm. by eapply triple_conseq. Qed.

(** The state read is the current one. *)
Lemma triple_get {A} P E (f : Conn -> M A) (Q : A -> assertion) :
  (forall c0, triple (fun c log => P c log /\ c = c0) (f c0) Q E) -> triple P (get ≫= f) Q E.
Proof.
  intros Hf c log Hp. specialize (Hf c c log (conj Hp eq_refl)). unfold mbind, M_bind, get.
  destruct (f c c) as [[c2 o2] [b|e]]; done.
Qed.

Lemma triple_modify P E (g : Conn -> Conn) (Q : unit -> assertion) :
  (forall c log, P c log -> Q tt (g c) log) -> triple P (modify g) Q E.
Proof. intros H c log Hp. cbn. rewrite app_nil_r. by apply H. Qed.

Lemma triple_fail {A} P E e (Q : A -> assertion) :
  (forall c log, P c log -> E c log) -> triple P (fail e) Q E.
Proof. intros H c log Hp. cbn. rewrite app_nil_r. by apply H. Qed.

Lemma triple_lift {A} P E (r : result error A) (Q : A -> assertion) :
  (forall c log a, r = Ok a -> P c log -> Q a c log) -> (forall c log, P c log -> E c log) ->
  triple P (lift r) Q E.
Proof. intros H1 H2 c log Hp. cbn. rewrite app_nil_r. destruct r; auto. Qed.

Lemma triple_guard P E b e (Q : unit -> assertion) :
  (forall c log, b = false -> P c log -> Q tt c log) -> (forall c log, P c log -> E c log) ->
  triple P (guard_err b e) Q E.
Proof. intros H1 H2. unfold guard_err. destruct b; [by apply triple_fail|apply triple_ret; auto]. Qed.

Lemma triple_on_error {A} P E E' (m : M A) cleanup (Q : A -> assertion) :
  triple P m Q E' -> (forall c log, E' c log -> E (cleanup c) log) ->
  triple P (on_error m cleanup) Q E.
Proof.
  intros Hm HE c log Hp. specialize (Hm c log Hp). unfold on_error.
  destruct (m c) as [[c1 o1] [a|e]]; auto.
Qed.

Lemma triple_attempt {A} P E (m : M A) (Q : result error A -> assertion) (E' : assertion) :
  triple P m (fun a => Q (Ok a)) E' -> (forall e c log, E' c log -> Q (Err e) c log) ->
  triple P (attempt m) Q E.
Proof.
  intros Hm HE c log Hp. specialize (Hm c log Hp). unfold attempt.
  destruct (m c) as [[c1 o1] [a|e]]; auto.
Qed.

Lemma triple_if {A} (b : bool) P E (m1 m2 : M A) (Q : A -> assertion) :
  (b = true -> triple P m1 Q E) -> (b = false -> triple P m2 Q E) ->
  triple P (if b then m1 else m2) Q E.
Proof. destruct b; auto. Qed.

Lemma triple_consume P E (g : Conn -> Conn * bool) (Q : bool -> assertion) :
  (forall c log, P c log -> Q (g c).2 (g c).1 log) -> triple P (consume g) Q E.
Proof.
  intros Hg c log Hp. specialize (Hg c log Hp). unfold consume.
  destruct (g c). cbn. by rewrite app_nil_r.
Qed.

(** A write: either the frame is appended to the log, or nothing happened. *)
Lemma triple_writeSealed P E io st channel wire Q :
  (forall c log, P c log ->
     Q tt c (log ++ [mkSent (genSend c) channel (k_epoch st) (k_seq st) wire])) ->
  (forall c log, P c log -> E c log) ->
  triple P (writeSealed io st channel wire) Q E.
Proof.
  intros H1 H2 c log Hp. unfold writeSealed, writeWire, guard_err, get, mbind, M_bind. cbn.
  destruct (blen wire <? _); [cbn; rewrite app_nil_r; by apply H2|].
  destruct (maxFrameSize <? _); [cbn; rewrite app_nil_r; by apply H2|]. cbn.
  destruct (io && _); cbn; [by apply H1|]. rewrite app_nil_r. by apply H2.
Qed.

(** ** Invariants of part of the state

    Most invariants look at some fields only; an operation that leaves those
    fields alone and sends nothing keeps them. *)

Definition quiet {A X} (view : Conn -> X) (m : M A) : Prop :=
  forall c, match m c with (c', out, _) => view c' = view c /\ out = [] end.

Section quiet.
Context {X : Type} (view : Conn -> X).

Lemma quiet_ret {A} (a : A) : quiet view (mret a).
Proof. done. Qed.

Lemma quiet_bind {A B} (m : M A) (f : A -> M B) :
  quiet view m -> (forall a, quiet view (f a)) -> quiet view (m ≫= f).
Proof.
  intros Hm Hf c. specialize (Hm c). unfold mbind, M_bind.
  destruct (m c) as [[c1 o1] [a|e]]; [|done]. destruct Hm as [Hv ->]. specialize (Hf a c1).
  destruct (f a c1) as [[c2 o2] r]. destruct Hf as [Hv2 ->]. split; [congruence|done].
Qed.

Lemma quiet_get : quiet view get.
Proof. done. Qed.

Lemma quiet_lift {A} (r : result error A) : quiet view (lift r).
Proof. done. Qed.

Lemma quiet_fail {A} e : quiet view (fail (A := A) e).
Proof. done. Qed.

Lemma quiet_guard b e : quiet view (guard_err b e).
Proof. by destruct b. Qed.

Lemma quiet_modify g : (forall c, view (g c) = view c) -> quiet view (modify g).
Proof. done. Qed.

Lemma quiet_attempt {A} (m : M A) : quiet view m -> quiet view (attempt m).
Proof. intros Hm c. specialize (Hm c). unfold attempt. by destruct (m c) as [[c1 o1] r]. Qed.

Lemma quiet_consume g : (forall c, view (g c).1 = view c) -> quiet view (consume g).
Proof. intros Hg c. specialize (Hg c). unfold consume. by destruct (g c). Qed.

Lemma quiet_triple {A} (I : X -> list sent -> Prop) (m : M A) :
  quiet view m -> preserves (fun c log => I (view c) log) m.
Proof.
  intros Hm c log HI. specialize (Hm c). destruct (m c) as [[c1 o1] r]. destruct Hm as [Hv ->].
  rewrite app_nil_r, Hv. by destruct r.
Qed.
End quiet.

#[export] Hint Resolve quiet_ret quiet_get quiet_lift quiet_fail quiet_guard : npamp.

(** Splits a [quiet] goal along the program. *)
Ltac quiet_step :=
  first
    [ apply quiet_ret | apply quiet_get | apply quiet_lift | apply quiet_fail | apply quiet_guard
    | apply quiet_attempt | apply quiet_bind; [|intros ?]
    | apply quiet_modify; intros ?; done
    | match goal with |- quiet _ (match ?x with _ => _ end) => destruct x end
    | match goal with |- quiet _ (if ?x then _ else _) => destruct x end ].

(** ** The frame rule: a field an operation does not touch keeps its value *)

Definition keeps {A X} (f : Conn -> X) (m : M A) : Prop :=
  forall c, match m c with (c', _, Ok _) => f c' = f c | _ => True end.

Lemma triple_frame {A X} (f : Conn -> X) (v : X) P E (m : M A) (Q : A -> assertion) :
  keeps f m -> triple P m Q E ->
  triple (fun c log => P c log /\ f c = v) m (fun a c log => Q a c log /\ f c = v) E.
Proof.
  intros Hk Hm c log [Hp Hv]. specialize (Hm c log Hp). specialize (Hk c).
  destruct (m c) as [[c1 o1] [a|e]]; [|done]. split; [done|congruence].
Qed.

Lemma keeps_modify {X} (f : Conn -> X) g : (forall c, f (g c) = f c) -> keeps f (modify g).
Proof. intros Hg c. apply Hg. Qed.

Lemma keeps_writeSealed {X} (f : Conn -> X) io st ch wire : keeps f (writeSealed io st ch wire).
Proof.
  intros c. unfold writeSealed, writeWire, guard_err, get, mbind, M_bind. cbn.
  destruct (blen wire <? _); [done|]. destruct (maxFrameSize <? _); [done|]. cbn. by destruct (io && _).
Qed.

Lemma keeps_on_error {A X} (f : Conn -> X) (m : M A) g : keeps f m -> keeps f (on_error m g).
Proof.
  intros Hm c. specialize (Hm c). unfold on_error. by destruct (m c) as [[c1 o1] [a|e]].
Qed.

Lemma keeps_sendState `{Crypto} {X} (f : Conn -> X) ch :
  (forall c g, f (set_sendKeys g c) = f c) -> keeps f (sendState ch).
Proof.
  intros Hf c. unfold sendState, get, mbind, M_bind. cbn. destruct (closed c); [done|].
  destruct (sendKeys c !! ch); [done|]. cbn. by destruct (derive _ _ _ _ _); cbn.
Qed.

(** ** Inversion of a successful run *)

Lemma run_bind {A B} (m : M A) (f : A -> M B) c c' out b :
  (m ≫= f) c = (c', out, Ok b) ->
  exists c1 o1 a o2, m c = (c1, o1, Ok a) /\ f a c1 = (c', o2, Ok b) /\ out = o1 ++ o2.
Proof.
  unfold mbind, M_bind. destruct (m c) as [[c1 o1] [a|e]]; [|done].
  destruct (f a c1) as [[c2 o2] r] eqn:E. intros [= <- <- ->]. by exists c1, o1, a, o2.
Qed.

Lemma run_guard (b : bool) e c c' out u :
  guard_err b e c = (c', out, Ok u) -> b = false /\ c' = c /\ out = [].
Proof. unfold guard_err. destruct b; [done|]. by intros [= <- <- _]. Qed.

Lemma run_lift {A} (r : result error A) c c' out a :
  lift r c = (c', out, Ok a) -> r = Ok a /\ c' = c /\ out = [].
Proof. unfold lift. by intros [= <- <- ->]. Qed.

Lemma run_modify g c c' out u : modify g c = (c', out, Ok u) -> c' = g c /\ out = [].
Proof. unfold modify. by intros [= <- <-]. Qed.

Lemma run_get c c' out x : get c = (c', out, Ok x) -> x = c /\ c' = c /\ out = [].
Proof. unfold get. by intros [= <- <- <-]. Qed.

Lemma run_on_error {A} (m : M A) g c c' out a :
  on_error m g c = (c', out, Ok a) -> m c = (c', out, Ok a).
Proof. unfold on_error. by destruct (m c) as [[? ?] []]. Qed.

(** Splits a successful run [H] of a sequence into the runs of its steps. *)
Ltac run_inv H :=
  lazymatch type of H with
  | (_ ≫= _) _ = _ =>
      let c := fresh "c" in let o := fresh "o" in let a := fresh "a" in
      let o' := fresh "o" in let H1 := fresh "R" in
      apply run_bind in H as (c & o & a & o' & H1 & H & ->); run_inv H1; run_inv H
  | guard_err _ _ _ = _ => apply run_guard in H as (? & -> & ->)
  | lift _ _ = _ => apply run_lift in H as (? & -> & ->)
  | modify _ _ = _ => apply run_modify in H as (-> & ->)
  | get _ = _ => apply run_get in H as (-> & -> & ->)
  | on_error _ _ _ = _ => apply run_on_error in H; run_inv H
  | _ => idtac
  end.

(** ** Running forward *)

Lemma step_bind {A B} (m : M A) (f : A -> M B) c c1 c2 o1 o2 out a r :
  m c = (c1, o1, Ok a) -> f a c1 = (c2, o2, r) -> out = o1 ++ o2 -> (m ≫= f) c = (c2, out, r).
Proof. intros H1 H2 ->. unfold mbind, M_bind. by rewrite H1, H2. Qed.

Lemma step_guard (b : bool) e c : b = false -> guard_err b e c = (c, [], Ok tt).
Proof. by intros ->. Qed.

Lemma step_lift {A} (r : result error A) a c : r = Ok a -> lift r c = (c, [], Ok a).
Proof. by intros ->. Qed.

Lemma step_on_error {A} (m : M A) g c c' out a :
  m c = (c', out, Ok a) -> on_error m g c = (c', out, Ok a).
Proof. intros Hm. unfold on_error. by rewrite Hm. Qed.

Lemma step_attempt {A} (m : M A) c c' out r : m c = (c', out, r) -> attempt m c = (c', out, Ok r).
Proof. intros Hm. unfold attempt. by rewrite Hm. Qed.

(** Runs the first step of a sequence with the given tactic; the output equations
    are left for the end. *)
Tactic Notation "step" "by" tactic3(tac) := eapply step_bind; [solve [tac]| |].
