(* ===== verification/ConnLive.v ===== *)
(** * Live connections make progress

    On an open connection of the standard profile over a transport that takes its
    octets, deriving, sealing and writing cannot fail: [Send], [KeyUpdate] and
    [RatchetSend] succeed, and their results are given exactly. *)

From S2P Require Import Prelude Errors Registry Sha256 Crypto Tlv Frame Aead Kem KeySchedule Transcript.
From S2P Require Import Handshake Cbor ErrorFrame Conn ConnLogic.
From Stdlib Require Import Strings.Byte.
From stdpp Require Import gmap.
Open Scope Z_scope.

(** The key a direction uses on a channel: the cached one, else the one derived on
    first use. *)
Definition send_key (c : Conn) (ch : Z) : result error epochKeys :=
  match sendKeys c !! ch with
  | Some st => Ok st
  | None => derive zeroKeys (masterSend c) (sendDir c) ch (c_profile c)
  end.

Definition recv_key (c : Conn) (ch : Z) : result error epochKeys :=
  match recvKeys c !! ch with
  | Some st => Ok st
  | None => derive zeroKeys (masterRecv c) (recvDir c) ch (c_profile c)
  end.

(** ** The standard profile always derives *)

Lemma expand_standard secret label ctx n :
  0 <= n <= 255 * 32 -> exists k, HkdfExpandLabel secret label ctx n SHA256 = Ok k.
Proof. intros Hn. destruct (HkdfExpandLabel_ok secret label ctx n SHA256 _) as (k & Hk & _); [done|]. by exists k. Qed.

Lemma derive_standard k master dir ch : exists st, derive k master dir ch ProfileStandard = Ok st.
Proof.
  unfold derive, DeriveTrafficSecret, DeriveKeyIV. change (hashForProfile ProfileStandard) with (Ok (E := error) SHA256).
  cbn [mbind result_bind]. change (hash_len SHA256) with 32.
  destruct (expand_standard master (str "traffic") (traffic_context dir (k_epoch k) AEADAES256GCM ch) 32) as (ts & ->); [lia|].
  cbn [mbind result_bind]. destruct (expand_standard ts (str "key") [] 32) as (key & ->); [lia|].
  destruct (expand_standard ts (str "iv") [] 12) as (iv & ->); [lia|]. cbn [mbind result_bind]. by eexists.
Qed.

Lemma tier1_standard master gen : exists nr, RatchetMasterTier1 master gen ProfileStandard = Ok nr.
Proof.
  unfold RatchetMasterTier1. change (hashForProfile ProfileStandard) with (Ok (E := error) SHA256).
  cbn [mbind result_bind]. change (hash_len SHA256) with 32. apply expand_standard. lia.
Qed.

Lemma tier2_standard master ss th : exists nr, RatchetMasterTier2 master ss th ProfileStandard = Ok nr.
Proof.
  unfold RatchetMasterTier2. change (hashForProfile ProfileStandard) with (Ok (E := error) SHA256).
  cbn [mbind result_bind]. change (hash_len SHA256) with 32. apply expand_standard. lia.
Qed.

Lemma thRekem_standard share ct gen : exists th, thRekem ProfileStandard share ct gen = Ok th.
Proof. by eexists. Qed.

Section live.
Context `{CryptoLaws}.

(** The plaintext of a frame that fits the cap fits the length field. *)
Lemma seal_length st ch ft pt wire :
  sealWith st ch ft pt = Ok wire -> blen wire = HeaderSize + blen pt + 16.
Proof.
  unfold sealWith, SealAES256GCM. cbn [mbind result_bind]. intros Hs.
  set (sealed := gcm_seal _ _ _ _) in Hs.
  assert (wire = marshal (mkFrame 0 FlagENC ft ch (k_seq st) sealed)) as -> by (unfold marshal; congruence).
  rewrite blen_marshal. unfold frame_size. cbn [Payload]. unfold sealed. rewrite gcm_overhead. lia.
Qed.


(** An open connection of the standard profile over a live transport. *)
Definition live (c : Conn) : Prop :=
  closed c = false /\ rawClosed c = false /\ c_profile c = ProfileStandard.

(** Sealing and writing cannot fail on a live connection. *)
Lemma live_seal S ch ft pt :
  live S -> blen pt + 16 + HeaderSize <= MaxFrameSize ->
  exists st wire, send_key S ch = Ok st /\ sealWith st ch ft pt = Ok wire /\ blen wire <= MaxFrameSize /\
    sendState ch S = (set_sendKeys <[ch := st]> S, [], Ok st) /\
    forall S', genSend S' = genSend S -> rawClosed S' = false ->
      writeSealed true st ch wire S' = (S', [mkSent (genSend S) ch (k_epoch st) (k_seq st) wire], Ok tt).
Proof.
  intros (Hc & Hr & Hp) Hsz.
  assert (exists st, send_key S ch = Ok st) as (st & Hk).
  { unfold send_key. rewrite Hp. destruct (sendKeys S !! ch); [by eexists|apply derive_standard]. }
  assert (exists wire, sealWith st ch ft pt = Ok wire) as (wire & Hw) by (by eexists).
  pose proof (seal_length _ _ _ _ _ Hw) as Hl. exists st, wire.
  split; [done|]. split; [done|]. split; [lia|]. split.
  - unfold sendState, get, mbind, M_bind. rewrite Hc. unfold send_key in Hk.
    destruct (sendKeys S !! ch) as [st0|] eqn:E.
    + injection Hk as ->. cbn. f_equal. f_equal. destruct S. unfold set_sendKeys. cbn in *. by rewrite insert_id.
    + unfold lift. rewrite Hk. reflexivity.
  - intros S' Hg Hr'. unfold writeSealed, writeWire, get, mbind, M_bind, guard_err. cbn [s_wire].
    pose proof (blen_nonneg pt).
    rewrite (proj2 (Z.ltb_ge _ HeaderSize)) by lia.
    rewrite (proj2 (Z.ltb_ge maxFrameSize _)) by (unfold maxFrameSize; lia). cbn. by rewrite Hr', Hg.
Qed.

Lemma tlv_marker_size typ v : blen (TLV_Encode (mkTLV typ (be_put 8 v)) []) = 12.
Proof.
  unfold TLV_Encode. cbn [TLVType TLVValue]. rewrite app_nil_l, !blen_app, !blen_be_put. reflexivity.
Qed.

Lemma Send_live c ch ft pt st :
  live c -> send_key c ch = Ok st -> k_seq st <> maxSeq -> blen pt + 16 + HeaderSize <= MaxFrameSize ->
  exists wire, sealWith st ch ft pt = Ok wire /\
    Send true ch ft pt c =
      (set_sendKeys <[ch := bump st]> (set_sendKeys <[ch := st]> c),
       [mkSent (genSend c) ch (k_epoch st) (k_seq st) wire], Ok tt).
Proof.
  intros Hl Hk Hq Hf. destruct (live_seal c ch ft pt Hl Hf) as (st' & wire & Hk' & Hw & _ & Hss & Hwr).
  rewrite Hk in Hk'. injection Hk' as <-. exists wire. split; [exact Hw|]. destruct Hl as (_ & Hraw & _).
  unfold Send, sendLocked. step by exact Hss. step by (by apply step_guard, Z.eqb_neq).
  step by (by apply step_lift). step by (by apply Hwr). reflexivity. all: reflexivity.
Qed.

Lemma KeyUpdate_live c ch st :
  live c -> send_key c ch = Ok st ->
  exists c' s st', KeyUpdate true ch c = (c', [s], Ok tt) /\ live c' /\
    sendKeys c' = <[ch := st']> (sendKeys c) /\ k_seq st' = 0.
Proof.
  intros Hl Hk. set (announced := u64 (k_epoch st + 1)).
  destruct (live_seal c ch FrameKeyUpdate (keyUpdateMarker announced) Hl) as (st' & wire & Hk' & Hw & _ & Hss & Hwr).
  { unfold keyUpdateMarker. rewrite tlv_marker_size. by vm_compute. }
  rewrite Hk in Hk'. injection Hk' as <-. pose proof Hl as (Hc & Hraw & Hp).
  destruct (derive_standard (mkKeys announced (replicate 32 x00) (replicate 12 x00) 0) (masterSend c)
    (sendDir c) ch) as (st1 & Hd).
  assert (k_seq st1 = 0) as Hq.
  { unfold derive in Hd. apply bind_Ok in Hd as (ts & _ & Hd). by apply bind_Ok in Hd as ([? ?] & _ & [= <-]). }
  assert (advance (bump st) (masterSend c) (sendDir c) ch (c_profile c) = (st1, Ok tt)) as Ha
    by (unfold advance; rewrite Hp; cbn -[derive u64 replicate]; fold announced; by rewrite Hd).
  eexists _, _, st1. split.
  - unfold KeyUpdate. step by exact Hss. step by (apply step_lift; exact Hw). step by reflexivity.
    step by (apply step_on_error; by apply Hwr). step by reflexivity. step by reflexivity.
    cbn [masterSend sendDir c_profile set_sendKeys addPendingKeyUpdateAck set_pending].
    rewrite Ha. step by reflexivity. reflexivity. all: reflexivity.
  - split; [exact Hl|]. split; [|exact Hq].
    cbn [sendKeys set_sendKeys addPendingKeyUpdateAck set_pending]. by rewrite !insert_insert_eq.
Qed.

Lemma RatchetSend_live c st :
  live c -> send_key c ChanControl = Ok st -> k_seq st <> maxSeq ->
  exists c' s, RatchetSend true c = (c', [s], Ok tt) /\ live c' /\ sendKeys c' = ∅.
Proof.
  intros Hl Hk Hq. set (target := u64 (genSend c + 1)).
  destruct (live_seal c ChanControl FrameMasterRatchet (ratchetGenMarker target) Hl)
    as (st' & wire & Hk' & Hw & _ & Hss & Hwr).
  { unfold ratchetGenMarker. rewrite tlv_marker_size. by vm_compute. }
  rewrite Hk in Hk'. injection Hk' as <-. pose proof Hl as (Hc & Hraw & Hp).
  destruct (tier1_standard (masterSend c) target) as (nr & Hnr). rewrite <- Hp in Hnr.
  eexists _, _. split.
  - unfold RatchetSend. step by reflexivity. step by (by apply step_guard). step by exact Hss.
    step by (by apply step_guard, Z.eqb_neq). step by (apply step_lift; exact Hw). step by reflexivity.
    step by (apply step_on_error; by apply Hwr). step by reflexivity. step by (apply step_lift; exact Hnr).
    reflexivity. all: reflexivity.
  - split; [exact Hl|reflexivity].
Qed.

(** A fresh connection derives its first key on every channel at sequence 0. *)
Lemma fresh_key c ch :
  live c -> sendKeys c !! ch = None -> exists st, send_key c ch = Ok st /\ k_epoch st = 0 /\ k_seq st = 0.
Proof.
  intros (_ & _ & Hp) Hn. unfold send_key. rewrite Hn, Hp.
  destruct (derive_standard zeroKeys (masterSend c) (sendDir c) ch) as (st & Hd). exists st. split; [done|].
  unfold derive in Hd. apply bind_Ok in Hd as (ts & _ & Hd). by apply bind_Ok in Hd as ([? ?] & _ & [= <-]).
Qed.
End live.

(** The two ends of a session over a toy master secret. *)
Definition client_conn : Conn := newConn (str "master") [] DirClientToServer DirServerToClient.
Definition server_conn : Conn := newConn (str "master") [] DirServerToClient DirClientToServer.
