(* ===== verification/ConnNonce.v ===== *)
(** * No nonce is used twice

    Every frame an endpoint writes is sealed under the key of a (generation,
    channel, epoch) with the sequence number as nonce input.  This file proves, for
    every sequence of operations and every interleaving of the acknowledgement
    goroutines, that no two written frames share these coordinates, as long as
    fewer than 2^64 - 1 frames are written; and that the bound is needed, because
    the acknowledgement paths seal without the exhaustion guard of [Send]. *)

From S2P Require Import Prelude Errors Registry Crypto Tlv Frame Aead Kem KeySchedule Handshake.
From S2P Require Import Cbor ErrorFrame Conn ConnLogic ConnLive.
From Stdlib Require Import Strings.Byte.
From stdpp Require Import gmap.
Open Scope Z_scope.

Definition coords (s : sent) : Z * Z * Z * Z := (s_gen s, s_channel s, s_epoch s, s_seq s).

Definition counters (k : epochKeys) : Z * Z := (k_epoch k, k_seq k).

(** Everything logged under the current generation is strictly behind the
    counters of its channel; counters never run ahead of the number of frames. *)
Definition counters_inv (gen : Z) (ks : gmap Z (Z * Z)) (log : list sent) : Prop :=
  NoDup (coords <$> log) /\
  0 <= gen <= blen log /\
  (forall ch e q, ks !! ch = Some (e, q) -> 0 <= e <= blen log /\ 0 <= q <= blen log) /\
  (forall s, s ∈ log -> 0 <= s_seq s < 2 ^ 64 /\ s_gen s <= gen /\
     (s_gen s = gen -> exists e q, ks !! s_channel s = Some (e, q) /\
        (s_epoch s < e \/ s_epoch s = e /\ s_seq s < q))).

Lemma counters_inv_fresh gen ks log ch :
  counters_inv gen ks log -> ks !! ch = None -> counters_inv gen (<[ch := (0, 0)]> ks) log.
Proof.
  intros (Hn & Hg & Hk & Hl) Hch. split_and!; [done|lia|lia| |].
  - intros ch' e q. rewrite lookup_insert. case_decide; [intros [= <- <-]; pose proof (blen_nonneg log); lia|apply Hk].
  - intros s Hs. destruct (Hl s Hs) as (Hq & Hsg & Hc). split_and!; [lia|lia|lia|]. intros E.
    destruct (Hc E) as (e & q & Hlk & ?). exists e, q. split; [|done].
    rewrite lookup_insert_ne; [done|]. congruence.
Qed.

Lemma counters_inv_write gen ks log ch e q w :
  counters_inv gen ks log -> ks !! ch = Some (e, q) -> blen log < 2 ^ 64 - 1 ->
  counters_inv gen (<[ch := (e, u64 (q + 1))]> ks) (log ++ [mkSent gen ch e q w]).
Proof.
  intros (Hn & Hg & Hk & Hl) Hch Hb. destruct (Hk _ _ _ Hch) as [He Hq].
  assert (u64 (q + 1) = q + 1) as -> by (apply u64_id; unfold is_u64; lia).
  assert (blen (log ++ [mkSent gen ch e q w]) = blen log + 1) as Hlen
    by (rewrite blen_app; done). unfold counters_inv. rewrite Hlen, fmap_app. split_and!; [|lia|lia| |].
  - apply NoDup_app. split_and!; [done| |apply NoDup_singleton].
    intros x Hx ->%list_elem_of_singleton. apply list_elem_of_fmap in Hx as (s & Heq & Hs).
    injection Heq as E1 E2 E3 E4. destruct (Hl s Hs) as (_ & _ & Hc).
    destruct (Hc (eq_sym E1)) as (e' & q' & Hlk & Hlt). rewrite <- E2, Hch in Hlk.
    injection Hlk as <- <-. lia.
  - intros ch' e' q'. rewrite lookup_insert. case_decide; [intros [= <- <-]; lia|].
    intros Hlk. destruct (Hk _ _ _ Hlk). lia.
  - intros s Hs. apply elem_of_app in Hs as [Hs| ->%list_elem_of_singleton].
    + destruct (Hl s Hs) as (Hsq & Hsg & Hc). split_and!; [lia|lia|lia|]. intros E.
      destruct (Hc E) as (e' & q' & Hlk & Hlt). rewrite lookup_insert. case_decide as Hd.
      * subst ch. rewrite Hch in Hlk. injection Hlk as <- <-. exists e, (q + 1). split; [done|lia].
      * eauto.
    + cbn. split_and!; [lia|lia|lia|]. intros _. rewrite lookup_insert_eq. exists e, (q + 1).
      split; [done|lia].
Qed.

Lemma counters_inv_advance gen ks log ch e q :
  counters_inv gen ks log -> ks !! ch = Some (e, q) -> e < blen log -> blen log < 2 ^ 64 ->
  counters_inv gen (<[ch := (u64 (e + 1), 0)]> ks) log.
Proof.
  intros (Hn & Hg & Hk & Hl) Hch Hb Hmax. destruct (Hk _ _ _ Hch) as [He Hq].
  assert (u64 (e + 1) = e + 1) as -> by (apply u64_id; unfold is_u64; lia).
  split_and!; [done|lia|lia| |].
  - intros ch' e' q'. rewrite lookup_insert. case_decide; [intros [= <- <-]; lia|apply Hk].
  - intros s Hs. destruct (Hl s Hs) as (Hsq & Hsg & Hc). split_and!; [lia|lia|lia|]. intros E.
    destruct (Hc E) as (e' & q' & Hlk & Hlt). rewrite lookup_insert. case_decide as Hd; [|eauto].
    subst ch. rewrite Hch in Hlk. injection Hlk as <- <-. exists (e + 1), 0. split; [done|lia].
Qed.

Lemma counters_inv_root gen ks log :
  counters_inv gen ks log -> gen < blen log -> blen log < 2 ^ 64 ->
  counters_inv (u64 (gen + 1)) ∅ log.
Proof.
  intros (Hn & Hg & Hk & Hl) Hb Hmax. rewrite u64_id by (unfold is_u64; lia).
  split_and!; [done|lia|lia| |].
  - intros ch e q. by rewrite lookup_empty.
  - intros s Hs. destruct (Hl s Hs) as (Hsq & Hsg & _). split_and!; [lia|lia|lia|]. lia.
Qed.

(** ** The invariant of a connection *)

Definition key_counters (c : Conn) : gmap Z (Z * Z) := counters <$> sendKeys c.

Definition send_view (c : Conn) : Z * gmap Z (Z * Z) := (genSend c, key_counters c).

Definition Inv : assertion := fun c log =>
  blen log < 2 ^ 64 - 1 -> counters_inv (genSend c) (key_counters c) log.

Lemma Inv_view c c' log : send_view c' = send_view c -> Inv c log -> Inv c' log.
Proof. intros [= Hg Hk] HI Hb. rewrite Hg, Hk. by apply HI. Qed.

Lemma view_Close c : send_view (Close c) = send_view c.
Proof.
  unfold Close. destruct (rawClosed c); [done|]. unfold send_view, key_counters. cbn. f_equal.
  rewrite <- map_fmap_compose. apply map_fmap_ext. by intros.
Qed.

Lemma view_Zeroize c : send_view (Zeroize c) = send_view c.
Proof.
  unfold send_view, key_counters. cbn. f_equal.
  rewrite <- map_fmap_compose. apply map_fmap_ext. by intros.
Qed.

Lemma Inv_Close c log : Inv c log -> Inv (Close c) log.
Proof. apply Inv_view, view_Close. Qed.

(** The channel's keys are cached. *)
Definition has_key (ch : Z) (st : epochKeys) (c : Conn) : Prop := sendKeys c !! ch = Some st.

(** A frame sealed under [st] has just been written; its counter is not yet
    advanced. *)
Definition written (ch : Z) (st : epochKeys) : assertion := fun c log =>
  has_key ch st c /\ exists log0 w, log = log0 ++ [mkSent (genSend c) ch (k_epoch st) (k_seq st) w] /\
  Inv c log0.

(** The counter is advanced; what a rotation or a ratchet step needs to know. *)
Definition bumped (ch : Z) (st : epochKeys) : assertion := fun c log =>
  Inv c log /\ has_key ch (bump st) c /\
  (blen log < 2 ^ 64 - 1 -> k_epoch st < blen log /\ genSend c < blen log).

Lemma derive_zero master dir ch p st :
  derive zeroKeys master dir ch p = Ok st -> counters st = (0, 0).
Proof.
  unfold derive. intros Hd. apply bind_Ok in Hd as (ts & _ & Hd).
  by apply bind_Ok in Hd as ([key iv] & _ & [= <-]).
Qed.

Section ops.
Context `{Crypto}.

Lemma triple_sendState ch :
  triple Inv (sendState ch) (fun st c log => Inv c log /\ has_key ch st c) Inv.
Proof.
  unfold sendState. apply triple_get. intros c0. destruct (closed c0).
  { apply triple_fail. by intros ? ? [? _]. }
  destruct (sendKeys c0 !! ch) as [st|] eqn:E.
  { apply triple_ret. intros c log [HI ->]. done. }
  eapply triple_bind; [apply triple_lift with (Q := fun st c log => (Inv c log /\ c = c0) /\ counters st = (0, 0))|].
  - intros c log st Hd HP. split; [done|]. by eapply derive_zero.
  - by intros ? ? [? _].
  - intros st. cbn. eapply triple_bind.
    + apply triple_modify with (Q := fun _ c log => Inv c log /\ has_key ch st c).
      intros c log [[HI ->] Hz]. split; [|apply lookup_insert_eq]. intros Hb. specialize (HI Hb).
      unfold key_counters. cbn. rewrite fmap_insert, Hz. apply counters_inv_fresh; [done|].
      by rewrite lookup_fmap, E.
    + intros []. by apply triple_ret.
Qed.

Lemma triple_write io ch st wire :
  triple (fun c log => Inv c log /\ has_key ch st c) (writeSealed io st ch wire)
    (fun _ => written ch st) Inv.
Proof.
  apply triple_writeSealed; [|by intros ? ? [? _]].
  intros c log [HI Hk]. split; [done|]. eauto.
Qed.

Lemma triple_bump ch st E : triple (written ch st) (putSend ch (bump st)) (fun _ => bumped ch st) E.
Proof.
  apply triple_modify. intros c log (Hk & log0 & w & -> & HI).
  assert (blen (log0 ++ [mkSent (genSend c) ch (k_epoch st) (k_seq st) w]) = blen log0 + 1) as Hlen
    by (by rewrite blen_app). unfold has_key in Hk.
  assert (key_counters c !! ch = Some (counters st)) as Hkc
    by (unfold key_counters; by rewrite lookup_fmap, Hk).
  unfold bumped, Inv. rewrite Hlen. split_and!.
  - intros Hb. specialize (HI ltac:(lia)). unfold key_counters. cbn [sendKeys genSend set_sendKeys].
    rewrite fmap_insert. apply counters_inv_write; [done|exact Hkc|lia].
  - apply lookup_insert_eq.
  - intros Hb. destruct (HI ltac:(lia)) as (_ & Hg & Hks & _). apply Hks in Hkc. cbn. lia.
Qed.

(** Operations that leave the counters alone. *)
Lemma triple_neutral {A} (m : M A) : quiet send_view m -> preserves Inv m.
Proof.
  intros Hm c log HI. specialize (Hm c). destruct (m c) as [[c1 o1] r]. destruct Hm as [Hv ->].
  rewrite app_nil_r. destruct r; by eapply Inv_view.
Qed.

(** Write, clean up on failure, advance the counter. *)
Lemma triple_write_cleanup io ch st wire cleanup :
  (forall c, send_view (cleanup c) = send_view c) ->
  triple (fun c log => Inv c log /\ has_key ch st c)
    (on_error (writeSealed io st ch wire) cleanup) (fun _ => written ch st) Inv.
Proof.
  intros Hc. eapply triple_on_error; [apply triple_write|]. intros c log. apply Inv_view, Hc.
Qed.

(** A change to the pending sets between reading the key and writing. *)
Lemma triple_register ch st g E :
  (forall c, send_view (g c) = send_view c /\ sendKeys (g c) = sendKeys c) ->
  triple (fun c log => Inv c log /\ has_key ch st c) (modify g)
    (fun _ c log => Inv c log /\ has_key ch st c) E.
Proof.
  intros Hg. apply triple_modify. intros c log [HI Hk]. destruct (Hg c) as [Hv Hs].
  split; [by eapply Inv_view|]. unfold has_key. by rewrite Hs.
Qed.

Lemma triple_pure {A} (r : result error A) (P : assertion) :
  (forall c log, P c log -> Inv c log) -> triple P (lift r) (fun _ => P) Inv.
Proof. intros HP. by apply triple_lift. Qed.

Lemma triple_check b e (P : assertion) :
  (forall c log, P c log -> Inv c log) -> triple P (guard_err b e) (fun _ => P) Inv.
Proof. intros HP. by apply triple_guard. Qed.

Lemma bumped_Inv ch st c log : bumped ch st c log -> Inv c log.
Proof. by intros [? _]. Qed.

Ltac keyed_tac := by intros ? ? [? _].

Lemma Send_inv io ch ft pl : preserves Inv (Send io ch ft pl).
Proof.
  unfold Send, sendLocked, preserves. eapply triple_bind; [apply triple_sendState|]. intros st. cbn beta.
  eapply triple_bind; [apply triple_check; keyed_tac|]. intros [].
  eapply triple_bind; [apply triple_pure; keyed_tac|]. intros wire.
  eapply triple_bind; [apply triple_write|]. intros [].
  eapply triple_conseq; [apply triple_bump|done|intros ? ?; apply bumped_Inv|done].
Qed.

Lemma reply_inv io ch ft pt g :
  (forall c, send_view (g c) = send_view c) -> preserves Inv (reply io ch ft pt g).
Proof.
  intros Hg. unfold reply, preserves. eapply triple_bind; [apply triple_sendState|]. intros st. cbn beta.
  eapply triple_bind; [apply triple_pure; keyed_tac|]. intros wire.
  eapply triple_bind; [by apply triple_write_cleanup|]. intros [].
  eapply triple_conseq; [apply triple_bump|done|intros ? ?; apply bumped_Inv|done].
Qed.

Lemma ignore_inv m : preserves Inv m -> preserves Inv (ignore m).
Proof.
  intros Hm. unfold ignore, preserves. eapply triple_bind.
  - by apply triple_attempt with (Q := fun _ => Inv) (E' := Inv).
  - intros r. by apply triple_ret.
Qed.

Lemma advance_counters k master dir ch p :
  counters (advance k master dir ch p).1 = (u64 (k_epoch k + 1), 0).
Proof.
  unfold advance. destruct (derive _ _ _ _ _) as [k'|e] eqn:E; [|done].
  unfold derive in E. apply bind_Ok in E as (ts & _ & E).
  by apply bind_Ok in E as ([key iv] & _ & [= <-]).
Qed.

Lemma KeyUpdate_inv io ch : preserves Inv (KeyUpdate io ch).
Proof.
  unfold KeyUpdate, preserves. eapply triple_bind; [apply triple_sendState|]. intros st. cbn beta zeta.
  eapply triple_bind; [apply triple_pure; keyed_tac|]. intros wire.
  eapply triple_bind; [by apply triple_register|]. intros [].
  eapply triple_bind.
  { apply triple_write_cleanup. intros c. unfold removePendingKeyUpdateAck.
    by destruct (pendingKUAck c !! ch). }
  intros []. eapply triple_bind; [apply triple_bump|]. intros [].
  apply triple_get. intros c0. pose proof (advance_counters (bump st) (masterSend c0) (sendDir c0) ch (c_profile c0)) as Ha.
  destruct (advance _ _ _ _ _) as [st' r]. cbn [fst] in Ha.
  eapply triple_bind.
  - apply triple_modify with (Q := fun _ => Inv). intros c log [(HI & Hk & Hb) ->] Hmax.
    specialize (HI Hmax). destruct (Hb Hmax) as [He _]. unfold key_counters. cbn. rewrite fmap_insert, Ha.
    eapply counters_inv_advance; [exact HI| |exact He|lia].
    unfold key_counters. by rewrite lookup_fmap, Hk.
  - intros []. by apply triple_lift.
Qed.

(** The root step after a boundary frame. *)
Lemma advanceSendRoot_inv ch st gen nr :
  triple (fun c log => bumped ch st c log /\ genSend c = gen)
    (advanceSendRoot nr (u64 (gen + 1))) (fun _ => Inv) Inv.
Proof.
  apply triple_modify. intros c log [(HI & Hk & Hb) <-] Hmax. specialize (HI Hmax).
  destruct (Hb Hmax) as [_ Hg]. unfold key_counters. cbn. rewrite fmap_empty.
  by eapply counters_inv_root; [exact HI|lia|lia].
Qed.

(** The common part of the operations that end with a root step: key, write,
    counter, with the generation unchanged. *)
Lemma triple_boundary io gen ch ft pt reg cleanup {A} (k : epochKeys -> M A) :
  (forall c, send_view (reg c) = send_view c /\ sendKeys (reg c) = sendKeys c) ->
  (forall c, send_view (cleanup c) = send_view c) ->
  (forall st, triple (fun c log => bumped ch st c log /\ genSend c = gen) (k st) (fun _ => Inv) Inv) ->
  forall st,
  triple (fun c log => (Inv c log /\ has_key ch st c) /\ genSend c = gen)
    (wire ← lift (sealWith st ch ft pt);
     modify reg;;
     on_error (writeSealed io st ch wire) cleanup;;
     putSend ch (bump st);;
     k st) (fun _ => Inv) Inv.
Proof.
  intros Hreg Hcl Hk st.
  eapply triple_bind; [apply triple_pure; by intros ? ? [[? _] _]|]. intros wire.
  eapply triple_bind.
  { apply (triple_frame genSend gen); [|by apply triple_register].
    apply keeps_modify. intros c. destruct (Hreg c) as [Hv _]. by injection Hv. }
  intros []. eapply triple_bind.
  { apply (triple_frame genSend gen); [apply keeps_on_error, keeps_writeSealed|].
    by apply triple_write_cleanup. }
  intros []. eapply triple_bind.
  { apply (triple_frame genSend gen); [by apply keeps_modify|]. apply triple_bump. }
  intros []. apply Hk.
Qed.

Lemma triple_sendState_gen ch gen :
  triple (fun c log => Inv c log /\ genSend c = gen) (sendState ch)
    (fun st c log => (Inv c log /\ has_key ch st c) /\ genSend c = gen) Inv.
Proof.
  apply (triple_frame genSend gen); [by apply keeps_sendState|]. apply triple_sendState.
Qed.

Lemma RatchetSend_inv io : preserves Inv (RatchetSend io).
Proof.
  unfold RatchetSend, preserves. apply triple_get. intros c0.
  eapply triple_pre with (P' := fun c log => Inv c log /\ genSend c = genSend c0);
    [by intros c log [? ->]|].
  eapply triple_bind; [apply triple_check; by intros ? ? [? _]|]. intros [].
  eapply triple_bind; [apply triple_sendState_gen|]. intros st. cbn beta.
  eapply triple_bind; [apply triple_check; by intros ? ? [[? _] _]|]. intros [].
  revert st. apply triple_boundary; [done|done|]. intros st.
  eapply triple_bind; [apply triple_pure; by intros ? ? [[? _] _]|]. intros nr.
  apply advanceSendRoot_inv.
Qed.

Lemma respondReKEM_inv io x rnd share target : preserves Inv (respondReKEM io x rnd share target).
Proof.
  apply ignore_inv. unfold preserves.
  eapply triple_bind; [by apply triple_pure|]. intros [ct ss].
  apply triple_get. intros c0.
  eapply triple_pre with (P' := fun c log => Inv c log /\ genSend c = genSend c0);
    [by intros c log [? ->]|].
  eapply triple_bind; [apply triple_pure; by intros ? ? [? _]|]. intros th.
  eapply triple_bind; [apply triple_check; by intros ? ? [? _]|]. intros [].
  destruct (Z.eqb_spec target (u64 (genSend c0 + 1))) as [->|Hne].
  2: { eapply triple_bind; [apply triple_guard with (Q := fun _ _ _ => False);
         [intros ? ? [=]|by intros ? ? [? _]]|]. by intros [] c log. }
  eapply triple_bind; [apply triple_check; by intros ? ? [? _]|]. intros [].
  eapply triple_bind; [apply triple_sendState_gen|]. intros st. cbn beta.
  eapply triple_bind; [apply triple_pure; by intros ? ? [[? _] _]|]. intros wire.
  eapply triple_bind.
  { apply (triple_frame genSend (genSend c0)); [apply keeps_on_error, keeps_writeSealed|].
    apply triple_write_cleanup, view_Close. }
  intros []. eapply triple_bind.
  { apply (triple_frame genSend (genSend c0)); [by apply keeps_modify|]. apply triple_bump. }
  intros []. eapply triple_bind.
  - eapply triple_on_error; [apply triple_pure; by intros ? ? [[? _] _]|]. apply Inv_Close.
  - intros nr. apply advanceSendRoot_inv.
Qed.

Lemma ReKEM_request_inv io client : preserves Inv (ReKEM_request io client).
Proof.
  unfold ReKEM_request, preserves. apply triple_get. intros c0.
  eapply triple_pre with (P' := Inv); [by intros c log [? _]|].
  eapply triple_bind; [by apply triple_check|]. intros [].
  eapply triple_bind; [apply triple_sendState|]. intros st. cbn beta.
  eapply triple_bind; [apply triple_check; keyed_tac|]. intros [].
  eapply triple_bind; [apply triple_pure; keyed_tac|]. intros wire.
  eapply triple_bind; [apply triple_write|]. intros [].
  eapply triple_bind; [apply triple_bump|]. intros [].
  apply triple_ret. intros c log. apply bumped_Inv.
Qed.

Lemma sendClose_inv io : preserves Inv (sendClose io).
Proof.
  unfold sendClose, preserves. apply triple_get. intros c0.
  eapply triple_pre with (P' := Inv); [by intros c log [? _]|].
  apply triple_if; intros _; [by apply triple_ret|].
  eapply triple_bind; [apply triple_sendState|]. intros st. cbn beta.
  eapply triple_bind; [apply triple_check; keyed_tac|]. intros [].
  eapply triple_bind; [apply triple_pure; keyed_tac|]. intros wire.
  eapply triple_bind; [by apply triple_register|]. intros [].
  eapply triple_bind; [by apply triple_write_cleanup|]. intros [].
  eapply triple_bind; [apply triple_bump|]. intros [].
  apply triple_ret. intros c log. apply bumped_Inv.
Qed.

Lemma CloseGraceful_start_inv io : preserves Inv (CloseGraceful_start io).
Proof.
  unfold CloseGraceful_start, preserves.
  eapply triple_bind; [apply triple_attempt with (Q := fun _ => Inv) (E' := Inv);
    [apply sendClose_inv|done]|].
  assert (triple Inv (modify Close;; mret false) (fun _ => Inv) Inv) as Hc.
  { eapply triple_bind; [apply triple_modify with (Q := fun _ => Inv); apply Inv_Close|].
    intros []. by apply triple_ret. }
  intros [[]|]; [by apply triple_ret|exact Hc|exact Hc].
Qed.

(** ** The receive path leaves the send counters alone *)

Lemma handleKeyUpdate_quiet ch st pt : quiet send_view (handleKeyUpdate ch st pt).
Proof. unfold handleKeyUpdate. repeat quiet_step. Qed.

Lemma dispatch_quiet st ch ft pt : quiet send_view (dispatch st ch ft pt).
Proof.
  assert (forall c, send_view (signalCloseAck c).1 = send_view c) as H1
    by (intros c; unfold signalCloseAck; by destruct (closing c)).
  assert (forall g c, send_view (consumePendingRatchetAck g c).1 = send_view c) as H2
    by (intros g c; unfold consumePendingRatchetAck; by case_bool_decide).
  assert (forall h e c, send_view (consumePendingKeyUpdateAck h e c).1 = send_view c) as H3.
  { intros h e c. unfold consumePendingKeyUpdateAck. destruct (pendingKUAck c !! h); [|done].
    by destruct (_ =? 0). }
  unfold dispatch, on_control, handled, handleMasterRatchet, handleReKEM, handleReKEMAck.
  repeat first [apply handleKeyUpdate_quiet | apply quiet_consume; auto | quiet_step].
Qed.

Lemma recv_frame_quiet wire : quiet send_view (recv_frame wire).
Proof.
  unfold recv_frame, recvState, putRecv.
  repeat first [apply dispatch_quiet | quiet_step].
Qed.

Lemma recvLocked_quiet fuel stream : quiet send_view (recvLocked fuel stream).
Proof.
  revert stream. induction fuel as [|fuel IH]; intros stream; cbn [recvLocked]; [done|].
  destruct (readFrame stream) as [[wire|] rest]; [|done].
  apply quiet_bind; [apply recv_frame_quiet|]. intros [x|]; [done|apply IH].
Qed.

Lemma react_inv io x : preserves Inv (react io x).
Proof.
  destruct x as [[[ch ft] pt] act]. unfold react, preserves.
  assert (triple Inv (modify Close) (fun _ => Inv) Inv) as Hc by (apply triple_modify, Inv_Close).
  destruct act as [[e|]|code e| |e]; try (by apply triple_ret).
  - eapply triple_bind; [by apply ignore_inv, reply_inv|]. intros [].
    eapply triple_bind; [exact Hc|]. intros []. by apply triple_ret.
  - eapply triple_bind; [by apply ignore_inv, reply_inv|]. intros [].
    eapply triple_bind; [exact Hc|]. intros []. by apply triple_ret.
  - eapply triple_bind; [exact Hc|]. intros []. by apply triple_ret.
Qed.

Lemma Recv_inv io stream : preserves Inv (Recv io stream).
Proof.
  eapply triple_bind; [apply triple_neutral, recvLocked_quiet|]. intros [x rest].
  eapply triple_bind; [apply react_inv|]. intros r. by apply triple_ret.
Qed.
End ops.

(** ** Reachable states *)

(** The calls a program and its goroutines can make on a connection, with any
    arguments, any transport outcome and any incoming octets. *)
Inductive operation `{Crypto} : forall A, M A -> Prop :=
| op_send io ch ft pl : operation unit (Send io ch ft pl)
| op_key_update io ch : operation unit (KeyUpdate io ch)
| op_ratchet io : operation unit (RatchetSend io)
| op_rekem_check : operation unit ReKEM_check
| op_rekem_request io client : operation pendingReKEM (ReKEM_request io client)
| op_rekem_register p : operation unit (ReKEM_register p)
| op_task io x rnd t : operation unit (run_task io x rnd t)
| op_recv io stream : operation (result error (Z * Z * bytes) * bytes) (Recv io stream)
| op_close_start io : operation bool (CloseGraceful_start io)
| op_close_finish acked : operation unit (CloseGraceful_finish acked)
| op_close : operation unit (modify Close)
| op_zeroize : operation unit (modify Zeroize).

(** [reach c log]: from a new connection, some sequence of operations leads to
    [c] and has written the frames [log]. *)
Inductive reach `{Crypto} : Conn -> list sent -> Prop :=
| reach_new master peer sd rd : reach (newConn master peer sd rd) []
| reach_step c log A (m : M A) c' out r :
    reach c log -> operation A m -> m c = (c', out, r) -> reach c' (log ++ out).

Lemma operation_inv `{Crypto} A (m : M A) : operation A m -> preserves Inv m.
Proof.
  destruct 1 as [ | | | | | |io x rnd t| | |acked| | ].
  - apply Send_inv.
  - apply KeyUpdate_inv.
  - apply RatchetSend_inv.
  - apply triple_neutral. unfold ReKEM_check. repeat quiet_step.
  - apply ReKEM_request_inv.
  - by apply triple_neutral, quiet_modify.
  - destruct t; cbn [run_task]; [by apply ignore_inv, reply_inv, view_Close..|apply respondReKEM_inv].
  - apply Recv_inv.
  - apply CloseGraceful_start_inv.
  - apply triple_neutral, quiet_modify. intros c. rewrite view_Close. by destruct acked.
  - apply triple_neutral, quiet_modify, view_Close.
  - apply triple_neutral, quiet_modify, view_Zeroize.
Qed.

Lemma reach_inv `{Crypto} c log : reach c log -> Inv c log.
Proof.
  induction 1 as [master peer sd rd|c log A m c' out r Hr IH Hop Hm].
  - intros _. unfold key_counters. cbn. rewrite fmap_empty. split_and!; [constructor|done|done| |].
    + intros ch e q. by rewrite lookup_empty.
    + intros s Hs. by apply elem_of_nil in Hs.
  - pose proof (operation_inv A m Hop c log IH) as Hp. rewrite Hm in Hp. by destruct r.
Qed.

(** C1: nonce uniqueness.  Whatever operations run on a connection and however
    the acknowledgement goroutines interleave, two different frames it wrote never
    share generation, channel, epoch and sequence number; so two frames sealed
    under one key have different nonces.  The total number of frames is assumed
    below 2^64 - 1. *)
Theorem nonce_unique `{Crypto} (c : Conn) (log : list sent) (i j : nat) (a b : sent) (iv : bytes)
    (Hr : reach c log) (Hlen : blen log < 2 ^ 64 - 1)
    (Ha : log !! i = Some a) (Hb : log !! j = Some b) (Hij : i <> j)
    (Hiv : length iv = 12%nat)
    (Hkey : (s_gen a, s_channel a, s_epoch a) = (s_gen b, s_channel b, s_epoch b)) :
  DeriveNonce iv (s_seq a) <> DeriveNonce iv (s_seq b).
Proof.
  destruct (reach_inv c log Hr Hlen) as (Hn & _ & _ & Hl). intros Heq. apply Hij.
  apply DeriveNonce_inj in Heq; [|done|apply Hl; by eapply list_elem_of_lookup_2..].
  eapply (NoDup_lookup (coords <$> log)); [done| |].
  - rewrite list_lookup_fmap, Ha. reflexivity.
  - rewrite list_lookup_fmap, Hb. unfold coords. cbn. congruence.
Qed.

Lemma reach_run `{Crypto} A (m : M A) c log :
  reach c log -> operation A m -> reach (m c).1.1 (log ++ (m c).1.2).
Proof. intros Hr Hop. apply (reach_step c log A m _ _ (m c).2 Hr Hop).
  by destruct (m c) as [[? ?] ?]. Qed.

Definition two_sends : list sent :=
  let r1 := Send (H := Toy.crypto) true ChanMemory 0x0101 (str "a") client_conn in
  let r2 := Send (H := Toy.crypto) true ChanMemory 0x0101 (str "b") r1.1.1 in
  ([] ++ r1.1.2) ++ r2.1.2.

Lemma two_sends_frames : exists w1 w2, two_sends = [mkSent 0 ChanMemory 0 0 w1; mkSent 0 ChanMemory 0 1 w2].
Proof.
  destruct (fresh_key client_conn ChanMemory ltac:(by split_and!) eq_refl) as (st & Hk & He & Hq).
  destruct (Send_live (H := Toy.crypto) (H0 := Toy.laws) client_conn ChanMemory 0x0101 (str "a") st)
    as (w1 & _ & H1); [by split_and!|done|by rewrite Hq|by vm_compute|].
  set (c1 := set_sendKeys _ _) in H1.
  assert (send_key c1 ChanMemory = Ok (bump st)) as Hk1
    by (unfold send_key; cbn [sendKeys c1 set_sendKeys]; by rewrite lookup_insert_eq).
  destruct (Send_live (H := Toy.crypto) (H0 := Toy.laws) c1 ChanMemory 0x0101 (str "b") (bump st))
    as (w2 & _ & H2); [by split_and!|done|unfold bump; cbn [k_seq]; by rewrite Hq|by vm_compute|].
  exists w1, w2. unfold two_sends. rewrite H1. cbn [fst snd]. rewrite H2. cbn [fst snd app].
  unfold bump. cbn [k_epoch k_seq]. by rewrite He, Hq.
Qed.

Lemma nonce_unique_witness :
  exists a b, two_sends = [a; b] /\
    DeriveNonce (replicate 12 x00) (s_seq a) <> DeriveNonce (replicate 12 x00) (s_seq b).
Proof.
  destruct two_sends_frames as (w1 & w2 & Hlog).
  exists (mkSent 0 ChanMemory 0 0 w1), (mkSent 0 ChanMemory 0 1 w2). split; [exact Hlog|].
  eapply (nonce_unique (H := Toy.crypto) _ two_sends 0 1).
  - unfold two_sends. apply reach_run; [apply reach_run; constructor|constructor].
  - by rewrite Hlog.
  - by rewrite Hlog.
  - by rewrite Hlog.
  - discriminate.
  - reflexivity.
  - reflexivity.
Defined.
