(* ===== verification/ConnRecv.v ===== *)
(** * The receive loop

    Lemmas on [readFrame], [recvLocked] and [Recv]: the loop is total (the fuel is
    never what stops it), and one frame at the front of the stream is one iteration. *)

From S2P Require Import Prelude Errors Registry Crypto Tlv Frame Aead Kem KeySchedule Transcript.
From S2P Require Import Handshake Cbor ErrorFrame Conn.
From Stdlib Require Import Strings.Byte.
From stdpp Require Import gmap.
Open Scope Z_scope.

Lemma readFrame_inv stream wire rest :
  readFrame stream = (Ok wire, rest) ->
  stream = wire ++ rest /\ HeaderSize <= blen wire /\ blen wire <= maxFrameSize.
Proof.
  unfold readFrame. intros Hr.
  destruct (blen stream =? 0) eqn:H0; [done|]. destruct (blen stream <? HeaderSize) eqn:H1; [done|].
  destruct (negb _); [done|]. pose proof (be_get_range (slice 17 21 (take 36 stream))) as Hg.
  set (total := HeaderSize + _) in *. destruct (maxFrameSize <? total) eqn:H2; [done|].
  destruct (blen stream <? total) eqn:H3; [done|]. bprop. injection Hr as <- <-.
  split; [by rewrite take_drop|]. unfold blen in *. rewrite length_take. unfold HeaderSize in *. lia.
Qed.

Lemma readFrame_shorter stream wire rest :
  readFrame stream = (Ok wire, rest) -> (length rest < length stream)%nat.
Proof.
  intros Hr. apply readFrame_inv in Hr as (-> & Hh & _). rewrite length_app.
  unfold blen, HeaderSize in Hh. lia.
Qed.

(** A marshalled frame at the front of the stream is read whole. *)
Lemma readFrame_marshal f rest :
  frame_wf f -> frame_size f <= maxFrameSize -> readFrame (marshal f ++ rest) = (Ok (marshal f), rest).
Proof.
  intros Hf Hmax. pose proof (declared_length f rest Hf) as Hd. pose proof (blen_marshal f) as Hl.
  assert (slice 0 4 (marshal f ++ rest) = Magic) as Hm.
  { rewrite marshal_eq, <- app_assoc by apply Hf. apply header_layout. }
  pose proof (blen_nonneg rest). pose proof (blen_nonneg (Payload f)).
  assert (36 <= frame_size f) by (unfold frame_size, HeaderSize; lia).
  unfold readFrame. rewrite blen_app, Hl.
  rewrite (proj2 (Z.eqb_neq _ 0)) by lia.
  rewrite (proj2 (Z.ltb_ge _ HeaderSize)) by (unfold HeaderSize; lia).
  replace (slice 0 4 (take 36 (marshal f ++ rest))) with (slice 0 4 (marshal f ++ rest))
    by (unfold slice; rewrite !drop_0, take_take; f_equal; lia).
  replace (slice 17 21 (take 36 (marshal f ++ rest))) with (slice 17 21 (marshal f ++ rest))
    by (unfold slice; rewrite skipn_firstn_comm, take_take; f_equal; lia).
  rewrite Hm, Hd. rewrite bool_decide_true by reflexivity. cbn [negb].
  change (HeaderSize + blen (Payload f)) with (frame_size f).
  rewrite (proj2 (Z.ltb_ge maxFrameSize _)) by lia.
  rewrite (proj2 (Z.ltb_ge _ (frame_size f))) by lia.
  assert (Z.to_nat (frame_size f) = length (marshal f)) as -> by (unfold blen in Hl; lia).
  by rewrite take_app_length, drop_app_length.
Qed.

Section loop.
Context `{Crypto}.

(** Any fuel beyond the length of the stream gives the same run: the bound never
    cuts the loop short. *)
Lemma recvLocked_fuel f f' stream c :
  (length stream < f)%nat -> (length stream < f')%nat ->
  recvLocked f stream c = recvLocked f' stream c.
Proof.
  revert f' stream c. induction f as [|f IH]; intros f' stream c Hf Hf'; [lia|].
  destruct f' as [|f']; [lia|]. cbn [recvLocked].
  destruct (readFrame stream) as [[wire|e] rest] eqn:Er; [|done].
  apply readFrame_shorter in Er. unfold mbind, M_bind.
  destruct (recv_frame wire c) as [[c1 o1] [[x|]|e]]; try done.
  rewrite (IH f' rest c1) by lia. done.
Qed.

(** One frame at the front of the stream: an iteration that continues leaves the
    rest to the loop, one that returns is followed by its reaction. *)
Lemma Recv_cons io wire rest c :
  readFrame (wire ++ rest) = (Ok wire, rest) ->
  Recv io (wire ++ rest) c =
    (o ← recv_frame wire;
     match o with
     | None => Recv io rest
     | Some x => r ← react io x; mret (r, rest)
     end) c.
Proof.
  intros Er. pose proof (readFrame_shorter _ _ _ Er) as Hs.
  set (R := Recv io rest). unfold Recv, mbind, M_bind. cbn [recvLocked]. rewrite Er.
  unfold mbind, M_bind.
  destruct (recv_frame wire c) as [[c1 o1] [[x|]|e]] eqn:Ef; [| |done].
  - cbn. rewrite app_nil_r. done.
  - rewrite (recvLocked_fuel _ (S (length rest)) rest c1) by lia.
    unfold R, Recv, mbind, M_bind. destruct (recvLocked _ rest c1) as [[c2 o2] [[x rest']|e]]; [|done].
    destruct (react io x c2) as [[c3 o3] [r|e]]; cbn; rewrite ?app_nil_r, ?app_assoc; done.
Qed.

Lemma Recv_nil io c : Recv io [] c = (c, [], Ok (Err ErrEOF, [])).
Proof. reflexivity. Qed.
End loop.
