(* ===== verification/ConnSync.v ===== *)
(** * Two endpoints stay in step

    What one endpoint seals, the other opens: if the sender's send direction and
    the receiver's receive direction agree, every frame of [Send], [KeyUpdate] and
    [RatchetSend] is opened and dispatched, and the directions agree afterwards. *)

From S2P Require Import Prelude Errors Registry Crypto Tlv Frame Aead Kem KeySchedule Transcript.
From S2P Require Import Handshake Cbor ErrorFrame Conn ConnLogic ConnLive ConnRecv.
From Stdlib Require Import Strings.Byte.
From stdpp Require Import gmap.
Open Scope Z_scope.

(** A zero [Version] is marshalled as the wire version. *)
Lemma marshal_zero_version fl t ch q p :
  marshal (mkFrame 0 fl t ch q p) = marshal (mkFrame ProtocolVersion fl t ch q p).
Proof. unfold marshal, MarshalBinary. cbn [Version Flags Type_ Channel Seq Payload]. reflexivity. Qed.

Section record_layer.
Context `{CryptoLaws}.

(** A sealed frame is a well-formed frame that names its channel, type and sequence
    number, and opens under the same key. *)
Lemma seal_frame st ch ft pt wire :
  sealWith st ch ft pt = Ok wire ->
  is_u16 ch -> is_u16 ft -> is_u64 (k_seq st) -> blen pt + 16 < 2 ^ 32 ->
  exists f, wire = marshal f /\ frame_wf f /\ Flags f = FlagENC /\ Type_ f = ft /\ Channel f = ch /\
    Seq f = k_seq st /\ openWith st f = Ok pt.
Proof.
  intros Hs Hch Hft Hseq Hlen. unfold sealWith, SealAES256GCM in Hs.
  cbn [mbind result_bind] in Hs. set (sealed := gcm_seal _ _ _ _) in Hs.
  assert (wire = marshal (mkFrame 0 FlagENC ft ch (k_seq st) sealed)) as -> by (unfold marshal; congruence).
  assert (blen sealed = blen pt + 16) as Hsl by apply gcm_overhead.
  rewrite marshal_zero_version. set (f := mkFrame ProtocolVersion FlagENC ft ch (k_seq st) sealed).
  exists f. split; [reflexivity|]. split.
  { unfold frame_wf, f. cbn [Version Flags Type_ Channel Seq Payload].
    rewrite Hsl. unfold FlagENC. split_and!;
      [reflexivity|lia|lia|reflexivity|exact Hft|exact Hch|exact Hseq|exact Hlen]. }
  split_and!; [reflexivity..|].
  unfold openWith, f. cbn [Payload Seq]. rewrite Hsl.
  apply open_iff. reflexivity.
Qed.

(** Receiving a frame sealed under the receive key of its channel. *)
Lemma recv_authentic c ch ft pt st wire :
  closed c = false -> recv_key c ch = Ok st -> sealWith st ch ft pt = Ok wire ->
  is_u16 ch -> is_u16 ft -> is_u64 (k_seq st) -> blen pt + 16 < 2 ^ 32 ->
  recv_frame wire c = dispatch (bump st) ch ft pt (set_recvKeys <[ch := bump st]> c).
Proof.
  intros Hcl Hk Hs Hch Hft Hseq Hlen.
  destruct (seal_frame st ch ft pt wire) as (f & -> & Hwf & Hfl & Ht & Hc & Hq & Ho); [done..|].
  unfold recv_frame. rewrite (unmarshal_marshal f Hwf), Hfl. cbn [Z.land FlagENC]. change (Z.land FlagENC FlagENC =? 0) with false.
  unfold recv_key in Hk. unfold recvState, attempt, get, mbind, M_bind. cbn. rewrite Hcl, Hc.
  destruct (recvKeys c !! ch) as [st0|] eqn:E.
  - injection Hk as ->. cbn. rewrite Hq, Z.eqb_refl. cbn. rewrite Ho. cbn. rewrite Ht.
    by destruct (dispatch _ _ _ _ _) as [[? ?] ?].
  - cbn. rewrite Hk. cbn. rewrite Hq, Z.eqb_refl. cbn. rewrite Ho. cbn. rewrite Ht.
    replace (set_recvKeys <[ch:=bump st]> (set_recvKeys <[ch:=st]> c)) with (set_recvKeys <[ch:=bump st]> c).
    + by destruct (dispatch _ _ _ _ _) as [[? ?] ?].
    + unfold set_recvKeys. cbn. by rewrite insert_insert_eq.
Qed.
End record_layer.

(** ** Markers *)

Lemma parse_marker_encoded typ v :
  is_u16 typ -> is_u64 v -> parse_marker typ (TLV_Encode (mkTLV typ (be_put 8 v)) []) = Ok v.
Proof.
  intros Ht Hv. pose proof (be_get_put_small 8 v Hv) as Hg. pose proof (blen_be_put 8 v) as Hb.
  revert Hg Hb. generalize (be_put 8 v). intros w Hg Hb.
  unfold parse_marker. change (TLV_Encode (mkTLV typ w) []) with (encode_tlvs [mkTLV typ w]).
  rewrite decode_encode_tlvs
    by (split; [apply Forall_singleton; split; [exact Ht|cbn; rewrite Hb; done]|done]).
  cbn. by rewrite Z.eqb_refl, Hb, Hg.
Qed.

(** ** Agreement of a send and a receive direction *)

Record in_sync (S R : Conn) : Prop := {
  sy_open_s : closed S = false;
  sy_open_r : closed R = false;
  sy_root : masterSend S = masterRecv R;
  sy_gen : genSend S = genRecv R;
  sy_dir : sendDir S = recvDir R;
  sy_profile : c_profile S = c_profile R;
  sy_keys : forall ch, send_key S ch = recv_key R ch;
  sy_range : forall ch st, sendKeys S !! ch = Some st -> is_u64 (k_seq st) /\ is_u64 (k_epoch st)
}.

Lemma bump_range st : is_u64 (k_seq (bump st)).
Proof. apply u64_range. Qed.

Lemma derive_zero_range master dir ch p st :
  derive zeroKeys master dir ch p = Ok st -> is_u64 (k_seq st) /\ is_u64 (k_epoch st).
Proof.
  unfold derive. intros Hd. apply bind_Ok in Hd as (ts & _ & Hd).
  apply bind_Ok in Hd as ([key iv] & _ & [= <-]). by vm_compute.
Qed.

Lemma send_key_range S R ch st :
  in_sync S R -> send_key S ch = Ok st -> is_u64 (k_seq st) /\ is_u64 (k_epoch st).
Proof.
  intros Hs Hk. unfold send_key in Hk. destruct (sendKeys S !! ch) as [st'|] eqn:E.
  - injection Hk as <-. by apply (sy_range _ _ Hs ch).
  - by eapply derive_zero_range.
Qed.

(** Storing the same key on both sides keeps them in step. *)
Lemma in_sync_store S R ch st :
  in_sync S R -> is_u64 (k_seq st) -> is_u64 (k_epoch st) ->
  in_sync (set_sendKeys <[ch := st]> S) (set_recvKeys <[ch := st]> R).
Proof.
  intros [] Hq He. split; try done.
  - intros ch'. unfold send_key, recv_key in *. cbn. rewrite !lookup_insert.
    case_decide; [done|]. apply sy_keys0.
  - intros ch' st'. cbn. rewrite lookup_insert. case_decide; [intros [= <-]; done|]. apply sy_range0.
Qed.

(** Fields a receive-side bookkeeping change does not touch. *)
Definition recv_side (c : Conn) :=
  (closed c, masterRecv c, genRecv c, recvDir c, c_profile c, recvKeys c).
Definition send_side (c : Conn) :=
  (closed c, masterSend c, genSend c, sendDir c, c_profile c, sendKeys c).

Lemma in_sync_sides S S' R R' :
  send_side S' = send_side S -> recv_side R' = recv_side R -> in_sync S R -> in_sync S' R'.
Proof.
  intros [= H1 H2 H3 H4 H5 H6] [= G1 G2 G3 G4 G5 G6] [].
  split; [congruence..| |].
  - intros ch. specialize (sy_keys0 ch). unfold send_key, recv_key in *.
    by rewrite H2, H4, H5, H6, G2, G4, G5, G6.
  - intros ch st. rewrite H6. apply sy_range0.
Qed.

(** Both roots step to the same new root; every cached key is dropped. *)
Lemma in_sync_root S R nr gen :
  in_sync S R -> in_sync (set_sendRoot nr gen ∅ S) (set_recvRoot nr gen ∅ R).
Proof.
  intros []. split; try done.
  intros ch. unfold send_key, recv_key. cbn. rewrite !lookup_empty. by rewrite sy_dir0, sy_profile0.
Qed.

(** ** What a successful send operation did *)

Section sends.
Context `{CryptoLaws}.

Lemma sendState_inv S ch S' out st :
  sendState ch S = (S', out, Ok st) ->
  out = [] /\ send_key S ch = Ok st /\ S' = set_sendKeys <[ch := st]> S /\ closed S = false.
Proof.
  unfold sendState, get, mbind, M_bind, send_key. cbn.
  destruct (closed S) eqn:Hc; [done|]. destruct (sendKeys S !! ch) as [st0|] eqn:E; cbn.
  - intros [= <- <- <-]. split_and!; try done. destruct S; unfold set_sendKeys; cbn in *.
    by rewrite insert_id.
  - destruct (derive _ _ _ _ _) as [st0|]; cbn; [|done]. by intros [= <- <- <-].
Qed.

Lemma writeSealed_inv io st ch wire S S' out u :
  writeSealed io st ch wire S = (S', out, Ok u) ->
  S' = S /\ out = [mkSent (genSend S) ch (k_epoch st) (k_seq st) wire] /\
  blen wire <= MaxFrameSize.
Proof.
  unfold writeSealed, writeWire, guard_err, get, mbind, M_bind. cbn.
  destruct (blen wire <? _); [done|]. destruct (maxFrameSize <? blen wire) eqn:E; [done|]. cbn.
  apply Z.ltb_ge in E. destruct (io && _); [|done]. by intros [= <- <-].
Qed.


(** What the record layer contributes to every sending operation: the frame the
    receiver reads back and opens under its own key. *)
Lemma sealed_received S R ch ft pt st wire rest :
  in_sync S R -> send_key S ch = Ok st -> sealWith st ch ft pt = Ok wire ->
  is_u16 ch -> is_u16 ft -> blen wire <= MaxFrameSize ->
  readFrame (wire ++ rest) = (Ok wire, rest) /\
  recv_frame wire R = dispatch (bump st) ch ft pt (set_recvKeys <[ch := bump st]> R).
Proof.
  intros Hs Hk Hw Hch Hft Hmax. destruct (send_key_range _ _ _ _ Hs Hk) as [Hq _].
  pose proof (seal_length _ _ _ _ _ Hw) as Hl.
  change MaxFrameSize with 16777216 in Hmax.
  assert (blen pt + 16 < 2 ^ 32) as Hlen by (change (2 ^ 32) with 4294967296; unfold HeaderSize in Hl; lia).
  split.
  - destruct (seal_frame st ch ft pt wire) as (f & -> & Hwf & _); [done..|].
    apply readFrame_marshal; [done|]. unfold maxFrameSize. by rewrite <- blen_marshal.
  - apply recv_authentic; try done; [apply Hs|]. by rewrite <- (sy_keys _ _ Hs).
Qed.

(** Storing the bumped key on both sides. *)
Lemma in_sync_bump S R ch st :
  in_sync S R -> send_key S ch = Ok st ->
  in_sync (set_sendKeys <[ch := bump st]> (set_sendKeys <[ch := st]> S)) (set_recvKeys <[ch := bump st]> R).
Proof.
  intros Hs Hk. destruct (send_key_range _ _ _ _ Hs Hk) as [_ He].
  eapply in_sync_sides; [|reflexivity|apply (in_sync_store _ _ ch (bump st) Hs); [apply bump_range|exact He]].
  unfold send_side. cbn. by rewrite insert_insert_eq.
Qed.

Lemma advance_range k master dir ch p st :
  advance k master dir ch p = (st, Ok tt) -> is_u64 (k_seq st) /\ is_u64 (k_epoch st).
Proof.
  unfold advance, derive. destruct (DeriveTrafficSecret _ _ _ _ _ _); cbn; [|done].
  destruct (DeriveKeyIV _ _) as [[? ?]|]; cbn; [|done]. intros [= <-]. cbn. split; [done|apply u64_range].
Qed.

(** The receiver's reaction to the announcement of the next epoch. *)
Lemma dispatch_key_update ch st st' R :
  advance st (masterRecv R) (recvDir R) ch (c_profile R) = (st', Ok tt) ->
  dispatch st ch FrameKeyUpdate (keyUpdateMarker (u64 (k_epoch st + 1))) R =
    (set_tasks (tasks R ++ [TKeyUpdateAck ch (u64 (k_epoch st + 1))]) (set_recvKeys <[ch := st']> R),
     [], Ok None).
Proof.
  intros Ha. unfold dispatch. rewrite Z.eqb_refl. unfold handled, attempt, handleKeyUpdate.
  unfold parseKeyUpdateMarker, keyUpdateMarker.
  rewrite (parse_marker_encoded TLVKeyUpdateMarker _ ltac:(done) (u64_range _)).
  cbn [map_err]. unfold mbind, M_bind, lift, guard_err, get, putRecv, spawn, modify.
  rewrite Z.eqb_refl. cbn [negb mret M_ret]. rewrite Ha. reflexivity.
Qed.

(** The receiver's reaction to the announcement of the next generation. *)
Lemma dispatch_master_ratchet st R nr :
  RatchetMasterTier1 (masterRecv R) (u64 (genRecv R + 1)) (c_profile R) = Ok nr ->
  dispatch st ChanControl FrameMasterRatchet (ratchetGenMarker (u64 (genRecv R + 1))) R =
    (set_tasks (tasks R ++ [TMasterRatchetAck (u64 (genRecv R + 1))])
       (set_recvRoot nr (u64 (genRecv R + 1)) ∅ R), [], Ok None).
Proof.
  intros Ha. unfold dispatch, on_control. change (FrameMasterRatchet =? FrameKeyUpdate) with false.
  change (FrameMasterRatchet =? FrameKeyUpdateAck) with false. rewrite !Z.eqb_refl.
  unfold handled, attempt, handleMasterRatchet, parseRatchetGenMarker, ratchetGenMarker.
  rewrite (parse_marker_encoded TLVRatchetGeneration _ ltac:(done) (u64_range _)).
  unfold mbind, M_bind, lift, guard_err, get, advanceRecvRoot, spawn, modify.
  rewrite Z.eqb_refl. cbn [negb mret M_ret]. rewrite Ha. reflexivity.
Qed.

(** A successful sending operation: the key it used, the frame, and the size. *)
Ltac send_inv H :=
  unfold Send, sendLocked, putSend in H; run_inv H;
  match goal with E : sendState _ _ = (_, _, Ok ?st) |- _ =>
    let Hk := fresh "Hk" in apply sendState_inv in E as (-> & Hk & -> & _) end;
  match goal with E : writeSealed _ _ _ _ _ = _ |- _ =>
    let Hmax := fresh "Hmax" in apply writeSealed_inv in E as (-> & -> & Hmax) end;
  match goal with E : sealWith _ _ _ _ = Ok _ |- _ => rename E into Hw end.

(** [Send], on any channel: the frame is authentic to the receiver. *)
Lemma Send_wire io S R ch ft pt S' out rest :
  in_sync S R -> is_u16 ch -> is_u16 ft -> Send io ch ft pt S = (S', out, Ok tt) ->
  exists s st, out = [s] /\ readFrame (s_wire s ++ rest) = (Ok (s_wire s), rest) /\
    send_key S ch = Ok st /\ S' = set_sendKeys <[ch := bump st]> (set_sendKeys <[ch := st]> S) /\
    recv_frame (s_wire s) R = dispatch (bump st) ch ft pt (set_recvKeys <[ch := bump st]> R) /\
    in_sync S' (set_recvKeys <[ch := bump st]> R).
Proof.
  intros Hs Hch Hft Hrun. send_inv Hrun. rename a into st.
  destruct (sealed_received _ _ _ _ _ _ _ rest Hs Hk Hw Hch Hft Hmax) as [Hr1 Hr2].
  eexists _, st. split; [reflexivity|]. cbn [s_wire]. split_and!; [exact Hr1|done|done|exact Hr2|].
  by apply in_sync_bump.
Qed.

(** [Send] of an application frame. *)
Lemma Send_sync io S R ch ft pt S' out rest :
  in_sync S R -> is_u16 ch -> is_u16 ft -> ch <> ChanControl ->
  ft <> FrameKeyUpdate -> ft <> FrameKeyUpdateAck ->
  Send io ch ft pt S = (S', out, Ok tt) ->
  exists s R', out = [s] /\ readFrame (s_wire s ++ rest) = (Ok (s_wire s), rest) /\
    recv_frame (s_wire s) R = (R', [], Ok (Some (deliver ch ft pt))) /\ in_sync S' R'.
Proof.
  intros Hs Hch Hft Hc0 Hk1 Hk2 Hrun.
  destruct (Send_wire io S R ch ft pt S' out rest Hs Hch Hft Hrun) as (s & st & -> & Hr1 & _ & _ & Hr2 & Hs').
  eexists s, _. split; [reflexivity|]. split; [exact Hr1|]. split; [|exact Hs'].
  rewrite Hr2. unfold dispatch, on_control.
  rewrite (proj2 (Z.eqb_neq _ _) Hk1), (proj2 (Z.eqb_neq _ _) Hk2), (proj2 (Z.eqb_neq _ _) Hc0).
  repeat case_match; reflexivity.
Qed.

(** [KeyUpdate]: both sides leave the epoch together. *)
Lemma KeyUpdate_sync io S R ch S' out rest :
  in_sync S R -> is_u16 ch -> KeyUpdate io ch S = (S', out, Ok tt) ->
  exists s R', out = [s] /\ readFrame (s_wire s ++ rest) = (Ok (s_wire s), rest) /\
    recv_frame (s_wire s) R = (R', [], Ok None) /\ in_sync S' R'.
Proof.
  intros Hs Hch Hrun. unfold KeyUpdate in Hrun. send_inv Hrun. rename a into st.
  destruct (sealed_received _ _ _ _ _ _ _ rest Hs Hk Hw Hch ltac:(done) Hmax) as [Hr1 Hr2].
  cbn [masterSend sendDir c_profile set_sendKeys addPendingKeyUpdateAck set_pending] in Hrun.
  destruct (advance (bump st) _ _ _ _) as [st' r] eqn:Ea. run_inv Hrun. subst r.
  eexists _, _. split; [reflexivity|]. cbn [s_wire]. split; [exact Hr1|]. split.
  - rewrite Hr2. apply (dispatch_key_update ch (bump st) st' (set_recvKeys <[ch:=bump st]> R)).
    cbn [masterRecv recvDir c_profile set_recvKeys].
    by rewrite <- (sy_root _ _ Hs), <- (sy_dir _ _ Hs), <- (sy_profile _ _ Hs).
  - destruct (advance_range _ _ _ _ _ _ Ea) as [Hq He].
    eapply in_sync_sides; [| |apply (in_sync_store _ _ ch st' Hs Hq He)];
      unfold send_side, recv_side; cbn; by rewrite !insert_insert_eq.
Qed.

(** [RatchetSend]: both roots step to the same generation. *)
Lemma RatchetSend_sync io S R S' out rest :
  in_sync S R -> RatchetSend io S = (S', out, Ok tt) ->
  exists s R', out = [s] /\ readFrame (s_wire s ++ rest) = (Ok (s_wire s), rest) /\
    recv_frame (s_wire s) R = (R', [], Ok None) /\ in_sync S' R'.
Proof.
  intros Hs Hrun. unfold RatchetSend, advanceSendRoot in Hrun. send_inv Hrun.
  match goal with E : RatchetMasterTier1 _ _ _ = Ok ?x |- _ => rename x into nr, E into Hroot end.
  match goal with E : send_key _ _ = Ok ?x |- _ => rename x into st end.
  destruct (sealed_received _ _ _ _ _ _ _ rest Hs Hk Hw ltac:(done) ltac:(done) Hmax) as [Hr1 Hr2].
  eexists _, _. split; [reflexivity|]. cbn [s_wire]. split; [exact Hr1|]. split.
  - rewrite Hr2, (sy_gen _ _ Hs).
    apply (dispatch_master_ratchet (bump st) (set_recvKeys <[ChanControl := bump st]> R) nr).
    cbn [masterRecv genRecv c_profile set_recvKeys].
    rewrite <- (sy_root _ _ Hs), <- (sy_gen _ _ Hs), <- (sy_profile _ _ Hs). exact Hroot.
  - eapply in_sync_sides; [| |apply in_sync_root, Hs]; [reflexivity|].
    unfold recv_side. cbn. by rewrite (sy_gen _ _ Hs).
Qed.
End sends.

(** ** A whole conversation *)

(** Two connections over the same master, with opposite directions. *)
Lemma in_sync_newConn master p1 p2 d1 d2 : in_sync (newConn master p1 d1 d2) (newConn master p2 d2 d1).
Proof. by split. Qed.

(** The calls of a sending application. *)
Inductive call : Type :=
| CSend (ch ft : Z) (pt : bytes)
| CKeyUpdate (ch : Z)
| CRatchet.

(** An application frame: any channel but Control and any type but the two that
    are record-layer frames on every channel. *)
Definition call_wf (x : call) : Prop :=
  match x with
  | CSend ch ft _ => is_u16 ch /\ is_u16 ft /\ ch <> ChanControl /\
                     ft <> FrameKeyUpdate /\ ft <> FrameKeyUpdateAck
  | CKeyUpdate ch => is_u16 ch
  | CRatchet => True
  end.

(** What the receiving application must see of a call. *)
Definition visible (x : call) : option (Z * Z * bytes) :=
  match x with CSend ch ft pt => Some (ch, ft, pt) | _ => None end.

(** The octets of a list of frames, in the order they were written. *)
Definition stream_of (out : list sent) : bytes := concat (s_wire <$> out).

Section conversation.
Context `{CryptoLaws}.

Definition run_call (x : call) : M unit :=
  match x with
  | CSend ch ft pt => Send true ch ft pt
  | CKeyUpdate ch => KeyUpdate true ch
  | CRatchet => RatchetSend true
  end.

Fixpoint run_calls (xs : list call) : M unit :=
  match xs with
  | [] => mret tt
  | x :: xs => run_call x;; run_calls xs
  end.

(** A receiving application: [Recv] until it returns an error, at most [n] times. *)
Fixpoint drain (n : nat) (stream : bytes) : M (list (Z * Z * bytes)) :=
  match n with
  | O => mret []
  | S n =>
      '(r, rest) ← Recv true stream;
      match r with
      | Ok x => xs ← drain n rest; mret (x :: xs)
      | Err _ => mret []
      end
  end.

Lemma call_sync x S R S' out rest :
  in_sync S R -> call_wf x -> run_call x S = (S', out, Ok tt) ->
  exists s R', out = [s] /\ readFrame (s_wire s ++ rest) = (Ok (s_wire s), rest) /\
    recv_frame (s_wire s) R =
      (R', [], Ok ((fun y : Z * Z * bytes => deliver y.1.1 y.1.2 y.2) <$> visible x)) /\ in_sync S' R'.
Proof.
  intros Hs Hwf Hr. destruct x as [ch ft pt|ch|].
  - destruct Hwf as (? & ? & ? & ? & ?). by apply (Send_sync true S R ch ft pt).
  - by apply (KeyUpdate_sync true S R ch).
  - by apply (RatchetSend_sync true S R).
Qed.

(** A delivered frame at the front of the stream. *)
Lemma drain_deliver n wire rest R R1 R' x xs :
  readFrame (wire ++ rest) = (Ok wire, rest) ->
  recv_frame wire R = (R1, [], Ok (Some (deliver x.1.1 x.1.2 x.2))) ->
  drain n rest R1 = (R', [], Ok xs) -> drain (S n) (wire ++ rest) R = (R', [], Ok (x :: xs)).
Proof.
  intros Hrd Hrf Hd. cbn [drain]. unfold mbind, M_bind. rewrite (Recv_cons _ _ _ _ Hrd).
  unfold mbind, M_bind. rewrite Hrf. cbn. rewrite Hd. by destruct x as [[? ?] ?].
Qed.

(** A control frame at the front of the stream is consumed in passing. *)
Lemma drain_control n wire rest R R1 :
  readFrame (wire ++ rest) = (Ok wire, rest) -> recv_frame wire R = (R1, [], Ok None) ->
  drain (S n) (wire ++ rest) R = drain (S n) rest R1.
Proof.
  intros Hrd Hrf. cbn [drain]. unfold mbind, M_bind. rewrite (Recv_cons _ _ _ _ Hrd).
  unfold mbind, M_bind. rewrite Hrf. by destruct (Recv true rest R1) as [[? ?] [[? ?]|]].
Qed.

(** C7: In-order delivery across rekeying.  If the sender's send direction and the
    receiver's receive direction agree, and the sender's calls (sends on any
    application channel, per-channel key updates and master ratchets, in any order)
    succeed, then an application that calls [Recv] on the octets written receives
    exactly the payloads sent, with their channels and types, in order and nothing
    else, and the two directions agree again at the end. *)
Theorem session_sync (xs : list call) (S R S' : Conn) (out : list sent)
    (Hs : in_sync S R) (Hwf : Forall call_wf xs) (Hrun : run_calls xs S = (S', out, Ok tt)) :
  exists R', drain (1 + length (omap visible xs)) (stream_of out) R = (R', [], Ok (omap visible xs)) /\
    in_sync S' R'.
Proof.
  revert S R out Hs Hrun. induction Hwf as [|x xs Hx Hxs IH]; intros S R out Hs Hrun.
  { injection Hrun as <- <-. by exists R. }
  cbn [run_calls] in Hrun. apply run_bind in Hrun as (S1 & o1 & [] & o2 & H1 & H2 & ->).
  destruct (call_sync x S R S1 o1 (stream_of o2) Hs Hx H1) as (s & R1 & -> & Hrd & Hrf & Hs1).
  destruct (IH S1 R1 o2 Hs1 H2) as (R' & Hd & Hs'). exists R'. split; [|done].
  change (stream_of ([s] ++ o2)) with (s_wire s ++ stream_of o2).
  cbn [omap list_omap plus] in *. destruct (visible x) as [[[ch ft] pt]|]; cbn [fmap option_fmap] in *.
  - by apply (drain_deliver _ _ _ _ _ _ _ _ Hrd Hrf).
  - by rewrite (drain_control _ _ _ _ _ Hrd Hrf).
Qed.
End conversation.

(** ** The calls succeed *)

(** Sequence numbers left for [n] more frames on every channel in use. *)
Definition budget (n : Z) (c : Conn) : Prop :=
  map_Forall (fun _ st => 0 <= k_seq st < maxSeq - n) (sendKeys c).

(** A payload that fits a frame. *)
Definition call_fits (x : call) : Prop :=
  match x with CSend _ _ pt => blen pt + 16 + HeaderSize <= MaxFrameSize | _ => True end.

Section progress.
Context `{CryptoLaws}.

Lemma budget_key n c ch :
  live c -> budget n c -> 0 <= n < maxSeq ->
  exists st, send_key c ch = Ok st /\ 0 <= k_seq st < maxSeq - n.
Proof.
  intros Hl Hb Hn. destruct (sendKeys c !! ch) as [st|] eqn:E.
  - exists st. split; [unfold send_key; by rewrite E|exact (Hb ch st E)].
  - destruct (fresh_key c ch Hl E) as (st & Hk & _ & Hq). exists st. split; [done|]. lia.
Qed.

Lemma budget_insert n c c' ch st :
  budget (n + 1) c -> sendKeys c' = <[ch := st]> (sendKeys c) -> 0 <= k_seq st < maxSeq - n -> budget n c'.
Proof.
  intros Hb Hk Hs. unfold budget. rewrite Hk. apply map_Forall_insert_2; [exact Hs|].
  intros ch' st' Hl. specialize (Hb ch' st' Hl). cbn in Hb. lia.
Qed.

Lemma call_live x n c :
  live c -> budget (n + 1) c -> 0 <= n < maxSeq - 1 -> call_fits x ->
  exists c' out, run_call x c = (c', out, Ok tt) /\ live c' /\ budget n c'.
Proof.
  intros Hl Hb Hn Hf. destruct x as [ch ft pt|ch|]; cbn [run_call].
  - destruct (budget_key (n + 1) c ch Hl Hb) as (st & Hk & Hq); [lia|].
    destruct (Send_live c ch ft pt st Hl Hk ltac:(lia) Hf) as (w & _ & Hs).
    eexists _, _. split; [exact Hs|]. split; [exact Hl|].
    apply (budget_insert n c _ ch (bump st) Hb); [cbn [sendKeys set_sendKeys]; by rewrite insert_insert_eq|].
    unfold bump. cbn [k_seq]. unfold u64, maxSeq in *. rewrite Z.mod_small by lia. lia.
  - destruct (budget_key (n + 1) c ch Hl Hb) as (st & Hk & Hq); [lia|].
    destruct (KeyUpdate_live c ch st Hl Hk) as (c' & s & st' & Hr & Hl' & Hks & Hq').
    exists c', [s]. split; [exact Hr|]. split; [exact Hl'|]. apply (budget_insert n c c' ch st' Hb Hks). lia.
  - destruct (budget_key (n + 1) c ChanControl Hl Hb) as (st & Hk & Hq); [lia|].
    destruct (RatchetSend_live c st Hl Hk ltac:(lia)) as (c' & s & Hr & Hl' & He).
    exists c', [s]. split; [exact Hr|]. split; [exact Hl'|]. unfold budget. rewrite He. apply map_Forall_empty.
Qed.

Lemma run_calls_live xs c :
  live c -> budget (Z.of_nat (length xs)) c -> Z.of_nat (length xs) < maxSeq -> Forall call_fits xs ->
  exists c' out, run_calls xs c = (c', out, Ok tt) /\ live c' /\ budget 0 c'.
Proof.
  intros Hlive Hleft Hn Hfit. revert c Hlive Hleft.
  induction Hfit as [|x xs Hx Hxs IH]; intros c Hlive Hleft; [by exists c, []|].
  cbn [length] in *. rewrite Nat2Z.inj_succ in *.
  destruct (call_live x (Z.of_nat (length xs)) c Hlive Hleft ltac:(lia) Hx) as (c1 & o1 & H1 & Hl1 & Hb1).
  destruct (IH ltac:(lia) c1 Hl1 Hb1) as (c' & o2 & H2 & Hl2). exists c', (o1 ++ o2). split; [|done].
  cbn [run_calls]. by eapply step_bind.
Qed.

(** C10: Progress.  On a live connection with sequence numbers left on every channel
    in use, any sequence of sends (of payloads that fit a frame), key updates and
    ratchets succeeds, call after call, and leaves a live connection on which one
    more send of a payload that fits, on any channel, succeeds too: rotation never
    exhausts or blocks a channel. *)
Theorem session_live (xs : list call) (c : Conn) (ch ft : Z) (pt : bytes)
    (Hlive : live c) (Hleft : budget (Z.of_nat (length xs)) c) (Hn : Z.of_nat (length xs) < maxSeq)
    (Hfit : Forall call_fits xs) (Hpt : blen pt + 16 + HeaderSize <= MaxFrameSize) :
  exists c' out s, run_calls xs c = (c', out, Ok tt) /\ live c' /\
    (Send true ch ft pt c').1.2 = [s] /\ (Send true ch ft pt c').2 = Ok tt.
Proof.
  destruct (run_calls_live xs c Hlive Hleft Hn Hfit) as (c' & out & Hrun & Hl & Hb).
  destruct (budget_key 0 c' ch Hl Hb) as (st & Hk & Hq); [done|].
  destruct (Send_live c' ch ft pt st Hl Hk ltac:(lia) Hpt) as (w & _ & Hs).
  exists c', out. eexists. rewrite Hs. by split_and!.
Qed.
End progress.

Definition sample_calls : list call :=
  [ CSend ChanMemory 0x0101 (str "a"); CKeyUpdate ChanMemory; CSend ChanMemory 0x0102 (str "b");
    CRatchet; CSend ChanMemory 0x0103 (str "c") ].

(** The sample conversation meets the hypotheses of [session_live]. *)
Lemma sample_calls_ready :
  live client_conn /\ budget 5 client_conn /\ Forall call_fits sample_calls /\ Forall call_wf sample_calls.
Proof.
  split; [by split_and!|]. split; [apply map_Forall_empty|].
  split; repeat apply Forall_cons_2; try apply Forall_nil_2; by vm_compute.
Qed.

Lemma session_live_witness :
  exists c' out s, run_calls (H := Toy.crypto) sample_calls client_conn = (c', out, Ok tt) /\ live c' /\
    (Send (H := Toy.crypto) true ChanMemory 0x0101 (str "d") c').1.2 = [s] /\
    (Send (H := Toy.crypto) true ChanMemory 0x0101 (str "d") c').2 = Ok tt.
Proof.
  destruct sample_calls_ready as (Hl & Hb & Hf & _).
  apply (session_live (H := Toy.crypto) (H0 := Toy.laws) sample_calls client_conn ChanMemory 0x0101
    (str "d") Hl Hb eq_refl Hf). by vm_compute.
Defined.

Lemma session_sync_witness :
  exists c' out R', run_calls (H := Toy.crypto) sample_calls client_conn = (c', out, Ok tt) /\
    drain (H := Toy.crypto) 4 (stream_of out) server_conn =
      (R', [], Ok [(ChanMemory, 0x0101, str "a"); (ChanMemory, 0x0102, str "b"); (ChanMemory, 0x0103, str "c")]) /\
    in_sync c' R'.
Proof.
  destruct sample_calls_ready as (Hl & Hb & Hf & _).
  destruct (run_calls_live (H := Toy.crypto) (H0 := Toy.laws) sample_calls client_conn Hl Hb eq_refl Hf)
    as (c' & out & Hrun & _). exists c', out.
  destruct (session_sync (H := Toy.crypto) (H0 := Toy.laws) sample_calls client_conn server_conn c' out)
    as (R' & Hd & Hs); [apply in_sync_newConn|apply sample_calls_ready|exact Hrun|].
  exists R'. split; [exact Hrun|]. split; [exact Hd|exact Hs].
Defined.
