(* ===== verification/ConnDrop.v ===== *)
(** * The discard posture

    A frame the session cannot authenticate changes nothing an application or a
    peer can see.  Two connections are [similar] when they differ in the drop
    counters and in which receive keys have been derived so far; every operation
    takes similar states to similar states with the same frames and result. *)

From S2P Require Import Prelude Errors Registry Crypto Tlv Frame Aead Kem KeySchedule Transcript.
From S2P Require Import Handshake Cbor ErrorFrame Conn ConnLogic ConnLive ConnNonce ConnRecv ConnSync.
From Stdlib Require Import Strings.Byte.
From stdpp Require Import gmap.
Open Scope Z_scope.

(** The same connection with another receive-key cache and other counters. *)
Definition twist (ks : gmap Z epochKeys) (u q : Z) (c : Conn) : Conn :=
  set_drops u q (set_recvKeys (fun _ => ks) c).

(** While the connection is open the receive keys, cached or not yet derived,
    are the same. *)
Definition similar (c d : Conn) : Prop :=
  exists ks u q, d = twist ks u q c /\
    (closed c = false -> forall ch, recv_key c ch = recv_key d ch).

#[export] Instance similar_refl : Reflexive similar.
Proof. intros c. exists (recvKeys c), (droppedUnauthenticated c), (droppedOutOfSequence c). by destruct c. Qed.

#[export] Instance similar_sym : Symmetric similar.
Proof.
  intros c d (ks & u & q & -> & Hk).
  exists (recvKeys c), (droppedUnauthenticated c), (droppedOutOfSequence c).
  split; [by destruct c|]. intros Hc ch. symmetry. by apply Hk.
Qed.

#[export] Instance similar_trans : Transitive similar.
Proof.
  intros c d e (ks & u & q & -> & Hk) (ks' & u' & q' & -> & Hk').
  exists ks', u', q'. split; [done|]. intros Hc ch. rewrite Hk by done. by apply Hk'.
Qed.

#[export] Instance similar_equiv : Equivalence similar.
Proof. split; apply _. Qed.

(** ** Runs that cannot tell similar states apart *)

Definition sim {A} (m n : M A) : Prop :=
  forall c d, similar c d ->
    similar (m c).1.1 (n d).1.1 /\ (m c).1.2 = (n d).1.2 /\ (m c).2 = (n d).2.

Lemma sim_ret {A} (a : A) : sim (mret a) (mret a).
Proof. intros c d Hs. done. Qed.

Lemma sim_lift {A} (r : result error A) : sim (lift r) (lift r).
Proof. intros c d Hs. done. Qed.

Lemma sim_fail {A} e : sim (fail (A := A) e) (fail e).
Proof. intros c d Hs. done. Qed.

Lemma sim_guard b e : sim (guard_err b e) (guard_err b e).
Proof. intros c d Hs. by destruct b. Qed.

Lemma sim_bind {A B} (m n : M A) (f g : A -> M B) :
  sim m n -> (forall a, sim (f a) (g a)) -> sim (m ≫= f) (n ≫= g).
Proof.
  intros Hm Hf c d Hs. destruct (Hm c d Hs) as (Hs1 & Ho & Hr). unfold mbind, M_bind.
  destruct (m c) as [[c1 o1] r1], (n d) as [[d1 o2] r2]. cbn in *. subst o2 r2.
  destruct r1 as [a|e]; [|done]. destruct (Hf a c1 d1 Hs1) as (Hs2 & Ho & Hr).
  destruct (f a c1) as [[c2 o1'] r1], (g a d1) as [[d2 o2] r2]. cbn in *. by subst.
Qed.

(** The state read may differ in the twisted fields only. *)
Lemma sim_get {A} (f : Conn -> M A) :
  (forall c ks u q, sim (f c) (f (twist ks u q c))) -> sim (get ≫= f) (get ≫= f).
Proof.
  intros Hf c d Hs. pose proof Hs as (ks & u & q & -> & _). specialize (Hf c ks u q c _ Hs).
  unfold mbind, M_bind, get. destruct (f c c) as [[? ?] ?], (f _ _) as [[? ?] ?]. done.
Qed.

Lemma sim_modify (g : Conn -> Conn) :
  (forall c d, similar c d -> similar (g c) (g d)) -> sim (modify g) (modify g).
Proof. intros Hg c d Hs. split_and!; [by apply Hg|done..]. Qed.

Lemma sim_on_error {A} (m n : M A) (g : Conn -> Conn) :
  sim m n -> (forall c d, similar c d -> similar (g c) (g d)) -> sim (on_error m g) (on_error n g).
Proof.
  intros Hm Hg c d Hs. destruct (Hm c d Hs) as (Hs1 & Ho & Hr). unfold on_error.
  destruct (m c) as [[c1 o1] r1], (n d) as [[d1 o2] r2]. cbn in *. subst. destruct r2; cbn; auto.
Qed.

Lemma sim_attempt {A} (m n : M A) : sim m n -> sim (attempt m) (attempt n).
Proof.
  intros Hm c d Hs. destruct (Hm c d Hs) as (Hs1 & Ho & Hr). unfold attempt.
  destruct (m c) as [[c1 o1] r1], (n d) as [[d1 o2] r2]. cbn in *. by subst.
Qed.

Lemma sim_emit s : sim (emit s) (emit s).
Proof. intros c d Hs. done. Qed.

(** A consumer that looks at the bookkeeping fields only. *)
Lemma sim_consume (g : Conn -> Conn * bool) :
  (forall c ks u q, g (twist ks u q c) = (twist ks u q (g c).1, (g c).2)) ->
  (forall c, recv_side (g c).1 = recv_side c) ->
  sim (consume g) (consume g).
Proof.
  intros Hg Hv c d (ks & u & q & -> & Hk). unfold consume. rewrite Hg.
  specialize (Hv c). destruct (g c) as [c' b]. cbn in *. split_and!; try done.
  injection Hv as Hv1 Hv2 Hv3 Hv4 Hv5 Hv6.
  exists ks, u, q. split; [done|]. intros Hc ch. rewrite Hv1 in Hc. specialize (Hk Hc ch).
  revert Hk. unfold recv_key. cbn. by rewrite Hv2, Hv4, Hv5, Hv6.
Qed.

(** ** State changes that keep similar states similar *)

(** A change that commutes with the twist and leaves the receive side alone. *)
Lemma similar_commute (g : Conn -> Conn) c d :
  (forall c ks u q, g (twist ks u q c) = twist ks u q (g c)) ->
  (forall c, recv_side (g c) = recv_side c) ->
  similar c d -> similar (g c) (g d).
Proof.
  intros Hg Hv Hs.
  destruct (sim_consume (fun c => (g c, true)) ltac:(intros; cbn; by rewrite Hg) Hv c d Hs) as (? & _). done.
Qed.

Lemma sim_modify_commute (g : Conn -> Conn) :
  (forall c ks u q, g (twist ks u q c) = twist ks u q (g c)) ->
  (forall c, recv_side (g c) = recv_side c) -> sim (modify g) (modify g).
Proof. intros Hg Hv. apply sim_modify. intros c d. by apply similar_commute. Qed.

Lemma similar_recvKeys ch st c d :
  similar c d -> similar (set_recvKeys <[ch := st]> c) (set_recvKeys <[ch := st]> d).
Proof.
  intros (ks & u & q & -> & Hk). exists (<[ch := st]> ks), u, q. split; [done|].
  intros Hc ch'. specialize (Hk Hc ch'). revert Hk. unfold recv_key. cbn.
  rewrite !lookup_insert. by case_decide.
Qed.

(** A key derived on one side only. *)
Lemma similar_cached ch st c d :
  recv_key c ch = Ok st -> similar c d -> similar (set_recvKeys <[ch := st]> c) d.
Proof.
  intros He Hs. etrans; [|exact Hs]. symmetry.
  exists (<[ch := st]> (recvKeys c)), (droppedUnauthenticated c), (droppedOutOfSequence c).
  split; [by destruct c|]. intros _ ch'. unfold recv_key at 2. cbn. rewrite lookup_insert.
  case_decide as Hch; [by subst|done].
Qed.

Lemma similar_recvRoot nr gen c d :
  similar c d -> similar (set_recvRoot nr gen ∅ c) (set_recvRoot nr gen ∅ d).
Proof.
  intros (ks & u & q & -> & Hk). exists ∅, u, q. split; [done|].
  intros Hc ch. unfold recv_key. cbn. by rewrite !lookup_empty.
Qed.

Lemma similar_drops u q c d : similar c d -> similar (set_drops u q c) d.
Proof.
  intros Hs. etrans; [|exact Hs]. symmetry. exists (recvKeys c), u, q. split; [by destruct c|done].
Qed.

Lemma similar_Close c d : similar c d -> similar (Close c) (Close d).
Proof.
  intros Hs. pose proof Hs as (ks & u & q & -> & Hk). unfold Close. cbn.
  destruct (rawClosed c) eqn:E; [exact Hs|]. by exists (zeroize <$> ks), u, q.
Qed.

Lemma similar_Zeroize c d : similar c d -> similar (Zeroize c) (Zeroize d).
Proof. intros (ks & u & q & -> & Hk). by exists (zeroize <$> ks), u, q. Qed.

#[local] Ltac sim_state :=
  intros ? ? ?;
  first
    [ assumption | by apply similar_Close | by apply similar_Zeroize | by apply similar_recvKeys
    | by apply similar_recvRoot
    | apply similar_commute; [reflexivity|reflexivity|assumption] ].

#[local] Ltac sim_step :=
  first
    [ apply sim_ret | apply sim_lift | apply sim_fail | apply sim_guard | apply sim_emit
    | apply sim_get; intros ? ? ? ?;
      cbn [twist set_drops set_recvKeys c_profile masterSend masterRecv genSend genRecv sendDir recvDir
           sendKeys c_pendingReKEM pendingKUAck pendingMRAck closing closed rawClosed tasks]
    | apply sim_attempt | apply sim_on_error; [|try sim_state] | apply sim_bind; [|intros ?]
    | apply sim_modify; sim_state
    | apply sim_modify_commute; reflexivity
    | match goal with |- sim (match ?x with _ => _ end) _ => destruct x end
    | match goal with |- sim (if ?x then _ else _) _ => destruct x end ].

Section operations.
Context `{Crypto}.

Lemma sim_sendState ch : sim (sendState ch) (sendState ch).
Proof. unfold sendState. repeat sim_step. Qed.

Lemma sim_writeSealed io st ch wire : sim (writeSealed io st ch wire) (writeSealed io st ch wire).
Proof. unfold writeSealed, writeWire. repeat sim_step. Qed.

Ltac sim_ops := repeat first [apply sim_sendState | apply sim_writeSealed | sim_step].

Lemma sim_Send io ch ft pl : sim (Send io ch ft pl) (Send io ch ft pl).
Proof. unfold Send, sendLocked, putSend. sim_ops. Qed.

Lemma sim_KeyUpdate io ch : sim (KeyUpdate io ch) (KeyUpdate io ch).
Proof.
  unfold KeyUpdate, putSend. sim_ops.
  intros c d. apply similar_commute; [|intros; unfold removePendingKeyUpdateAck; by case_match].
  intros c1 ks u q. unfold removePendingKeyUpdateAck. cbn. by case_match.
Qed.

Lemma sim_RatchetSend io : sim (RatchetSend io) (RatchetSend io).
Proof. unfold RatchetSend, advanceSendRoot, putSend. sim_ops. Qed.

Lemma sim_ReKEM_request io client : sim (ReKEM_request io client) (ReKEM_request io client).
Proof. unfold ReKEM_request, putSend. sim_ops. Qed.

Lemma sim_reply io ch ft pt g :
  (forall c d, similar c d -> similar (g c) (g d)) -> sim (ignore (reply io ch ft pt g)) (ignore (reply io ch ft pt g)).
Proof. intros Hg. unfold ignore, reply, putSend. sim_ops. exact Hg. Qed.

Lemma sim_respondReKEM io x rnd share target :
  sim (respondReKEM io x rnd share target) (respondReKEM io x rnd share target).
Proof. unfold respondReKEM, ignore, advanceSendRoot, putSend. sim_ops. Qed.

Lemma sim_CloseGraceful_start io : sim (CloseGraceful_start io) (CloseGraceful_start io).
Proof.
  unfold CloseGraceful_start, sendClose, putSend. sim_ops.
Qed.

Lemma sim_react io x : sim (react io x) (react io x).
Proof.
  destruct x as [[[ch ft] pt] [[e|]|code e| |e]]; cbn [react];
    try (apply sim_bind; [apply sim_reply; first [apply similar_Close|done]|intros ?]); sim_ops.
Qed.

(** ** The receive path *)

(** The receive key of a channel, and a state similar to the one before. *)
Lemma recvState_spec ch c :
  exists c', recvState ch c = (c', [], if closed c then Err errClosed else recv_key c ch) /\ similar c' c /\
    SecurityDrops c' = SecurityDrops c /\ closed c' = closed c.
Proof.
  unfold recvState, get, mbind, M_bind, recv_key. cbn. destruct (closed c) eqn:Hc; [by exists c|].
  destruct (recvKeys c !! ch) as [st|] eqn:Ek; [by exists c|]. cbn.
  destruct (derive _ _ _ _ _) as [st|e] eqn:Ed; cbn; [|by exists c].
  eexists. split_and!; try done. apply similar_cached; [|done]. unfold recv_key. by rewrite Ek.
Qed.

Lemma sim_recvState ch : sim (recvState ch) (recvState ch).
Proof.
  intros c d Hs. destruct (recvState_spec ch c) as (c' & -> & Hc & _), (recvState_spec ch d) as (d' & -> & Hd & _).
  cbn. split_and!; [by rewrite Hc, Hs, Hd|done|].
  destruct Hs as (ks & u & q & -> & Hk). cbn. destruct (closed c); [done|]. by apply Hk.
Qed.

(** The pending sets are not part of the receive side. *)
Lemma sim_consumePending ch e : sim (consume (consumePendingKeyUpdateAck ch e)) (consume (consumePendingKeyUpdateAck ch e)).
Proof.
  apply sim_consume; intros c *; unfold consumePendingKeyUpdateAck; cbn; repeat case_match; done.
Qed.

Lemma sim_consumeRatchet g : sim (consume (consumePendingRatchetAck g)) (consume (consumePendingRatchetAck g)).
Proof.
  apply sim_consume; intros c *; unfold consumePendingRatchetAck; cbn; repeat case_match; done.
Qed.

Lemma sim_signalCloseAck : sim (consume signalCloseAck) (consume signalCloseAck).
Proof. apply sim_consume; intros c *; unfold signalCloseAck; cbn; repeat case_match; done. Qed.

Lemma sim_dispatch st ch ft pt : sim (dispatch st ch ft pt) (dispatch st ch ft pt).
Proof.
  unfold dispatch, on_control, handled, handleKeyUpdate, handleMasterRatchet, handleReKEM, handleReKEMAck,
    advanceRecvRoot, spawn, putRecv.
  repeat first [apply sim_consumePending | apply sim_consumeRatchet | apply sim_signalCloseAck | sim_step].
Qed.

Lemma sim_drop (g : Conn -> Conn) :
  g = drop_unauthenticated \/ g = drop_out_of_sequence -> sim (modify g) (modify g).
Proof.
  intros Hg. apply sim_modify. intros c d Hs.
  destruct Hg as [-> | ->]; apply similar_drops; symmetry; apply similar_drops; by symmetry.
Qed.

Lemma sim_recv_frame wire : sim (recv_frame wire) (recv_frame wire).
Proof.
  unfold recv_frame, putRecv.
  repeat first [apply sim_recvState | apply sim_dispatch | apply sim_drop; by (left + right) | sim_step].
Qed.

Lemma sim_recvLocked n stream : sim (recvLocked n stream) (recvLocked n stream).
Proof.
  revert stream. induction n as [|n IH]; intros stream; cbn [recvLocked]; [apply sim_ret|].
  destruct (readFrame stream) as [[wire|e] rest]; [|apply sim_ret].
  apply sim_bind; [apply sim_recv_frame|]. intros [x|]; [apply sim_ret|apply IH].
Qed.

Lemma sim_Recv io stream : sim (Recv io stream) (Recv io stream).
Proof.
  unfold Recv. apply sim_bind; [apply sim_recvLocked|]. intros [x rest].
  apply sim_bind; [apply sim_react|]. intros r. apply sim_ret.
Qed.
End operations.

(** ** Injected frames *)

Section injection.
Context `{Crypto}.

(** A parseable frame the session cannot authenticate: cleartext, out of sequence,
    or sealed under another key, nonce or header. *)
Definition forged (c : Conn) (wire : bytes) : bool :=
  match UnmarshalBinary wire with
  | Err _ => false
  | Ok f =>
      (Z.land (Flags f) FlagENC =? 0) ||
      match recv_key c (Channel f) with
      | Err _ => false
      | Ok st => negb (Seq f =? k_seq st) || match openWith st f with Ok _ => false | Err _ => true end
      end
  end.

Lemma forged_similar c d wire : closed c = false -> similar c d -> forged c wire = forged d wire.
Proof.
  intros Hc (ks & u & q & -> & Hk). unfold forged. destruct (UnmarshalBinary wire) as [f|]; [|done].
  by rewrite (Hk Hc).
Qed.

(** A forged frame is one more drop and nothing else. *)
Lemma recv_frame_forged c wire :
  closed c = false -> forged c wire = true ->
  exists c', recv_frame wire c = (c', [], Ok None) /\ similar c' c /\ closed c' = false /\
    (SecurityDrops c' = (u64 (droppedUnauthenticated c + 1), droppedOutOfSequence c) \/
     SecurityDrops c' = (droppedUnauthenticated c, u64 (droppedOutOfSequence c + 1))).
Proof.
  intros Hc Hf. unfold forged in Hf. unfold recv_frame.
  destruct (UnmarshalBinary wire) as [f|]; [|done].
  destruct (Z.land (Flags f) FlagENC =? 0).
  { eexists. split_and!; [reflexivity|by apply similar_drops|exact Hc|by left]. }
  cbn [orb] in Hf. destruct (recvState_spec (Channel f) c) as (c1 & Hr & Hs & [= Hd1 Hd2] & Hc1).
  rewrite Hc in Hr, Hc1. unfold attempt, mbind, M_bind. rewrite Hr.
  destruct (recv_key c (Channel f)) as [st|]; [|done].
  destruct (Seq f =? k_seq st); cbn [negb orb] in *.
  - destruct (openWith st f); [done|].
    eexists. split_and!; [reflexivity|by apply similar_drops|exact Hc1|left].
    unfold SecurityDrops. cbn. by rewrite Hd1, Hd2.
  - eexists. split_and!; [reflexivity|by apply similar_drops|exact Hc1|right].
    unfold SecurityDrops. cbn. by rewrite Hd1, Hd2.
Qed.

Lemma forged_reads c wire rest :
  forged c wire = true -> blen wire <= MaxFrameSize -> readFrame (wire ++ rest) = (Ok wire, rest).
Proof.
  unfold forged. destruct (UnmarshalBinary wire) as [f|] eqn:E; [|done]. intros _ Hl.
  apply marshal_unmarshal in E as [Hwf <-]. apply readFrame_marshal; [done|].
  unfold maxFrameSize. by rewrite <- blen_marshal.
Qed.

Lemma Recv_forged io c wire rest :
  closed c = false -> forged c wire = true -> blen wire <= MaxFrameSize ->
  exists c', Recv io (wire ++ rest) c = Recv io rest c' /\ similar c' c /\ closed c' = false.
Proof.
  intros Hc Hf Hl. destruct (recv_frame_forged c wire Hc Hf) as (c' & Hr & Hs & Hc' & _).
  exists c'. split_and!; [|done..]. rewrite (Recv_cons _ _ _ _ (forged_reads _ _ _ Hf Hl)).
  unfold mbind, M_bind. rewrite Hr. by destruct (Recv io rest c') as [[? ?] ?].
Qed.

(** C21: Injected frames are invisible.  On an open connection, any number of
    frames the session cannot authenticate (cleartext, out of sequence, or failing
    to open), placed in front of the stream, change neither the result of [Recv],
    nor the frames it writes, nor the state it leaves, except for the drop counters
    and receive keys derived early: an off-path attacker can neither end the
    association nor move its sequence numbers, epochs or roots. *)
Theorem injection_harmless (io : bool) (c : Conn) (inject : list bytes) (rest : bytes)
    (Hopen : closed c = false)
    (Hforged : Forall (fun w => forged c w = true /\ blen w <= MaxFrameSize) inject) :
  let '(c1, out1, r1) := Recv io (concat inject ++ rest) c in
  let '(c2, out2, r2) := Recv io rest c in
  r1 = r2 /\ out1 = out2 /\ similar c1 c2.
Proof.
  assert (exists c', Recv io (concat inject ++ rest) c = Recv io rest c' /\ similar c' c) as (c' & -> & Hs).
  { revert c Hopen Hforged. induction inject as [|w ws IH]; intros c Hopen Hforged; [by exists c|].
    apply Forall_cons in Hforged as [[Hf Hl] Hws]. cbn [concat]. rewrite <- app_assoc.
    destruct (Recv_forged io c w (concat ws ++ rest) Hopen Hf Hl) as (c1 & -> & Hs1 & Hc1).
    destruct (IH c1 Hc1) as (c2 & -> & Hs2); [|exists c2; split; [done|by etrans]].
    eapply Forall_impl; [exact Hws|]. intros w' [Hw' ?]. split; [|done].
    by rewrite (forged_similar c1 c w' Hc1 Hs1). }
  destruct (sim_Recv io rest c' c Hs) as (H1 & H2 & H3).
  destruct (Recv io rest c') as [[? ?] ?], (Recv io rest c) as [[? ?] ?]. by cbn in *.
Qed.

(** No operation can tell similar connections apart: on two states that
    differ in the drop counters and in the receive keys derived so far, every
    operation of the session writes the same frames, returns the same result and
    leaves similar states. *)
Theorem operation_similar (A : Type) (m : M A) (c d : Conn) (Hop : operation A m) (Hs : similar c d) :
  similar (m c).1.1 (m d).1.1 /\ (m c).1.2 = (m d).1.2 /\ (m c).2 = (m d).2.
Proof.
  assert (sim m m) as Hm; [|by apply Hm].
  destruct Hop as [ | | | | | |io x rnd t| | |acked| | ].
  - apply sim_Send.
  - apply sim_KeyUpdate.
  - apply sim_RatchetSend.
  - unfold ReKEM_check. repeat sim_step.
  - apply sim_ReKEM_request.
  - by apply sim_modify_commute.
  - destruct t; [by apply sim_reply, similar_Close..|apply sim_respondReKEM].
  - apply sim_Recv.
  - apply sim_CloseGraceful_start.
  - apply sim_modify. intros c1 d1 H1. apply similar_Close. destruct acked; [done|].
    by apply similar_commute.
  - apply sim_modify. intros c1 d1. apply similar_Close.
  - apply sim_modify. intros c1 d1. apply similar_Zeroize.
Qed.
End injection.

(** A cleartext frame, a frame with a future sequence number and a frame too short
    to hold a tag, sent to a fresh endpoint. *)
Definition attacks : list bytes :=
  [ marshal (mkFrame 2 0 0x0101 ChanMemory 0 (str "cleartext"));
    marshal (mkFrame 2 FlagENC 0x0101 ChanMemory 9 (str "replayed"));
    marshal (mkFrame 2 FlagENC 0x0101 ChanMemory 0 (str "forged")) ].

Lemma fresh_recv_key ch : exists st, recv_key server_conn ch = Ok st /\ k_seq st = 0.
Proof.
  destruct (fresh_key client_conn ch ltac:(by split_and!) (lookup_empty _)) as (st & Hk & _ & Hq).
  exists st. split; [|done]. rewrite <- Hk. symmetry. apply (in_sync_newConn (str "master") [] [] _ _).
Qed.

Lemma short_never_opens st ch q :
  openWith (H := Toy.crypto) st (mkFrame 2 FlagENC 0x0101 ch q (str "forged")) = Err ErrCrypto.
Proof.
  unfold openWith, OpenAES256GCM. cbn [Payload Seq]. set (aad := HeaderPrefix _ _).
  set (nonce := DeriveNonce _ _). generalize aad nonce. intros a n. cbn [gcm_open Toy.crypto]. unfold Toy.open.
  rewrite bool_decide_false; [done|]. intros Heq. apply (f_equal length) in Heq. revert Heq.
  unfold Toy.seal. rewrite length_app, Toy.length_tag. cbn [length str]. change (length (str "forged")) with 6%nat. lia.
Qed.

Lemma attacks_forged :
  Forall (fun w => forged (H := Toy.crypto) server_conn w = true /\ blen w <= MaxFrameSize) attacks.
Proof.
  destruct (fresh_recv_key ChanMemory) as (st & Hk & Hq). unfold forged.
  repeat apply Forall_cons_2; try apply Forall_nil_2; (split; [|by vm_compute]);
    (rewrite unmarshal_marshal; [|by vm_compute]); cbn [Flags Channel Seq Z.land].
  - reflexivity.
  - change (Z.land FlagENC FlagENC =? 0) with false. rewrite Hk, Hq. reflexivity.
  - change (Z.land FlagENC FlagENC =? 0) with false. rewrite Hk, Hq. by rewrite short_never_opens.
Qed.

Lemma genuine_frame :
  exists w, (Send (H := Toy.crypto) true ChanMemory 0x0101 (str "hello") client_conn).1.2 = [w] /\
    (Recv (H := Toy.crypto) true (s_wire w) server_conn).2 = Ok (Ok (ChanMemory, 0x0101, str "hello"), []).
Proof.
  destruct (fresh_key client_conn ChanMemory ltac:(by split_and!) eq_refl) as (st & Hk & _ & Hq).
  destruct (Send_live (H := Toy.crypto) (H0 := Toy.laws) client_conn ChanMemory 0x0101 (str "hello") st)
    as (w & _ & Hs); [by split_and!|done|by rewrite Hq|by vm_compute|].
  assert (in_sync client_conn server_conn) as Hsy
    by exact (in_sync_newConn (str "master") [] [] DirClientToServer DirServerToClient).
  assert (is_u16 ChanMemory /\ is_u16 0x0101) as [Hch Hft] by (split; split; [discriminate|reflexivity..|discriminate|reflexivity]).
  set (c1 := set_sendKeys _ _) in Hs. set (out := [_]) in Hs.
  destruct (Send_sync (H := Toy.crypto) (H0 := Toy.laws) true client_conn server_conn ChanMemory 0x0101
    (str "hello") c1 out [] Hsy Hch Hft ltac:(discriminate) ltac:(discriminate) ltac:(discriminate) Hs)
    as (s & R' & Ho & Hr & Hf & _).
  exists s. rewrite Hs, Ho. split; [reflexivity|].
  rewrite <- (app_nil_r (s_wire s)), (Recv_cons _ _ _ _ Hr). unfold mbind, M_bind. by rewrite Hf.
Qed.

Lemma injection_harmless_witness :
  exists w, (Send (H := Toy.crypto) true ChanMemory 0x0101 (str "hello") client_conn).1.2 = [w] /\
    (Recv (H := Toy.crypto) true (concat attacks ++ s_wire w) server_conn).2 =
      Ok (Ok (ChanMemory, 0x0101, str "hello"), []).
Proof.
  destruct genuine_frame as (w & Hw & Hg). exists w. split; [exact Hw|].
  pose proof (injection_harmless (H := Toy.crypto) true server_conn attacks (s_wire w) eq_refl attacks_forged) as Hi.
  destruct (Recv true (concat attacks ++ s_wire w) server_conn) as [[? ?] ?].
  destruct (Recv true (s_wire w) server_conn) as [[? ?] ?]. cbn [snd] in *. destruct Hi as (-> & _). exact Hg.
Defined.

Lemma operation_similar_witness :
  (Send (H := Toy.crypto) true ChanMemory 0x0101 (str "hello") (twist ∅ 5 7 server_conn)).1.2 =
  (Send (H := Toy.crypto) true ChanMemory 0x0101 (str "hello") server_conn).1.2.
Proof.
  assert (similar server_conn (twist ∅ 5 7 server_conn)) as Hs by (exists ∅, 5, 7; done).
  symmetry. refine (proj1 (proj2 (operation_similar (H := Toy.crypto) _ _ _ _ (op_send true ChanMemory 0x0101 (str "hello")) Hs))).
Defined.
