(* ===== verification/ConnClose.v ===== *)
(** * Teardown

    After [Zeroize] (and so after [Close]) the roots and every cached traffic key
    are all-zero octets and no operation seals, opens or derives anything. *)

From S2P Require Import Prelude Errors Registry Crypto Tlv Frame Aead Kem KeySchedule Transcript.
From S2P Require Import Handshake Cbor ErrorFrame Conn ConnLogic ConnLive ConnNonce ConnRecv.
From Stdlib Require Import Strings.Byte.
From stdpp Require Import gmap.
Open Scope Z_scope.

Definition zeros (b : bytes) : Prop := Forall (fun x => x = x00) b.

Definition keys_wiped (ks : gmap Z epochKeys) : Prop :=
  map_Forall (fun _ k => zeros (k_key k) /\ zeros (k_iv k)) ks.

(** A closed connection that holds no secret of the schedule. *)
Record wiped (c : Conn) : Prop := {
  w_closed : closed c = true;
  w_send : zeros (masterSend c);
  w_recv : zeros (masterRecv c);
  w_sendKeys : keys_wiped (sendKeys c);
  w_recvKeys : keys_wiped (recvKeys c)
}.

Lemma zeros_replicate n : zeros (replicate n x00).
Proof. apply Forall_replicate. reflexivity. Qed.

Lemma keys_wiped_zeroize ks : keys_wiped (zeroize <$> ks).
Proof.
  intros ch k Hk. rewrite lookup_fmap in Hk. destruct (ks !! ch) as [k0|]; [|done].
  injection Hk as <-. split; apply zeros_replicate.
Qed.

Lemma wiped_Zeroize c : wiped (Zeroize c).
Proof.
  split; [reflexivity|apply zeros_replicate|apply zeros_replicate|apply keys_wiped_zeroize..].
Qed.

(** The fields [wiped] speaks about. *)
Lemma wiped_fields c c' :
  closed c' = closed c -> masterSend c' = masterSend c -> masterRecv c' = masterRecv c ->
  sendKeys c' = sendKeys c -> recvKeys c' = recvKeys c -> wiped c -> wiped c'.
Proof. intros H1 H2 H3 H4 H5 []. split; by rewrite ?H1, ?H2, ?H3, ?H4, ?H5. Qed.

Lemma wiped_Close c : wiped c -> wiped (Close c).
Proof. intros Hw. unfold Close. destruct (rawClosed c); [done|apply wiped_Zeroize]. Qed.

(** An operation that does nothing on a wiped connection but bookkeeping. *)
Definition inert {A} (m : M A) : Prop :=
  forall c, wiped c -> wiped (m c).1.1 /\ (m c).1.2 = [].

Section inert.
Context `{Crypto}.

Lemma inert_ret {A} (a : A) : inert (mret a).
Proof. intros c Hw. done. Qed.

Lemma inert_bind {A B} (m : M A) (f : A -> M B) : inert m -> (forall a, inert (f a)) -> inert (m ≫= f).
Proof.
  intros Hm Hf c Hw. destruct (Hm c Hw) as [Hw1 Ho]. unfold mbind, M_bind.
  destruct (m c) as [[c1 o1] [a|e]]; cbn in *; [|done]. destruct (Hf a c1 Hw1) as [Hw2 Ho2].
  destruct (f a c1) as [[c2 o2] r]. cbn in *. by subst.
Qed.

(** Every path to a seal goes through [sendState], which refuses. *)
Lemma inert_sendState {A} ch (f : epochKeys -> M A) : inert (sendState ch ≫= f).
Proof.
  intros c Hw. unfold sendState, mbind, M_bind, get. cbn. by rewrite (w_closed _ Hw).
Qed.

Lemma inert_recvState {A} ch (f : result error epochKeys -> M A) :
  inert (f (Err errClosed)) -> inert (attempt (recvState ch) ≫= f).
Proof.
  intros Hf c Hw. unfold recvState, attempt, mbind, M_bind, get. cbn. rewrite (w_closed _ Hw). cbn.
  specialize (Hf c Hw). by destruct (f (Err errClosed) c) as [[? ?] ?].
Qed.

Lemma inert_modify g : (forall c, wiped c -> wiped (g c)) -> inert (modify g).
Proof. intros Hg c Hw. split; [by apply Hg|done]. Qed.

Lemma inert_attempt {A} (m : M A) : inert m -> inert (attempt m).
Proof. intros Hm c Hw. specialize (Hm c Hw). unfold attempt. by destruct (m c) as [[? ?] ?]. Qed.

Lemma inert_lift {A} (r : result error A) : inert (lift r).
Proof. intros c Hw. done. Qed.

Lemma inert_guard b e : inert (guard_err b e).
Proof. intros c Hw. by destruct b. Qed.

Lemma inert_get {A} (f : Conn -> M A) : (forall c, inert (f c)) -> inert (get ≫= f).
Proof. intros Hf. apply inert_bind; [done|exact Hf]. Qed.

Lemma inert_reply io ch ft pt g : inert (ignore (reply io ch ft pt g)).
Proof. apply inert_bind; [apply inert_attempt, inert_sendState|]. intros r. apply inert_ret. Qed.

Lemma inert_Close : inert (modify Close).
Proof. apply inert_modify, wiped_Close. Qed.

(** Frames that arrive are dropped or answered with the closed error. *)
Lemma inert_recv_frame wire : inert (recv_frame wire).
Proof.
  unfold recv_frame. destruct (UnmarshalBinary wire) as [f|]; [|apply inert_ret].
  case_match; [|by apply inert_recvState, inert_ret].
  apply inert_bind; [|intros; apply inert_ret]. apply inert_modify. intros c. by apply wiped_fields.
Qed.

Lemma inert_recvLocked n stream : inert (recvLocked n stream).
Proof.
  revert stream. induction n as [|n IH]; intros stream; cbn [recvLocked]; [apply inert_ret|].
  destruct (readFrame stream) as [[wire|e] rest]; [|apply inert_ret].
  apply inert_bind; [apply inert_recv_frame|]. intros [x|]; [apply inert_ret|apply IH].
Qed.

Lemma inert_react io x : inert (react io x).
Proof.
  destruct x as [[[ch ft] pt] [[e|]|code e| |e]]; cbn [react]; try apply inert_ret.
  all: repeat (apply inert_bind; [first [apply inert_Close|apply inert_reply]|intros []]); apply inert_ret.
Qed.

Lemma inert_respondReKEM io x rnd share target : inert (respondReKEM io x rnd share target).
Proof.
  apply inert_bind; [|intros; apply inert_ret]. apply inert_attempt.
  apply inert_bind; [apply inert_lift|]. intros [ct ss]. apply inert_get. intros c0.
  do 3 (apply inert_bind; [apply inert_lift || apply inert_guard|intros ?]). apply inert_sendState.
Qed.

Lemma inert_sendClose io : inert (sendClose io).
Proof.
  apply inert_get. intros c0. destruct (closed c0); [apply inert_ret|apply inert_sendState].
Qed.

(** C35: Teardown is final.  [Zeroize] leaves a closed connection whose two roots
    and whose cached traffic keys are all zero and which holds no pending key
    exchange; and from such a state every operation of the session, with any
    arguments and any incoming octets, writes no frame and leaves the connection
    closed and wiped. *)
Theorem teardown_final (c : Conn) :
  (wiped (Zeroize c) /\ c_pendingReKEM (Zeroize c) = None) /\
  forall A (m : M A) d, operation A m -> wiped d -> wiped (m d).1.1 /\ (m d).1.2 = [].
Proof.
  split; [by split; [apply wiped_Zeroize|]|].
  intros A m d Hop. assert (inert m) as Hm; [|apply Hm]. destruct Hop as [ | | | | | |io x rnd t| | |acked| | ].
  - apply inert_sendState.
  - apply inert_sendState.
  - apply inert_get. intros c0. apply inert_bind; [apply inert_guard|]. intros []. apply inert_sendState.
  - apply inert_get. intros c0. apply inert_guard.
  - apply inert_get. intros c0. apply inert_bind; [apply inert_guard|]. intros []. apply inert_sendState.
  - apply inert_modify. intros c0. by apply wiped_fields.
  - destruct t; [apply inert_reply..|apply inert_respondReKEM].
  - apply inert_bind; [apply inert_recvLocked|]. intros [x rest].
    apply inert_bind; [apply inert_react|]. intros r. apply inert_ret.
  - apply inert_bind; [apply inert_attempt, inert_sendClose|].
    intros [[]|]; [apply inert_ret|..]; (apply inert_bind; [apply inert_Close|intros; apply inert_ret]).
  - apply inert_modify. intros c0 Hw. apply wiped_Close. destruct acked; [done|].
    revert Hw. by apply wiped_fields.
  - apply inert_Close.
  - apply inert_modify. intros c0 _. apply wiped_Zeroize.
Qed.
End inert.

(** A send after [Zeroize] on a connection that has sent before. *)
Lemma teardown_final_witness :
  let c := (Send (H := Toy.crypto) true ChanMemory 0x0101 (str "a") client_conn).1.1 in
  (Send (H := Toy.crypto) true ChanMemory 0x0101 (str "b") (Zeroize c)).1.2 = [].
Proof.
  intros c. set (T := teardown_final (H := Toy.crypto) c).
  exact (proj2 (proj2 T _ _ (Zeroize c) (op_send true ChanMemory 0x0101 (str "b")) (proj1 (proj1 T)))).
Defined.
