(* ===== verification/ConnRekem.v ===== *)
(** * The re-KEM exchange

    Two endpoints in step run a Tier-2 step: request, reply, root advance.  The
    exchange completes, both ends hold the same new root for the healed direction,
    and they are in step again in both directions. *)

From S2P Require Import Prelude Errors Registry Sha256 Crypto Tlv Frame Aead Kem KeySchedule Transcript.
From S2P Require Import Handshake Cbor ErrorFrame Conn ConnLogic ConnLive ConnRecv ConnSync.
From Stdlib Require Import Strings.Byte.
From stdpp Require Import gmap.
Open Scope Z_scope.

(** ** The messages *)

Lemma parse_rekem_encoded typ size e v gen :
  is_u16 typ -> is_u64 gen -> blen v = size -> size < 2 ^ 16 ->
  parse_rekem typ size e (TLV_Encode (mkTLV TLVRatchetGeneration (be_put 8 gen)) (TLV_Encode (mkTLV typ v) []))
  = Ok (v, gen).
Proof.
  intros Ht Hg Hv Hs. pose proof (be_get_put_small 8 gen Hg) as Hgg. pose proof (blen_be_put 8 gen) as Hb.
  revert Hgg Hb. generalize (be_put 8 gen). intros w Hgg Hb. unfold parse_rekem.
  change (TLV_Encode (mkTLV TLVRatchetGeneration w) (TLV_Encode (mkTLV typ v) []))
    with (encode_tlvs [mkTLV typ v; mkTLV TLVRatchetGeneration w]).
  rewrite decode_encode_tlvs.
  2:{ split; [|done]. apply Forall_cons_2; [by split; [|cbn; lia]|].
      apply Forall_singleton. split; [done|]. cbn. by rewrite Hb. }
  cbn [mbind result_bind TLVType TLVValue]. by rewrite !Z.eqb_refl, Hv, Z.eqb_refl, Hb, Hgg.
Qed.

Section exchange.
Context `{CryptoLaws}.


Lemma encodeReKEM_size typ v gen :
  blen (TLV_Encode (mkTLV TLVRatchetGeneration (be_put 8 gen)) (TLV_Encode (mkTLV typ v) [])) = blen v + 16.
Proof.
  rewrite !TLV_Encode_app, app_nil_l, blen_app. unfold encode_tlv, TLV_Encode. cbn [TLVType TLVValue].
  rewrite !app_nil_l, !blen_app, !blen_be_put. lia.
Qed.

(** A well-formed request is queued for the responder. *)
Lemma dispatch_rekem st share gen P :
  blen share = KEMShareSize768 -> is_u64 gen ->
  dispatch st ChanControl FrameReKEM (encodeReKEM share gen) P =
    (set_tasks (tasks P ++ [TRespondReKEM share gen]) P, [], Ok None).
Proof.
  intros Hs Hg. unfold dispatch, on_control.
  change (FrameReKEM =? FrameKeyUpdate) with false. change (FrameReKEM =? FrameKeyUpdateAck) with false.
  change (FrameReKEM =? FrameMasterRatchet) with false.
  change (FrameReKEM =? FrameMasterRatchetAck) with false. rewrite !Z.eqb_refl.
  unfold handled. eapply step_bind.
  - apply step_attempt. unfold handleReKEM, parseReKEM, encodeReKEM.
    step by (apply step_lift, parse_rekem_encoded; [done|done|done|by vm_compute]). reflexivity.
    all: reflexivity.
  - reflexivity.
  - reflexivity.
Qed.

(** The request of a live initiator. *)
Lemma ReKEM_request_runs I client st :
  live I -> send_key I ChanControl = Ok st -> k_seq st <> maxSeq ->
  let target := u64 (genRecv I + 1) in
  exists wire, sealWith st ChanControl FrameReKEM (encodeReKEM (KEMShare client) target) = Ok wire /\
    blen wire <= MaxFrameSize /\
    ReKEM_request true client I =
      (set_sendKeys <[ChanControl := bump st]> (set_sendKeys <[ChanControl := st]> I),
       [mkSent (genSend I) ChanControl (k_epoch st) (k_seq st) wire],
       Ok (mkPending client (KEMShare client) target)).
Proof.
  intros HI Hk Hseq target.
  destruct (live_seal I ChanControl FrameReKEM (encodeReKEM (KEMShare client) target) HI)
    as (st' & wire & Hk' & Hw & Hmax & Hss & Hwr).
  { unfold encodeReKEM. rewrite encodeReKEM_size, blen_KEMShare. by vm_compute. }
  rewrite Hk in Hk'. injection Hk' as <-. destruct HI as (Hc & Hraw & Hp).
  exists wire. split; [exact Hw|]. split; [exact Hmax|]. unfold ReKEM_request.
  step by reflexivity. step by (by apply step_guard). step by exact Hss.
  step by (by apply step_guard, Z.eqb_neq). step by (by apply step_lift). step by (by apply Hwr).
  step by reflexivity. reflexivity. all: reflexivity.
Qed.

Lemma ReKEM_runs I P client st rest :
  live I -> in_sync I P -> c_pendingReKEM I = None ->
  send_key I ChanControl = Ok st -> k_seq st <> maxSeq ->
  let target := u64 (genRecv I + 1) in
  let pend := mkPending client (KEMShare client) target in
  exists s, ReKEM true client I =
      (set_pending (Some pend) (pendingKUAck I) (pendingMRAck I)
         (set_sendKeys <[ChanControl := bump st]> (set_sendKeys <[ChanControl := st]> I)), [s], Ok tt) /\
    readFrame (s_wire s ++ rest) = (Ok (s_wire s), rest) /\
    recv_frame (s_wire s) P =
      (let P1 := set_recvKeys <[ChanControl := bump st]> P in
       set_tasks (tasks P1 ++ [TRespondReKEM (KEMShare client) target]) P1, [], Ok None).
Proof.
  intros HI Hs Hpend Hk Hseq target pend.
  destruct (ReKEM_request_runs I client st HI Hk Hseq) as (wire & Hw & Hmax & Hreq).
  destruct (sealed_received _ _ _ _ _ _ _ rest Hs Hk Hw ltac:(done) ltac:(done) Hmax) as [Hr1 Hr2].
  exists (mkSent (genSend I) ChanControl (k_epoch st) (k_seq st) wire). cbn [s_wire].
  split; [|split; [exact Hr1|]].
  - assert (ReKEM_check I = (I, [], Ok tt)) as Hchk
      by (unfold ReKEM_check; step by reflexivity; [apply step_guard; by rewrite Hpend|done]).
    unfold ReKEM. step by exact Hchk. step by exact Hreq. reflexivity. all: reflexivity.
  - rewrite Hr2. apply dispatch_rekem; [apply blen_KEMShare|apply u64_range].
Qed.

(** The reply of a live responder to the request it has queued. *)
Lemma respondReKEM_runs P I share x rnd ct ss th nr st rest :
  live P -> in_sync P I -> Encapsulate share x rnd = Ok (ct, ss) ->
  let target := u64 (genSend P + 1) in
  thRekem (c_profile P) share ct target = Ok th ->
  RatchetMasterTier2 (masterSend P) (Combined ss) th (c_profile P) = Ok nr ->
  send_key P ChanControl = Ok st ->
  exists s, respondReKEM true x rnd share target P =
      (set_sendRoot nr target ∅ (set_sendKeys <[ChanControl := bump st]> (set_sendKeys <[ChanControl := st]> P)),
       [s], Ok tt) /\
    readFrame (s_wire s ++ rest) = (Ok (s_wire s), rest) /\
    recv_frame (s_wire s) I =
      dispatch (bump st) ChanControl FrameReKEMAck (encodeReKEMAck ct target)
        (set_recvKeys <[ChanControl := bump st]> I).
Proof.
  intros HP Hs He target Hth Hnr Hk.
  assert (blen ct = KEMCiphertextSize768) as Hct by (eapply Encapsulate_size; exact He).
  destruct (live_seal P ChanControl FrameReKEMAck (encodeReKEMAck ct target) HP)
    as (st' & wire & Hk' & Hw & Hmax & Hss & Hwr).
  { unfold encodeReKEMAck. rewrite encodeReKEM_size, Hct. by vm_compute. }
  rewrite Hk in Hk'. injection Hk' as <-.
  destruct (sealed_received _ _ _ _ _ _ _ rest Hs Hk Hw ltac:(done) ltac:(done) Hmax) as [Hr1 Hr2].
  exists (mkSent (genSend P) ChanControl (k_epoch st) (k_seq st) wire). cbn [s_wire].
  split; [|by split]. destruct HP as (Hc & Hraw & Hp). unfold respondReKEM, ignore. eapply step_bind.
  - apply step_attempt.
    step by (by apply step_lift). cbn beta iota. step by reflexivity. step by (by apply step_lift).
    step by (by apply step_guard). step by (apply step_guard; by rewrite Z.eqb_refl).
    step by exact Hss. step by (by apply step_lift). step by (apply step_on_error; by apply Hwr).
    step by reflexivity. step by (apply step_on_error; by apply step_lift). reflexivity.
    all: reflexivity.
  - reflexivity.
  - reflexivity.
Qed.

(** The initiator finishes: the pending exchange is consumed and its receive root
    steps to the same value. *)
Lemma dispatch_rekem_ack st I pend ct ss th nr :
  let gen := u64 (genRecv I + 1) in
  c_pendingReKEM I = Some pend -> pr_targetGen pend = gen -> blen ct = KEMCiphertextSize768 ->
  KEMClient_SharedSecrets (pr_client pend) ct = Ok ss ->
  thRekem (c_profile I) (pr_kemShare pend) ct gen = Ok th ->
  RatchetMasterTier2 (masterRecv I) (Combined ss) th (c_profile I) = Ok nr ->
  dispatch st ChanControl FrameReKEMAck (encodeReKEMAck ct gen) I =
    (set_recvRoot nr gen ∅ (set_pending None (pendingKUAck I) (pendingMRAck I) I), [], Ok None).
Proof.
  intros gen Hpend Htg Hct Hss Hth Hnr. unfold dispatch, on_control.
  change (FrameReKEMAck =? FrameKeyUpdate) with false.
  change (FrameReKEMAck =? FrameKeyUpdateAck) with false.
  change (FrameReKEMAck =? FrameMasterRatchet) with false.
  change (FrameReKEMAck =? FrameMasterRatchetAck) with false.
  change (FrameReKEMAck =? FrameReKEM) with false. rewrite !Z.eqb_refl.
  unfold handled. eapply step_bind.
  - apply step_attempt. unfold handleReKEMAck, parseReKEMAck, encodeReKEMAck.
    step by (apply step_lift, parse_rekem_encoded; [done|apply u64_range|done|by vm_compute]).
    cbn beta iota. step by reflexivity. step by reflexivity. rewrite Hpend.
    step by (apply step_guard; rewrite Htg; fold gen; by rewrite Z.eqb_refl).
    step by (by apply step_lift). step by (by apply step_lift). step by (by apply step_lift). reflexivity.
    all: reflexivity.
  - reflexivity.
  - reflexivity.
Qed.

(** C8: A Tier-2 exchange completes and heals.  Two live endpoints in step in both
    directions, with no exchange pending at the initiator and Control sequence
    numbers left: if the key exchange itself succeeds, the initiator writes one
    request, the responder queues it and its goroutine writes one reply, and the
    initiator's next receive finishes the exchange.  Then both ends hold the same
    new root for the responder's send direction, computed from the old root, the
    fresh secret and the transcript of this exchange; nothing is left pending; and
    the endpoints are in step again in both directions. *)
Theorem rekem_heals (I P : Conn) (client : KEMClient) (seed xk x rnd ct : bytes) (ss : SharedSecrets)
    (HI : live I) (HP : live P) (Hio : in_sync I P) (Hoi : in_sync P I)
    (Hnone : c_pendingReKEM I = None)
    (Hleft : forall st, send_key I ChanControl = Ok st -> k_seq st <> maxSeq)
    (Hclient : NewKEMClient seed xk = Ok client) (Hrec : mlkem_recovers seed rnd)
    (Henc : Encapsulate (KEMShare client) x rnd = Ok (ct, ss)) :
  let target := u64 (genRecv I + 1) in
  let request := TRespondReKEM (KEMShare client) target in
  exists I1 s1 P1 P2 s2 I2 th nr,
    ReKEM true client I = (I1, [s1], Ok tt) /\
    recv_frame (s_wire s1) P = (P1, [], Ok None) /\ tasks P1 = tasks P ++ [request] /\
    run_task true x rnd request P1 = (P2, [s2], Ok tt) /\
    recv_frame (s_wire s2) I1 = (I2, [], Ok None) /\
    thRekem ProfileStandard (KEMShare client) ct target = Ok th /\
    RatchetMasterTier2 (masterRecv I) (Combined ss) th ProfileStandard = Ok nr /\
    masterSend P2 = nr /\ masterRecv I2 = nr /\ genSend P2 = target /\ genRecv I2 = target /\
    c_pendingReKEM I2 = None /\ in_sync I2 P2 /\ in_sync P2 I2.
Proof.
  intros target request.
  destruct (live_seal I ChanControl FrameReKEM [] HI) as (st & _ & Hk & _); [by vm_compute|].
  destruct (ReKEM_runs I P client st [] HI Hio Hnone Hk (Hleft st Hk)) as (s1 & HR & _ & Hrf).
  pose proof (in_sync_bump _ _ _ _ Hio Hk) as Hio1. cbn zeta in HR, Hrf. fold target request in HR, Hrf.
  set (I1 := set_pending _ _ _ _) in HR. set (P1 := set_tasks _ _) in Hrf.
  assert (in_sync P1 I1) as Hoi1 by (eapply in_sync_sides; [| |exact Hoi]; reflexivity).
  assert (in_sync I1 P1) as Hio1' by (eapply in_sync_sides; [| |exact Hio1]; reflexivity).
  assert (live P1) as HP1 by exact HP.
  destruct (live_seal P1 ChanControl FrameReKEM [] HP1) as (st2 & _ & Hk2 & _); [by vm_compute|].
  destruct (thRekem_standard (KEMShare client) ct target) as (th & Hth).
  destruct (tier2_standard (masterRecv I) (Combined ss) th) as (nr & Hnr).
  pose proof (proj2 (proj2 HI)) as HpI. pose proof (proj2 (proj2 HP)) as HpP.
  assert (u64 (genSend P1 + 1) = target) as Htgt by (unfold target; by rewrite <- (sy_gen _ _ Hoi)).
  destruct (respondReKEM_runs P1 I1 (KEMShare client) x rnd ct ss th nr st2 [] HP1 Hoi1 Henc)
    as (s2 & HR2 & _ & Hrf2); [rewrite Htgt; by rewrite <- HpP in Hth| |done|].
  { rewrite <- HpP, <- (sy_root _ _ Hoi) in Hnr. exact Hnr. }
  rewrite Htgt in HR2, Hrf2.
  pose proof (in_sync_bump _ _ _ _ Hoi1 Hk2) as Hoi2.
  set (I1' := set_recvKeys <[ChanControl := bump st2]> I1) in *.
  assert (recv_frame (s_wire s2) I1 =
    (set_recvRoot nr target ∅ (set_pending None (pendingKUAck I1') (pendingMRAck I1') I1'), [], Ok None)) as Hfin.
  { rewrite Hrf2. eapply (dispatch_rekem_ack (bump st2) I1'); [reflexivity|reflexivity| | | |].
    - eapply Encapsulate_size. exact Henc.
    - exact (kem_agreement _ _ _ _ _ _ _ Hclient Hrec Henc).
    - rewrite <- HpI in Hth. exact Hth.
    - rewrite <- HpI in Hnr. exact Hnr. }
  eexists I1, s1, P1, _, s2, _, th, nr.
  split; [exact HR|]. split; [exact Hrf|]. split; [reflexivity|]. split; [exact HR2|].
  split; [exact Hfin|]. split; [exact Hth|]. split; [exact Hnr|].
  do 4 (split; [reflexivity|]). split; [reflexivity|]. split.
  - eapply in_sync_sides; [| |exact Hio1']; reflexivity.
  - eapply in_sync_sides; [| |apply (in_sync_root _ _ nr target Hoi2)]; reflexivity.
Qed.
End exchange.

Definition rekem_seed : bytes := replicate 64 x01.
Definition rekem_x : bytes := replicate 32 x03.
Definition rekem_rnd : bytes := replicate 32 x05.

Lemma rekem_heals_witness :
  let I := newConn (str "master") [] DirClientToServer DirServerToClient in
  let P := newConn (str "master") [] DirServerToClient DirClientToServer in
  exists I1 s1 P1 P2 s2 I2,
    ReKEM (H := Toy.crypto) true (mkKEMClient rekem_seed rekem_x) I = (I1, [s1], Ok tt) /\
    recv_frame (H := Toy.crypto) (s_wire s1) P = (P1, [], Ok None) /\
    run_task (H := Toy.crypto) true rekem_x rekem_rnd
      (TRespondReKEM (KEMShare (H := Toy.crypto) (mkKEMClient rekem_seed rekem_x)) 1) P1 = (P2, [s2], Ok tt) /\
    recv_frame (H := Toy.crypto) (s_wire s2) I1 = (I2, [], Ok None) /\
    masterSend P2 = masterRecv I2 /\ in_sync I2 P2 /\ in_sync P2 I2.
Proof.
  intros I P.
  assert (exists ct ss, Encapsulate (H := Toy.crypto)
    (KEMShare (H := Toy.crypto) (mkKEMClient rekem_seed rekem_x)) rekem_x rekem_rnd = Ok (ct, ss))
    as (ct & ss & Henc) by (eexists _, _; vm_compute; reflexivity).
  destruct (rekem_heals (H := Toy.crypto) (H0 := Toy.laws) I P (mkKEMClient rekem_seed rekem_x)
    rekem_seed rekem_x rekem_x rekem_rnd ct ss) as (I1 & s1 & P1 & P2 & s2 & I2 & th & nr & Hx).
  - by split_and!.
  - by split_and!.
  - apply in_sync_newConn.
  - apply in_sync_newConn.
  - reflexivity.
  - intros st Hk. assert (k_seq st = 0) as ->; [|done].
    unfold send_key, derive in Hk. cbn -[DeriveTrafficSecret DeriveKeyIV] in Hk.
    destruct (DeriveTrafficSecret _ _ _ _ _ _); [|done]. cbn -[DeriveKeyIV] in Hk.
    destruct (DeriveKeyIV _ _) as [[? ?]|]; [|done]. cbn in Hk. by injection Hk as <-.
  - vm_compute. reflexivity.
  - vm_compute. reflexivity.
  - exact Henc.
  - exists I1, s1, P1, P2, s2, I2. destruct Hx as (H1 & H2 & _ & H3 & H4 & _ & _ & H5 & H6 & _ & _ & _ & H7 & H8).
    split_and!; try assumption. by rewrite H5, H6.
Defined.
