(* ===== verification/ConnControl.v ===== *)
(** * Control frames: correlation of acknowledgements and the total default

    The pending-acknowledgement table refines a multiset of announcements, and the
    dispatch on an authenticated frame is classified completely: what reaches the
    application, what is consumed silently, and what ends the session with a sealed
    ERROR that the peer decodes. *)

From S2P Require Import Prelude Errors Registry Crypto Tlv Frame Aead Kem KeySchedule Transcript.
From S2P Require Import Handshake Cbor ErrorFrame Conn ConnLogic ConnLive ConnRecv ConnSync ConnClose ConnRekem.
From Stdlib Require Import Strings.Byte.
From stdpp Require Import gmap gmultiset.
Open Scope Z_scope.

(** ** Pending key-update acknowledgements as a multiset *)

(** How many acknowledgements of an epoch on a channel are outstanding. *)
Definition outstanding (c : Conn) (ch epoch : Z) : Z :=
  default 0 (pendingKUAck c !! ch ≫= fun set => set !! epoch).

(** The table stands for the multiset of (channel, epoch) announcements. *)
Definition represents (c : Conn) (m : gmultiset (Z * Z)) : Prop :=
  forall ch epoch, outstanding c ch epoch = Z.of_nat (multiplicity (ch, epoch) m).

Lemma outstanding_decrement c ch e set ku ch' e' :
  pendingKUAck c !! ch = Some set -> ku = decrement ch e set (pendingKUAck c) ->
  default 0 (ku !! ch' ≫= fun set => set !! e') =
    if bool_decide ((ch', e') = (ch, e)) then default 0 (set !! e) - 1 else outstanding c ch' e'.
Proof.
  intros Hset ->. unfold decrement, outstanding.
  set (n := default 0 (set !! e) - 1).
  set (set' := if n =? 0 then delete e set else <[e := n]> set).
  assert (forall e', default 0 (set' !! e') = if bool_decide (e' = e) then n else default 0 (set !! e')) as Hs'.
  { intros e1. unfold set'. destruct (n =? 0) eqn:En.
    - apply Z.eqb_eq in En. rewrite lookup_delete. repeat case_decide; repeat case_bool_decide; simplify_eq; try done.
    - rewrite lookup_insert. repeat case_decide; repeat case_bool_decide; by simplify_eq. }
  assert (default 0 ((if bool_decide (set' = ∅) then delete ch (pendingKUAck c)
      else <[ch := set']> (pendingKUAck c)) !! ch' ≫= fun set => set !! e')
    = if bool_decide (ch' = ch) then default 0 (set' !! e') else outstanding c ch' e') as ->.
  { case_bool_decide as He; rewrite ?lookup_delete, ?lookup_insert;
      repeat case_decide; repeat case_bool_decide; simplify_eq; try done.
    cbn. rewrite He. by rewrite lookup_empty. }
  repeat case_bool_decide; simplify_eq; rewrite ?Hs'; repeat case_bool_decide; simplify_eq; try done.
  unfold outstanding. by rewrite Hset.
Qed.

Lemma represents_new master peer sd rd : represents (newConn master peer sd rd) ∅.
Proof. intros ch e. unfold outstanding. cbn. by rewrite multiplicity_empty. Qed.

Lemma represents_add c m ch e :
  represents c m -> represents (addPendingKeyUpdateAck ch e c) ({[+ (ch, e) +]} ⊎ m).
Proof.
  intros Hr ch' e'. specialize (Hr ch' e'). revert Hr. unfold outstanding, addPendingKeyUpdateAck. cbn [pendingKUAck set_pending].
  rewrite multiplicity_disj_union, lookup_insert. case_decide as Hch; cbn [mbind option_bind].
  - subst ch'. rewrite lookup_insert. case_decide as He.
    + subst e'. rewrite multiplicity_singleton_eq.
      destruct (pendingKUAck c !! ch) as [set|]; cbn [mbind option_bind]; unfold default, id; try rewrite lookup_empty; lia.
    + rewrite multiplicity_singleton_ne by congruence.
      destruct (pendingKUAck c !! ch) as [set|]; cbn [mbind option_bind]; unfold default, id; try rewrite lookup_empty; lia.
  - rewrite multiplicity_singleton_ne by congruence. lia.
Qed.

(** Taking one announcement out of the table. *)
Lemma represents_decrement c m ch e set rk mr :
  represents c m -> pendingKUAck c !! ch = Some set -> 0 < default 0 (set !! e) ->
  represents (set_pending rk (decrement ch e set (pendingKUAck c)) mr c) (m ∖ {[+ (ch, e) +]}).
Proof.
  intros Hr Hset Hpos ch' e'. unfold outstanding. cbn [pendingKUAck set_pending].
  rewrite (outstanding_decrement c ch e set _ ch' e' Hset eq_refl), multiplicity_difference.
  case_bool_decide as Hx.
  - injection Hx as -> ->. rewrite multiplicity_singleton_eq. specialize (Hr ch e).
    unfold outstanding in Hr. rewrite Hset in Hr. cbn [mbind option_bind] in Hr. lia.
  - rewrite multiplicity_singleton_ne by congruence. rewrite Hr. lia.
Qed.

Lemma difference_absent (m : gmultiset (Z * Z)) x : x ∉ m -> m ∖ {[+ x +]} = m.
Proof.
  intros Hx. apply gmultiset_eq. intros y. rewrite multiplicity_difference.
  destruct (decide (y = x)) as [->|]; [|rewrite multiplicity_singleton_ne by done; lia].
  rewrite multiplicity_singleton_eq. apply not_elem_of_multiplicity in Hx. lia.
Qed.

(** One operation on the table. *)
Inductive ack_op : Type :=
| AckAdd (ch epoch : Z)       (* a KEY_UPDATE is about to be written *)
| AckRollback (ch epoch : Z)  (* its write failed *)
| AckArrived (ch epoch : Z).  (* a KEY_UPDATE_ACK was received *)

(** On the connection: the new state and, for an arrival, whether it was accepted. *)
Definition ack_step (o : ack_op) (c : Conn) : Conn * bool :=
  match o with
  | AckAdd ch e => (addPendingKeyUpdateAck ch e c, true)
  | AckRollback ch e => (removePendingKeyUpdateAck ch e c, true)
  | AckArrived ch e => consumePendingKeyUpdateAck ch e c
  end.

(** On the multiset of announcements. *)
Definition ack_spec (o : ack_op) (m : gmultiset (Z * Z)) : gmultiset (Z * Z) * bool :=
  match o with
  | AckAdd ch e => ({[+ (ch, e) +]} ⊎ m, true)
  | AckRollback ch e => (m ∖ {[+ (ch, e) +]}, true)
  | AckArrived ch e => (m ∖ {[+ (ch, e) +]}, bool_decide ((ch, e) ∈ m))
  end.

Fixpoint ack_run {S} (step : ack_op -> S -> S * bool) (os : list ack_op) (s : S) : S * list bool :=
  match os with
  | [] => (s, [])
  | o :: os => let '(s, b) := step o s in let '(s, bs) := ack_run step os s in (s, b :: bs)
  end.

Lemma ack_step_refines o c m :
  represents c m ->
  represents (ack_step o c).1 (ack_spec o m).1 /\ (ack_step o c).2 = (ack_spec o m).2.
Proof.
  intros Hr. destruct o as [ch e|ch e|ch e]; cbn [ack_step ack_spec fst snd].
  - split; [by apply represents_add|done].
  - split; [|done]. unfold removePendingKeyUpdateAck. pose proof (Hr ch e) as Hce. unfold outstanding in Hce.
    destruct (pendingKUAck c !! ch) as [set|] eqn:Hset; cbn [mbind option_bind] in Hce.
    + destruct (0 <? default 0 (set !! e)) eqn:Hpos; bprop.
      * apply represents_decrement; [done|done|lia].
      * rewrite difference_absent by (apply not_elem_of_multiplicity; lia).
        case_bool_decide as Hemp; [|exact Hr]. intros ch' e'. rewrite <- (Hr ch' e').
        unfold outstanding. cbn [pendingKUAck set_pending]. rewrite lookup_delete. case_decide as Hch; [|done].
        subst. by rewrite Hset.
    + rewrite difference_absent by (apply not_elem_of_multiplicity; cbn in Hce; lia). done.
  - unfold consumePendingKeyUpdateAck. pose proof (Hr ch e) as Hce. unfold outstanding in Hce.
    destruct (pendingKUAck c !! ch) as [set|] eqn:Hset; cbn [mbind option_bind] in Hce.
    + destruct (default 0 (set !! e) =? 0) eqn:H0; bprop; cbn [fst snd].
      * assert ((ch, e) ∉ m) as Hni by (apply not_elem_of_multiplicity; lia).
        rewrite difference_absent, bool_decide_false by done. done.
      * assert ((ch, e) ∈ m) as Hin by (apply elem_of_multiplicity; lia).
        rewrite bool_decide_true by done. split; [|done]. apply represents_decrement; [done|done|lia].
    + assert ((ch, e) ∉ m) as Hni by (apply not_elem_of_multiplicity; cbn in Hce; lia).
      rewrite difference_absent, bool_decide_false by done. done.
Qed.

(** The pending table implements a multiset of announcements.  For any sequence
    of registrations, rollbacks and arriving acknowledgements on a new connection,
    each acknowledgement is accepted exactly when the multiset of announced and not
    yet acknowledged (channel, epoch) pairs contains it, however many announcements
    of the same epoch are outstanding. *)
Theorem pending_acks_multiset (os : list ack_op) (master peer : bytes) (sd rd : Z) :
  (ack_run ack_step os (newConn master peer sd rd)).2 = (ack_run ack_spec os ∅).2 /\
  represents (ack_run ack_step os (newConn master peer sd rd)).1 (ack_run ack_spec os ∅).1.
Proof.
  generalize (represents_new master peer sd rd).
  generalize (newConn master peer sd rd), (∅ : gmultiset (Z * Z)).
  induction os as [|o os IH]; intros c m Hr; [done|]. cbn [ack_run].
  destruct (ack_step_refines o c m Hr) as [Hr' Hb].
  destruct (ack_step o c) as [c' b], (ack_spec o m) as [m' b']. cbn [fst snd] in *. subst b'.
  destruct (IH c' m' Hr') as [Hbs Hrs].
  destruct (ack_run ack_step os c'), (ack_run ack_spec os m'). cbn [fst snd] in *. by subst.
Qed.

(** ** Frames with no legal transition *)

(** The types the Control channel knows in an established session. *)
Definition control_types : list Z :=
  [FrameKeyUpdate; FrameKeyUpdateAck; FrameMasterRatchet; FrameMasterRatchetAck; FrameReKEM;
   FrameReKEMAck; FrameClose; FrameCloseAck; FrameError].

Section fatal.
Context `{CryptoLaws}.

Lemma dispatch_default st ft pt c :
  ft ∉ control_types ->
  dispatch st ChanControl ft pt c =
    (c, [], Ok (Some (reject ErrCodeUnexpectedMessage ErrUnexpectedFrame))).
Proof.
  intros Hft. unfold dispatch, on_control. rewrite Z.eqb_refl.
  repeat match goal with |- context [ft =? ?t] =>
    replace (ft =? t) with false
      by (symmetry; apply Z.eqb_neq; intros ->; apply Hft; unfold control_types; set_solver)
  end. reflexivity.
Qed.

(** A peer's ERROR is advisory. *)
Lemma dispatch_error st code ctx c :
  is_u8 code -> blen ctx < 2 ^ 16 ->
  dispatch st ChanControl FrameError (EncodeErrorBody code ctx) c =
    (c, [], Ok (Some (0, 0, [], actPeerError (ErrSessionError code ctx)))).
Proof.
  intros Hc Hl. unfold dispatch, on_control.
  change (FrameError =? FrameKeyUpdate) with false. change (FrameError =? FrameKeyUpdateAck) with false.
  change (FrameError =? FrameMasterRatchet) with false.
  change (FrameError =? FrameMasterRatchetAck) with false. change (FrameError =? FrameReKEM) with false.
  change (FrameError =? FrameReKEMAck) with false. change (FrameError =? FrameClose) with false.
  change (FrameError =? FrameCloseAck) with false. rewrite !Z.eqb_refl.
  by rewrite decode_error_encoded.
Qed.

Lemma blen_encodeHead major arg : 1 <= blen (encodeHead major arg) <= 9.
Proof.
  unfold encodeHead. repeat case_match; rewrite ?blen_cons, ?blen_be_put; unfold blen; cbn; lia.
Qed.

(** The sealed ERROR of a live endpoint, the teardown after it, and what the peer
    makes of it. *)
Lemma react_fatal R S code e :
  live R -> live S -> in_sync R S -> is_u8 code ->
  exists R1 s S1, react true (reject code e) R = (R1, [s], Ok (Err e)) /\ wiped R1 /\ rawClosed R1 = true /\
    Recv true (s_wire s) S = (S1, [], Ok (Err (ErrSessionError code []), [])) /\
    wiped S1 /\ rawClosed S1 = true.
Proof.
  intros HR HS Hs Hcode.
  assert (blen (EncodeErrorBody code []) + 16 + HeaderSize <= MaxFrameSize) as Hsz.
  { rewrite EncodeErrorBody_eq, !blen_app. pose proof (blen_encodeHead 0 code).
    pose proof (blen_encodeHead 2 0). change MaxFrameSize with 16777216. unfold HeaderSize.
    change (blen [xa2; x01]) with 2. change (blen [x02]) with 1. change (blen (A := byte) []) with 0. lia. }
  destruct (live_seal R ChanControl FrameError (EncodeErrorBody code []) HR Hsz)
    as (st & wire & Hk & Hw & Hmax & Hss & Hwr).
  destruct (sealed_received _ _ _ _ _ _ _ [] Hs Hk Hw ltac:(done) ltac:(done) Hmax) as [Hr1 Hr2].
  eexists _, (mkSent (genSend R) ChanControl (k_epoch st) (k_seq st) wire), _. cbn [s_wire].
  assert (reply true ChanControl FrameError (EncodeErrorBody code []) id R =
    (set_sendKeys <[ChanControl := bump st]> (set_sendKeys <[ChanControl := st]> R),
     [mkSent (genSend R) ChanControl (k_epoch st) (k_seq st) wire], Ok tt)) as Hrep.
  { unfold reply. step by exact Hss. step by (by apply step_lift).
    step by (apply step_on_error; apply Hwr; [done|apply HR]). reflexivity. all: reflexivity. }
  destruct HR as (_ & HR2 & _), HS as (HS1 & HS2 & _). split; [|split; [|split; [|split; [|split]]]].
  - unfold react, reject. eapply step_bind.
    { unfold sendSessionError, ignore. eapply step_bind; [apply step_attempt; exact Hrep|reflexivity|reflexivity]. }
    2: reflexivity. step by reflexivity. reflexivity. reflexivity.
  - unfold Close. cbn [rawClosed set_sendKeys]. rewrite HR2. apply wiped_Zeroize.
  - unfold Close. cbn [rawClosed set_sendKeys]. by rewrite HR2.
  - rewrite <- (app_nil_r wire), (Recv_cons _ _ _ _ Hr1). eapply step_bind; [rewrite Hr2; by apply dispatch_error| |reflexivity].
    eapply step_bind; [unfold react; step by reflexivity; reflexivity|reflexivity|reflexivity].
  - unfold Close. cbn [rawClosed set_recvKeys]. rewrite HS2. apply wiped_Zeroize.
  - unfold Close. cbn [rawClosed set_recvKeys]. by rewrite HS2.
Qed.

(** The total default.  If an endpoint in step with a live peer sends, on the
    Control channel, a frame of a type with no transition in an established session,
    then the peer's [Recv] writes exactly one sealed ERROR, returns the error and
    leaves the peer closed and wiped; and the sender's next [Recv] decodes that
    ERROR as [unexpected_message], writes nothing and leaves the sender closed and
    wiped as well. *)
Theorem unexpected_frame_fatal (S R S1 : Conn) (ft : Z) (pt : bytes) (s : sent)
    (HS : live S) (HR : live R) (Hsr : in_sync S R) (Hrs : in_sync R S)
    (Hft : is_u16 ft) (Hno : ft ∉ control_types)
    (Hsend : Send true ChanControl ft pt S = (S1, [s], Ok tt)) :
  exists R1 e S2,
    Recv true (s_wire s) R = (R1, [e], Ok (Err ErrUnexpectedFrame, [])) /\ wiped R1 /\ rawClosed R1 = true /\
    Recv true (s_wire e) S1 = (S2, [], Ok (Err (ErrSessionError ErrCodeUnexpectedMessage []), [])) /\
    wiped S2 /\ rawClosed S2 = true.
Proof.
  destruct (Send_wire true S R ChanControl ft pt S1 [s] [] Hsr ltac:(done) Hft Hsend)
    as (s' & st & [= <-] & Hr1 & _ & -> & Hr2 & Hs').
  set (R0 := set_recvKeys <[ChanControl := bump st]> R) in *.
  destruct (react_fatal R0 (set_sendKeys <[ChanControl := bump st]> (set_sendKeys <[ChanControl := st]> S))
    ErrCodeUnexpectedMessage ErrUnexpectedFrame) as (R1 & e & S2 & Hre & Hw & Hraw & Hpeer).
  - exact HR.
  - exact HS.
  - eapply in_sync_sides; [| |exact Hrs]; reflexivity.
  - by vm_compute.
  - exists R1, e, S2. split; [|exact (conj Hw (conj Hraw Hpeer))].
    rewrite <- (app_nil_r (s_wire s)), (Recv_cons _ _ _ _ Hr1).
    eapply step_bind; [rewrite Hr2; apply dispatch_default; exact Hno| |reflexivity].
    eapply step_bind; [exact Hre|reflexivity|reflexivity].
Qed.
End fatal.

Lemma unexpected_frame_fatal_witness :
  exists S1 s R1 e S2,
    Send (H := Toy.crypto) true ChanControl FrameClientHello [] client_conn = (S1, [s], Ok tt) /\
    Recv (H := Toy.crypto) true (s_wire s) server_conn = (R1, [e], Ok (Err ErrUnexpectedFrame, [])) /\ wiped R1 /\
    Recv (H := Toy.crypto) true (s_wire e) S1 =
      (S2, [], Ok (Err (ErrSessionError ErrCodeUnexpectedMessage []), [])) /\ wiped S2.
Proof.
  destruct (fresh_key client_conn ChanControl ltac:(by split_and!) eq_refl) as (st & Hk & _ & Hq).
  destruct (Send_live (H := Toy.crypto) (H0 := Toy.laws) client_conn ChanControl FrameClientHello [] st)
    as (w & _ & Hsend); [by split_and!|done|by rewrite Hq|by vm_compute|].
  eexists _, _. set (S1 := set_sendKeys _ _) in Hsend.
  destruct (unexpected_frame_fatal (H := Toy.crypto) (H0 := Toy.laws) client_conn server_conn S1
    FrameClientHello [] (mkSent 0 ChanControl (k_epoch st) (k_seq st) w)) as (R1 & e & S2 & H1 & H2 & _ & H3 & H4 & _).
  - by split_and!.
  - by split_and!.
  - apply in_sync_newConn.
  - apply in_sync_newConn.
  - split; [discriminate|reflexivity].
  - apply (bool_decide_unpack _). vm_compute. exact I.
  - exact Hsend.
  - exists R1, e, S2. split; [exact Hsend|]. split; [exact H1|]. split; [exact H2|]. split; [exact H3|exact H4].
Defined.
