(* ===== verification/ConnEdge.v ===== *)
(** * Edges of the session

    Three behaviours the comments of the sources do not announce: acknowledgements
    are sealed without the sequence-space guard, a failed write keeps the sequence
    number, and a re-KEM reply can arrive before the request is registered. *)

From S2P Require Import Prelude Errors Registry Sha256 Crypto Tlv Frame Aead Kem KeySchedule Transcript.
From S2P Require Import Handshake Cbor ErrorFrame Conn ConnLogic ConnLive ConnNonce ConnRecv ConnSync ConnRekem.
From Stdlib Require Import Strings.Byte.
From stdpp Require Import gmap.
Open Scope Z_scope.

Section edge.
Context `{CryptoLaws}.

(** C39: The acknowledgement of a master ratchet, sealed at the last sequence number
    of the Control key, is written, and leaves the same key with its counter back
    at 0, so the next Control frame reuses the first nonce; [Send] in the same
    state refuses.  The bound of fewer than [2^64] frames in [nonce_unique] is
    needed because of this. *)
Theorem ack_wraps_sequence (c : Conn) (st : epochKeys) (gen ft : Z) (pt : bytes)
    (Hlive : live c) (Hkey : sendKeys c !! ChanControl = Some st) (Hlast : k_seq st = maxSeq) :
  (exists c' s, sendMasterRatchetAck true gen c = (c', [s], Ok tt) /\ s_seq s = maxSeq /\
    sendKeys c' !! ChanControl = Some (mkKeys (k_epoch st) (k_key st) (k_iv st) 0)) /\
  (Send true ChanControl ft pt c).2 = Err ErrSeqExhausted.
Proof.
  assert (send_key c ChanControl = Ok st) as Hk by (unfold send_key; by rewrite Hkey).
  destruct (live_seal c ChanControl FrameMasterRatchetAck (ratchetGenMarker gen) Hlive)
    as (st' & wire & Hk' & Hw & Hmax & Hss & Hwr).
  { unfold ratchetGenMarker, TLV_Encode. cbn [TLVType TLVValue]. rewrite app_nil_l, !blen_app, !blen_be_put.
    by vm_compute. }
  rewrite Hk in Hk'. injection Hk' as <-. destruct Hlive as (Hc & Hraw & Hp). split.
  - eexists _, _. split.
    { unfold sendMasterRatchetAck, ignore. eapply step_bind.
      - apply step_attempt. unfold reply. step by exact Hss. step by (by apply step_lift).
        step by (apply step_on_error; by apply Hwr). reflexivity. all: reflexivity.
      - reflexivity.
      - reflexivity. }
    cbn [s_seq]. split; [exact Hlast|]. cbn [sendKeys set_sendKeys]. rewrite lookup_insert_eq.
    unfold bump. by rewrite Hlast.
  - unfold Send, sendLocked, mbind, M_bind. rewrite Hss. unfold guard_err. by rewrite Hlast.
Qed.

(** A failed write keeps the sequence number: [Send] returns the error with the
    connection open and the same send key, so the next frame on the channel is
    sealed under the nonce of the frame whose write failed. *)
Theorem failed_write_keeps_nonce (c : Conn) (ch ft : Z) (a : bytes) (st : epochKeys)
    (Hlive : live c) (Hkey : send_key c ch = Ok st) (Hseq : k_seq st <> maxSeq)
    (Hfits : blen a + 16 + HeaderSize <= MaxFrameSize) :
  exists c', Send false ch ft a c = (c', [], Err ErrIO) /\ closed c' = false /\ send_key c' ch = Ok st.
Proof.
  destruct (live_seal c ch ft a Hlive Hfits) as (st' & wire & Hk' & Hw & Hmax & Hss & _).
  rewrite Hkey in Hk'. injection Hk' as <-. exists (set_sendKeys <[ch := st]> c).
  split; [|split; [apply Hlive|unfold send_key; cbn; by rewrite lookup_insert_eq]].
  unfold Send, sendLocked. pose proof (seal_length _ _ _ _ _ Hw) as Hl. pose proof (blen_nonneg a).
  step by exact Hss. step by (by apply step_guard, Z.eqb_neq). step by (by apply step_lift).
  2: reflexivity. 2: reflexivity. 2: reflexivity.
  unfold writeSealed, writeWire, mbind, M_bind, get, guard_err. cbn [s_wire].
  rewrite (proj2 (Z.ltb_ge _ HeaderSize)) by lia.
  by rewrite (proj2 (Z.ltb_ge maxFrameSize _)) by (unfold maxFrameSize; lia).
Qed.

(** C40: A re-KEM request is written before it is registered: the request leaves no
    pending exchange behind, and a well-formed reply received in that state is
    rejected as unsolicited, which ends the session. *)
Theorem rekem_reply_before_registration (c c1 : Conn) (client : KEMClient) (io : bool) (out : list sent)
    (p : pendingReKEM) (ct : bytes) (gen : Z) (st : epochKeys)
    (Hnone : c_pendingReKEM c = None)
    (Hreq : ReKEM_request io client c = (c1, out, Ok p))
    (Hct : blen ct = KEMCiphertextSize768) (Hgen : is_u64 gen) :
  (dispatch st ChanControl FrameReKEMAck (encodeReKEMAck ct gen) c1).2
  = Ok (Some (reject ErrCodeUnexpectedMessage errUnsolicitedReKEMAck)).
Proof.
  assert (c_pendingReKEM c1 = None) as Hp1.
  { unfold ReKEM_request, putSend in Hreq. run_inv Hreq.
    match goal with E : sendState _ _ = _ |- _ => apply sendState_inv in E as (-> & _ & -> & _) end.
    match goal with E : writeSealed _ _ _ _ _ = _ |- _ => apply writeSealed_inv in E as (-> & -> & _) end.
    injection Hreq as <- _ _. exact Hnone. }
  unfold dispatch, on_control.
  change (FrameReKEMAck =? FrameKeyUpdate) with false.
  change (FrameReKEMAck =? FrameKeyUpdateAck) with false.
  change (FrameReKEMAck =? FrameMasterRatchet) with false.
  change (FrameReKEMAck =? FrameMasterRatchetAck) with false.
  change (FrameReKEMAck =? FrameReKEM) with false. rewrite !Z.eqb_refl.
  unfold handled, attempt, handleReKEMAck, parseReKEMAck, encodeReKEMAck, lift, mbind, M_bind.
  rewrite parse_rekem_encoded by (done || by vm_compute). cbn -[be_put]. by rewrite Hp1.
Qed.
End edge.

(** A connection whose Control send key has used every sequence number but one. *)
Definition exhausted_conn : Conn :=
  set_sendKeys (fun _ => {[ ChanControl := mkKeys 0 (replicate 32 x01) (replicate 12 x02) maxSeq ]})
    client_conn.

Lemma ack_wraps_sequence_witness :
  exists c' s, sendMasterRatchetAck (H := Toy.crypto) true 1 exhausted_conn = (c', [s], Ok tt) /\
    s_seq s = maxSeq /\
    sendKeys c' !! ChanControl = Some (mkKeys 0 (replicate 32 x01) (replicate 12 x02) 0).
Proof.
  exact (proj1 (ack_wraps_sequence (H := Toy.crypto) (H0 := Toy.laws) exhausted_conn
    (mkKeys 0 (replicate 32 x01) (replicate 12 x02) maxSeq) 1 1 []
    (conj eq_refl (conj eq_refl eq_refl)) eq_refl eq_refl)).
Defined.

Lemma failed_write_keeps_nonce_witness :
  exists st c', send_key client_conn ChanMemory = Ok st /\
    Send (H := Toy.crypto) false ChanMemory 0x0101 (str "a") client_conn = (c', [], Err ErrIO) /\
    send_key c' ChanMemory = Ok st.
Proof.
  destruct (fresh_key client_conn ChanMemory ltac:(by split_and!) eq_refl) as (st & Hk & _ & Hq).
  destruct (failed_write_keeps_nonce (H := Toy.crypto) (H0 := Toy.laws) client_conn ChanMemory 0x0101
    (str "a") st) as (c' & H1 & _ & H2).
  - by split_and!.
  - exact Hk.
  - rewrite Hq. discriminate.
  - by vm_compute.
  - exists st, c'. split_and!; assumption.
Defined.

Lemma rekem_reply_before_registration_witness :
  exists c1 out p, ReKEM_request (H := Toy.crypto) true (mkKEMClient rekem_seed rekem_x) client_conn
      = (c1, out, Ok p) /\
    (dispatch (H := Toy.crypto) zeroKeys ChanControl FrameReKEMAck
      (encodeReKEMAck (replicate 1120 x00) 1) c1).2
    = Ok (Some (reject ErrCodeUnexpectedMessage errUnsolicitedReKEMAck)).
Proof.
  destruct (fresh_key client_conn ChanControl ltac:(by split_and!) eq_refl) as (st & Hk & _ & Hq).
  destruct (ReKEM_request_runs (H := Toy.crypto) (H0 := Toy.laws) client_conn
    (mkKEMClient rekem_seed rekem_x) st) as (w & _ & _ & Hreq); [by split_and!|done|by rewrite Hq|].
  set (c1 := set_sendKeys _ _) in Hreq. set (out := [_]) in Hreq. set (p := mkPending _ _ _) in Hreq.
  exists c1, out, p. split; [exact Hreq|].
  apply (rekem_reply_before_registration (H := Toy.crypto) client_conn c1
    (mkKEMClient rekem_seed rekem_x) true out p (replicate 1120 x00) 1 zeroKeys).
  - reflexivity.
  - exact Hreq.
  - by vm_compute.
  - split; [discriminate|reflexivity].
Defined.
