(* ===== verification/SdkHandshake.v ===== *)
(** * The handshake driver (sdk/handshake.go, dialconn.go, dialraw.go, fallback.go)

    The client and the server of the 1.5-RTT handshake are programs that read and
    write frames.  A program is a tree ([hs]): it ends with a result, writes a frame
    and learns whether the transport took it, reads the next frame of the stream (or
    the error of the read), or closes the transport.  The randomness a run uses (the
    KEM key, the encapsulation randomness, a generated identity) is an argument, and
    so are the outcomes of the TLS layer. *)

From S2P Require Import Prelude Errors Registry Sha256 Crypto Tlv Frame Aead Kem KeySchedule Transcript.
From S2P Require Import Handshake Cbor ErrorFrame Conn.
From Stdlib Require Import Strings.Byte.
From stdpp Require Import gmap.
Open Scope Z_scope.

(** ** Programs *)

(** A frame a program writes; a sealed one records its key secret, direction and
    sequence number, which are not on the wire. *)
Record hwrite : Type := mkHW {
  hw_wire : bytes;
  hw_seal : option (bytes * Z * Z)
}.

Inductive hs (A : Type) : Type :=
| HDone (r : result error A)
| HWrite (w : hwrite) (k : bool -> hs A)
| HRead (k : result error bytes -> hs A)
| HClose (k : hs A).
Arguments HDone {A}.
Arguments HWrite {A}.
Arguments HRead {A}.
Arguments HClose {A}.

#[export] Instance hs_ret : MRet hs := fun A a => HDone (Ok a).
#[export] Instance hs_bind : MBind hs := fun A B f =>
  fix go (m : hs A) : hs B :=
    match m with
    | HDone (Ok a) => f a
    | HDone (Err e) => HDone (Err e)
    | HWrite w k => HWrite w (fun io => go (k io))
    | HRead k => HRead (fun r => go (k r))
    | HClose k => HClose (go k)
    end.

Definition hlift {A} (r : result error A) : hs A := HDone r.

(** The error of a step as a value. *)
Fixpoint hattempt {A} (m : hs A) : hs (result error A) :=
  match m with
  | HDone r => HDone (Ok r)
  | HWrite w k => HWrite w (fun io => hattempt (k io))
  | HRead k => HRead (fun r => hattempt (k r))
  | HClose k => HClose (hattempt k)
  end.

(** [if err != nil { _ = raw.Close(); return err }] *)
Definition close_on_error {A} (m : hs A) : hs A :=
  r ← hattempt m;
  match r with
  | Ok a => mret a
  | Err e => HClose (HDone (Err e))
  end.

Definition hread : hs bytes := HRead HDone.

Definition writeFrame (w : hwrite) : hs unit :=
  hlift (check (blen (hw_wire w) <? HeaderSize) ErrFrameTooShort);;
  hlift (check (maxFrameSize <? blen (hw_wire w)) ErrFrameOverMax);;
  HWrite w (fun io => HDone (if io then Ok tt else Err ErrIO)).

(** ** Configuration *)

Record Config : Type := mkConfig {
  TLSConfig : bool;                     (* non-nil *)
  Identity : option bytes;
  Profiles : list Z;
  ExpectedPeerKey : option bytes
}.

Record localIdentity : Type := mkIdentity {
  edPriv : option bytes;
  edPub : bytes;
  li_profiles : list Z
}.

Definition profilesOrDefault (profiles : list Z) : list Z :=
  if blen profiles =? 0 then [sdkProfile] else profiles.

Definition needsEd25519 (profiles : list Z) : bool := existsb (Z.eqb ProfileStandard) profiles.

Fixpoint validateProfiles (profiles : list Z) : result error unit :=
  match profiles with
  | [] => Ok tt
  | p :: profiles =>
      check (negb (Profile_Valid p)) ErrInvalidProfile;;
      check (negb (p =? ProfileStandard)) ErrNoSuiteForProfile;;
      validateProfiles profiles
  end.

(** [slices.Contains] *)
Definition contains (l : list Z) (x : Z) : bool := existsb (Z.eqb x) l.

Fixpoint selectProfile (offered allowed : list Z) : result error Z :=
  match allowed with
  | [] => Err ErrNoCommonProfile
  | p :: allowed => if contains offered p then Ok p else selectProfile offered allowed
  end.

Definition requireSelections (sh : ServerHello) (offeredProfiles : list Z) (wantKEM : Z)
    : result error unit :=
  check (negb (contains offeredProfiles (ProfileSelect sh))) ErrProfileNotOffered;;
  check (negb (KEMSelect sh =? wantKEM)) ErrKEMDowngrade;;
  check (negb (MinKEM (ProfileSelect sh) =? wantKEM)) ErrKEMDowngrade;;
  check (negb (SigSelect sh =? SigEd25519)) ErrSelection;;
  check (negb (AEADSelect sh =? AEADAES256GCM)) ErrSelection.

Definition requireOffers (ch : ClientHello) (allowedProfiles : list Z) : result error Z :=
  p ← selectProfile (ProfileOffer ch) allowedProfiles;
  let wantKEM := MinKEM p in
  check (negb (contains (KEMOffer ch) wantKEM)) ErrOffer;;
  check (negb (contains (SigOffer ch) SigEd25519)) ErrOffer;;
  check (negb (contains (AEADOffer ch) AEADAES256GCM)) ErrOffer;;
  Ok p.

Definition localIdentityKeyBytes (id : localIdentity) : result error bytes :=
  check (blen (edPub id) =? 0) ErrNoIdentity;;
  Ok (edPub id).

(** [expectedPeer != nil && subtle.ConstantTimeCompare(peerID, expectedPeer) != 1] *)
Definition pin_mismatch (expectedPeer : option bytes) (peerID : bytes) : bool :=
  match expectedPeer with
  | None => false
  | Some k => negb (bool_decide (peerID = k))
  end.

Definition sendCleartext (ft : Z) (payload : bytes) : hs unit :=
  let f := mkFrame 0 0 ft ChanControl 0 payload in
  writeFrame (mkHW (MarshalBinary f).2 None).

Definition recvCleartext (want : Z) : hs bytes :=
  wire ← hread;
  f ← hlift (UnmarshalBinary wire);
  hlift (check (negb (Type_ f =? want)) ErrWrongFrameType);;
  hlift (check (negb (Z.land (Flags f) FlagENC =? 0)) ErrEncryption);;
  mret (Payload f).

(** [requireALPN]: the negotiated protocol of a TLS connection; [None] is a
    connection that is not TLS. *)
Definition requireALPN (tls : option bytes) : result error unit :=
  match tls with
  | None => Err ErrALPN
  | Some got => check (negb (bool_decide (got = ALPN))) ErrALPN
  end.

Section driver.
Context `{Crypto}.

(** [fresh] is the key [ed25519.GenerateKey] yields. *)
Definition identity (fresh : result error bytes) (priv : option bytes)
    : result error (bytes * bytes) :=
  match priv with
  | None => p ← fresh; Ok (p, ed25519_public p)
  | Some p => Ok (p, ed25519_public p)
  end.

Definition resolveIdentity (fresh : result error bytes) (cfg : Config) : result error localIdentity :=
  let profiles := profilesOrDefault (Profiles cfg) in
  validateProfiles profiles;;
  '(priv, pub) ← identity fresh (Identity cfg);
  Ok (mkIdentity (Some priv) pub profiles).

Definition stdIdentity (priv pub : bytes) : localIdentity := mkIdentity (Some priv) pub [ProfileStandard].

Definition signCertVerify (id : localIdentity) (role : Z) (th : bytes) : result error bytes :=
  match edPriv id with
  | None => Err ErrNoIdentity
  | Some priv => SignCertVerify priv role th
  end.

Definition verifyCertVerify (peerPub : bytes) (role : Z) (th certVerifyValue : bytes)
    : result error unit :=
  VerifyCertVerify peerPub role th certVerifyValue.

(** ** AUTH frames, sealed at epoch 0 (conn.go) *)

Definition deriveKeyIV (baseSecret : bytes) (dir channel p : Z) : result error (bytes * bytes) :=
  ts ← DeriveTrafficSecret baseSecret dir 0 AEADAES256GCM channel p;
  DeriveKeyIV ts p.

Definition sealFrame (baseSecret : bytes) (dir channel seq ft : Z) (plaintext : bytes) (p : Z)
    : result error hwrite :=
  '(key, iv) ← deriveKeyIV baseSecret dir channel p;
  let f := mkFrame 0 FlagENC ft channel seq [] in
  let aad := HeaderPrefix f (u32 (blen plaintext + 16)) in
  sealed ← SealAES256GCM key iv seq aad plaintext;
  Ok (mkHW (MarshalBinary (mkFrame 0 FlagENC ft channel seq sealed)).2 (Some (baseSecret, dir, seq))).

Definition openFrame (f : Frame) (baseSecret : bytes) (dir p : Z) : result error bytes :=
  '(key, iv) ← deriveKeyIV baseSecret dir (Channel f) p;
  let aad := HeaderPrefix f (u32 (blen (Payload f))) in
  OpenAES256GCM key iv (Seq f) aad (Payload f).

(** The message, or the code of the ERROR to send and the error. *)
Definition openAuthFrame (wire : bytes) (want : Z) (baseSecret : bytes) (dir p : Z)
    : AuthMessage + (Z * error) :=
  match UnmarshalBinary wire with
  | Err e => inr (ErrCodeUnexpectedMessage, e)
  | Ok f =>
      if negb (Type_ f =? want) then inr (ErrCodeUnexpectedMessage, ErrWrongFrameType)
      else if Z.land (Flags f) FlagENC =? 0 then inr (ErrCodeUnexpectedMessage, ErrEncryption)
      else match openFrame f baseSecret dir p with
           | Err e => inr (ErrCodeDecryptFailed, e)
           | Ok pt =>
               match DecodeAuthMessage pt with
               | Err e => inr (ErrCodeDecryptFailed, e)
               | Ok am => inl am
               end
           end
  end.

(** Best effort: the ERROR frame, then the caller's error. *)
Definition emitHandshakeError {A} (baseSecret : bytes) (dir seq code p : Z) (wrapped : error) : hs A :=
  match sealFrame baseSecret dir ChanControl seq FrameError (EncodeErrorBody code []) p with
  | Err _ => HDone (Err wrapped)
  | Ok w => r ← hattempt (writeFrame w); HDone (Err wrapped)
  end.

(** [if err := r; err != nil { return emitHandshakeError(...) }] *)
Definition orEmit {A} (r : result error A) (baseSecret : bytes) (dir seq code p : Z) : hs A :=
  match r with
  | Ok a => mret a
  | Err e => emitHandshakeError baseSecret dir seq code p e
  end.

Definition openOrEmit (r : AuthMessage + (Z * error)) (baseSecret : bytes) (dir seq p : Z)
    : hs AuthMessage :=
  match r with
  | inl am => mret am
  | inr (code, e) => emitHandshakeError baseSecret dir seq code p e
  end.

(** What a completed handshake returns: master, peer identity, profile. *)
Definition established : Type := bytes * bytes * Z.

(** ** The client *)

Definition helloTranscript (p : Z) (ch : ClientHello) (sh : ServerHello) : result error Transcript :=
  t ← NewTranscript p;
  Ok (AddFrame FrameServerHello (ServerHello_TLVs sh) (AddFrame FrameClientHello (ClientHello_TLVs ch) t)).

Definition clientHello (profiles : list Z) (kem : KEMClient) : ClientHello :=
  mkClientHello profiles [KEMX25519MLKEM768] [SigEd25519] [AEADAES256GCM] (KEMShare kem).

(** The verification of SERVER_AUTH: the transcript after it and the peer's key. *)
Definition clientVerify (t : Transcript) (sAuth : AuthMessage) (cHS sHS : bytes) (p : Z)
    : hs (Transcript * bytes) :=
  let t := AddTLV (mkTLV TLVIdentityKey (IdentityKey sAuth)) (AddFrameType FrameServerAuth t) in
  orEmit (verifyCertVerify (IdentityKey sAuth) RoleServer (Transcript_Sum t) (CertVerify sAuth))
    cHS DirClientToServer 0 ErrCodeDecryptFailed p;;
  let t := AddTLV (mkTLV TLVCertVerify (CertVerify sAuth)) t in
  sFinKey ← hlift (DeriveFinishedKey sHS p);
  orEmit (VerifyFinished sFinKey (Transcript_Sum t) (Finished sAuth) p)
    cHS DirClientToServer 0 ErrCodeDecryptFailed p;;
  mret (AddTLV (mkTLV TLVFinished (Finished sAuth)) t, IdentityKey sAuth).

(** CLIENT_AUTH and the master secret. *)
Definition clientAuth (id : localIdentity) (t : Transcript) (hsec cHS peerID : bytes) (p : Z)
    : hs established :=
  localPub ← hlift (localIdentityKeyBytes id);
  let t := AddTLV (mkTLV TLVIdentityKey localPub) (AddFrameType FrameClientAuth t) in
  cCV ← hlift (signCertVerify id RoleClient (Transcript_Sum t));
  let t := AddTLV (mkTLV TLVCertVerify cCV) t in
  let thCCV := Transcript_Sum t in
  cFinKey ← hlift (DeriveFinishedKey cHS p);
  cFin ← hlift (ComputeFinished cFinKey thCCV p);
  caWire ← hlift (sealFrame cHS DirClientToServer ChanControl 0 FrameClientAuth
    (AuthMessage_Encode (mkAuth localPub cCV cFin)) p);
  writeFrame caWire;;
  master ← hlift (DeriveMasterSecret hsec thCCV p);
  mret (master, peerID, p).

(** Everything after SERVER_HELLO has been accepted. *)
Definition clientKeyed (id : localIdentity) (expectedPeer : option bytes) (kem : KEMClient)
    (ch : ClientHello) (sh : ServerHello) : hs established :=
  let p := ProfileSelect sh in
  t ← hlift (helloTranscript p ch sh);
  ss ← hlift (KEMClient_SharedSecrets kem (sh_KEMCiphertext sh));
  hsec ← hlift (HandshakeSecret ss p);
  '(cHS, sHS) ← hlift (DeriveHandshakeTrafficSecrets hsec (Transcript_Sum t) p);
  saWire ← hread;
  sAuth ← openOrEmit (openAuthFrame saWire FrameServerAuth sHS DirServerToClient p)
    cHS DirClientToServer 0 p;
  '(t, peerID) ← clientVerify t sAuth cHS sHS p;
  hlift (check (pin_mismatch expectedPeer peerID) ErrPinMismatch);;
  clientAuth id t hsec cHS peerID p.

Definition runClientHandshake (id : localIdentity) (expectedPeer : option bytes)
    (kem : result error KEMClient) : hs established :=
  let profiles := profilesOrDefault (li_profiles id) in
  hlift (validateProfiles profiles);;
  kem768 ← hlift kem;
  let ch := clientHello profiles kem768 in
  sendCleartext FrameClientHello (ClientHello_Encode ch);;
  shPayload ← recvCleartext FrameServerHello;
  sh ← hlift (DecodeServerHello shPayload);
  hlift (requireSelections sh profiles KEMX25519MLKEM768);;
  clientKeyed id expectedPeer kem768 ch sh.

(** ** The server *)

Definition serverHello (p : Z) (kemCT : bytes) : ServerHello :=
  mkServerHello p (MinKEM p) SigEd25519 AEADAES256GCM kemCT.

(** SERVER_AUTH: the transcript after it. *)
Definition serverAuth (id : localIdentity) (t : Transcript) (sHS : bytes) (srvSendSeq p : Z)
    : hs Transcript :=
  localPub ← hlift (localIdentityKeyBytes id);
  let t := AddTLV (mkTLV TLVIdentityKey localPub) (AddFrameType FrameServerAuth t) in
  sCV ← hlift (signCertVerify id RoleServer (Transcript_Sum t));
  let t := AddTLV (mkTLV TLVCertVerify sCV) t in
  sFinKey ← hlift (DeriveFinishedKey sHS p);
  sFin ← hlift (ComputeFinished sFinKey (Transcript_Sum t) p);
  let t := AddTLV (mkTLV TLVFinished sFin) t in
  saWire ← hlift (sealFrame sHS DirServerToClient ChanControl srvSendSeq FrameServerAuth
    (AuthMessage_Encode (mkAuth localPub sCV sFin)) p);
  writeFrame saWire;;
  mret t.

(** The verification of CLIENT_AUTH: the transcript point of the master secret and
    the peer's key. *)
Definition serverVerify (t : Transcript) (cAuth : AuthMessage) (cHS sHS : bytes) (srvSendSeq p : Z)
    : hs (bytes * bytes) :=
  let t := AddTLV (mkTLV TLVIdentityKey (IdentityKey cAuth)) (AddFrameType FrameClientAuth t) in
  orEmit (verifyCertVerify (IdentityKey cAuth) RoleClient (Transcript_Sum t) (CertVerify cAuth))
    sHS DirServerToClient srvSendSeq ErrCodeDecryptFailed p;;
  let t := AddTLV (mkTLV TLVCertVerify (CertVerify cAuth)) t in
  let thCCV := Transcript_Sum t in
  cFinKey ← hlift (DeriveFinishedKey cHS p);
  orEmit (VerifyFinished cFinKey thCCV (Finished cAuth) p)
    sHS DirServerToClient srvSendSeq ErrCodeDecryptFailed p;;
  mret (thCCV, IdentityKey cAuth).

(** Everything after SERVER_HELLO has been written. *)
Definition serverKeyed (id : localIdentity) (expectedPeer : option bytes) (hsec : bytes)
    (t : Transcript) (p : Z) : hs established :=
  '(cHS, sHS) ← hlift (DeriveHandshakeTrafficSecrets hsec (Transcript_Sum t) p);
  let srvSendSeq := 0 in
  t ← serverAuth id t sHS srvSendSeq p;
  let srvSendSeq := u64 (srvSendSeq + 1) in
  caWire ← hread;
  cAuth ← openOrEmit (openAuthFrame caWire FrameClientAuth cHS DirClientToServer p)
    sHS DirServerToClient srvSendSeq p;
  '(thCCV, peerID) ← serverVerify t cAuth cHS sHS srvSendSeq p;
  hlift (check (pin_mismatch expectedPeer peerID) ErrPinMismatch);;
  master ← hlift (DeriveMasterSecret hsec thCCV p);
  mret (master, peerID, p).

(** [x] and [rnd] are the fresh X25519 key and the ML-KEM randomness. *)
Definition runServerHandshake (id : localIdentity) (expectedPeer : option bytes) (x rnd : bytes)
    : hs established :=
  let allowed := profilesOrDefault (li_profiles id) in
  hlift (validateProfiles allowed);;
  chPayload ← recvCleartext FrameClientHello;
  ch ← hlift (DecodeClientHello chPayload);
  p ← hlift (requireOffers ch allowed);
  t ← hlift (NewTranscript p);
  let t := AddFrame FrameClientHello (ClientHello_TLVs ch) t in
  '(kemCT, kemSS) ← hlift (Encapsulate (ch_KEMShare ch) x rnd);
  hsec ← hlift (HandshakeSecret kemSS p);
  let sh := serverHello p kemCT in
  sendCleartext FrameServerHello (ServerHello_Encode sh);;
  serverKeyed id expectedPeer hsec (AddFrame FrameServerHello (ServerHello_TLVs sh) t) p.

(** ** Entry points *)

(** [newConn] followed by [conn.profile = profile]. *)
Definition establish (sendDir_ recvDir_ : Z) (e : established) : Conn :=
  let '(master, peerID, profile) := e in
  let c := newConn master peerID sendDir_ recvDir_ in
  mkConn profile (masterSend c) (masterRecv c) (genSend c) (genRecv c) (Conn.peerID c) (sendDir c) (recvDir c)
    (sendKeys c) (recvKeys c) (c_pendingReKEM c) (pendingKUAck c) (pendingMRAck c)
    (droppedUnauthenticated c) (droppedOutOfSequence c) (closing c) (closed c) (rawClosed c) (tasks c).

(** [dialed]: the outcome of [tls.Dialer.DialContext], with the negotiated ALPN. *)
Definition Dial (cfg : Config) (fresh : result error bytes) (kem : result error KEMClient)
    (dialed : result error (option bytes)) : hs Conn :=
  hlift (check (negb (TLSConfig cfg)) ErrConfig);;
  id ← hlift (resolveIdentity fresh cfg);
  tls ← hlift dialed;
  close_on_error (
    hlift (requireALPN tls);;
    e ← runClientHandshake id (ExpectedPeerKey cfg) kem;
    mret (establish DirClientToServer DirServerToClient e)).

(** [accepted]: the outcome of the listener, and of the TLS handshake on the
    accepted connection. *)
Definition Listener_Accept (cfg : Config) (fresh : result error bytes) (x rnd : bytes)
    (accepted : result error (result error (option bytes))) : hs Conn :=
  conn ← hlift accepted;
  close_on_error (
    id ← hlift (resolveIdentity fresh cfg);
    tls ← hlift conn;
    hlift (requireALPN tls);;
    e ← runServerHandshake id (ExpectedPeerKey cfg) x rnd;
    mret (establish DirServerToClient DirClientToServer e)).

(** [tls]: the outcome of the TLS handshake on the caller's connection. *)
Definition DialConn (cfg : Config) (fresh : result error bytes) (kem : result error KEMClient)
    (raw : bool) (tls : result error (option bytes)) : hs Conn :=
  hlift (check (negb (TLSConfig cfg)) ErrConfig);;
  hlift (check (negb raw) ErrConfig);;
  id ← hlift (resolveIdentity fresh cfg);
  tc ← hlift tls;
  hlift (requireALPN tc);;
  e ← runClientHandshake id (ExpectedPeerKey cfg) kem;
  mret (establish DirClientToServer DirServerToClient e).

Definition AcceptConn (cfg : Config) (fresh : result error bytes) (x rnd : bytes)
    (raw : bool) (tls : result error (option bytes)) : hs Conn :=
  hlift (check (negb (TLSConfig cfg)) ErrConfig);;
  hlift (check (negb raw) ErrConfig);;
  id ← hlift (resolveIdentity fresh cfg);
  tc ← hlift tls;
  hlift (requireALPN tc);;
  e ← runServerHandshake id (ExpectedPeerKey cfg) x rnd;
  mret (establish DirServerToClient DirClientToServer e).

Definition DialRaw (cfg : Config) (fresh : result error bytes) (kem : result error KEMClient)
    (raw : bool) : hs Conn :=
  hlift (check (negb raw) ErrConfig);;
  id ← hlift (resolveIdentity fresh cfg);
  e ← runClientHandshake id (ExpectedPeerKey cfg) kem;
  mret (establish DirClientToServer DirServerToClient e).

Definition AcceptRaw (cfg : Config) (fresh : result error bytes) (x rnd : bytes) (raw : bool) : hs Conn :=
  hlift (check (negb raw) ErrConfig);;
  id ← hlift (resolveIdentity fresh cfg);
  e ← runServerHandshake id (ExpectedPeerKey cfg) x rnd;
  mret (establish DirServerToClient DirClientToServer e).

(** [listening]: the outcome of [tls.Listen]. *)
Definition Listen (cfg : Config) (listening : result error unit) : result error Config :=
  check (negb (TLSConfig cfg)) ErrConfig;;
  validateProfiles (profilesOrDefault (Profiles cfg));;
  listening;;
  Ok cfg.

(** ** Racing a QUIC probe against the dial (fallback.go) *)

Inductive TransportKind : Type := TransportQUIC | TransportTCPTLS.

(** Without the clock readings. *)
Record FallbackTelemetry : Type := mkTelemetry {
  Winner : option TransportKind;
  QUICAttempted : bool;
  QUICErr : option error;
  TCPTLSErr : option error
}.

Definition err_of {A} (r : result error A) : option error :=
  match r with Ok _ => None | Err e => Some e end.

(** One result taken from the channel of the two legs. *)
Definition collect (tel : FallbackTelemetry) (tcpConn : option Conn)
    (leg : result error unit + result error Conn) : FallbackTelemetry * option Conn :=
  match leg with
  | inl quic => (mkTelemetry (Winner tel) (QUICAttempted tel) (err_of quic) (TCPTLSErr tel), tcpConn)
  | inr tcp => (mkTelemetry (Winner tel) (QUICAttempted tel) (QUICErr tel) (err_of tcp),
                match tcp with Ok c => Some c | Err _ => None end)
  end.

(** [quicAddr]: whether [QUICAddr] is set; [legs]: the results of the two goroutines
    in the order they arrive; [direct]: the result of [Dial] when there is no race. *)
Definition DialWithFallback (quicAddr : bool) (direct : result error Conn)
    (legs : list (result error unit + result error Conn))
    : option Conn * FallbackTelemetry * option error :=
  if negb quicAddr then
    match direct with
    | Err e => (None, mkTelemetry None false None (Some e), Some e)
    | Ok c => (Some c, mkTelemetry (Some TransportTCPTLS) false None None, None)
    end
  else
    let '(tel, tcpConn) :=
      fold_left (fun '(tel, c) leg => collect tel c leg) legs (mkTelemetry None true None None, None) in
    match TCPTLSErr tel with
    | None => (tcpConn, mkTelemetry (Some TransportTCPTLS) (QUICAttempted tel) (QUICErr tel) None, None)
    | Some _ => (None, tel, Some ErrFallback)
    end.
End driver.
