(* ===== verification/HandshakeRuns.v ===== *)
(** * Runs of the handshake programs against any peer

    [hrun m tr r]: the program [m] can interact with its transport as [tr] (whatever
    frames arrive, whatever writes fail) and end with [r].  What a successful run
    proves about the peer, and which nonces a run uses. *)

From S2P Require Import Prelude Errors Registry Sha256 Crypto Tlv Frame Aead Kem KeySchedule Transcript.
From S2P Require Import Handshake Cbor ErrorFrame Conn SdkHandshake.
From Stdlib Require Import Strings.Byte.
From stdpp Require Import gmap.
Open Scope Z_scope.

Inductive event : Type :=
| EWrite (w : hwrite) (io : bool)
| ERead (r : result error bytes)
| EClose.

Inductive hrun {A} : hs A -> list event -> result error A -> Prop :=
| run_done r : hrun (HDone r) [] r
| run_write w k io tr r : hrun (k io) tr r -> hrun (HWrite w k) (EWrite w io :: tr) r
| run_read k x tr r : hrun (k x) tr r -> hrun (HRead k) (ERead x :: tr) r
| run_close k tr r : hrun k tr r -> hrun (HClose k) (EClose :: tr) r.

(** ** Inversion along a program *)

Lemma hrun_done {A} (r : result error A) tr r' : hrun (HDone r) tr r' -> tr = [] /\ r' = r.
Proof. by inversion 1. Qed.

Lemma hrun_bind {A B} (m : hs A) (f : A -> hs B) tr r :
  hrun (m ≫= f) tr r ->
  (exists tr1 a tr2, hrun m tr1 (Ok a) /\ hrun (f a) tr2 r /\ tr = tr1 ++ tr2) \/
  (exists e, hrun m tr (Err e) /\ r = Err e).
Proof.
  revert tr r. induction m as [[a|e]|w k IH|k IH|k IH]; intros tr r Hr; cbn in Hr.
  - left. exists [], a, tr. split_and!; [constructor|done|done].
  - apply hrun_done in Hr as [-> ->]. right. exists e. split; [constructor|done].
  - inversion Hr as [|w0 k0 io tr0 r0 Hr'| |]; subst. apply IH in Hr' as [(tr1 & a & tr2 & H1 & H2 & ->)|(e & H1 & ->)].
    + left. exists (EWrite w io :: tr1), a, tr2. split_and!; [by constructor|done|done].
    + right. exists e. split; [by constructor|done].
  - inversion Hr as [| |k0 x tr0 r0 Hr'|]; subst. apply IH in Hr' as [(tr1 & a & tr2 & H1 & H2 & ->)|(e & H1 & ->)].
    + left. exists (ERead x :: tr1), a, tr2. split_and!; [by constructor|done|done].
    + right. exists e. split; [by constructor|done].
  - inversion Hr as [| | |k0 tr0 r0 Hr']; subst. apply IH in Hr' as [(tr1 & a & tr2 & H1 & H2 & ->)|(e & H1 & ->)].
    + left. exists (EClose :: tr1), a, tr2. split_and!; [by constructor|done|done].
    + right. exists e. split; [by constructor|done].
Qed.

Lemma hrun_bind_ok {A B} (m : hs A) (f : A -> hs B) tr b :
  hrun (m ≫= f) tr (Ok b) ->
  exists tr1 a tr2, hrun m tr1 (Ok a) /\ hrun (f a) tr2 (Ok b) /\ tr = tr1 ++ tr2.
Proof. intros [H|(e & _ & H)]%hrun_bind; [done|congruence]. Qed.

Lemma hrun_lift {A} (r : result error A) tr a : hrun (hlift r) tr (Ok a) -> r = Ok a /\ tr = [].
Proof. intros [-> Hr]%hrun_done. done. Qed.

Lemma hrun_read tr w : hrun hread tr (Ok w) -> tr = [ERead (Ok w)].
Proof. inversion 1 as [| |k x tr0 r0 Hr|]; subst. apply hrun_done in Hr as [-> <-]. done. Qed.

Lemma hrun_writeFrame w tr u :
  hrun (writeFrame w) tr (Ok u) -> tr = [EWrite w true] /\ blen (hw_wire w) <= maxFrameSize.
Proof.
  unfold writeFrame. intros (tr1 & [] & tr2 & H1 & H & ->)%hrun_bind_ok.
  apply hrun_bind_ok in H as (tr3 & [] & tr4 & H2 & H & ->).
  apply hrun_lift in H1 as [_ ->], H2 as [H2 ->]. apply check_Ok in H2.
  inversion H as [|w0 k0 io tr0 r0 Hr| |]; subst. apply hrun_done in Hr as [-> Hio].
  destruct io; [|done]. split; [done|]. lia.
Qed.

(** A program that attempts another has the events of the other. *)
Lemma hrun_attempt {A} (m : hs A) tr r : hrun (hattempt m) tr r -> exists r0, r = Ok r0 /\ hrun m tr r0.
Proof.
  revert tr r. induction m as [r0|w k IH|k IH|k IH]; intros tr r Hr; cbn in Hr.
  - apply hrun_done in Hr as [-> ->]. exists r0. split; [done|constructor].
  - inversion Hr as [|w0 k0 io tr0 r1 Hr'| |]; subst. apply IH in Hr' as (r0 & -> & ?). exists r0. split; [done|by constructor].
  - inversion Hr as [| |k0 x tr0 r1 Hr'|]; subst. apply IH in Hr' as (r0 & -> & ?). exists r0. split; [done|by constructor].
  - inversion Hr as [| | |k0 tr0 r1 Hr']; subst. apply IH in Hr' as (r0 & -> & ?). exists r0. split; [done|by constructor].
Qed.

(** Splits a successful run [H] into the runs of its steps. *)
Ltac hrun_inv H :=
  lazymatch type of H with
  | hrun (_ ≫= _) _ (Ok _) =>
      let t1 := fresh "tr" in let a := fresh "a" in let t2 := fresh "tr" in let H1 := fresh "R" in
      apply hrun_bind_ok in H as (t1 & a & t2 & H1 & H & ->); hrun_inv H1; cbn beta iota in H; hrun_inv H
  | hrun (hlift _) _ (Ok _) => let E := fresh "E" in apply hrun_lift in H as [E ->]
  | hrun hread _ (Ok _) => apply hrun_read in H as ->
  | hrun (writeFrame _) _ (Ok _) => let E := fresh "Hsz" in apply hrun_writeFrame in H as [-> E]
  | hrun (HDone _) _ (Ok _) => let E := fresh "E" in apply hrun_done in H as [-> E]
  | hrun (mret _) _ (Ok _) => let E := fresh "E" in apply hrun_done in H as [-> E]
  | hrun (match ?x with pair _ _ => _ end) _ _ => destruct x; cbn beta iota in H; hrun_inv H
  | _ => idtac
  end.

Section runs.
Context `{Crypto}.

(** ** Nonces *)

(** Secret, direction and sequence number of every sealed frame handed to the
    transport, whether the write succeeded or not. *)
Definition seals (tr : list event) : list (bytes * Z * Z) :=
  omap (fun e => match e with EWrite w _ => hw_seal w | _ => None end) tr.

Lemma seals_app t1 t2 : seals (t1 ++ t2) = seals t1 ++ seals t2.
Proof. apply omap_app. Qed.

(** A successful run of [m] seals exactly [ok]; a failing one a prefix of [bad]. *)
Definition emits {A} (ok bad : list (bytes * Z * Z)) (m : hs A) : Prop :=
  forall tr r, hrun m tr r ->
    match r with Ok _ => seals tr = ok | Err _ => seals tr `prefix_of` bad end.

Lemma emits_done {A} (r : result error A) bad : emits [] bad (HDone r).
Proof. intros tr r' [-> ->]%hrun_done. destruct r; [done|apply prefix_nil]. Qed.

Lemma emits_read bad : emits [] bad hread.
Proof.
  intros tr r Hr. inversion Hr as [| |k x tr0 r0 Hr'|]; subst. apply hrun_done in Hr' as [-> ->].
  destruct x; [done|apply prefix_nil].
Qed.

Lemma emits_bind {A B} ok1 bad1 ok2 bad2 bad (m : hs A) (f : A -> hs B) :
  emits ok1 bad1 m -> (forall a, emits ok2 bad2 (f a)) -> bad1 `prefix_of` bad -> ok1 ++ bad2 `prefix_of` bad ->
  emits (ok1 ++ ok2) bad (m ≫= f).
Proof.
  intros Hm Hf Hb1 Hb2 tr r [(tr1 & a & tr2 & H1 & H2 & ->)|(e & H1 & ->)]%hrun_bind.
  - specialize (Hm _ _ H1). specialize (Hf a _ _ H2). cbn in Hm. rewrite seals_app, Hm.
    destruct r; [by rewrite Hf|]. etrans; [|exact Hb2]. by apply prefix_app.
  - specialize (Hm _ _ H1). cbn in Hm. by etrans.
Qed.

(** The common case: a step that seals nothing when it succeeds. *)
Lemma emits_step {A B} bad1 ok bad (m : hs A) (f : A -> hs B) :
  emits [] bad1 m -> (forall a, emits ok bad (f a)) -> bad1 `prefix_of` bad -> emits ok bad (m ≫= f).
Proof. intros Hm Hf Hb. apply (emits_bind [] bad1 ok bad bad m f Hm Hf Hb). done. Qed.

Lemma seals_writeFrame w tr r :
  hrun (writeFrame w) tr r ->
  match r with Ok _ => seals tr = option_list (hw_seal w)
  | Err _ => seals tr `prefix_of` option_list (hw_seal w) end.
Proof.
  assert (forall io, seals [EWrite w io] = option_list (hw_seal w)) as Hw
    by (intros io; unfold seals; cbn; by destruct (hw_seal w)).
  revert tr r. change (emits (option_list (hw_seal w)) (option_list (hw_seal w)) (writeFrame w)).
  unfold writeFrame.
  do 2 (eapply emits_step; [apply (emits_done _ [])|intros ?|apply prefix_nil]).
  intros tr r Hr. inversion Hr as [|w0 k0 io tr0 r0 Hr'| |]; subst.
  apply hrun_done in Hr' as [-> ->]. rewrite Hw. by destruct io.
Qed.

Lemma emits_sendCleartext ft pl bad : emits [] bad (sendCleartext ft pl).
Proof.
  intros tr r Hr. apply seals_writeFrame in Hr. cbn in Hr. destruct r; [done|].
  apply prefix_nil_inv in Hr as ->. apply prefix_nil.
Qed.

Lemma sealFrame_seal bs dir ch q ft pt p w : sealFrame bs dir ch q ft pt p = Ok w -> hw_seal w = Some (bs, dir, q).
Proof.
  unfold sealFrame. intros Hw. apply bind_Ok in Hw as ([key iv] & _ & Hw).
  apply bind_Ok in Hw as (sealed & _ & Hw). by injection Hw as <-.
Qed.

(** Sealing a frame and writing it. *)
Lemma emits_seal_write {B} bs dir ch q ft pt p (f : unit -> hs B) ok bad :
  (forall u, emits ok bad (f u)) ->
  emits ((bs, dir, q) :: ok) ((bs, dir, q) :: bad)
    (w ← hlift (sealFrame bs dir ch q ft pt p); writeFrame w ≫= f).
Proof.
  intros Hf. destruct (sealFrame _ _ _ _ _ _ _) as [w|e] eqn:Ew.
  - change (emits ((bs, dir, q) :: ok) ((bs, dir, q) :: bad) (writeFrame w ≫= f)).
    pose proof (sealFrame_seal _ _ _ _ _ _ _ _ Ew) as Hs.
    apply (emits_bind [(bs, dir, q)] [(bs, dir, q)] ok bad); [|exact Hf|by exists bad|done].
    intros tr r Hr. apply seals_writeFrame in Hr. by rewrite Hs in Hr.
  - intros tr r [-> ->]%hrun_done. apply prefix_nil.
Qed.

(** An ERROR is at most one sealed frame, and the run fails. *)
Lemma emits_error {A} bs dir q code p e : emits [] [(bs, dir, q)] (emitHandshakeError (A := A) bs dir q code p e).
Proof.
  unfold emitHandshakeError. destruct (sealFrame _ _ _ _ _ _ _) as [w|] eqn:Ew; [|apply emits_done].
  pose proof (sealFrame_seal _ _ _ _ _ _ _ _ Ew) as Hs.
  intros tr r [(tr1 & a & tr2 & H1 & H2 & ->)|(e' & H1 & ->)]%hrun_bind.
  - apply hrun_done in H2 as [-> ->]. rewrite app_nil_r. apply hrun_attempt in H1 as (r0 & _ & H1).
    apply seals_writeFrame in H1. rewrite Hs in H1. by destruct r0; [rewrite H1|].
  - apply hrun_attempt in H1 as (r0 & Hc & _). congruence.
Qed.

Lemma emits_orEmit {A} (r : result error A) bs dir q code p : emits [] [(bs, dir, q)] (orEmit r bs dir q code p).
Proof. destruct r; [apply emits_done|apply emits_error]. Qed.

Lemma emits_openOrEmit r bs dir q p : emits [] [(bs, dir, q)] (openOrEmit r bs dir q p).
Proof. destruct r as [am|[code e]]; [apply emits_done|apply emits_error]. Qed.
End runs.

(** Steps that seal nothing. *)
Ltac emits_step :=
  first
    [ apply emits_done | apply emits_read | apply emits_sendCleartext
    | eapply emits_step; [first [apply (emits_done _ []) | apply (emits_read []) | apply (emits_sendCleartext _ _ [])]
                         |intros ?|apply prefix_nil]
    | match goal with |- emits _ _ (match ?x with pair _ _ => _ end) => destruct x end ].

Section nonces.
Context `{Crypto}.

Lemma emits_recvCleartext want bad : emits [] bad (recvCleartext want).
Proof. unfold recvCleartext. repeat emits_step. Qed.

Lemma emits_clientVerify t a cHS sHS p : emits [] [(cHS, DirClientToServer, 0)] (clientVerify t a cHS sHS p).
Proof.
  unfold clientVerify. eapply emits_step; [apply emits_orEmit|intros ?|done]. emits_step.
  eapply emits_step; [apply emits_orEmit|intros ?|done]. emits_step.
Qed.

Lemma emits_clientAuth id t hsec cHS peer p :
  emits [(cHS, DirClientToServer, 0)] [(cHS, DirClientToServer, 0)] (clientAuth id t hsec cHS peer p).
Proof.
  unfold clientAuth. do 4 emits_step. apply emits_seal_write. intros ?. repeat emits_step.
Qed.

Lemma emits_serverAuth id t sHS p :
  emits [(sHS, DirServerToClient, 0)] [(sHS, DirServerToClient, 0)] (serverAuth id t sHS 0 p).
Proof.
  unfold serverAuth. do 4 emits_step. apply emits_seal_write. intros ?. repeat emits_step.
Qed.

Lemma emits_serverVerify t a cHS sHS q p : emits [] [(sHS, DirServerToClient, q)] (serverVerify t a cHS sHS q p).
Proof.
  unfold serverVerify. eapply emits_step; [apply emits_orEmit|intros ?|done]. emits_step.
  eapply emits_step; [apply emits_orEmit|intros ?|done]. emits_step.
Qed.

(** Every run of [m] seals a list [Q] allows. *)
Definition within {A} (Q : list (bytes * Z * Z) -> Prop) (m : hs A) : Prop :=
  forall tr r, hrun m tr r -> Q (seals tr).

Lemma within_skip {A B} Q (m : hs A) (f : A -> hs B) :
  Q [] -> emits [] [] m -> (forall a, within Q (f a)) -> within Q (m ≫= f).
Proof.
  intros Hn Hm Hf tr0 r0 [(tr1 & a & tr2 & H1 & H2 & ->)|(e & H1 & ->)]%hrun_bind.
  - specialize (Hm _ _ H1). cbn in Hm. rewrite seals_app, Hm. by apply (Hf a _ _ H2).
  - specialize (Hm _ _ H1). cbn in Hm. by apply prefix_nil_inv in Hm as ->.
Qed.

Lemma within_emits {A} ok bad l (m : hs A) :
  emits ok bad m -> ok `prefix_of` l -> bad `prefix_of` l -> within (fun s => s `prefix_of` l) m.
Proof. intros Hm H1 H2 tr r Hr. specialize (Hm _ _ Hr). destruct r; [by rewrite Hm|by etrans]. Qed.

(** The client seals at most CLIENT_AUTH or one ERROR, at sequence 0. *)
Definition client_sealed (l : list (bytes * Z * Z)) : Prop :=
  exists cHS, l `prefix_of` [(cHS, DirClientToServer, 0)].

(** The server seals SERVER_AUTH at sequence 0 and then at most one ERROR at 1. *)
Definition server_sealed (l : list (bytes * Z * Z)) : Prop :=
  exists sHS, l `prefix_of` [(sHS, DirServerToClient, 0); (sHS, DirServerToClient, 1)].

Ltac within_step :=
  first
    [ apply within_skip; [by exists []; apply prefix_nil
        |first [apply emits_done | apply emits_read | apply emits_sendCleartext | apply emits_recvCleartext]
        |intros ?]
    | match goal with |- within _ (match ?x with pair _ _ => _ end) => destruct x end ].

Lemma client_within id pin kem : within client_sealed (runClientHandshake id pin kem).
Proof.
  unfold runClientHandshake. do 6 within_step. unfold clientKeyed. do 3 within_step. within_step. destruct a8 as [cHS sHS].
  intros tr r Hr. exists cHS. revert tr r Hr.
  eapply (within_emits [(cHS, DirClientToServer, 0)] [(cHS, DirClientToServer, 0)]); [|done..].
  emits_step. eapply emits_step; [apply emits_openOrEmit|intros ?|done].
  eapply emits_step; [apply emits_clientVerify|intros [t2 peer]|done]. emits_step. apply emits_clientAuth.
Qed.

Lemma server_within id pin x rnd : within server_sealed (runServerHandshake id pin x rnd).
Proof.
  unfold runServerHandshake. do 5 within_step. within_step. within_step. do 2 within_step.
  unfold serverKeyed. within_step. match goal with y : bytes * bytes |- _ => destruct y as [cHS sHS] end.
  intros tr r Hr. exists sHS. revert tr r Hr.
  eapply (within_emits [(sHS, DirServerToClient, 0)] [(sHS, DirServerToClient, 0); (sHS, DirServerToClient, 1)]);
    [|by eexists|done].
  apply (emits_bind [(sHS, DirServerToClient, 0)] [(sHS, DirServerToClient, 0)] [] [(sHS, DirServerToClient, 1)]);
    [apply emits_serverAuth| |by eexists|done].
  intros t2. change (u64 (0 + 1)) with 1. emits_step. eapply emits_step; [apply emits_openOrEmit|intros ?|done].
  eapply emits_step; [apply emits_serverVerify|intros [th peer]|done]. repeat emits_step.
Qed.

Lemma sealed_NoDup l : client_sealed l \/ server_sealed l -> NoDup l.
Proof.
  intros [(s & k & Hk)|(s & k & Hk)].
  - assert (NoDup [(s, DirClientToServer, 0)]) as Hn by apply NoDup_singleton.
    rewrite Hk in Hn. by apply NoDup_app in Hn as (? & _).
  - assert (NoDup [(s, DirServerToClient, 0); (s, DirServerToClient, 1)]) as Hn
      by (apply NoDup_cons; split; [intros [=]%list_elem_of_singleton|apply NoDup_singleton]).
    rewrite Hk in Hn. by apply NoDup_app in Hn as (? & _).
Qed.

(** C9: No nonce is used twice in a handshake.  In every run of either side, against
    any peer and any transport, the client seals at most one frame under its
    handshake key (CLIENT_AUTH or an ERROR, at sequence 0), and the server seals
    SERVER_AUTH at sequence 0 and at most one ERROR at sequence 1: no two sealed
    frames of a run share secret, direction and sequence number. *)
Theorem handshake_nonces (id : localIdentity) (pin : option bytes) (kem : result error KEMClient)
    (x rnd : bytes) (tr : list event) (r : result error established)
    (Hrun : hrun (runClientHandshake id pin kem) tr r \/ hrun (runServerHandshake id pin x rnd) tr r) :
  (client_sealed (seals tr) \/ server_sealed (seals tr)) /\ NoDup (seals tr).
Proof.
  assert (client_sealed (seals tr) \/ server_sealed (seals tr)) as Hs; [|by split; [|apply sealed_NoDup]].
  destruct Hrun as [Hr|Hr]; [left; by apply (client_within id pin kem tr r)|right; by apply (server_within id pin x rnd tr r)].
Qed.
End nonces.

(** ** What acceptance proves *)

(** The octets of the two hellos, and of an AUTH frame up to its identity key. *)
Definition hello_octets (ch : ClientHello) (sh : ServerHello) : bytes :=
  frame_octets (FrameClientHello, ClientHello_TLVs ch) ++ frame_octets (FrameServerHello, ServerHello_TLVs sh).

Definition auth_octets (ft : Z) (id : bytes) : bytes := be_put 2 ft ++ encode_tlv (mkTLV TLVIdentityKey id).

Lemma validate_standard profiles p :
  validateProfiles profiles = Ok tt -> contains profiles p = true -> p = ProfileStandard.
Proof.
  induction profiles as [|q profiles IH]; [done|]. cbn [validateProfiles contains existsb]. intros Hv Hc.
  apply bind_Ok in Hv as ([] & _ & Hv). apply bind_Ok in Hv as ([] & Hq & Hv). apply check_Ok in Hq.
  apply negb_false_iff, Z.eqb_eq in Hq. apply orb_true_iff in Hc as [Hc|Hc]; [apply Z.eqb_eq in Hc; congruence|].
  by apply IH.
Qed.

Lemma requireSelections_inv sh offered kem u :
  requireSelections sh offered kem = Ok u ->
  contains offered (ProfileSelect sh) = true /\ KEMSelect sh = kem /\ MinKEM (ProfileSelect sh) = kem /\
  SigSelect sh = SigEd25519 /\ AEADSelect sh = AEADAES256GCM.
Proof.
  unfold requireSelections. intros Hr. apply bind_Ok in Hr as ([] & H1 & Hr). apply bind_Ok in Hr as ([] & H2 & Hr).
  apply bind_Ok in Hr as ([] & H3 & Hr). apply bind_Ok in Hr as ([] & H4 & H5).
  apply check_Ok in H1, H2, H3, H4, H5. bprop. by rewrite ?negb_false_iff in *.
Qed.

Section accepts.
Context `{Crypto}.

Lemma hrun_sendCleartext ft pl tr u :
  hrun (sendCleartext ft pl) tr (Ok u) ->
  tr = [EWrite (mkHW (marshal (mkFrame 0 0 ft ChanControl 0 pl)) None) true].
Proof. intros Hr. by apply hrun_writeFrame in Hr as [-> _]. Qed.

Lemma hrun_recvCleartext want tr pl :
  hrun (recvCleartext want) tr (Ok pl) ->
  exists wire f, tr = [ERead (Ok wire)] /\ UnmarshalBinary wire = Ok f /\ Type_ f = want /\
    Z.land (Flags f) FlagENC = 0 /\ pl = Payload f.
Proof.
  unfold recvCleartext. intros Hr. hrun_inv Hr. exists a, a0.
  apply check_Ok in E0, E1. bprop. injection E2 as ->. done.
Qed.

Lemma hrun_orEmit {A} (r : result error A) bs dir q code p tr a :
  hrun (orEmit r bs dir q code p) tr (Ok a) -> r = Ok a /\ tr = [].
Proof.
  destruct r as [a'|e]; cbn [orEmit]; [intros [-> [= ->]]%hrun_done; done|].
  unfold emitHandshakeError. destruct (sealFrame _ _ _ _ _ _ _); [|by intros [_ ?]%hrun_done].
  intros (tr1 & b & tr2 & _ & Hr & _)%hrun_bind_ok. by apply hrun_done in Hr as [_ ?].
Qed.

Lemma hrun_openOrEmit r bs dir q p tr am :
  hrun (openOrEmit r bs dir q p) tr (Ok am) -> r = inl am /\ tr = [].
Proof.
  destruct r as [a'|[code e]]; cbn [openOrEmit]; [intros [-> [= ->]]%hrun_done; done|].
  intros Hr. change (hrun (orEmit (Err e) bs dir q code p) tr (Ok am)) in Hr.
  apply hrun_orEmit in Hr as [? _]. done.
Qed.

Lemma hrun_clientVerify t a cHS sHS p tr t2 peer :
  hrun (clientVerify t a cHS sHS p) tr (Ok (t2, peer)) ->
  let t1 := AddTLV (mkTLV TLVIdentityKey (IdentityKey a)) (AddFrameType FrameServerAuth t) in
  let t1' := AddTLV (mkTLV TLVCertVerify (CertVerify a)) t1 in
  tr = [] /\ peer = IdentityKey a /\ t2 = AddTLV (mkTLV TLVFinished (Finished a)) t1' /\
  VerifyCertVerify peer RoleServer (Transcript_Sum t1) (CertVerify a) = Ok tt /\
  exists fk, DeriveFinishedKey sHS p = Ok fk /\ VerifyFinished fk (Transcript_Sum t1') (Finished a) p = Ok tt.
Proof.
  intros Hr t1 t1'. unfold clientVerify in Hr. hrun_inv Hr. apply hrun_orEmit in R as [Hcv ->].
  apply hrun_orEmit in R0 as [Hf ->]. injection E0 as -> ->. split_and!; try done; [by destruct a0|].
  exists a1. split; [done|by destruct a2].
Qed.

Lemma pin_ok pin peer : pin_mismatch pin peer = false -> pin = None \/ pin = Some peer.
Proof. destruct pin as [k|]; cbn; [|by left]. case_bool_decide; [subst; by right|done]. Qed.

(** The transcript points as hashes of the octets exchanged. *)
Lemma hello_sum ch sh t :
  helloTranscript ProfileStandard ch sh = Ok t -> t = mkTranscript SHA256 (hello_octets ch sh).
Proof.
  unfold helloTranscript, NewTranscript. change (hashForProfile ProfileStandard) with (Ok (E := error) SHA256).
  cbn [mbind result_bind]. rewrite !AddFrame_buf. cbn [newHash t_buf app]. by intros [= <-].
Qed.

Lemma AddTLV_buf v h b : AddTLV v (mkTranscript h b) = mkTranscript h (b ++ encode_tlv v).
Proof. unfold AddTLV. cbn [newHash t_buf]. by rewrite TLV_Encode_app. Qed.

Lemma transcript_auth ft id h b :
  AddTLV (mkTLV TLVIdentityKey id) (AddFrameType ft (mkTranscript h b)) = mkTranscript h (b ++ auth_octets ft id).
Proof. unfold AddFrameType. cbn [newHash t_buf]. rewrite AddTLV_buf. unfold auth_octets. by rewrite app_assoc. Qed.

(** The client's run up to its keys, and what follows SERVER_AUTH. *)
Lemma hrun_clientAuth id t hsec cHS peer p tr master peer' p' :
  hrun (clientAuth id t hsec cHS peer p) tr (Ok (master, peer', p')) ->
  peer' = peer /\ p' = p /\ exists caW, tr = [EWrite caW true] /\ hw_seal caW = Some (cHS, DirClientToServer, 0).
Proof.
  unfold clientAuth. intros Hr. hrun_inv Hr. injection E5 as -> -> ->.
  split; [done|]. split; [done|]. eexists. split; [reflexivity|]. by eapply sealFrame_seal.
Qed.

(** C5: A client that completes the handshake has authenticated its peer.  Whatever
    frames arrive, if the client returns a session then: it sent its hello, read two
    frames and sent CLIENT_AUTH, nothing else; the profile is Standard, offered by
    it and selected by the server together with the required KEM, signature scheme
    and AEAD; the second frame opens under the server's handshake key; the peer
    identity it returns verifies a server CertVerify over the hash of exactly the
    hello this client sent, the hello it received and that identity; the Finished
    MAC verifies under the key derived from this exchange; and the identity is the
    pinned one if a key was pinned. *)
Theorem client_accepts (id : localIdentity) (pin : option bytes) (kem : KEMClient) (tr : list event)
    (master peer : bytes) (p : Z)
    (Hrun : hrun (runClientHandshake id pin (Ok kem)) tr (Ok (master, peer, p))) :
  let ch := clientHello (profilesOrDefault (li_profiles id)) kem in
  exists shW saW caW f sh a ss hsec cHS sHS fk,
    let sid := hello_octets ch sh ++ auth_octets FrameServerAuth peer in
    let scv := sid ++ encode_tlv (mkTLV TLVCertVerify (CertVerify a)) in
    tr = [EWrite (mkHW (marshal (mkFrame 0 0 FrameClientHello ChanControl 0 (ClientHello_Encode ch))) None) true;
          ERead (Ok shW); ERead (Ok saW); EWrite caW true] /\
    p = ProfileStandard /\ contains (profilesOrDefault (li_profiles id)) p = true /\
    UnmarshalBinary shW = Ok f /\ DecodeServerHello (Payload f) = Ok sh /\
    sh = mkServerHello p KEMX25519MLKEM768 SigEd25519 AEADAES256GCM (sh_KEMCiphertext sh) /\
    KEMClient_SharedSecrets kem (sh_KEMCiphertext sh) = Ok ss /\ HandshakeSecret ss p = Ok hsec /\
    DeriveHandshakeTrafficSecrets hsec (sha256 (hello_octets ch sh)) p = Ok (cHS, sHS) /\
    openAuthFrame saW FrameServerAuth sHS DirServerToClient p = inl a /\ IdentityKey a = peer /\
    VerifyCertVerify peer RoleServer (sha256 sid) (CertVerify a) = Ok tt /\
    DeriveFinishedKey sHS p = Ok fk /\ VerifyFinished fk (sha256 scv) (Finished a) p = Ok tt /\
    (pin = None \/ pin = Some peer).
Proof.
  intros ch. unfold runClientHandshake in Hrun. hrun_inv Hrun.
  injection E0 as <-. apply hrun_sendCleartext in R as ->. apply hrun_recvCleartext in R0 as (shW & f & -> & Hu & _ & _ & ->).
  apply requireSelections_inv in E2 as (Hc & Hk & _ & Hs & Ha).
  match goal with E : validateProfiles _ = Ok ?u |- _ => destruct u; pose proof (validate_standard _ _ E Hc) as Hp end.
  match goal with E : DecodeServerHello _ = Ok ?x |- _ => rename x into sh, E into Hsh end.
  unfold clientKeyed in Hrun. rewrite Hp in Hrun. hrun_inv Hrun.
  apply hello_sum in E0 as ->. apply hrun_openOrEmit in R as [Ho ->].
  apply hrun_clientVerify in R0 as (-> & -> & _ & Hcv & fk & Hfk & Hfin).
  apply hrun_clientAuth in Hrun as (-> & -> & caW & -> & _).
  apply check_Ok, pin_ok in E4. rewrite transcript_auth in Hcv, Hfin. rewrite AddTLV_buf in Hfin.
  rename a5 into am, a3 into saW, a0 into ss, a2 into hsec, l into cHS, l0 into sHS.
  exists shW, saW, caW, f, sh, am, ss, hsec, cHS, sHS, fk. cbn zeta. rewrite Hp in Hc.
  split_and!; try assumption; try reflexivity.
  destruct sh. cbn in *. by subst.
Qed.

Lemma select_contains offered allowed p :
  selectProfile offered allowed = Ok p -> contains offered p = true /\ contains allowed p = true.
Proof.
  induction allowed as [|q allowed IH]; [done|]. cbn [selectProfile]. destruct (contains offered q) eqn:E.
  - intros [= ->]. split; [done|]. cbn. by rewrite Z.eqb_refl.
  - intros Hs. destruct (IH Hs) as [H1 H2]. split; [done|]. cbn. rewrite orb_true_iff. by right.
Qed.

Lemma requireOffers_inv ch allowed p :
  requireOffers ch allowed = Ok p ->
  contains (ProfileOffer ch) p = true /\ contains allowed p = true /\ contains (KEMOffer ch) (MinKEM p) = true /\
  contains (SigOffer ch) SigEd25519 = true /\ contains (AEADOffer ch) AEADAES256GCM = true.
Proof.
  unfold requireOffers. intros Hr. apply bind_Ok in Hr as (q & Hq & Hr). apply bind_Ok in Hr as ([] & H2 & Hr).
  apply bind_Ok in Hr as ([] & H3 & Hr). apply bind_Ok in Hr as ([] & H4 & [= ->]).
  apply check_Ok in H2, H3, H4. rewrite negb_false_iff in *. apply select_contains in Hq as [? ?]. done.
Qed.

Lemma hrun_serverAuth id t sHS p tr t2 :
  hrun (serverAuth id t sHS 0 p) tr (Ok t2) ->
  exists saW sCV sFin, tr = [EWrite saW true] /\ hw_seal saW = Some (sHS, DirServerToClient, 0) /\
    signCertVerify id RoleServer
      (Transcript_Sum (AddTLV (mkTLV TLVIdentityKey (edPub id)) (AddFrameType FrameServerAuth t))) = Ok sCV /\
    t2 = AddTLV (mkTLV TLVFinished sFin) (AddTLV (mkTLV TLVCertVerify sCV)
           (AddTLV (mkTLV TLVIdentityKey (edPub id)) (AddFrameType FrameServerAuth t))).
Proof.
  unfold serverAuth. intros Hr. hrun_inv Hr. injection E4 as ->.
  unfold localIdentityKeyBytes in E. apply bind_Ok in E as ([] & _ & [= <-]).
  eexists _, _, _. split; [reflexivity|]. split; [by eapply sealFrame_seal|]. by split.
Qed.

Lemma hrun_serverVerify t a cHS sHS q p tr th peer :
  hrun (serverVerify t a cHS sHS q p) tr (Ok (th, peer)) ->
  let t1 := AddTLV (mkTLV TLVIdentityKey (IdentityKey a)) (AddFrameType FrameClientAuth t) in
  tr = [] /\ peer = IdentityKey a /\ th = Transcript_Sum (AddTLV (mkTLV TLVCertVerify (CertVerify a)) t1) /\
  VerifyCertVerify peer RoleClient (Transcript_Sum t1) (CertVerify a) = Ok tt /\
  exists fk, DeriveFinishedKey cHS p = Ok fk /\ VerifyFinished fk th (Finished a) p = Ok tt.
Proof.
  intros Hr t1. unfold serverVerify in Hr. hrun_inv Hr. apply hrun_orEmit in R as [Hcv ->].
  apply hrun_orEmit in R0 as [Hf ->]. injection E0 as -> ->. split_and!; try done; [by destruct a0|].
  exists a1. split; [done|by destruct a2].
Qed.

(** The octets of SERVER_AUTH that enter the transcript. *)
Definition server_auth_octets (id : localIdentity) (sCV sFin : bytes) : bytes :=
  auth_octets FrameServerAuth (edPub id) ++ encode_tlv (mkTLV TLVCertVerify sCV) ++
  encode_tlv (mkTLV TLVFinished sFin).

(** C6: A server that completes the handshake has authenticated its peer.  Whatever
    frames arrive, if the server returns a session then it read CLIENT_HELLO, wrote
    SERVER_HELLO and SERVER_AUTH and read CLIENT_AUTH, nothing else; the profile is
    Standard, offered by the client and allowed here, and the client offered its
    KEM, signature scheme and AEAD; the last frame opens under the client's
    handshake key; the peer identity verifies a client CertVerify over the hash of
    every octet exchanged so far; the Finished MAC verifies; the master secret is
    derived at that transcript point; and the identity is the pinned one if a key
    was pinned. *)
Theorem server_accepts (id : localIdentity) (pin : option bytes) (x rnd : bytes) (tr : list event)
    (master peer : bytes) (p : Z)
    (Hrun : hrun (runServerHandshake id pin x rnd) tr (Ok (master, peer, p))) :
  exists chW caW saW f ch ct ss hsec cHS sHS sCV sFin a fk,
    let sh := serverHello p ct in
    let cid := hello_octets ch sh ++ server_auth_octets id sCV sFin ++ auth_octets FrameClientAuth peer in
    let ccv := cid ++ encode_tlv (mkTLV TLVCertVerify (CertVerify a)) in
    tr = [ERead (Ok chW);
          EWrite (mkHW (marshal (mkFrame 0 0 FrameServerHello ChanControl 0 (ServerHello_Encode sh))) None) true;
          EWrite saW true; ERead (Ok caW)] /\
    p = ProfileStandard /\ contains (ProfileOffer ch) p = true /\
    contains (KEMOffer ch) KEMX25519MLKEM768 = true /\ contains (SigOffer ch) SigEd25519 = true /\
    contains (AEADOffer ch) AEADAES256GCM = true /\
    UnmarshalBinary chW = Ok f /\ DecodeClientHello (Payload f) = Ok ch /\
    Encapsulate (ch_KEMShare ch) x rnd = Ok (ct, ss) /\ HandshakeSecret ss p = Ok hsec /\
    DeriveHandshakeTrafficSecrets hsec (sha256 (hello_octets ch sh)) p = Ok (cHS, sHS) /\
    hw_seal saW = Some (sHS, DirServerToClient, 0) /\
    openAuthFrame caW FrameClientAuth cHS DirClientToServer p = inl a /\ IdentityKey a = peer /\
    VerifyCertVerify peer RoleClient (sha256 cid) (CertVerify a) = Ok tt /\
    DeriveFinishedKey cHS p = Ok fk /\ VerifyFinished fk (sha256 ccv) (Finished a) p = Ok tt /\
    DeriveMasterSecret hsec (sha256 ccv) p = Ok master /\ (pin = None \/ pin = Some peer).
Proof.
  unfold runServerHandshake in Hrun. hrun_inv Hrun.
  apply hrun_recvCleartext in R as (chW & f & -> & Hu & _ & _ & ->). apply hrun_sendCleartext in R0 as ->.
  match goal with E : requireOffers _ _ = Ok _ |- _ => apply requireOffers_inv in E as (Ho & Hal & Hk & Hs & Ha) end.
  match goal with E : validateProfiles _ = Ok ?u |- _ => destruct u; pose proof (validate_standard _ _ E Hal) as Hp end.
  subst. unfold serverKeyed in Hrun. hrun_inv Hrun. injection E7 as -> -> ->.
  rename a1 into ch, l into ct, s into ss, a4 into hsec, l0 into cHS, l1 into sHS, a0 into caW, a2 into am.
  assert (helloTranscript ProfileStandard ch (serverHello ProfileStandard ct) =
    Ok (AddFrame FrameServerHello (ServerHello_TLVs (serverHello ProfileStandard ct))
         (AddFrame FrameClientHello (ClientHello_TLVs ch) a3))) as Ht
    by (unfold helloTranscript; by rewrite E2).
  apply hello_sum in Ht. rewrite Ht in *. clear Ht.
  apply hrun_serverAuth in R as (saW & sCV & sFin & -> & Hseal & _ & ->).
  apply hrun_openOrEmit in R0 as [Hop ->].
  apply hrun_serverVerify in R1 as (-> & -> & -> & Hcv & fk & Hfk & Hfin). apply check_Ok, pin_ok in E5.
  rewrite !transcript_auth, !AddTLV_buf, !transcript_auth in *. rewrite AddTLV_buf in Hfin, E6.
  exists chW, caW, saW, f, ch, ct, ss, hsec, cHS, sHS, sCV, sFin, am, fk. cbn zeta.
  unfold server_auth_octets. rewrite <- !app_assoc in *.
  split_and!; first [assumption|reflexivity].
Qed.
End accepts.
