(* ===== verification/HandshakeHonest.v ===== *)
(** * Two honest endpoints

    The client and the server programs joined by two byte streams.  Under every
    schedule of their steps they end with the same master secret and profile and
    with each other's identity, and the two connections built from that are in step
    in both directions. *)

From S2P Require Import Prelude Errors Registry Sha256 Crypto Tlv Frame Aead Kem KeySchedule Transcript.
From S2P Require Import Handshake Cbor ErrorFrame Conn ConnRecv ConnLogic ConnLive ConnSync SdkHandshake HandshakeRuns.
From Stdlib Require Import Strings.Byte.
From stdpp Require Import gmap relations.
Open Scope Z_scope.

(** ** The system *)

Record sys : Type := mkSys {
  cl : hs established;
  sv : hs established;
  c2s : bytes;
  s2c : bytes
}.

(** One step of one side: a write is appended to the stream, a read takes a whole
    frame off it. *)
Inductive sys_step : sys -> sys -> Prop :=
| st_client_write w k s a b : sys_step (mkSys (HWrite w k) s a b) (mkSys (k true) s (a ++ hw_wire w) b)
| st_client_read k s a b w b' :
    readFrame b = (Ok w, b') -> sys_step (mkSys (HRead k) s a b) (mkSys (k (Ok w)) s a b')
| st_server_write w k c a b : sys_step (mkSys c (HWrite w k) a b) (mkSys c (k true) a (b ++ hw_wire w))
| st_server_read k c a b w a' :
    readFrame a = (Ok w, a') -> sys_step (mkSys c (HRead k) a b) (mkSys c (k (Ok w)) a' b).

(** The wire of a program's frame is read back whole. *)
Definition readable (w : bytes) : Prop := forall rest, readFrame (w ++ rest) = (Ok w, rest).

Section schedule.
Context (chW shW saW caW : hwrite).
Context (k0 k3 : bool -> hs established) (k1 k2 : result error bytes -> hs established).
Context (j1 j2 : bool -> hs established) (j0 j3 : result error bytes -> hs established).
Context (rC rS : result error established).
Context (Hch : readable (hw_wire chW)) (Hsh : readable (hw_wire shW))
  (Hsa : readable (hw_wire saW)) (Hca : readable (hw_wire caW)).
Context (Hk0 : k0 true = HRead k1) (Hk1 : k1 (Ok (hw_wire shW)) = HRead k2)
  (Hk2 : k2 (Ok (hw_wire saW)) = HWrite caW k3) (Hk3 : k3 true = HDone rC).
Context (Hj0 : j0 (Ok (hw_wire chW)) = HWrite shW j1) (Hj1 : j1 true = HWrite saW j2)
  (Hj2 : j2 true = HRead j3) (Hj3 : j3 (Ok (hw_wire caW)) = HDone rS).

Definition initial : sys := mkSys (HWrite chW k0) (HRead j0) [] [].
Definition final : sys := mkSys (HDone rC) (HDone rS) [] [].

(** The states the exchange goes through, with the steps left. *)
Definition phases : list (nat * sys) :=
  let ch := hw_wire chW in let sh := hw_wire shW in let sa := hw_wire saW in let ca := hw_wire caW in
  [ (8%nat, initial);
    (7%nat, mkSys (HRead k1) (HRead j0) ch []);
    (6%nat, mkSys (HRead k1) (HWrite shW j1) [] []);
    (5%nat, mkSys (HRead k1) (HWrite saW j2) [] sh);
    (4%nat, mkSys (HRead k1) (HRead j3) [] (sh ++ sa));
    (4%nat, mkSys (HRead k2) (HWrite saW j2) [] []);
    (3%nat, mkSys (HRead k2) (HRead j3) [] sa);
    (2%nat, mkSys (HWrite caW k3) (HRead j3) [] []);
    (1%nat, mkSys (HDone rC) (HRead j3) ca []);
    (0%nat, final) ].

Lemma read_whole w : readable w -> readFrame w = (Ok w, []).
Proof. intros Hw. specialize (Hw []). by rewrite app_nil_r in Hw. Qed.

Lemma read_empty w rest : readFrame [] <> (Ok w, rest).
Proof. done. Qed.

Ltac in_phases := unfold phases; repeat (first [apply list_elem_of_here | apply list_elem_of_further]).

(** A step of a phase is a phase with one step less. *)
Lemma phase_step n s s' : (n, s) ∈ phases -> sys_step s s' -> exists m, n = S m /\ (m, s') ∈ phases.
Proof.
  unfold phases, initial, final. rewrite !elem_of_cons.
  intros Hin Hst. repeat (destruct Hin as [[= -> ->]|Hin]); [..|by apply not_elem_of_nil in Hin];
    inversion Hst; subst; clear Hst;
    repeat match goal with
    | E : readFrame [] = _ |- _ => by apply read_empty in E
    | E : readFrame (hw_wire chW) = _ |- _ => rewrite (read_whole _ Hch) in E; injection E as <- <-
    | E : readFrame (hw_wire saW) = _ |- _ => rewrite (read_whole _ Hsa) in E; injection E as <- <-
    | E : readFrame (hw_wire shW) = _ |- _ => rewrite (read_whole _ Hsh) in E; injection E as <- <-
    | E : readFrame (hw_wire caW) = _ |- _ => rewrite (read_whole _ Hca) in E; injection E as <- <-
    | E : readFrame (hw_wire shW ++ _) = _ |- _ => rewrite Hsh in E; injection E as <- <-
    end; eexists; (split; [reflexivity|]);
    rewrite ?Hk0, ?Hk1, ?Hk2, ?Hk3, ?Hj0, ?Hj1, ?Hj2, ?Hj3; cbn [app]; set_solver.
Qed.

(** A phase with steps left can step. *)
Lemma phase_progress n s : (S n, s) ∈ phases -> exists s', sys_step s s'.
Proof.
  unfold phases, initial. rewrite !elem_of_cons. intros Hin.
  repeat (destruct Hin as [[= -> ->]|Hin]); [..|by apply not_elem_of_nil in Hin]; eexists;
    first [apply st_client_write | apply st_server_write
          | by apply st_client_read, Hsh | by apply st_client_read, read_whole
          | by apply st_server_read, read_whole].
Qed.

Lemma phase_zero s : (0%nat, s) ∈ phases -> s = final.
Proof. unfold phases. rewrite !elem_of_cons. intros Hin. repeat (destruct Hin as [[=]|Hin]); by try apply not_elem_of_nil in Hin. Qed.

(** [n] steps from a phase lead to a phase. *)
Lemma phase_steps k n s s' : (n, s) ∈ phases -> nsteps sys_step k s s' -> exists m, n = (k + m)%nat /\ (m, s') ∈ phases.
Proof.
  intros Hin Hs. revert n Hin. induction Hs as [s|k s1 s2 s3 H1 H2 IH]; intros n Hin; [by exists n|].
  destruct (phase_step _ _ _ Hin H1) as (m & -> & Hm). destruct (IH m Hm) as (m' & -> & Hm'). by exists m'.
Qed.

Lemma phase_terminates n s : (n, s) ∈ phases -> nsteps sys_step n s final.
Proof.
  revert s. induction n as [|n IH]; intros s Hin; [rewrite (phase_zero s Hin); constructor|].
  destruct (phase_progress n s Hin) as [s' Hs]. destruct (phase_step _ _ _ Hin Hs) as (m & [= <-] & Hm).
  econstructor; [done|by apply IH].
Qed.

(** Every schedule makes at most eight steps, and eight lead to [final]. *)
Lemma every_schedule k s :
  nsteps sys_step k initial s -> (k <= 8)%nat /\ nsteps sys_step (8 - k) s final /\ (k = 8%nat -> s = final).
Proof.
  intros Hs. destruct (phase_steps k 8 initial s) as (m & Hm & Hin); [apply list_elem_of_here|done|].
  split; [lia|]. replace (8 - k)%nat with m by lia. split; [by apply phase_terminates|].
  intros ->. apply phase_zero. by replace 0%nat with m by lia.
Qed.
End schedule.


(** ** Running the programs forward *)

Lemma bind_lift {A B} (r : result error A) (a : A) (f : A -> hs B) : r = Ok a -> hlift r ≫= f = f a.
Proof. by intros ->. Qed.

Lemma bind_ret {A B} (a : A) (f : A -> hs B) : mret a ≫= f = f a.
Proof. done. Qed.

Lemma write_bind {B} (w : hwrite) (f : unit -> hs B) :
  HeaderSize <= blen (hw_wire w) <= maxFrameSize ->
  writeFrame w ≫= f = HWrite w (fun io => HDone (if io then Ok tt else Err ErrIO) ≫= f).
Proof.
  intros [H1 H2]. unfold writeFrame.
  rewrite (bind_lift _ tt) by (rewrite (proj2 (Z.ltb_ge _ _)) by done; done).
  rewrite (bind_lift _ tt) by (rewrite (proj2 (Z.ltb_ge _ _)) by done; done). done.
Qed.

Lemma maxFrameSize_val : maxFrameSize = 16777216.
Proof. by vm_compute. Qed.

(** An unencrypted control frame. *)
Definition cleartext (ft : Z) (pl : bytes) : hwrite := mkHW (marshal (mkFrame 0 0 ft ChanControl 0 pl)) None.

Lemma cleartext_wf ft pl :
  is_u16 ft -> blen pl < 2 ^ 23 ->
  frame_wf (mkFrame ProtocolVersion 0 ft ChanControl 0 pl) /\
  hw_wire (cleartext ft pl) = marshal (mkFrame ProtocolVersion 0 ft ChanControl 0 pl) /\
  HeaderSize <= blen (hw_wire (cleartext ft pl)) <= maxFrameSize.
Proof.
  intros Hft Hpl. split; [|split].
  - unfold frame_wf. cbn [Version Flags Type_ Channel Seq Payload]. pose proof (blen_nonneg pl).
    split_and!; [reflexivity|lia|lia|reflexivity|exact Hft|by vm_compute|by vm_compute|lia].
  - apply marshal_zero_version.
  - cbn [hw_wire cleartext]. rewrite blen_marshal. unfold frame_size. cbn [Payload].
    pose proof (blen_nonneg pl). rewrite maxFrameSize_val. unfold HeaderSize. lia.
Qed.

Lemma cleartext_readable ft pl : is_u16 ft -> blen pl < 2 ^ 23 -> readable (hw_wire (cleartext ft pl)).
Proof.
  intros Hft Hpl rest. destruct (cleartext_wf ft pl Hft Hpl) as (Hwf & Hw & Hsz). rewrite Hw in *.
  apply readFrame_marshal; [exact Hwf|]. rewrite blen_marshal in Hsz. exact (proj2 Hsz).
Qed.

Lemma send_bind {B} ft pl (f : unit -> hs B) :
  is_u16 ft -> blen pl < 2 ^ 23 ->
  sendCleartext ft pl ≫= f = HWrite (cleartext ft pl) (fun io => HDone (if io then Ok tt else Err ErrIO) ≫= f).
Proof. intros Hft Hpl. apply (write_bind (cleartext ft pl)). exact (proj2 (proj2 (cleartext_wf ft pl Hft Hpl))). Qed.

(** What a reader of a cleartext frame makes of the frame it expects, and of another. *)
Lemma recv_cases {B} ft (f : bytes -> hs B) :
  is_u16 ft ->
  exists k, recvCleartext ft ≫= f = HRead k /\
    (forall pl, blen pl < 2 ^ 23 -> k (Ok (hw_wire (cleartext ft pl))) = f pl) /\
    (forall g, frame_wf g -> Type_ g <> ft -> k (Ok (marshal g)) = HDone (Err ErrWrongFrameType)).
Proof.
  intros Hft. set (body := fun wire => (g ← hlift (UnmarshalBinary wire);
    hlift (check (negb (Type_ g =? ft)) ErrWrongFrameType);;
    hlift (check (negb (Z.land (Flags g) FlagENC =? 0)) ErrEncryption);; mret (Payload g) : hs bytes) ≫= f).
  eexists. split; [reflexivity|]. cbn beta. split.
  - intros pl Hpl. destruct (cleartext_wf ft pl Hft Hpl) as (Hwf & Hw & _). rewrite Hw.
    set (fr := mkFrame ProtocolVersion 0 ft ChanControl 0 pl) in *.
    change (body (marshal fr) = f pl). unfold body.
    rewrite (bind_lift _ _ _ (unmarshal_marshal _ Hwf)). cbn [fr Type_ Flags Payload]. rewrite (Z.eqb_refl ft). reflexivity.
  - intros g Hwf Hne. change (body (marshal g) = HDone (Err ErrWrongFrameType)). unfold body.
    rewrite (bind_lift _ _ _ (unmarshal_marshal _ Hwf)), (proj2 (Z.eqb_neq _ _) Hne). reflexivity.
Qed.

(** ** Derivations of the Standard profile *)

Lemma standard_hash : hashForProfile ProfileStandard = Ok SHA256.
Proof. reflexivity. Qed.

Lemma expand_some secret label ctx :
  exists k, HkdfExpandLabel secret label ctx (hash_len SHA256) SHA256 = Ok k /\ blen k = 32.
Proof. apply (HkdfExpandLabel_ok secret label ctx 32 SHA256 _). change (hash_len SHA256) with 32. lia. Qed.

Lemma handshake_secrets_standard hsec th :
  exists cHS sHS, DeriveHandshakeTrafficSecrets hsec th ProfileStandard = Ok (cHS, sHS).
Proof.
  unfold DeriveHandshakeTrafficSecrets. rewrite standard_hash. cbn [mbind result_bind].
  destruct (expand_some hsec (str "c hs") th) as (c & -> & _).
  destruct (expand_some hsec (str "s hs") th) as (s & -> & _). by exists c, s.
Qed.

Lemma master_standard hsec th : exists m, DeriveMasterSecret hsec th ProfileStandard = Ok m.
Proof.
  unfold DeriveMasterSecret. rewrite standard_hash. cbn [mbind result_bind].
  destruct (expand_some hsec (str "master") th) as (m & -> & _). by exists m.
Qed.

Lemma finished_standard s th :
  exists fk mac, DeriveFinishedKey s ProfileStandard = Ok fk /\ ComputeFinished fk th ProfileStandard = Ok mac /\
    VerifyFinished fk th mac ProfileStandard = Ok tt /\ blen mac = 32.
Proof.
  unfold DeriveFinishedKey, ComputeFinished. rewrite standard_hash. cbn [mbind result_bind].
  destruct (expand_some s (str "finished") []) as (fk & -> & _). exists fk, (hmac SHA256 fk th).
  split; [done|]. split; [done|]. split; [by apply verify_finished_iff|]. unfold blen. by rewrite (length_hmac SHA256).
Qed.

Lemma secret_standard ss : exists hsec, HandshakeSecret ss ProfileStandard = Ok hsec.
Proof. by eexists. Qed.

(** ** Sealed frames *)

Section sealed.
Context `{CryptoLaws}.

Lemma deriveKeyIV_standard bs dir ch : exists key iv, deriveKeyIV bs dir ch ProfileStandard = Ok (key, iv).
Proof.
  unfold deriveKeyIV. destruct (derive_standard zeroKeys bs dir ch) as (st & Hd). unfold derive in Hd.
  apply bind_Ok in Hd as (ts & Hts & Hd). apply bind_Ok in Hd as ([key iv] & Hk & _).
  change (k_epoch zeroKeys) with 0 in Hts. rewrite Hts. cbn [mbind result_bind]. by exists key, iv.
Qed.

(** What one side seals, the other reads as the same frame and opens. *)
Lemma frame_sealed bs dir ch q ft pt :
  is_u16 ch -> is_u16 ft -> is_u64 q -> blen pt < 2 ^ 20 ->
  exists w f, sealFrame bs dir ch q ft pt ProfileStandard = Ok w /\
    readable (hw_wire w) /\ HeaderSize <= blen (hw_wire w) <= maxFrameSize /\
    UnmarshalBinary (hw_wire w) = Ok f /\ Type_ f = ft /\ Channel f = ch /\ Seq f = q /\ Flags f = FlagENC /\
    openFrame f bs dir ProfileStandard = Ok pt.
Proof.
  intros Hch Hft Hq Hsz. destruct (deriveKeyIV_standard bs dir ch) as (key & iv & Hk).
  unfold sealFrame. rewrite Hk. cbn [mbind result_bind]. unfold SealAES256GCM. cbn [mbind result_bind].
  set (aad := HeaderPrefix _ _). set (sealed := gcm_seal _ _ _ _).
  assert (blen sealed = blen pt + 16) as Hl by apply gcm_overhead.
  set (f := mkFrame ProtocolVersion FlagENC ft ch q sealed). eexists _, f. split; [reflexivity|]. cbn [hw_wire].
  change (MarshalBinary ?f).2 with (marshal f). rewrite marshal_zero_version. pose proof (blen_nonneg pt).
  assert (frame_wf f) as Hwf.
  { unfold frame_wf, f. cbn [Version Flags Type_ Channel Seq Payload]. rewrite Hl. unfold FlagENC.
    split_and!; [reflexivity|lia|lia|reflexivity|exact Hft|exact Hch|exact Hq|lia]. }
  assert (frame_size f <= maxFrameSize) as Hmax.
  { unfold frame_size, f. cbn [Payload]. rewrite Hl. rewrite maxFrameSize_val. unfold HeaderSize. lia. }
  split; [intros rest; by apply readFrame_marshal|]. split.
  { rewrite blen_marshal. split; [|done]. unfold frame_size, f. cbn [Payload]. lia. }
  split; [by apply unmarshal_marshal|]. do 4 (split; [reflexivity|]).
  unfold openFrame, f. cbn [Channel Seq Payload]. rewrite Hk. cbn [mbind result_bind]. rewrite Hl.
  apply open_iff. unfold SealAES256GCM. reflexivity.
Qed.

(** What the AUTH sender seals, the receiver opens. *)
Lemma auth_sealed bs dir q ft am :
  is_u16 ft -> is_u64 q -> auth_wf am -> blen (AuthMessage_Encode am) < 2 ^ 20 ->
  exists w, sealFrame bs dir ChanControl q ft (AuthMessage_Encode am) ProfileStandard = Ok w /\
    readable (hw_wire w) /\ HeaderSize <= blen (hw_wire w) <= maxFrameSize /\
    openAuthFrame (hw_wire w) ft bs dir ProfileStandard = inl am.
Proof.
  intros Hft Hq Ham Hsz. destruct (frame_sealed bs dir ChanControl q ft (AuthMessage_Encode am)) as (w & f & Hw & Hr & Hs & Hu & Ht & _ & _ & Hf & Ho);
    [by vm_compute|exact Hft|exact Hq|exact Hsz|].
  exists w. split; [exact Hw|]. split; [exact Hr|]. split; [exact Hs|]. unfold openAuthFrame. rewrite Hu, Ht, Hf, Z.eqb_refl. cbn [negb].
  change (Z.land FlagENC FlagENC =? 0) with false. cbn [negb]. rewrite Ho. by rewrite decode_auth.
Qed.
End sealed.

(** Nothing runs after an ERROR has been sent. *)
Lemma emit_bind `{Crypto} {A B} bs dir seq code p e (f : A -> hs B) :
  emitHandshakeError bs dir seq code p e ≫= f = emitHandshakeError bs dir seq code p e.
Proof.
  unfold emitHandshakeError. destruct (sealFrame _ _ _ _ _ _ _) as [w|]; [|reflexivity]. unfold writeFrame.
  destruct (blen (hw_wire w) <? HeaderSize); [reflexivity|]. by destruct (maxFrameSize <? blen (hw_wire w)).
Qed.

(** ** The messages of an honest exchange *)

Lemma encode_tlvs_size ts : Forall tlv_wf ts -> blen (encode_tlvs ts) <= blen ts * 65539.
Proof.
  induction 1 as [|t ts [_ Ht] Hts IH]; [by vm_compute|].
  rewrite encode_tlvs_cons, blen_app, blen_encode_tlv, blen_cons. lia.
Qed.

Lemma validated_all l : validateProfiles l = Ok tt -> Forall (eq ProfileStandard) l.
Proof.
  induction l as [|p l IH]; [constructor|]. cbn [validateProfiles]. intros Hv.
  apply bind_Ok in Hv as ([] & _ & Hv). apply bind_Ok in Hv as ([] & Hp & Hv). apply check_Ok in Hp.
  apply negb_false_iff, Z.eqb_eq in Hp. constructor; [done|by apply IH].
Qed.

Lemma profilesOrDefault_nonempty l : profilesOrDefault l <> [].
Proof.
  unfold profilesOrDefault. destruct (blen l =? 0) eqn:E; [done|]. by apply blen_nonempty.
Qed.

Lemma all_standard l : l <> [] -> Forall (eq ProfileStandard) l -> contains l ProfileStandard = true.
Proof. intros Hne Hl. destruct Hl as [|p l <- Hl]; [done|]. unfold contains. cbn [existsb]. by rewrite Z.eqb_refl. Qed.

Lemma select_standard offered allowed :
  contains offered ProfileStandard = true -> allowed <> [] -> Forall (eq ProfileStandard) allowed ->
  selectProfile offered allowed = Ok ProfileStandard.
Proof. intros Ho Hne Ha. destruct Ha as [|p l <- Hl]; [done|]. cbn [selectProfile]. by rewrite Ho. Qed.

(** An identity as [resolveIdentity] returns it. *)
Record identity_ok `{Crypto} (id : localIdentity) (priv : bytes) : Prop := {
  io_priv : edPriv id = Some priv;
  io_pub : edPub id = ed25519_public priv;
  io_valid : validateProfiles (profilesOrDefault (li_profiles id)) = Ok tt;
  io_size : blen (profilesOrDefault (li_profiles id)) < 2 ^ 16
}.

Section messages.
Context `{CryptoLaws}.

Lemma resolved_ok fresh cfg id :
  resolveIdentity fresh cfg = Ok id -> blen (Profiles cfg) < 2 ^ 16 -> exists priv, identity_ok id priv.
Proof.
  unfold resolveIdentity. intros Hr Hsz. apply bind_Ok in Hr as ([] & Hv & Hr).
  apply bind_Ok in Hr as ([priv pub] & Hi & [= <-]). exists priv.
  assert (pub = ed25519_public priv) as ->.
  { unfold identity in Hi. destruct (Identity cfg); [by injection Hi as -> <-|].
    by apply bind_Ok in Hi as (q & _ & [= -> <-]). }
  assert (profilesOrDefault (profilesOrDefault (Profiles cfg)) = profilesOrDefault (Profiles cfg)) as Hpp.
  { unfold profilesOrDefault at 1. pose proof (profilesOrDefault_nonempty (Profiles cfg)) as Hne.
    apply blen_nonempty in Hne. by rewrite Hne. }
  split; cbn [edPriv edPub li_profiles]; rewrite ?Hpp; try reflexivity; [exact Hv|].
  unfold profilesOrDefault. destruct (blen (Profiles cfg) =? 0); [by vm_compute|exact Hsz].
Qed.

Lemma identity_key_bytes id priv : identity_ok id priv -> localIdentityKeyBytes id = Ok (edPub id).
Proof. intros []. unfold localIdentityKeyBytes. by rewrite io_pub0, ed25519_public_size. Qed.

Lemma identity_signs id priv role th :
  identity_ok id priv -> role_valid role ->
  exists cv, signCertVerify id role th = Ok cv /\ verifyCertVerify (edPub id) role th cv = Ok tt /\ blen cv = 66.
Proof.
  intros [] Hr. unfold signCertVerify, verifyCertVerify. rewrite io_priv0, io_pub0.
  assert (CertVerifySigningInput role th = Ok (replicate 64 x20 ++ certVerifyContext role ++ [x00] ++ th)) as Hi
    by (by apply signing_input_iff).
  assert (exists cv, SignCertVerify priv role th = Ok cv /\ blen cv = 66) as (cv & Hs & Hl).
  { unfold SignCertVerify. rewrite Hi. eexists. split; [reflexivity|]. by rewrite blen_app, ed25519_sign_size. }
  exists cv. split; [exact Hs|]. split; [by apply verify_sign|exact Hl].
Qed.

Lemma client_hello_ok id priv kem :
  identity_ok id priv ->
  let ch := clientHello (profilesOrDefault (li_profiles id)) kem in
  client_hello_wf ch /\ DecodeClientHello (ClientHello_Encode ch) = Ok ch /\ blen (ClientHello_Encode ch) < 2 ^ 23.
Proof.
  intros [] ch. assert (client_hello_wf ch) as Hwf.
  { pose proof (validated_all _ io_valid0) as Hall. unfold client_hello_wf, ch, clientHello.
    cbn [ProfileOffer KEMOffer SigOffer AEADOffer ch_KEMShare].
    assert (forall v, is_u16 v -> u16_offer_wf [v]) as H1
      by (intros v Hv; split; [done|]; split; [by apply Forall_singleton|reflexivity]).
    split; [apply profilesOrDefault_nonempty|].
    split; [eapply Forall_impl; [exact Hall|]; intros ? <-; by vm_compute|].
    split; [exact io_size0|]. split; [apply H1; by vm_compute|]. split; [apply H1; by vm_compute|].
    split; [apply H1; by vm_compute|]. pose proof (blen_KEMShare kem) as Hk.
    split; [apply blen_nonempty; by rewrite Hk|by rewrite Hk]. }
  split; [exact Hwf|]. split; [by apply decode_client_hello|].
  pose proof (encode_tlvs_size _ (ClientHello_TLVs_wf _ Hwf)) as Hs. unfold ClientHello_Encode.
  change (blen (ClientHello_TLVs ch)) with 5 in Hs. lia.
Qed.

Lemma server_hello_ok ct :
  blen ct = KEMCiphertextSize768 ->
  let sh := serverHello ProfileStandard ct in
  DecodeServerHello (ServerHello_Encode sh) = Ok sh /\ blen (ServerHello_Encode sh) < 2 ^ 23.
Proof.
  intros Hct sh. assert (server_hello_wf sh) as Hwf.
  { unfold server_hello_wf, sh, serverHello. cbn [ProfileSelect KEMSelect SigSelect AEADSelect sh_KEMCiphertext].
    do 4 (split; [by vm_compute|]). split; [apply blen_nonempty; by rewrite Hct|by rewrite Hct]. }
  split; [by apply decode_server_hello|].
  pose proof (encode_tlvs_size _ (ServerHello_TLVs_wf _ Hwf)) as Hs. unfold ServerHello_Encode.
  change (blen (ServerHello_TLVs sh)) with 5 in Hs. lia.
Qed.

Lemma auth_message_ok id priv cv mac :
  identity_ok id priv -> blen cv = 66 -> blen mac = 32 ->
  auth_wf (mkAuth (edPub id) cv mac) /\ blen (AuthMessage_Encode (mkAuth (edPub id) cv mac)) < 2 ^ 20.
Proof.
  intros [] Hcv Hmac. pose proof (ed25519_public_size priv) as Hp. rewrite <- io_pub0 in Hp.
  assert (forall v : bytes, 0 < blen v < 2 ^ 16 -> value_wf v) as Hv.
  { intros v Hv. split; [apply blen_nonempty, Z.eqb_neq; lia|lia]. }
  assert (auth_wf (mkAuth (edPub id) cv mac)) as Hwf
    by (split; [apply Hv; cbn [IdentityKey]; lia|split; apply Hv; cbn [CertVerify Finished]; lia]).
  split; [exact Hwf|]. pose proof (encode_tlvs_size _ (AuthMessage_TLVs_wf _ Hwf)) as Hs.
  unfold AuthMessage_Encode. change (blen (AuthMessage_TLVs _)) with 3 in Hs. lia.
Qed.
End messages.

(** ** The exchange *)

(** What both sides compute. *)
Record exchange : Type := mkExchange {
  x_hsec : bytes; x_cHS : bytes; x_sHS : bytes;
  x_sCV : bytes; x_sKey : bytes; x_sFin : bytes; x_sa : hwrite;
  x_cCV : bytes; x_cKey : bytes; x_cFin : bytes; x_ca : hwrite;
  x_master : bytes
}.

Section exchange.
Context `{CryptoLaws}.
Context (idC idS : localIdentity) (privC privS : bytes) (pinC pinS : option bytes).
Context (seed xk x rnd ct : bytes) (kem : KEMClient) (ss : SharedSecrets).
Context (HidC : identity_ok idC privC) (HidS : identity_ok idS privS)
  (Hkem : NewKEMClient seed xk = Ok kem) (Hrec : mlkem_recovers seed rnd)
  (Henc : Encapsulate (KEMShare kem) x rnd = Ok (ct, ss))
  (HpinC : pinC = None \/ pinC = Some (edPub idS)) (HpinS : pinS = None \/ pinS = Some (edPub idC)).

Definition hello_c : ClientHello := clientHello (profilesOrDefault (li_profiles idC)) kem.
Definition hello_s : ServerHello := serverHello ProfileStandard ct.

(** The transcript points. *)
Definition point_hello : Transcript := mkTranscript SHA256 (hello_octets hello_c hello_s).
Definition point_sid : Transcript :=
  AddTLV (mkTLV TLVIdentityKey (edPub idS)) (AddFrameType FrameServerAuth point_hello).
Definition point_scv (e : exchange) : Transcript := AddTLV (mkTLV TLVCertVerify (x_sCV e)) point_sid.
Definition point_cid (e : exchange) : Transcript :=
  AddTLV (mkTLV TLVIdentityKey (edPub idC))
    (AddFrameType FrameClientAuth (AddTLV (mkTLV TLVFinished (x_sFin e)) (point_scv e))).
Definition point_ccv (e : exchange) : Transcript := AddTLV (mkTLV TLVCertVerify (x_cCV e)) (point_cid e).

(** One side's AUTH message: its signature and MAC verify, and it opens at the peer. *)
Record auth_ok (id : localIdentity) (role ft dir : Z) (hs : bytes) (t1 t2 : Transcript)
    (cv key fin : bytes) (w : hwrite) : Prop := {
  ao_sign : signCertVerify id role (Transcript_Sum t1) = Ok cv;
  ao_verify : verifyCertVerify (edPub id) role (Transcript_Sum t1) cv = Ok tt;
  ao_key : DeriveFinishedKey hs ProfileStandard = Ok key;
  ao_fin : ComputeFinished key (Transcript_Sum t2) ProfileStandard = Ok fin;
  ao_mac : VerifyFinished key (Transcript_Sum t2) fin ProfileStandard = Ok tt;
  ao_seal : sealFrame hs dir ChanControl 0 ft (AuthMessage_Encode (mkAuth (edPub id) cv fin)) ProfileStandard = Ok w;
  ao_readable : readable (hw_wire w);
  ao_size : HeaderSize <= blen (hw_wire w) <= maxFrameSize;
  ao_open : openAuthFrame (hw_wire w) ft hs dir ProfileStandard = inl (mkAuth (edPub id) cv fin)
}.

Record exchange_ok (e : exchange) : Prop := {
  xo_hsec : HandshakeSecret ss ProfileStandard = Ok (x_hsec e);
  xo_keys : DeriveHandshakeTrafficSecrets (x_hsec e) (Transcript_Sum point_hello) ProfileStandard
            = Ok (x_cHS e, x_sHS e);
  xo_server : auth_ok idS RoleServer FrameServerAuth DirServerToClient (x_sHS e) point_sid (point_scv e)
    (x_sCV e) (x_sKey e) (x_sFin e) (x_sa e);
  xo_client : auth_ok idC RoleClient FrameClientAuth DirClientToServer (x_cHS e) (point_cid e) (point_ccv e)
    (x_cCV e) (x_cKey e) (x_cFin e) (x_ca e);
  xo_master : DeriveMasterSecret (x_hsec e) (Transcript_Sum (point_ccv e)) ProfileStandard = Ok (x_master e)
}.

Lemma auth_exists id priv role ft dir hs t1 (t2 : bytes -> Transcript) :
  identity_ok id priv -> role_valid role -> is_u16 ft ->
  exists cv key fin w, auth_ok id role ft dir hs t1 (t2 cv) cv key fin w.
Proof.
  intros Hid Hr Hft. destruct (identity_signs id priv role (Transcript_Sum t1) Hid Hr) as (cv & Hs & Hv & Hl).
  destruct (finished_standard hs (Transcript_Sum (t2 cv))) as (key & fin & Hk & Hf & Hm & Hfl).
  destruct (auth_message_ok id priv cv fin Hid Hl Hfl) as [Hwf Hsz].
  destruct (auth_sealed hs dir 0 ft (mkAuth (edPub id) cv fin) Hft) as (w & Hw & Hrd & Hws & Ho);
    [by vm_compute|exact Hwf|exact Hsz|].
  exists cv, key, fin, w. by split.
Qed.

(** Both sides' computations exist. *)
Lemma exchange_exists : exists e, exchange_ok e.
Proof.
  destruct (secret_standard ss) as (hsec & Hh).
  destruct (handshake_secrets_standard hsec (Transcript_Sum point_hello)) as (cHS & sHS & Hk).
  destruct (auth_exists idS privS RoleServer FrameServerAuth DirServerToClient sHS point_sid
    (fun cv => AddTLV (mkTLV TLVCertVerify cv) point_sid) HidS) as (sCV & sKey & sFin & sa & Hs);
    [by right|by vm_compute|].
  set (cid := AddTLV (mkTLV TLVIdentityKey (edPub idC)) (AddFrameType FrameClientAuth
    (AddTLV (mkTLV TLVFinished sFin) (AddTLV (mkTLV TLVCertVerify sCV) point_sid)))).
  destruct (auth_exists idC privC RoleClient FrameClientAuth DirClientToServer cHS cid
    (fun cv => AddTLV (mkTLV TLVCertVerify cv) cid) HidC) as (cCV & cKey & cFin & ca & Hc);
    [by left|by vm_compute|].
  destruct (master_standard hsec (Transcript_Sum (AddTLV (mkTLV TLVCertVerify cCV) cid))) as (master & Hm).
  exists (mkExchange hsec cHS sHS sCV sKey sFin sa cCV cKey cFin ca master). by split.
Qed.

Lemma pins_pass pin peer : pin = None \/ pin = Some peer -> check (pin_mismatch pin peer) ErrPinMismatch = Ok tt.
Proof. intros [->| ->]; cbn [pin_mismatch]; [done|]. by rewrite bool_decide_true. Qed.

Lemma hello_transcript : helloTranscript ProfileStandard hello_c hello_s = Ok point_hello.
Proof.
  unfold helloTranscript, NewTranscript. rewrite standard_hash. cbn [mbind result_bind].
  by rewrite !AddFrame_buf.
Qed.

Definition ch_wire : hwrite := cleartext FrameClientHello (ClientHello_Encode hello_c).
Definition sh_wire : hwrite := cleartext FrameServerHello (ServerHello_Encode hello_s).

Section scripts.
Context (e : exchange) (He : exchange_ok e).

Lemma clientVerify_ok :
  clientVerify point_hello (mkAuth (edPub idS) (x_sCV e) (x_sFin e)) (x_cHS e) (x_sHS e) ProfileStandard
  = mret (AddTLV (mkTLV TLVFinished (x_sFin e)) (point_scv e), edPub idS).
Proof.
  destruct (xo_server e He). unfold clientVerify. cbn [IdentityKey CertVerify Finished]. fold point_sid.
  rewrite ao_verify0. unfold orEmit at 1. rewrite (bind_lift (Ok tt) tt) by reflexivity.
  rewrite (bind_lift _ _ _ ao_key0). fold (point_scv e). by rewrite ao_mac0.
Qed.

Lemma clientAuth_ok :
  exists k, clientAuth idC (AddTLV (mkTLV TLVFinished (x_sFin e)) (point_scv e)) (x_hsec e) (x_cHS e)
      (edPub idS) ProfileStandard = HWrite (x_ca e) k /\
    k true = HDone (Ok (x_master e, edPub idS, ProfileStandard)).
Proof.
  destruct (xo_client e He). eexists. split.
  - unfold clientAuth. rewrite (bind_lift _ _ _ (identity_key_bytes _ _ HidC)). fold (point_cid e).
    rewrite (bind_lift _ _ _ ao_sign0). fold (point_ccv e).
    rewrite (bind_lift _ _ _ ao_key0), (bind_lift _ _ _ ao_fin0), (bind_lift _ _ _ ao_seal0).
    rewrite (write_bind _ _ ao_size0). reflexivity.
  - cbn beta iota. rewrite (bind_lift (Ok tt) tt) by reflexivity. by rewrite (bind_lift _ _ _ (xo_master e He)).
Qed.

Lemma serverAuth_ok {B} (f : Transcript -> hs B) :
  exists k, serverAuth idS point_hello (x_sHS e) 0 ProfileStandard ≫= f = HWrite (x_sa e) k /\
    k true = f (AddTLV (mkTLV TLVFinished (x_sFin e)) (point_scv e)).
Proof.
  destruct (xo_server e He). eexists. split.
  - unfold serverAuth. rewrite (bind_lift _ _ _ (identity_key_bytes _ _ HidS)). fold point_sid.
    rewrite (bind_lift _ _ _ ao_sign0). fold (point_scv e).
    rewrite (bind_lift _ _ _ ao_key0), (bind_lift _ _ _ ao_fin0), (bind_lift _ _ _ ao_seal0).
    rewrite (write_bind _ _ ao_size0). reflexivity.
  - reflexivity.
Qed.

Lemma serverVerify_ok :
  serverVerify (AddTLV (mkTLV TLVFinished (x_sFin e)) (point_scv e)) (mkAuth (edPub idC) (x_cCV e) (x_cFin e))
    (x_cHS e) (x_sHS e) 1 ProfileStandard
  = mret (Transcript_Sum (point_ccv e), edPub idC).
Proof.
  destruct (xo_client e He). unfold serverVerify. cbn [IdentityKey CertVerify Finished]. fold (point_cid e).
  rewrite ao_verify0. unfold orEmit at 1. rewrite (bind_lift (Ok tt) tt) by reflexivity.
  rewrite (bind_lift _ _ _ ao_key0). fold (point_ccv e). by rewrite ao_mac0.
Qed.

(** The program of the client along the exchange, and where it leaves it. *)
Lemma client_program :
  exists k0 k1 k2 k3, runClientHandshake idC pinC (Ok kem) = HWrite ch_wire k0 /\ k0 true = HRead k1 /\
    k1 (Ok (hw_wire sh_wire)) = HRead k2 /\ k2 (Ok (hw_wire (x_sa e))) = HWrite (x_ca e) k3 /\
    k3 true = HDone (Ok (x_master e, edPub idS, ProfileStandard)) /\
    (forall g, frame_wf g -> Type_ g <> FrameServerHello -> k1 (Ok (marshal g)) = HDone (Err ErrWrongFrameType)) /\
    (forall sh err, server_hello_wf sh -> blen (ServerHello_Encode sh) < 2 ^ 23 ->
       requireSelections sh (profilesOrDefault (li_profiles idC)) KEMX25519MLKEM768 = Err err ->
       k1 (Ok (hw_wire (cleartext FrameServerHello (ServerHello_Encode sh)))) = HDone (Err err)) /\
    (forall w code err, openAuthFrame w FrameServerAuth (x_sHS e) DirServerToClient ProfileStandard = inr (code, err) ->
       k2 (Ok w) = emitHandshakeError (x_cHS e) DirClientToServer 0 code ProfileStandard err).
Proof.
  destruct (client_hello_ok idC privC kem HidC) as (_ & _ & Hcl). fold hello_c in Hcl.
  destruct (server_hello_ok ct (Encapsulate_size _ _ _ _ _ Henc)) as [Hsd Hsl]. fold hello_s in Hsd, Hsl.
  set (rest := fun pl => sh ← hlift (DecodeServerHello pl);
    hlift (requireSelections sh (profilesOrDefault (li_profiles idC)) KEMX25519MLKEM768);;
    clientKeyed idC pinC kem hello_c sh).
  destruct (recv_cases FrameServerHello rest) as (k1 & Hk1 & Hpl & Hwrong); [by vm_compute|].
  pose proof (Hpl _ Hsl) as Hk1'. fold sh_wire in Hk1'.
  assert (requireSelections hello_s (profilesOrDefault (li_profiles idC)) KEMX25519MLKEM768 = Ok tt) as Hsel.
  { unfold requireSelections. change (ProfileSelect hello_s) with ProfileStandard.
    rewrite all_standard; [reflexivity|apply profilesOrDefault_nonempty|apply validated_all, HidC]. }
  destruct clientAuth_ok as (k3 & Hk3 & Hk3').
  eexists _, k1, _, k3. split.
  { unfold runClientHandshake. rewrite (bind_lift _ tt) by apply HidC. rewrite (bind_lift (Ok kem) kem) by reflexivity.
    fold hello_c. rewrite send_bind; [reflexivity|by vm_compute|exact Hcl]. }
  split; [exact Hk1|]. rewrite Hk1'. unfold rest. rewrite (bind_lift _ _ _ Hsd), (bind_lift _ _ _ Hsel).
  unfold clientKeyed. change (ProfileSelect hello_s) with ProfileStandard.
  rewrite (bind_lift _ _ _ hello_transcript). change (sh_KEMCiphertext hello_s) with ct.
  rewrite (bind_lift _ _ _ (kem_agreement seed xk kem x rnd ct ss Hkem Hrec Henc)).
  rewrite (bind_lift _ _ _ (xo_hsec e He)), (bind_lift _ _ _ (xo_keys e He)).
  split; [reflexivity|]. split; [|split; [exact Hk3'|split; [exact Hwrong|split]]].
  - cbn beta iota. rewrite (ao_open _ _ _ _ _ _ _ _ _ _ _ (xo_server e He)).
    unfold openOrEmit. rewrite bind_ret, clientVerify_ok, bind_ret.
    rewrite (bind_lift _ tt) by (by apply pins_pass). exact Hk3.
  - intros sh err Hwf Hsz Hno. rewrite (Hpl _ Hsz). unfold rest.
    rewrite (bind_lift _ _ _ (decode_server_hello sh Hwf)), Hno. reflexivity.
  - intros w code err Ho. cbn beta iota. rewrite Ho. unfold openOrEmit. apply emit_bind.
Qed.

Lemma client_script :
  exists k0 k1 k2 k3, runClientHandshake idC pinC (Ok kem) = HWrite ch_wire k0 /\ k0 true = HRead k1 /\
    k1 (Ok (hw_wire sh_wire)) = HRead k2 /\ k2 (Ok (hw_wire (x_sa e))) = HWrite (x_ca e) k3 /\
    k3 true = HDone (Ok (x_master e, edPub idS, ProfileStandard)).
Proof. destruct client_program as (k0 & k1 & k2 & k3 & Hc & Hk0 & Hk1 & Hk2 & Hk3 & _). by exists k0, k1, k2, k3. Qed.

(** The program of the server along the exchange, and where it leaves it. *)
Lemma server_program :
  exists j0 j1 j2 j3, runServerHandshake idS pinS x rnd = HRead j0 /\ j0 (Ok (hw_wire ch_wire)) = HWrite sh_wire j1 /\
    j1 true = HWrite (x_sa e) j2 /\ j2 true = HRead j3 /\
    j3 (Ok (hw_wire (x_ca e))) = HDone (Ok (x_master e, edPub idC, ProfileStandard)) /\
    (forall g, frame_wf g -> Type_ g <> FrameClientHello -> j0 (Ok (marshal g)) = HDone (Err ErrWrongFrameType)) /\
    (forall w code err, openAuthFrame w FrameClientAuth (x_cHS e) DirClientToServer ProfileStandard = inr (code, err) ->
       j3 (Ok w) = emitHandshakeError (x_sHS e) DirServerToClient 1 code ProfileStandard err).
Proof.
  destruct (client_hello_ok idC privC kem HidC) as (_ & Hcd & Hcl). fold hello_c in Hcl, Hcd.
  destruct (server_hello_ok ct (Encapsulate_size _ _ _ _ _ Henc)) as [_ Hsl]. fold hello_s in Hsl.
  set (allowed := profilesOrDefault (li_profiles idS)).
  set (rest := fun pl => ch ← hlift (DecodeClientHello pl); p ← hlift (requireOffers ch allowed);
    t ← hlift (NewTranscript p);
    let t := AddFrame FrameClientHello (ClientHello_TLVs ch) t in
    '(kemCT, kemSS) ← hlift (Encapsulate (ch_KEMShare ch) x rnd);
    hsec ← hlift (HandshakeSecret kemSS p);
    let sh := serverHello p kemCT in
    sendCleartext FrameServerHello (ServerHello_Encode sh);;
    serverKeyed idS pinS hsec (AddFrame FrameServerHello (ServerHello_TLVs sh) t) p).
  destruct (recv_cases FrameClientHello rest) as (j0 & Hj0 & Hpl & Hwrong); [by vm_compute|].
  pose proof (Hpl _ Hcl) as Hj0'. fold ch_wire in Hj0'.
  assert (requireOffers hello_c allowed = Ok ProfileStandard) as Hoff.
  { unfold requireOffers. change (ProfileOffer hello_c) with (profilesOrDefault (li_profiles idC)).
    rewrite select_standard; [reflexivity|apply all_standard; [apply profilesOrDefault_nonempty|apply validated_all, HidC]
      |apply profilesOrDefault_nonempty|apply validated_all, HidS]. }
  pose proof hello_transcript as Ht. unfold helloTranscript in Ht. apply bind_Ok in Ht as (t & Ht & Htp).
  apply (f_equal (fun r => match r with Ok a => a | Err _ => t end)) in Htp. cbn iota in Htp.
  set (after := fun t => caWire ← hread;
    cAuth ← openOrEmit (openAuthFrame caWire FrameClientAuth (x_cHS e) DirClientToServer ProfileStandard)
      (x_sHS e) DirServerToClient 1 ProfileStandard;
    '(thCCV, peerID) ← serverVerify t cAuth (x_cHS e) (x_sHS e) 1 ProfileStandard;
    hlift (check (pin_mismatch pinS peerID) ErrPinMismatch);;
    master ← hlift (DeriveMasterSecret (x_hsec e) thCCV ProfileStandard);
    (mret (master, peerID, ProfileStandard) : hs established)).
  destruct (serverAuth_ok after) as (j2 & Hj2 & Hj2').
  eexists j0, _, j2, _. split.
  { unfold runServerHandshake. rewrite (bind_lift _ tt) by apply HidS. exact Hj0. }
  split.
  { rewrite Hj0'. unfold rest. rewrite (bind_lift _ _ _ Hcd), (bind_lift _ _ _ Hoff), (bind_lift _ _ _ Ht).
    change (ch_KEMShare hello_c) with (KEMShare kem). rewrite (bind_lift _ _ _ Henc). cbn beta iota.
    rewrite (bind_lift _ _ _ (xo_hsec e He)). fold hello_s. rewrite Htp.
    rewrite send_bind; [reflexivity|by vm_compute|exact Hsl]. }
  split.
  { cbn beta iota. rewrite (bind_lift (Ok tt) tt) by reflexivity. unfold serverKeyed.
    rewrite (bind_lift _ _ _ (xo_keys e He)). exact Hj2. }
  split; [rewrite Hj2'; reflexivity|]. split; [|split; [exact Hwrong|]].
  - cbn beta iota. rewrite (ao_open _ _ _ _ _ _ _ _ _ _ _ (xo_client e He)).
    unfold openOrEmit. rewrite bind_ret, serverVerify_ok, bind_ret.
    rewrite (bind_lift _ tt) by (by apply pins_pass). by rewrite (bind_lift _ _ _ (xo_master e He)).
  - intros w code err Ho. cbn beta iota. rewrite Ho. unfold openOrEmit. apply emit_bind.
Qed.

Lemma server_script :
  exists j0 j1 j2 j3, runServerHandshake idS pinS x rnd = HRead j0 /\ j0 (Ok (hw_wire ch_wire)) = HWrite sh_wire j1 /\
    j1 true = HWrite (x_sa e) j2 /\ j2 true = HRead j3 /\
    j3 (Ok (hw_wire (x_ca e))) = HDone (Ok (x_master e, edPub idC, ProfileStandard)).
Proof. destruct server_program as (j0 & j1 & j2 & j3 & Hs & Hj0 & Hj1 & Hj2 & Hj3 & _). by exists j0, j1, j2, j3. Qed.
End scripts.

(** Each side's own run of the exchange. *)
Lemma honest_runs :
  exists trC trS master,
    hrun (runClientHandshake idC pinC (Ok kem)) trC (Ok (master, edPub idS, ProfileStandard)) /\
    hrun (runServerHandshake idS pinS x rnd) trS (Ok (master, edPub idC, ProfileStandard)).
Proof.
  destruct exchange_exists as [e He].
  destruct (client_script e He) as (k0 & k1 & k2 & k3 & Hc & Hk0 & Hk1 & Hk2 & Hk3).
  destruct (server_script e He) as (j0 & j1 & j2 & j3 & Hs & Hj0 & Hj1 & Hj2 & Hj3).
  exists [EWrite ch_wire true; ERead (Ok (hw_wire sh_wire)); ERead (Ok (hw_wire (x_sa e))); EWrite (x_ca e) true],
    [ERead (Ok (hw_wire ch_wire)); EWrite sh_wire true; EWrite (x_sa e) true; ERead (Ok (hw_wire (x_ca e)))], (x_master e).
  split.
  - rewrite Hc. constructor. rewrite Hk0. constructor. rewrite Hk1. constructor. rewrite Hk2. constructor.
    rewrite Hk3. constructor.
  - rewrite Hs. constructor. rewrite Hj0. constructor. rewrite Hj1. constructor. rewrite Hj2. constructor.
    rewrite Hj3. constructor.
Qed.

(** C4: Two honest endpoints complete the handshake under every schedule.  Joined by
    two byte streams, the client and the server make at most eight steps whatever
    the order; from every state they reach they can go on to the end, and the end is
    always the same: both streams empty, both sides with the same master secret and
    the Standard profile, each with the other's identity key.  The two connections
    built from these results are open and in step in both directions. *)
Theorem honest_handshake :
  exists master,
    let c := (master, edPub idS, ProfileStandard) in
    let s := (master, edPub idC, ProfileStandard) in
    (forall k st, nsteps sys_step k (mkSys (runClientHandshake idC pinC (Ok kem)) (runServerHandshake idS pinS x rnd) [] []) st ->
       (k <= 8)%nat /\ nsteps sys_step (8 - k) st (final (Ok c) (Ok s)) /\ (k = 8%nat -> st = final (Ok c) (Ok s))) /\
    in_sync (establish DirClientToServer DirServerToClient c) (establish DirServerToClient DirClientToServer s) /\
    in_sync (establish DirServerToClient DirClientToServer s) (establish DirClientToServer DirServerToClient c).
Proof.
  destruct exchange_exists as [e He]. exists (x_master e). cbn zeta. split.
  - destruct (client_script e He) as (k0 & k1 & k2 & k3 & Hc & Hk0 & Hk1 & Hk2 & Hk3).
    destruct (server_script e He) as (j0 & j1 & j2 & j3 & Hs & Hj0 & Hj1 & Hj2 & Hj3).
    destruct (client_hello_ok idC privC kem HidC) as (_ & _ & Hcl). fold hello_c in Hcl.
    destruct (server_hello_ok ct (Encapsulate_size _ _ _ _ _ Henc)) as [_ Hsl]. fold hello_s in Hsl.
    rewrite Hc, Hs. intros k st Hst.
    apply (every_schedule ch_wire sh_wire (x_sa e) (x_ca e) k0 k3 k1 k2 j1 j2 j0 j3); try assumption.
    + apply cleartext_readable; [by vm_compute|exact Hcl].
    + apply cleartext_readable; [by vm_compute|exact Hsl].
    + apply (xo_server e He).
    + apply (xo_client e He).
  - split; apply (in_sync_newConn (x_master e)).
Qed.
End exchange.

(** ** A concrete exchange *)

Definition sample_client : localIdentity := mkIdentity (Some (str "client key")) (ed25519_public (Crypto := Toy.crypto) (str "client key")) [].
Definition sample_server : localIdentity :=
  mkIdentity (Some (str "server key")) (ed25519_public (Crypto := Toy.crypto) (str "server key")) [ProfileStandard].
Definition sample_seed : bytes := replicate 64 x01.
Definition sample_x : bytes := replicate 32 x02.
Definition sample_rnd : bytes := replicate 32 x03.
Definition sample_kem : KEMClient := mkKEMClient sample_seed sample_x.
Definition sample_reply : bytes * SharedSecrets :=
  match Encapsulate (H := Toy.crypto) (KEMShare (H := Toy.crypto) sample_kem) sample_x sample_rnd with
  | Ok r => r | Err _ => ([], mkSS [] []) end.

Lemma sample_ready :
  identity_ok (H := Toy.crypto) sample_client (str "client key") /\
  identity_ok (H := Toy.crypto) sample_server (str "server key") /\
  NewKEMClient (H := Toy.crypto) sample_seed sample_x = Ok sample_kem /\
  mlkem_recovers (H := Toy.crypto) sample_seed sample_rnd /\
  Encapsulate (H := Toy.crypto) (KEMShare (H := Toy.crypto) sample_kem) sample_x sample_rnd
  = Ok (sample_reply.1, sample_reply.2).
Proof. split; [by split|]. split; [by split|]. split; [by vm_compute|]. split; by vm_compute. Qed.

Lemma honest_handshake_witness :
  exists master, let c := (master, edPub sample_server, ProfileStandard) in
    let s := (master, edPub sample_client, ProfileStandard) in
    nsteps sys_step 8 (mkSys (runClientHandshake (H := Toy.crypto) sample_client (Some (edPub sample_server)) (Ok sample_kem))
      (runServerHandshake (H := Toy.crypto) sample_server None sample_x sample_rnd) [] []) (final (Ok c) (Ok s)).
Proof.
  destruct sample_ready as (HC & HS & Hk & Hr & He).
  destruct (honest_handshake (H := Toy.crypto) (H0 := Toy.laws) sample_client sample_server _ _ (Some (edPub sample_server)) None
    sample_seed sample_x sample_x sample_rnd _ sample_kem _ HC HS Hk Hr He (or_intror eq_refl) (or_introl eq_refl))
    as (master & Hall & _).
  exists master. apply (Hall 0%nat). constructor.
Defined.

Lemma sample_runs :
  exists trC trS master,
    hrun (runClientHandshake (H := Toy.crypto) sample_client (Some (edPub sample_server)) (Ok sample_kem)) trC
      (Ok (master, edPub sample_server, ProfileStandard)) /\
    hrun (runServerHandshake (H := Toy.crypto) sample_server None sample_x sample_rnd) trS
      (Ok (master, edPub sample_client, ProfileStandard)).
Proof.
  destruct sample_ready as (HC & HS & Hk & Hr & He).
  exact (honest_runs (H := Toy.crypto) (H0 := Toy.laws) sample_client sample_server _ _ (Some (edPub sample_server)) None
    sample_seed sample_x sample_x sample_rnd _ sample_kem _ HC HS Hk Hr He (or_intror eq_refl) (or_introl eq_refl)).
Qed.

Lemma client_accepts_witness :
  exists tr master peer, hrun (runClientHandshake (H := Toy.crypto) sample_client (Some (edPub sample_server)) (Ok sample_kem)) tr
      (Ok (master, peer, ProfileStandard)) /\
    length tr = 4%nat /\ (Some (edPub sample_server) = None \/ Some (edPub sample_server) = Some peer).
Proof.
  destruct sample_runs as (trC & trS & master & Hc & _).
  exists trC, master, (edPub sample_server). split; [exact Hc|].
  destruct (client_accepts (H := Toy.crypto) sample_client (Some (edPub sample_server)) sample_kem trC master
    (edPub sample_server) ProfileStandard Hc) as (? & ? & ? & ? & ? & ? & ? & ? & ? & ? & ? & -> & Hrest).
  split; [reflexivity|]. by right.
Defined.

Lemma server_accepts_witness :
  exists tr master peer, hrun (runServerHandshake (H := Toy.crypto) sample_server None sample_x sample_rnd) tr
      (Ok (master, peer, ProfileStandard)) /\ length tr = 4%nat.
Proof.
  destruct sample_runs as (trC & trS & master & _ & Hs).
  exists trS, master, (edPub sample_client). split; [exact Hs|].
  destruct (server_accepts (H := Toy.crypto) sample_server None sample_x sample_rnd trS master
    (edPub sample_client) ProfileStandard Hs) as (? & ? & ? & ? & ? & ? & ? & ? & ? & ? & ? & ? & ? & ? & -> & Hrest).
  reflexivity.
Defined.

Lemma handshake_nonces_witness :
  exists tr r, hrun (runServerHandshake (H := Toy.crypto) sample_server None sample_x sample_rnd) tr r /\ NoDup (seals tr).
Proof.
  destruct sample_runs as (trC & trS & master & _ & Hs).
  exists trS, (Ok (master, edPub sample_client, ProfileStandard)). split; [exact Hs|].
  exact (proj2 (handshake_nonces (H := Toy.crypto) sample_server None (Ok sample_kem) sample_x sample_rnd trS _ (or_intror Hs))).
Defined.
