(* ===== verification/Entry.v ===== *)
(** * The entry points own their transport

    [Dial] and [Accept] open a transport and close it when they fail; [DialConn],
    [AcceptConn], [DialRaw] and [AcceptRaw] run on the caller's connection and never
    close it; the race of [DialWithFallback] has the result of the dial. *)

From S2P Require Import Prelude Errors Registry Sha256 Crypto Tlv Frame Aead Kem KeySchedule Transcript.
From S2P Require Import Handshake Cbor ErrorFrame Conn SdkHandshake HandshakeRuns HandshakeHonest.
From Stdlib Require Import Strings.Byte.
From stdpp Require Import gmap.
Open Scope Z_scope.

(** ** Programs that never close *)

Fixpoint never_closes {A} (m : hs A) : Prop :=
  match m with
  | HDone _ => True
  | HWrite _ k => forall io, never_closes (k io)
  | HRead k => forall r, never_closes (k r)
  | HClose _ => False
  end.

Create HintDb closes.

Lemma closes_bind {A B} (m : hs A) (f : A -> hs B) :
  never_closes m -> (forall a, never_closes (f a)) -> never_closes (m ≫= f).
Proof. intros Hm Hf. induction m as [[a|e]|w k IH|k IH|k IH]; cbn in *; auto. Qed.

Lemma closes_lift {A} (r : result error A) : never_closes (hlift r).
Proof. exact I. Qed.

Lemma closes_attempt {A} (m : hs A) : never_closes m -> never_closes (hattempt m).
Proof. induction m; cbn; auto. Qed.

Lemma closes_read : never_closes hread.
Proof. intros r. exact I. Qed.

Lemma closes_writeFrame w : never_closes (writeFrame w).
Proof. apply closes_bind; [apply closes_lift|]. intros _. apply closes_bind; [apply closes_lift|]. by intros _ io. Qed.

Lemma closes_ret {A} (a : A) : never_closes (mret a : hs A).
Proof. exact I. Qed.

Ltac closes :=
  repeat first
    [ apply closes_lift | apply closes_ret | apply closes_read | apply closes_writeFrame
    | solve [auto with closes] | apply closes_attempt
    | apply closes_bind; [|intros ?]
    | match goal with |- never_closes (match ?x with _ => _ end) => destruct x end
    | exact I ].

Section closes.
Context `{Crypto}.

Lemma closes_error {A} bs dir q code p e : never_closes (emitHandshakeError (A := A) bs dir q code p e).
Proof. unfold emitHandshakeError. closes. Qed.
Hint Resolve closes_error : closes.

Lemma closes_orEmit {A} (r : result error A) bs dir q code p : never_closes (orEmit r bs dir q code p).
Proof. unfold orEmit. closes. Qed.
Hint Resolve closes_orEmit : closes.

Lemma closes_openOrEmit r bs dir q p : never_closes (openOrEmit r bs dir q p).
Proof. unfold openOrEmit. closes. Qed.
Hint Resolve closes_openOrEmit : closes.

Lemma closes_client id pin kem : never_closes (runClientHandshake id pin kem).
Proof.
  unfold runClientHandshake, sendCleartext, recvCleartext, clientKeyed, clientVerify, clientAuth. closes.
Qed.

Lemma closes_server id pin x rnd : never_closes (runServerHandshake id pin x rnd).
Proof.
  unfold runServerHandshake, sendCleartext, recvCleartext, serverKeyed, serverVerify, serverAuth. closes.
Qed.
End closes.

Lemma closes_run {A} (m : hs A) tr r : never_closes m -> hrun m tr r -> EClose ∉ tr.
Proof. intros Hm Hr. induction Hr; cbn in Hm; [by apply not_elem_of_nil|set_solver|set_solver|done]. Qed.

(** A failing run under [close_on_error] ends with the close, a successful one has none. *)
Lemma close_on_error_run {A} (m : hs A) tr r :
  never_closes m -> hrun (close_on_error m) tr r ->
  match r with
  | Ok _ => (EClose ∉ tr) /\ hrun m tr r
  | Err e => exists tr', tr = tr' ++ [EClose] /\ (EClose ∉ tr') /\ hrun m tr' (Err e)
  end.
Proof.
  intros Hm [(tr1 & r0 & tr2 & H1 & H2 & ->)|(e & H1 & ->)]%hrun_bind.
  - apply hrun_attempt in H1 as (r1 & [= <-] & H1). pose proof (closes_run m tr1 r0 Hm H1) as Hn. destruct r0 as [a|e].
    + apply hrun_done in H2 as [-> ->]. rewrite app_nil_r. by split.
    + inversion H2 as [| | |k tr0 r1 H3]; subst. apply hrun_done in H3 as [-> ->]. by exists tr1.
  - by apply hrun_attempt in H1 as (r0 & ? & _).
Qed.

Section entry.
Context `{Crypto}.

Definition closed_iff_failed {A} (tr : list event) (r : result error A) : Prop :=
  match r with Ok _ => EClose ∉ tr | Err _ => exists tr', tr = tr' ++ [EClose] /\ EClose ∉ tr' end.

Lemma close_on_error_owns {A} (m : hs A) tr r :
  never_closes m -> hrun (close_on_error m) tr r -> closed_iff_failed tr r.
Proof.
  intros Hm Hr. apply close_on_error_run in Hr; [|done]. destruct r; cbn; [apply Hr|].
  destruct Hr as (tr' & ? & ? & _). by exists tr'.
Qed.

(** The entry points own exactly the transports they open.  Once [Dial] has a TLS
    connection, and once [Accept] has an accepted one, a failing run ends by closing
    it, once, and a successful run does not close it; before that there is nothing
    to close and a run closes nothing.  [DialConn], [AcceptConn], [DialRaw] and
    [AcceptRaw] never close the caller's connection, whether they fail or succeed. *)
Theorem transport_ownership (cfg : Config) (fresh : result error bytes) (kem : result error KEMClient)
    (x rnd : bytes) (raw : bool) (tls : result error (option bytes)) (tr : list event) (r : result error Conn) :
  (hrun (Dial cfg fresh kem tls) tr r ->
   if TLSConfig cfg then
     match resolveIdentity fresh cfg, tls with
     | Ok _, Ok _ => closed_iff_failed tr r
     | _, _ => tr = []
     end
   else tr = []) /\
  (hrun (Listener_Accept cfg fresh x rnd (Ok tls)) tr r -> closed_iff_failed tr r) /\
  (forall e, hrun (Listener_Accept cfg fresh x rnd (Err e)) tr r -> tr = []) /\
  (hrun (DialConn cfg fresh kem raw tls) tr r \/ hrun (AcceptConn cfg fresh x rnd raw tls) tr r \/
   hrun (DialRaw cfg fresh kem raw) tr r \/ hrun (AcceptRaw cfg fresh x rnd raw) tr r -> EClose ∉ tr).
Proof.
  split_and!.
  - unfold Dial. destruct (TLSConfig cfg); cbn [negb check]; [|by intros [-> _]%hrun_done].
    rewrite (bind_lift (Ok tt) tt) by done. destruct (resolveIdentity fresh cfg) as [id|]; [|by intros [-> _]%hrun_done].
    rewrite (bind_lift (Ok id) id) by done. destruct tls as [a|]; [|by intros [-> _]%hrun_done].
    rewrite (bind_lift (Ok a) a) by done. apply close_on_error_owns.
    apply closes_bind; [apply closes_lift|]. intros _. apply closes_bind; [apply closes_client|]. intros; exact I.
  - unfold Listener_Accept. rewrite (bind_lift (Ok tls) tls) by done. apply close_on_error_owns.
    do 3 (apply closes_bind; [apply closes_lift|intros ?]). apply closes_bind; [apply closes_server|]. intros; exact I.
  - by intros e [-> _]%hrun_done.
  - pose proof closes_client. pose proof closes_server.
    intros [Hr|[Hr|[Hr|Hr]]]; (eapply closes_run; [|exact Hr]);
      unfold DialConn, AcceptConn, DialRaw, AcceptRaw;
      repeat (apply closes_bind; [solve [apply closes_lift|auto]|intros ?]); exact I.
Qed.

(** The QUIC race never changes the outcome.  Whichever of the two legs settles
    first and whatever the probe yields, [DialWithFallback] returns the connection of
    the dial, or fails when the dial fails, as it does without a race; the telemetry names the winner
    exactly when the dial succeeded and records both legs' errors. *)
Theorem fallback_transparent (quic : result error unit) (tcp : result error Conn)
    (legs : list (result error unit + result error Conn)) (Hlegs : legs ≡ₚ [inl quic; inr tcp]) :
  let '(c, tel, err) := DialWithFallback true tcp legs in
  let '(c0, tel0, err0) := DialWithFallback false tcp [] in
  c = c0 /\ (err = None <-> err0 = None) /\ Winner tel = Winner tel0 /\ QUICErr tel = err_of quic /\ TCPTLSErr tel = err_of tcp /\
  (c = None <-> err <> None) /\ (Winner tel = None <-> c = None).
Proof.
  symmetry in Hlegs. apply Permutation_length_2_inv in Hlegs.
  destruct Hlegs as [->| ->], quic as [[]|e], tcp as [c|e']; cbn; split_and!; done.
Qed.
End entry.

Lemma fallback_transparent_witness :
  let tcp := Err ErrIO in
  let '(c, tel, err) := DialWithFallback true tcp [inr tcp; inl (Ok tt)] in
  c = None /\ err = Some ErrFallback /\ Winner tel = None.
Proof.
  pose proof (fallback_transparent (Ok tt) (Err ErrIO) [inr (Err ErrIO); inl (Ok tt)] (Permutation_swap _ _ _)) as Hf.
  destruct Hf as (H1 & _ & H3 & _). exact (conj H1 (conj eq_refl H3)).
Defined.

(** A dial whose TLS layer negotiated another protocol fails and closes. *)
Lemma transport_ownership_witness :
  let cfg := mkConfig true (Some (str "client key")) [] None in
  hrun (Dial (H := Toy.crypto) cfg (Err ErrIO) (Err ErrIO) (Ok (Some (str "h2")))) [EClose] (Err ErrALPN) /\
  closed_iff_failed [EClose] (Err (A := Conn) ErrALPN).
Proof.
  set (cfg := mkConfig _ _ _ _).
  assert (hrun (Dial (H := Toy.crypto) cfg (Err ErrIO) (Err ErrIO) (Ok (Some (str "h2")))) [EClose] (Err ErrALPN)) as Hr
    by (apply run_close; constructor).
  split; [exact Hr|].
  exact (proj1 (transport_ownership (H := Toy.crypto) cfg (Err ErrIO) (Err ErrIO) [] [] true (Ok (Some (str "h2")))
    [EClose] (Err ErrALPN)) Hr).
Defined.
