(* ===== verification/ChannelFrames.v ===== *)
(** * Frame types of the companion channels (stream.go, memory.go, capability.go,
    immune.go, settlement.go, telemetry.go, commerce.go, interaction.go, workflow.go,
    knowledge.go)

    Each channel has its own namespace of 16-bit frame types, so values coincide
    between channels. *)

From S2P Require Import Prelude.
Open Scope Z_scope.

(** ** Stream *)

Definition FrameStreamOpen : Z := 0x0100.
Definition FrameStreamData : Z := 0x0101.
Definition FrameStreamClose : Z := 0x0102.
Definition FrameStreamReset : Z := 0x0103.
Definition FrameStreamWindowUpdate : Z := 0x0104.

Definition IsStreamFrame (ft : Z) : bool := (FrameStreamOpen <=? ft) && (ft <=? FrameStreamWindowUpdate).

(** ** Memory *)

Definition FrameMemoryCreateReq : Z := 0x0100.
Definition FrameMemoryCreateResult : Z := 0x0101.
Definition FrameMemoryReadReq : Z := 0x0102.
Definition FrameMemoryReadResult : Z := 0x0103.
Definition FrameMemoryUpdateReq : Z := 0x0104.
Definition FrameMemoryUpdateResult : Z := 0x0105.
Definition FrameMemoryDeleteReq : Z := 0x0106.
Definition FrameMemoryDeleteResult : Z := 0x0107.
Definition FrameMemoryRetrieveReq : Z := 0x0108.
Definition FrameMemoryRetrieveResult : Z := 0x0109.
Definition FrameMemoryRetrieveStreamData : Z := 0x010A.
Definition FrameMemoryRetrieveStreamEnd : Z := 0x010B.
Definition FrameMemoryStatusReq : Z := 0x010C.
Definition FrameMemoryStatusResult : Z := 0x010D.
Definition FrameMemoryError : Z := 0x010E.
Definition FrameMemoryEvict : Z := 0x0035.
Definition FrameMemoryRevive : Z := 0x0036.

Definition IsMemoryFrame (ft : Z) : bool :=
  if (ft =? FrameMemoryEvict) || (ft =? FrameMemoryRevive) then true
  else if (FrameMemoryCreateReq <=? ft) && (ft <=? FrameMemoryError) then true
  else false.

Definition IsMemoryRequest (ft : Z) : bool := existsb (Z.eqb ft)
  [FrameMemoryCreateReq; FrameMemoryReadReq; FrameMemoryUpdateReq; FrameMemoryDeleteReq;
      FrameMemoryRetrieveReq; FrameMemoryStatusReq; FrameMemoryEvict; FrameMemoryRevive].

(** ** Capability *)

Definition FrameCapIssueReq : Z := 0x0100.
Definition FrameCapIssueResult : Z := 0x0101.
Definition FrameCapDelegateReq : Z := 0x0102.
Definition FrameCapDelegateResult : Z := 0x0103.
Definition FrameCapRevokeReq : Z := 0x0104.
Definition FrameCapRevokeResult : Z := 0x0105.
Definition FrameCapLookupReq : Z := 0x0106.
Definition FrameCapLookupResult : Z := 0x0107.
Definition FrameCapError : Z := 0x0108.
Definition FrameCapTokenPresent : Z := 0x0060.
Definition FrameCapTokenAccept : Z := 0x0061.
Definition FrameCapTokenChallenge : Z := 0x0062.
Definition FrameCapTokenProof : Z := 0x0063.

Definition IsCapabilityFrame (ft : Z) : bool :=
  if (FrameCapTokenPresent <=? ft) && (ft <=? FrameCapTokenProof) then true
  else if (FrameCapIssueReq <=? ft) && (ft <=? FrameCapError) then true
  else false.

Definition IsCapabilityRequest (ft : Z) : bool := existsb (Z.eqb ft)
  [FrameCapIssueReq; FrameCapDelegateReq; FrameCapRevokeReq; FrameCapLookupReq; FrameCapTokenPresent;
      FrameCapTokenChallenge].

(** ** Immune *)

Definition FrameImmuneReportReq : Z := 0x0100.
Definition FrameImmuneReportResult : Z := 0x0101.
Definition FrameImmuneError : Z := 0x0102.
Definition FrameImmuneGossipAdvertise : Z := 0x00C0.
Definition FrameImmuneGossipAck : Z := 0x00C1.
Definition FrameImmuneGossipPullReq : Z := 0x00C2.
Definition FrameImmuneGossipPullResult : Z := 0x00C3.
Definition FrameImmuneGossipRetract : Z := 0x00C4.

Definition IsImmuneFrame (ft : Z) : bool :=
  if (FrameImmuneGossipAdvertise <=? ft) && (ft <=? FrameImmuneGossipRetract) then true
  else if (FrameImmuneReportReq <=? ft) && (ft <=? FrameImmuneError) then true
  else false.

Definition IsImmuneRequest (ft : Z) : bool := existsb (Z.eqb ft)
  [FrameImmuneReportReq; FrameImmuneGossipAdvertise; FrameImmuneGossipPullReq; FrameImmuneGossipRetract].

Definition IsImmunePropagationFrame (ft : Z) : bool := (FrameImmuneGossipAdvertise <=? ft) && (ft <=? FrameImmuneGossipRetract).

(** ** Settlement *)

Definition FrameSettleIntentReq : Z := 0x0100.
Definition FrameSettleIntentResult : Z := 0x0101.
Definition FrameReceiptReq : Z := 0x0102.
Definition FrameReceiptResult : Z := 0x0103.
Definition FrameSettleError : Z := 0x0104.
Definition FrameSettleBatchCommitReq : Z := 0x00A0.
Definition FrameSettleBatchCommitResult : Z := 0x00A1.

Definition IsSettlementFrame (ft : Z) : bool :=
  if (ft =? FrameSettleBatchCommitReq) || (ft =? FrameSettleBatchCommitResult) then true
  else if (FrameSettleIntentReq <=? ft) && (ft <=? FrameSettleError) then true
  else false.

Definition IsSettlementRequest (ft : Z) : bool := existsb (Z.eqb ft)
  [FrameSettleIntentReq; FrameReceiptReq; FrameSettleBatchCommitReq].

(** ** Telemetry *)

Definition FrameTelemetryReport : Z := 0x0100.
Definition FrameTelemetrySubscribe : Z := 0x0101.
Definition FrameTelemetrySubAck : Z := 0x0102.
Definition FrameTelemetryUnsubscribe : Z := 0x0103.
Definition FrameTelemetryCredit : Z := 0x0104.
Definition FrameTelemetryError : Z := 0x0105.

Definition IsTelemetryFrame (ft : Z) : bool := (FrameTelemetryReport <=? ft) && (ft <=? FrameTelemetryError).

(** ** Commerce *)

Definition FrameCommerceMandateCreateReq : Z := 0x0100.
Definition FrameCommerceMandateCreateResult : Z := 0x0101.
Definition FrameCommerceMandateReadReq : Z := 0x0102.
Definition FrameCommerceMandateReadResult : Z := 0x0103.
Definition FrameCommerceMandateRevokeReq : Z := 0x0104.
Definition FrameCommerceMandateRevokeResult : Z := 0x0105.
Definition FrameCommerceMandateStatusReq : Z := 0x0106.
Definition FrameCommerceMandateStatusResult : Z := 0x0107.
Definition FrameCommerceIntentProposeReq : Z := 0x0108.
Definition FrameCommerceIntentProposeResult : Z := 0x0109.
Definition FrameCommerceIntentRespondReq : Z := 0x010A.
Definition FrameCommerceIntentRespondResult : Z := 0x010B.
Definition FrameCommerceIntentStatusReq : Z := 0x010C.
Definition FrameCommerceIntentStatusResult : Z := 0x010D.
Definition FrameCommerceError : Z := 0x010E.

Definition IsCommerceFrame (ft : Z) : bool := (FrameCommerceMandateCreateReq <=? ft) && (ft <=? FrameCommerceError).

Definition IsCommerceRequest (ft : Z) : bool := existsb (Z.eqb ft)
  [FrameCommerceMandateCreateReq; FrameCommerceMandateReadReq; FrameCommerceMandateRevokeReq;
      FrameCommerceMandateStatusReq; FrameCommerceIntentProposeReq; FrameCommerceIntentRespondReq;
      FrameCommerceIntentStatusReq].

(** ** Interaction *)

Definition FrameInteractEvent : Z := 0x0100.
Definition FrameInteractEventAck : Z := 0x0101.
Definition FrameInteractPromptReq : Z := 0x0102.
Definition FrameInteractPromptResult : Z := 0x0103.
Definition FrameInteractApprovalReq : Z := 0x0104.
Definition FrameInteractApprovalResult : Z := 0x0105.
Definition FrameInteractCancel : Z := 0x0106.
Definition FrameInteractError : Z := 0x0107.

Definition IsInteractionFrame (ft : Z) : bool := (FrameInteractEvent <=? ft) && (ft <=? FrameInteractError).

Definition IsInteractionRequest (ft : Z) : bool := existsb (Z.eqb ft)
  [FrameInteractEvent; FrameInteractPromptReq; FrameInteractApprovalReq].

(** ** Workflow *)

Definition FrameWorkflowSubmitReq : Z := 0x0100.
Definition FrameWorkflowSubmitResult : Z := 0x0101.
Definition FrameWorkflowStatusReq : Z := 0x0102.
Definition FrameWorkflowStatusResult : Z := 0x0103.
Definition FrameWorkflowCancelReq : Z := 0x0104.
Definition FrameWorkflowCancelResult : Z := 0x0105.
Definition FrameWorkflowStepEvent : Z := 0x0106.
Definition FrameWorkflowComplete : Z := 0x0107.
Definition FrameWorkflowError : Z := 0x0108.

Definition IsWorkflowFrame (ft : Z) : bool := (FrameWorkflowSubmitReq <=? ft) && (ft <=? FrameWorkflowError).

Definition IsWorkflowRequest (ft : Z) : bool := existsb (Z.eqb ft)
  [FrameWorkflowSubmitReq; FrameWorkflowStatusReq; FrameWorkflowCancelReq].

Definition workflowFrameHasCorr (ft : Z) : bool := negb (ft =? FrameWorkflowStepEvent) && negb (ft =? FrameWorkflowComplete).

(** ** Knowledge *)

Definition FrameKnowledgeQueryReq : Z := 0x0100.
Definition FrameKnowledgeQueryResult : Z := 0x0101.
Definition FrameKnowledgeQueryStreamData : Z := 0x0102.
Definition FrameKnowledgeQueryStreamEnd : Z := 0x0103.
Definition FrameKnowledgeSubscribeReq : Z := 0x0104.
Definition FrameKnowledgeSubscribeAck : Z := 0x0105.
Definition FrameKnowledgeUpdate : Z := 0x0106.
Definition FrameKnowledgeCredit : Z := 0x0107.
Definition FrameKnowledgeUnsubscribe : Z := 0x0108.
Definition FrameKnowledgeError : Z := 0x0109.

Definition IsKnowledgeFrame (ft : Z) : bool := (FrameKnowledgeQueryReq <=? ft) && (ft <=? FrameKnowledgeError).

Definition IsKnowledgeRequest (ft : Z) : bool := existsb (Z.eqb ft)
  [FrameKnowledgeQueryReq; FrameKnowledgeSubscribeReq].

