(* ===== verification/Bodies.v ===== *)
(** * Operation bodies of the companion channels (the _bodies.go and _api.go files)

    A body is a deterministic-CBOR map.  Each channel has a table of field schemas by
    frame type and a validator: the payload decodes to a map, key 0 repeats the frame
    type, key 1 is the correlation value of the channel, the fields of the schema are
    present and typed, no key is negative or not an integer, and, for some frames,
    nested rules hold.  Every failure is the one sentinel of the channel. *)

From S2P Require Import Prelude Errors Cbor ChannelFrames.
From Stdlib Require Import Strings.Byte.
From stdpp Require Import gmap.
Open Scope Z_scope.

(** ** Fields (memory_bodies.go) *)

Inductive cborKind : Type := kUint | kText | kBytes | kArray | kMap | kBool.

Record memField : Type := mkField {
  f_key : Z;
  f_kind : cborKind;
  f_required : bool
}.

Definition matchesKind (v : value) (k : cborKind) : bool :=
  match k, v with
  | kUint, VUint _ => true
  | kText, VText _ => true
  | kBytes, VBytes _ => true
  | kArray, VArray _ => true
  | kMap, VMap _ => true
  | kBool, VBool _ => true
  | _, _ => false
  end.

(** One pass over the schema, with the test of a field as an argument ([matchesKind]
    or the predicate of a telemetry field). *)
Section fields.
Context {F : Type} (key : F -> Z) (required : F -> bool) (typed : F -> value -> bool) (malformed : error).

Fixpoint check_schema (m : list cborEntry) (schema : list F) : result error unit :=
  match schema with
  | [] => Ok tt
  | f :: schema =>
      match cborMap_get m (key f) with
      | None => check (required f) malformed
      | Some v => check (negb (typed f v)) malformed
      end;;
      check_schema m schema
  end.
End fields.

(** The forward-compatibility rule on one key. *)
Definition key_accepted (k : value) : bool :=
  match k with
  | VUint _ => true
  | VInt n => negb (n <? 0)
  | _ => false
  end.

Fixpoint check_keys (malformed : error) (keys : list value) : result error unit :=
  match keys with
  | [] => Ok tt
  | k :: keys => check (negb (key_accepted k)) malformed;; check_keys malformed keys
  end.

(** The set [known] the source builds is never read. *)
Definition checkFields (m : list cborEntry) (schema : list memField) : result error unit :=
  check_schema f_key f_required (fun f v => matchesKind v (f_kind f)) ErrMemoryMalformed m schema;;
  check_keys ErrMemoryMalformed (cborMap_keys m).

(** [schema, known := schemas[ft]] *)
Fixpoint schema_of {F} (schemas : list (Z * list F)) (ft : Z) : option (list F) :=
  match schemas with
  | [] => None
  | (t, s) :: schemas => if ft =? t then Some s else schema_of schemas ft
  end.

(** ** The common envelope *)

(** Every validator starts with these steps, under its own sentinel. *)
Definition payload_map (malformed : error) (payload : bytes) : result error (list cborEntry) :=
  match cborDecodeTop payload with
  | Ok (VMap m) => Ok m
  | _ => Err malformed
  end.

Definition check_frame_kind (malformed : error) (ft : Z) (m : list cborEntry) : result error unit :=
  match cborMap_get m 0 with
  | Some (VUint fkv) => check (negb (fkv =? ft)) malformed
  | _ => Err malformed
  end.

Definition check_corr_value (malformed : error) (corr : value) : result error unit :=
  match corr with
  | VBytes cb => check ((blen cb <? 1) || (64 <? blen cb)) malformed
  | _ => Err malformed
  end.

Definition check_corr (malformed : error) (m : list cborEntry) : result error unit :=
  match cborMap_get m 1 with
  | Some corr => check_corr_value malformed corr
  | None => Err malformed
  end.

Definition schema_for {F} (malformed : error) (schemas : list (Z * list F)) (ft : Z) : result error (list F) :=
  match schema_of schemas ft with Some s => Ok s | None => Err malformed end.

(** [checkFields] with its error wrapped by the channel. *)
Definition check_fields (malformed : error) (m : list cborEntry) (schema : list memField) : result error unit :=
  map_err (fun _ => malformed) (checkFields m schema).

(** ** Memory *)

Definition memorySchemas : list (Z * list memField) :=
  [ (FrameMemoryCreateReq, [mkField 2 kText true; mkField 3 kText false; mkField 4 kText false;
      mkField 5 kText false; mkField 6 kText false; mkField 7 kText false; mkField 8 kText false;
      mkField 9 kText false; mkField 10 kMap false; mkField 11 kUint true]);
    (FrameMemoryCreateResult, [mkField 2 kText true; mkField 3 kText true]);
    (FrameMemoryReadReq, [mkField 2 kText true; mkField 3 kUint true]);
    (FrameMemoryReadResult, [mkField 2 kMap true]);
    (FrameMemoryUpdateReq, [mkField 2 kText true; mkField 3 kText false; mkField 4 kText false;
      mkField 5 kText false; mkField 6 kText false; mkField 7 kText false; mkField 8 kText false;
      mkField 9 kMap false; mkField 10 kUint true]);
    (FrameMemoryUpdateResult, [mkField 2 kText true; mkField 3 kText true]);
    (FrameMemoryDeleteReq, [mkField 2 kText true; mkField 3 kUint true]);
    (FrameMemoryDeleteResult, [mkField 2 kText true; mkField 3 kText true]);
    (FrameMemoryRetrieveReq, [mkField 2 kText false; mkField 3 kText false; mkField 4 kText false;
      mkField 5 kText false; mkField 6 kText false; mkField 7 kUint false; mkField 8 kText false;
      mkField 9 kBytes false; mkField 10 kUint true]);
    (FrameMemoryRetrieveResult, [mkField 2 kArray true; mkField 3 kBool true; mkField 4 kBytes false;
      mkField 5 kUint false; mkField 6 kBool false]);
    (FrameMemoryRetrieveStreamData, [mkField 2 kArray true]);
    (FrameMemoryRetrieveStreamEnd, [mkField 2 kArray false; mkField 3 kBool true]);
    (FrameMemoryStatusReq, []);
    (FrameMemoryStatusResult, [mkField 2 kText true; mkField 3 kText false; mkField 4 kUint false;
      mkField 5 kMap false]);
    (FrameMemoryError, [mkField 2 kUint true; mkField 3 kText true; mkField 4 kUint false;
      mkField 5 kText false]);
    (FrameMemoryEvict, [mkField 2 kText true; mkField 3 kText false; mkField 4 kUint true]);
    (FrameMemoryRevive, [mkField 2 kText true; mkField 3 kUint true]) ].

Definition ValidateMemoryPayload (ft : Z) (payload : bytes) : result error (list cborEntry) :=
  schema ← schema_for ErrMemoryMalformed memorySchemas ft;
  m ← payload_map ErrMemoryMalformed payload;
  check_frame_kind ErrMemoryMalformed ft m;;
  check_corr ErrMemoryMalformed m;;
  checkFields m schema;;
  Ok m.

Definition memoryRecordSchema : list memField :=
  [mkField 0 kText true; mkField 1 kText true; mkField 2 kText false; mkField 3 kText false;
      mkField 4 kText false; mkField 5 kText false; mkField 6 kText false; mkField 7 kText false;
      mkField 8 kText false; mkField 9 kText false; mkField 10 kText false; mkField 11 kText false;
      mkField 12 kText false; mkField 13 kText false; mkField 14 kText false].

(** [rec] is [None] for a nil map. *)
Definition ValidateMemoryRecord (rec : option (list cborEntry)) : result error unit :=
  match rec with
  | None => Err ErrMemoryMalformed
  | Some rec => checkFields rec memoryRecordSchema
  end.

(** ** Stream *)

Definition streamSchemas : list (Z * list memField) :=
  [ (FrameStreamOpen, [mkField 2 kUint true; mkField 3 kUint true; mkField 4 kText false;
      mkField 5 kUint false]);
    (FrameStreamData, [mkField 2 kUint true; mkField 3 kBytes true; mkField 4 kUint false]);
    (FrameStreamClose, [mkField 2 kUint true]);
    (FrameStreamReset, [mkField 2 kUint true; mkField 3 kUint true]);
    (FrameStreamWindowUpdate, [mkField 2 kUint true]) ].

Definition ValidateStreamPayload (ft : Z) (payload : bytes) : result error (list cborEntry) :=
  schema ← schema_for ErrStreamMalformed streamSchemas ft;
  m ← payload_map ErrStreamMalformed payload;
  check_frame_kind ErrStreamMalformed ft m;;
  match cborMap_get m 1 with
  | Some (VUint _) => Ok tt
  | _ => Err ErrStreamMalformed
  end;;
  check_fields ErrStreamMalformed m schema;;
  Ok m.

(** ** Capability *)

Definition capabilitySchemas : list (Z * list memField) :=
  [ (FrameCapIssueReq, [mkField 2 kText true; mkField 3 kText true; mkField 4 kMap false;
      mkField 5 kText false; mkField 6 kText false; mkField 7 kUint false; mkField 8 kText false;
      mkField 9 kUint true]);
    (FrameCapIssueResult, [mkField 2 kMap true; mkField 3 kText true]);
    (FrameCapDelegateReq, [mkField 2 kText true; mkField 3 kText true; mkField 4 kMap false;
      mkField 5 kText false; mkField 6 kUint false; mkField 7 kUint true]);
    (FrameCapDelegateResult, [mkField 2 kMap true; mkField 3 kText true]);
    (FrameCapRevokeReq, [mkField 2 kText true; mkField 3 kBool false; mkField 4 kText false;
      mkField 5 kUint true]);
    (FrameCapRevokeResult, [mkField 2 kText true; mkField 3 kText true; mkField 4 kUint false]);
    (FrameCapLookupReq, [mkField 2 kText false; mkField 3 kText false; mkField 4 kText false;
      mkField 5 kBool false; mkField 6 kUint false; mkField 7 kBytes false; mkField 8 kUint true]);
    (FrameCapLookupResult, [mkField 2 kArray true; mkField 3 kBool true; mkField 4 kBytes false]);
    (FrameCapError, [mkField 2 kUint true; mkField 3 kText true; mkField 4 kUint false;
      mkField 5 kText false]);
    (FrameCapTokenPresent, [mkField 2 kMap true; mkField 3 kArray false; mkField 4 kUint true]);
    (FrameCapTokenAccept, [mkField 2 kText true; mkField 3 kText true]);
    (FrameCapTokenChallenge, [mkField 2 kText true; mkField 3 kBytes true; mkField 4 kUint true]);
    (FrameCapTokenProof, [mkField 2 kText true; mkField 3 kBytes true]) ].

Definition ValidateCapabilityPayload (ft : Z) (payload : bytes) : result error (list cborEntry) :=
  schema ← schema_for ErrCapMalformed capabilitySchemas ft;
  m ← payload_map ErrCapMalformed payload;
  check_frame_kind ErrCapMalformed ft m;;
  check_corr ErrCapMalformed m;;
  check_fields ErrCapMalformed m schema;;
  Ok m.

Definition capabilityTokenSchema : list memField :=
  [mkField 0 kText true; mkField 1 kText true; mkField 2 kText true; mkField 3 kText true;
      mkField 4 kMap false; mkField 5 kText false; mkField 6 kText false; mkField 7 kText false;
      mkField 8 kUint false; mkField 9 kUint false; mkField 10 kText false; mkField 11 kText false;
      mkField 12 kText false; mkField 13 kText false].

Definition ValidateCapabilityToken (tok : option (list cborEntry)) : result error unit :=
  match tok with
  | None => Err ErrCapMalformed
  | Some tok => check_fields ErrCapMalformed tok capabilityTokenSchema
  end.

(** ** Settlement *)

Definition settlementSchemas : list (Z * list memField) :=
  [ (FrameSettleIntentReq, [mkField 2 kText true; mkField 3 kText false; mkField 4 kText false;
      mkField 5 kText false; mkField 6 kText false; mkField 7 kText false; mkField 8 kUint true]);
    (FrameSettleIntentResult, [mkField 2 kText true; mkField 3 kText true; mkField 4 kText false]);
    (FrameReceiptReq, [mkField 2 kText true; mkField 3 kText false; mkField 4 kUint true]);
    (FrameReceiptResult, [mkField 2 kMap true]);
    (FrameSettleError, [mkField 2 kUint true; mkField 3 kText true; mkField 4 kUint false;
      mkField 5 kText false]);
    (FrameSettleBatchCommitReq, [mkField 2 kText true; mkField 3 kBytes true; mkField 4 kText false;
      mkField 5 kUint false; mkField 6 kText false; mkField 7 kUint true]);
    (FrameSettleBatchCommitResult, [mkField 2 kText true; mkField 3 kText true; mkField 4 kText false]) ].

Definition ValidateSettlementPayload (ft : Z) (payload : bytes) : result error (list cborEntry) :=
  schema ← schema_for ErrSettlementMalformed settlementSchemas ft;
  m ← payload_map ErrSettlementMalformed payload;
  check_frame_kind ErrSettlementMalformed ft m;;
  check_corr ErrSettlementMalformed m;;
  check_fields ErrSettlementMalformed m schema;;
  Ok m.

Definition settlementReceiptSchema : list memField :=
  [mkField 0 kText true; mkField 1 kText true; mkField 2 kText false; mkField 3 kText false;
      mkField 4 kText false; mkField 5 kText true; mkField 6 kText false; mkField 7 kText false;
      mkField 8 kText false; mkField 9 kText false; mkField 10 kText false].

Definition ValidateSettlementReceipt (rec : option (list cborEntry)) : result error unit :=
  match rec with
  | None => Err ErrSettlementMalformed
  | Some rec => check_fields ErrSettlementMalformed rec settlementReceiptSchema
  end.

(** ** Interaction *)

Definition interactionSchemas : list (Z * list memField) :=
  [ (FrameInteractEvent, [mkField 2 kUint true; mkField 3 kText false; mkField 4 kMap false;
      mkField 5 kBool false]);
    (FrameInteractEventAck, []);
    (FrameInteractPromptReq, [mkField 2 kUint true; mkField 3 kText true; mkField 4 kArray false;
      mkField 5 kMap false; mkField 6 kUint false]);
    (FrameInteractPromptResult, [mkField 2 kUint true]);
    (FrameInteractApprovalReq, [mkField 2 kText true; mkField 3 kUint false; mkField 4 kMap false;
      mkField 5 kUint false]);
    (FrameInteractApprovalResult, [mkField 2 kUint true; mkField 3 kText false]);
    (FrameInteractCancel, [mkField 2 kUint false]);
    (FrameInteractError, [mkField 2 kUint true; mkField 3 kText true; mkField 4 kUint false;
      mkField 5 kText false]) ].

Definition ValidateInteractionPayload (ft : Z) (payload : bytes) : result error (list cborEntry) :=
  schema ← schema_for ErrInteractionMalformed interactionSchemas ft;
  m ← payload_map ErrInteractionMalformed payload;
  check_frame_kind ErrInteractionMalformed ft m;;
  check_corr ErrInteractionMalformed m;;
  check_fields ErrInteractionMalformed m schema;;
  Ok m.

(** ** Knowledge *)

Definition knowledgeSchemas : list (Z * list memField) :=
  [ (FrameKnowledgeQueryReq, [mkField 2 kText false; mkField 3 kText false; mkField 4 kText false;
      mkField 5 kText false; mkField 6 kUint false; mkField 8 kText false; mkField 9 kBytes false]);
    (FrameKnowledgeQueryResult, [mkField 2 kArray true; mkField 3 kBool true; mkField 4 kBytes false;
      mkField 5 kUint false; mkField 6 kBool false]);
    (FrameKnowledgeQueryStreamData, [mkField 2 kArray true]);
    (FrameKnowledgeQueryStreamEnd, [mkField 2 kArray false; mkField 3 kBool true]);
    (FrameKnowledgeSubscribeReq, [mkField 2 kText false; mkField 3 kText false; mkField 4 kText false;
      mkField 5 kText false; mkField 7 kText false; mkField 8 kBool false; mkField 9 kUint true]);
    (FrameKnowledgeSubscribeAck, [mkField 2 kBytes true; mkField 3 kUint true; mkField 4 kBool false]);
    (FrameKnowledgeUpdate, [mkField 2 kBytes true; mkField 3 kUint true; mkField 4 kArray false;
      mkField 5 kArray false]);
    (FrameKnowledgeCredit, [mkField 2 kBytes true; mkField 3 kUint true; mkField 4 kUint false]);
    (FrameKnowledgeUnsubscribe, [mkField 2 kBytes true]);
    (FrameKnowledgeError, [mkField 2 kUint true; mkField 3 kText true; mkField 4 kUint false;
      mkField 5 kBytes false]) ].

Definition ValidateKnowledgePayload (ft : Z) (payload : bytes) : result error (list cborEntry) :=
  schema ← schema_for ErrKnowledgeMalformed knowledgeSchemas ft;
  m ← payload_map ErrKnowledgeMalformed payload;
  check_frame_kind ErrKnowledgeMalformed ft m;;
  check_corr ErrKnowledgeMalformed m;;
  check_fields ErrKnowledgeMalformed m schema;;
  check ((ft =? FrameKnowledgeUpdate) &&
    match cborMap_get m 4, cborMap_get m 5 with None, None => true | _, _ => false end) ErrKnowledgeMalformed;;
  Ok m.

(** ** Workflow *)

Definition workflowSchemas : list (Z * list memField) :=
  [ (FrameWorkflowSubmitReq, [mkField 2 kText true; mkField 3 kBytes false; mkField 4 kMap false;
      mkField 5 kUint false; mkField 6 kText false; mkField 7 kText false; mkField 8 kText false;
      mkField 9 kText false; mkField 10 kMap false; mkField 11 kUint true]);
    (FrameWorkflowSubmitResult, [mkField 2 kText true; mkField 3 kUint true]);
    (FrameWorkflowStatusReq, [mkField 2 kText true]);
    (FrameWorkflowStatusResult, [mkField 2 kText true; mkField 3 kUint true; mkField 4 kUint false;
      mkField 5 kText false; mkField 6 kUint false; mkField 7 kText false]);
    (FrameWorkflowCancelReq, [mkField 2 kText true; mkField 3 kText false]);
    (FrameWorkflowCancelResult, [mkField 2 kText true; mkField 3 kUint true]);
    (FrameWorkflowStepEvent, [mkField 2 kText true; mkField 3 kUint true; mkField 4 kUint true;
      mkField 5 kUint false; mkField 6 kText false; mkField 7 kUint false; mkField 8 kBytes false;
      mkField 9 kText false]);
    (FrameWorkflowComplete, [mkField 2 kText true; mkField 3 kUint true; mkField 4 kUint true;
      mkField 5 kBytes false; mkField 6 kUint false; mkField 7 kText false]);
    (FrameWorkflowError, [mkField 2 kUint true; mkField 3 kText true; mkField 4 kUint false;
      mkField 5 kText false]) ].

Definition ValidateWorkflowPayload (ft : Z) (payload : bytes) : result error (list cborEntry) :=
  schema ← schema_for ErrWorkflowMalformed workflowSchemas ft;
  m ← payload_map ErrWorkflowMalformed payload;
  check_frame_kind ErrWorkflowMalformed ft m;;
  (if workflowFrameHasCorr ft then check_corr ErrWorkflowMalformed m else Ok tt);;
  check_fields ErrWorkflowMalformed m schema;;
  Ok m.

(** ** Immune *)

Definition immuneSchemas : list (Z * list memField) :=
  [ (FrameImmuneReportReq, [mkField 2 kText true; mkField 3 kUint true; mkField 4 kUint true;
      mkField 5 kText false; mkField 6 kText false; mkField 7 kText false; mkField 8 kBytes false;
      mkField 9 kUint false; mkField 10 kText false]);
    (FrameImmuneReportResult, [mkField 2 kUint true; mkField 3 kText false]);
    (FrameImmuneError, [mkField 2 kUint true; mkField 3 kText true; mkField 4 kUint false]);
    (FrameImmuneGossipAdvertise, [mkField 2 kArray true; mkField 3 kBool false]);
    (FrameImmuneGossipAck, [mkField 2 kArray false; mkField 3 kArray false; mkField 4 kUint false]);
    (FrameImmuneGossipPullReq, [mkField 2 kArray true]);
    (FrameImmuneGossipPullResult, [mkField 2 kArray true]);
    (FrameImmuneGossipRetract, [mkField 2 kBytes true; mkField 3 kUint true; mkField 4 kUint false]) ].

Definition gossipDescriptorSchema : list memField :=
  [mkField 0 kBytes true; mkField 1 kUint true; mkField 2 kUint false; mkField 3 kUint false;
      mkField 4 kBytes false; mkField 5 kText false; mkField 6 kText false; mkField 7 kUint false;
      mkField 8 kBytes false; mkField 9 kBytes false].

Definition gossipItemSchema : list memField :=
  [mkField 0 kBytes true; mkField 1 kUint true; mkField 2 kUint false; mkField 3 kUint false;
      mkField 4 kBytes false; mkField 5 kText false; mkField 6 kText false; mkField 7 kUint false;
      mkField 8 kBytes true].

(** Stops at the first element that fails. *)
Fixpoint for_each {A} (f : A -> result error unit) (l : list A) : result error unit :=
  match l with
  | [] => Ok tt
  | x :: l => f x;; for_each f l
  end.

Definition validateGossipArray (m : list cborEntry) (nested : list memField) : result error unit :=
  match cborMap_get m 2 with
  | Some (VArray arr) =>
      for_each (fun el =>
        match el with
        | VMap em => check_fields ErrImmuneMalformed em nested
        | _ => Err ErrImmuneMalformed
        end) arr
  | _ => Err ErrImmuneMalformed
  end.

Definition ValidateImmunePayload (ft : Z) (payload : bytes) : result error (list cborEntry) :=
  schema ← schema_for ErrImmuneMalformed immuneSchemas ft;
  m ← payload_map ErrImmuneMalformed payload;
  check_frame_kind ErrImmuneMalformed ft m;;
  check_corr ErrImmuneMalformed m;;
  check_fields ErrImmuneMalformed m schema;;
  (if ft =? FrameImmuneGossipAdvertise then validateGossipArray m gossipDescriptorSchema
   else if ft =? FrameImmuneGossipPullResult then validateGossipArray m gossipItemSchema
   else Ok tt);;
  Ok m.

(** ** Commerce *)

Definition commerceSchemas : list (Z * list memField) :=
  [ (FrameCommerceMandateCreateReq, [mkField 2 kText true; mkField 3 kText true; mkField 4 kMap true;
      mkField 5 kText false; mkField 6 kText false; mkField 7 kText false; mkField 8 kMap false;
      mkField 9 kText false; mkField 10 kBytes false; mkField 11 kText false; mkField 12 kText false;
      mkField 13 kUint true]);
    (FrameCommerceMandateCreateResult, [mkField 2 kText true; mkField 3 kText true]);
    (FrameCommerceMandateReadReq, [mkField 2 kText true; mkField 3 kUint true]);
    (FrameCommerceMandateReadResult, [mkField 2 kMap true]);
    (FrameCommerceMandateRevokeReq, [mkField 2 kText true; mkField 3 kText false; mkField 4 kUint true]);
    (FrameCommerceMandateRevokeResult, [mkField 2 kText true; mkField 3 kText true]);
    (FrameCommerceMandateStatusReq, [mkField 2 kText true; mkField 3 kUint true]);
    (FrameCommerceMandateStatusResult, [mkField 2 kText true; mkField 3 kText true; mkField 4 kText false]);
    (FrameCommerceIntentProposeReq, [mkField 2 kArray true; mkField 3 kArray true;
      mkField 4 kText false; mkField 5 kMap false; mkField 6 kText false; mkField 7 kUint true]);
    (FrameCommerceIntentProposeResult, [mkField 2 kText true; mkField 3 kText true]);
    (FrameCommerceIntentRespondReq, [mkField 2 kText true; mkField 3 kUint true; mkField 4 kArray false;
      mkField 5 kText false; mkField 6 kUint true]);
    (FrameCommerceIntentRespondResult, [mkField 2 kText true; mkField 3 kText true]);
    (FrameCommerceIntentStatusReq, [mkField 2 kText true; mkField 3 kUint true]);
    (FrameCommerceIntentStatusResult, [mkField 2 kText true; mkField 3 kText true;
      mkField 4 kArray false; mkField 5 kArray false]);
    (FrameCommerceError, [mkField 2 kUint true; mkField 3 kText true; mkField 4 kUint false;
      mkField 5 kText false]) ].

Definition commerceForwardCompatKeys (m : list cborEntry) : result error unit :=
  check_keys ErrCommerceMalformed (cborMap_keys m).

Definition validateCommerceAmount (v : value) : result error unit :=
  match v with
  | VMap m =>
      match cborMap_get m 0 with
      | Some (VUint _) | Some (VInt _) => Ok tt
      | _ => Err ErrCommerceMalformed
      end;;
      match cborMap_get m 1 with Some (VUint _) => Ok tt | _ => Err ErrCommerceMalformed end;;
      match cborMap_get m 2 with Some (VText _) => Ok tt | _ => Err ErrCommerceMalformed end;;
      commerceForwardCompatKeys m
  | _ => Err ErrCommerceMalformed
  end.

(** The text of field [k] of a leg. *)
Definition leg_party (m : list cborEntry) (k : Z) : result error bytes :=
  match cborMap_get m k with Some (VText s) => Ok s | _ => Err ErrCommerceMalformed end.

Definition validateCommerceLeg (parties : list bytes) (v : value) : result error unit :=
  match v with
  | VMap m =>
      frmS ← leg_party m 0;
      toS ← leg_party m 1;
      match cborMap_get m 2 with
      | Some amt => validateCommerceAmount amt
      | None => Err ErrCommerceMalformed
      end;;
      check (negb (bool_decide (frmS ∈ parties))) ErrCommerceMalformed;;
      check (negb (bool_decide (toS ∈ parties))) ErrCommerceMalformed;;
      commerceForwardCompatKeys m
  | _ => Err ErrCommerceMalformed
  end.

(** [lv.([]any)] with the failure ignored: a nil slice. *)
Definition as_array (v : option value) : list value :=
  match v with Some (VArray l) => l | _ => [] end.

(** The Go set of parties as the list of its members. *)
Fixpoint party_names (arr : list value) : result error (list bytes) :=
  match arr with
  | [] => Ok []
  | VText s :: arr => names ← party_names arr; Ok (s :: names)
  | _ => Err ErrCommerceMalformed
  end.

Definition commerceParties (m : list cborEntry) : result error (list bytes) :=
  party_names (as_array (cborMap_get m 2)).

Definition validateCommerceNested (ft : Z) (m : list cborEntry) : result error unit :=
  if ft =? FrameCommerceMandateCreateReq then
    match cborMap_get m 4 with
    | Some av => validateCommerceAmount av
    | None => Ok tt
    end
  else if ft =? FrameCommerceIntentProposeReq then
    parties ← commerceParties m;
    for_each (validateCommerceLeg parties) (as_array (cborMap_get m 3))
  else Ok tt.

Definition ValidateCommercePayload (ft : Z) (payload : bytes) : result error (list cborEntry) :=
  schema ← schema_for ErrCommerceMalformed commerceSchemas ft;
  m ← payload_map ErrCommerceMalformed payload;
  check_frame_kind ErrCommerceMalformed ft m;;
  check_corr ErrCommerceMalformed m;;
  check_fields ErrCommerceMalformed m schema;;
  validateCommerceNested ft m;;
  Ok m.

(** ** Telemetry *)

Record telField : Type := mkTel {
  t_key : Z;
  t_ok : value -> bool;
  t_required : bool
}.

Definition telIsUint (v : value) : bool := match v with VUint _ => true | _ => false end.
Definition telIsText (v : value) : bool := match v with VText _ => true | _ => false end.
Definition telIsBytes (v : value) : bool := match v with VBytes _ => true | _ => false end.
Definition telIsArray (v : value) : bool := match v with VArray _ => true | _ => false end.
Definition telIsMap (v : value) : bool := match v with VMap _ => true | _ => false end.
Definition telIsNumber (v : value) : bool := match v with VUint _ | VInt _ => true | _ => false end.

Definition telemetrySchemas : list (Z * list telField) :=
  [ (FrameTelemetrySubscribe, [mkTel 2 telIsArray false; mkTel 3 telIsArray false;
      mkTel 4 telIsArray false; mkTel 5 telIsUint false; mkTel 6 telIsUint false; mkTel 7 telIsUint true]);
    (FrameTelemetrySubAck, [mkTel 2 telIsBytes true; mkTel 3 telIsUint true; mkTel 4 telIsArray false]);
    (FrameTelemetryUnsubscribe, [mkTel 2 telIsBytes true]);
    (FrameTelemetryCredit, [mkTel 2 telIsBytes true; mkTel 3 telIsUint true; mkTel 4 telIsUint false]);
    (FrameTelemetryError, [mkTel 2 telIsUint true; mkTel 3 telIsText false; mkTel 4 telIsBytes false]) ].

Definition metricSchema : list telField :=
  [mkTel 0 telIsText true; mkTel 1 telIsUint true; mkTel 2 telIsUint true; mkTel 3 telIsNumber true;
      mkTel 4 telIsText false; mkTel 5 telIsMap false; mkTel 6 telIsUint false].

Definition eventSchema : list telField :=
  [mkTel 0 telIsText true; mkTel 1 telIsUint true; mkTel 2 telIsUint false; mkTel 3 telIsMap false;
      mkTel 4 telIsText false; mkTel 5 telIsUint false].

Definition healthSchema : list telField :=
  [mkTel 0 telIsText true; mkTel 1 telIsUint true; mkTel 2 telIsUint true; mkTel 3 telIsText false;
      mkTel 4 telIsMap false].

Definition telemetryForwardCompat (m : list cborEntry) : result error unit :=
  check_keys ErrTelemetryMalformed (cborMap_keys m).

Definition checkTelemetryFields (m : list cborEntry) (schema : list telField) : result error unit :=
  check_schema t_key t_required t_ok ErrTelemetryMalformed m schema;;
  telemetryForwardCompat m.

Definition checkTelemetryCorr (m : list cborEntry) (required : bool) : result error unit :=
  match cborMap_get m 1 with
  | None => check required ErrTelemetryMalformed
  | Some corr => check_corr_value ErrTelemetryMalformed corr
  end.

(** One content array of a report: how many non-empty arrays it adds to the count. *)
Definition telemetry_content (m : list cborEntry) (key : Z) (schema : list telField) : result error Z :=
  match cborMap_get m key with
  | None => Ok 0
  | Some (VArray arr) =>
      for_each (fun el =>
        match el with
        | VMap em => checkTelemetryFields em schema
        | _ => Err ErrTelemetryMalformed
        end) arr;;
      Ok (if 0 <? blen arr then 1 else 0)
  | Some _ => Err ErrTelemetryMalformed
  end.

Definition validateTelemetryReport (m : list cborEntry) : result error (list cborEntry) :=
  match cborMap_get m 1, cborMap_get m 2 with
  | Some corr, sub =>
      check_corr_value ErrTelemetryMalformed corr;;
      match sub with
      | None => Err ErrTelemetryMalformed
      | Some sub => check (negb (telIsBytes sub)) ErrTelemetryMalformed
      end
  | None, Some _ => Err ErrTelemetryMalformed
  | None, None => Ok tt
  end;;
  match cborMap_get m 3 with
  | None => Err ErrTelemetryMalformed
  | Some bs => check (negb (telIsUint bs)) ErrTelemetryMalformed
  end;;
  metrics ← telemetry_content m 4 metricSchema;
  events ← telemetry_content m 5 eventSchema;
  health ← telemetry_content m 6 healthSchema;
  check (metrics + events + health =? 0) ErrTelemetryMalformed;;
  telemetryForwardCompat m;;
  Ok m.

(** The schema of an unlisted frame type is the nil slice. *)
Definition ValidateTelemetryPayload (ft : Z) (payload : bytes) : result error (list cborEntry) :=
  check (negb (IsTelemetryFrame ft)) ErrTelemetryMalformed;;
  m ← payload_map ErrTelemetryMalformed payload;
  check_frame_kind ErrTelemetryMalformed ft m;;
  if ft =? FrameTelemetryReport then validateTelemetryReport m
  else
    checkTelemetryCorr m true;;
    checkTelemetryFields m (default [] (schema_of telemetrySchemas ft));;
    Ok m.

(** ** The exported codecs (the _api.go files) *)

(** Converting a [*cborMap] keeps the entries with an unsigned key. *)
Fixpoint cborToGo (v : value) : value :=
  match v with
  | VMap es =>
      VGoMap (omap (fun e => match e with
                             | (_, VUint uk, x) => Some (uk, cborToGo x)
                             | _ => None
                             end) es)
  | VArray l => VArray (map cborToGo l)
  | _ => v
  end.

(** The body of every [Decode<Channel>Body]; the second error is unreachable. *)
Definition decode_body (validate : Z -> bytes -> result error (list cborEntry)) (malformed : error)
    (ft : Z) (body : bytes) : result error (list (Z * value)) :=
  m ← validate ft body;
  match cborToGo (VMap m) with
  | VGoMap out => Ok out
  | _ => Err malformed
  end.

(** The body of every [Decode<Channel>Envelope] with a byte-string key 1; the nil slice
    is empty. *)
Definition decode_envelope (validate : Z -> bytes -> result error (list cborEntry))
    (ft : Z) (body : bytes) : result error (Z * bytes) :=
  m ← validate ft body;
  Ok (match cborMap_get m 0 with Some (VUint u) => u | _ => 0 end,
      match cborMap_get m 1 with Some (VBytes b) => b | _ => [] end).

Definition EncodeMemoryBody (fields : list (Z * value)) : bytes := cborEncode (VGoMap fields).
Definition DecodeMemoryBody (ft : Z) (body : bytes) : result error (list (Z * value)) :=
  decode_body ValidateMemoryPayload ErrMemoryMalformed ft body.
Definition DecodeMemoryEnvelope (ft : Z) (body : bytes) : result error (Z * bytes) :=
  decode_envelope ValidateMemoryPayload ft body.

Definition EncodeCapabilityBody (fields : list (Z * value)) : bytes := cborEncode (VGoMap fields).
Definition DecodeCapabilityBody (ft : Z) (body : bytes) : result error (list (Z * value)) :=
  decode_body ValidateCapabilityPayload ErrCapMalformed ft body.
Definition DecodeCapabilityEnvelope (ft : Z) (body : bytes) : result error (Z * bytes) :=
  decode_envelope ValidateCapabilityPayload ft body.

Definition EncodeSettlementBody (fields : list (Z * value)) : bytes := cborEncode (VGoMap fields).
Definition DecodeSettlementBody (ft : Z) (body : bytes) : result error (list (Z * value)) :=
  decode_body ValidateSettlementPayload ErrSettlementMalformed ft body.
Definition DecodeSettlementEnvelope (ft : Z) (body : bytes) : result error (Z * bytes) :=
  decode_envelope ValidateSettlementPayload ft body.

Definition EncodeInteractionBody (fields : list (Z * value)) : bytes := cborEncode (VGoMap fields).
Definition DecodeInteractionBody (ft : Z) (body : bytes) : result error (list (Z * value)) :=
  decode_body ValidateInteractionPayload ErrInteractionMalformed ft body.
Definition DecodeInteractionEnvelope (ft : Z) (body : bytes) : result error (Z * bytes) :=
  decode_envelope ValidateInteractionPayload ft body.

Definition EncodeKnowledgeBody (fields : list (Z * value)) : bytes := cborEncode (VGoMap fields).
Definition DecodeKnowledgeBody (ft : Z) (body : bytes) : result error (list (Z * value)) :=
  decode_body ValidateKnowledgePayload ErrKnowledgeMalformed ft body.
Definition DecodeKnowledgeEnvelope (ft : Z) (body : bytes) : result error (Z * bytes) :=
  decode_envelope ValidateKnowledgePayload ft body.

Definition EncodeWorkflowBody (fields : list (Z * value)) : bytes := cborEncode (VGoMap fields).
Definition DecodeWorkflowBody (ft : Z) (body : bytes) : result error (list (Z * value)) :=
  decode_body ValidateWorkflowPayload ErrWorkflowMalformed ft body.
Definition DecodeWorkflowEnvelope (ft : Z) (body : bytes) : result error (Z * bytes) :=
  decode_envelope ValidateWorkflowPayload ft body.

Definition EncodeImmuneBody (fields : list (Z * value)) : bytes := cborEncode (VGoMap fields).
Definition DecodeImmuneBody (ft : Z) (body : bytes) : result error (list (Z * value)) :=
  decode_body ValidateImmunePayload ErrImmuneMalformed ft body.
Definition DecodeImmuneEnvelope (ft : Z) (body : bytes) : result error (Z * bytes) :=
  decode_envelope ValidateImmunePayload ft body.

Definition EncodeCommerceBody (fields : list (Z * value)) : bytes := cborEncode (VGoMap fields).
Definition DecodeCommerceBody (ft : Z) (body : bytes) : result error (list (Z * value)) :=
  decode_body ValidateCommercePayload ErrCommerceMalformed ft body.
Definition DecodeCommerceEnvelope (ft : Z) (body : bytes) : result error (Z * bytes) :=
  decode_envelope ValidateCommercePayload ft body.

Definition EncodeTelemetryBody (fields : list (Z * value)) : bytes := cborEncode (VGoMap fields).
Definition DecodeTelemetryBody (ft : Z) (body : bytes) : result error (list (Z * value)) :=
  decode_body ValidateTelemetryPayload ErrTelemetryMalformed ft body.
Definition DecodeTelemetryEnvelope (ft : Z) (body : bytes) : result error (Z * bytes) :=
  decode_envelope ValidateTelemetryPayload ft body.

Definition EncodeStreamBody (fields : list (Z * value)) : bytes := cborEncode (VGoMap fields).
Definition DecodeStreamEnvelope (ft : Z) (body : bytes) : result error (Z * Z) :=
  m ← ValidateStreamPayload ft body;
  Ok (match cborMap_get m 0 with Some (VUint u) => u | _ => 0 end,
      match cborMap_get m 1 with Some (VUint u) => u | _ => 0 end).
