(* ===== verification/BodySpec.v ===== *)
(** * What the body validators accept

    Each channel's acceptance as a predicate on the decoded map, the interface a
    validator meets ([BodyChannel]: it accepts exactly the canonical maps of the
    predicate, and fails with the channel's sentinel only), and the ten instances. *)

From S2P Require Import Prelude Errors Cbor ChannelFrames Bodies.
From Stdlib Require Import Strings.Byte.
From stdpp Require Import gmap.
Open Scope Z_scope.

(** ** Predicates *)

Definition keys_ok (m : list cborEntry) : Prop := Forall (fun k => key_accepted k = true) (cborMap_keys m).

(** A field is present with its type, or absent and optional. *)
Definition field_ok {F} (key : F -> Z) (required : F -> bool) (typed : F -> value -> bool)
    (m : list cborEntry) (f : F) : Prop :=
  match cborMap_get m (key f) with
  | None => required f = false
  | Some v => typed f v = true
  end.

Definition fields_ok (m : list cborEntry) (schema : list memField) : Prop :=
  Forall (field_ok f_key f_required (fun f v => matchesKind v (f_kind f)) m) schema /\ keys_ok m.

Definition tel_fields_ok (m : list cborEntry) (schema : list telField) : Prop :=
  Forall (field_ok t_key t_required t_ok m) schema /\ keys_ok m.

Definition corr_value_ok (v : value) : Prop := exists cb, v = VBytes cb /\ 1 <= blen cb <= 64.

Definition corr_ok (m : list cborEntry) : Prop := exists v, cborMap_get m 1 = Some v /\ corr_value_ok v.

(** The frame type is of the channel, key 0 repeats it, and the fields are well typed. *)
Definition envelope_ok (schemas : list (Z * list memField)) (ft : Z) (m : list cborEntry) : Prop :=
  exists schema, schema_of schemas ft = Some schema /\ cborMap_get m 0 = Some (VUint ft) /\ fields_ok m schema.

(** Every element of an array is a map that satisfies [P]. *)
Definition maps_ok (P : list cborEntry -> Prop) (l : list value) : Prop :=
  Forall (fun v => exists m, v = VMap m /\ P m) l.

Definition gossip_ok (m : list cborEntry) (nested : list memField) : Prop :=
  exists arr, cborMap_get m 2 = Some (VArray arr) /\ maps_ok (fun em => fields_ok em nested) arr.

(** A monetary amount: integer units, unsigned scale, a currency. *)
Definition amount_ok (v : value) : Prop :=
  exists m units scale cur, v = VMap m /\
    cborMap_get m 0 = Some units /\ telIsNumber units = true /\
    cborMap_get m 1 = Some (VUint scale) /\ cborMap_get m 2 = Some (VText cur) /\ keys_ok m.

(** A settlement leg between two named parties. *)
Definition leg_ok (parties : list bytes) (v : value) : Prop :=
  exists m frm to amt, v = VMap m /\
    cborMap_get m 0 = Some (VText frm) /\ cborMap_get m 1 = Some (VText to) /\ cborMap_get m 2 = Some amt /\
    amount_ok amt /\ frm ∈ parties /\ to ∈ parties /\ keys_ok m.

Definition proposal_ok (m : list cborEntry) : Prop :=
  exists parties, as_array (cborMap_get m 2) = VText <$> parties /\
    Forall (leg_ok parties) (as_array (cborMap_get m 3)).

Definition commerce_nested_ok (ft : Z) (m : list cborEntry) : Prop :=
  (ft = FrameCommerceMandateCreateReq -> forall v, cborMap_get m 4 = Some v -> amount_ok v) /\
  (ft = FrameCommerceIntentProposeReq -> proposal_ok m).

(** A content array of a report. *)
Definition content_ok (m : list cborEntry) (key : Z) (schema : list telField) : Prop :=
  cborMap_get m key = None \/
  exists arr, cborMap_get m key = Some (VArray arr) /\ maps_ok (fun em => tel_fields_ok em schema) arr.

Definition content_nonempty (m : list cborEntry) (key : Z) : Prop :=
  exists arr, cborMap_get m key = Some (VArray arr) /\ arr <> [].

(** A report answers a subscription (both [corr] and [sub_id]) or is standalone
    (neither), has a sequence number and some content. *)
Definition report_ok (m : list cborEntry) : Prop :=
  ((exists corr sub, cborMap_get m 1 = Some corr /\ corr_value_ok corr /\ cborMap_get m 2 = Some (VBytes sub)) \/
   (cborMap_get m 1 = None /\ cborMap_get m 2 = None)) /\
  (exists n, cborMap_get m 3 = Some (VUint n)) /\
  content_ok m 4 metricSchema /\ content_ok m 5 eventSchema /\ content_ok m 6 healthSchema /\
  (content_nonempty m 4 \/ content_nonempty m 5 \/ content_nonempty m 6) /\ keys_ok m.

(** ** The channels *)

Inductive companion : Type :=
| StreamC | MemoryC | CapabilityC | ImmuneC | SettlementC | TelemetryC | CommerceC | InteractionC | WorkflowC | KnowledgeC.

Definition Validate (ch : companion) : Z -> bytes -> result error (list cborEntry) :=
  match ch with
  | StreamC => ValidateStreamPayload
  | MemoryC => ValidateMemoryPayload
  | CapabilityC => ValidateCapabilityPayload
  | ImmuneC => ValidateImmunePayload
  | SettlementC => ValidateSettlementPayload
  | TelemetryC => ValidateTelemetryPayload
  | CommerceC => ValidateCommercePayload
  | InteractionC => ValidateInteractionPayload
  | WorkflowC => ValidateWorkflowPayload
  | KnowledgeC => ValidateKnowledgePayload
  end.

Definition malformed_of (ch : companion) : error :=
  match ch with
  | StreamC => ErrStreamMalformed
  | MemoryC => ErrMemoryMalformed
  | CapabilityC => ErrCapMalformed
  | ImmuneC => ErrImmuneMalformed
  | SettlementC => ErrSettlementMalformed
  | TelemetryC => ErrTelemetryMalformed
  | CommerceC => ErrCommerceMalformed
  | InteractionC => ErrInteractionMalformed
  | WorkflowC => ErrWorkflowMalformed
  | KnowledgeC => ErrKnowledgeMalformed
  end.

Definition accepts (ch : companion) (ft : Z) (m : list cborEntry) : Prop :=
  match ch with
  | StreamC => envelope_ok streamSchemas ft m /\ exists n, cborMap_get m 1 = Some (VUint n)
  | MemoryC => envelope_ok memorySchemas ft m /\ corr_ok m
  | CapabilityC => envelope_ok capabilitySchemas ft m /\ corr_ok m
  | SettlementC => envelope_ok settlementSchemas ft m /\ corr_ok m
  | InteractionC => envelope_ok interactionSchemas ft m /\ corr_ok m
  | KnowledgeC => envelope_ok knowledgeSchemas ft m /\ corr_ok m /\
      (ft = FrameKnowledgeUpdate -> cborMap_get m 4 <> None \/ cborMap_get m 5 <> None)
  | WorkflowC => envelope_ok workflowSchemas ft m /\ (workflowFrameHasCorr ft = true -> corr_ok m)
  | ImmuneC => envelope_ok immuneSchemas ft m /\ corr_ok m /\
      (ft = FrameImmuneGossipAdvertise -> gossip_ok m gossipDescriptorSchema) /\
      (ft = FrameImmuneGossipPullResult -> gossip_ok m gossipItemSchema)
  | CommerceC => envelope_ok commerceSchemas ft m /\ corr_ok m /\ commerce_nested_ok ft m
  | TelemetryC => IsTelemetryFrame ft = true /\ cborMap_get m 0 = Some (VUint ft) /\
      if ft =? FrameTelemetryReport then report_ok m
      else corr_ok m /\ tel_fields_ok m (default [] (schema_of telemetrySchemas ft))
  end.

(** ** The interface *)

Class BodyChannel (validate : Z -> bytes -> result error (list cborEntry)) (malformed : error)
    (accepted : Z -> list cborEntry -> Prop) : Prop := {
  bc_iff ft b m : validate ft b = Ok m <-> cborDecodeTop b = Ok (VMap m) /\ accepted ft m;
  bc_error ft b e : validate ft b = Err e -> e = malformed;
  bc_keys ft m : accepted ft m -> keys_ok m
}.

(** ** Steps *)

Create Rewrite HintDb body.

Lemma then_Ok {A} (m : result error unit) (k : result error A) a : (m;; k) = Ok a <-> m = Ok tt /\ k = Ok a.
Proof. rewrite bind_Ok. split; [by intros ([] & ? & ?)|]. intros [-> ->]. by exists tt. Qed.

Lemma check_schema_iff {F} (key : F -> Z) required typed err m schema :
  check_schema key required typed err m schema = Ok tt <-> Forall (field_ok key required typed m) schema.
Proof.
  induction schema as [|f schema IH]; [by split|]. cbn [check_schema]. rewrite then_Ok, IH, Forall_cons.
  unfold field_ok at 2. destruct (cborMap_get m (key f)); rewrite check_Ok; [by rewrite negb_false_iff|done].
Qed.

Lemma check_keys_iff err keys :
  check_keys err keys = Ok tt <-> Forall (fun k => key_accepted k = true) keys.
Proof.
  induction keys as [|k keys IH]; [by split|]. cbn [check_keys].
  by rewrite then_Ok, IH, Forall_cons, check_Ok, negb_false_iff.
Qed.

Lemma checkFields_iff m schema : checkFields m schema = Ok tt <-> fields_ok m schema.
Proof. unfold checkFields. by rewrite then_Ok, check_schema_iff, check_keys_iff. Qed.

Lemma check_fields_iff err m schema : check_fields err m schema = Ok tt <-> fields_ok m schema.
Proof. unfold check_fields. by rewrite map_err_Ok, checkFields_iff. Qed.

Lemma schema_for_iff {F} err (schemas : list (Z * list F)) ft s :
  schema_for err schemas ft = Ok s <-> schema_of schemas ft = Some s.
Proof. unfold schema_for. destruct (schema_of schemas ft); split; congruence. Qed.

Lemma payload_map_iff err b m : payload_map err b = Ok m <-> cborDecodeTop b = Ok (VMap m).
Proof.
  unfold payload_map. destruct (cborDecodeTop b) as [[]|]; split; congruence.
Qed.

Lemma check_frame_kind_iff err ft m : check_frame_kind err ft m = Ok tt <-> cborMap_get m 0 = Some (VUint ft).
Proof.
  unfold check_frame_kind. destruct (cborMap_get m 0) as [[]|]; rewrite ?check_Ok, ?negb_false_iff, ?Z.eqb_eq;
    split; congruence.
Qed.

Lemma check_corr_value_iff err v : check_corr_value err v = Ok tt <-> corr_value_ok v.
Proof.
  unfold check_corr_value, corr_value_ok. destruct v; try (split; [done|by intros (? & ? & _)]).
  rewrite check_Ok, orb_false_iff, !Z.ltb_ge. split; [eauto|]. by intros (cb & [= ->] & ?).
Qed.

Lemma check_corr_iff err m : check_corr err m = Ok tt <-> corr_ok m.
Proof.
  unfold check_corr, corr_ok. destruct (cborMap_get m 1) as [v|]; [rewrite check_corr_value_iff|].
  - split; [eauto|]. by intros (? & [= ->] & ?).
  - split; [done|]. by intros (? & ? & _).
Qed.

Lemma for_each_iff {A} (f : A -> result error unit) (P : A -> Prop) l :
  (forall x, f x = Ok tt <-> P x) -> for_each f l = Ok tt <-> Forall P l.
Proof. intros Hf. induction l as [|x l IH]; [by split|]. cbn [for_each]. by rewrite then_Ok, Hf, IH, Forall_cons. Qed.

Lemma each_map_iff (f : list cborEntry -> result error unit) (P : list cborEntry -> Prop) err l :
  (forall m, f m = Ok tt <-> P m) ->
  for_each (fun el => match el with VMap em => f em | _ => Err err end) l = Ok tt <-> maps_ok P l.
Proof.
  intros Hf. unfold maps_ok. apply for_each_iff. intros v. destruct v; try (split; [done|by intros (? & ? & _)]).
  rewrite Hf. split; [eauto|]. by intros (? & [= ->] & ?).
Qed.

Hint Rewrite @then_Ok @schema_for_iff payload_map_iff check_frame_kind_iff check_corr_iff check_corr_value_iff
  check_fields_iff checkFields_iff @check_Ok : body.

(** ** Errors *)

(** A result that fails with [e] only. *)
Definition errs {A} (e : error) (r : result error A) : Prop := forall e', r = Err e' -> e' = e.

Create HintDb errs.

Lemma errs_Ok {A} e (a : A) : errs e (Ok a).
Proof. by intros e'. Qed.

Lemma errs_Err {A} e : errs (A := A) e (Err e).
Proof. by intros e' [= ->]. Qed.

Lemma errs_bind {A B} e (r : result error A) (f : A -> result error B) :
  errs e r -> (forall a, errs e (f a)) -> errs e (r ≫= f).
Proof. intros Hr Hf. destruct r as [a|e0]; [apply Hf|]. intros e' [= <-]. by apply Hr. Qed.

Lemma errs_check e b : errs e (check b e).
Proof. destruct b; [apply errs_Err|apply errs_Ok]. Qed.

Lemma errs_map_err {A} e (r : result error A) : errs e (map_err (fun _ => e) r).
Proof. destruct r; [apply errs_Ok|apply errs_Err]. Qed.

#[export] Hint Resolve errs_Ok errs_Err errs_check errs_map_err : errs.

(** Walks down a validator. *)
Ltac errs :=
  repeat first
    [ solve [auto with errs]
    | apply errs_bind; [|intros ?]
    | match goal with |- errs _ (match ?x with _ => _ end) => destruct x end
    | match goal with |- errs _ (if ?x then _ else _) => destruct x end ].

Lemma errs_schema {F} (key : F -> Z) required typed e m schema : errs e (check_schema key required typed e m schema).
Proof. induction schema; cbn [check_schema]; errs. Qed.

Lemma errs_keys e keys : errs e (check_keys e keys).
Proof. induction keys; cbn [check_keys]; errs. Qed.

Lemma errs_for_each {A} e (f : A -> result error unit) l : (forall x, errs e (f x)) -> errs e (for_each f l).
Proof. intros Hf. induction l; cbn [for_each]; errs. Qed.

#[export] Hint Resolve errs_schema errs_keys errs_for_each : errs.

Lemma errs_schema_for {F} e (schemas : list (Z * list F)) ft : errs e (schema_for e schemas ft).
Proof. unfold schema_for. errs. Qed.

Lemma errs_payload e b : errs e (payload_map e b).
Proof. unfold payload_map. errs. Qed.

Lemma errs_frame_kind e ft m : errs e (check_frame_kind e ft m).
Proof. unfold check_frame_kind. errs. Qed.

Lemma errs_corr_value e v : errs e (check_corr_value e v).
Proof. unfold check_corr_value. errs. Qed.
#[export] Hint Resolve errs_corr_value : errs.

Lemma errs_corr e m : errs e (check_corr e m).
Proof. unfold check_corr. errs. Qed.

Lemma errs_fields e m schema : errs e (check_fields e m schema).
Proof. apply errs_map_err. Qed.

Lemma errs_checkFields m schema : errs ErrMemoryMalformed (checkFields m schema).
Proof. unfold checkFields. errs. Qed.

#[export] Hint Resolve errs_schema_for errs_payload errs_frame_kind errs_corr errs_fields errs_checkFields : errs.

(** ** Instances *)

Lemma envelope_keys schemas ft m : envelope_ok schemas ft m -> keys_ok m.
Proof. by intros (schema & _ & _ & _ & ?). Qed.

(** Both directions of a table-driven validator, from the lemmas on its steps. *)
Ltac validator_iff :=
  rewrite bind_Ok; split;
  [ let s := fresh "s" in let Hs := fresh "Hs" in let H := fresh "H" in let Hd := fresh "Hd" in
    intros (s & Hs & H); apply bind_Ok in H as (? & Hd & H); rewrite schema_for_iff in Hs;
    rewrite payload_map_iff in Hd; autorewrite with body in H; destruct_and? H; simplify_eq;
    unfold accepts, envelope_ok; naive_solver
  | let s := fresh "s" in let Hs := fresh "Hs" in let Hd := fresh "Hd" in let Ha := fresh "Ha" in
    intros [Hd Ha]; unfold accepts in Ha; destruct Ha as [(s & Hs & ? & ?) Ha];
    exists s; split; [by apply schema_for_iff|]; apply bind_Ok; eexists; split; [by apply payload_map_iff|];
    autorewrite with body; naive_solver ].

(** The three laws of a table-driven validator. *)
Ltac solve_channel V :=
  split;
  [ intros ft b m; unfold V; validator_iff
  | intros ft b; match goal with |- forall e, _ -> e = ?err => change (errs err (V ft b)) end; unfold V; errs
  | intros ft m [? _]; by eapply envelope_keys ].

#[export] Instance memory_channel : BodyChannel ValidateMemoryPayload ErrMemoryMalformed (accepts MemoryC).
Proof. solve_channel ValidateMemoryPayload. Qed.

#[export] Instance capability_channel : BodyChannel ValidateCapabilityPayload ErrCapMalformed (accepts CapabilityC).
Proof. solve_channel ValidateCapabilityPayload. Qed.

#[export] Instance settlement_channel : BodyChannel ValidateSettlementPayload ErrSettlementMalformed (accepts SettlementC).
Proof. solve_channel ValidateSettlementPayload. Qed.

#[export] Instance interaction_channel : BodyChannel ValidateInteractionPayload ErrInteractionMalformed (accepts InteractionC).
Proof. solve_channel ValidateInteractionPayload. Qed.

Lemma check_ssid_iff m :
  match cborMap_get m 1 with Some (VUint _) => Ok tt | _ => Err ErrStreamMalformed end = Ok tt <->
  exists n, cborMap_get m 1 = Some (VUint n).
Proof. destruct (cborMap_get m 1) as [[]|]; split; naive_solver. Qed.

Lemma check_update_iff ft m :
  (ft =? FrameKnowledgeUpdate) &&
    match cborMap_get m 4, cborMap_get m 5 with None, None => true | _, _ => false end = false <->
  (ft = FrameKnowledgeUpdate -> cborMap_get m 4 <> None \/ cborMap_get m 5 <> None).
Proof.
  rewrite andb_false_iff, Z.eqb_neq. destruct (cborMap_get m 4), (cborMap_get m 5); naive_solver.
Qed.

Lemma check_conditional_iff (c : bool) (r : result error unit) :
  (if c then r else Ok tt) = Ok tt <-> (c = true -> r = Ok tt).
Proof. destruct c; naive_solver. Qed.

Lemma validateGossipArray_iff m nested : validateGossipArray m nested = Ok tt <-> gossip_ok m nested.
Proof.
  unfold validateGossipArray, gossip_ok. destruct (cborMap_get m 2) as [[]|]; try (split; [done|by intros (? & ? & _)]).
  rewrite (each_map_iff _ (fun em => fields_ok em nested)) by (intros; apply check_fields_iff).
  split; [eauto|]. by intros (? & [= ->] & ?).
Qed.

Lemma check_gossip_iff ft m :
  (if ft =? FrameImmuneGossipAdvertise then validateGossipArray m gossipDescriptorSchema
   else if ft =? FrameImmuneGossipPullResult then validateGossipArray m gossipItemSchema
   else Ok tt) = Ok tt <->
  (ft = FrameImmuneGossipAdvertise -> gossip_ok m gossipDescriptorSchema) /\
  (ft = FrameImmuneGossipPullResult -> gossip_ok m gossipItemSchema).
Proof.
  destruct (Z.eqb_spec ft FrameImmuneGossipAdvertise) as [->|].
  - rewrite validateGossipArray_iff. split; [|naive_solver]. split; [done|]. by intros [=].
  - destruct (Z.eqb_spec ft FrameImmuneGossipPullResult) as [->|]; [rewrite validateGossipArray_iff|]; naive_solver.
Qed.

Hint Rewrite check_ssid_iff check_update_iff check_conditional_iff check_gossip_iff : body.

#[export] Instance stream_channel : BodyChannel ValidateStreamPayload ErrStreamMalformed (accepts StreamC).
Proof. solve_channel ValidateStreamPayload. Qed.

#[export] Instance knowledge_channel : BodyChannel ValidateKnowledgePayload ErrKnowledgeMalformed (accepts KnowledgeC).
Proof. solve_channel ValidateKnowledgePayload. Qed.

#[export] Instance workflow_channel : BodyChannel ValidateWorkflowPayload ErrWorkflowMalformed (accepts WorkflowC).
Proof. solve_channel ValidateWorkflowPayload. Qed.

Lemma errs_gossip m nested : errs ErrImmuneMalformed (validateGossipArray m nested).
Proof. unfold validateGossipArray. errs. apply errs_for_each. intros x. errs. Qed.
#[export] Hint Resolve errs_gossip : errs.

#[export] Instance immune_channel : BodyChannel ValidateImmunePayload ErrImmuneMalformed (accepts ImmuneC).
Proof. solve_channel ValidateImmunePayload. Qed.

(** *** Commerce *)

Lemma is_text_iff (o : option value) :
  match o with Some (VText _) => Ok tt | _ => Err ErrCommerceMalformed end = Ok tt <-> exists s, o = Some (VText s).
Proof. destruct o as [[]|]; naive_solver. Qed.

Lemma is_uint_iff (o : option value) :
  match o with Some (VUint _) => Ok tt | _ => Err ErrCommerceMalformed end = Ok tt <-> exists n, o = Some (VUint n).
Proof. destruct o as [[]|]; naive_solver. Qed.

Lemma validateCommerceAmount_iff v : validateCommerceAmount v = Ok tt <-> amount_ok v.
Proof.
  unfold validateCommerceAmount, amount_ok, commerceForwardCompatKeys, keys_ok.
  destruct v as [| | | | |m| | |]; try (split; [done|by intros (? & ? & ? & ? & ? & _)]).
  rewrite !then_Ok, is_text_iff, is_uint_iff, check_keys_iff. split.
  - intros (Hu & [n Hn] & [s Hs] & Hk). destruct (cborMap_get m 0) as [u|] eqn:E; [|done].
    exists m, u, n, s. split_and!; try done. by destruct u.
  - intros (? & u & n & s & [= ->] & E & Hu & Hn & Hs & Hk). rewrite E.
    split_and!; [by destruct u|eauto|eauto|done].
Qed.

Lemma leg_party_iff m k s : leg_party m k = Ok s <-> cborMap_get m k = Some (VText s).
Proof. unfold leg_party. destruct (cborMap_get m k) as [[]|]; naive_solver. Qed.

Lemma validateCommerceLeg_iff parties v : validateCommerceLeg parties v = Ok tt <-> leg_ok parties v.
Proof.
  unfold validateCommerceLeg, leg_ok, commerceForwardCompatKeys, keys_ok.
  destruct v as [| | | | |m| | |]; try (split; [done|by intros (? & ? & ? & ? & ? & _)]).
  rewrite bind_Ok. split.
  - intros (f & Hf & H). apply bind_Ok in H as (t & Ht & H). rewrite leg_party_iff in *.
    rewrite !then_Ok, !check_Ok, !negb_false_iff, !bool_decide_eq_true, check_keys_iff in H.
    destruct H as (Ha & H1 & H2 & Hk). destruct (cborMap_get m 2) as [a|] eqn:E; [|done].
    apply validateCommerceAmount_iff in Ha. exists m, f, t, a. done.
  - intros (? & f & t & a & [= ->] & Hf & Ht & E & Ha & H1 & H2 & Hk).
    exists f. rewrite leg_party_iff. split; [done|]. apply bind_Ok. exists t. rewrite leg_party_iff. split; [done|].
    rewrite E, !then_Ok, !check_Ok, !negb_false_iff, !bool_decide_eq_true, check_keys_iff, validateCommerceAmount_iff.
    done.
Qed.

Lemma party_names_iff arr names : party_names arr = Ok names <-> arr = VText <$> names.
Proof.
  revert names. induction arr as [|v arr IH]; intros names; cbn [party_names].
  - destruct names; naive_solver.
  - destruct v; try (split; [done|by destruct names]). rewrite bind_Ok. setoid_rewrite IH. split.
    + by intros (ns & -> & [= <-]).
    + destruct names as [|n names]; [done|]. intros [= -> ->]. eauto.
Qed.

Lemma validateCommerceNested_iff ft m : validateCommerceNested ft m = Ok tt <-> commerce_nested_ok ft m.
Proof.
  unfold validateCommerceNested, commerce_nested_ok, proposal_ok.
  destruct (Z.eqb_spec ft FrameCommerceMandateCreateReq) as [->|].
  { destruct (cborMap_get m 4) as [v|]; [rewrite validateCommerceAmount_iff|]; naive_solver. }
  destruct (Z.eqb_spec ft FrameCommerceIntentProposeReq) as [->|]; [|naive_solver].
  unfold commerceParties. rewrite bind_Ok. setoid_rewrite party_names_iff.
  setoid_rewrite (for_each_iff _ _ _ (validateCommerceLeg_iff _)). naive_solver.
Qed.

Hint Rewrite validateCommerceNested_iff : body.

Lemma errs_amount v : errs ErrCommerceMalformed (validateCommerceAmount v).
Proof. unfold validateCommerceAmount, commerceForwardCompatKeys. errs. Qed.
#[export] Hint Resolve errs_amount : errs.

Lemma errs_leg parties v : errs ErrCommerceMalformed (validateCommerceLeg parties v).
Proof. unfold validateCommerceLeg, leg_party, commerceForwardCompatKeys. errs. Qed.

Lemma errs_party_names arr : errs ErrCommerceMalformed (party_names arr).
Proof. induction arr as [|[] arr IH]; cbn [party_names]; errs. Qed.
#[export] Hint Resolve errs_leg errs_party_names : errs.

Lemma errs_nested ft m : errs ErrCommerceMalformed (validateCommerceNested ft m).
Proof. unfold validateCommerceNested, commerceParties. errs. Qed.
#[export] Hint Resolve errs_nested : errs.

#[export] Instance commerce_channel : BodyChannel ValidateCommercePayload ErrCommerceMalformed (accepts CommerceC).
Proof. solve_channel ValidateCommercePayload. Qed.

(** *** Telemetry *)

Lemma checkTelemetryFields_iff m schema : checkTelemetryFields m schema = Ok tt <-> tel_fields_ok m schema.
Proof. unfold checkTelemetryFields, telemetryForwardCompat. by rewrite then_Ok, check_schema_iff, check_keys_iff. Qed.

Lemma checkTelemetryCorr_iff m : checkTelemetryCorr m true = Ok tt <-> corr_ok m.
Proof.
  unfold checkTelemetryCorr, corr_ok. destruct (cborMap_get m 1) as [v|]; [rewrite check_corr_value_iff|]; naive_solver.
Qed.

(** A content array that checks counts for one when it is not empty. *)
Lemma telemetry_content_iff m key schema n :
  telemetry_content m key schema = Ok n <->
  content_ok m key schema /\ ((n = 1 /\ content_nonempty m key) \/ (n = 0 /\ ~ content_nonempty m key)).
Proof.
  unfold telemetry_content, content_ok, content_nonempty.
  destruct (cborMap_get m key) as [[| | | |arr| | | |]|]; try naive_solver.
  rewrite then_Ok, (each_map_iff _ (fun em => tel_fields_ok em schema)) by (intros; apply checkTelemetryFields_iff).
  assert ((0 <? blen arr) = bool_decide (arr <> [])) as ->
    by (destruct arr; [done|]; rewrite bool_decide_true by done; apply Z.ltb_lt; rewrite blen_cons; pose proof (blen_nonneg arr); lia).
  case_bool_decide; naive_solver.
Qed.

Lemma report_corr_iff m :
  match cborMap_get m 1, cborMap_get m 2 with
  | Some corr, sub =>
      check_corr_value ErrTelemetryMalformed corr;;
      match sub with
      | None => Err ErrTelemetryMalformed
      | Some sub => check (negb (telIsBytes sub)) ErrTelemetryMalformed
      end
  | None, Some _ => Err ErrTelemetryMalformed
  | None, None => Ok tt
  end = Ok tt <->
  (exists corr sub, cborMap_get m 1 = Some corr /\ corr_value_ok corr /\ cborMap_get m 2 = Some (VBytes sub)) \/
  (cborMap_get m 1 = None /\ cborMap_get m 2 = None).
Proof.
  destruct (cborMap_get m 1) as [c|]; [rewrite then_Ok, check_corr_value_iff|];
    destruct (cborMap_get m 2) as [[]|]; naive_solver.
Qed.

Lemma report_seq_iff m :
  match cborMap_get m 3 with
  | None => Err ErrTelemetryMalformed
  | Some bs => check (negb (telIsUint bs)) ErrTelemetryMalformed
  end = Ok tt <-> exists n, cborMap_get m 3 = Some (VUint n).
Proof. destruct (cborMap_get m 3) as [[]|]; naive_solver. Qed.

Lemma validateTelemetryReport_iff m m' : validateTelemetryReport m = Ok m' <-> m' = m /\ report_ok m.
Proof.
  unfold validateTelemetryReport, telemetryForwardCompat, report_ok.
  rewrite !then_Ok, report_corr_iff, report_seq_iff. split.
  - intros (Hc & Hq & H). apply bind_Ok in H as (x & Hx & H). apply bind_Ok in H as (y & Hy & H).
    apply bind_Ok in H as (z & Hz & H). rewrite !then_Ok, check_Ok, check_keys_iff, Z.eqb_neq in H.
    destruct H as (Hn & Hk & [= <-]). apply telemetry_content_iff in Hx as [Hx Hx'], Hy as [Hy Hy'], Hz as [Hz Hz'].
    split; [done|]. split_and!; try done.
    destruct Hx' as [[_ ?]|[-> _]]; [by left|]. destruct Hy' as [[_ ?]|[-> _]]; [by right; left|].
    destruct Hz' as [[_ ?]|[-> _]]; [by right; right|]. lia.
  - intros (-> & Hc & Hq & H4 & H5 & H6 & Hne & Hk). split; [done|]. split; [done|].
    assert (forall key schema, content_ok m key schema -> exists n, telemetry_content m key schema = Ok n /\ 0 <= n /\
      (content_nonempty m key -> n = 1)) as Hex.
    { intros key schema Ho. assert (content_nonempty m key \/ ~ content_nonempty m key) as [Hy|Hy].
      { unfold content_nonempty. destruct (cborMap_get m key) as [[| | | |[|v arr]| | | |]|]; naive_solver. }
      - exists 1. rewrite telemetry_content_iff. split; [auto|]. split; [lia|done].
      - exists 0. rewrite telemetry_content_iff. split; [auto|]. split; [lia|done]. }
    destruct (Hex _ _ H4) as (x & Hx & ? & Hx1), (Hex _ _ H5) as (y & Hy & ? & Hy1), (Hex _ _ H6) as (z & Hz & ? & Hz1).
    rewrite Hx. apply bind_Ok. exists x. split; [done|]. rewrite Hy. apply bind_Ok. exists y. split; [done|].
    rewrite Hz. apply bind_Ok. exists z. split; [done|]. rewrite !then_Ok, check_Ok, check_keys_iff, Z.eqb_neq.
    split; [|done]. destruct Hne as [Hn|[Hn|Hn]]; [specialize (Hx1 Hn)|specialize (Hy1 Hn)|specialize (Hz1 Hn)]; lia.
Qed.

Lemma errs_content m key schema : errs ErrTelemetryMalformed (telemetry_content m key schema).
Proof.
  unfold telemetry_content. errs. apply errs_for_each. intros x. unfold checkTelemetryFields, telemetryForwardCompat. errs.
Qed.
#[export] Hint Resolve errs_content : errs.

#[export] Instance telemetry_channel : BodyChannel ValidateTelemetryPayload ErrTelemetryMalformed (accepts TelemetryC).
Proof.
  split.
  - intros ft b m. unfold ValidateTelemetryPayload, accepts. rewrite then_Ok, check_Ok, negb_false_iff, bind_Ok. split.
    + intros (Hft & m' & Hd & H). rewrite payload_map_iff in Hd. rewrite then_Ok, check_frame_kind_iff in H.
      destruct H as [Hk H]. destruct (ft =? FrameTelemetryReport).
      * apply validateTelemetryReport_iff in H as [-> H]. done.
      * rewrite !then_Ok, checkTelemetryCorr_iff, checkTelemetryFields_iff in H.
        by destruct H as (? & ? & [= <-]).
    + intros (Hd & Hft & Hk & H). split; [done|]. exists m. rewrite payload_map_iff. split; [done|].
      rewrite then_Ok, check_frame_kind_iff. split; [done|]. destruct (ft =? FrameTelemetryReport).
      * by apply validateTelemetryReport_iff.
      * rewrite !then_Ok, checkTelemetryCorr_iff, checkTelemetryFields_iff. naive_solver.
  - intros ft b. change (errs ErrTelemetryMalformed (ValidateTelemetryPayload ft b)).
    unfold ValidateTelemetryPayload, validateTelemetryReport, checkTelemetryCorr, checkTelemetryFields, telemetryForwardCompat.
    errs.
  - intros ft m (_ & _ & H). destruct (ft =? FrameTelemetryReport); [by destruct H as (_ & _ & _ & _ & _ & _ & ?)|].
    by destruct H as (_ & _ & ?).
Qed.

#[export] Instance companion_channel ch : BodyChannel (Validate ch) (malformed_of ch) (accepts ch).
Proof. destruct ch; apply _. Qed.

(** C14: Every body validator accepts exactly the well-typed bodies of its channel.
    For each of the ten companion channels and any octets: the validator returns a map
    exactly when the octets are the deterministic encoding of that map and the map
    meets the channel's rules (frame type listed, key 0 repeating it, correlation
    value, required and typed fields, key rule, and the channel's nested rules);
    otherwise it fails with the sentinel of the channel and nothing else. *)
Theorem bodies_typed (ch : companion) (ft : Z) (b : bytes) :
  match Validate ch ft b with
  | Ok m => cborDecodeTop b = Ok (VMap m) /\ accepts ch ft m
  | Err e => e = malformed_of ch /\ ~ exists m, cborDecodeTop b = Ok (VMap m) /\ accepts ch ft m
  end.
Proof.
  destruct (Validate ch ft b) as [m|e] eqn:E; [by apply bc_iff|]. split; [by eapply bc_error|].
  intros (m & Hm). apply bc_iff in Hm. congruence.
Qed.
