(* ===== verification/BodyRoundtrip.v ===== *)
(** * The exported body codecs are inverse

    [Encode<Channel>Body] and [Decode<Channel>Body]: a well-formed body decodes to the
    fields it was encoded from, and decoding keeps everything exactly when every map
    inside the body has unsigned keys only. *)

From S2P Require Import Prelude Errors Cbor ChannelFrames Bodies BodySpec.
From Stdlib Require Import Strings.Byte Sorting.Sorted.
From stdpp Require Import gmap sorting.
Open Scope Z_scope.

(** ** Converting a decoded value *)

Definition is_uint (v : value) : bool := match v with VUint _ => true | _ => false end.

(** Every map inside the value has unsigned keys only. *)
Fixpoint uint_keyed (v : value) : bool :=
  match v with
  | VMap es => forallb (fun e => match e with (_, k, x) => is_uint k && uint_keyed x end) es
  | VArray l => forallb uint_keyed l
  | _ => true
  end.

(** The entry of the Go map an entry becomes. *)
Definition go_entry (e : cborEntry) : option (Z * value) :=
  match e with (_, VUint uk, x) => Some (uk, cborToGo x) | _ => None end.

Lemma cborToGo_map es : cborToGo (VMap es) = VGoMap (omap go_entry es).
Proof. cbn [cborToGo]. f_equal. Qed.

(** The octets of one entry of a Go map. *)
Definition go_octets (e : Z * value) : bytes := encodeHead 0 e.1 ++ cborEncode e.2.

Lemma encode_go_map m :
  cborEncode (VGoMap m) = encodeHead 5 (blen m) ++
    concat (map (fun e : bytes * bytes => e.1 ++ e.2)
      (sort_entries fst (map (fun e : Z * value => (encodeHead 0 e.1, cborEncode e.2)) m))).
Proof. cbn [cborEncode]. do 4 f_equal. apply map_ext. by intros [k x]. Qed.

Lemma length_concat_perm (l1 l2 : list bytes) : l1 ≡ₚ l2 -> length (concat l1) = length (concat l2).
Proof. induction 1; cbn; rewrite ?length_app; lia. Qed.

Lemma length_encode_go_map m :
  length (cborEncode (VGoMap m)) = (length (encodeHead 5 (blen m)) + length (concat (map go_octets m)))%nat.
Proof.
  rewrite encode_go_map, length_app. f_equal.
  set (l := map (fun e : Z * value => (encodeHead 0 e.1, cborEncode e.2)) m).
  transitivity (length (concat (map (fun e : bytes * bytes => e.1 ++ e.2) l))).
  - apply length_concat_perm. change (map ?f ?l) with (f <$> l). by rewrite sort_entries_perm.
  - unfold l. by rewrite map_map.
Qed.

Lemma length_encodeHead_mono m a b : 0 <= a <= b -> (length (encodeHead m a) <= length (encodeHead m b))%nat.
Proof.
  intros Hab. unfold encodeHead. change (Z.shiftl 1 8) with 256. change (Z.shiftl 1 16) with 65536.
  change (Z.shiftl 1 32) with 4294967296.
  repeat (match goal with |- context [?x <? ?y] => destruct (Z.ltb_spec x y) end; cbn [length];
    rewrite ?length_be_put; try lia).
Qed.

(** A sorted list of entries is its own sort. *)
Lemma sort_sorted {A} (key : A -> bytes) l : Sorted (entry_lt key) l -> sort_entries key l = l.
Proof.
  induction 1 as [|e l Hs IH Hhd]; [done|]. change (insert_entry key e (sort_entries key l) = e :: l). rewrite IH.
  destruct Hhd as [|x l Hx]; [done|]. cbn [insert_entry]. by rewrite Hx.
Qed.

Lemma Sorted_map_key {A B} (k1 : A -> bytes) (k2 : B -> bytes) (g : A -> B) l :
  (forall a, a ∈ l -> k2 (g a) = k1 a) -> Sorted (entry_lt k1) l -> Sorted (entry_lt k2) (map g l).
Proof.
  intros Hk Hs. induction Hs as [|e l Hs IH Hhd]; [constructor|]. cbn [map]. constructor.
  - apply IH. intros a Ha. apply Hk. by apply list_elem_of_further.
  - destruct Hhd as [|x l Hx]; constructor. unfold entry_lt in *. rewrite !Hk by set_solver. exact Hx.
Qed.

(** A canonical map with unsigned keys is the encoding of its Go map. *)
Lemma canonical_sorted d es :
  cbor_ok (S d) (VMap es) -> Sorted (entry_lt keyEnc) es.
Proof.
  intros [_ Hs]. clear -Hs. induction es as [|e es IH]; [constructor|]. cbn [map] in Hs.
  apply Sorted_inv in Hs as [Hs Hhd]. constructor; [by apply IH|].
  destruct es as [|e' es]; constructor. by inversion Hhd.
Qed.

Lemma encode_cborToGo d v : cbor_ok d v -> uint_keyed v = true -> cborEncode (cborToGo v) = cborEncode v.
Proof.
  revert v. induction d as [|d IH]; [done|]. intros v Hv Hk. destruct v as [| | | |l|es| | |]; try done.
  - cbn [cbor_ok] in Hv. cbn [cborToGo cborEncode uint_keyed] in *. unfold blen. rewrite length_map. do 2 f_equal.
    rewrite map_map. rewrite forallb_forall in Hk. apply map_ext_in. intros x Hx.
    apply IH; [|by apply Hk]. rewrite Forall_forall in Hv. by apply Hv, list_elem_of_In.
  - pose proof (canonical_sorted _ _ Hv) as Hs. destruct Hv as [Hv _].
    rewrite cborToGo_map, encode_go_map, cborEncode_map. cbn [uint_keyed] in Hk. rewrite forallb_forall in Hk.
    assert (map (fun e : Z * value => (encodeHead 0 e.1, cborEncode e.2)) (omap go_entry es)
      = map (fun e => (keyEnc e, cborEncode (eval e))) es /\ blen (omap go_entry es) = blen es) as [-> ->].
    { clear Hs. induction Hv as [|e es (Hke & Hx & Henc) Hv IHes]; [done|].
      destruct e as [[ke k] x]. pose proof (Hk _ (or_introl eq_refl)) as He. cbn in He. apply andb_true_iff in He as [Hu Hx'].
      destruct k; try done. destruct IHes as [IH1 IH2]; [intros ? ?; apply Hk; by right|].
      cbn [omap list_omap go_entry map]. unfold keyEnc, ekey, eval in *. cbn [fst snd] in *. split.
      - rewrite IH1. f_equal. f_equal; [by rewrite Henc|]. by apply IH.
      - by rewrite !blen_cons, IH2. }
    f_equal. rewrite sort_sorted by (eapply Sorted_map_key, Hs; done). rewrite map_map. by f_equal.
Qed.

(** Conversion never lengthens an encoding, and shortens it when it drops a key. *)
Lemma length_cborToGo d v :
  cbor_ok d v ->
  (length (cborEncode (cborToGo v)) <= length (cborEncode v))%nat /\
  (uint_keyed v = false -> (length (cborEncode (cborToGo v)) < length (cborEncode v))%nat).
Proof.
  revert v. induction d as [|d IH]; [done|]. intros v Hv. destruct v as [| | | |l|es| | |]; try (split; [done|by intros [=]]).
  - cbn [cbor_ok] in Hv. cbn [cborToGo cborEncode uint_keyed]. unfold blen. rewrite length_map, !length_app.
    enough ((length (concat (map cborEncode (map cborToGo l))) <= length (concat (map cborEncode l)))%nat /\
      (forallb uint_keyed l = false -> (length (concat (map cborEncode (map cborToGo l))) < length (concat (map cborEncode l)))%nat)) as [H1 H2]
      by (split; [lia|intros Hf; specialize (H2 Hf); lia]).
    induction Hv as [|x l Hx Hl IHl]; [split; [done|by intros [=]]|]. cbn [map concat forallb]. rewrite !length_app.
    destruct (IH x Hx) as [H1 H2], IHl as [H3 H4]. split; [lia|]. rewrite andb_false_iff. intros [Hf|Hf]; [specialize (H2 Hf)|specialize (H4 Hf)]; lia.
  - destruct Hv as [Hv _]. rewrite cborToGo_map, length_encode_go_map, cborEncode_map, length_app. cbn [uint_keyed].
    enough ((length (omap go_entry es) <= length es)%nat /\
      (length (concat (map go_octets (omap go_entry es))) <= length (concat (map entry_octets es)))%nat /\
      (forallb (fun e => match e with (_, k, x) => is_uint k && uint_keyed x end) es = false ->
       (length (concat (map go_octets (omap go_entry es))) < length (concat (map entry_octets es)))%nat)) as (H1 & H2 & H3).
    { pose proof (length_encodeHead_mono 5 (blen (omap go_entry es)) (blen es)) as Hh. unfold blen in *.
      split; [lia|intros Hf; specialize (H3 Hf); lia]. }
    induction Hv as [|e es (Hke & Hx & Henc) Hv IHes]; [split_and!; [done|done|by intros [=]]|].
    destruct e as [[ke k] x]. unfold keyEnc, ekey, eval in *. cbn [fst snd] in *.
    destruct IHes as (H1 & H2 & H3), (IH x Hx) as [H4 H5].
    assert ((1 <= length ke)%nat) by (rewrite Henc; apply length_cborEncode_pos).
    cbn [forallb map concat]. unfold entry_octets at 1 3. unfold keyEnc, eval. cbn [fst snd].
    destruct k; cbn [omap list_omap go_entry map concat is_uint andb]; rewrite ?length_app; cbn [length];
      try (split_and!; [lia|lia|intros _; lia]).
    unfold go_octets at 1 3. cbn [fst snd]. rewrite length_app, Henc. cbn [cborEncode].
    split_and!; [lia|lia|]. rewrite andb_false_iff. intros [Hf|Hf]; [specialize (H5 Hf)|specialize (H3 Hf)]; lia.
Qed.

(** ** Encoding a Go value *)

(** The Go values a body may hold, nested at most [d] deep: integers within their
    width, maps with distinct [uint64] keys. *)
Fixpoint go_ok (d : nat) (v : value) : Prop :=
  match d with
  | O => False
  | S d =>
      match v with
      | VUint n => is_u64 n
      | VInt n => - 2 ^ 63 <= n < 2 ^ 63
      | VBytes _ | VText _ | VBool _ | VNil => True
      | VArray l => Forall (go_ok d) l
      | VGoMap m => Forall (fun e => is_u64 e.1 /\ go_ok d e.2) m /\ NoDup (map fst m)
      | VMap _ => False
      end
  end.

(** The canonical value with the same encoding. *)
Fixpoint canon (v : value) : value :=
  match v with
  | VInt n => if n <? 0 then v else VUint n
  | VArray l => VArray (map canon l)
  | VGoMap m => VMap (newCBORMapU (map (fun e => match e with (k, x) => (k, canon x) end) m))
  | _ => v
  end.

(** The entries of the canonical map, by key. *)
Definition canon_entries (m : list (Z * value)) : list (Z * value) := map (fun e => (e.1, canon e.2)) m.

Lemma canon_go_map m : canon (VGoMap m) = VMap (newCBORMapU (canon_entries m)).
Proof. cbn [canon]. do 2 f_equal. apply map_ext. by intros [k x]. Qed.

(** Equality of Go values: maps in any order, an [int64] that is not negative as the
    [uint64] it decodes to. *)
Inductive go_eq : value -> value -> Prop :=
| ge_refl v : go_eq v v
| ge_int n : 0 <= n -> go_eq (VInt n) (VUint n)
| ge_array l l' : Forall2 go_eq l l' -> go_eq (VArray l) (VArray l')
| ge_map m m' m'' :
    Forall2 (fun e e' => e.1 = e'.1 /\ go_eq e.2 e'.2) m m' -> m' ≡ₚ m'' -> go_eq (VGoMap m) (VGoMap m'').

Lemma canon_entries_fst m : map fst (canon_entries m) = map fst m.
Proof. unfold canon_entries. rewrite map_map. by apply map_ext. Qed.

Lemma encode_canon d v : go_ok d v -> cborEncode (canon v) = cborEncode v.
Proof.
  revert v. induction d as [|d IH]; [done|]. intros v Hv. destruct v as [|n| | |l| |m| |]; try done.
  - cbn [canon cborEncode]. destruct (Z.ltb_spec n 0); cbn [cborEncode]; [|done].
    by rewrite (proj2 (Z.ltb_lt n 0)).
  - cbn [go_ok] in Hv. cbn [canon cborEncode]. unfold blen. rewrite length_map. do 2 f_equal. rewrite map_map.
    apply map_ext_in. intros x Hx. rewrite Forall_forall in Hv. by apply IH, Hv, list_elem_of_In.
  - destruct Hv as [Hv _]. rewrite canon_go_map, <- encode_newCBORMapU, !encode_go_map.
    unfold canon_entries. unfold blen at 1. rewrite length_map. do 4 f_equal. rewrite map_map.
    apply map_ext_in. intros x Hx. cbn [fst snd]. f_equal. rewrite Forall_forall in Hv. by apply IH, Hv, list_elem_of_In.
Qed.

Lemma canon_ok d v : go_ok d v -> cbor_ok d (canon v).
Proof.
  revert v. induction d as [|d IH]; [done|]. intros v Hv. destruct v as [|n| | |l| |m| |]; try done.
  - cbn [canon go_ok] in *. destruct (Z.ltb_spec n 0); cbn [cbor_ok]; [lia|]. unfold is_u64. lia.
  - cbn [canon cbor_ok go_ok] in *. apply Forall_map. eapply Forall_impl; [exact Hv|]. apply IH.
  - rewrite canon_go_map. destruct Hv as [Hv Hn]. destruct m as [|e m]; [repeat constructor|].
    destruct d as [|d]; [apply Forall_cons in Hv as [[_ []] _]|]. apply newCBORMapU_ok; [|by rewrite canon_entries_fst].
    unfold canon_entries. apply Forall_map. eapply Forall_impl; [exact Hv|]. intros [k x] [? ?]. split; [done|]. by apply IH.
Qed.

Lemma omap_go_entries m : omap go_entry (go_entries m) = map (fun e => (e.1, cborToGo e.2)) m.
Proof. induction m as [|e m IH]; [done|]. unfold go_entries in *. cbn [map omap list_omap go_entry]. by rewrite IH. Qed.

(** Decoding what was encoded gives the value back, up to the order of maps. *)
Lemma go_eq_canon d v : go_ok d v -> go_eq v (cborToGo (canon v)).
Proof.
  revert v. induction d as [|d IH]; [done|]. intros v Hv. destruct v as [|n| | |l| |m| |]; try apply ge_refl; [| |done|].
  - cbn [canon]. destruct (Z.ltb_spec n 0); [apply ge_refl|by apply ge_int].
  - cbn [canon cborToGo go_ok] in *. apply ge_array. rewrite map_map.
    induction Hv; cbn [map]; constructor; auto.
  - rewrite canon_go_map, cborToGo_map. destruct Hv as [Hv _].
    apply (ge_map _ (map (fun e => (e.1, cborToGo (canon e.2))) m)).
    + induction Hv as [|e m [_ He] Hv IHm]; cbn [map]; constructor; [split; [done|by apply IH]|done].
    + unfold newCBORMapU. fold (go_entries (canon_entries m)). rewrite sort_entries_perm, omap_go_entries.
      unfold canon_entries. by rewrite map_map.
Qed.

(** ** The codecs *)

(** Channel, decoder and encoder of the nine channels that export both. *)
Definition body_codecs
    : list (companion * (Z -> bytes -> result error (list (Z * value))) * (list (Z * value) -> bytes)) :=
  [ (MemoryC, DecodeMemoryBody, EncodeMemoryBody);
    (CapabilityC, DecodeCapabilityBody, EncodeCapabilityBody);
    (ImmuneC, DecodeImmuneBody, EncodeImmuneBody);
    (SettlementC, DecodeSettlementBody, EncodeSettlementBody);
    (TelemetryC, DecodeTelemetryBody, EncodeTelemetryBody);
    (CommerceC, DecodeCommerceBody, EncodeCommerceBody);
    (InteractionC, DecodeInteractionBody, EncodeInteractionBody);
    (WorkflowC, DecodeWorkflowBody, EncodeWorkflowBody);
    (KnowledgeC, DecodeKnowledgeBody, EncodeKnowledgeBody) ].

Lemma body_codecs_shape ch dec enc :
  (ch, dec, enc) ∈ body_codecs ->
  dec = decode_body (Validate ch) (malformed_of ch) /\ forall fields, enc fields = cborEncode (VGoMap fields).
Proof.
  unfold body_codecs. rewrite !elem_of_cons. intros Hin.
  repeat (destruct Hin as [[= -> -> ->]|Hin]); [done..|by apply not_elem_of_nil in Hin].
Qed.

(** A validator's client sees the decoded map only. *)
Lemma decode_body_iff `{BodyChannel validate malformed accepted} ft b out :
  decode_body validate malformed ft b = Ok out <->
  exists m, cborDecodeTop b = Ok (VMap m) /\ accepted ft m /\ out = omap go_entry m.
Proof.
  unfold decode_body. rewrite bind_Ok. setoid_rewrite cborToGo_map. split.
  - intros (m & Hm & [= <-]). apply bc_iff in Hm as [? ?]. eauto.
  - intros (m & Hd & Ha & ->). exists m. split; [by apply bc_iff|done].
Qed.

(** Decoding a body is inverse to encoding it, on every channel that exports the
    pair.  Fields whose canonical map the channel accepts, nested at most eight deep
    with integers in range, encode to octets that decode to the same fields: the same
    keys with the same values, maps in canonical order. *)
Theorem body_roundtrip (ch : companion) (dec : Z -> bytes -> result error (list (Z * value)))
    (enc : list (Z * value) -> bytes) (ft : Z) (fields : list (Z * value))
    (Hch : (ch, dec, enc) ∈ body_codecs) (Hok : go_ok cborMaxNestingDepth (VGoMap fields))
    (Hacc : accepts ch ft (newCBORMapU (canon_entries fields))) (Hsize : blen (enc fields) < 2 ^ 63) :
  exists out, dec ft (enc fields) = Ok out /\ go_eq (VGoMap fields) (VGoMap out).
Proof.
  destruct (body_codecs_shape _ _ _ Hch) as [-> He]. rewrite He in *.
  pose proof (go_eq_canon _ _ Hok) as Heq. rewrite canon_go_map, cborToGo_map in Heq.
  eexists. split; [|exact Heq]. apply decode_body_iff. eexists. split; [|by split].
  rewrite <- (encode_canon _ _ Hok), canon_go_map in *. apply decode_top_encoded; [|exact Hsize].
  rewrite <- canon_go_map. by apply canon_ok.
Qed.

(** Re-encoding a decoded body gives the octets back exactly when every map inside
    the body has unsigned keys only.  Otherwise the decoder has dropped the entries
    with other keys: validation looks at the keys of the outer map (and of the nested
    maps some frames check), the conversion drops silently. *)
Theorem body_reencode (ch : companion) (dec : Z -> bytes -> result error (list (Z * value)))
    (enc : list (Z * value) -> bytes) (ft : Z) (b : bytes) (out : list (Z * value))
    (Hch : (ch, dec, enc) ∈ body_codecs) (Hsize : blen b < 2 ^ 63) (Hdec : dec ft b = Ok out) :
  exists m, Validate ch ft b = Ok m /\ (enc out = b <-> uint_keyed (VMap m) = true) /\
    (uint_keyed (VMap m) = false -> blen (enc out) < blen b).
Proof.
  destruct (body_codecs_shape _ _ _ Hch) as [-> He]. rewrite He in *.
  apply decode_body_iff in Hdec as (m & Hd & Ha & ->). exists m. split; [by apply bc_iff|].
  apply decode_top_sound in Hd as [Hok ->]; [|done]. rewrite <- cborToGo_map.
  destruct (length_cborToGo _ _ Hok) as [_ Hlt]. destruct (uint_keyed (VMap m)) eqn:Hk.
  - split; [|done]. split; [done|]. intros _. by eapply encode_cborToGo.
  - specialize (Hlt eq_refl). split; [|unfold blen; lia]. split; [|done]. intros Heq. rewrite Heq in Hlt. lia.
Qed.

(** ** Concrete bodies *)

(** A MEMORY_CREATE_REQ with metadata [{1: 2}], and the same with metadata [{"a": 2}]. *)
Definition sample_fields : list (Z * value) :=
  [(11, VUint 1); (0, VUint FrameMemoryCreateReq); (10, VGoMap [(1, VInt 2)]); (1, VBytes (str "c")); (2, VText (str "t"))].

Definition sample_lossy : bytes :=
  hex "a5" ++ hex "00190100" ++ hex "014163" ++ hex "026174" ++ hex "0aa1616102" ++ hex "0b01".

Lemma body_roundtrip_witness :
  exists out, DecodeMemoryBody FrameMemoryCreateReq (EncodeMemoryBody sample_fields) = Ok out /\
    go_eq (VGoMap sample_fields) (VGoMap out).
Proof.
  apply (body_roundtrip MemoryC DecodeMemoryBody EncodeMemoryBody).
  - apply list_elem_of_here.
  - assert (forall l : list Z, bool_decide (NoDup l) = true -> NoDup l) as Hnd by (intros l; apply bool_decide_eq_true).
    unfold cborMaxNestingDepth, sample_fields. cbn [go_ok]. unfold is_u64. split; [|by apply Hnd; vm_compute].
    repeat apply Forall_cons_2; try apply Forall_nil_2; cbn [fst snd]; (split; [lia|]); try exact I; try (unfold FrameMemoryCreateReq; lia).
    split; [|by apply Hnd; vm_compute]. apply Forall_singleton. cbn [fst snd]. lia.
  - split; [|eexists; split; [by vm_compute|]; eexists; split; [done|by vm_compute]].
    eexists. split; [by vm_compute|]. split; [by vm_compute|]. split.
    + repeat constructor.
    + repeat constructor.
  - by vm_compute.
Defined.

Lemma body_reencode_witness :
  exists out m, DecodeMemoryBody FrameMemoryCreateReq sample_lossy = Ok out /\
    ValidateMemoryPayload FrameMemoryCreateReq sample_lossy = Ok m /\
    EncodeMemoryBody out <> sample_lossy /\ blen (EncodeMemoryBody out) < blen sample_lossy.
Proof.
  assert (exists out, DecodeMemoryBody FrameMemoryCreateReq sample_lossy = Ok out) as [out Ho] by (eexists; by vm_compute).
  destruct (body_reencode MemoryC DecodeMemoryBody EncodeMemoryBody FrameMemoryCreateReq sample_lossy out)
    as (m & Hm & Hiff & Hlt); [apply list_elem_of_here|by vm_compute|exact Ho|].
  assert (uint_keyed (VMap m) = false) as Hk.
  { assert (ValidateMemoryPayload FrameMemoryCreateReq sample_lossy = Ok m) as Hm' by exact Hm. revert Hm'.
    vm_compute. by intros [= <-]. }
  exists out, m. split; [exact Ho|]. split; [exact Hm|]. split; [|by apply Hlt].
  rewrite Hiff, Hk. done.
Defined.
