(* ===== verification/BodyFrames.v ===== *)
(** * The frame types of a channel are those its validator knows

    The predicates [Is<Channel>Frame] and the schema tables are written separately in
    the source; here they are shown to describe the same frame types, each with a body
    the validator accepts. *)

From S2P Require Import Prelude Errors Cbor ChannelFrames Bodies BodySpec.
From Stdlib Require Import Strings.Byte.
From stdpp Require Import gmap.
Open Scope Z_scope.

Definition is_frame (ch : companion) : Z -> bool :=
  match ch with
  | StreamC => IsStreamFrame
  | MemoryC => IsMemoryFrame
  | CapabilityC => IsCapabilityFrame
  | ImmuneC => IsImmuneFrame
  | SettlementC => IsSettlementFrame
  | TelemetryC => IsTelemetryFrame
  | CommerceC => IsCommerceFrame
  | InteractionC => IsInteractionFrame
  | WorkflowC => IsWorkflowFrame
  | KnowledgeC => IsKnowledgeFrame
  end.

(** The request predicates; the two channels without one have no requests. *)
Definition is_request (ch : companion) : Z -> bool :=
  match ch with
  | StreamC | TelemetryC => fun _ => false
  | MemoryC => IsMemoryRequest
  | CapabilityC => IsCapabilityRequest
  | ImmuneC => IsImmuneRequest
  | SettlementC => IsSettlementRequest
  | CommerceC => IsCommerceRequest
  | InteractionC => IsInteractionRequest
  | WorkflowC => IsWorkflowRequest
  | KnowledgeC => IsKnowledgeRequest
  end.

(** The error frame of a channel. *)
Definition error_frame (ch : companion) : option Z :=
  match ch with
  | StreamC => None
  | MemoryC => Some FrameMemoryError
  | CapabilityC => Some FrameCapError
  | ImmuneC => Some FrameImmuneError
  | SettlementC => Some FrameSettleError
  | TelemetryC => Some FrameTelemetryError
  | CommerceC => Some FrameCommerceError
  | InteractionC => Some FrameInteractError
  | WorkflowC => Some FrameWorkflowError
  | KnowledgeC => Some FrameKnowledgeError
  end.

(** ** A smallest body of each frame type *)

Definition amount : value := VGoMap [(0, VUint 5); (1, VUint 2); (2, VText (str "EUR"))].

Definition smallest (k : cborKind) : value :=
  match k with
  | kUint => VUint 0 | kText => VText [] | kBytes => VBytes [] | kArray => VArray []
  | kMap => amount | kBool => VBool false
  end.

Definition required_fields (schema : list memField) : list (Z * value) :=
  map (fun f => (f_key f, smallest (f_kind f))) (filter (fun f => f_required f = true) schema).

Definition body_fields (ch : companion) (ft : Z) : list (Z * value) :=
  let table t := required_fields (default [] (schema_of t ft)) in
  let corr := (1, VBytes (str "c")) in
  (0, VUint ft) ::
  match ch with
  | StreamC => (1, VUint 0) :: table streamSchemas
  | MemoryC => corr :: table memorySchemas
  | CapabilityC => corr :: table capabilitySchemas
  | ImmuneC => corr :: table immuneSchemas
  | SettlementC => corr :: table settlementSchemas
  | CommerceC => corr :: table commerceSchemas
  | InteractionC => corr :: table interactionSchemas
  | WorkflowC => corr :: table workflowSchemas
  | KnowledgeC => corr :: (4, VArray []) :: table knowledgeSchemas
  | TelemetryC =>
      if ft =? FrameTelemetryReport then
        [(3, VUint 0); (4, VArray [VGoMap [(0, VText []); (1, VUint 0); (2, VUint 0); (3, VInt (-1))]])]
      else if ft =? FrameTelemetrySubscribe then [corr; (7, VUint 0)]
      else if ft =? FrameTelemetryError then [corr; (2, VUint 0)]
      else [corr; (2, VBytes []); (3, VUint 0)]
  end.

(** Knowledge frames that use key 4 for another type. *)
Definition smallest_body (ch : companion) (ft : Z) : bytes :=
  let fields := body_fields ch ft in
  cborEncode (VGoMap (match ch with
    | KnowledgeC => if ft =? FrameKnowledgeUpdate then fields else filter (fun e => e.1 <> 4) fields
    | _ => fields
    end)).

(** ** Agreement *)

Lemma is_frame_range ch ft : is_frame ch ft = true -> 0 <= ft < 512.
Proof.
  destruct ch; cbn [is_frame];
    unfold IsStreamFrame, IsMemoryFrame, IsCapabilityFrame, IsImmuneFrame, IsSettlementFrame, IsTelemetryFrame,
      IsCommerceFrame, IsInteractionFrame, IsWorkflowFrame, IsKnowledgeFrame;
    repeat match goal with |- context [if ?c then _ else _] => destruct c eqn:? end; intros Hf; bprop; try done;
    repeat match goal with H : _ || _ = true |- _ => apply orb_true_iff in H as [H|H]; bprop end;
    repeat match goal with
    | H : ?f <= _ |- _ => is_const f; unfold f in H
    | H : _ <= ?f |- _ => is_const f; unfold f in H
    | H : _ = ?f |- _ => is_const f; unfold f in H end; lia.
Qed.

Definition accepted_body (ch : companion) (ft : Z) : bool :=
  match Validate ch ft (smallest_body ch ft) with Ok _ => true | Err _ => false end.

Lemma smallest_accepted ch ft : is_frame ch ft = true -> accepted_body ch ft = true.
Proof.
  intros Hf. pose proof (is_frame_range ch ft Hf) as Hr.
  assert (forallb (fun t => implb (is_frame ch t) (accepted_body ch t)) (Z.of_nat <$> seq 0 512) = true) as Hall
    by (destruct ch; by vm_compute).
  rewrite forallb_forall in Hall. specialize (Hall ft). rewrite <- list_elem_of_In in Hall.
  rewrite Hf in Hall. apply Hall. replace ft with (Z.of_nat (Z.to_nat ft)) by lia.
  apply list_elem_of_fmap_2. apply elem_of_seq. lia.
Qed.

Lemma schema_of_listed {F} (schemas : list (Z * list F)) (p : Z -> bool) ft s :
  forallb (fun e => p e.1) schemas = true -> schema_of schemas ft = Some s -> p ft = true.
Proof.
  induction schemas as [|[t s'] schemas IH]; [done|]. cbn [forallb schema_of fst]. rewrite andb_true_iff. intros [Hp Hall].
  destruct (Z.eqb_spec ft t) as [->|]; [done|]. by apply IH.
Qed.

Lemma accepts_is_frame ch ft m : accepts ch ft m -> is_frame ch ft = true.
Proof.
  destruct ch; cbn [accepts is_frame]; try (by intros [? _]);
    intros [(s & Hs & _) _]; (eapply schema_of_listed; [|exact Hs]); by vm_compute.
Qed.

(** On every companion channel the frame-type predicate and the schema table agree:
    the predicate holds for a type exactly when the validator accepts some body under
    it.  Every request type of the channel is such a type, and the error frame is one
    and is not a request. *)
Theorem frame_types_exact (ch : companion) (ft : Z) :
  (is_frame ch ft = true <-> exists b m, Validate ch ft b = Ok m) /\
  (is_request ch ft = true -> is_frame ch ft = true) /\
  (error_frame ch = Some ft -> is_frame ch ft = true /\ is_request ch ft = false).
Proof.
  split_and!.
  - split; [|intros (b & m & Hm); apply bc_iff in Hm as [_ Ha]; by eapply accepts_is_frame].
    intros Hf. pose proof (smallest_accepted ch ft Hf) as Ha. unfold accepted_body in Ha.
    exists (smallest_body ch ft). destruct (Validate ch ft (smallest_body ch ft)) as [m|]; [by exists m|done].
  - destruct ch; cbn [is_request]; try done; intros (t & Hin & ->%Z.eqb_eq)%existsb_exists;
      repeat (destruct Hin as [<-|Hin]; [by vm_compute|]); done.
  - destruct ch; cbn [error_frame]; try done; intros [= <-]; by vm_compute.
Qed.

Lemma frame_types_exact_witness :
  is_frame MemoryC FrameMemoryEvict = true /\ is_request MemoryC FrameMemoryError = false.
Proof.
  split.
  - exact (proj1 (proj2 (frame_types_exact MemoryC FrameMemoryEvict)) eq_refl).
  - exact (proj2 (proj2 (proj2 (frame_types_exact MemoryC FrameMemoryError)) eq_refl)).
Defined.
