(* ===== verification/Bridge.v ===== *)
(** * The Bridge channel (bridge.go, bridge_bodies.go, bridge_api.go)

    The payload of a Bridge frame is an envelope TLV, an optional safety label TLV and
    the foreign message.  Encoders panic on a field whose length does not fit one octet
    ([None] here).  Decoding accepts exactly the encodings of well-formed frames whose
    foreign message cannot be read as a label; without that condition the label of a
    frame is not determined by what was encoded. *)

From S2P Require Import Prelude Errors Tlv.
From Stdlib Require Import Strings.Byte.
Open Scope Z_scope.

Definition FrameBridgeRequest : Z := 0x0100.
Definition FrameBridgeResponse : Z := 0x0101.
Definition FrameBridgeError : Z := 0x0102.
Definition FrameBridgeNotify : Z := 0x0103.
Definition FrameBridgeStreamData : Z := 0x0104.
Definition FrameBridgeStreamEnd : Z := 0x0105.

Definition TLVBridgeEnvelope : Z := 0x0010.
Definition TLVSafetyLabel : Z := 0x0013.

Definition BridgeKindRequest : Z := 0x01.
Definition BridgeKindResponse : Z := 0x02.
Definition BridgeKindNotification : Z := 0x03.
Definition BridgeKindError : Z := 0x04.
Definition BridgeKindStreamData : Z := 0x05.
Definition BridgeKindStreamEnd : Z := 0x06.

Definition BridgeEffectReadOnly : Z := 0x00.
Definition BridgeEffectIdempotentWrite : Z := 0x01.
Definition BridgeEffectNonIdempotentWrite : Z := 0x02.
Definition BridgeEffectDestructive : Z := 0x03.

Definition BridgeFlagFinal : Z := 0x01.

Definition bridgeFrameKind : list (Z * Z) :=
  [ (FrameBridgeRequest, BridgeKindRequest); (FrameBridgeResponse, BridgeKindResponse);
    (FrameBridgeError, BridgeKindError); (FrameBridgeNotify, BridgeKindNotification);
    (FrameBridgeStreamData, BridgeKindStreamData); (FrameBridgeStreamEnd, BridgeKindStreamEnd) ].

Definition BridgeKindForFrame (ft : Z) : option Z :=
  snd <$> find (fun e => ft =? e.1) bridgeFrameKind.

Definition IsBridgeFrame (ft : Z) : bool := (FrameBridgeRequest <=? ft) && (ft <=? FrameBridgeStreamEnd).
Definition IsBridgeRequest (ft : Z) : bool := ft =? FrameBridgeRequest.
Definition IsBridgeReply (ft : Z) : bool :=
  existsb (Z.eqb ft) [FrameBridgeResponse; FrameBridgeError; FrameBridgeStreamData; FrameBridgeStreamEnd].

(** ** Data *)

Record BridgeEnvelope : Type := mkEnvelope {
  be_Protocol : Z;      (* uint16 *)
  be_Kind : Z;          (* uint8 *)
  be_ContentType : Z;   (* uint8 *)
  be_Flags : Z;         (* uint8 *)
  be_CorrelationID : bytes;
  be_Method : bytes
}.

Definition Final (e : BridgeEnvelope) : bool := negb (Z.land (be_Flags e) BridgeFlagFinal =? 0).

Record SafetyLabel : Type := mkLabel {
  sl_Effect : Z;        (* uint8 *)
  sl_Scope : bytes
}.

Record BridgeFrame : Type := mkBridge {
  bf_Envelope : BridgeEnvelope;
  bf_Safety : option SafetyLabel;
  bf_Foreign : bytes
}.

Definition EffectiveEffect (f : BridgeFrame) : Z :=
  match bf_Safety f with
  | None => BridgeEffectDestructive
  | Some s => sl_Effect s
  end.

(** ** Encoding *)

Definition encodeEnvelopeValue (e : BridgeEnvelope) : option bytes :=
  if 255 <? blen (be_CorrelationID e) then None
  else if 255 <? blen (be_Method e) then None
  else Some (be_put 2 (be_Protocol e) ++
    [z2b (be_Kind e); z2b (be_ContentType e); z2b (be_Flags e); z2b (blen (be_CorrelationID e))] ++
    be_CorrelationID e ++ [z2b (blen (be_Method e))] ++ be_Method e).

Definition encodeSafetyValue (s : SafetyLabel) : option bytes :=
  if 255 <? blen (sl_Scope s) then None
  else Some ([z2b (sl_Effect s); z2b (blen (sl_Scope s))] ++ sl_Scope s).

Definition EncodeBridgeFrame (f : BridgeFrame) : option bytes :=
  ev ← encodeEnvelopeValue (bf_Envelope f);
  let out := TLV_Encode (mkTLV TLVBridgeEnvelope ev) [] in
  out ← match bf_Safety f with
        | None => Some out
        | Some s => sv ← encodeSafetyValue s; Some (TLV_Encode (mkTLV TLVSafetyLabel sv) out)
        end;
  Some (out ++ bf_Foreign f).

Definition EncodeBridgePayload (env : BridgeEnvelope) (safety : option SafetyLabel) (foreign : bytes) : option bytes :=
  EncodeBridgeFrame (mkBridge env safety foreign).

(** ** Decoding *)

Definition decodeEnvelopeValue (v : bytes) : result error BridgeEnvelope :=
  check (blen v <? 6) ErrBridgeMalformed;;
  let corrLen := Z.to_nat (at_ v 5) in
  check (blen v <? 6 + Z.of_nat corrLen + 1) ErrBridgeMalformed;;
  let corr := slice 6 (6 + corrLen) v in
  let methodLen := Z.to_nat (at_ v (6 + corrLen)) in
  let end_ := (6 + corrLen + 1 + methodLen)%nat in
  check (blen v <? Z.of_nat end_) ErrBridgeMalformed;;
  check (negb (blen v =? Z.of_nat end_)) ErrBridgeMalformed;;
  Ok (mkEnvelope (be_get (slice 0 2 v)) (at_ v 2) (at_ v 3) (at_ v 4) corr (slice (6 + corrLen + 1) end_ v)).

Definition decodeSafetyValue (v : bytes) : result error SafetyLabel :=
  check (blen v <? 2) ErrBridgeMalformed;;
  let scopeLen := Z.to_nat (at_ v 1) in
  let end_ := (2 + scopeLen)%nat in
  check (blen v <? Z.of_nat end_) ErrBridgeMalformed;;
  check (negb (blen v =? Z.of_nat end_)) ErrBridgeMalformed;;
  Ok (mkLabel (at_ v 0) (slice 2 end_ v)).

(** The optional label at the front of what follows the envelope, and the rest. *)
Definition decode_label (rest : bytes) : result error (option SafetyLabel * bytes) :=
  if (4 <=? blen rest) && (be_get (slice 0 2 rest) =? TLVSafetyLabel) then
    let sLen := be_get (slice 2 4 rest) in
    check (blen rest <? 4 + sLen) ErrBridgeMalformed;;
    let n := Z.to_nat (4 + sLen) in
    s ← decodeSafetyValue (slice 4 n rest);
    Ok (Some s, drop n rest)
  else Ok (None, rest).

(** The presence rule of the correlation id, by frame type. *)
Definition corr_absent (ft : Z) : bool := ft =? FrameBridgeNotify.

Definition ValidateBridgePayload (ft : Z) (payload : bytes) : result error BridgeFrame :=
  match BridgeKindForFrame ft with
  | None => Err ErrBridgeMalformed
  | Some wantKind =>
      check (blen payload <? 4) ErrBridgeMalformed;;
      let envType := be_get (slice 0 2 payload) in
      let envLen := be_get (slice 2 4 payload) in
      check (negb (envType =? TLVBridgeEnvelope)) ErrBridgeMalformed;;
      check (blen payload <? 4 + envLen) ErrBridgeMalformed;;
      let n := Z.to_nat (4 + envLen) in
      env ← decodeEnvelopeValue (slice 4 n payload);
      check (negb (be_Kind env =? wantKind)) ErrBridgeMalformed;;
      check (if corr_absent ft then negb (blen (be_CorrelationID env) =? 0)
             else blen (be_CorrelationID env) =? 0) ErrBridgeMalformed;;
      '(safety, rest) ← decode_label (drop n payload);
      Ok (mkBridge env safety rest)
  end.

Definition DecodeBridgeFrame (ft : Z) (payload : bytes) : result error BridgeFrame := ValidateBridgePayload ft payload.

Definition DecodeBridgeEnvelope (ft : Z) (payload : bytes) : result error BridgeEnvelope :=
  f ← ValidateBridgePayload ft payload;
  Ok (bf_Envelope f).

Definition CorrelateBridgeReply (request reply : BridgeEnvelope) : bool :=
  if (blen (be_CorrelationID request) =? 0) || (blen (be_CorrelationID reply) =? 0) then false
  else bool_decide (be_CorrelationID request = be_CorrelationID reply).

(** ** Transport errors *)

Record BridgeTransportError : Type := mkTransportError {
  bt_Code : Z;          (* uint8 *)
  bt_Message : bytes
}.

Definition EncodeBridgeTransportError (te : BridgeTransportError) : option bytes :=
  if 255 <? blen (bt_Message te) then None
  else Some ([z2b (bt_Code te); z2b (blen (bt_Message te))] ++ bt_Message te).

Definition DecodeBridgeTransportError (b : bytes) : result error BridgeTransportError :=
  check (blen b <? 2) ErrBridgeMalformed;;
  let end_ := (2 + Z.to_nat (at_ b 1))%nat in
  check (negb (blen b =? Z.of_nat end_)) ErrBridgeMalformed;;
  Ok (mkTransportError (at_ b 0) (slice 2 end_ b)).

Example bridge_example :
  let env := mkEnvelope 1 BridgeKindRequest 1 0 (str "id") (str "tools/call") in
  let f := mkBridge env (Some (mkLabel 1 (str "s"))) (str "{}") in
  exists b, EncodeBridgeFrame f = Some b /\ ValidateBridgePayload FrameBridgeRequest b = Ok f /\
    ValidateBridgePayload FrameBridgeResponse b = Err ErrBridgeMalformed.
Proof. eexists. by vm_compute. Qed.

(** ** Well-formed frames *)

Definition envelope_wf (e : BridgeEnvelope) : Prop :=
  is_u16 (be_Protocol e) /\ is_u8 (be_Kind e) /\ is_u8 (be_ContentType e) /\ is_u8 (be_Flags e) /\
  blen (be_CorrelationID e) <= 255 /\ blen (be_Method e) <= 255.

Definition label_wf (s : SafetyLabel) : Prop := is_u8 (sl_Effect s) /\ blen (sl_Scope s) <= 255.

(** Octets the decoder takes for the front of a label TLV. *)
Definition reads_as_label (rest : bytes) : Prop := 4 <= blen rest /\ be_get (slice 0 2 rest) = TLVSafetyLabel.

(** The frames a Bridge payload can carry unambiguously. *)
Record bridge_wf (ft : Z) (f : BridgeFrame) : Prop := {
  bw_kind : BridgeKindForFrame ft = Some (be_Kind (bf_Envelope f));
  bw_envelope : envelope_wf (bf_Envelope f);
  bw_corr : be_CorrelationID (bf_Envelope f) = [] <-> ft = FrameBridgeNotify;
  bw_label : match bf_Safety f with Some s => label_wf s | None => ~ reads_as_label (bf_Foreign f) end
}.

(** ** Counted strings *)

Lemma at_range b i : 0 <= at_ b i < 256.
Proof. apply b2z_range. Qed.

Lemma at_nth b i : (i < length b)%nat -> b !! i = Some (z2b (at_ b i)).
Proof.
  intros Hi. unfold at_. rewrite z2b_b2z. rewrite nth_lookup.
  destruct (b !! i) eqn:E; [done|]. apply lookup_ge_None in E. lia.
Qed.

(** A length octet at [i] and as many octets after it. *)
Lemma counted_split b i :
  (i < length b)%nat -> length b = (i + 1 + Z.to_nat (at_ b i))%nat ->
  drop i b = z2b (blen (slice (i + 1) (length b) b)) :: slice (i + 1) (length b) b.
Proof.
  intros Hi Hl. rewrite (drop_S b (z2b (at_ b i)) i) by (by apply at_nth).
  assert (slice (i + 1) (length b) b = drop (S i) b) as ->.
  { unfold slice. replace (i + 1)%nat with (S i) by lia. apply take_ge. rewrite length_drop. lia. }
  f_equal. f_equal. unfold blen. rewrite length_drop. pose proof (at_range b i). lia.
Qed.

Lemma at_app_cons (p s : bytes) x : at_ (p ++ x :: s) (length p) = b2z x.
Proof. unfold at_. by rewrite nth_middle. Qed.

Lemma octet_small n : 0 <= n <= 255 -> b2z (z2b n) = n.
Proof. intros. apply b2z_z2b_small. lia. Qed.

(** Both decoders of one octet and one counted string. *)
Lemma tagged_exact (v : bytes) (tag : Z) (s : bytes) :
  is_u8 tag -> blen s <= 255 -> v = [z2b tag; z2b (blen s)] ++ s ->
  blen v = 2 + blen s /\ at_ v 0 = tag /\ at_ v 1 = blen s /\ slice 2 (2 + Z.to_nat (at_ v 1)) v = s.
Proof.
  intros Ht Hs ->. pose proof (blen_nonneg s). assert (at_ ([z2b tag; z2b (blen s)] ++ s) 1 = blen s) as H1
    by (unfold at_; cbn [app nth]; by apply octet_small).
  rewrite H1. split; [rewrite blen_app; reflexivity|]. split; [unfold at_; cbn [app nth]; by apply b2z_z2b_small|].
  split; [done|]. unfold slice. cbn [app drop]. rewrite drop_0.
  rewrite take_ge; [done|]. unfold blen.
  lia.
Qed.

Lemma tagged_split (v : bytes) :
  2 <= blen v -> blen v = 2 + at_ v 1 ->
  v = [z2b (at_ v 0); z2b (blen (slice 2 (2 + Z.to_nat (at_ v 1)) v))] ++ slice 2 (2 + Z.to_nat (at_ v 1)) v /\
  is_u8 (at_ v 0) /\ blen (slice 2 (2 + Z.to_nat (at_ v 1)) v) <= 255.
Proof.
  intros Hl He. pose proof (at_range v 1). destruct v as [|a [|b v]]; [unfold blen in Hl; cbn [length] in Hl; lia..|].
  unfold at_ in *. cbn [nth] in *. rewrite !blen_cons in He.
  assert (slice 2 (2 + Z.to_nat (b2z b)) (a :: b :: v) = v) as ->
    by (unfold slice; cbn [drop]; rewrite drop_0; apply take_ge; unfold blen in He; lia).
  rewrite z2b_b2z. replace (blen v) with (b2z b) by lia. rewrite z2b_b2z. split; [done|].
  split; [apply b2z_range|lia].
Qed.

Lemma safety_exact v s : decodeSafetyValue v = Ok s <-> label_wf s /\ encodeSafetyValue s = Some v.
Proof.
  unfold decodeSafetyValue, encodeSafetyValue, label_wf. split.
  - intros Hd. inv_res Hd. cbn [sl_Effect sl_Scope]. pose proof (at_range v 1).
    destruct (tagged_split v) as (Hv & Ht & Hs); [lia|lia|].
    split; [done|]. rewrite (proj2 (Z.ltb_ge _ _)) by done. f_equal. symmetry. exact Hv.
  - intros [[Ht Hs] Hv]. rewrite (proj2 (Z.ltb_ge _ _)) in Hv by done. injection Hv as Hv.
    destruct (tagged_exact v (sl_Effect s) (sl_Scope s)) as (Hl & H0 & H1 & H2); [done|done|by symmetry|].
    pose proof (blen_nonneg (sl_Scope s)). rewrite H2, H0, H1, Hl.
    rewrite (proj2 (Z.ltb_ge _ 2)) by lia. rewrite (proj2 (Z.ltb_ge _ _)) by lia.
    rewrite (proj2 (Z.eqb_eq _ _)) by lia. by destruct s.
Qed.

Lemma transport_exact b te :
  DecodeBridgeTransportError b = Ok te <->
  (is_u8 (bt_Code te) /\ blen (bt_Message te) <= 255) /\ EncodeBridgeTransportError te = Some b.
Proof.
  unfold DecodeBridgeTransportError, EncodeBridgeTransportError. split.
  - intros Hd. inv_res Hd. cbn [bt_Code bt_Message]. pose proof (at_range b 1).
    destruct (tagged_split b) as (Hv & Ht & Hs); [lia|lia|].
    split; [done|]. rewrite (proj2 (Z.ltb_ge _ _)) by done. f_equal. symmetry. exact Hv.
  - intros [[Ht Hs] Hv]. rewrite (proj2 (Z.ltb_ge _ _)) in Hv by done. injection Hv as Hv.
    destruct (tagged_exact b (bt_Code te) (bt_Message te)) as (Hl & H0 & H1 & H2); [done|done|by symmetry|].
    pose proof (blen_nonneg (bt_Message te)). rewrite H2, H0, H1, Hl.
    rewrite (proj2 (Z.ltb_ge _ 2)) by lia. rewrite (proj2 (Z.eqb_eq _ _)) by lia. by destruct te.
Qed.

(** ** The envelope *)

Lemma envelope_exact v e : decodeEnvelopeValue v = Ok e <-> envelope_wf e /\ encodeEnvelopeValue e = Some v.
Proof.
  unfold decodeEnvelopeValue, encodeEnvelopeValue, envelope_wf. split.
  - intros Hd. inv_res Hd. cbn [be_Protocol be_Kind be_ContentType be_Flags be_CorrelationID be_Method].
    pose proof (at_range v 5) as H5. set (c := Z.to_nat (at_ v 5)) in *. pose proof (at_range v (6 + c)) as Hm.
    assert (length v = (6 + c + 1 + Z.to_nat (at_ v (6 + c)))%nat) as Hl by (unfold blen in *; lia).
    change (S (S (S (S (S (S c)))))) with (6 + c)%nat in *. change (S (S (S (S (S (S (c + 1))))))) with (6 + c + 1)%nat.
    change (S (S (S (S (S (S (c + 1 + Z.to_nat (at_ v (6 + c))))))))) with (6 + c + 1 + Z.to_nat (at_ v (6 + c)))%nat.
    pose proof (counted_split v (6 + c)) as Hmeth. rewrite <- Hl in *. specialize (Hmeth ltac:(unfold blen in *; lia) eq_refl).
    assert (length (slice 6 (6 + c) v) = c) as Hc by (rewrite length_slice; lia).
    assert (length (slice (6 + c + 1) (length v) v) = Z.to_nat (at_ v (6 + c))) as Hml by (rewrite length_slice; lia).
    assert (be_put 2 (be_get (slice 0 2 v)) = slice 0 2 v) as Hp by (apply be_put_get_eq; rewrite length_slice; lia).
    split.
    + split_and!; try apply at_range; [|unfold blen; lia|unfold blen; lia].
      apply (be_get_fixed _ 2). rewrite length_slice; lia.
    + rewrite !(proj2 (Z.ltb_ge 255 _)) by (unfold blen; lia). f_equal. rewrite Hp.
      cbn [app]. rewrite <- Hmeth. replace (blen (slice 6 (6 + c) v)) with (at_ v 5) by (unfold blen; lia).
      rewrite slice_app_cut by lia. clearbody c. clear - Hd0.
      do 6 (destruct v as [|? v]; [unfold blen in Hd0; cbn [length] in Hd0; lia|]). unfold at_, slice. cbn [nth drop take app]. by rewrite !z2b_b2z.
  - intros ((Hp & Hk & Hct & Hf & Hc & Hm) & He). rewrite !(proj2 (Z.ltb_ge 255 _)) in He by done. apply (inj Some) in He as Hv.
    pose proof (blen_nonneg (be_CorrelationID e)) as Hc0. pose proof (blen_nonneg (be_Method e)) as Hm0.
    set (corr := be_CorrelationID e) in *. set (meth := be_Method e) in *.
    assert (at_ v 5 = blen corr /\ at_ v 2 = be_Kind e /\ at_ v 3 = be_ContentType e /\ at_ v 4 = be_Flags e) as (H5 & H2 & H3 & H4).
    { subst v. unfold at_. cbn [be_put app nth]. split_and!; first [apply octet_small; lia | by apply b2z_z2b_small]. }
    assert (blen v = 7 + blen corr + blen meth) as Hl.
    { subst v. rewrite !blen_app, blen_be_put. change (blen [_; _; _; _]) with 4. change (blen [_]) with 1. lia. }
    assert (exists p : bytes, length p = (6 + length corr)%nat /\ v = p ++ z2b (blen meth) :: meth) as (p & Hpl & Hpv).
    { exists (be_put 2 (be_Protocol e) ++ [z2b (be_Kind e); z2b (be_ContentType e); z2b (be_Flags e); z2b (blen corr)] ++ corr).
      split; [rewrite !length_app, length_be_put; reflexivity|]. subst v. by rewrite <- !app_assoc. }
    assert (Z.to_nat (blen corr) = length corr) as Hcl by (unfold blen; lia).
    assert (at_ v (6 + length corr) = blen meth) as Hmm
      by (rewrite Hpv, <- Hpl, at_app_cons; apply octet_small; lia).
    rewrite H5, Hcl, Hmm. unfold blen in Hl.
    rewrite (proj2 (Z.ltb_ge _ 6)) by (unfold blen; lia). rewrite (proj2 (Z.ltb_ge _ (6 + _ + 1))) by (unfold blen; lia).
    rewrite (proj2 (Z.ltb_ge _ _)) by (unfold blen; lia). rewrite (proj2 (Z.eqb_eq _ _)) by (unfold blen; lia).
    cbn [negb check mbind result_bind]. rewrite H2, H3, H4.
    assert (slice 6 (6 + length corr) v = corr) as ->.
    { rewrite <- Hv. unfold slice. cbn [be_put app drop]. apply take_app_length'. lia. }
    assert (be_get (slice 0 2 v) = be_Protocol e) as ->.
    { rewrite <- Hv. change (slice 0 2 (be_put 2 (be_Protocol e) ++ _)) with (be_put 2 (be_Protocol e)). by apply be_get_put_small. }
    assert (slice (6 + length corr + 1) (6 + length corr + 1 + Z.to_nat (blen meth)) v = meth) as ->; [|by destruct e].
    rewrite slice_take, Hpv. replace (6 + length corr + 1)%nat with (length p + 1)%nat by lia.
    rewrite <- drop_drop, drop_app_length. cbn [drop]. apply take_ge. unfold blen. lia.
Qed.

(** ** Payloads *)

Lemma encode_tlv_TLV ty v dst : TLV_Encode (mkTLV ty v) dst = dst ++ encode_tlv (mkTLV ty v).
Proof. apply TLV_Encode_app. Qed.

Lemma encodeEnvelope_total e : envelope_wf e -> is_Some (encodeEnvelopeValue e).
Proof.
  intros (_ & _ & _ & _ & Hc & Hm). unfold encodeEnvelopeValue.
  rewrite !(proj2 (Z.ltb_ge 255 _)) by done. by eexists.
Qed.

(** A buffer long enough for the TLV its first four octets announce starts with it. *)
Lemma tlv_front b :
  let n := Z.to_nat (4 + be_get (slice 2 4 b)) in
  let t := mkTLV (be_get (slice 0 2 b)) (slice 4 n b) in
  4 <= blen b -> 4 + be_get (slice 2 4 b) <= blen b -> tlv_wf t /\ b = encode_tlv t ++ drop n b.
Proof.
  intros n t H4 Hn. destruct (front_cases b) as [(t' & rest & Ht & Hb)|[Hc|Hc]]; [|..|apply Z.ltb_lt in Hc; lia|apply Z.ltb_lt in Hc; lia].
  { intros ->. unfold blen in H4. cbn [length] in H4. lia. }
  destruct (decode_front t' rest Ht) as (H1 & H2 & H3 & H4'). rewrite <- Hb in *. subst n t.
  rewrite H1, H2, H3, H4'. by destruct t'.
Qed.

Lemma encodeSafety_short s sv : encodeSafetyValue s = Some sv -> blen sv <= 257.
Proof.
  unfold encodeSafetyValue. destruct (Z.ltb_spec 255 (blen (sl_Scope s))); [discriminate|]. intros [= <-].
  rewrite !blen_cons. lia.
Qed.

Lemma encodeEnvelope_short e ev : encodeEnvelopeValue e = Some ev -> blen ev <= 517.
Proof.
  unfold encodeEnvelopeValue. destruct (Z.ltb_spec 255 (blen (be_CorrelationID e))); [discriminate|].
  destruct (Z.ltb_spec 255 (blen (be_Method e))); [discriminate|]. intros [= <-].
  cbn [be_put app]. rewrite !blen_cons, blen_app, blen_cons. lia.
Qed.

(** What the optional label at the front of [rest] decodes to. *)
Lemma label_exact rest safety foreign :
  decode_label rest = Ok (safety, foreign) <->
  match safety with
  | None => ~ reads_as_label foreign /\ rest = foreign
  | Some s => label_wf s /\ exists sv, encodeSafetyValue s = Some sv /\ rest = encode_tlv (mkTLV TLVSafetyLabel sv) ++ foreign
  end.
Proof.
  unfold decode_label. split.
  - destruct ((4 <=? blen rest) && _) eqn:Hr; intros Hd.
    + bprop. inv_res Hd. destruct (tlv_front rest) as [Ht Hb]; [lia|lia|].
      match goal with H : decodeSafetyValue _ = Ok _ |- _ => apply safety_exact in H as [Hw Hs] end.
      split; [done|]. eexists. split; [done|]. by rewrite H0 in Hb.
    + injection Hd as <- <-. split; [|done]. intros [H4 Ht]. rewrite Ht in Hr.
      apply andb_false_iff in Hr as [Hr|Hr]; bprop; [lia|done].
  - destruct safety as [s|]; intros H.
    + destruct H as (Hw & sv & Hs & ->). pose proof (encodeSafety_short s sv Hs). pose proof (blen_nonneg sv).
      destruct (decode_front (mkTLV TLVSafetyLabel sv) foreign) as (H1 & H2 & H3 & H4); [split; [done|cbn [TLVValue]; lia]|].
      cbn [TLVType TLVValue] in *. rewrite H1, H2, H3, H4. pose proof (blen_nonneg foreign).
      rewrite blen_app, blen_encode_tlv. cbn [TLVValue].
      rewrite (proj2 (Z.leb_le 4 _)) by lia. rewrite Z.eqb_refl. cbn [andb].
      rewrite (proj2 (Z.ltb_ge _ _)) by lia. cbn [check mbind result_bind].
      by rewrite (proj2 (safety_exact sv s) (conj Hw Hs)).
    + destruct H as [Hn ->]. destruct ((4 <=? blen foreign) && _) eqn:Hr; [|done]. bprop. by destruct Hn.
Qed.

(** The payload of a frame, from the parts the decoder reads. *)
Lemma payload_split f b :
  EncodeBridgeFrame f = Some b <->
  exists ev rest, encodeEnvelopeValue (bf_Envelope f) = Some ev /\ b = encode_tlv (mkTLV TLVBridgeEnvelope ev) ++ rest /\
    match bf_Safety f with
    | None => rest = bf_Foreign f
    | Some s => exists sv, encodeSafetyValue s = Some sv /\ rest = encode_tlv (mkTLV TLVSafetyLabel sv) ++ bf_Foreign f
    end.
Proof.
  unfold EncodeBridgeFrame. rewrite bind_Some. split.
  - intros (ev & He & H). rewrite bind_Some in H. destruct H as (out & Ho & [= <-]).
    destruct (bf_Safety f) as [s|].
    + apply bind_Some in Ho as (sv & Hs & [= <-]). rewrite !encode_tlv_TLV, app_nil_l, <- app_assoc.
      eexists _, _. split; [exact He|]. split; [done|]. by exists sv.
    + injection Ho as <-. rewrite encode_tlv_TLV, app_nil_l. eexists _, _. by split.
  - intros (ev & rest & He & -> & H). exists ev. split; [done|]. destruct (bf_Safety f) as [s|].
    + destruct H as (sv & Hs & ->). rewrite Hs. cbn [mbind option_bind].
      by rewrite !encode_tlv_TLV, app_nil_l, <- app_assoc.
    + subst rest. cbn [mbind option_bind]. by rewrite encode_tlv_TLV, app_nil_l.
Qed.

Lemma corr_rule ft (c : bytes) :
  (if corr_absent ft then negb (blen c =? 0) else blen c =? 0) = false <-> (c = [] <-> ft = FrameBridgeNotify).
Proof.
  unfold corr_absent. assert (blen c = 0 <-> c = []) as Hc.
  { destruct c; [done|]. rewrite blen_cons. pose proof (blen_nonneg c). split; [lia|done]. }
  destruct (Z.eqb_spec ft FrameBridgeNotify) as [->|Hn].
  - rewrite negb_false_iff, Z.eqb_eq. tauto.
  - rewrite Z.eqb_neq. tauto.
Qed.

Lemma bridge_accepted (ft : Z) (b : bytes) (f : BridgeFrame) :
  ValidateBridgePayload ft b = Ok f -> bridge_wf ft f /\ EncodeBridgeFrame f = Some b.
Proof.
  unfold ValidateBridgePayload. rewrite payload_split.
  destruct (BridgeKindForFrame ft) as [k|] eqn:Hk; [|discriminate]. intros Hd. inv_res Hd.
  destruct (tlv_front b) as [Ht Hb]; [lia|lia|].
  repeat match goal with
  | H : decodeEnvelopeValue _ = Ok _ |- _ => apply envelope_exact in H as [Hw He]
  | H : (if corr_absent ft then _ else _) = false |- _ => apply corr_rule in H
  | H : be_get (slice 0 2 b) = _ |- _ => rewrite H in Hb; clear H
  end.
  match goal with H : (let (_, _) := ?p in _) = Ok _ |- _ => destruct p as [safety rest]; injection H as <- end.
  match goal with H : decode_label _ = Ok _ |- _ => apply label_exact in H as Hlab end.
  split.
  + constructor; cbn [bf_Envelope bf_Safety bf_Foreign]; [congruence|done..|]. by destruct safety as [s|]; destruct Hlab.
  + eexists _, _. split; [exact He|]. split; [exact Hb|]. cbn [bf_Safety bf_Foreign]. by destruct safety; destruct Hlab.
Qed.

Lemma bridge_decodes (ft : Z) (b : bytes) (f : BridgeFrame) :
  bridge_wf ft f -> EncodeBridgeFrame f = Some b -> ValidateBridgePayload ft b = Ok f.
Proof.
  unfold ValidateBridgePayload. rewrite payload_split.
  intros [Hk Hw Hc Hl] (ev & rest & He & -> & Hr). rewrite Hk. pose proof (encodeEnvelope_short _ _ He).
  destruct f as [env safety foreign]. cbn [bf_Envelope bf_Safety bf_Foreign] in *.
  destruct (decode_front (mkTLV TLVBridgeEnvelope ev) rest) as (H1 & H2 & H3 & H4); [split; [done|cbn [TLVValue]; lia]|].
  cbn [TLVType TLVValue] in *. rewrite H1, H2, H3, H4. pose proof (blen_nonneg rest). pose proof (blen_nonneg ev).
  rewrite blen_app, blen_encode_tlv. cbn [TLVValue]. rewrite !(proj2 (Z.ltb_ge _ _)) by lia.
  rewrite Z.eqb_refl. cbn [negb check mbind result_bind].
  rewrite (proj2 (envelope_exact ev env) (conj Hw He)). cbn [mbind result_bind]. rewrite Z.eqb_refl.
  rewrite (proj2 (corr_rule ft _) Hc). cbn [negb check mbind result_bind].
  rewrite (proj2 (label_exact rest safety foreign)); [done|]. by destruct safety.
Qed.

(** C34: a Bridge payload is accepted for a frame type exactly when it is the encoding of
    the frame the decoder returns and that frame is well formed for the type: its kind is
    the one the type demands, its correlation id is empty exactly on a notification, its
    fields fit their length octets, and, when it has no safety label, its foreign message
    does not begin with what reads as one.  So decoding and encoding are inverse on the
    well-formed frames, and every other payload is refused. *)
Theorem bridge_exact (ft : Z) (b : bytes) (f : BridgeFrame) :
  ValidateBridgePayload ft b = Ok f <-> bridge_wf ft f /\ EncodeBridgeFrame f = Some b.
Proof. split; [apply bridge_accepted|]. intros []. by apply bridge_decodes. Qed.

(** The fields a Bridge notification is witnessed with. *)
Definition notify_env : BridgeEnvelope := mkEnvelope 1 BridgeKindNotification 1 0 [] (str "note").

(** A foreign message is not always carried verbatim: a frame with no safety label
    whose foreign message begins with the octets of a label TLV encodes to a payload that
    decodes to a frame with that label and a shorter foreign message.  The receiver's
    effect is then the one written inside the foreign message, where the absence of a
    label asks for the destructive class. *)
Theorem bridge_label_confusion (ft : Z) (env : BridgeEnvelope) (s : SafetyLabel) (sv foreign : bytes) :
  bridge_wf ft (mkBridge env (Some s) foreign) -> encodeSafetyValue s = Some sv ->
  let sent := mkBridge env None (encode_tlv (mkTLV TLVSafetyLabel sv) ++ foreign) in
  EffectiveEffect sent = BridgeEffectDestructive /\
  exists b, EncodeBridgeFrame sent = Some b /\
    exists f, ValidateBridgePayload ft b = Ok f /\ EffectiveEffect f = sl_Effect s /\ bf_Foreign f = foreign /\
      bf_Foreign f <> bf_Foreign sent.
Proof.
  intros Hw Hs sent. split; [done|]. destruct (encodeEnvelope_total env (bw_envelope _ _ Hw)) as [ev Hev].
  exists (encode_tlv (mkTLV TLVBridgeEnvelope ev) ++ encode_tlv (mkTLV TLVSafetyLabel sv) ++ foreign). split.
  { apply payload_split. by exists ev, (encode_tlv (mkTLV TLVSafetyLabel sv) ++ foreign). }
  exists (mkBridge env (Some s) foreign). split_and!; [|done..|].
  - apply bridge_decodes; [exact Hw|]. apply payload_split.
    exists ev, (encode_tlv (mkTLV TLVSafetyLabel sv) ++ foreign). split_and!; [done..|]. by exists sv.
  - cbn [bf_Foreign sent]. intros Hf. apply (f_equal blen) in Hf. rewrite blen_app, blen_encode_tlv in Hf.
    pose proof (blen_nonneg (TLVValue (mkTLV TLVSafetyLabel sv))). lia.
Qed.

Lemma bridge_label_confusion_witness :
  exists b, EncodeBridgeFrame (mkBridge notify_env None (encode_tlv (mkTLV TLVSafetyLabel [x00; x00]) ++ str "{}")) = Some b /\
    exists f, ValidateBridgePayload FrameBridgeNotify b = Ok f /\ EffectiveEffect f = BridgeEffectReadOnly.
Proof.
  destruct (bridge_label_confusion FrameBridgeNotify notify_env (mkLabel BridgeEffectReadOnly []) [x00; x00] (str "{}"))
    as (_ & b & Hb & f & Hf & He & _); [|reflexivity|by exists b; split; [|exists f]].
  constructor; [reflexivity|repeat split; vm_compute; congruence|done|repeat split; vm_compute; congruence].
Defined.
