(* ===== verification/Keyformat.v ===== *)
(** * Stored keys (keyformat/cbor.go, keyformat/keyformat.go, keyformat/typed.go)

    The versioned key record and its CBOR: the forward-only reader, the five-field map,
    the size registry, [Encode], [Decode] and the typed accessors.  [Decode] accepts
    exactly the canonical octets of a record that passes its checks, where the version and
    the role are compared after they are truncated to their Go widths. *)

From S2P Require Import Prelude Registry Cbor.
From Stdlib Require Import Strings.Byte.
Open Scope Z_scope.

Inductive kerror : Type :=
(* keyformat.go *)
| ErrUnknownFormatVersion | ErrNoAcceptedGenerations | ErrGenerationNotAccepted | ErrUnknownAlgorithm
| ErrComponentCount | ErrComponentSize | ErrRoleMismatch | ErrGroupNotSupported
(* cbor.go *)
| KCBORTruncated | KCBORTrailing | KCBORNotShortest | KCBORIndefinite | KCBORWrongKeyOrder
(* errors with no sentinel *)
| KMajor | KAdditionalInfo | KEntryCount | KUnknownKey.

#[export] Instance kerror_eq_dec : EqDecision kerror.
Proof. solve_decision. Defined.

(** ** CBOR items *)

Definition cborMajorUint : Z := 0.
Definition cborMajorBytes : Z := 2.
Definition cborMajorText : Z := 3.
Definition cborMajorArray : Z := 4.
Definition cborMajorMap : Z := 5.

Definition encodeUint (major v : Z) : bytes :=
  if v <? 24 then [z2b (Z.lor (u8 (Z.shiftl major 5)) (u8 v))]
  else if v <=? 0xff then [z2b (Z.lor (u8 (Z.shiftl major 5)) 24); z2b v]
  else if v <=? 0xffff then z2b (Z.lor (u8 (Z.shiftl major 5)) 25) :: be_put 2 (u16 v)
  else if v <=? 0xffffffff then z2b (Z.lor (u8 (Z.shiftl major 5)) 26) :: be_put 4 (u32 v)
  else z2b (Z.lor (u8 (Z.shiftl major 5)) 27) :: be_put 8 v.

Definition encodeBytesItem (b : bytes) : bytes := encodeUint cborMajorBytes (blen b) ++ b.
Definition encodeTextItem (s : bytes) : bytes := encodeUint cborMajorText (blen s) ++ s.

(** ** The reader: a cursor over a buffer *)

Record cborReader : Type := mkReader { rd_buf : bytes; rd_pos : nat }.

(** A reading operation returns its value and the advanced cursor. *)
Definition reading (A : Type) : Type := cborReader -> result kerror (A * cborReader).

Definition rd_advance (d : cborReader) (n : nat) : cborReader := mkReader (rd_buf d) (rd_pos d + n).
Definition remaining (d : cborReader) : Z := blen (rd_buf d) - Z.of_nat (rd_pos d).

(** The argument of [k] octets at the cursor, refused when at most [floor]. *)
Definition read_wide (k : nat) (floor : Z) : reading Z := fun d =>
  check (blen (rd_buf d) <? Z.of_nat (rd_pos d + k)) KCBORTruncated;;
  let v := be_get (slice (rd_pos d) (rd_pos d + k) (rd_buf d)) in
  check (v <=? floor) KCBORNotShortest;;
  Ok (v, rd_advance d k).

Definition readHead (wantMajor : Z) : reading Z := fun d =>
  check (blen (rd_buf d) <=? Z.of_nat (rd_pos d)) KCBORTruncated;;
  let ib := at_ (rd_buf d) (rd_pos d) in
  let ai := Z.land ib 0x1f in
  check (negb (Z.shiftr ib 5 =? wantMajor)) KMajor;;
  let d := rd_advance d 1 in
  if ai <? 24 then Ok (ai, d)
  else if ai =? 24 then read_wide 1 23 d
  else if ai =? 25 then read_wide 2 0xff d
  else if ai =? 26 then read_wide 4 0xffff d
  else if ai =? 27 then read_wide 8 0xffffffff d
  else if ai =? 31 then Err KCBORIndefinite
  else Err KAdditionalInfo.

Definition readUint : reading Z := readHead cborMajorUint.
Definition readArrayLen : reading Z := readHead cborMajorArray.
Definition readMapLen : reading Z := readHead cborMajorMap.

(** [readBytes] and [readText] differ only in the major type. *)
Definition read_string (major : Z) : reading bytes := fun d =>
  '(n, d) ← readHead major d;
  check (remaining d <? n) KCBORTruncated;;
  let k := Z.to_nat n in
  Ok (slice (rd_pos d) (rd_pos d + k) (rd_buf d), rd_advance d k).

Definition readBytes : reading bytes := read_string cborMajorBytes.
Definition readText : reading bytes := read_string cborMajorText.

(** ** Records *)

Definition CurrentFormatVersion : Z := 1.
Definition RoleKEMPublic : Z := 1.
Definition RoleKEMPrivate : Z := 2.
Definition RoleSigPublic : Z := 3.
Definition RoleSigPrivate : Z := 4.

Record KeyRecord : Type := mkRecord {
  kr_FormatVersion : Z;   (* uint16 *)
  kr_Generation : bytes;
  kr_Role : Z;            (* uint8 *)
  kr_Algorithm : Z;       (* uint64 *)
  kr_Components : list bytes
}.

Definition registry : list (bytes * list (Z * list (Z * list Z))) :=
  [ (ALPN,
     [ (RoleKEMPrivate, [(KEMX25519MLKEM768, [64; 32])]);
       (RoleKEMPublic, [(KEMX25519MLKEM768, [1184; 32])]);
       (RoleSigPrivate, [(SigEd25519, [64]); (SigMLDSA44, [2560]); (SigMLDSA65, [4032]); (SigMLDSA87, [4896])]);
       (RoleSigPublic, [(SigEd25519, [32]); (SigMLDSA44, [1312]); (SigMLDSA65, [1952]); (SigMLDSA87, [2592])]) ]) ].

(** A Go map read: the value of the key, if present. *)
Definition assoc {K V} `{EqDecision K} (m : list (K * V)) (k : K) : option V :=
  snd <$> find (fun e => bool_decide (e.1 = k)) m.

Definition refusedKEMGroup (rec : KeyRecord) : bool :=
  ((kr_Role rec =? RoleKEMPrivate) || (kr_Role rec =? RoleKEMPublic)) && (kr_Algorithm rec =? KEMSecP384r1MLKEM1024).

Fixpoint check_sizes (sizes : list Z) (comps : list bytes) : result kerror unit :=
  match sizes, comps with
  | want :: sizes, c :: comps => check (negb (blen c =? want)) ErrComponentSize;; check_sizes sizes comps
  | _, _ => Ok tt
  end.

Definition validateAgainstRegistry (rec : KeyRecord) : result kerror unit :=
  check (refusedKEMGroup rec) ErrGroupNotSupported;;
  match assoc registry (kr_Generation rec) with
  | None => Err ErrUnknownAlgorithm
  | Some genReg =>
      match assoc genReg (kr_Role rec) with
      | None => Err ErrUnknownAlgorithm
      | Some roleReg =>
          match assoc roleReg (kr_Algorithm rec) with
          | None => Err ErrUnknownAlgorithm
          | Some sizes =>
              check (negb (blen (kr_Components rec) =? blen sizes)) ErrComponentCount;;
              check_sizes sizes (kr_Components rec)
          end
      end
  end.

Definition marshalRecord (rec : KeyRecord) : bytes :=
  encodeUint cborMajorMap 5 ++
  encodeUint cborMajorUint 1 ++ encodeUint cborMajorUint (kr_FormatVersion rec) ++
  encodeUint cborMajorUint 2 ++ encodeTextItem (kr_Generation rec) ++
  encodeUint cborMajorUint 3 ++ encodeUint cborMajorUint (kr_Role rec) ++
  encodeUint cborMajorUint 4 ++ encodeUint cborMajorUint (kr_Algorithm rec) ++
  encodeUint cborMajorUint 5 ++ encodeUint cborMajorArray (blen (kr_Components rec)) ++
  concat (map encodeBytesItem (kr_Components rec)).

Fixpoint read_components (alen : nat) : reading (list bytes) := fun d =>
  match alen with
  | O => Ok ([], d)
  | S alen =>
      '(b, d) ← readBytes d;
      '(bs, d) ← read_components alen d;
      Ok (b :: bs, d)
  end.

(** The value under [key] read into the record. *)
Definition read_field (key : Z) (rec : KeyRecord) : reading KeyRecord := fun d =>
  if key =? 1 then
    '(v, d) ← readUint d;
    Ok (mkRecord (u16 v) (kr_Generation rec) (kr_Role rec) (kr_Algorithm rec) (kr_Components rec), d)
  else if key =? 2 then
    '(s, d) ← readText d;
    Ok (mkRecord (kr_FormatVersion rec) s (kr_Role rec) (kr_Algorithm rec) (kr_Components rec), d)
  else if key =? 3 then
    '(v, d) ← readUint d;
    Ok (mkRecord (kr_FormatVersion rec) (kr_Generation rec) (u8 v) (kr_Algorithm rec) (kr_Components rec), d)
  else if key =? 4 then
    '(v, d) ← readUint d;
    Ok (mkRecord (kr_FormatVersion rec) (kr_Generation rec) (kr_Role rec) v (kr_Components rec), d)
  else if key =? 5 then
    '(alen, d) ← readArrayLen d;
    check (remaining d <? alen) KCBORTruncated;;
    '(comps, d) ← read_components (Z.to_nat alen) d;
    Ok (mkRecord (kr_FormatVersion rec) (kr_Generation rec) (kr_Role rec) (kr_Algorithm rec) comps, d)
  else Err KUnknownKey.

(** The field loop, with [count] entries left; [seen] holds the keys read and its head is
    the last one. *)
Fixpoint read_fields (count : nat) (seen : list Z) (rec : KeyRecord) : reading KeyRecord := fun d =>
  match count with
  | O => Ok (rec, d)
  | S count =>
      '(key, d) ← readUint d;
      check (match seen with [] => false | lastKey :: _ => key <=? lastKey end) KCBORWrongKeyOrder;;
      check (existsb (Z.eqb key) seen) KCBORWrongKeyOrder;;
      '(rec, d) ← read_field key rec d;
      read_fields count (key :: seen) rec d
  end.

Definition zeroRecord : KeyRecord := mkRecord 0 [] 0 0 [].

Definition unmarshalRecord (data : bytes) : result kerror KeyRecord :=
  '(n, d) ← readMapLen (mkReader data 0);
  check (negb (n =? 5)) KEntryCount;;
  '(rec, d) ← read_fields (Z.to_nat n) [] zeroRecord d;
  check (negb (Z.of_nat (rd_pos d) =? blen (rd_buf d))) KCBORTrailing;;
  Ok rec.

Definition Encode (rec : KeyRecord) : result kerror bytes :=
  check (negb (kr_FormatVersion rec =? CurrentFormatVersion)) ErrUnknownFormatVersion;;
  check (negb (bool_decide (kr_Generation rec = ALPN))) ErrGenerationNotAccepted;;
  validateAgainstRegistry rec;;
  Ok (marshalRecord rec).

Definition Decode (data : bytes) (acceptedGenerations : list bytes) : result kerror KeyRecord :=
  check (blen acceptedGenerations =? 0) ErrNoAcceptedGenerations;;
  rec ← unmarshalRecord data;
  check (negb (kr_FormatVersion rec =? CurrentFormatVersion)) ErrUnknownFormatVersion;;
  let accepted := existsb (fun g => bool_decide (g = kr_Generation rec)) acceptedGenerations in
  check (negb accepted) ErrGenerationNotAccepted;;
  check (refusedKEMGroup rec) ErrGroupNotSupported;;
  (if bool_decide (kr_Generation rec = ALPN) then validateAgainstRegistry rec else Ok tt);;
  Ok rec.

(** ** Typed accessors *)

Definition EncodeKEMPrivate (group : Z) (mlkemSeed classicalPriv : bytes) : result kerror bytes :=
  Encode (mkRecord CurrentFormatVersion ALPN RoleKEMPrivate group [mlkemSeed; classicalPriv]).
Definition EncodeKEMPublic (group : Z) (mlkemEncap classicalPub : bytes) : result kerror bytes :=
  Encode (mkRecord CurrentFormatVersion ALPN RoleKEMPublic group [mlkemEncap; classicalPub]).
Definition EncodeSigPrivate (alg : Z) (raw : bytes) : result kerror bytes :=
  Encode (mkRecord CurrentFormatVersion ALPN RoleSigPrivate alg [raw]).
Definition EncodeSigPublic (alg : Z) (raw : bytes) : result kerror bytes :=
  Encode (mkRecord CurrentFormatVersion ALPN RoleSigPublic alg [raw]).

(** [npamp.KEMID(rec.Algorithm)] and [npamp.SigID(rec.Algorithm)] convert to 16 bits. *)
Definition decode_pair (role : Z) (data : bytes) (gens : list bytes) : result kerror (Z * bytes * bytes) :=
  rec ← Decode data gens;
  check (negb (kr_Role rec =? role)) ErrRoleMismatch;;
  match kr_Components rec with
  | [a; b] => Ok (u16 (kr_Algorithm rec), a, b)
  | _ => Err ErrComponentCount
  end.

Definition decode_single (role : Z) (data : bytes) (gens : list bytes) : result kerror (Z * bytes) :=
  rec ← Decode data gens;
  check (negb (kr_Role rec =? role)) ErrRoleMismatch;;
  match kr_Components rec with
  | [a] => Ok (u16 (kr_Algorithm rec), a)
  | _ => Err ErrComponentCount
  end.

Definition DecodeKEMPrivate := decode_pair RoleKEMPrivate.
Definition DecodeKEMPublic := decode_pair RoleKEMPublic.
Definition DecodeSigPrivate := decode_single RoleSigPrivate.
Definition DecodeSigPublic := decode_single RoleSigPublic.

Example key_example :
  EncodeSigPublic SigEd25519 (replicate 32 x07) = Ok (marshalRecord (mkRecord 1 ALPN 3 SigEd25519 [replicate 32 x07])) /\
  DecodeSigPublic (marshalRecord (mkRecord 1 ALPN 3 SigEd25519 [replicate 32 x07])) [ALPN] = Ok (SigEd25519, replicate 32 x07) /\
  DecodeSigPrivate (marshalRecord (mkRecord 1 ALPN 3 SigEd25519 [replicate 32 x07])) [ALPN] = Err ErrRoleMismatch /\
  DecodeSigPublic (marshalRecord (mkRecord 1 ALPN 3 SigEd25519 [replicate 32 x07])) [str "n-pamp/2"] = Err ErrGenerationNotAccepted /\
  EncodeKEMPublic KEMSecP384r1MLKEM1024 [] [] = Err ErrGroupNotSupported.
Proof. by vm_compute. Qed.

(** Octets with format_version 65537 and role 259 decode as the version 1 record of role 3. *)
Example key_alias :
  let b := marshalRecord (mkRecord 65537 ALPN 259 SigEd25519 [replicate 32 x07]) in
  DecodeSigPublic b [ALPN] = Ok (SigEd25519, replicate 32 x07) /\ Encode (mkRecord 65537 ALPN 259 SigEd25519 [replicate 32 x07]) = Err ErrUnknownFormatVersion.
Proof. by vm_compute. Qed.

(** Under another accepted generation an algorithm that is the refused group modulo 2^16 is
    returned as that group. *)
Example key_group_bypass :
  DecodeKEMPrivate (marshalRecord (mkRecord 1 (str "old") RoleKEMPrivate (2 ^ 16 + KEMSecP384r1MLKEM1024) [str "a"; str "b"])) [str "old"]
  = Ok (KEMSecP384r1MLKEM1024, str "a", str "b").
Proof. by vm_compute. Qed.

(** ** Consumed octets *)

Definition rest_of (d : cborReader) : bytes := drop (rd_pos d) (rd_buf d).

(** [d'] is [d] moved past the octets [w], which are the next ones. *)
Definition consumes (d : cborReader) (w : bytes) (d' : cborReader) : Prop :=
  d' = rd_advance d (length w) /\ exists tl, rest_of d = w ++ tl.

Lemma advance_advance d m n : rd_advance (rd_advance d m) n = rd_advance d (m + n).
Proof. unfold rd_advance. cbn [rd_buf rd_pos]. f_equal. lia. Qed.

Lemma rest_advance d n : rest_of (rd_advance d n) = drop n (rest_of d).
Proof. unfold rest_of, rd_advance. cbn [rd_buf rd_pos]. by rewrite drop_drop. Qed.

Lemma consumes_nil d d' : consumes d [] d' <-> d' = d.
Proof.
  unfold consumes, rd_advance. cbn [length]. rewrite Nat.add_0_r. destruct d as [buf pos]. cbn [rd_buf rd_pos]. split.
  - by intros [-> _].
  - intros ->. split; [done|]. by eexists.
Qed.

Lemma consumes_app d w1 w2 d2 :
  consumes d (w1 ++ w2) d2 <-> exists d1, consumes d w1 d1 /\ consumes d1 w2 d2.
Proof.
  unfold consumes. split.
  - intros [-> [tl Ht]]. exists (rd_advance d (length w1)). rewrite advance_advance, rest_advance, Ht, length_app.
    rewrite <- app_assoc, drop_app_length. split; split; [done|by eexists|done|by eexists].
  - intros (d1 & [-> [tl1 H1]] & -> & [tl2 H2]). rewrite rest_advance, H1, drop_app_length in H2.
    rewrite advance_advance, length_app. split; [done|]. exists tl2. by rewrite H1, H2, app_assoc.
Qed.

Lemma consumes_remaining d w d' : w <> [] -> consumes d w d' -> remaining d' = blen (rest_of d').
Proof.
  intros Hw [-> [tl Ht]]. rewrite rest_advance, Ht, drop_app_length. unfold remaining, rd_advance, rest_of, blen in *.
  cbn [rd_buf rd_pos]. apply (f_equal length) in Ht. rewrite length_drop, length_app in Ht.
  destruct w; [done|]. cbn [length] in *. lia.
Qed.

Lemma consumes_blen d w d' : consumes d w d' -> blen w <= blen (rest_of d).
Proof. intros [_ [tl ->]]. rewrite blen_app. pose proof (blen_nonneg tl). lia. Qed.

Lemma and_True_l' (P Q : Prop) : P -> (P /\ Q <-> Q).
Proof. tauto. Qed.

(** ** Heads *)

Lemma encodeUint_head m v : 0 <= m < 8 -> 0 <= v < 2 ^ 64 -> encodeUint m v = encodeHead m v.
Proof.
  intros Hm Hv. unfold encodeUint, encodeHead.
  assert (u8 (Z.shiftl m 5) = Z.shiftl m 5) as ->.
  { unfold u8. apply Z.mod_small. rewrite Z.shiftl_mul_pow2 by lia. lia. }
  change (Z.shiftl 1 8) with 256. change (Z.shiftl 1 16) with 65536. change (Z.shiftl 1 32) with 4294967296.
  destruct (Z.ltb_spec v 24); [by unfold u8; rewrite Z.mod_small by lia|].
  destruct (Z.leb_spec v 0xff), (Z.ltb_spec v 256); try lia; [done|].
  destruct (Z.leb_spec v 0xffff), (Z.ltb_spec v 65536); try lia; [by unfold u16; rewrite Z.mod_small by lia|].
  destruct (Z.leb_spec v 0xffffffff), (Z.ltb_spec v 4294967296); try lia; [by unfold u32; rewrite Z.mod_small by lia|done].
Qed.

(** The octets at the cursor, seen from the octets left. *)
Lemma rest_cons d x tl :
  rest_of d = x :: tl -> (rd_pos d < length (rd_buf d))%nat /\ at_ (rd_buf d) (rd_pos d) = b2z x /\
  forall k, slice (rd_pos d + 1) (rd_pos d + 1 + k) (rd_buf d) = slice 1 (1 + k) (x :: tl).
Proof.
  unfold rest_of. intros Hr. assert (rd_pos d < length (rd_buf d))%nat as Hlt.
  { apply (f_equal length) in Hr. rewrite length_drop in Hr. cbn [length] in Hr. lia. }
  split; [done|]. split.
  - unfold at_. rewrite <- (take_drop (rd_pos d) (rd_buf d)) at 1. rewrite Hr.
    rewrite app_nth2 by (rewrite length_take; lia). rewrite length_take, Nat.min_l by lia. by rewrite Nat.sub_diag.
  - intros k. rewrite !slice_take, <- Hr, drop_drop. done.
Qed.

(** Both readers of a wide argument, from the octets left. *)
Lemma read_wide_iff d x tl k floor v d' :
  rest_of d = x :: tl ->
  read_wide k floor (rd_advance d 1) = Ok (v, d') <->
  exists n, (check (blen (x :: tl) <? 1 + Z.of_nat k) Errors.errCBORTruncated;;
             check (be_get (slice 1 (1 + k) (x :: tl)) <? floor + 1) Errors.errCBORNotShortest;;
             Ok (be_get (slice 1 (1 + k) (x :: tl)), (1 + k)%nat)) = Ok (v, n) /\ d' = rd_advance d n.
Proof.
  intros Hr. destruct (rest_cons d x tl Hr) as (Hp & _ & Hsl).
  assert (blen (rd_buf d) = Z.of_nat (rd_pos d) + blen (x :: tl)) as Hlen.
  { rewrite <- Hr. unfold rest_of, blen. rewrite length_drop. lia. }
  unfold read_wide. change (rd_buf (rd_advance d 1)) with (rd_buf d). change (rd_pos (rd_advance d 1)) with (rd_pos d + 1)%nat.
  rewrite Hsl, Hlen.
  destruct (Z.ltb_spec (Z.of_nat (rd_pos d) + blen (x :: tl)) (Z.of_nat (rd_pos d + 1 + k))),
    (Z.ltb_spec (blen (x :: tl)) (1 + Z.of_nat k)); try lia; [by split; [|intros (? & ? & _)]|].
  cbn [check mbind result_bind].
  destruct (Z.leb_spec (be_get (slice 1 (1 + k) (x :: tl))) floor),
    (Z.ltb_spec (be_get (slice 1 (1 + k) (x :: tl))) (floor + 1)); try lia; [by split; [|intros (? & ? & _)]|].
  cbn [check mbind result_bind]. rewrite advance_advance. split.
  - intros [= <- <-]. by exists (1 + k)%nat.
  - by intros (n & [= <- <-] & ->).
Qed.

Lemma readHead_arg m d x tl v d' :
  rest_of d = x :: tl ->
  readHead m d = Ok (v, d') <->
  Z.shiftr (b2z x) 5 = m /\ exists n, decodeArg (Z.land (b2z x) 0x1f) (x :: tl) = Ok (v, n) /\ d' = rd_advance d n.
Proof.
  intros Hr. destruct (rest_cons d x tl Hr) as (Hp & Hat & _). unfold readHead.
  rewrite (proj2 (Z.leb_gt _ _)) by (unfold blen; lia). rewrite Hat. cbn [check mbind result_bind].
  destruct (Z.eqb_spec (Z.shiftr (b2z x) 5) m) as [Hm|Hm]; [|by split; [discriminate|intros []]].
  cbn [negb check mbind result_bind]. rewrite and_True_l' by done. set (ai := Z.land (b2z x) 0x1f).
  destruct (Z.ltb_spec ai 24).
  { unfold decodeArg. rewrite (proj2 (Z.ltb_lt ai 24)) by done. split; [intros [= <- <-]; by exists 1%nat|].
    by intros (n & [= <- <-] & ->). }
  destruct (Z.eqb_spec ai 24) as [->|]; [rewrite (decodeArg_wide 24 1 24) by (unfold arg_class; auto 10); by apply read_wide_iff|].
  destruct (Z.eqb_spec ai 25) as [->|]; [rewrite (decodeArg_wide 25 2 (2 ^ 8)) by (unfold arg_class; auto 10); by apply read_wide_iff|].
  destruct (Z.eqb_spec ai 26) as [->|]; [rewrite (decodeArg_wide 26 4 (2 ^ 16)) by (unfold arg_class; auto 10); by apply read_wide_iff|].
  destruct (Z.eqb_spec ai 27) as [->|]; [rewrite (decodeArg_wide 27 8 (2 ^ 32)) by (unfold arg_class; auto 10); by apply read_wide_iff|].
  unfold decodeArg. rewrite (proj2 (Z.ltb_ge ai 24)) by done. rewrite (proj2 (Z.eqb_neq ai 24)), (proj2 (Z.eqb_neq ai 25)), (proj2 (Z.eqb_neq ai 26)), (proj2 (Z.eqb_neq ai 27)) by done.
  destruct (Z.eqb_spec ai 31) as [->|]; by split; [|intros (? & ? & _)].
Qed.

(** Reading a head reads the canonical octets of its argument. *)
Lemma readHead_iff m d v d' :
  0 <= m < 8 -> readHead m d = Ok (v, d') <-> is_u64 v /\ consumes d (encodeUint m v) d'.
Proof.
  intros Hm. split.
  - destruct (rest_of d) as [|x tl] eqn:Hr; intros Hd.
    + unfold readHead in Hd. rewrite (proj2 (Z.leb_le _ _)) in Hd; [discriminate|]. unfold rest_of in Hr.
      apply (f_equal length) in Hr. rewrite length_drop in Hr. unfold blen. cbn [length] in Hr. lia.
    + apply (readHead_arg m d x tl) in Hd as [<- (n & Hd & ->)]; [|done].
      apply head_decode in Hd as (Hv & Hn & Ht). split; [done|]. rewrite encodeUint_head by done. rewrite <- Ht. split.
      * rewrite length_take. f_equal. lia.
      * exists (drop n (x :: tl)). by rewrite take_drop.
  - intros [Hv [-> [tl Hr]]]. rewrite encodeUint_head in * by done.
    destruct (decode_head m v tl Hm Hv) as (x & tl' & He & Hs & Hd). rewrite He in *.
    apply (readHead_arg m d x tl'); [done|]. split; [done|]. eauto.
Qed.

Lemma encodeUint_nonnil m v : encodeUint m v <> [].
Proof. unfold encodeUint. destruct (_ <? _); [done|]. by repeat (destruct (_ <=? _); [done|]). Qed.

Lemma consumes_rest d w d' : consumes d w d' -> rest_of d = w ++ rest_of d'.
Proof. intros [-> [tl Ht]]. by rewrite rest_advance, Ht, drop_app_length. Qed.

Lemma read_string_iff m d b d' :
  0 <= m < 8 -> read_string m d = Ok (b, d') <-> is_u64 (blen b) /\ consumes d (encodeUint m (blen b) ++ b) d'.
Proof.
  intros Hm. unfold read_string. rewrite consumes_app. split.
  - intros Hd. apply bind_Ok in Hd as ([n d1] & Hh & Hd). apply readHead_iff in Hh as [Hn Hc]; [|done].
    inv_res Hd. assert (remaining d1 = blen (rest_of d1)) as Hrem by (eapply consumes_remaining; [apply encodeUint_nonnil|exact Hc]).
    rewrite Hrem in *. assert (slice (rd_pos d1) (rd_pos d1 + Z.to_nat n) (rd_buf d1) = take (Z.to_nat n) (rest_of d1)) as Hs
      by apply slice_take.
    assert (blen (take (Z.to_nat n) (rest_of d1)) = n) as Hb.
    { unfold blen, is_u64 in *. rewrite length_take. lia. }
    rewrite Hs, Hb. split; [done|]. exists d1. split; [done|]. split.
    + f_equal. unfold blen in Hb. lia.
    + exists (drop (Z.to_nat n) (rest_of d1)). by rewrite take_drop.
  - intros (Hb & d1 & H1 & H2). rewrite (proj2 (readHead_iff m d (blen b) d1 Hm)) by done. cbn [mbind result_bind].
    pose proof (consumes_remaining _ _ _ (encodeUint_nonnil m (blen b)) H1) as Hrem. pose proof (consumes_blen _ _ _ H2) as Hle.
    rewrite (proj2 (Z.ltb_ge _ _)) by lia. cbn [check mbind result_bind]. destruct H2 as [-> [tl Ht]].
    unfold blen. rewrite Nat2Z.id, slice_take. unfold rest_of in Ht. rewrite Ht, take_app_length. done.
Qed.

Definition components_octets (l : list bytes) : bytes := concat (map encodeBytesItem l).

Lemma read_components_iff n d l d' :
  read_components n d = Ok (l, d') <->
  length l = n /\ Forall (fun b => is_u64 (blen b)) l /\ consumes d (components_octets l) d'.
Proof.
  revert d l d'. induction n as [|n IH]; intros d l d'; cbn [read_components].
  - split.
    + intros [= <- <-]. split_and!; [done|constructor|by apply consumes_nil].
    + intros (Hl & _ & Hc). destruct l; [|done]. apply consumes_nil in Hc as ->. done.
  - split.
    + intros Hd. apply bind_Ok in Hd as ([b d1] & Hb & Hd). apply bind_Ok in Hd as ([bs d2] & Hbs & Hd).
      injection Hd as <- <-. apply read_string_iff in Hb as [Hb Hc1]; [|by unfold cborMajorBytes].
      apply IH in Hbs as (Hl & Hf & Hc2). split_and!; [by cbn; f_equal|by constructor|].
      apply consumes_app. by exists d1.
    + intros (Hl & Hf & Hc). destruct l as [|b l]; [done|]. apply Forall_cons in Hf as [Hb Hf].
      apply consumes_app in Hc as (d1 & H1 & H2).
      unfold readBytes. rewrite (proj2 (read_string_iff cborMajorBytes d b d1 ltac:(by unfold cborMajorBytes))) by done.
      cbn [mbind result_bind]. rewrite (proj2 (IH d1 l d')); [done|]. split_and!; [by injection Hl|done|done].
Qed.

(** ** The five fields *)

(** What follows key [k] on the wire, and the record it is read into. *)
Inductive field_value (rec : KeyRecord) : Z -> bytes -> KeyRecord -> Prop :=
| fv_version v : is_u64 v -> field_value rec 1 (encodeUint cborMajorUint v)
    (mkRecord (u16 v) (kr_Generation rec) (kr_Role rec) (kr_Algorithm rec) (kr_Components rec))
| fv_generation g : is_u64 (blen g) -> field_value rec 2 (encodeTextItem g)
    (mkRecord (kr_FormatVersion rec) g (kr_Role rec) (kr_Algorithm rec) (kr_Components rec))
| fv_role v : is_u64 v -> field_value rec 3 (encodeUint cborMajorUint v)
    (mkRecord (kr_FormatVersion rec) (kr_Generation rec) (u8 v) (kr_Algorithm rec) (kr_Components rec))
| fv_algorithm v : is_u64 v -> field_value rec 4 (encodeUint cborMajorUint v)
    (mkRecord (kr_FormatVersion rec) (kr_Generation rec) (kr_Role rec) v (kr_Components rec))
| fv_components l : is_u64 (blen l) -> Forall (fun b => is_u64 (blen b)) l ->
    field_value rec 5 (encodeUint cborMajorArray (blen l) ++ components_octets l)
    (mkRecord (kr_FormatVersion rec) (kr_Generation rec) (kr_Role rec) (kr_Algorithm rec) l).

Lemma components_length l : blen l <= blen (components_octets l).
Proof.
  unfold components_octets. induction l as [|b l IH]; [done|]. cbn [map concat]. rewrite blen_cons, blen_app.
  unfold encodeBytesItem at 1. rewrite blen_app. pose proof (blen_nonneg b).
  destruct (encodeUint cborMajorBytes (blen b)) as [|x t] eqn:E; [by apply encodeUint_nonnil in E|].
  rewrite blen_cons. pose proof (blen_nonneg t). lia.
Qed.

Lemma read_field_iff key rec d rec' d' :
  read_field key rec d = Ok (rec', d') <-> exists w, field_value rec key w rec' /\ consumes d w d'.
Proof.
  unfold read_field. split.
  - intros Hd. repeat match type of Hd with (if ?c then _ else _) = _ =>
      let E := fresh in destruct c eqn:E; [apply Z.eqb_eq in E as ->|] end; [..|discriminate].
    1,3,4: apply bind_Ok in Hd as ([v d1] & Hv & Hd); injection Hd as <- <-;
      apply readHead_iff in Hv as [Hv Hc]; [|by unfold cborMajorUint]; eexists; split; [by constructor|done].
    + apply bind_Ok in Hd as ([g d1] & Hv & Hd); injection Hd as <- <-.
      apply read_string_iff in Hv as [Hv Hc]; [|by unfold cborMajorText]. eexists; split; [by constructor|done].
    + apply bind_Ok in Hd as ([n d1] & Hn & Hd). inv_res Hd. apply readHead_iff in Hn as [Hn Hc]; [|by unfold cborMajorArray].
      match goal with H : ((let (_, _) := ?p in _) = Ok _) |- _ => destruct p as [l d2]; injection H as <- <- end.
      match goal with H : read_components _ _ = Ok _ |- _ => apply read_components_iff in H as (Hl & Hf & Hc2) end.
      assert (n = blen l) as -> by (unfold blen, is_u64 in *; lia).
      eexists; split; [by constructor|]. apply consumes_app. by exists d1.
  - intros (w & Hw & Hc). destruct Hw as [v Hv|g Hg|v Hv|v Hv|l Hl Hf]; cbn [Z.eqb Pos.eqb].
    1,3,4: unfold readUint; rewrite (proj2 (readHead_iff cborMajorUint d v d' ltac:(by unfold cborMajorUint))) by done; done.
    + unfold readText. by rewrite (proj2 (read_string_iff cborMajorText d g d' ltac:(by unfold cborMajorText))) by done.
    + apply consumes_app in Hc as (d1 & H1 & H2). unfold readArrayLen.
      rewrite (proj2 (readHead_iff cborMajorArray d (blen l) d1 ltac:(by unfold cborMajorArray))) by done.
      cbn [mbind result_bind]. pose proof (consumes_remaining _ _ _ (encodeUint_nonnil _ _) H1) as Hrem.
      pose proof (consumes_blen _ _ _ H2). pose proof (components_length l).
      rewrite (proj2 (Z.ltb_ge _ _)) by lia. cbn [check mbind result_bind].
      rewrite (proj2 (read_components_iff _ d1 l d')); [done|]. split_and!; [unfold blen; lia|done|done].
Qed.

Lemma field_key rec k w rec' : field_value rec k w rec' -> 1 <= k <= 5.
Proof. by destruct 1. Qed.

(** One iteration of the field loop. *)
Lemma read_fields_step count seen rec d r :
  read_fields (S count) seen rec d = Ok r <->
  exists k d1 w rec1 d2, is_u64 k /\ consumes d (encodeUint cborMajorUint k) d1 /\
    match seen with [] => True | last :: _ => last < k end /\ existsb (Z.eqb k) seen = false /\
    field_value rec k w rec1 /\ consumes d1 w d2 /\ read_fields count (k :: seen) rec1 d2 = Ok r.
Proof.
  cbn [read_fields]. split.
  - intros Hd. apply bind_Ok in Hd as ([k d1] & Hk & Hd). apply readHead_iff in Hk as [Hk Hc]; [|by unfold cborMajorUint].
    apply bind_Ok in Hd as ([] & Ho & Hd). apply check_Ok in Ho. apply bind_Ok in Hd as ([] & Hs & Hd). apply check_Ok in Hs.
    apply bind_Ok in Hd as ([rec1 d2] & Hf & Hd). apply read_field_iff in Hf as (w & Hw & Hc2).
    exists k, d1, w, rec1, d2. split_and!; try done. destruct seen; [done|]. by apply Z.leb_gt.
  - intros (k & d1 & w & rec1 & d2 & Hk & Hc & Ho & Hs & Hw & Hc2 & Hd). unfold readUint.
    rewrite (proj2 (readHead_iff cborMajorUint d k d1 ltac:(by unfold cborMajorUint))) by done. cbn [mbind result_bind].
    assert (match seen with [] => false | last :: _ => k <=? last end = false) as -> by (destruct seen; [done|by apply Z.leb_gt]).
    rewrite Hs. cbn [check mbind result_bind]. rewrite (proj2 (read_field_iff k rec d1 rec1 d2)); [done|]. by exists w.
Qed.

(** Keys ascend within 1..5, so there is room for the entries left. *)
Lemma fields_room count last seen rec d r :
  last <= 5 -> read_fields count (last :: seen) rec d = Ok r -> last + Z.of_nat count <= 5.
Proof.
  revert last seen rec d. induction count as [|count IH]; intros last seen rec d Hl Hd; [lia|].
  apply read_fields_step in Hd as (k & d1 & w & rec1 & d2 & _ & _ & Ho & _ & Hw & _ & Hd).
  apply field_key in Hw. apply IH in Hd; lia.
Qed.

(** With [count] entries left the next key is [5 - count]. *)
Lemma read_fields_forced count seen rec d r :
  match seen with [] => count = 4%nat | last :: _ => last + Z.of_nat count = 4 end ->
  Forall (fun s => s < 5 - Z.of_nat count) seen -> (count <= 4)%nat ->
  read_fields (S count) seen rec d = Ok r <->
  exists w rec1 d2, field_value rec (5 - Z.of_nat count) w rec1 /\
    consumes d (encodeUint cborMajorUint (5 - Z.of_nat count) ++ w) d2 /\
    read_fields count ((5 - Z.of_nat count) :: seen) rec1 d2 = Ok r.
Proof.
  intros Hh Hs Hc4. rewrite read_fields_step. split.
  - intros (k & d1 & w & rec1 & d2 & _ & Hc & Ho & _ & Hw & Hc2 & Hd). pose proof (field_key _ _ _ _ Hw).
    pose proof (fields_room _ _ _ _ _ _ (proj2 H) Hd).
    assert (k = 5 - Z.of_nat count) as -> by (destruct seen; lia).
    exists w, rec1, d2. split_and!; [done| |done]. apply consumes_app. by exists d1.
  - intros (w & rec1 & d2 & Hw & Hc & Hd). apply consumes_app in Hc as (d1 & H1 & H2).
    exists (5 - Z.of_nat count), d1, w, rec1, d2. split_and!; try done; [unfold is_u64; lia..|destruct seen; [done|lia]|].
    apply not_true_iff_false. rewrite existsb_exists. intros (s & Hin & He%Z.eqb_eq). subst s.
    rewrite Forall_forall in Hs. apply list_elem_of_In in Hin. apply Hs in Hin. lia.
Qed.

(** ** Whole records *)

(** The record read from the octets of a record with its integers at wire width. *)
Definition truncated (rec : KeyRecord) : KeyRecord :=
  mkRecord (u16 (kr_FormatVersion rec)) (kr_Generation rec) (u8 (kr_Role rec)) (kr_Algorithm rec) (kr_Components rec).

Record wire_wf (rec : KeyRecord) : Prop := {
  ww_version : is_u64 (kr_FormatVersion rec);
  ww_generation : is_u64 (blen (kr_Generation rec));
  ww_role : is_u64 (kr_Role rec);
  ww_algorithm : is_u64 (kr_Algorithm rec);
  ww_count : is_u64 (blen (kr_Components rec));
  ww_components : Forall (fun b => is_u64 (blen b)) (kr_Components rec)
}.

Definition fields_octets (rec : KeyRecord) : bytes :=
  (encodeUint cborMajorUint 1 ++ encodeUint cborMajorUint (kr_FormatVersion rec)) ++
  (encodeUint cborMajorUint 2 ++ encodeTextItem (kr_Generation rec)) ++
  (encodeUint cborMajorUint 3 ++ encodeUint cborMajorUint (kr_Role rec)) ++
  (encodeUint cborMajorUint 4 ++ encodeUint cborMajorUint (kr_Algorithm rec)) ++
  (encodeUint cborMajorUint 5 ++ encodeUint cborMajorArray (blen (kr_Components rec)) ++ components_octets (kr_Components rec)).

Lemma marshal_fields rec : marshalRecord rec = encodeUint cborMajorMap 5 ++ fields_octets rec.
Proof. unfold marshalRecord, fields_octets. by rewrite <- !app_assoc. Qed.

Lemma read_fields_iff d r d' :
  read_fields 5 [] zeroRecord d = Ok (r, d') <->
  exists rec, wire_wf rec /\ r = truncated rec /\ consumes d (fields_octets rec) d'.
Proof.
  split.
  - intros Hd.
    apply read_fields_forced in Hd as (w1 & r1 & d1 & F1 & C1 & Hd); [|done|by repeat constructor|lia].
    apply read_fields_forced in Hd as (w2 & r2 & d2 & F2 & C2 & Hd); [|done|by repeat constructor|lia].
    apply read_fields_forced in Hd as (w3 & r3 & d3 & F3 & C3 & Hd); [|done|by repeat constructor|lia].
    apply read_fields_forced in Hd as (w4 & r4 & d4 & F4 & C4 & Hd); [|done|by repeat constructor|lia].
    apply read_fields_forced in Hd as (w5 & r5 & d5 & F5 & C5 & Hd); [|done|by repeat constructor|lia].
    injection Hd as <- <-.
    inversion F1 as [v Hv| | | |]; subst. inversion F2 as [|g Hg| | |]; subst. inversion F3 as [| |rl Hr| |]; subst.
    inversion F4 as [| | |a Ha|]; subst. inversion F5 as [| | | |l Hl Hf]; subst.
    exists (mkRecord v g rl a l). split_and!; [by constructor|done|]. unfold fields_octets.
    apply consumes_app. exists d1. split; [exact C1|]. apply consumes_app. exists d2. split; [exact C2|].
    apply consumes_app. exists d3. split; [exact C3|]. apply consumes_app. exists d4. by split.
  - intros (rec & [Hv Hg Hr Ha Hl Hf] & -> & Hc). unfold fields_octets in Hc.
    apply consumes_app in Hc as (d1 & C1 & Hc). apply consumes_app in Hc as (d2 & C2 & Hc).
    apply consumes_app in Hc as (d3 & C3 & Hc). apply consumes_app in Hc as (d4 & C4 & C5).
    apply read_fields_forced; [done|constructor|lia|]. eexists _, _, d1. split_and!; [apply fv_version; exact Hv|exact C1|].
    apply read_fields_forced; [done|by repeat constructor|lia|]. eexists _, _, d2. split_and!; [apply fv_generation; exact Hg|exact C2|].
    apply read_fields_forced; [done|by repeat constructor|lia|]. eexists _, _, d3. split_and!; [apply fv_role; exact Hr|exact C3|].
    apply read_fields_forced; [done|by repeat constructor|lia|]. eexists _, _, d4. split_and!; [apply fv_algorithm; exact Ha|exact C4|].
    apply read_fields_forced; [done|by repeat constructor|lia|]. eexists _, _, d'. split_and!; [by apply fv_components|exact C5|done].
Qed.

(** The octets read as records are the canonical ones, with integers of any width. *)
Lemma unmarshal_wire data r :
  unmarshalRecord data = Ok r <-> exists rec, wire_wf rec /\ r = truncated rec /\ data = marshalRecord rec.
Proof.
  unfold unmarshalRecord. split.
  - intros Hd. apply bind_Ok in Hd as ([n d1] & Hn & Hd). apply readHead_iff in Hn as [_ Hc1]; [|by unfold cborMajorMap].
    apply bind_Ok in Hd as ([] & H5 & Hd). apply check_Ok, negb_false_iff, Z.eqb_eq in H5 as ->.
    apply bind_Ok in Hd as ([rec' d2] & Hf & Hd). apply read_fields_iff in Hf as (rec & Hw & -> & Hc2). inv_res Hd.
    exists rec. split_and!; [done..|]. rewrite marshal_fields. assert (consumes (mkReader data 0) (marshalRecord rec) d2) as Hc
      by (rewrite marshal_fields; apply consumes_app; by exists d1).
    apply consumes_rest in Hc as Hr. destruct Hc as [-> _]. unfold rest_of, rd_advance in *. cbn [rd_buf rd_pos] in *.
    rewrite <- marshal_fields. rewrite drop_0, drop_ge, app_nil_r in Hr; [done|]. unfold blen in *. lia.
  - intros (rec & Hw & -> & ->). rewrite marshal_fields.
    set (d := mkReader (encodeUint cborMajorMap 5 ++ fields_octets rec) 0).
    assert (consumes d (encodeUint cborMajorMap 5 ++ fields_octets rec) (rd_advance d (length (encodeUint cborMajorMap 5 ++ fields_octets rec)))) as Hc.
    { split; [done|]. exists []. by rewrite app_nil_r. }
    apply consumes_app in Hc as (d1 & H1 & H2). unfold readMapLen.
    rewrite (proj2 (readHead_iff cborMajorMap d 5 d1 ltac:(by unfold cborMajorMap))) by done. cbn [mbind result_bind].
    change (negb (5 =? 5)) with false. cbn [check mbind result_bind]. change (Z.to_nat 5) with 5%nat.
    rewrite (proj2 (read_fields_iff d1 (truncated rec) _)) by (exists rec; split_and!; [done..|exact H2]).
    cbn [mbind result_bind]. unfold d, rd_advance. cbn [rd_buf rd_pos]. unfold blen. by rewrite Z.eqb_refl.
Qed.

Lemma component_length l b : b ∈ l -> blen b <= blen (components_octets l).
Proof.
  unfold components_octets. induction 1 as [b l|b c l _ IH]; cbn [map concat]; rewrite blen_app.
  - unfold encodeBytesItem at 1. rewrite blen_app. pose proof (blen_nonneg (encodeUint cborMajorBytes (blen b))).
    pose proof (blen_nonneg (concat (map encodeBytesItem l))). lia.
  - pose proof (blen_nonneg (encodeBytesItem c)). lia.
Qed.

(** The lengths are those of Go slices when the octets are. *)
Lemma marshal_lengths rec :
  blen (marshalRecord rec) < 2 ^ 63 ->
  is_u64 (blen (kr_Generation rec)) /\ is_u64 (blen (kr_Components rec)) /\ Forall (fun b => is_u64 (blen b)) (kr_Components rec).
Proof.
  assert (exists p q, marshalRecord rec = p ++ kr_Generation rec ++ q ++ components_octets (kr_Components rec)) as (p & q & ->).
  { exists (encodeUint cborMajorMap 5 ++ encodeUint cborMajorUint 1 ++ encodeUint cborMajorUint (kr_FormatVersion rec) ++
      encodeUint cborMajorUint 2 ++ encodeUint cborMajorText (blen (kr_Generation rec))),
    (encodeUint cborMajorUint 3 ++ encodeUint cborMajorUint (kr_Role rec) ++ encodeUint cborMajorUint 4 ++
      encodeUint cborMajorUint (kr_Algorithm rec) ++ encodeUint cborMajorUint 5 ++ encodeUint cborMajorArray (blen (kr_Components rec))).
    unfold marshalRecord, encodeTextItem. by rewrite <- !app_assoc. }
  rewrite !blen_app. pose proof (blen_nonneg p). pose proof (blen_nonneg q). pose proof (blen_nonneg (kr_Generation rec)).
  pose proof (blen_nonneg (kr_Components rec)). pose proof (components_length (kr_Components rec)). intros Hb.
  unfold is_u64. split_and!; [lia..|]. apply Forall_forall. intros b Hin. apply component_length in Hin.
  pose proof (blen_nonneg b). lia.
Qed.

(** ** The registry *)

(** The component sizes registered for a generation, a role and an algorithm. *)
Definition registered_sizes (gen : bytes) (role alg : Z) : option (list Z) :=
  genReg ← assoc registry gen; roleReg ← assoc genReg role; assoc roleReg alg.

Lemma check_sizes_iff sizes comps :
  length sizes = length comps -> check_sizes sizes comps = Ok tt <-> sizes = map blen comps.
Proof.
  revert comps. induction sizes as [|n sizes IH]; intros [|c comps] Hl; [done..|]. cbn [check_sizes map].
  destruct (Z.eqb_spec (blen c) n) as [<-|Hn]; cbn [negb check mbind result_bind].
  - injection Hl as Hl. rewrite IH by done. split; [by intros ->|by intros [= ->]].
  - split; [discriminate|]. intros [= -> _]. done.
Qed.

Lemma validate_iff rec :
  validateAgainstRegistry rec = Ok tt <->
  refusedKEMGroup rec = false /\
  registered_sizes (kr_Generation rec) (kr_Role rec) (kr_Algorithm rec) = Some (map blen (kr_Components rec)).
Proof.
  unfold validateAgainstRegistry, registered_sizes.
  destruct (refusedKEMGroup rec); cbn [check mbind result_bind]; [by split; [|intros []]|]. rewrite and_True_l' by done.
  destruct (assoc registry _) as [genReg|]; [|done]. cbn [mbind option_bind].
  destruct (assoc genReg _) as [roleReg|]; [|done]. cbn [mbind option_bind].
  destruct (assoc roleReg _) as [sizes|]; [|done].
  destruct (Z.eqb_spec (blen (kr_Components rec)) (blen sizes)) as [Hl|Hl]; cbn [negb check mbind result_bind].
  - rewrite check_sizes_iff by (unfold blen in Hl; lia). split; [by intros ->|by intros [= ->]].
  - split; [discriminate|]. intros [= ->]. destruct Hl. unfold blen. by rewrite length_map.
Qed.

(** Registered keys have a role and an algorithm of Go width and short components. *)
Lemma registered_small role alg sizes :
  registered_sizes ALPN role alg = Some sizes -> is_u8 role /\ is_u64 alg /\ blen sizes <= 2 /\ Forall (fun n => n <= 4896) sizes.
Proof.
  unfold registered_sizes. change (assoc registry ALPN) with (Some (snd (hd (ALPN, []) registry))). cbn [mbind option_bind].
  unfold assoc. cbn [hd registry snd fst find fmap option_fmap option_map].
  repeat (case_bool_decide; [subst role|]; cbn [fmap option_fmap option_map mbind option_bind find fst snd]); try discriminate;
  repeat (case_bool_decide; [subst alg|]; cbn [fmap option_fmap option_map mbind option_bind find fst snd]); try discriminate;
  intros [= <-]; repeat split; try done; repeat constructor; done.
Qed.

(** ** Stored keys *)

Lemma unmarshal_truncated data r :
  blen data < 2 ^ 63 ->
  unmarshalRecord data = Ok r <->
  exists rec, is_u64 (kr_FormatVersion rec) /\ is_u64 (kr_Role rec) /\ is_u64 (kr_Algorithm rec) /\
    r = truncated rec /\ data = marshalRecord rec.
Proof.
  intros Hb. rewrite unmarshal_wire. split.
  - intros (rec & [] & -> & ->). by exists rec.
  - intros (rec & Hv & Hr & Ha & -> & ->). exists rec. split_and!; try done.
    destruct (marshal_lengths rec Hb) as (? & ? & ?). by constructor.
Qed.

Definition decode_accepts (gens : list bytes) (rec : KeyRecord) : Prop :=
  kr_FormatVersion rec = CurrentFormatVersion /\ kr_Generation rec ∈ gens /\ refusedKEMGroup rec = false /\
  (kr_Generation rec = ALPN ->
   registered_sizes ALPN (kr_Role rec) (kr_Algorithm rec) = Some (map blen (kr_Components rec))).

Lemma accepted_iff gens (g : bytes) : existsb (fun x => bool_decide (x = g)) gens = true <-> g ∈ gens.
Proof.
  rewrite existsb_exists. split.
  - intros (x & Hx & He). apply bool_decide_eq_true in He as ->. by apply list_elem_of_In.
  - intros Hg. exists g. split; [by apply list_elem_of_In|by apply bool_decide_eq_true].
Qed.

Lemma decode_iff data gens rec :
  Decode data gens = Ok rec <-> unmarshalRecord data = Ok rec /\ decode_accepts gens rec.
Proof.
  unfold Decode, decode_accepts. split.
  - intros Hd. apply bind_Ok in Hd as ([] & _ & Hd). apply bind_Ok in Hd as (r & Hu & Hd).
    apply bind_Ok in Hd as ([] & Hv & Hd). apply bind_Ok in Hd as ([] & Hg & Hd). apply bind_Ok in Hd as ([] & Hk & Hd).
    apply bind_Ok in Hd as ([] & Hreg & Hd). injection Hd as <-.
    apply check_Ok, negb_false_iff in Hv, Hg. apply check_Ok in Hk. apply Z.eqb_eq in Hv. apply accepted_iff in Hg.
    split_and!; [done..|]. intros Ha. rewrite bool_decide_eq_true_2 in Hreg by done. apply validate_iff in Hreg as [_ Hreg].
    by rewrite Ha in Hreg.
  - intros (Hu & Hv & Hg & Hk & Hreg). destruct gens as [|g gens]; [by apply elem_of_nil in Hg|].
    rewrite (proj2 (Z.eqb_neq _ 0)) by (rewrite blen_cons; pose proof (blen_nonneg gens); lia).
    cbn [check mbind result_bind]. rewrite Hu. cbn [mbind result_bind]. rewrite Hv. change (negb (CurrentFormatVersion =? CurrentFormatVersion)) with false.
    cbn [check mbind result_bind]. rewrite (proj2 (accepted_iff _ _) Hg), Hk. cbn [negb check mbind result_bind].
    destruct (decide (kr_Generation rec = ALPN)) as [Ha|Ha].
    + rewrite bool_decide_eq_true_2 by done. rewrite (proj2 (validate_iff rec)); [done|]. split; [done|]. rewrite Ha. by apply Hreg.
    + by rewrite bool_decide_eq_false_2.
Qed.

(** Decode returns a record exactly when the octets are the canonical encoding of one
    whose integers fit 64 bits, the record returned is that one with format_version cut to
    16 bits and role cut to 8, the version is then the current one, the generation is one
    the caller accepts, it is not key material of the refused group, and under the current
    generation its role and algorithm are registered with exactly these component sizes. *)
Theorem key_decode_exact (data : bytes) (gens : list bytes) (rec : KeyRecord) (Hb : blen data < 2 ^ 63) :
  Decode data gens = Ok rec <->
  (exists wire, is_u64 (kr_FormatVersion wire) /\ is_u64 (kr_Role wire) /\ is_u64 (kr_Algorithm wire) /\
     rec = truncated wire /\ data = marshalRecord wire) /\
  decode_accepts gens rec.
Proof. by rewrite decode_iff, unmarshal_truncated. Qed.

Lemma key_decode_exact_witness :
  let wire := mkRecord 65537 (str "old") 258 (2 ^ 16 + KEMSecP384r1MLKEM1024) [[]; []] in
  blen (marshalRecord wire) < 2 ^ 63 /\ Decode (marshalRecord wire) [str "old"] = Ok (truncated wire).
Proof.
  split; [reflexivity|]. apply key_decode_exact; [reflexivity|].
  split; [eexists; split_and!; [| | |reflexivity|reflexivity]; vm_compute; split; congruence|].
  split_and!; [reflexivity|left|reflexivity|]. intros Ha. vm_compute in Ha. discriminate.
Defined.

Lemma encode_iff rec b :
  Encode rec = Ok b <->
  kr_FormatVersion rec = CurrentFormatVersion /\ kr_Generation rec = ALPN /\ refusedKEMGroup rec = false /\
  registered_sizes ALPN (kr_Role rec) (kr_Algorithm rec) = Some (map blen (kr_Components rec)) /\ b = marshalRecord rec.
Proof.
  unfold Encode. split.
  - intros Hd. apply bind_Ok in Hd as ([] & Hv & Hd). apply bind_Ok in Hd as ([] & Hg & Hd). apply bind_Ok in Hd as ([] & Hr & Hd).
    injection Hd as <-. apply check_Ok, negb_false_iff in Hv, Hg. apply Z.eqb_eq in Hv. apply bool_decide_eq_true in Hg.
    apply validate_iff in Hr as [? Hr]. by rewrite Hg in Hr.
  - intros (Hv & Hg & Hk & Hr & ->). rewrite Hv. change (negb (CurrentFormatVersion =? CurrentFormatVersion)) with false.
    rewrite bool_decide_eq_true_2 by done. cbn [negb check mbind result_bind]. rewrite (proj2 (validate_iff rec)); [done|].
    by rewrite Hg.
Qed.

Lemma encoded_reads rec b : Encode rec = Ok b -> unmarshalRecord b = Ok rec.
Proof.
  intros He. apply encode_iff in He as (Hv & Hg & _ & Hs & ->).
  destruct (registered_small _ _ _ Hs) as (Hr & Ha & Hn & Hc). apply unmarshal_wire. exists rec. split_and!; [|..|done].
  - pose proof (blen_nonneg (kr_Components rec)). unfold is_u8, is_u64 in *. unfold blen in Hn. rewrite length_map in Hn.
    constructor; unfold is_u64; [rewrite Hv; by unfold CurrentFormatVersion|by rewrite Hg|lia|done|unfold blen; lia|].
    rewrite Forall_map in Hc. eapply Forall_impl; [exact Hc|]. intros c Hl. cbn beta in Hl. pose proof (blen_nonneg c). lia.
  - destruct rec as [v g r a l]. unfold truncated. cbn [kr_FormatVersion kr_Generation kr_Role kr_Algorithm kr_Components] in *.
    subst v. f_equal. unfold u8. symmetry. by apply Z.mod_small.
Qed.

(** A record Encode accepts is stored as octets that Decode reads back as the same
    record for every caller that accepts the current generation, and that a caller who does
    not is refused; and no other record the package would encode has the same octets. *)
Theorem key_store_roundtrip (rec : KeyRecord) (b : bytes) (gens : list bytes) :
  Encode rec = Ok b ->
  (ALPN ∈ gens -> Decode b gens = Ok rec) /\
  (gens <> [] -> ALPN ∉ gens -> Decode b gens = Err ErrGenerationNotAccepted) /\
  (forall rec', Encode rec' = Ok b -> rec' = rec).
Proof.
  intros He. pose proof (encoded_reads rec b He) as Hu. apply encode_iff in He as (Hv & Hg & Hk & Hs & _). split_and!.
  - intros Hin. apply decode_iff. split; [done|]. split_and!; [done|by rewrite Hg|done..].
  - intros Hne Hnin. unfold Decode. rewrite (proj2 (Z.eqb_neq _ 0)) by (destruct gens; [done|]; rewrite blen_cons; pose proof (blen_nonneg gens); lia).
    cbn [check mbind result_bind]. rewrite Hu. cbn [mbind result_bind]. rewrite Hv. change (negb (CurrentFormatVersion =? CurrentFormatVersion)) with false.
    cbn [check mbind result_bind]. destruct (existsb _ gens) eqn:E; [|done]. apply accepted_iff in E. by rewrite Hg in E.
  - intros rec' He'. apply encoded_reads in He'. congruence.
Qed.

Lemma key_store_roundtrip_witness :
  let rec := mkRecord 1 ALPN RoleSigPublic SigEd25519 [replicate 32 x07] in
  Decode (marshalRecord rec) [ALPN] = Ok rec.
Proof.
  intros rec. apply (key_store_roundtrip rec (marshalRecord rec) [ALPN]); [reflexivity|left].
Defined.
