(* ===== verification/Relay.v ===== *)
(** * The forwarding relay (relay/frame.go, relay/relay.go)

    [readRawFrame], one iteration of [forward] and its loop, and [Run] as a transition
    system of two forwarding directions and the goroutine that waits for the first of them
    to stop.  What the environment decides (cancellation, deadlines, transport errors, how
    much of a failing write went out) is an argument of the iteration.  The relay writes
    complete frames that parse, fit the cap and pass the hook, octet for octet in the order
    they arrived, and nothing after the first one that does not. *)

From S2P Require Import Prelude Errors Registry Frame.
From Stdlib Require Import Strings.Byte.
From stdpp Require Import relations.
Open Scope Z_scope.

Inductive Direction : Type := DirAToB | DirBToA.

#[export] Instance Direction_eq_dec : EqDecision Direction.
Proof. solve_decision. Defined.

Record FrameHeader : Type := mkHeader {
  fh_Raw : bytes;
  fh_Version : Z;
  fh_Flags : Z;
  fh_Type : Z;
  fh_Channel : Z;
  fh_Seq : Z;
  fh_PayloadLen : Z    (* uint32 *)
}.

(** ** Reading a frame off a leg *)

(** What a leg still delivers: octets, then an error ([ErrEOF] at a close). *)
Record source : Type := mkSource { so_data : bytes; so_fin : error }.

(** [io.ReadFull] for a positive count. *)
Definition readFull (n : nat) (s : source) : result error bytes :=
  if (n <=? length (so_data s))%nat then Ok (take n (so_data s))
  else Err (if bool_decide (so_fin s = ErrEOF)
            then (if blen (so_data s) =? 0 then ErrEOF else ErrUnexpectedEOF)
            else so_fin s).

Definition readRawFrame (s : source) (maxFrameSize : Z) : result error bytes :=
  header ← readFull 36 s;
  check (negb (bool_decide (slice 0 4 header = Magic))) ErrBadMagic;;
  let payloadLen := be_get (slice 17 21 header) in
  let total := HeaderSize + payloadLen in
  check (maxFrameSize <? total) ErrFrameOverMax;;
  if 0 <? payloadLen then
    payload ← map_err (fun e => if bool_decide (e = ErrEOF) then ErrUnexpectedEOF else e)
      (readFull (Z.to_nat payloadLen) (mkSource (drop 36 (so_data s)) (so_fin s)));
    Ok (header ++ payload)
  else Ok header.

(** ** The environment of one iteration *)

Inductive deadline : Type :=
| DLNone                 (* the context has no deadline *)
| DLSet                  (* set *)
| DLClosed               (* setting it failed: the connection is closed *)
| DLFailed.              (* setting it failed otherwise *)

Record env : Type := mkEnv {
  ev_done : bool;            (* [ctx.Done()] is ready *)
  ev_rdl : deadline;         (* the read deadline *)
  ev_cut : option nat;       (* a transport error after this many octets, if any *)
  ev_wdl : deadline;         (* the write deadline *)
  ev_write : option nat      (* the write failed after this many octets, if it did *)
}.

(** Nothing goes wrong. *)
Definition env_fine : env := mkEnv false DLNone None DLNone None.

(** What the reads of an iteration see of a leg. *)
Definition visible (ev : env) (s : source) : source :=
  match ev_cut ev with
  | None => s
  | Some n => if (n <? length (so_data s))%nat then mkSource (take n (so_data s)) ErrIO else s
  end.

Definition readDeadlined (ev : env) (s : source) (maxFrameSize : Z) : result error bytes :=
  match ev_rdl ev with
  | DLClosed => Err ErrEOF
  | DLFailed => Err ErrIO
  | _ => readRawFrame (visible ev s) maxFrameSize
  end.

(** The octets written and whether that was all of them. *)
Definition writeDeadlined (ev : env) (raw : bytes) : bytes * bool :=
  match ev_wdl ev with
  | DLClosed | DLFailed => ([], false)
  | _ => match ev_write ev with
         | None => (raw, true)
         | Some n => (take n raw, false)
         end
  end.

Section relay.
(** The error type of the hook. *)
Context {E : Type}.

Definition HookFunc : Type := Direction -> FrameHeader -> option E.

Inductive relay_error : Type :=
| RCancelled
| RRead (e : error)
| RMalformed (e : error)
| RRejected (e : E)
| RWrite.

(** [None] is a nil hook. *)
Record Relay : Type := mkRelay {
  rl_Hook : option HookFunc;
  rl_MaxFrameSize : Z         (* uint32 *)
}.

Context (r : Relay).

Definition relay_maxFrameSize : Z := if rl_MaxFrameSize r =? 0 then MaxFrameSize else rl_MaxFrameSize r.

Definition header_of (raw : bytes) (f : Frame) : FrameHeader :=
  mkHeader (take 36 raw) (Version f) (Flags f) (Type_ f) (Channel f) (Seq f) (u32 (blen (Payload f))).

(** One iteration: the octets written, and either the source that is left or the result of
    [forward] ([None] is nil). *)
Definition forward_frame (dir : Direction) (ev : env) (s : source) : bytes * (source + option relay_error) :=
  if ev_done ev then ([], inr (Some RCancelled))
  else match readDeadlined ev s relay_maxFrameSize with
  | Err e => ([], inr (if bool_decide (e = ErrEOF) then None else Some (RRead e)))
  | Ok raw =>
      match UnmarshalBinary raw with
      | Err e => ([], inr (Some (RMalformed e)))
      | Ok f =>
          match match rl_Hook r with Some hook => hook dir (header_of raw f) | None => None end with
          | Some e => ([], inr (Some (RRejected e)))
          | None =>
              let '(out, complete) := writeDeadlined ev raw in
              (out, if complete then inl (mkSource (drop (length raw) (so_data s)) (so_fin s)) else inr (Some RWrite))
          end
      end
  end.

(** The loop under a sequence of environments: the octets written and the result, [None]
    when [fuel] iterations do not finish it. *)
Fixpoint forward (fuel : nat) (dir : Direction) (evs : nat -> env) (s : source) : bytes * option (option relay_error) :=
  match fuel with
  | O => ([], None)
  | S fuel =>
      let '(out, next) := forward_frame dir (evs O) s in
      match next with
      | inr res => (out, Some res)
      | inl s' => let '(out', res) := forward fuel dir (fun i => evs (S i)) s' in (out ++ out', res)
      end
  end.

(** ** Run *)

(** Both directions, and the result Run has taken first (after which both legs are
    closed). *)
Record flow : Type := mkFlow {
  fl_src : Direction -> source;
  fl_out : Direction -> bytes;
  fl_res : Direction -> option (option relay_error);
  fl_first : option (option relay_error)
}.

Definition upd {A} (f : Direction -> A) (d : Direction) (x : A) : Direction -> A :=
  fun d' => if decide (d = d') then x else f d'.

Definition flow_init (srcA srcB : source) : flow :=
  mkFlow (fun d => match d with DirAToB => srcA | DirBToA => srcB end) (fun _ => []) (fun _ => None) None.

(** The goroutine of direction [d] does one iteration. *)
Definition iterate (d : Direction) (ev : env) (st : flow) : flow :=
  let '(out, next) := forward_frame d ev (fl_src st d) in
  let st := mkFlow (fl_src st) (upd (fl_out st) d (fl_out st d ++ out)) (fl_res st) (fl_first st) in
  match next with
  | inl s => mkFlow (upd (fl_src st) d s) (fl_out st) (fl_res st) (fl_first st)
  | inr res => mkFlow (fl_src st) (fl_out st) (upd (fl_res st) d (Some res)) (fl_first st)
  end.

(** Once the legs are closed a write takes no octet. *)
Definition closed_env (ev : env) : Prop := ev_write ev = Some O.

Inductive run_step : flow -> flow -> Prop :=
| rs_iterate d ev st :
    fl_res st d = None -> (fl_first st <> None -> closed_env ev) -> run_step st (iterate d ev st)
| rs_first d res st :
    fl_first st = None -> fl_res st d = Some res ->
    run_step st (mkFlow (fl_src st) (fl_out st) (fl_res st) (Some res)).

(** Run has drained the second result and returns the first. *)
Definition returned (st : flow) (res : option relay_error) : Prop :=
  fl_first st = Some res /\ forall d, fl_res st d <> None.

(** ** What may be forwarded *)

Definition hook_allows (d : Direction) (f : Frame) : Prop :=
  match rl_Hook r with Some hook => hook d (header_of (marshal f) f) = None | None => True end.

Definition relayable (d : Direction) (f : Frame) : Prop :=
  frame_wf f /\ frame_size f <= relay_maxFrameSize /\ hook_allows d f.

Definition frames_octets (fs : list Frame) : bytes := concat (map marshal fs).

(** ** One frame *)

Lemma readFull_app n (a b : bytes) fin : length a = n -> readFull n (mkSource (a ++ b) fin) = Ok a.
Proof.
  intros Hn. unfold readFull. cbn [so_data]. rewrite (proj2 (Nat.leb_le _ _)) by (rewrite length_app; lia).
  by rewrite take_app_length'.
Qed.

Lemma marshal_header_cut f : frame_wf f -> marshal f = take 36 (marshal f) ++ Payload f /\ length (take 36 (marshal f)) = 36%nat.
Proof.
  intros Hf. rewrite marshal_eq by apply Hf. rewrite take_app_length' by (by rewrite length_marshalHeaderInto).
  by rewrite length_marshalHeaderInto.
Qed.

Lemma readRaw_marshal f rest fin max :
  frame_wf f -> frame_size f <= max -> readRawFrame (mkSource (marshal f ++ rest) fin) max = Ok (marshal f).
Proof.
  intros Hf Hmax. destruct (marshal_header_cut f Hf) as [Hm H36]. set (h := take 36 (marshal f)) in *.
  unfold readRawFrame. rewrite Hm at 1. rewrite <- app_assoc, readFull_app by done. cbn [mbind result_bind].
  assert (slice 0 4 h = Magic) as ->.
  { unfold h. rewrite marshal_eq by apply Hf. by rewrite take_app_length' by (by rewrite length_marshalHeaderInto). }
  assert (be_get (slice 17 21 h) = blen (Payload f)) as ->.
  { rewrite <- (declared_length f [] Hf), app_nil_r, Hm. reflexivity. }
  rewrite bool_decide_eq_true_2 by done. cbn [negb check mbind result_bind]. unfold frame_size in Hmax.
  rewrite (proj2 (Z.ltb_ge max _)) by lia. cbn [check mbind result_bind so_data so_fin].
  destruct (Z.ltb_spec 0 (blen (Payload f))) as [Hp|Hp].
  - rewrite Hm, <- app_assoc, drop_app_length' by done.
    rewrite readFull_app by (unfold blen; lia). done.
  - pose proof (blen_nonneg (Payload f)). destruct (Payload f) as [|x p] eqn:Ep; [by rewrite Hm, app_nil_r|].
    rewrite blen_cons in Hp. pose proof (blen_nonneg p). lia.
Qed.

(** What a successful read and parse consumed. *)
Lemma readRaw_parsed s max raw f :
  readRawFrame s max = Ok raw -> UnmarshalBinary raw = Ok f ->
  frame_wf f /\ raw = marshal f /\ frame_size f <= max /\ exists rest, so_data s = raw ++ rest.
Proof.
  intros Hr Hu. apply marshal_unmarshal in Hu as [Hf Hm]. symmetry in Hm. split; [done|]. split; [done|].
  unfold readRawFrame in Hr. apply bind_Ok in Hr as (h & Hh & Hr). unfold readFull in Hh.
  destruct (Nat.leb_spec 36 (length (so_data s))) as [H36|]; [|discriminate]. injection Hh as <-.
  apply bind_Ok in Hr as ([] & _ & Hr). apply bind_Ok in Hr as ([] & Hmax & Hr). apply check_Ok, Z.ltb_ge in Hmax.
  set (n := be_get (slice 17 21 (take 36 (so_data s)))) in *. assert (0 <= n) as Hn by apply be_get_range.
  assert (blen raw = HeaderSize + n /\ exists rest, so_data s = raw ++ rest) as [Hl Hrest].
  { destruct (Z.ltb_spec 0 n) as [Hp|Hp].
    - apply bind_Ok in Hr as (p & Hp' & Hr). injection Hr as <-. apply map_err_Ok in Hp'. unfold readFull in Hp'.
      cbn [so_data] in Hp'. destruct (Nat.leb_spec (Z.to_nat n) (length (drop 36 (so_data s)))) as [Hle|]; [|discriminate].
      injection Hp' as <-. split.
      + rewrite blen_app. unfold blen. rewrite !length_take. unfold HeaderSize. lia.
      + exists (drop (Z.to_nat n) (drop 36 (so_data s))). by rewrite <- app_assoc, !take_drop.
    - injection Hr as <-. split; [unfold blen; rewrite length_take; unfold HeaderSize; lia|].
      exists (drop 36 (so_data s)). by rewrite take_drop. }
  split; [|done]. rewrite <- blen_marshal, <- Hm. lia.
Qed.

Lemma visible_prefix ev s raw rest :
  so_data (visible ev s) = raw ++ rest -> exists rest', so_data s = raw ++ rest'.
Proof.
  unfold visible. destruct (ev_cut ev) as [n|]; [|by intros ->; eexists].
  destruct (_ <? _)%nat; cbn [so_data]; [|by intros ->; eexists]. intros Ht.
  exists (rest ++ drop n (so_data s)). by rewrite app_assoc, <- Ht, take_drop.
Qed.

(** The outcomes of one iteration. *)
Lemma forward_frame_cases d ev s :
  (exists f rest, relayable d f /\ so_data s = marshal f ++ rest /\
     ((writeDeadlined ev (marshal f) = (marshal f, true) /\
       forward_frame d ev s = (marshal f, inl (mkSource rest (so_fin s)))) \/
      (exists part, writeDeadlined ev (marshal f) = (part, false) /\
       forward_frame d ev s = (part, inr (Some RWrite))))) \/
  (exists res, forward_frame d ev s = ([], inr res)).
Proof.
  unfold forward_frame. destruct (ev_done ev); [right; by eexists|].
  destruct (readDeadlined ev s relay_maxFrameSize) as [raw|e] eqn:Hr; [|right; by eexists].
  destruct (UnmarshalBinary raw) as [f|e] eqn:Hu; [|right; by eexists].
  assert (readRawFrame (visible ev s) relay_maxFrameSize = Ok raw) as Hread
    by (unfold readDeadlined in Hr; by destruct (ev_rdl ev)).
  destruct (readRaw_parsed _ _ _ _ Hread Hu) as (Hf & -> & Hsz & rest & Hv).
  apply visible_prefix in Hv as [rest' Hd].
  destruct (match rl_Hook r with Some _ => _ | None => None end) as [e|] eqn:Hh; [right; by eexists|].
  left. exists f, rest'. split_and!; [split_and!; [done..|by unfold hook_allows; destruct (rl_Hook r)]|done|].
  destruct (writeDeadlined ev (marshal f)) as [out []] eqn:Hw.
  - left. assert (out = marshal f) as -> by (unfold writeDeadlined in Hw; by destruct (ev_wdl ev), (ev_write ev); simplify_eq).
    split; [done|]. by rewrite Hd, drop_app_length.
  - right. by exists out.
Qed.

Lemma write_prefix ev raw part : writeDeadlined ev raw = (part, false) -> exists k, part = take k raw.
Proof.
  unfold writeDeadlined. intros H. destruct (ev_wdl ev), (ev_write ev) as [k|]; simplify_eq;
    first [by exists k | by exists O].
Qed.

Lemma closed_write ev raw : closed_env ev -> writeDeadlined ev raw = ([], false).
Proof. unfold closed_env, writeDeadlined. intros ->. by destruct (ev_wdl ev). Qed.

Lemma relayable_pos d f : relayable d f -> (36 <= length (marshal f))%nat.
Proof.
  intros _. pose proof (blen_marshal f). pose proof (blen_nonneg (Payload f)). unfold frame_size, HeaderSize, blen in *. lia.
Qed.

(** ** The loop *)

Lemma forward_fine d f rest fin :
  relayable d f -> forward_frame d env_fine (mkSource (marshal f ++ rest) fin) = (marshal f, inl (mkSource rest fin)).
Proof.
  intros (Hf & Hsz & Hh). unfold forward_frame. cbn [ev_done env_fine].
  unfold readDeadlined, visible. cbn [ev_rdl ev_cut env_fine]. rewrite readRaw_marshal, unmarshal_marshal by done.
  unfold hook_allows in Hh. assert (match rl_Hook r with Some hook => hook d (header_of (marshal f) f) | None => None end = None) as ->
    by (by destruct (rl_Hook r)).
  cbn [writeDeadlined ev_wdl ev_write env_fine so_data so_fin]. by rewrite drop_app_length.
Qed.

(** A read reports the end of the stream only at a frame boundary. *)
Lemma readRaw_eof s max : readRawFrame s max = Err ErrEOF <-> so_data s = [] /\ so_fin s = ErrEOF.
Proof.
  unfold readRawFrame. split.
  - destruct (readFull 36 s) as [h|e] eqn:Hh; cbn [mbind result_bind].
    + destruct (negb _); [discriminate|]. cbn [check mbind result_bind]. destruct (max <? _); [discriminate|].
      cbn [check mbind result_bind]. destruct (_ <? _); [|discriminate].
      clear Hh. destruct (readFull _ _) as [p|e]; cbn [map_err mbind result_bind]; [discriminate|].
      case_bool_decide as He; [discriminate|]. intros [= ->]. done.
    + intros [= ->]. unfold readFull in Hh. destruct (_ <=? _)%nat; [discriminate|]. injection Hh as Hh.
      case_bool_decide as Hf; [|by rewrite Hh in Hf]. destruct (blen (so_data s) =? 0) eqn:H0; [|discriminate].
      apply Z.eqb_eq in H0. split; [|done]. destruct (so_data s) as [|x l]; [done|]. rewrite blen_cons in H0. pose proof (blen_nonneg l). lia.
  - intros [Hs He]. unfold readFull. by rewrite Hs, He.
Qed.

(** A stream that does not start with a frame to forward ends the loop, with nil exactly
    at its end. *)
Lemma forward_stops d s :
  (forall f rest, relayable d f -> so_data s <> marshal f ++ rest) ->
  exists res, forward_frame d env_fine s = ([], inr res) /\ (res = None <-> so_data s = [] /\ so_fin s = ErrEOF).
Proof.
  intros Hno. destruct (forward_frame_cases d env_fine s) as [(f & rest & Hf & Hd & _)|[res Hres]]; [by destruct (Hno f rest)|].
  exists res. split; [done|]. unfold forward_frame in Hres. cbn [ev_done env_fine] in Hres.
  unfold readDeadlined, visible in Hres. cbn [ev_rdl ev_cut env_fine] in Hres.
  assert (readRawFrame s relay_maxFrameSize = Err ErrEOF <-> so_data s = [] /\ so_fin s = ErrEOF) as Heof by apply readRaw_eof.
  destruct (readRawFrame s relay_maxFrameSize) as [raw|e] eqn:Hr.
  - assert (res <> None) as Hne; [|by rewrite <- Heof; split].
    destruct (UnmarshalBinary raw); [|by injection Hres as <-].
    destruct (match rl_Hook r with Some _ => _ | None => None end); [by injection Hres as <-|discriminate].
  - injection Hres as <-. case_bool_decide as He; [subst e; by rewrite <- Heof|]. rewrite <- Heof. split; [done|]. intros [=]. done.
Qed.

(** A stream of frames to forward goes through whole. *)
Lemma forward_all d fs fuel :
  Forall (relayable d) fs -> (length fs < fuel)%nat ->
  forward fuel d (fun _ => env_fine) (mkSource (frames_octets fs) ErrEOF) = (frames_octets fs, Some None).
Proof.
  intros Hfs. revert fuel. induction Hfs as [|f fs Hf Hfs IH]; intros [|fuel] Hfuel; cbn [length] in Hfuel; [lia| |lia|].
  - done.
  - cbn [forward]. change (frames_octets (f :: fs)) with (marshal f ++ frames_octets fs).
    rewrite forward_fine by done. rewrite IH by lia. done.
Qed.

(** Every stream is a run of frames to forward and what follows it. *)
Lemma relay_split d s :
  exists fs rest, so_data s = frames_octets fs ++ rest /\ Forall (relayable d) fs /\
    (forall f rest', relayable d f -> rest <> marshal f ++ rest') /\
    forall fuel, (length fs < fuel)%nat -> exists res,
      forward fuel d (fun _ => env_fine) s = (frames_octets fs, Some res) /\
      (res = None <-> rest = [] /\ so_fin s = ErrEOF).
Proof.
  remember (length (so_data s)) as n eqn:Hn. revert s Hn. induction n as [n IH] using lt_wf_ind. intros s Hn.
  destruct (forward_frame_cases d env_fine s) as [(f & rest & Hf & Hd & _)|[res Hres]].
  - pose proof (relayable_pos d f Hf) as Hpos.
    destruct (IH (length rest)) with (s := mkSource rest (so_fin s)) as (fs & rest' & Hr & Hfs & Hstop & Hrun);
      [rewrite Hn, Hd, length_app; lia|done|]. cbn [so_data so_fin] in *.
    exists (f :: fs), rest'. split_and!; [by rewrite Hd, Hr; unfold frames_octets; cbn [map concat]; rewrite app_assoc|by constructor|done|].
    intros [|fuel] Hfuel; cbn [length] in Hfuel; [lia|]. destruct (Hrun fuel ltac:(lia)) as (res & Hres & Hnil).
    exists res. split; [|done]. cbn [forward]. destruct s as [data fin]. cbn [so_data so_fin] in *. subst data.
    rewrite forward_fine by done. by rewrite Hres.
  - exists [], (so_data s). assert (forall f rest', relayable d f -> so_data s <> marshal f ++ rest') as Hstop.
    { intros f rest' Hf Hd. destruct s as [data fin]. cbn [so_data] in Hd. subst data. rewrite forward_fine in Hres by done.
      discriminate. }
    split_and!; [done|constructor|done|]. intros [|fuel] Hfuel; [lia|]. cbn [forward].
    destruct (forward_stops d s Hstop) as (res' & -> & Hnil). by exists res'.
Qed.
End relay.

(** C37: With a transport that does not fail, a direction of the relay writes exactly the
    longest run of leading frames that parse, fit the cap and pass the hook, octet for
    octet; what follows that run is not forwarded at all, and the loop returns nil exactly
    when nothing follows and the peer closed.  The loop ends within one iteration more than
    it forwards frames. *)
Theorem relay_forward_exact {E} (r : @Relay E) (d : Direction) (s : source) :
  exists fs rest, so_data s = frames_octets fs ++ rest /\ Forall (relayable r d) fs /\
    (forall f rest', relayable r d f -> rest <> marshal f ++ rest') /\
    forall fuel, (length fs < fuel)%nat -> exists res,
      forward r fuel d (fun _ => env_fine) s = (frames_octets fs, Some res) /\
      (res = None <-> rest = [] /\ so_fin s = ErrEOF).
Proof. apply relay_split. Qed.

(** ** The two directions *)

Section run.
Context {E : Type} (r : @Relay E).

(** What direction [d] has written of the octets [data] of its source: frames the relay may
    forward, and at most a part of one more when a write failed. *)
Definition relayed (d : Direction) (data out : bytes) (res : option (option (@relay_error E))) : Prop :=
  exists fs part, out = frames_octets fs ++ part /\ Forall (relayable r d) fs /\ out `prefix_of` data /\
    (part = [] \/ res = Some (Some RWrite) /\ exists f, relayable r d f /\ part `prefix_of` marshal f).

(** The invariant of one direction: a direction that still runs is at a frame boundary. *)
Definition dir_inv (data : bytes) (d : Direction) (st : flow) : Prop :=
  relayed d data (fl_out st d) (fl_res st d) /\
  (fl_res st d = None -> data = fl_out st d ++ so_data (fl_src st d) /\
     exists fs, fl_out st d = frames_octets fs /\ Forall (relayable r d) fs).

Lemma frames_octets_snoc fs f : frames_octets (fs ++ [f]) = frames_octets fs ++ marshal f.
Proof. unfold frames_octets. rewrite map_app, concat_app. cbn [map concat]. by rewrite app_nil_r. Qed.

Lemma upd_same {A} (f : Direction -> A) d x : upd f d x d = x.
Proof. unfold upd. by rewrite decide_True. Qed.

Lemma upd_other {A} (f : Direction -> A) d d' x : d <> d' -> upd f d x d' = f d'.
Proof. intros. unfold upd. by rewrite decide_False. Qed.

Lemma iterate_inv data d ev st :
  fl_res st d = None -> dir_inv data d st -> dir_inv data d (iterate r d ev st).
Proof.
  intros Hn [Hrel Hrun]. destruct (Hrun Hn) as (Hdata & fs & Hout & Hfs). unfold iterate.
  destruct (forward_frame_cases r d ev (fl_src st d)) as [(f & rest & Hf & Hd & [[Hw ->]|(part & Hw & ->)])|[res ->]].
  - split; cbn [fl_out fl_res fl_src]; rewrite !upd_same.
    + exists (fs ++ [f]), []. rewrite frames_octets_snoc, app_nil_r, Hout. split_and!; [done|by apply Forall_app; split; [|constructor]| |by left].
      exists rest. by rewrite Hdata, Hd, Hout, app_assoc.
    + intros _. cbn [so_data]. split; [by rewrite Hdata, Hd, app_assoc|]. exists (fs ++ [f]).
      rewrite frames_octets_snoc, Hout. split; [done|]. by apply Forall_app; split; [|constructor].
  - apply write_prefix in Hw as [k ->]. split; cbn [fl_out fl_res fl_src]; rewrite !upd_same; [|done].
    exists fs, (take k (marshal f)). rewrite Hout. split_and!; [done|done| |].
    + exists (drop k (marshal f) ++ rest). by rewrite Hdata, Hd, Hout, <- !app_assoc, (app_assoc (take k _)), take_drop.
    + right. split; [done|]. exists f. split; [done|]. exists (drop k (marshal f)). by rewrite take_drop.
  - split; cbn [fl_out fl_res fl_src]; rewrite !upd_same; [|done]. rewrite app_nil_r, Hout.
    exists fs, []. rewrite app_nil_r. split_and!; [done..| |by left]. rewrite <- Hout. by eexists.
Qed.

(** The other direction is not touched. *)
Lemma iterate_other d d' ev st :
  d <> d' -> fl_src (iterate r d ev st) d' = fl_src st d' /\ fl_out (iterate r d ev st) d' = fl_out st d' /\
    fl_res (iterate r d ev st) d' = fl_res st d' /\ fl_first (iterate r d ev st) = fl_first st.
Proof.
  intros Hne. unfold iterate. destruct (forward_frame _ _ _ _) as [out [s|res]]; cbn [fl_src fl_out fl_res fl_first];
    rewrite ?upd_other by done; done.
Qed.

Lemma step_inv data d st st' : run_step r st st' -> dir_inv data d st -> dir_inv data d st'.
Proof.
  intros Hs Hi. destruct Hs as [d' ev st Hn _|d' res st _ _]; [|done].
  destruct (decide (d' = d)) as [->|Hne]; [by apply iterate_inv|].
  destruct (iterate_other d' d ev st Hne) as (H1 & H2 & H3 & _). unfold dir_inv. by rewrite H1, H2, H3.
Qed.

(** Nothing is written once the legs are closed. *)
Lemma closed_iterate d ev st d' : closed_env ev -> fl_out (iterate r d ev st) d' = fl_out st d'.
Proof.
  intros Hc. unfold iterate.
  destruct (forward_frame_cases r d ev (fl_src st d)) as [(f & rest & _ & _ & [[Hw _]|(part & Hw & ->)])|[res ->]];
    try rewrite (closed_write ev _ Hc) in Hw.
  - discriminate.
  - injection Hw as <-. cbn [fl_out]. destruct (decide (d = d')) as [->|]; [by rewrite upd_same, app_nil_r|by rewrite upd_other].
  - cbn [fl_out]. destruct (decide (d = d')) as [->|]; [by rewrite upd_same, app_nil_r|by rewrite upd_other].
Qed.

(** The result taken first is the result of a direction, and stays. *)
Definition first_inv (st : @flow E) : Prop :=
  forall res, fl_first st = Some res -> exists d, fl_res st d = Some res.

Lemma iterate_first d ev st : fl_first (iterate r d ev st) = fl_first st.
Proof. unfold iterate. by destruct (forward_frame _ _ _ _) as [out [s|res]]. Qed.

Lemma iterate_res d ev st d' x : fl_res st d = None -> fl_res st d' = Some x -> fl_res (iterate r d ev st) d' = Some x.
Proof.
  intros Hn Hx. destruct (decide (d = d')) as [->|Hne]; [congruence|].
  by destruct (iterate_other d d' ev st Hne) as (_ & _ & -> & _).
Qed.

Lemma step_first_inv st st' : run_step r st st' -> first_inv st -> first_inv st'.
Proof.
  intros Hs Hi. destruct Hs as [d ev st Hn _|d res st _ Hr].
  - intros res Hf. rewrite iterate_first in Hf. destruct (Hi res Hf) as [d' Hd']. exists d'. by apply iterate_res.
  - intros res' [= <-]. by exists d.
Qed.

(** ** Termination *)

Definition open_dir (st : @flow E) (d : Direction) : nat := match fl_res st d with None => 1 | Some _ => 0 end.

(** Octets to read, directions that run and the result to take. *)
Definition measure (st : @flow E) : nat :=
  length (so_data (fl_src st DirAToB)) + length (so_data (fl_src st DirBToA)) +
  open_dir st DirAToB + open_dir st DirBToA + match fl_first st with None => 1 | Some _ => 0 end.

Lemma iterate_measure_dir d ev st :
  fl_res st d = None ->
  (length (so_data (fl_src (iterate r d ev st) d)) + open_dir (iterate r d ev st) d <
   length (so_data (fl_src st d)) + open_dir st d)%nat.
Proof.
  intros Hn. unfold open_dir. rewrite Hn. unfold iterate.
  destruct (forward_frame_cases r d ev (fl_src st d)) as [(f & rest & Hf & Hd & [[_ ->]|(part & _ & ->)])|[res ->]];
    cbn [fl_src fl_res]; rewrite ?upd_same, ?Hn; cbn [so_data]; [|lia..].
  rewrite Hd, length_app. pose proof (relayable_pos r d f Hf). lia.
Qed.

Lemma step_measure st st' : run_step r st st' -> (measure st' < measure st)%nat.
Proof.
  intros Hs. destruct Hs as [d ev st Hn _|d res st Hf _]; unfold measure.
  - pose proof (iterate_measure_dir d ev st Hn). rewrite iterate_first.
    destruct d; [destruct (iterate_other DirAToB DirBToA ev st) as (H1 & _ & H2 & _)|
                 destruct (iterate_other DirBToA DirAToB ev st) as (H1 & _ & H2 & _)]; [done|..|done|];
      unfold open_dir in *; rewrite H1, H2; lia.
  - cbn [fl_src fl_first]. rewrite Hf. unfold open_dir. cbn [fl_res]. lia.
Qed.

(** A state from which nothing can happen is one where Run returns. *)
Lemma stuck_returned st : (forall st', ~ run_step r st st') -> exists res, returned st res.
Proof.
  intros Hstuck. assert (forall d, fl_res st d <> None) as Hres.
  { intros d Hn. eapply Hstuck. apply (rs_iterate r d (mkEnv false DLNone None DLNone (Some O)) st); done. }
  destruct (fl_first st) as [res|] eqn:Hf; [by exists res; split|].
  destruct (fl_res st DirAToB) as [res|] eqn:Ha; [|by destruct (Hres DirAToB)].
  destruct (Hstuck (mkFlow (fl_src st) (fl_out st) (fl_res st) (Some res))). by eapply rs_first.
Qed.

Lemma reachable_inv srcA srcB st :
  rtc (run_step r) (flow_init srcA srcB) st ->
  dir_inv (so_data srcA) DirAToB st /\ dir_inv (so_data srcB) DirBToA st /\ first_inv st.
Proof.
  intros Hr. refine (rtc_ind_r (fun st => dir_inv (so_data srcA) DirAToB st /\ dir_inv (so_data srcB) DirBToA st /\ first_inv st)
    (flow_init srcA srcB) _ _ st Hr).
  - split_and!; [..|by intros res [=]]; (split; [exists [], []; cbn; split_and!; [done|constructor|apply prefix_nil|by left]|]);
      (intros _; split; [done|]; exists []; by split; [|constructor]).
  - intros st1 st2 _ Hs (HA & HB & HF). split_and!; [by eapply step_inv..|by eapply step_first_inv].
Qed.

Lemma steps_bounded n st st' : nsteps (run_step r) n st st' -> (n + measure st' <= measure st)%nat.
Proof.
  induction 1 as [|n x y z Hs _ IH]; [lia|]. apply step_measure in Hs. lia.
Qed.
End run.

(** C36: whatever the two peers send and however the transports fail, in every state Run
    can reach each leg has been written only complete frames that came from the other leg
    in order, octet for octet, and that parse, fit the cap and pass the hook (and at most
    the beginning of one more, when a write failed); once Run has taken the result of the
    first direction to stop and closed both legs, no octet is written on either; a run takes at most as many steps as there are
    octets, plus three, and where it can go no further Run has returned the result of one
    of the directions. *)
Theorem relay_fail_closed {E} (r : @Relay E) (srcA srcB : source) (n : nat) (st : flow)
    (Hrun : nsteps (run_step r) n (flow_init srcA srcB) st) :
  relayed r DirAToB (so_data srcA) (fl_out st DirAToB) (fl_res st DirAToB) /\
  relayed r DirBToA (so_data srcB) (fl_out st DirBToA) (fl_res st DirBToA) /\
  (fl_first st <> None -> forall st' d, run_step r st st' -> fl_out st' d = fl_out st d) /\
  (n <= length (so_data srcA) + length (so_data srcB) + 3)%nat /\
  ((forall st', ~ run_step r st st') -> exists res d, returned st res /\ fl_res st d = Some res).
Proof.
  pose proof (reachable_inv r srcA srcB st (rtc_nsteps_2 _ _ _ Hrun)) as ([HA _] & [HB _] & HF). split_and!; [done..| | |].
  - intros Hf st' d Hs. destruct Hs as [d' ev st Hn Hc|d' res st Hn _]; [|done]. by apply closed_iterate, Hc.
  - apply steps_bounded in Hrun. unfold measure, open_dir in Hrun. cbn [flow_init fl_src fl_res fl_first] in Hrun. lia.
  - intros Hstuck. destruct (stuck_returned r st Hstuck) as [res Hres]. destruct (HF res (proj1 Hres)) as [d Hd]. by exists res, d.
Qed.

(** A frame on its way from A to B, and the closed connections after it. *)
Definition demo_frame : Frame := mkFrame ProtocolVersion 0 1 0 7 (str "ping").

Lemma relay_fail_closed_witness :
  let r := @mkRelay unit None 0 in
  let st := iterate r DirAToB env_fine (flow_init (mkSource (marshal demo_frame) ErrEOF) (mkSource [] ErrEOF)) in
  fl_out st DirAToB = marshal demo_frame /\
  relayed r DirAToB (marshal demo_frame) (fl_out st DirAToB) (fl_res st DirAToB).
Proof.
  intros r st. split; [by vm_compute|].
  apply (relay_fail_closed r (mkSource (marshal demo_frame) ErrEOF) (mkSource [] ErrEOF) 1 st).
  eapply nsteps_l; [|apply nsteps_O]. by apply rs_iterate.
Defined.
