(* ===== verification/WireValidator.v ===== *)
(** * The wire validator (wirevalidator/registries.go, validate.go, relayhook.go)

    Code points read from registry tables, the loaded registries, and the checks of frames,
    TLVs and error codes against them.  A table is what [encoding/csv] yields for a file:
    its header and its records.  Loading makes an entry of exactly the rows that name one,
    and a frame is accepted exactly when its type and channel are registered and it fits the
    size cap. *)

From S2P Require Import Prelude Errors Registry Frame Tlv Relay.
From Stdlib Require Import Strings.Byte.
From stdpp Require Import gmap.
Open Scope Z_scope.

Definition SystemFrameMax : Z := 0x000A.

(** ** Code points *)

(** The encodings of the runes [unicode.IsSpace] holds of. *)
Definition spaces : list bytes :=
  [[x09]; [x0a]; [x0b]; [x0c]; [x0d]; [x20]; [xc2; x85]; [xc2; xa0]; [xe1; x9a; x80];
   [xe2; x80; x80]; [xe2; x80; x81]; [xe2; x80; x82]; [xe2; x80; x83]; [xe2; x80; x84]; [xe2; x80; x85];
   [xe2; x80; x86]; [xe2; x80; x87]; [xe2; x80; x88]; [xe2; x80; x89]; [xe2; x80; x8a];
   [xe2; x80; xa8]; [xe2; x80; xa9]; [xe2; x80; xaf]; [xe2; x81; x9f]; [xe3; x80; x80]].

(** Drops every leading member of [ss]; [fuel] is the length of the string. *)
Fixpoint trim_left (ss : list bytes) (fuel : nat) (s : bytes) : bytes :=
  match fuel with
  | O => s
  | S fuel =>
      match find (fun w => bool_decide (take (length w) s = w)) ss with
      | Some w => trim_left ss fuel (drop (length w) s)
      | None => s
      end
  end.

(** [strings.TrimSpace] *)
Definition TrimSpace (s : bytes) : bytes :=
  let s := trim_left spaces (length s) s in
  rev (trim_left (map (@rev byte) spaces) (length s) (rev s)).

Definition lower (c : Z) : Z := Z.lor c 0x20.

(** [underscoreOK] of strconv: underscores only between digits, a base prefix counting as
    one.  [saw] is the class of the last character. *)
Inductive seen_class : Type := SawStart | SawDigit | SawUnderscore | SawOther.

Fixpoint underscore_scan (hex : bool) (saw : seen_class) (s : bytes) : bool :=
  match s with
  | [] => match saw with SawUnderscore => false | _ => true end
  | c :: s =>
      let z := b2z c in
      if ((48 <=? z) && (z <=? 57)) || (hex && (97 <=? lower z) && (lower z <=? 102))
      then underscore_scan hex SawDigit s
      else if z =? 95 then
        match saw with SawDigit => underscore_scan hex SawUnderscore s | _ => false end
      else match saw with SawUnderscore => false | _ => underscore_scan hex SawOther s end
  end.

Definition is_letter (c : byte) (l : Z) : bool := lower (b2z c) =? l.

Definition underscoreOK (s : bytes) : bool :=
  let s := match s with c :: s' => if (b2z c =? 45) || (b2z c =? 43) then s' else s | [] => s end in
  match s with
  | z :: p :: s' =>
      if (b2z z =? 48) && (is_letter p 98 || is_letter p 111 || is_letter p 120)
      then underscore_scan (is_letter p 120) SawDigit s' else underscore_scan false SawStart s
  | _ => underscore_scan false SawStart s
  end.

(** The digits of [ParseUint] in a base, with the underscores seen. *)
Fixpoint parse_digits (base n : Z) (under : bool) (s : bytes) : option (Z * bool) :=
  match s with
  | [] => Some (n, under)
  | c :: s =>
      let z := b2z c in
      if z =? 95 then parse_digits base n true s
      else
        let digit := if (48 <=? z) && (z <=? 57) then Some (z - 48)
                     else if (97 <=? lower z) && (lower z <=? 122) then Some (lower z - 97 + 10)
                     else None in
        match digit with
        | None => None
        | Some d =>
            if base <=? d then None
            else if 2 ^ 64 <=? n * base + d then None
            else parse_digits base (n * base + d) under s
        end
  end.

(** [strconv.ParseUint(s, 0, 64)], without the kind of its error. *)
Definition ParseUint (s : bytes) : option Z :=
  match s with
  | [] => None
  | c :: s' =>
      let '(base, digits) :=
        if b2z c =? 48 then
          match s' with
          | p :: ((_ :: _) as t) =>
              if is_letter p 98 then (2, t) else if is_letter p 111 then (8, t)
              else if is_letter p 120 then (16, t) else (8, s')
          | _ => (8, s')
          end
        else (10, s) in
      match parse_digits base 0 false digits with
      | None => None
      | Some (n, under) => if under && negb (underscoreOK s) then None else Some n
      end
  end.

Definition parseCodePoint (tok : bytes) : option Z :=
  let tok := TrimSpace tok in
  if (blen tok =? 0) || existsb (fun c => b2z c =? 45) tok then None else ParseUint tok.

Example code_points :
  parseCodePoint (str "0x00A3") = Some 163 /\ parseCodePoint (str " 10 ") = Some 10 /\
  parseCodePoint (str "010") = Some 8 /\ parseCodePoint (str "0x0030-0x0034") = None /\
  parseCodePoint (str "1_000") = Some 1000 /\ parseCodePoint (str "1__0") = None /\ parseCodePoint (str "0") = Some 0 /\
  parseCodePoint (str "0x") = None /\ parseCodePoint (str "0x10000000000000000") = None /\ parseCodePoint [] = None.
Proof. by vm_compute. Qed.

(** ** Registries *)

Inductive werror : Type :=
| WOpen | WCsv | WCodePoint (row : nat) | WName (row : nat) | WNoEntries | WEmptySet.

(** [encoding/csv] on one file: the header and the records, or the error that stopped it. *)
Record csv_table : Type := mkTable { ct_header : list bytes; ct_records : list (list bytes) }.

(** A row maps column names to values; a repeated column keeps its last value. *)
Definition csv_row : Type := list (bytes * bytes).

Definition readCSVRows (file : result werror csv_table) : result werror (list csv_row) :=
  t ← file;
  Ok (map (fun rec => zip (ct_header t) rec) (ct_records t)).

(** [row[col]] *)
Definition row_get (row : csv_row) (col : bytes) : bytes :=
  foldl (fun acc e => if bool_decide (e.1 = col) then e.2 else acc) [] row.

Record Registries : Type := mkRegistries {
  channels : gmap Z bytes;
  systemFrames : gmap Z bytes;
  chanFrames : gmap (Z * Z) bytes;
  tlvTags : gmap Z bytes;
  errorCodes : gmap Z bytes
}.

Definition reserved_name : bytes := str "(reserved)".

(** The loops over rows.  Each takes the map built so far. *)
Fixpoint load_channel_rows (i : nat) (rows : list csv_row) (m : gmap Z bytes) : result werror (gmap Z bytes) :=
  match rows with
  | [] => Ok m
  | row :: rows =>
      match parseCodePoint (row_get row (str "channel_id")) with
      | None => Err (WCodePoint i)
      | Some id =>
          check (0xFFFF <? id) (WCodePoint i);;
          let name := row_get row (str "name") in
          check (blen name =? 0) (WName i);;
          load_channel_rows (S i) rows (<[u16 id := name]> m)
      end
  end.

Definition loadChannels (file : result werror csv_table) : result werror (gmap Z bytes) :=
  rows ← readCSVRows file;
  load_channel_rows 0 rows ∅.

Fixpoint load_chan_frame_rows (i : nat) (rows : list csv_row) (m : gmap (Z * Z) bytes) : result werror (gmap (Z * Z) bytes) :=
  match rows with
  | [] => Ok m
  | row :: rows =>
      match parseCodePoint (row_get row (str "channel_id")) with
      | None => Err (WCodePoint i)
      | Some cid =>
          check (0xFFFF <? cid) (WCodePoint i);;
          match parseCodePoint (row_get row (str "frame_type")) with
          | None => Err (WCodePoint i)
          | Some ft =>
              check (0xFFFF <? ft) (WCodePoint i);;
              let name := row_get row (str "name") in
              check (blen name =? 0) (WName i);;
              load_chan_frame_rows (S i) rows (<[(u16 cid, u16 ft) := name]> m)
          end
      end
  end.

Definition loadChanFrames (file : result werror csv_table) : result werror (gmap (Z * Z) bytes) :=
  rows ← readCSVRows file;
  load_chan_frame_rows 0 rows ∅.

(** The other three tables skip rows: those whose [col] is not one code point within
    [lo..hi] and those with no name of their own. *)
Definition named_row (col : bytes) (lo hi : Z) (row : csv_row) : option (Z * bytes) :=
  match parseCodePoint (row_get row col) with
  | None => None
  | Some code =>
      if (code <? lo) || (hi <? code) then None
      else let name := row_get row (str "name") in
           if (blen name =? 0) || bool_decide (name = reserved_name) then None else Some (code, name)
  end.

Definition load_named (col : bytes) (lo hi : Z) (file : result werror csv_table) : result werror (gmap Z bytes) :=
  rows ← readCSVRows file;
  let m := foldl (fun m row => match named_row col lo hi row with
                               | None => m
                               | Some (code, name) => <[code := name]> m
                               end) ∅ rows in
  check (bool_decide (m = ∅)) WNoEntries;;
  Ok m.

Definition loadSystemFrames : result werror csv_table -> result werror (gmap Z bytes) :=
  load_named (str "frame_type") 1 SystemFrameMax.
Definition loadTLVTags : result werror csv_table -> result werror (gmap Z bytes) :=
  load_named (str "tag") 0 0xFFFF.
Definition loadErrorCodes : result werror csv_table -> result werror (gmap Z bytes) :=
  load_named (str "code") 0 0xFF.

(** The five files under [registries/]. *)
Record registry_files : Type := mkFiles {
  rf_channels : result werror csv_table;
  rf_reserved : result werror csv_table;
  rf_channel_frames : result werror csv_table;
  rf_tlv_tags : result werror csv_table;
  rf_error_codes : result werror csv_table
}.

Definition Load (files : registry_files) : result werror Registries :=
  ch ← loadChannels (rf_channels files);
  sf ← loadSystemFrames (rf_reserved files);
  cf ← loadChanFrames (rf_channel_frames files);
  tt_ ← loadTLVTags (rf_tlv_tags files);
  ec ← loadErrorCodes (rf_error_codes files);
  check (bool_decide (ch = ∅) || bool_decide (sf = ∅) || bool_decide (cf = ∅) ||
         bool_decide (tt_ = ∅) || bool_decide (ec = ∅)) WEmptySet;;
  Ok (mkRegistries ch sf cf tt_ ec).

(** ** Checks *)

Inductive RejectReason : Type :=
| ReasonFrameTypeReserved | ReasonChannelNotRegistered | ReasonFrameTypeNotRegisteredForChannel
| ReasonFrameTooLarge | ReasonTooManyTLVs | ReasonTLVTagNotRegistered | ReasonErrorCodeNotRegistered.

#[export] Instance RejectReason_eq_dec : EqDecision RejectReason.
Proof. solve_decision. Defined.

Definition has {K V} `{Countable K} (m : gmap K V) (k : K) : bool := bool_decide (is_Some (m !! k)).

Definition checkFrameType (reg : Registries) (channel frameType : Z) : result RejectReason unit :=
  if frameType =? 0 then Err ReasonFrameTypeReserved
  else if negb (has (channels reg) channel) then Err ReasonChannelNotRegistered
  else if frameType <=? SystemFrameMax then
    check (negb (has (systemFrames reg) frameType)) ReasonFrameTypeNotRegisteredForChannel
  else check (negb (has (chanFrames reg) (channel, frameType))) ReasonFrameTypeNotRegisteredForChannel.

(** [tlvCount] is -1 when it is not known. *)
Definition checkBounds (totalSize tlvCount : Z) : result RejectReason unit :=
  check (MaxFrameSize <? totalSize) ReasonFrameTooLarge;;
  check ((0 <=? tlvCount) && (MaxTLVsPerFrame <? tlvCount)) ReasonTooManyTLVs.

(** [None] is a nil frame. *)
Definition Validate (reg : Registries) (f : option Frame) : result RejectReason unit :=
  match f with
  | None => Err ReasonFrameTypeReserved
  | Some f =>
      checkFrameType reg (Channel f) (Type_ f);;
      checkBounds (HeaderSize + blen (Payload f)) (-1)
  end.

(** The structural error, or the validator's verdict. *)
Definition ValidateBytes (reg : Registries) (buf : bytes) : result (error + RejectReason) unit :=
  f ← map_err inl (UnmarshalBinary buf);
  map_err inr (Validate reg (Some f)).

Definition ValidateTLVTag (reg : Registries) (t : Z) : result RejectReason unit :=
  check (negb (has (tlvTags reg) t)) ReasonTLVTagNotRegistered.

Fixpoint validate_tags (reg : Registries) (tlvs : list TLV) : result RejectReason unit :=
  match tlvs with
  | [] => Ok tt
  | t :: tlvs => ValidateTLVTag reg (TLVType t);; validate_tags reg tlvs
  end.

Definition ValidateTLVSequence (reg : Registries) (tlvs : list TLV) : result RejectReason unit :=
  checkBounds 0 (blen tlvs);;
  validate_tags reg tlvs.

Definition ValidateErrorCode (reg : Registries) (code : Z) : result RejectReason unit :=
  check (negb (has (errorCodes reg) code)) ReasonErrorCodeNotRegistered.

(** The relay hook: [None] accepts. *)
Definition RelayHook (reg : Registries) : @HookFunc RejectReason := fun _ header =>
  match (checkFrameType reg (fh_Channel header) (fh_Type header);;
         checkBounds (HeaderSize + fh_PayloadLen header) (-1)) with
  | Ok _ => None
  | Err e => Some e
  end.

(** ** What the tables say *)

Definition rows_of (t : csv_table) : list csv_row := map (fun rec => zip (ct_header t) rec) (ct_records t).

(** The entry a row of channels.csv and of frame_types_channel.csv stands for. *)
Definition channel_entry (row : csv_row) : option (Z * bytes) :=
  match parseCodePoint (row_get row (str "channel_id")) with
  | Some c => if (c <=? 0xFFFF) && negb (blen (row_get row (str "name")) =? 0) then Some (c, row_get row (str "name")) else None
  | None => None
  end.

Definition chan_frame_entry (row : csv_row) : option (Z * Z * bytes) :=
  match parseCodePoint (row_get row (str "channel_id")), parseCodePoint (row_get row (str "frame_type")) with
  | Some c, Some t =>
      if (c <=? 0xFFFF) && (t <=? 0xFFFF) && negb (blen (row_get row (str "name")) =? 0)
      then Some (c, t, row_get row (str "name")) else None
  | _, _ => None
  end.

(** The map of the entries of the rows, the last row of a key deciding its value. *)
Definition last_wins {K} `{Countable K} (entry : csv_row -> option (K * bytes)) (rows : list csv_row) : gmap K bytes :=
  list_to_map (reverse (omap entry rows)).

Definition strict {A} (entry : csv_row -> option A) (rows : list csv_row) : Prop :=
  Forall (fun row => is_Some (entry row)) rows.

Lemma last_wins_snoc {K} `{Countable K} (entry : csv_row -> option (K * bytes)) rows row :
  last_wins entry (rows ++ [row]) =
  match entry row with Some (k, v) => <[k := v]> (last_wins entry rows) | None => last_wins entry rows end.
Proof.
  unfold last_wins. rewrite omap_app, reverse_app. cbn. by destruct (entry row) as [[k v]|].
Qed.

(** ** Parsing stays in range *)

Lemma parse_digits_range base n under s v u : 0 <= n -> 0 <= base -> parse_digits base n under s = Some (v, u) -> 0 <= v.
Proof.
  intros Hn Hb. revert n under Hn. induction s as [|c s IH]; intros n under Hn; cbn [parse_digits]; [by intros [= <- _]|].
  destruct (b2z c =? 95); [by apply IH|].
  destruct ((48 <=? b2z c) && (b2z c <=? 57)) eqn:E1; [|destruct ((97 <=? lower (b2z c)) && (lower (b2z c) <=? 122)) eqn:E2; [|discriminate]];
    bprop; (destruct (base <=? _); [discriminate|]; destruct (2 ^ 64 <=? _); [discriminate|]; apply IH; nia).
Qed.

Lemma ParseUint_range s v : ParseUint s = Some v -> 0 <= v.
Proof.
  unfold ParseUint. destruct s as [|c s']; [discriminate|].
  set (bd := if b2z c =? 48 then _ else _). assert (0 <= bd.1) as Hb.
  { unfold bd. destruct (b2z c =? 48); [|done]. destruct s' as [|p [|q t]]; [done..|].
    by destruct (is_letter p 98), (is_letter p 111), (is_letter p 120). }
  destruct bd as [base ds]. destruct (parse_digits base 0 false ds) as [[n u]|] eqn:E; [|discriminate].
  destruct (u && _); [discriminate|]. intros [= <-]. eapply (parse_digits_range base 0 false ds n u); [done|exact Hb|exact E].
Qed.

Lemma parseCodePoint_range tok v : parseCodePoint tok = Some v -> 0 <= v.
Proof. unfold parseCodePoint. destruct (_ || _); [discriminate|]. apply ParseUint_range. Qed.

Lemma code_point_u16 tok v : parseCodePoint tok = Some v -> v <= 0xFFFF -> u16 v = v.
Proof. intros H%parseCodePoint_range Hv. unfold u16. apply Z.mod_small. lia. Qed.

(** ** The loaders *)

Lemma load_channel_rows_iff i done rows m :
  load_channel_rows i rows (last_wins channel_entry done) = Ok m <->
  strict channel_entry rows /\ m = last_wins channel_entry (done ++ rows).
Proof.
  revert i done. induction rows as [|row rows IH]; intros i done; cbn [load_channel_rows].
  { rewrite app_nil_r. split; [intros [= <-]; split; [constructor|done]|by intros [_ ->]]. }
  assert (strict channel_entry (row :: rows) <-> is_Some (channel_entry row) /\ strict channel_entry rows) as Hst
    by (unfold strict; by rewrite Forall_cons). rewrite Hst. clear Hst.
  replace (done ++ row :: rows) with ((done ++ [row]) ++ rows) by (by rewrite <- app_assoc).
  unfold channel_entry at 2. destruct (parseCodePoint _) as [c|] eqn:Hp; [|split; [discriminate|by intros [[[? ?] _] _]]].
  destruct (Z.leb_spec c 0xFFFF) as [Hc|Hc].
  2: { rewrite (proj2 (Z.ltb_lt _ _)) by done. split; [discriminate|]. by intros [[[? ?] _] _]. }
  rewrite (proj2 (Z.ltb_ge _ c)) by done.
  cbn [check mbind result_bind andb]. destruct (blen _ =? 0) eqn:Hn; cbn [check mbind result_bind negb]; [split; [discriminate|by intros [[[? ?] _] _]]|].
  rewrite (code_point_u16 _ _ Hp Hc).
  assert (last_wins channel_entry (done ++ [row]) = <[c := row_get row (str "name")]> (last_wins channel_entry done)) as Hlw.
  { rewrite last_wins_snoc. unfold channel_entry at 1. rewrite Hp, (proj2 (Z.leb_le _ _)), Hn by done. done. }
  rewrite <- Hlw, IH. naive_solver.
Qed.

Lemma load_chan_frame_rows_iff i done rows m :
  load_chan_frame_rows i rows (last_wins chan_frame_entry done) = Ok m <->
  strict chan_frame_entry rows /\ m = last_wins chan_frame_entry (done ++ rows).
Proof.
  revert i done. induction rows as [|row rows IH]; intros i done; cbn [load_chan_frame_rows].
  { rewrite app_nil_r. split; [intros [= <-]; split; [constructor|done]|by intros [_ ->]]. }
  assert (strict chan_frame_entry (row :: rows) <-> is_Some (chan_frame_entry row) /\ strict chan_frame_entry rows) as Hst
    by (unfold strict; by rewrite Forall_cons). rewrite Hst. clear Hst.
  replace (done ++ row :: rows) with ((done ++ [row]) ++ rows) by (by rewrite <- app_assoc).
  unfold chan_frame_entry at 2. destruct (parseCodePoint (row_get row (str "channel_id"))) as [c|] eqn:Hp; [|split; [discriminate|by intros [[[? ?] _] _]]].
  destruct (Z.leb_spec c 0xFFFF) as [Hc|Hc].
  2: { rewrite (proj2 (Z.ltb_lt _ _)) by done. split; [discriminate|]. destruct (parseCodePoint (row_get row (str "frame_type"))); by intros [[[? ?] _] _]. }
  rewrite (proj2 (Z.ltb_ge _ c)) by done. cbn [check mbind result_bind andb].
  destruct (parseCodePoint (row_get row (str "frame_type"))) as [t|] eqn:Hq; [|split; [discriminate|by intros [[[? ?] _] _]]].
  destruct (Z.leb_spec t 0xFFFF) as [Ht|Ht].
  2: { rewrite (proj2 (Z.ltb_lt _ _)) by done. split; [discriminate|]. by intros [[[? ?] _] _]. }
  rewrite (proj2 (Z.ltb_ge _ t)) by done. cbn [check mbind result_bind andb].
  destruct (blen _ =? 0) eqn:Hn; cbn [check mbind result_bind negb]; [split; [discriminate|by intros [[[? ?] _] _]]|].
  rewrite (code_point_u16 _ _ Hp Hc), (code_point_u16 _ _ Hq Ht).
  assert (last_wins chan_frame_entry (done ++ [row]) = <[(c, t) := row_get row (str "name")]> (last_wins chan_frame_entry done)) as Hlw.
  { rewrite last_wins_snoc. unfold chan_frame_entry at 1. rewrite Hp, Hq, !(proj2 (Z.leb_le _ _)), Hn by done. done. }
  rewrite <- Hlw, IH. naive_solver.
Qed.

Lemma readCSVRows_iff file rows : readCSVRows file = Ok rows <-> exists t, file = Ok t /\ rows = rows_of t.
Proof.
  unfold readCSVRows. destruct file as [t|e]; cbn [mbind result_bind].
  - split; [intros [= <-]; by exists t|]. by intros (? & [= <-] & ->).
  - split; [discriminate|]. by intros (? & ? & _).
Qed.

Lemma named_fold col lo hi rows :
  foldl (fun m row => match named_row col lo hi row with None => m | Some (code, name) => <[code := name]> m end) ∅ rows
  = last_wins (named_row col lo hi) rows.
Proof.
  induction rows as [|row rows IH] using rev_ind; [done|]. rewrite foldl_app, last_wins_snoc. cbn [foldl]. rewrite IH.
  by destruct (named_row col lo hi row) as [[c n]|].
Qed.

Lemma load_named_iff col lo hi file m :
  load_named col lo hi file = Ok m <->
  exists t, file = Ok t /\ m = last_wins (named_row col lo hi) (rows_of t) /\ m <> ∅.
Proof.
  unfold load_named. split.
  - intros Hl. apply bind_Ok in Hl as (rows & Hr & Hl). apply readCSVRows_iff in Hr as (t & -> & ->).
    rewrite named_fold in Hl. apply bind_Ok in Hl as ([] & He & Hl). apply check_Ok, bool_decide_eq_false in He.
    injection Hl as <-. by exists t.
  - intros (t & -> & -> & Hne). rewrite (proj2 (readCSVRows_iff (Ok t) (rows_of t))) by (by exists t).
    cbn [mbind result_bind]. rewrite named_fold, bool_decide_eq_false_2 by done. done.
Qed.

Lemma loadChannels_iff file m :
  loadChannels file = Ok m <->
  exists t, file = Ok t /\ strict channel_entry (rows_of t) /\ m = last_wins channel_entry (rows_of t).
Proof.
  unfold loadChannels. rewrite bind_Ok. split.
  - intros (rows & Hr & Hl). apply readCSVRows_iff in Hr as (t & -> & ->).
    apply (load_channel_rows_iff 0 []) in Hl as [Hs ->]. by exists t.
  - intros (t & -> & Hs & ->). exists (rows_of t). split; [by apply readCSVRows_iff; exists t|].
    by apply (load_channel_rows_iff 0 []).
Qed.

Lemma loadChanFrames_iff file m :
  loadChanFrames file = Ok m <->
  exists t, file = Ok t /\ strict chan_frame_entry (rows_of t) /\ m = last_wins chan_frame_entry (rows_of t).
Proof.
  unfold loadChanFrames. rewrite bind_Ok. split.
  - intros (rows & Hr & Hl). apply readCSVRows_iff in Hr as (t & -> & ->).
    apply (load_chan_frame_rows_iff 0 []) in Hl as [Hs ->]. by exists t.
  - intros (t & -> & Hs & ->). exists (rows_of t). split; [by apply readCSVRows_iff; exists t|].
    by apply (load_chan_frame_rows_iff 0 []).
Qed.

(** The registries five tables stand for. *)
Definition registries_of (tc tr tf tt_ te : csv_table) : Registries :=
  mkRegistries (last_wins channel_entry (rows_of tc)) (last_wins (named_row (str "frame_type") 1 SystemFrameMax) (rows_of tr))
    (last_wins chan_frame_entry (rows_of tf)) (last_wins (named_row (str "tag") 0 0xFFFF) (rows_of tt_))
    (last_wins (named_row (str "code") 0 0xFF) (rows_of te)).

Definition all_nonempty (reg : Registries) : Prop :=
  channels reg <> ∅ /\ systemFrames reg <> ∅ /\ chanFrames reg <> ∅ /\ tlvTags reg <> ∅ /\ errorCodes reg <> ∅.

(** Load succeeds exactly when the five files are readable tables, every row of the
    channel and channel-frame tables is an entry, and no table comes out empty; the
    registries are then the entries of the rows, the last row of a code point deciding its
    name.  A table with one bad row, or with nothing in it, is refused. *)
Theorem load_exact (files : registry_files) (reg : Registries) :
  Load files = Ok reg <->
  exists tc tr tf tt_ te, files = mkFiles (Ok tc) (Ok tr) (Ok tf) (Ok tt_) (Ok te) /\
    strict channel_entry (rows_of tc) /\ strict chan_frame_entry (rows_of tf) /\
    reg = registries_of tc tr tf tt_ te /\ all_nonempty reg.
Proof.
  unfold Load, loadSystemFrames, loadTLVTags, loadErrorCodes, all_nonempty. split.
  - intros Hl. destruct files as [fc fr ff ft fe]. cbn [rf_channels rf_reserved rf_channel_frames rf_tlv_tags rf_error_codes] in Hl.
    apply bind_Ok in Hl as (ch & H1 & Hl). apply bind_Ok in Hl as (sf & H2 & Hl). apply bind_Ok in Hl as (cf & H3 & Hl).
    apply bind_Ok in Hl as (tg & H4 & Hl). apply bind_Ok in Hl as (ec & H5 & Hl). apply bind_Ok in Hl as ([] & H6 & Hl).
    injection Hl as <-. apply check_Ok in H6. rewrite !orb_false_iff, !bool_decide_eq_false in H6.
    apply loadChannels_iff in H1 as (tc & -> & Hs1 & ->). apply loadChanFrames_iff in H3 as (tf & -> & Hs3 & ->).
    apply load_named_iff in H2 as (tr & -> & -> & _). apply load_named_iff in H4 as (tt_ & -> & -> & _).
    apply load_named_iff in H5 as (te & -> & -> & _). exists tc, tr, tf, tt_, te.
    cbn [channels systemFrames chanFrames tlvTags errorCodes]. naive_solver.
  - intros (tc & tr & tf & tt_ & te & -> & Hs1 & Hs3 & -> & Hn1 & Hn2 & Hn3 & Hn4 & Hn5).
    cbn [rf_channels rf_reserved rf_channel_frames rf_tlv_tags rf_error_codes].
    cbn [channels systemFrames chanFrames tlvTags errorCodes registries_of] in *.
    rewrite (proj2 (loadChannels_iff (Ok tc) _)) by (exists tc; done). cbn [mbind result_bind].
    rewrite (proj2 (load_named_iff _ _ _ (Ok tr) _)) by (exists tr; done). cbn [mbind result_bind].
    rewrite (proj2 (loadChanFrames_iff (Ok tf) _)) by (exists tf; done). cbn [mbind result_bind].
    rewrite (proj2 (load_named_iff _ _ _ (Ok tt_) _)) by (exists tt_; done). cbn [mbind result_bind].
    rewrite (proj2 (load_named_iff _ _ _ (Ok te) _)) by (exists te; done). cbn [mbind result_bind].
    by rewrite !bool_decide_eq_false_2.
Qed.

(** ** What is admitted *)

Definition registered (reg : Registries) (channel frameType : Z) : Prop :=
  frameType <> 0 /\ is_Some (channels reg !! channel) /\
  (frameType <= SystemFrameMax -> is_Some (systemFrames reg !! frameType)) /\
  (SystemFrameMax < frameType -> is_Some (chanFrames reg !! (channel, frameType))).

Lemma checkFrameType_iff reg c t : checkFrameType reg c t = Ok tt <-> registered reg c t.
Proof.
  unfold checkFrameType, registered, has. destruct (Z.eqb_spec t 0) as [->|Ht]; [by split; [|intros []]|].
  case_bool_decide as Hc; cbn [negb]; [|by split; [|intros (_ & ? & _)]].
  destruct (Z.leb_spec t SystemFrameMax) as [Hs|Hs]; rewrite check_Ok, negb_false_iff, bool_decide_eq_true; split.
  - intros H. split_and!; [done..|]. intros H'. lia.
  - intros (_ & _ & H & _). by apply H.
  - intros H. split_and!; [done|done| |done]. intros H'. lia.
  - intros (_ & _ & _ & H). by apply H.
Qed.

Lemma checkBounds_size n : checkBounds n (-1) = Ok tt <-> n <= MaxFrameSize.
Proof.
  unfold checkBounds. destruct (Z.ltb_spec MaxFrameSize n); cbn; split; intros; try done; lia.
Qed.

Lemma Validate_iff reg f :
  Validate reg (Some f) = Ok tt <-> registered reg (Channel f) (Type_ f) /\ frame_size f <= MaxFrameSize.
Proof.
  unfold Validate. rewrite bind_Ok. unfold frame_size. split.
  - intros ([] & H1 & H2). by rewrite <- checkFrameType_iff, <- checkBounds_size.
  - intros [H1 H2]. exists tt. by rewrite checkFrameType_iff, checkBounds_size.
Qed.

(** The hook on the header of a frame gives the verdict of [Validate] on the frame. *)
Lemma RelayHook_Validate reg d f :
  blen (Payload f) < 2 ^ 32 ->
  RelayHook reg d (header_of (marshal f) f) = None <-> Validate reg (Some f) = Ok tt.
Proof.
  intros Hp. unfold RelayHook, Validate, header_of. cbn [fh_Channel fh_Type fh_PayloadLen].
  pose proof (blen_nonneg (Payload f)). unfold u32. rewrite Z.mod_small by lia.
  destruct (checkFrameType reg (Channel f) (Type_ f) ;; _) as [[]|e]; done.
Qed.
