(* ===== verification/RegistryData.v ===== *)
(** * The registry tables of the repository (registries/channels.csv and its siblings)

    The columns the loader reads of the five tables, row for row. *)

From S2P Require Import Prelude WireValidator.
Open Scope Z_scope.

Definition channels_csv : csv_table := mkTable [str "channel_id"; str "name"]
  [
    [str "0x0000"; str "Control"]; [str "0x0001"; str "Memory"]; [str "0x0002"; str "Capability"];
    [str "0x0003"; str "Identity"]; [str "0x0004"; str "Governance"]; [str "0x0005"; str "Immune"];
    [str "0x0006"; str "Federation"]; [str "0x0007"; str "Settlement"]; [str "0x0008"; str "Compliance"];
    [str "0x0009"; str "Sensory"]; [str "0x000A"; str "Telemetry"]; [str "0x000B"; str "Audit"];
    [str "0x000C"; str "Stream"]; [str "0x000D"; str "Bridge"]; [str "0x000E"; str "Commerce"];
    [str "0x000F"; str "Interaction"]; [str "0x0010"; str "Discovery"]; [str "0x0011"; str "Workflow"];
    [str "0x0012"; str "Knowledge"]; [str "0x0013"; str "Spatial"] ].

Definition frame_types_reserved_csv : csv_table := mkTable [str "frame_type"; str "name"]
  [
    [str "0x0000"; str "(reserved)"]; [str "0x0001"; str "PING"]; [str "0x0002"; str "PONG"];
    [str "0x0003"; str "CLOSE"]; [str "0x0004"; str "CLOSE_ACK"]; [str "0x0005"; str "ERROR"];
    [str "0x0006"; str "KEY_UPDATE"]; [str "0x0007"; str "KEY_UPDATE_ACK"]; [str "0x0008"; str "PATH_CHALLENGE"];
    [str "0x0009"; str "PATH_RESPONSE"]; [str "0x000A"; str "FLOW_UPDATE"]; [str "0x0030-0x0034"; str "(reserved)"];
    [str "0x0035-0x0036"; str "(reserved)"]; [str "0x0060-0x0063"; str "(reserved)"];
    [str "0x0080-0x0080"; str "(reserved)"]; [str "0x0090-0x0090"; str "(reserved)"];
    [str "0x00A0-0x00A3"; str "(reserved)"]; [str "0x00B0-0x00B4"; str "(reserved)"];
    [str "0x00C0-0x00C4"; str "(reserved)"]; [str "0x0100"; str "CLIENT_HELLO"]; [str "0x0101"; str "SERVER_HELLO"];
    [str "0x0102"; str "SERVER_AUTH"]; [str "0x0103"; str "CLIENT_AUTH"];
    [str "0x0100-0xFFFF"; str "(channel-specific)"] ].

Definition frame_types_channel_csv : csv_table := mkTable [str "channel_id"; str "frame_type"; str "name"]
  [
    [str "0x0000"; str "0x0100"; str "CLIENT_HELLO"]; [str "0x0000"; str "0x0101"; str "SERVER_HELLO"];
    [str "0x0000"; str "0x0102"; str "SERVER_AUTH"]; [str "0x0000"; str "0x0103"; str "CLIENT_AUTH"];
    [str "0x0000"; str "0x0104"; str "MASTER_RATCHET"]; [str "0x0000"; str "0x0105"; str "MASTER_RATCHET_ACK"];
    [str "0x0000"; str "0x0106"; str "REKEM"]; [str "0x0000"; str "0x0107"; str "REKEM_ACK"];
    [str "0x0001"; str "0x0035"; str "MEMORY_EVICT"]; [str "0x0001"; str "0x0036"; str "MEMORY_REVIVE"];
    [str "0x0001"; str "0x0100"; str "MEMORY_CREATE_REQ"]; [str "0x0001"; str "0x0101"; str "MEMORY_CREATE_RESULT"];
    [str "0x0001"; str "0x0102"; str "MEMORY_READ_REQ"]; [str "0x0001"; str "0x0103"; str "MEMORY_READ_RESULT"];
    [str "0x0001"; str "0x0104"; str "MEMORY_UPDATE_REQ"]; [str "0x0001"; str "0x0105"; str "MEMORY_UPDATE_RESULT"];
    [str "0x0001"; str "0x0106"; str "MEMORY_DELETE_REQ"]; [str "0x0001"; str "0x0107"; str "MEMORY_DELETE_RESULT"];
    [str "0x0001"; str "0x0108"; str "MEMORY_RETRIEVE_REQ"];
    [str "0x0001"; str "0x0109"; str "MEMORY_RETRIEVE_RESULT"];
    [str "0x0001"; str "0x010A"; str "MEMORY_RETRIEVE_STREAM_DATA"];
    [str "0x0001"; str "0x010B"; str "MEMORY_RETRIEVE_STREAM_END"];
    [str "0x0001"; str "0x010C"; str "MEMORY_STATUS_REQ"]; [str "0x0001"; str "0x010D"; str "MEMORY_STATUS_RESULT"];
    [str "0x0001"; str "0x010E"; str "MEMORY_ERROR"]; [str "0x0002"; str "0x0060"; str "CAP_TOKEN_PRESENT"];
    [str "0x0002"; str "0x0061"; str "CAP_TOKEN_ACCEPT"]; [str "0x0002"; str "0x0062"; str "CAP_TOKEN_CHALLENGE"];
    [str "0x0002"; str "0x0063"; str "CAP_TOKEN_PROOF"]; [str "0x0002"; str "0x0100"; str "CAP_ISSUE_REQ"];
    [str "0x0002"; str "0x0101"; str "CAP_ISSUE_RESULT"]; [str "0x0002"; str "0x0102"; str "CAP_DELEGATE_REQ"];
    [str "0x0002"; str "0x0103"; str "CAP_DELEGATE_RESULT"]; [str "0x0002"; str "0x0104"; str "CAP_REVOKE_REQ"];
    [str "0x0002"; str "0x0105"; str "CAP_REVOKE_RESULT"]; [str "0x0002"; str "0x0106"; str "CAP_LOOKUP_REQ"];
    [str "0x0002"; str "0x0107"; str "CAP_LOOKUP_RESULT"]; [str "0x0002"; str "0x0108"; str "CAP_ERROR"];
    [str "0x0005"; str "0x00C0"; str "IMMUNE_GOSSIP_ADVERTISE"];
    [str "0x0005"; str "0x00C1"; str "IMMUNE_GOSSIP_ACK"];
    [str "0x0005"; str "0x00C2"; str "IMMUNE_GOSSIP_PULL_REQ"];
    [str "0x0005"; str "0x00C3"; str "IMMUNE_GOSSIP_PULL_RESULT"];
    [str "0x0005"; str "0x00C4"; str "IMMUNE_GOSSIP_RETRACT"]; [str "0x0005"; str "0x0100"; str "IMMUNE_REPORT_REQ"];
    [str "0x0005"; str "0x0101"; str "IMMUNE_REPORT_RESULT"]; [str "0x0005"; str "0x0102"; str "IMMUNE_ERROR"];
    [str "0x0007"; str "0x00A0"; str "SETTLE_BATCH_COMMIT_REQ"];
    [str "0x0007"; str "0x00A1"; str "SETTLE_BATCH_COMMIT_RESULT"];
    [str "0x0007"; str "0x0100"; str "SETTLE_INTENT_REQ"]; [str "0x0007"; str "0x0101"; str "SETTLE_INTENT_RESULT"];
    [str "0x0007"; str "0x0102"; str "RECEIPT_REQ"]; [str "0x0007"; str "0x0103"; str "RECEIPT_RESULT"];
    [str "0x0007"; str "0x0104"; str "SETTLE_ERROR"]; [str "0x000A"; str "0x0100"; str "TELEMETRY_REPORT"];
    [str "0x000A"; str "0x0101"; str "TELEMETRY_SUBSCRIBE"]; [str "0x000A"; str "0x0102"; str "TELEMETRY_SUB_ACK"];
    [str "0x000A"; str "0x0103"; str "TELEMETRY_UNSUBSCRIBE"]; [str "0x000A"; str "0x0104"; str "TELEMETRY_CREDIT"];
    [str "0x000A"; str "0x0105"; str "TELEMETRY_ERROR"]; [str "0x000C"; str "0x0100"; str "STREAM_OPEN"];
    [str "0x000C"; str "0x0101"; str "STREAM_DATA"]; [str "0x000C"; str "0x0102"; str "STREAM_CLOSE"];
    [str "0x000C"; str "0x0103"; str "STREAM_RESET"]; [str "0x000C"; str "0x0104"; str "STREAM_WINDOW_UPDATE"];
    [str "0x000D"; str "0x0100"; str "BRIDGE_REQUEST"]; [str "0x000D"; str "0x0101"; str "BRIDGE_RESPONSE"];
    [str "0x000D"; str "0x0102"; str "BRIDGE_ERROR"]; [str "0x000D"; str "0x0103"; str "BRIDGE_NOTIFY"];
    [str "0x000D"; str "0x0104"; str "BRIDGE_STREAM_DATA"]; [str "0x000D"; str "0x0105"; str "BRIDGE_STREAM_END"];
    [str "0x000E"; str "0x0100"; str "COMMERCE_MANDATE_CREATE_REQ"];
    [str "0x000E"; str "0x0101"; str "COMMERCE_MANDATE_CREATE_RESULT"];
    [str "0x000E"; str "0x0102"; str "COMMERCE_MANDATE_READ_REQ"];
    [str "0x000E"; str "0x0103"; str "COMMERCE_MANDATE_READ_RESULT"];
    [str "0x000E"; str "0x0104"; str "COMMERCE_MANDATE_REVOKE_REQ"];
    [str "0x000E"; str "0x0105"; str "COMMERCE_MANDATE_REVOKE_RESULT"];
    [str "0x000E"; str "0x0106"; str "COMMERCE_MANDATE_STATUS_REQ"];
    [str "0x000E"; str "0x0107"; str "COMMERCE_MANDATE_STATUS_RESULT"];
    [str "0x000E"; str "0x0108"; str "COMMERCE_INTENT_PROPOSE_REQ"];
    [str "0x000E"; str "0x0109"; str "COMMERCE_INTENT_PROPOSE_RESULT"];
    [str "0x000E"; str "0x010A"; str "COMMERCE_INTENT_RESPOND_REQ"];
    [str "0x000E"; str "0x010B"; str "COMMERCE_INTENT_RESPOND_RESULT"];
    [str "0x000E"; str "0x010C"; str "COMMERCE_INTENT_STATUS_REQ"];
    [str "0x000E"; str "0x010D"; str "COMMERCE_INTENT_STATUS_RESULT"];
    [str "0x000E"; str "0x010E"; str "COMMERCE_ERROR"]; [str "0x000F"; str "0x0100"; str "INTERACT_EVENT"];
    [str "0x000F"; str "0x0101"; str "INTERACT_EVENT_ACK"]; [str "0x000F"; str "0x0102"; str "INTERACT_PROMPT_REQ"];
    [str "0x000F"; str "0x0103"; str "INTERACT_PROMPT_RESULT"];
    [str "0x000F"; str "0x0104"; str "INTERACT_APPROVAL_REQ"];
    [str "0x000F"; str "0x0105"; str "INTERACT_APPROVAL_RESULT"];
    [str "0x000F"; str "0x0106"; str "INTERACT_CANCEL"]; [str "0x000F"; str "0x0107"; str "INTERACT_ERROR"];
    [str "0x0011"; str "0x0100"; str "WORKFLOW_SUBMIT_REQ"];
    [str "0x0011"; str "0x0101"; str "WORKFLOW_SUBMIT_RESULT"];
    [str "0x0011"; str "0x0102"; str "WORKFLOW_STATUS_REQ"];
    [str "0x0011"; str "0x0103"; str "WORKFLOW_STATUS_RESULT"];
    [str "0x0011"; str "0x0104"; str "WORKFLOW_CANCEL_REQ"];
    [str "0x0011"; str "0x0105"; str "WORKFLOW_CANCEL_RESULT"];
    [str "0x0011"; str "0x0106"; str "WORKFLOW_STEP_EVENT"]; [str "0x0011"; str "0x0107"; str "WORKFLOW_COMPLETE"];
    [str "0x0011"; str "0x0108"; str "WORKFLOW_ERROR"]; [str "0x0012"; str "0x0100"; str "KNOWLEDGE_QUERY_REQ"];
    [str "0x0012"; str "0x0101"; str "KNOWLEDGE_QUERY_RESULT"];
    [str "0x0012"; str "0x0102"; str "KNOWLEDGE_QUERY_STREAM_DATA"];
    [str "0x0012"; str "0x0103"; str "KNOWLEDGE_QUERY_STREAM_END"];
    [str "0x0012"; str "0x0104"; str "KNOWLEDGE_SUBSCRIBE_REQ"];
    [str "0x0012"; str "0x0105"; str "KNOWLEDGE_SUBSCRIBE_ACK"];
    [str "0x0012"; str "0x0106"; str "KNOWLEDGE_UPDATE"]; [str "0x0012"; str "0x0107"; str "KNOWLEDGE_CREDIT"];
    [str "0x0012"; str "0x0108"; str "KNOWLEDGE_UNSUBSCRIBE"]; [str "0x0012"; str "0x0109"; str "KNOWLEDGE_ERROR"] ].

Definition tlv_tags_csv : csv_table := mkTable [str "tag"; str "name"]
  [
    [str "0x01"; str "ProfileOffer"]; [str "0x02"; str "ProfileSelect"]; [str "0x03"; str "KEMOffer"];
    [str "0x04"; str "KEMSelect"]; [str "0x05"; str "SigOffer"]; [str "0x06"; str "SigSelect"];
    [str "0x07"; str "KEMShare"]; [str "0x08"; str "KEMCiphertext"]; [str "0x09"; str "IdentityKey"];
    [str "0x0A"; str "CertVerify"]; [str "0x0B"; str "Finished"]; [str "0x0C"; str "AEADOffer"];
    [str "0x0D"; str "AEADSelect"]; [str "0x10"; str "(reserved)"]; [str "0x12"; str "OpaqueContentType"];
    [str "0x13"; str "(reserved)"]; [str "0x14"; str "(reserved)"]; [str "0x15"; str "(reserved)"];
    [str "0x16"; str "(reserved)"]; [str "0x17"; str "KeyUpdateMarker"]; [str "0x18"; str "ProtectionMode"];
    [str "0x19"; str "RatchetGeneration"]; [str "0x8000-0xFFFF"; str "(reserved)"] ].

Definition error_codes_csv : csv_table := mkTable [str "code"; str "name"]
  [
    [str "0"; str "(reserved)"]; [str "1"; str "unexpected_message"]; [str "2"; str "decrypt_failed"];
    [str "3"; str "replay_detected"]; [str "4"; str "unknown_channel"]; [str "5"; str "unknown_critical_tlv"];
    [str "6"; str "handshake_timeout"]; [str "7"; str "downgrade_detected"]; [str "8"; str "close_incomplete"];
    [str "9"; str "key_update_out_of_order"]; [str "10"; str "flow_control_error"];
    [str "0x000B-0x00FF"; str "(reserved)"] ].

Definition repository_files : registry_files :=
  mkFiles (Ok channels_csv) (Ok frame_types_reserved_csv) (Ok frame_types_channel_csv) (Ok tlv_tags_csv) (Ok error_codes_csv).
