(* ===== verification/Firewall.v ===== *)
(** * The firewall (firewall/policy.go, firewall/firewall.go)

    A policy over the cleartext header of a frame, and the hook that consults the wire
    validator first and the policy after it.  A relay that [Wrap] builds forwards only
    frames both admit. *)

From S2P Require Import Prelude Errors Registry Frame Relay WireValidator.
From Stdlib Require Import Strings.Byte.
From stdpp Require Import gmap relations.
Open Scope Z_scope.

(** [%04X] of a [uint16]. *)
Definition hex_char (d : Z) : byte := z2b (if d <? 10 then 48 + d else 55 + d).
Definition hex4 (v : Z) : bytes :=
  [hex_char (Z.land (Z.shiftr v 12) 15); hex_char (Z.land (Z.shiftr v 8) 15);
   hex_char (Z.land (Z.shiftr v 4) 15); hex_char (Z.land v 15)].

Record PolicyRejectError : Type := mkReject {
  pe_Dir : Direction;
  pe_Channel : Z;
  pe_Type : Z;
  pe_Reason : bytes
}.

(** ** Policies *)

(** The interface [Policy]: [None] allows. *)
Definition Policy (E : Type) : Type := Direction -> FrameHeader -> option E.

(** A nil map is the empty one. *)
Record ChannelPolicy : Type := mkPolicy {
  DeniedChannels : gmap Z bytes;
  DeniedFrameTypes : gmap (Z * Z) bytes
}.

Definition reasonOrDefault (reason def : bytes) : bytes := if blen reason =? 0 then def else reason.

Definition ChannelPolicy_Decide (p : ChannelPolicy) : Policy PolicyRejectError := fun dir header =>
  let ch := fh_Channel header in
  let ft := fh_Type header in
  match DeniedChannels p !! ch with
  | Some reason =>
      Some (mkReject dir ch ft
        (reasonOrDefault reason (str "channel 0x" ++ hex4 ch ++ str " is denied by firewall policy")))
  | None =>
      match DeniedFrameTypes p !! (ch, ft) with
      | Some reason =>
          Some (mkReject dir ch ft (reasonOrDefault reason
            (str "frame type 0x" ++ hex4 ft ++ str " on channel 0x" ++ hex4 ch ++ str " is denied by firewall policy")))
      | None => None
      end
  end.

(** ** The composed hook *)

Inductive hook_error (E : Type) : Type :=
| HRegistry (r : RejectReason)
| HPolicy (e : E).
Arguments HRegistry {E} r.
Arguments HPolicy {E} e.

Section firewall.
Context {E : Type}.

(** [None] for nil. *)
Record Firewall : Type := mkFirewall {
  fw_Registries : option Registries;
  fw_Policy : option (Policy E)
}.

(** [None] is [ErrNoRegistries]. *)
Definition Firewall_Hook (f : Firewall) : option (@HookFunc (hook_error E)) :=
  match fw_Registries f with
  | None => None
  | Some reg =>
      Some (fun dir header =>
        match RelayHook reg dir header with
        | Some e => Some (HRegistry e)
        | None =>
            match fw_Policy f with
            | None => None
            | Some policy => HPolicy <$> policy dir header
            end
        end)
  end.

Definition Wrap (f : Firewall) (maxFrameSize : Z) : option (@Relay (hook_error E)) :=
  hook ← Firewall_Hook f;
  Some (mkRelay (Some hook) maxFrameSize).

(** ** What passes *)

Definition policy_allows (f : Firewall) (d : Direction) (fr : Frame) : Prop :=
  match fw_Policy f with Some policy => policy d (header_of (marshal fr) fr) = None | None => True end.

(** Registered, within the caps, and allowed. *)
Record admitted (f : Firewall) (reg : Registries) (maxFrameSize : Z) (d : Direction) (fr : Frame) : Prop := {
  ad_wf : frame_wf fr;
  ad_registered : registered reg (Channel fr) (Type_ fr);
  ad_size : frame_size fr <= MaxFrameSize /\ (maxFrameSize <> 0 -> frame_size fr <= maxFrameSize);
  ad_policy : policy_allows f d fr
}.

Lemma wrap_relayable f reg maxFrameSize r d fr :
  fw_Registries f = Some reg -> Wrap f maxFrameSize = Some r ->
  relayable r d fr <-> admitted f reg maxFrameSize d fr.
Proof.
  intros Hreg Hw. unfold Wrap, Firewall_Hook in Hw. rewrite Hreg in Hw. cbn [mbind option_bind] in Hw. injection Hw as <-.
  unfold relayable, hook_allows, relay_maxFrameSize. cbn [rl_Hook rl_MaxFrameSize].
  split.
  - intros (Hwf & Hsz & Hh). destruct (RelayHook reg d (header_of (marshal fr) fr)) eqn:Hr; [discriminate|].
    apply RelayHook_Validate, Validate_iff in Hr as [Hr Hmax]; [|apply Hwf]. constructor; [done|done| |].
    + split; [done|]. destruct (Z.eqb_spec maxFrameSize 0); [done|]. by intros _.
    + unfold policy_allows. destruct (fw_Policy f) as [policy|]; [|done]. by destruct (policy d _).
  - intros [Hwf Hr [Hmax Hmax'] Hp]. split_and!; [done| |].
    + destruct (Z.eqb_spec maxFrameSize 0); [done|by apply Hmax'].
    + rewrite (proj2 (RelayHook_Validate reg d fr ltac:(apply Hwf))) by (by apply Validate_iff).
      unfold policy_allows in Hp. destruct (fw_Policy f) as [policy|]; [|done]. by rewrite Hp.
Qed.
End firewall.

(** A relay built by Wrap has, in every state its run can reach and on either leg, been
    written only frames from the other leg, in order and unchanged, whose type and channel
    are registered, that fit both size caps and that the policy allows (and at most the
    beginning of one more, when a write failed); and when the transport does not fail it
    forwards every frame of a stream of such frames. Without registries no relay is built. *)
Theorem firewalled_relay {E} (f : @Firewall E) (maxFrameSize : Z) :
  (Wrap f maxFrameSize = None <-> fw_Registries f = None) /\
  forall reg r, fw_Registries f = Some reg -> Wrap f maxFrameSize = Some r ->
    (forall srcA srcB st, rtc (run_step r) (flow_init srcA srcB) st -> forall d, exists fs part,
       fl_out st d = frames_octets fs ++ part /\ Forall (admitted f reg maxFrameSize d) fs /\
       fl_out st d `prefix_of` so_data (match d with DirAToB => srcA | DirBToA => srcB end) /\
       (part = [] \/ exists fr, admitted f reg maxFrameSize d fr /\ part `prefix_of` marshal fr)) /\
    (forall d fs, Forall (admitted f reg maxFrameSize d) fs -> forall fuel, (length fs < fuel)%nat ->
       forward r fuel d (fun _ => env_fine) (mkSource (frames_octets fs) ErrEOF) = (frames_octets fs, Some None)).
Proof.
  split.
  { unfold Wrap, Firewall_Hook. by destruct (fw_Registries f). }
  intros reg r Hreg Hw. assert (forall d fr, relayable r d fr <-> admitted f reg maxFrameSize d fr) as Hr
    by (intros; by apply wrap_relayable).
  assert (forall d fs, Forall (relayable r d) fs <-> Forall (admitted f reg maxFrameSize d) fs) as HF
    by (intros; apply Forall_iff; intros; apply Hr).
  split.
  - intros srcA srcB st Hrun d. destruct (reachable_inv r srcA srcB st Hrun) as ([HA _] & [HB _] & _).
    assert (relayed r d (so_data (match d with DirAToB => srcA | DirBToA => srcB end)) (fl_out st d) (fl_res st d)) as Hd
      by (by destruct d).
    destruct Hd as (fs & part & Hout & Hfs & Hpre & Hpart). exists fs, part. split_and!; [done|by apply HF|done|].
    destruct Hpart as [Hp|(_ & fr & Hfr & Hp)]; [by left|]. right. exists fr. by rewrite <- Hr.
  - intros d fs Hfs fuel Hfuel. apply forward_all; [by apply HF|done].
Qed.

(** A registry of one channel with PING, and a firewall that denies channel 1. *)
Definition small_registries : Registries :=
  mkRegistries {[0 := str "Control"]} {[1 := str "PING"]} ∅ ∅ ∅.
Definition small_firewall : @Firewall PolicyRejectError :=
  mkFirewall (Some small_registries) (Some (ChannelPolicy_Decide (mkPolicy {[1 := []]} ∅))).

Lemma firewalled_relay_witness :
  exists r, Wrap small_firewall 0 = Some r /\
    forward r 2 DirAToB (fun _ => env_fine) (mkSource (frames_octets [demo_frame]) ErrEOF) = (frames_octets [demo_frame], Some None).
Proof.
  destruct (firewalled_relay small_firewall 0) as [_ H]. eexists. split; [reflexivity|].
  apply (proj2 (H small_registries _ eq_refl eq_refl)); [|cbn; lia].
  apply Forall_singleton. constructor.
  - repeat split; vm_compute; congruence.
  - split_and!; [done|by eexists|intros _; by eexists|]. intros Hs. vm_compute in Hs. discriminate.
  - split; [vm_compute; congruence|done].
  - reflexivity.
Defined.

(** Refused before anything is written: the channel, then the type. *)
Example firewall_denies :
  let deny := mkFirewall (Some small_registries) (Some (ChannelPolicy_Decide (mkPolicy ∅ {[(0, 1) := str "no pings"]}))) in
  exists r, Wrap deny 0 = Some r /\
    forward r 2 DirBToA (fun _ => env_fine) (mkSource (marshal demo_frame) ErrEOF)
    = ([], Some (Some (RRejected (HPolicy (mkReject DirBToA 0 1 (str "no pings")))))).
Proof. eexists. split; [reflexivity|]. by vm_compute. Qed.
