(* ===== verification/CodecBind.v ===== *)
(** * The generic CBOR binding (codecbind_export.go, codecbind/codecbind.go)

    The domain-agnostic codec surface over the canonical codec: a top-level encode and
    decode with no schema, and the binding package's variant that turns the encoder's
    panic on an unsupported Go type into an error.  The decoder converts maps to
    [map[uint64]any], which drops the entries with other keys. *)

From S2P Require Import Prelude Errors Cbor ChannelFrames Bodies BodySpec BodyRoundtrip.
From Stdlib Require Import Strings.Byte Sorting.Sorted.
From stdpp Require Import gmap sorting.
Open Scope Z_scope.

(** The dynamic Go values a caller may pass as [any]; [AOther] is a value of any type
    outside the encoder's type switch. *)
#[local] Unset Elimination Schemes.
Inductive any : Type :=
| AUint (n : Z)
| AInt (n : Z)
| ABytes (b : bytes)
| AText (b : bytes)
| AArray (l : list any)
| AMap (m : list (Z * any))
| ABool (b : bool)
| ANil
| AOther.
#[local] Set Elimination Schemes.

Section map_option.
Context {A B : Type} (f : A -> option B).

Fixpoint map_option (l : list A) : option (list B) :=
  match l with
  | [] => Some []
  | x :: l => y ← f x; ys ← map_option l; Some (y :: ys)
  end.
End map_option.

(** The encodable value behind an [any], when the type switch has a case for every part
    of it. *)
Fixpoint typed (v : any) : option value :=
  match v with
  | AUint n => Some (VUint n)
  | AInt n => Some (VInt n)
  | ABytes b => Some (VBytes b)
  | AText b => Some (VText b)
  | AArray l => VArray <$> map_option typed l
  | AMap m => VGoMap <$> map_option (fun e => match e with (k, x) => y ← typed x; Some (k, y) end) m
  | ABool b => Some (VBool b)
  | ANil => Some VNil
  | AOther => None
  end.

(** [None]: the encoder panics. *)
Definition EncodeCanonicalCBOR (v : any) : option bytes := cborEncode <$> typed v.

Definition DecodeCanonicalCBOR (b : bytes) : result error value :=
  v ← cborDecodeTop b;
  Ok (cborToGo v).

(** ** codecbind *)

(** The errors the binding reports: a sentinel of the codec under the package's prefix,
    or the recovered panic. *)
Inductive bind_error : Type :=
| ErrUnsupportedGoType
| ErrDecode (e : error).

(** The sentinels the binding re-exports for [errors.Is] on a decode failure. *)
Definition exported_sentinels : list error :=
  [errCBORTrailing; errCBORTruncated; errCBORNotShortest; errCBORIndefinite; errCBORUnsupported; errCBORMapOrder].

Definition Encode (v : any) : result bind_error bytes :=
  match EncodeCanonicalCBOR v with
  | Some b => Ok b
  | None => Err ErrUnsupportedGoType
  end.

Definition MustEncode (v : any) : option bytes := EncodeCanonicalCBOR v.

Definition Decode (b : bytes) : result bind_error value :=
  map_err ErrDecode (DecodeCanonicalCBOR b).

Example bind_example :
  Encode (AMap [(1, AArray [ABool true; AOther])]) = Err ErrUnsupportedGoType /\
  (b ← MustEncode (AMap [(2, ANil); (1, AInt (-1))]); Some (Decode b)) = Some (Ok (VGoMap [(1, VInt (-1)); (2, VNil)])).
Proof. by vm_compute. Qed.

(** ** Nesting beyond the decoder's bound *)

Fixpoint nested (n : nat) : any :=
  match n with
  | O => ANil
  | S n => AArray [nested n]
  end.

Lemma typed_nested_S n v : typed (nested n) = Some v -> typed (nested (S n)) = Some (VArray [v]).
Proof. intros Hv. cbn [nested typed map_option]. by rewrite Hv. Qed.

Lemma typed_nested n : exists v, typed (nested (S n)) = Some (VArray [v]) /\ typed (nested n) = Some v.
Proof.
  induction n as [|n (v & H1 & H2)]; [by exists VNil|]. exists (VArray [v]).
  split; [by apply typed_nested_S|done].
Qed.

(** An array of one element is a head octet before the element. *)
Lemma decode_nested n levels v :
  typed (nested n) = Some v ->
  cborDecode levels (cborEncode v) =
    if decide (n < levels)%nat then Ok (v, S n) else Err errCBORDepthExceeded.
Proof.
  revert n v. induction levels as [|levels IH]; intros n v Hv.
  { by rewrite decide_False by lia. }
  destruct n as [|n].
  - injection Hv as <-. by rewrite decide_True by lia.
  - destruct (typed_nested n) as (w & H1 & H2). rewrite H1 in Hv. injection Hv as <-.
    cbn [cborEncode map concat]. rewrite app_nil_r.
    change (encodeHead 4 (blen [w])) with [x81]. cbn [app]. cbn [cborDecode].
    change (Z.shiftr (b2z x81) 5) with 4. change (Z.land (b2z x81) 0x1f) with 1.
    cbn [Z.eqb Pos.eqb orb]. unfold decodeArg. cbn [Z.ltb Z.compare Pos.compare Pos.compare_cont mbind result_bind].
    unfold blen. cbn [length].
    rewrite (proj2 (Z.ltb_ge _ _)) by (pose proof (length_cborEncode_pos w); lia).
    cbn [check mbind result_bind]. change (Z.to_nat 1) with 1%nat. cbn [decode_array]. cbn [drop]. rewrite drop_0.
    rewrite (IH n w H2). destruct (decide (n < levels)%nat).
    + rewrite decide_True by lia. done.
    + by rewrite decide_False by lia.
Qed.

Lemma length_nested n v : typed (nested n) = Some v -> length (cborEncode v) = S n.
Proof.
  revert v. induction n as [|n IH]; intros v Hv; [by injection Hv as <-|].
  destruct (typed_nested n) as (w & H1 & H2). rewrite H1 in Hv. injection Hv as <-.
  cbn [cborEncode map concat]. rewrite app_nil_r. change (encodeHead 4 (blen [w])) with [x81]. cbn [app length].
  by rewrite (IH w H2).
Qed.

(** The binding encodes values its own decoder refuses: an array nested [n] deep
    encodes for every [n], and decodes back exactly when [n] is below the nesting bound of
    eight; beyond it the decoder reports the depth sentinel, which is not among the
    sentinels the binding re-exports. *)
Theorem bind_depth (n : nat) :
  exists b, Encode (nested n) = Ok b /\ blen b = Z.of_nat (S n) /\
    ((n < cborMaxNestingDepth)%nat -> exists v, typed (nested n) = Some v /\ Decode b = Ok (cborToGo v)) /\
    ((cborMaxNestingDepth <= n)%nat -> Decode b = Err (ErrDecode errCBORDepthExceeded) /\ errCBORDepthExceeded ∉ exported_sentinels).
Proof.
  assert (exists v, typed (nested n) = Some v) as [v Hv].
  { destruct n; [by exists VNil|]. destruct (typed_nested n) as (w & H1 & _). eauto. }
  exists (cborEncode v). unfold Encode, EncodeCanonicalCBOR. rewrite Hv. split; [done|].
  split; [unfold blen; by rewrite (length_nested n v Hv)|].
  unfold Decode, DecodeCanonicalCBOR, cborDecodeTop. rewrite (decode_nested n cborMaxNestingDepth v Hv). split; intros Hn.
  - exists v. split; [done|]. rewrite decide_True by done. cbn [mbind result_bind].
    unfold blen. rewrite (length_nested n v Hv), Z.eqb_refl. done.
  - rewrite decide_False by lia. split; [done|]. unfold exported_sentinels. rewrite !elem_of_cons, elem_of_nil. naive_solver.
Qed.

(** ** The round trip *)

(** [any] values within the decoder's bounds. *)
Lemma bind_roundtrip v w b :
  typed v = Some w -> go_ok cborMaxNestingDepth w -> Encode v = Ok b -> blen b < 2 ^ 63 ->
  exists out, Decode b = Ok out /\ go_eq w out.
Proof.
  intros Hv Hok He Hb. unfold Encode, EncodeCanonicalCBOR in He. rewrite Hv in He. injection He as <-.
  exists (cborToGo (canon w)). split; [|by eapply go_eq_canon].
  unfold Decode, DecodeCanonicalCBOR. rewrite <- (encode_canon _ _ Hok) in *.
  rewrite (decode_top_encoded (canon w)); [done|by apply canon_ok|done].
Qed.
