(* ===== verification/CarriageHttp.v ===== *)
(** * The HTTP carriage object (proxy/carriage_http.go)

    An HTTP request or response as a deterministic-CBOR map: kind, method and target or
    status, the header fields as [name, value] pairs, the body.  Header names are sorted
    and lowered on the way out; on the way in [http.Header.Add] puts them back in
    canonical case, so a header map with canonical names survives the carriage. *)

From S2P Require Import Prelude Errors Cbor ChannelFrames Bodies BodySpec BodyRoundtrip CodecBind.
From Stdlib Require Import Strings.Byte Sorting.Sorted.
From stdpp Require Import gmap sorting.
Open Scope Z_scope.

(** ** Data *)

Definition httpKindRequest : Z := 1.
Definition httpKindResponse : Z := 2.

Record headerKV : Type := mkKV { hk_Name : bytes; hk_Value : bytes }.

Record httpCarriageObject : Type := mkHttp {
  ho_Kind : Z;
  ho_Method : bytes;
  ho_Target : bytes;
  ho_Status : Z;
  ho_Headers : list headerKV;
  ho_Body : bytes
}.

(** [http.Header]: a map from a name to its values. *)
Abbreviation Header := (gmap bytes (list bytes)).

(** The structural faults of the decoder, one per reason of the source; the reasons only
    differ in their text. *)
Inductive errCarriageMalformed : Type :=
| notCBOR (e : error)
| notMap
| missingKind
| kindNotUint
| kindDisagrees (kind want : Z)
| missingMethod
| missingTarget
| requestHasStatus
| missingStatus
| badStatus
| responseHasMethod
| responseHasTarget
| unsupportedKind (kind : Z)
| headersNotArray
| entryNotPair
| nameNotText
| valueNotBytes
| pseudoHeader (name : bytes)
| bodyNotBytes.

(** ** Header names *)

Definition to_lower_octet (c : byte) : byte :=
  if (b2z x41 <=? b2z c) && (b2z c <=? b2z x5a) then z2b (b2z c + (b2z x61 - b2z x41)) else c.

Definition toLowerASCII (s : bytes) : bytes := map to_lower_octet s.

Definition isPseudoHeader (name : bytes) : bool :=
  existsb (fun p => bool_decide (name = p)) [str ":method"; str ":scheme"; str ":authority"; str ":path"; str ":status"].

(** The tchar octets of RFC 7230, which [net/textproto] also takes for a valid field
    name. *)
Definition isTchar (c : byte) : bool :=
  let within lo hi := (b2z lo <=? b2z c) && (b2z c <=? b2z hi) in
  within x61 x7a || within x41 x5a || within x30 x39 ||
  existsb (fun d => bool_decide (c = d)) (str "!#$%&'*+-.^_`|~").

Definition to_upper_octet (c : byte) : byte :=
  if (b2z x61 <=? b2z c) && (b2z c <=? b2z x7a) then z2b (b2z c - (b2z x61 - b2z x41)) else c.

(** Upper case at the start and after a dash, lower case elsewhere. *)
Fixpoint mime_case (upper : bool) (s : bytes) : bytes :=
  match s with
  | [] => []
  | c :: s => (if upper then to_upper_octet c else to_lower_octet c) :: mime_case (bool_decide (c = x2d)) s
  end.

(** [textproto.CanonicalMIMEHeaderKey]: a name that is not a token is left alone. *)
Definition CanonicalMIMEHeaderKey (s : bytes) : bytes :=
  if forallb isTchar s then mime_case true s else s.

Definition Header_Add (h : Header) (name value : bytes) : Header :=
  let k := CanonicalMIMEHeaderKey name in <[k := default [] (h !! k) ++ [value]]> h.

(** ** Encoding *)

(** The range over a Go map has no order of its own; [sort.Strings] fixes one. *)
Definition encodeHTTPHeaders (h : Header) : list headerKV :=
  concat (map (fun e => map (mkKV (toLowerASCII e.1)) e.2) (sort_entries fst (map_to_list h))).

Definition headersToCBOR (hdrs : list headerKV) : value :=
  VArray (map (fun kv => VArray [VText (hk_Name kv); VBytes (hk_Value kv)]) hdrs).

(** The entries both kinds share. *)
Definition common_entries (h : Header) (body : bytes) : list (Z * value) :=
  let hdrs := encodeHTTPHeaders h in
  (if 0 <? blen hdrs then [(8, headersToCBOR hdrs)] else []) ++
  (if 0 <? blen body then [(9, VBytes body)] else []).

Definition encodeHTTPCarriageRequest (method target : bytes) (h : Header) (body : bytes) : bytes :=
  cborEncode (VGoMap ([(1, VUint httpKindRequest); (2, VText method); (3, VText target)] ++ common_entries h body)).

(** [uint64(status)] of the [int] status. *)
Definition encodeHTTPCarriageResponse (status : Z) (h : Header) (body : bytes) : bytes :=
  cborEncode (VGoMap ([(1, VUint httpKindResponse); (6, VUint (u64 status))] ++ common_entries h body)).

(** ** Decoding *)

(** Reading a [map[uint64]any]. *)
Definition go_get (m : list (Z * value)) (k : Z) : option value := snd <$> find (fun e => e.1 =? k) m.

Definition decode_entry (entryRaw : value) : result errCarriageMalformed headerKV :=
  match entryRaw with
  | VArray [name; val] =>
      match name with
      | VText n => match val with VBytes v => Ok (mkKV n v) | _ => Err valueNotBytes end
      | _ => Err nameNotText
      end
  | _ => Err entryNotPair
  end.

Fixpoint decode_entries (arr : list value) : result errCarriageMalformed (list headerKV) :=
  match arr with
  | [] => Ok []
  | e :: arr => kv ← decode_entry e; out ← decode_entries arr; Ok (kv :: out)
  end.

Definition decodeHeaderList (raw : value) : result errCarriageMalformed (list headerKV) :=
  match raw with
  | VArray arr => decode_entries arr
  | _ => Err headersNotArray
  end.

(** The typed keys of each kind: method, target, status. *)
Definition decode_typed (kind : Z) (m : list (Z * value)) : result errCarriageMalformed (bytes * bytes * Z) :=
  if kind =? httpKindRequest then
    method ← match go_get m 2 with Some (VText (x :: s)) => Ok (x :: s) | _ => Err missingMethod end;
    target ← match go_get m 3 with Some (VText (x :: s)) => Ok (x :: s) | _ => Err missingTarget end;
    check (if go_get m 6 then true else false) requestHasStatus;;
    Ok (method, target, 0)
  else if kind =? httpKindResponse then
    status ← match go_get m 6 with
             | None => Err missingStatus
             | Some (VUint s) => if (s <? 100) || (599 <? s) then Err badStatus else Ok s
             | Some _ => Err badStatus
             end;
    check (if go_get m 2 then true else false) responseHasMethod;;
    check (if go_get m 3 then true else false) responseHasTarget;;
    Ok ([], [], status)
  else Err (unsupportedKind kind).

Definition decode_headers (m : list (Z * value)) : result errCarriageMalformed (list headerKV) :=
  match go_get m 8 with
  | None => Ok []
  | Some hdrsRaw =>
      hdrs ← decodeHeaderList hdrsRaw;
      match find (fun kv => isPseudoHeader (hk_Name kv)) hdrs with
      | Some kv => Err (pseudoHeader (hk_Name kv))
      | None => Ok hdrs
      end
  end.

Definition decodeHTTPCarriageObject (foreign : bytes) (wantKind : Z) : result errCarriageMalformed httpCarriageObject :=
  v ← map_err notCBOR (DecodeCanonicalCBOR foreign);
  m ← match v with VGoMap m => Ok m | _ => Err notMap end;
  kind ← match go_get m 1 with
         | None => Err missingKind
         | Some (VUint k) => Ok k
         | Some _ => Err kindNotUint
         end;
  check (negb (kind =? wantKind)) (kindDisagrees kind wantKind);;
  '(method, target, status) ← decode_typed kind m;
  hdrs ← decode_headers m;
  body ← match go_get m 9 with
         | None => Ok []
         | Some (VBytes b) => Ok b
         | Some _ => Err bodyNotBytes
         end;
  Ok (mkHttp kind method target status hdrs body).

Definition toHTTPHeader (hdrs : list headerKV) : Header :=
  fold_left (fun h kv => Header_Add h (hk_Name kv) (hk_Value kv)) hdrs ∅.

Example http_example :
  let h : Header := {[ str "Content-Type" := [str "a/b"]; str "Accept" := [str "x"; str "y"]; str "Empty" := [] ]} in
  let b := encodeHTTPCarriageRequest (str "GET") (str "/p?q") h (str "hi") in
  decodeHTTPCarriageObject b httpKindRequest
  = Ok (mkHttp 1 (str "GET") (str "/p?q") 0
      [mkKV (str "accept") (str "x"); mkKV (str "accept") (str "y"); mkKV (str "content-type") (str "a/b")] (str "hi")) /\
  decodeHTTPCarriageObject b httpKindResponse = Err (kindDisagrees 1 2) /\
  map_to_list (toHTTPHeader (encodeHTTPHeaders h)) = map_to_list (delete (str "Empty") h).
Proof. by vm_compute. Qed.

(** ** Header names and their canonical case *)

(** A field name as Go stores it: a token in canonical case. *)
Definition canonical_name (k : bytes) : Prop := forallb isTchar k = true /\ mime_case true k = k.

#[export] Instance canonical_name_dec k : Decision (canonical_name k).
Proof. unfold canonical_name. apply _. Defined.

(** A fact about every octet, by trying them all. *)
Definition all_octets : list byte := Eval vm_compute in map (fun i => z2b (Z.of_nat i)) (seq 0 256).

Lemma every_octet (P : byte -> bool) (c : byte) : forallb P all_octets = true -> P c = true.
Proof. rewrite forallb_forall. intros H. apply H. by destruct c; vm_compute; auto 300. Qed.

Ltac octets f := apply (every_octet f); by vm_compute.

Lemma tchar_lower c : isTchar (to_lower_octet c) = isTchar c.
Proof. apply eqb_prop. octets (fun c => Bool.eqb (isTchar (to_lower_octet c)) (isTchar c)). Qed.

Lemma upper_lower c : to_upper_octet (to_lower_octet c) = to_upper_octet c.
Proof. eapply bool_decide_eq_true_1. octets (fun c => bool_decide (to_upper_octet (to_lower_octet c) = to_upper_octet c)). Qed.

Lemma lower_lower c : to_lower_octet (to_lower_octet c) = to_lower_octet c.
Proof. eapply bool_decide_eq_true_1. octets (fun c => bool_decide (to_lower_octet (to_lower_octet c) = to_lower_octet c)). Qed.

Lemma dash_lower c : bool_decide (to_lower_octet c = x2d) = bool_decide (c = x2d).
Proof. apply eqb_prop. octets (fun c => Bool.eqb (bool_decide (to_lower_octet c = x2d)) (bool_decide (c = x2d))). Qed.

Lemma mime_case_lower up s : mime_case up (toLowerASCII s) = mime_case up s.
Proof.
  revert up. induction s as [|c s IH]; intros up; [done|]. cbn [toLowerASCII map mime_case].
  rewrite dash_lower, upper_lower, lower_lower. f_equal. apply IH.
Qed.

Lemma tokens_lower s : forallb isTchar (toLowerASCII s) = forallb isTchar s.
Proof. induction s as [|c s IH]; [done|]. cbn. by rewrite tchar_lower, <- IH. Qed.

(** Lowering a canonical name and canonicalizing gives it back. *)
Lemma canonical_lower k : canonical_name k -> CanonicalMIMEHeaderKey (toLowerASCII k) = k.
Proof. intros [Ht Hm]. unfold CanonicalMIMEHeaderKey. by rewrite tokens_lower, Ht, mime_case_lower. Qed.

Lemma canonical_not_pseudo k : canonical_name k -> isPseudoHeader (toLowerASCII k) = false.
Proof.
  intros [Ht _]. rewrite <- tokens_lower in Ht. unfold isPseudoHeader. apply not_true_iff_false.
  rewrite existsb_exists. intros (p & Hp & Hk). apply bool_decide_eq_true in Hk. rewrite Hk in Ht.
  repeat (destruct Hp as [<-|Hp]; [discriminate Ht|]). done.
Qed.

(** ** Header maps *)

(** The values under one name, in order. *)
Definition values_of (k : bytes) (hdrs : list headerKV) : list bytes :=
  omap (fun kv => if decide (CanonicalMIMEHeaderKey (hk_Name kv) = k) then Some (hk_Value kv) else None) hdrs.

(** A list as a map entry: absent when empty. *)
Definition entry_of {A} (l : list A) : option (list A) := match l with [] => None | _ => Some l end.

Lemma add_all_lookup (hdrs : list headerKV) (h : Header) (k : bytes) :
  fold_left (fun h kv => Header_Add h (hk_Name kv) (hk_Value kv)) hdrs h !! k
  = match values_of k hdrs with [] => h !! k | vs => Some (default [] (h !! k) ++ vs) end.
Proof.
  revert h. induction hdrs as [|kv hdrs IH]; intros h; [done|]. cbn [fold_left values_of omap list_omap].
  rewrite IH. unfold Header_Add. fold (values_of k hdrs). case_decide as Hk.
  - rewrite Hk, lookup_insert_eq. destruct (values_of k hdrs); [done|]. cbn. by rewrite <- app_assoc.
  - by rewrite lookup_insert_ne by done.
Qed.

Lemma toHTTPHeader_lookup (hdrs : list headerKV) (k : bytes) : toHTTPHeader hdrs !! k = entry_of (values_of k hdrs).
Proof. unfold toHTTPHeader. rewrite add_all_lookup, lookup_empty. by destruct (values_of k hdrs). Qed.

Lemma values_of_app k l1 l2 : values_of k (l1 ++ l2) = values_of k l1 ++ values_of k l2.
Proof. apply omap_app. Qed.

Lemma values_of_group k n vs :
  values_of k (map (mkKV n) vs) = if decide (CanonicalMIMEHeaderKey n = k) then vs else [].
Proof.
  induction vs as [|v vs IH]; [by case_decide|]. cbn [map]. change (mkKV n v :: map (mkKV n) vs) with ([mkKV n v] ++ map (mkKV n) vs).
  rewrite values_of_app, IH. unfold values_of. cbn. by case_decide.
Qed.

Lemma values_of_groups k (l : list (bytes * list bytes)) :
  NoDup (map fst l) -> Forall (fun e => canonical_name e.1) l ->
  values_of k (concat (map (fun e => map (mkKV (toLowerASCII e.1)) e.2) l))
  = default [] ((list_to_map l : gmap bytes (list bytes)) !! k).
Proof.
  induction l as [|[n vs] l IH]; intros Hn Hc; [done|]. cbn [map concat fst snd list_to_map foldr] in *.
  apply NoDup_cons in Hn as [Hnin Hn]. apply Forall_cons in Hc as [Hname Hc]. cbn [fst] in Hname.
  rewrite values_of_app, values_of_group, (canonical_lower n Hname), (IH Hn Hc). case_decide as Hk.
  - subst k. cbn [uncurry fst snd]. rewrite lookup_insert_eq, not_elem_of_list_to_map_1 by done. apply app_nil_r.
  - cbn [uncurry fst snd]. by rewrite lookup_insert_ne.
Qed.

(** Header maps whose names Go's own header operations could have stored. *)
Definition header_ok (h : Header) : Prop := map_Forall (fun k _ => canonical_name k) h.

#[export] Instance header_ok_dec (h : Header) : Decision (header_ok h).
Proof. unfold header_ok. apply _. Defined.

Lemma sorted_header_NoDup (h : Header) : NoDup (map fst (sort_entries fst (map_to_list h))).
Proof. change (NoDup (fst <$> sort_entries fst (map_to_list h))). rewrite sort_entries_perm. apply NoDup_fst_map_to_list. Qed.

Lemma sorted_header_map (h : Header) : list_to_map (sort_entries fst (map_to_list h)) = h.
Proof.
  rewrite <- (list_to_map_to_list h) at 2. apply list_to_map_proper; [apply sorted_header_NoDup|apply sort_entries_perm].
Qed.

(** The carried fields give the header map back, without the names that have no values. *)
Lemma headers_roundtrip h k :
  header_ok h -> toHTTPHeader (encodeHTTPHeaders h) !! k = h !! k ≫= entry_of.
Proof.
  intros Hok. rewrite toHTTPHeader_lookup. unfold encodeHTTPHeaders. rewrite values_of_groups.
  - rewrite sorted_header_map. by destruct (h !! k) as [[]|].
  - apply sorted_header_NoDup.
  - rewrite sort_entries_perm. apply map_Forall_to_list in Hok. eapply Forall_impl; [exact Hok|]. by intros [].
Qed.

Lemma encoded_names h : header_ok h -> Forall (fun kv => isPseudoHeader (hk_Name kv) = false) (encodeHTTPHeaders h).
Proof.
  intros Hok. unfold encodeHTTPHeaders. apply Forall_concat, Forall_map. rewrite sort_entries_perm.
  apply map_Forall_to_list in Hok. eapply Forall_impl; [exact Hok|]. intros [n vs] Hn. apply Forall_map, Forall_forall.
  intros v _. by apply canonical_not_pseudo.
Qed.

(** ** Reading back an encoded map *)

Lemma go_get_elem m k v : NoDup (map fst m) -> go_get m k = Some v <-> (k, v) ∈ m.
Proof.
  unfold go_get. induction m as [|[j w] m IH]; intros Hn; [cbn; rewrite elem_of_nil; done|].
  cbn [map fst] in Hn. apply NoDup_cons in Hn as [Hj Hn]. cbn [find fst]. rewrite elem_of_cons.
  destruct (Z.eqb_spec j k) as [->|Hne].
  - cbn. split; [intros [= ->]; by left|]. intros [[= ->]|Hin]; [done|]. destruct Hj.
    apply (list_elem_of_fmap_2 fst) in Hin. exact Hin.
  - rewrite (IH Hn). split; [by right|]. intros [[= -> _]|]; done.
Qed.

Lemma go_get_app m1 m2 k :
  go_get (m1 ++ m2) k = match go_get m1 k with Some v => Some v | None => go_get m2 k end.
Proof. unfold go_get. induction m1 as [|e m1 IH]; [done|]. cbn [app find]. by destruct (e.1 =? k). Qed.

Lemma go_get_cons j v m k : go_get ((j, v) :: m) k = if j =? k then Some v else go_get m k.
Proof. unfold go_get. cbn [find fst]. by destruct (j =? k). Qed.

Lemma go_get_perm m m' k : NoDup (map fst m) -> m ≡ₚ m' -> go_get m' k = go_get m k.
Proof.
  intros Hn Hp. assert (NoDup (map fst m')) as Hn' by (change (NoDup (fst <$> m')); by rewrite <- Hp).
  apply option_eq. intros v. rewrite !go_get_elem by done. by rewrite Hp.
Qed.

(** Values the encoder and the converting decoder give back as they are. *)
Definition plain (v : value) : Prop := cborToGo (canon v) = v.

Lemma decode_go_map (m : list (Z * value)) :
  go_ok cborMaxNestingDepth (VGoMap m) -> Forall (fun e => plain e.2) m -> blen (cborEncode (VGoMap m)) < 2 ^ 63 ->
  exists m', DecodeCanonicalCBOR (cborEncode (VGoMap m)) = Ok (VGoMap m') /\ forall k, go_get m' k = go_get m k.
Proof.
  intros Hok Hp Hb. exists (omap go_entry (newCBORMapU (canon_entries m))). split.
  - unfold DecodeCanonicalCBOR. rewrite <- (encode_canon _ _ Hok) in *.
    rewrite decode_top_encoded by first [by apply canon_ok|done]. cbn [mbind result_bind]. by rewrite canon_go_map, cborToGo_map.
  - intros k. destruct Hok as [_ Hn]. apply go_get_perm; [done|]. unfold newCBORMapU. fold (go_entries (canon_entries m)).
    rewrite sort_entries_perm, omap_go_entries. unfold canon_entries. rewrite map_map. cbn [fst snd].
    clear -Hp. induction Hp as [|[k v] m Hv Hp IH]; [done|]. cbn [map fst snd]. unfold plain in Hv. cbn [snd] in Hv.
    by rewrite Hv, <- IH.
Qed.

Lemma headers_plain hdrs : plain (headersToCBOR hdrs).
Proof.
  unfold plain, headersToCBOR. cbn [canon cborToGo]. f_equal. rewrite !map_map. by apply map_ext.
Qed.

Lemma headers_decode hdrs : decodeHeaderList (headersToCBOR hdrs) = Ok hdrs.
Proof. cbn. induction hdrs as [|[n v] hdrs IH]; [done|]. cbn. by rewrite IH. Qed.

Lemma headers_go_ok d hdrs : go_ok (S (S (S d))) (headersToCBOR hdrs).
Proof. cbn. apply Forall_map, Forall_forall. intros kv _. by repeat constructor. Qed.

Section common.
Context (h : Header) (body : bytes) (pre : list (Z * value)).
Hypothesis Hpre : Forall (fun e => is_u64 e.1 /\ e.1 < 8 /\ go_ok 7 e.2 /\ plain e.2) pre.

Lemma common_get k :
  go_get (pre ++ common_entries h body) k =
  if k =? 8 then match encodeHTTPHeaders h with [] => None | l => Some (headersToCBOR l) end
  else if k =? 9 then match body with [] => None | b => Some (VBytes b) end
  else go_get pre k.
Proof.
  rewrite go_get_app. unfold common_entries.
  assert (forall j, 8 <= j -> go_get pre j = None) as Hno.
  { intros j Hj. induction Hpre as [|[i v] l (_ & He & _) Hl IH]; [done|]. rewrite go_get_cons.
    cbn [fst] in He. rewrite (proj2 (Z.eqb_neq _ _)) by lia. by apply IH. }
  assert (forall A (x : A) l, (0 <? blen (x :: l)) = true) as Hpos
    by (intros A x l; apply Z.ltb_lt; rewrite blen_cons; pose proof (blen_nonneg l); lia).
  destruct (Z.eqb_spec k 8) as [->|H8]; [rewrite Hno by lia|destruct (Z.eqb_spec k 9) as [->|H9]; [rewrite Hno by lia|]].
  - destruct (encodeHTTPHeaders h) as [|x l]; [by destruct body; rewrite ?Hpos|]. by rewrite Hpos.
  - destruct body as [|x b]; [|rewrite Hpos]; by destruct (encodeHTTPHeaders h); rewrite ?Hpos.
  - destruct (go_get pre k); [done|]. rewrite go_get_app.
    destruct (0 <? _), (0 <? _); rewrite ?go_get_cons, ?(proj2 (Z.eqb_neq 8 k)), ?(proj2 (Z.eqb_neq 9 k)) by done; done.
Qed.

Lemma common_decodes :
  NoDup (map fst pre) -> blen (cborEncode (VGoMap (pre ++ common_entries h body))) < 2 ^ 63 ->
  exists m', DecodeCanonicalCBOR (cborEncode (VGoMap (pre ++ common_entries h body))) = Ok (VGoMap m') /\
    forall k, go_get m' k = go_get (pre ++ common_entries h body) k.
Proof.
  intros Hnodup Hsize. assert (Forall (fun e => 8 <= e.1 <= 9 /\ go_ok 7 e.2 /\ plain e.2) (common_entries h body)) as Hc.
  { unfold common_entries. apply Forall_app. split; destruct (0 <? _); repeat constructor; cbn; try lia;
      [apply (headers_go_ok 4)|apply headers_plain]. }
  apply decode_go_map; [|apply Forall_app; split; (eapply Forall_impl; [eassumption|]; naive_solver)|exact Hsize].
  split.
  - apply Forall_app. split; [eapply Forall_impl; [exact Hpre|]; naive_solver|].
    eapply Forall_impl; [exact Hc|]. intros e (He & Hg & _). split; [unfold is_u64; lia|done].
  - rewrite map_app. apply NoDup_app. split_and!; [done| |].
    + intros k Hk Hk'. apply list_elem_of_fmap in Hk as (e & -> & He). apply list_elem_of_fmap in Hk' as (e' & Heq & He').
      rewrite Forall_forall in Hc, Hpre. specialize (Hc _ He'). specialize (Hpre _ He). lia.
    + unfold common_entries. destruct (0 <? _), (0 <? _); cbn; repeat constructor; rewrite ?elem_of_cons, ?elem_of_nil; naive_solver.
Qed.

(** What the decoder finds under the two shared keys. *)
Lemma common_headers m' :
  (forall k, go_get m' k = go_get (pre ++ common_entries h body) k) ->
  decode_headers m' = match find (fun kv => isPseudoHeader (hk_Name kv)) (encodeHTTPHeaders h) with
                      | Some kv => Err (pseudoHeader (hk_Name kv))
                      | None => Ok (encodeHTTPHeaders h)
                      end.
Proof.
  intros Hm. unfold decode_headers. rewrite Hm, common_get. cbn [Z.eqb Pos.eqb].
  destruct (encodeHTTPHeaders h) as [|x l]; [done|]. by rewrite headers_decode.
Qed.

Lemma common_body m' :
  (forall k, go_get m' k = go_get (pre ++ common_entries h body) k) ->
  match go_get m' 9 with None => Ok [] | Some (VBytes b) => Ok b | Some _ => Err bodyNotBytes end = Ok body.
Proof. intros Hm. rewrite Hm, common_get. cbn [Z.eqb Pos.eqb]. by destruct body. Qed.
End common.

(** The first pseudo-header name of a field list. *)
Definition first_pseudo (hdrs : list headerKV) : option bytes :=
  hk_Name <$> find (fun kv => isPseudoHeader (hk_Name kv)) hdrs.

Lemma request_roundtrip method target h body :
  blen (encodeHTTPCarriageRequest method target h body) < 2 ^ 63 ->
  decodeHTTPCarriageObject (encodeHTTPCarriageRequest method target h body) httpKindRequest =
  if bool_decide (method = []) then Err missingMethod
  else if bool_decide (target = []) then Err missingTarget
  else match first_pseudo (encodeHTTPHeaders h) with
       | Some n => Err (pseudoHeader n)
       | None => Ok (mkHttp httpKindRequest method target 0 (encodeHTTPHeaders h) body)
       end.
Proof.
  intros Hb. unfold encodeHTTPCarriageRequest in *.
  assert (Forall (fun e : Z * value => is_u64 e.1 /\ e.1 < 8 /\ go_ok 7 e.2 /\ plain e.2)
    [(1, VUint httpKindRequest); (2, VText method); (3, VText target)]) as Hpre
    by (repeat constructor; cbn; unfold is_u64; try lia; try done).
  assert (NoDup (map fst [(1, VUint httpKindRequest); (2, VText method); (3, VText target)])) as Hnd
    by (cbn; eapply bool_decide_eq_true_1; by vm_compute).
  destruct (common_decodes h body _ Hpre Hnd Hb) as (m' & Hd & Hg). unfold decodeHTTPCarriageObject. rewrite Hd.
  cbn [map_err mbind result_bind]. rewrite (common_body _ _ _ Hpre m' Hg), (common_headers _ _ _ Hpre m' Hg).
  unfold decode_typed. rewrite !Hg, !(common_get h body _ Hpre). cbn [Z.eqb Pos.eqb go_get find fst snd fmap option_fmap option_map].
  cbn [mbind result_bind negb check httpKindRequest Z.eqb Pos.eqb]. unfold first_pseudo.
  destruct method as [|x method]; [done|]. destruct target as [|y target]; [done|].
  rewrite !bool_decide_false by done. cbn. by destruct (find _ (encodeHTTPHeaders h)).
Qed.

Lemma response_roundtrip status h body :
  0 <= status < 2 ^ 64 -> blen (encodeHTTPCarriageResponse status h body) < 2 ^ 63 ->
  decodeHTTPCarriageObject (encodeHTTPCarriageResponse status h body) httpKindResponse =
  if (status <? 100) || (599 <? status) then Err badStatus
  else match first_pseudo (encodeHTTPHeaders h) with
       | Some n => Err (pseudoHeader n)
       | None => Ok (mkHttp httpKindResponse [] [] status (encodeHTTPHeaders h) body)
       end.
Proof.
  intros Hs Hb. unfold encodeHTTPCarriageResponse in *. rewrite (u64_id status Hs) in *.
  assert (Forall (fun e : Z * value => is_u64 e.1 /\ e.1 < 8 /\ go_ok 7 e.2 /\ plain e.2)
    [(1, VUint httpKindResponse); (6, VUint status)]) as Hpre
    by (repeat constructor; cbn; unfold is_u64; try lia; try done).
  assert (NoDup (map fst [(1, VUint httpKindResponse); (6, VUint status)])) as Hnd
    by (cbn; eapply bool_decide_eq_true_1; by vm_compute).
  destruct (common_decodes h body _ Hpre Hnd Hb) as (m' & Hd & Hg). unfold decodeHTTPCarriageObject. rewrite Hd.
  cbn [map_err mbind result_bind]. rewrite (common_body _ _ _ Hpre m' Hg), (common_headers _ _ _ Hpre m' Hg).
  unfold decode_typed. rewrite !Hg, !(common_get h body _ Hpre). cbn [Z.eqb Pos.eqb go_get find fst snd fmap option_fmap option_map].
  cbn [mbind result_bind negb check httpKindResponse httpKindRequest Z.eqb Pos.eqb]. unfold first_pseudo.
  destruct ((status <? 100) || (599 <? status)); [done|]. cbn. by destruct (find _ (encodeHTTPHeaders h)).
Qed.

Lemma no_pseudo h : header_ok h -> first_pseudo (encodeHTTPHeaders h) = None.
Proof.
  intros Hok. apply encoded_names in Hok. unfold first_pseudo. induction Hok as [|kv l Hkv Hl IH]; [done|].
  cbn [find]. by rewrite Hkv.
Qed.
