(* ===== verification/CarriageStream.v ===== *)
(** * The stream, gRPC and opaque carriages
      (proxy/carriage_stream.go, carriage_grpc.go, carriage_opaque.go)

    A stream frame carries a StreamControl TLV before the foreign event; a gRPC message
    is length-prefixed; an opaque message declares its media type in the envelope or in a
    TLV before the raw octets. *)

From S2P Require Import Prelude Errors Tlv Bridge CarriageHttp.
From Stdlib Require Import Strings.Byte.
Open Scope Z_scope.

(** ** StreamControl *)

Definition TLVStreamControl : Z := 0x0011.

Definition streamControlData : Z := 0x00.
Definition streamControlResume : Z := 0x01.
Definition streamControlCancel : Z := 0x02.

Definition streamFlagResumable : Z := 0x01.
Definition streamFlagCancelAck : Z := 0x02.

Definition streamControlVersion : Z := 0x01.

Definition BridgeErrNotResumable : Z := 6.

Record streamControl : Type := mkControl {
  sc_Control : Z;   (* uint8 *)
  sc_Flags : Z;     (* uint8 *)
  sc_EventID : Z    (* uint64 *)
}.

Definition Resumable (s : streamControl) : bool := negb (Z.land (sc_Flags s) streamFlagResumable =? 0).
Definition CancelAck (s : streamControl) : bool := negb (Z.land (sc_Flags s) streamFlagCancelAck =? 0).

Inductive errStreamMalformed : Type :=
| tooShort (n : Z)
| notStreamControl (typ : Z)
| lengthExceeds
| badLength (n : Z)
| badVersion (v : Z)
| badControl (c : Z)
| notIncreasing (id last : Z).

Definition encodeStreamControlValue (sc : streamControl) : bytes :=
  [z2b streamControlVersion; z2b (sc_Control sc); z2b (sc_Flags sc)] ++ be_put 8 (sc_EventID sc).

Definition decodeLeadingStreamControl (buf : bytes) : result errStreamMalformed (streamControl * bytes) :=
  check (blen buf <? 4) (tooShort (blen buf));;
  let typ := be_get (slice 0 2 buf) in
  let ln := be_get (slice 2 4 buf) in
  check (negb (typ =? TLVStreamControl)) (notStreamControl typ);;
  check (blen buf <? 4 + ln) lengthExceeds;;
  let v := slice 4 (Z.to_nat (4 + ln)) buf in
  check (negb (blen v =? 11)) (badLength (blen v));;
  check (negb (at_ v 0 =? streamControlVersion)) (badVersion (at_ v 0));;
  check (negb (existsb (Z.eqb (at_ v 1)) [streamControlData; streamControlResume; streamControlCancel])) (badControl (at_ v 1));;
  Ok (mkControl (at_ v 1) (at_ v 2) (be_get (slice 3 11 v)), drop (Z.to_nat (4 + ln)) buf).

(** The foreign region of a stream frame. *)
Definition stream_foreign (sc : streamControl) (event : bytes) : bytes :=
  TLV_Encode (mkTLV TLVStreamControl (encodeStreamControlValue sc)) [] ++ event.

Definition encodeStreamFrame (env : BridgeEnvelope) (sc : streamControl) (event : bytes) : option bytes :=
  EncodeBridgePayload env None (stream_foreign sc event).

(** The event-id tracker of one consumed stream; [None] before the first id. *)
Definition streamEventTracker : Type := option Z.

Definition accept (t : streamEventTracker) (id : Z) : result errStreamMalformed streamEventTracker :=
  match t with
  | Some last => if id <=? last then Err (notIncreasing id last) else Ok (Some id)
  | None => Ok (Some id)
  end.

(** ** gRPC length-prefixed messages *)

Definition grpcProtocolID : Z := 0x05.

Inductive errGRPCMalformed : Type :=
| lpmTooShort (n : Z)
| lpmBadFlag (flag : Z)
| lpmLength (declared remaining : Z).

Definition encodeGRPCLengthPrefixedMessage (compressed : bool) (msg : bytes) : bytes :=
  [if compressed then x01 else x00] ++ be_put 4 (u32 (blen msg)) ++ msg.

Definition decodeGRPCLengthPrefixedMessage (buf : bytes) : result errGRPCMalformed (bool * bytes) :=
  check (blen buf <? 5) (lpmTooShort (blen buf));;
  let flag := at_ buf 0 in
  check (1 <? flag) (lpmBadFlag flag);;
  let ln := be_get (slice 1 5 buf) in
  check (negb (u32 (blen buf - 5) =? ln)) (lpmLength ln (blen buf - 5));;
  Ok (flag =? 1, drop 5 buf).

(** ** Opaque payloads *)

Definition BridgeContentJSON : Z := 0x01.
Definition BridgeContentCBOR : Z := 0x02.
Definition BridgeContentGRPCProto : Z := 0x03.

Definition opaqueContentTypeTLV : Z := 0x0012.
Definition opaqueContentTypeDiscriminator : Z := 0x04.

Inductive errOpaqueContentType : Type :=
| mediaEmpty
| mediaNul
| mediaSyntax (m : bytes)
| tlvExceeds (ln : Z)
| ambiguousType
| missingType
| unknownType (ct : Z).

Definition contentTypeToMediaType (ct : Z) : option bytes :=
  if ct =? BridgeContentJSON then Some (str "application/json")
  else if ct =? BridgeContentCBOR then Some (str "application/cbor")
  else if ct =? BridgeContentGRPCProto then Some (str "application/grpc+proto")
  else None.

Definition mediaTypeToContentType (m : bytes) : option Z :=
  if bool_decide (m = str "application/json") then Some BridgeContentJSON
  else if bool_decide (m = str "application/cbor") then Some BridgeContentCBOR
  else if bool_decide (m = str "application/grpc+proto") then Some BridgeContentGRPCProto
  else None.

(** [strings.IndexByte]: the octets before the first occurrence and those after it. *)
Fixpoint cut_at (c : byte) (s : bytes) : option (bytes * bytes) :=
  match s with
  | [] => None
  | x :: s => if bool_decide (x = c) then Some ([], s)
              else match cut_at c s with Some (a, b) => Some (x :: a, b) | None => None end
  end.

Definition isToken (s : bytes) : bool :=
  match s with [] => false | _ => forallb isTchar s end.

Definition validMediaTypeSyntax (s : bytes) : bool :=
  match s with
  | [] => false
  | _ =>
      let head := match cut_at x3b s with Some (head, _) => head | None => s end in
      match cut_at x2f head with
      | None => false
      | Some (typ, subtype) =>
          match typ, subtype with
          | [], _ | _, [] => false
          | _, _ => isToken typ && isToken subtype
          end
      end
  end.

Definition has_nul (s : bytes) : bool := existsb (fun c => bool_decide (c = x00)) s.

Definition with_content (env : BridgeEnvelope) (ct : Z) : BridgeEnvelope :=
  mkEnvelope (be_Protocol env) (be_Kind env) ct (be_Flags env) (be_CorrelationID env) (be_Method env).

(** The outer [None] is the envelope encoder's panic on an over-long field. *)
Definition encodeOpaquePayload (env : BridgeEnvelope) (mediaType raw : bytes) : option (result errOpaqueContentType bytes) :=
  match mediaTypeToContentType mediaType with
  | Some ct => Ok <$> EncodeBridgePayload (with_content env ct) None raw
  | None =>
      if bool_decide (mediaType = []) then Some (Err mediaEmpty)
      else if has_nul mediaType then Some (Err mediaNul)
      else if negb (validMediaTypeSyntax mediaType) then Some (Err (mediaSyntax mediaType))
      else
        envelopeOnly ← EncodeBridgePayload (with_content env opaqueContentTypeDiscriminator) None [];
        let ext := TLV_Encode (mkTLV opaqueContentTypeTLV mediaType) [] in
        Some (Ok (envelopeOnly ++ ext ++ raw))
  end.

(** The value and rest of a leading TLV of the wanted type; [None] when there is none. *)
Definition peekLeadingTLV (buf : bytes) (want : Z) : result errOpaqueContentType (option (bytes * bytes)) :=
  if blen buf <? 4 then Ok None
  else if negb (be_get (slice 0 2 buf) =? want) then Ok None
  else
    let ln := be_get (slice 2 4 buf) in
    check (blen buf <? 4 + ln) (tlvExceeds ln);;
    Ok (Some (slice 4 (Z.to_nat (4 + ln)) buf, drop (Z.to_nat (4 + ln)) buf)).

Definition decodeOpaquePayload (env : BridgeEnvelope) (foreign : bytes) : result errOpaqueContentType (bytes * bytes) :=
  peeked ← peekLeadingTLV foreign opaqueContentTypeTLV;
  let isDiscriminator := be_ContentType env =? opaqueContentTypeDiscriminator in
  match peeked, isDiscriminator with
  | Some _, false => Err ambiguousType
  | None, true => Err missingType
  | Some (mt, rest), true =>
      check (bool_decide (mt = [])) mediaEmpty;;
      check (has_nul mt) mediaNul;;
      check (negb (validMediaTypeSyntax mt)) (mediaSyntax mt);;
      Ok (mt, rest)
  | None, false =>
      match contentTypeToMediaType (be_ContentType env) with
      | Some mt => Ok (mt, foreign)
      | None => Err (unknownType (be_ContentType env))
      end
  end.

Example stream_example :
  let sc := mkControl streamControlData streamFlagCancelAck 258 in
  stream_foreign sc (str "hi") = hex "0011000b0100020000000000000102" ++ str "hi" /\
  decodeLeadingStreamControl (stream_foreign sc (str "hi")) = Ok (sc, str "hi") /\
  CancelAck sc = true /\
  decodeGRPCLengthPrefixedMessage (encodeGRPCLengthPrefixedMessage true (str "m")) = Ok (true, str "m") /\
  validMediaTypeSyntax (str "text/plain; charset=utf-8") = true /\ validMediaTypeSyntax (str "a/b/c") = false.
Proof. by vm_compute. Qed.

(** ** Carrying a foreign message without a label *)

(** Envelopes a frame of type [ft] can carry. *)
Definition sendable (ft : Z) (env : BridgeEnvelope) : Prop :=
  BridgeKindForFrame ft = Some (be_Kind env) /\ envelope_wf env /\
  (be_CorrelationID env = [] <-> ft = FrameBridgeNotify).

Lemma sendable_content ft env ct : is_u8 ct -> sendable ft env -> sendable ft (with_content env ct).
Proof. intros Hct (Hk & (? & ? & ? & ? & ? & ?) & Hc). split; [done|]. split; [|done]. unfold envelope_wf. by cbn. Qed.

Lemma encode_sendable ft env foreign : sendable ft env -> exists b, EncodeBridgePayload env None foreign = Some b.
Proof.
  intros (_ & Hw & _). destruct (encodeEnvelope_total env Hw) as [ev Hev]. eexists. apply payload_split.
  cbn [bf_Envelope bf_Safety bf_Foreign]. eauto.
Qed.

Lemma carried ft env foreign b :
  sendable ft env -> ~ reads_as_label foreign -> EncodeBridgePayload env None foreign = Some b ->
  DecodeBridgeFrame ft b = Ok (mkBridge env None foreign).
Proof. intros (? & ? & ?) Hl He. by apply bridge_decodes. Qed.

(** Octets that begin with a TLV header of type [typ]. *)
Definition begins_with (typ : Z) (b : bytes) : Prop := 4 <= blen b /\ be_get (slice 0 2 b) = typ.

#[export] Instance begins_with_dec typ b : Decision (begins_with typ b).
Proof. unfold begins_with. apply _. Defined.

Lemma begins_unique t1 t2 b : begins_with t1 b -> begins_with t2 b -> t1 = t2.
Proof. intros [_ <-] [_ <-]. done. Qed.

Lemma tlv_begins t rest : is_u16 (TLVType t) -> begins_with (TLVType t) (encode_tlv t ++ rest).
Proof.
  intros Ht. split.
  - rewrite blen_app, blen_encode_tlv. pose proof (blen_nonneg (TLVValue t)). pose proof (blen_nonneg rest). lia.
  - unfold encode_tlv, TLV_Encode. cbn [app]. rewrite <- !app_assoc. unfold slice. cbn [Nat.sub drop]. rewrite drop_0.
    rewrite take_app_le by (rewrite length_be_put; lia). rewrite take_ge by (rewrite length_be_put; lia).
    by apply be_get_put_small.
Qed.

(** ** StreamControl is exact *)

Definition control_wf (sc : streamControl) : Prop :=
  sc_Control sc ∈ [streamControlData; streamControlResume; streamControlCancel] /\ is_u8 (sc_Flags sc) /\ is_u64 (sc_EventID sc).

Lemma control_in c : existsb (Z.eqb c) [streamControlData; streamControlResume; streamControlCancel] = true <->
  c ∈ [streamControlData; streamControlResume; streamControlCancel].
Proof.
  rewrite existsb_exists. setoid_rewrite Z.eqb_eq. split.
  - intros (x & Hx & ->). by apply list_elem_of_In.
  - intros Hc. exists c. split; [by apply list_elem_of_In|done].
Qed.

Lemma control_value v sc :
  v = encodeStreamControlValue sc -> control_wf sc ->
  blen v = 11 /\ at_ v 0 = streamControlVersion /\ at_ v 1 = sc_Control sc /\ at_ v 2 = sc_Flags sc /\
  be_get (slice 3 11 v) = sc_EventID sc.
Proof.
  intros -> (Hc & Hf & He). unfold encodeStreamControlValue. split_and!.
  - rewrite blen_app, blen_be_put. reflexivity.
  - reflexivity.
  - unfold at_. cbn [app nth]. apply b2z_z2b_small. rewrite !elem_of_cons, elem_of_nil in Hc.
    unfold streamControlData, streamControlResume, streamControlCancel in Hc. lia.
  - unfold at_. cbn [app nth]. by apply b2z_z2b_small.
  - unfold slice. cbn [app drop Nat.sub]. rewrite drop_0, take_ge by (rewrite length_be_put; lia). by apply be_get_put_small.
Qed.

Lemma control_value_inv v :
  blen v = 11 -> at_ v 0 = streamControlVersion ->
  v = encodeStreamControlValue (mkControl (at_ v 1) (at_ v 2) (be_get (slice 3 11 v))).
Proof.
  intros Hl H0. unfold encodeStreamControlValue. cbn [sc_Control sc_Flags sc_EventID]. rewrite <- H0.
  rewrite be_put_get_eq by (rewrite length_slice; unfold blen in Hl; lia).
  do 3 (destruct v as [|? v]; [unfold blen in Hl; cbn [length] in Hl; lia|]).
  unfold at_, slice. cbn [nth app drop Nat.sub]. rewrite !z2b_b2z, drop_0, take_ge; [done|].
  rewrite !blen_cons in Hl. unfold blen in Hl. lia.
Qed.

Lemma stream_control_decodes sc event :
  control_wf sc -> decodeLeadingStreamControl (stream_foreign sc event) = Ok (sc, event).
Proof.
  intros Hw. unfold stream_foreign, decodeLeadingStreamControl. rewrite TLV_Encode_app, app_nil_l.
  destruct (control_value _ sc eq_refl Hw) as (Hl & H0 & H1 & H2 & H3).
  destruct (decode_front (mkTLV TLVStreamControl (encodeStreamControlValue sc)) event) as (D1 & D2 & D3 & D4);
    [split; [done|cbn [TLVValue]; lia]|].
  cbn [TLVType TLVValue] in *. rewrite D1, D2, D3, D4, Hl, H0, H1, H2, H3.
  rewrite blen_app, blen_encode_tlv. cbn [TLVValue]. rewrite Hl. pose proof (blen_nonneg event).
  rewrite !(proj2 (Z.ltb_ge _ _)) by lia. rewrite (proj2 (control_in _)) by apply Hw. by destruct sc.
Qed.

Lemma control_begins buf sc event : decodeLeadingStreamControl buf = Ok (sc, event) -> begins_with TLVStreamControl buf.
Proof. unfold decodeLeadingStreamControl. intros Hd. inv_res Hd. split; [lia|done]. Qed.

(** A StreamControl TLV is read from the front of a payload exactly when the payload is
    the encoding of a well-formed control (a defined selector, an octet of flags, a 64-bit
    event id) followed by the event; the event octets are taken verbatim.  So every other
    payload is refused and no event is altered. *)
Theorem stream_control_exact (buf : bytes) (sc : streamControl) (event : bytes) :
  decodeLeadingStreamControl buf = Ok (sc, event) <-> control_wf sc /\ buf = stream_foreign sc event.
Proof.
  split; [|intros [Hw ->]; by apply stream_control_decodes].
  unfold decodeLeadingStreamControl. intros Hd. inv_res Hd.
  destruct (tlv_front buf) as [Ht Hb]; [lia|lia|].
  match goal with H : existsb _ _ = true |- _ => apply control_in in H as Hc end.
  set (v := slice 4 (Z.to_nat (4 + be_get (slice 2 4 buf))) buf) in *. split.
  - split_and!; cbn; [done|apply b2z_range|]. apply (be_get_fixed _ 8). rewrite length_slice; unfold blen in *; lia.
  - unfold stream_foreign. rewrite TLV_Encode_app, app_nil_l. rewrite <- control_value_inv by done.
    match goal with H : be_get (slice 0 2 buf) = TLVStreamControl |- _ => rewrite H in Hb end. exact Hb.
Qed.

(** ** Length-prefixed messages are exact *)

Lemma lpm_decodes (compressed : bool) (msg : bytes) :
  decodeGRPCLengthPrefixedMessage (encodeGRPCLengthPrefixedMessage compressed msg) = Ok (compressed, msg).
Proof.
  unfold decodeGRPCLengthPrefixedMessage, encodeGRPCLengthPrefixedMessage.
  assert (blen ([if compressed then x01 else x00] ++ be_put 4 (u32 (blen msg)) ++ msg) = 5 + blen msg) as Hl
    by (rewrite !blen_app, blen_be_put; unfold blen; cbn [length]; lia).
  rewrite Hl. pose proof (blen_nonneg msg). rewrite (proj2 (Z.ltb_ge _ 5)) by lia.
  unfold at_, slice. cbn [app nth drop Nat.sub]. rewrite drop_0.
  rewrite take_app_le by (rewrite length_be_put; lia). rewrite take_ge by (rewrite length_be_put; lia).
  rewrite be_get_put_small by (unfold u32; apply Z.mod_pos_bound; lia).
  replace (5 + blen msg - 5) with (blen msg) by lia. rewrite Z.eqb_refl.
  rewrite drop_app_ge by (rewrite length_be_put; lia). rewrite length_be_put, Nat.sub_diag, drop_0. by destruct compressed.
Qed.

(** A gRPC length-prefixed message decodes to a flag and a message exactly when it is
    the encoding of them, whatever the length of the message: the declared length is
    compared modulo 2^32 on both sides. *)
Theorem lpm_exact (buf : bytes) (compressed : bool) (msg : bytes) :
  decodeGRPCLengthPrefixedMessage buf = Ok (compressed, msg) <-> buf = encodeGRPCLengthPrefixedMessage compressed msg.
Proof.
  split; [|intros ->; apply lpm_decodes]. unfold decodeGRPCLengthPrefixedMessage, encodeGRPCLengthPrefixedMessage.
  intros Hd. inv_res Hd. destruct buf as [|f buf]; [unfold blen in *; cbn [length] in *; lia|].
  rewrite blen_cons in *. unfold at_ in *. cbn [nth] in *. unfold slice in *. cbn [drop Nat.sub app] in *. rewrite drop_0 in *.
  replace (blen (drop 4 buf)) with (1 + blen buf - 5) by (unfold blen in *; rewrite length_drop; lia).
  match goal with H : u32 _ = _ |- _ => rewrite H end.
  rewrite be_put_get_eq by (rewrite length_take; unfold blen in *; lia). rewrite take_drop. f_equal.
  pose proof (b2z_range f). apply b2z_inj. destruct (Z.eqb_spec (b2z f) 1) as [E|E]; [by rewrite E|].
  change (b2z x00) with 0. lia.
Qed.

(** ** Opaque payloads *)

Lemma reads_as_label_begins b : reads_as_label b <-> begins_with TLVSafetyLabel b.
Proof. reflexivity. Qed.

Lemma peek_absent buf want : ~ begins_with want buf -> peekLeadingTLV buf want = Ok None.
Proof.
  intros Hn. unfold peekLeadingTLV. destruct (Z.ltb_spec (blen buf) 4); [done|].
  destruct (Z.eqb_spec (be_get (slice 0 2 buf)) want); [|done]. by destruct Hn.
Qed.

Lemma peek_present buf want r : begins_with want buf -> peekLeadingTLV buf want = Ok r -> exists v rest, r = Some (v, rest) /\ blen v < 2 ^ 16.
Proof.
  intros [H4 Ht] Hp. unfold peekLeadingTLV in Hp. rewrite (proj2 (Z.ltb_ge _ 4)) in Hp by done.
  rewrite Ht, Z.eqb_refl in Hp. cbn [negb] in Hp. inv_res Hp. eexists _, _. split; [done|].
  pose proof (be_get_fixed (slice 2 4 buf) 2) as Hr. rewrite length_slice in Hr by (unfold blen in *; lia). specialize (Hr eq_refl).
  unfold blen. rewrite length_slice by (unfold blen in *; lia). change (2 ^ 16) with (256 ^ Z.of_nat 2). lia.
Qed.

Lemma peek_tlv v rest want :
  tlv_wf (mkTLV want v) -> peekLeadingTLV (encode_tlv (mkTLV want v) ++ rest) want = Ok (Some (v, rest)).
Proof.
  intros Hw. unfold peekLeadingTLV. destruct (decode_front _ rest Hw) as (D1 & D2 & D3 & D4). cbn [TLVType TLVValue] in *.
  rewrite D1, D2, D3, D4, Z.eqb_refl. rewrite blen_app, blen_encode_tlv. cbn [TLVValue negb].
  pose proof (blen_nonneg v). pose proof (blen_nonneg rest). rewrite !(proj2 (Z.ltb_ge _ _)) by lia. done.
Qed.

Lemma media_types m ct : mediaTypeToContentType m = Some ct ->
  contentTypeToMediaType ct = Some m /\ is_u8 ct /\ ct <> opaqueContentTypeDiscriminator.
Proof.
  unfold mediaTypeToContentType. repeat case_bool_decide; intros [= <-]; subst; done.
Qed.

(** What the receiver makes of a payload: the Bridge decoder, then the content type. *)
Definition decode_opaque (ft : Z) (b : bytes) : option (bytes * bytes) :=
  match DecodeBridgeFrame ft b with
  | Ok f => match decodeOpaquePayload (bf_Envelope f) (bf_Foreign f) with Ok r => Some r | Err _ => None end
  | Err _ => None
  end.

(** Both decoders take a front of the raw octets for a TLV. *)
Definition misread (raw : bytes) : Prop := begins_with TLVSafetyLabel raw \/ begins_with opaqueContentTypeTLV raw.

Lemma opaque_shorter env foreign mt rest : decodeOpaquePayload env foreign = Ok (mt, rest) -> blen rest <= blen foreign.
Proof.
  unfold decodeOpaquePayload, peekLeadingTLV. intros H.
  destruct (blen foreign <? 4); [|destruct (negb _)]; cbn [mbind result_bind] in H.
  1,2: destruct (_ =? _); [done|]; destruct (contentTypeToMediaType _); [|done]; injection H as _ <-; lia.
  destruct (check _ _) as [[]|] eqn:Hc; [|done]. cbn [mbind result_bind] in H. destruct (_ =? _); [|done].
  inv_res H. unfold blen. rewrite length_drop. lia.
Qed.

(** A label read off the front of the raw octets is lost to the foreign message. *)
Lemma label_consumed ft env raw b f :
  begins_with TLVSafetyLabel raw -> EncodeBridgePayload env None raw = Some b -> DecodeBridgeFrame ft b = Ok f ->
  blen (bf_Foreign f) < blen raw.
Proof.
  intros Hl He Hf. apply bridge_accepted in Hf as [[_ _ _ Hw] Hfe].
  apply payload_split in He as (ev & r & Hev & -> & ->). apply payload_split in Hfe as (ev' & r' & Hev' & Heq & Hr').
  cbn [bf_Envelope bf_Safety bf_Foreign] in *.
  pose proof (encodeEnvelope_short _ _ Hev) as Hs1. pose proof (encodeEnvelope_short _ _ Hev') as Hs2.
  assert (raw = r') as ->.
  { destruct (decode_front (mkTLV TLVBridgeEnvelope ev) raw) as (_ & D2 & _ & D4); [split; [done|cbn [TLVValue]; lia]|].
    destruct (decode_front (mkTLV TLVBridgeEnvelope ev') r') as (_ & E2 & _ & E4); [split; [done|cbn [TLVValue]; lia]|].
    rewrite <- Heq in E2, E4. cbn [TLVValue] in *. congruence. }
  destruct (bf_Safety f) as [lab|]; [|by subst].
  destruct Hr' as (sv & Hsv & ->). rewrite blen_app, blen_encode_tlv. pose proof (blen_nonneg (TLVValue (mkTLV TLVSafetyLabel sv))). lia.
Qed.

Lemma opaque_enumerated ft env m ct raw b :
  sendable ft env -> mediaTypeToContentType m = Some ct -> EncodeBridgePayload (with_content env ct) None raw = Some b ->
  decode_opaque ft b = Some (m, raw) <-> ~ misread raw.
Proof.
  intros Hs Hm He. destruct (media_types m ct Hm) as (Hback & Hu & Hne). unfold decode_opaque. split.
  - intros Hd Hmis. destruct (DecodeBridgeFrame ft b) as [f|] eqn:Hf; [|done].
    destruct (decodeOpaquePayload _ _) as [[mt rest]|] eqn:Ho; [|done]. injection Hd as -> ->.
    destruct (decide (begins_with TLVSafetyLabel raw)) as [Hl|Hl].
    + pose proof (label_consumed _ _ _ _ _ Hl He Hf). pose proof (opaque_shorter _ _ _ _ Ho). lia.
    + destruct Hmis as [|Hop]; [done|]. rewrite (carried ft _ raw b (sendable_content _ _ _ Hu Hs) Hl He) in Hf.
      injection Hf as <-. cbn [bf_Envelope bf_Foreign] in Ho. unfold decodeOpaquePayload in Ho.
      destruct (peekLeadingTLV raw opaqueContentTypeTLV) as [r|] eqn:Hp; [|done].
      destruct (peek_present _ _ _ Hop Hp) as (v & rest & -> & _). cbn [mbind result_bind with_content be_ContentType] in Ho.
      by rewrite (proj2 (Z.eqb_neq _ _)) in Ho.
  - intros Hn. rewrite (carried ft _ raw b (sendable_content _ _ _ Hu Hs)); [|by intros ?; apply Hn; left|done].
    cbn [bf_Envelope bf_Foreign]. unfold decodeOpaquePayload. rewrite peek_absent by (intros ?; apply Hn; by right).
    cbn [mbind result_bind with_content be_ContentType]. rewrite (proj2 (Z.eqb_neq _ _)) by done. by rewrite Hback.
Qed.

(** The payload with a media-type TLV is the Bridge encoding of the TLV and the raw octets. *)
Lemma opaque_payload env m raw e :
  EncodeBridgePayload env None [] = Some e ->
  EncodeBridgePayload env None (encode_tlv (mkTLV opaqueContentTypeTLV m) ++ raw) = Some (e ++ TLV_Encode (mkTLV opaqueContentTypeTLV m) [] ++ raw).
Proof.
  intros He. apply payload_split in He as (ev & r & Hev & -> & ->). apply payload_split. cbn [bf_Envelope bf_Safety bf_Foreign] in *.
  eexists _, _. split; [exact Hev|]. split; [|done]. by rewrite <- app_assoc.
Qed.

Lemma opaque_declared ft env m raw e :
  sendable ft env -> mediaTypeToContentType m = None -> m <> [] -> has_nul m = false -> validMediaTypeSyntax m = true ->
  EncodeBridgePayload (with_content env opaqueContentTypeDiscriminator) None [] = Some e ->
  decode_opaque ft (e ++ TLV_Encode (mkTLV opaqueContentTypeTLV m) [] ++ raw) = Some (m, raw) <-> blen m < 2 ^ 16.
Proof.
  intros Hs Hm Hne Hnul Hsyn He. apply (opaque_payload _ m raw) in He.
  pose proof (tlv_begins (mkTLV opaqueContentTypeTLV m) raw ltac:(done)) as Hb. cbn [TLVType] in Hb.
  unfold decode_opaque. rewrite (carried ft _ _ _ (sendable_content _ _ opaqueContentTypeDiscriminator ltac:(done) Hs)
    ltac:(intros Hl; discriminate (begins_unique _ _ _ Hl Hb)) He).
  cbn [bf_Envelope bf_Foreign]. unfold decodeOpaquePayload. cbn [with_content be_ContentType]. rewrite Z.eqb_refl. split.
  - destruct (peekLeadingTLV _ _) as [r|] eqn:Hp; [|done]. destruct (peek_present _ _ _ Hb Hp) as (v & rest & -> & Hlt).
    cbn [mbind result_bind]. case_match eqn:Hr; [|done]. inv_res Hr. subst. intros [= <- _]. exact Hlt.
  - intros Hlt. rewrite peek_tlv by done. cbn [mbind result_bind]. rewrite bool_decide_false by done. rewrite Hnul, Hsyn. done.
Qed.

(** An opaque message survives its carriage exactly when nothing in front of it can be
    misread: under one of the three enumerated media types the raw octets must not begin
    with a TLV header of the label or media-type kind, under any other media type only the
    length of the declaration matters (it must fit its 16-bit field).  Every payload the
    encoder produces is covered, so outside these cases the peer gets a refusal or other
    octets. *)
Theorem opaque_exact (ft : Z) (env : BridgeEnvelope) (m raw b : bytes) (Hs : sendable ft env)
    (He : encodeOpaquePayload env m raw = Some (Ok b)) :
  decode_opaque ft b = Some (m, raw) <->
  match mediaTypeToContentType m with Some _ => ~ misread raw | None => blen m < 2 ^ 16 end.
Proof.
  unfold encodeOpaquePayload in He. destruct (mediaTypeToContentType m) as [ct|] eqn:Hm.
  - destruct (EncodeBridgePayload _ _ _) as [b'|] eqn:He'; [|done]. injection He as ->. by eapply opaque_enumerated.
  - case_bool_decide as Hne; [done|]. destruct (has_nul m) eqn:Hnul; [done|].
    destruct (validMediaTypeSyntax m) eqn:Hsyn; [|done]. cbn [negb] in He.
    apply bind_Some in He as (e & He & [= <-]). by eapply opaque_declared.
Qed.

(** Envelopes of the opaque carriage under a private protocol id. *)
Definition sample_opaque : BridgeEnvelope := mkEnvelope 0x7001 BridgeKindRequest 0 0 (str "id") [].

Lemma opaque_exact_witness :
  sendable FrameBridgeRequest sample_opaque /\
  (exists b, encodeOpaquePayload sample_opaque (str "application/cbor") (hex "00120000") = Some (Ok b) /\
    decode_opaque FrameBridgeRequest b <> Some (str "application/cbor", hex "00120000")) /\
  (exists b, encodeOpaquePayload sample_opaque (str "application/octet-stream") (hex "00120000") = Some (Ok b) /\
    decode_opaque FrameBridgeRequest b = Some (str "application/octet-stream", hex "00120000")).
Proof.
  assert (sendable FrameBridgeRequest sample_opaque) as Hs by (repeat split; vm_compute; congruence).
  split; [done|]. split; (eexists; split; [by vm_compute|]).
  - rewrite (opaque_exact FrameBridgeRequest sample_opaque _ _ _ Hs) by (by vm_compute). intros H. apply H. right. split; [by vm_compute|reflexivity].
  - apply (opaque_exact FrameBridgeRequest sample_opaque _ _ _ Hs); by vm_compute.
Defined.
