(* ===== verification/RegistryMatch.v ===== *)
(** * The registry tables and the code agree

    The tables under registries/ and the constants and predicates of the Go package are
    written separately.  Loaded by the wire validator, the tables register exactly the
    channels, the system frames, the frames of every channel and the error codes the code
    defines, and its TLV types but for three. *)

From S2P Require Import Prelude Errors Registry Tlv Handshake ErrorFrame ChannelFrames BodySpec BodyFrames Bridge Relay WireValidator RegistryData CarriageStream.
From Stdlib Require Import Strings.Byte.
From stdpp Require Import gmap.
Open Scope Z_scope.

Definition repository_registries : Registries :=
  registries_of channels_csv frame_types_reserved_csv frame_types_channel_csv tlv_tags_csv error_codes_csv.

Lemma repository_load : Load repository_files = Ok repository_registries.
Proof. by vm_compute. Qed.

(** ** What the code defines *)

Definition companion_channel (ch : companion) : Z :=
  match ch with
  | StreamC => ChanStream | MemoryC => ChanMemory | CapabilityC => ChanCapability | ImmuneC => ChanImmune
  | SettlementC => ChanSettlement | TelemetryC => ChanTelemetry | CommerceC => ChanCommerce
  | InteractionC => ChanInteraction | WorkflowC => ChanWorkflow | KnowledgeC => ChanKnowledge
  end.

Definition companions : list companion :=
  [StreamC; MemoryC; CapabilityC; ImmuneC; SettlementC; TelemetryC; CommerceC; InteractionC; WorkflowC; KnowledgeC].

Definition control_frames : list Z :=
  [FrameClientHello; FrameServerHello; FrameServerAuth; FrameClientAuth; FrameMasterRatchet; FrameMasterRatchetAck; FrameReKEM; FrameReKEMAck].

(** The channel-specific frame types of the code. *)
Definition code_frame (c t : Z) : bool :=
  ((c =? ChanControl) && existsb (Z.eqb t) control_frames) || ((c =? ChanBridge) && IsBridgeFrame t) ||
  existsb (fun ch => (c =? companion_channel ch) && is_frame ch t) companions.

Definition system_frames : list Z :=
  [FramePing; FramePong; FrameClose; FrameCloseAck; FrameError; FrameKeyUpdate; FrameKeyUpdateAck; FramePathChallenge; FramePathResponse; FrameFlowUpdate].

(** The TLV types of tlv.go, bridge.go and the carriages. *)
Definition code_tlvs : list Z :=
  [TLVProfileOffer; TLVProfileSelect; TLVKEMOffer; TLVKEMSelect; TLVSigOffer; TLVSigSelect; TLVKEMShare; TLVKEMCiphertext;
   TLVIdentityKey; TLVCertVerify; TLVFinished; TLVAEADOffer; TLVAEADSelect; TLVBridgeEnvelope; TLVStreamControl; opaqueContentTypeTLV;
   TLVSafetyLabel; TLVKeyUpdateMarker; TLVProtectionMode; TLVRatchetGeneration].

(** The ones the registry does not assign: two reserved rows and one without a row. *)
Definition unassigned_tlvs : list Z := [TLVBridgeEnvelope; TLVStreamControl; TLVSafetyLabel].

(** ** Keys of a loaded table *)

Lemma last_wins_key {K} `{Countable K} (entry : csv_row -> option (K * bytes)) rows k :
  is_Some (last_wins entry rows !! k) <-> k ∈ (omap entry rows).*1.
Proof.
  unfold last_wins. rewrite <- elem_of_dom, dom_list_to_map, elem_of_list_to_set.
  by rewrite !list_elem_of_fmap; setoid_rewrite elem_of_reverse.
Qed.

(** ** Bounds of the code's frame types *)

Ltac bools := repeat match goal with
  | H : (_ || _) = true |- _ => apply orb_true_iff in H as [H|H]
  | H : (_ && _) = true |- _ => let H' := fresh in apply andb_true_iff in H as [H' H]
  | H : (if ?b then true else _) = true |- _ => let E := fresh in destruct b eqn:E; [clear H|]
  | H : (_ =? _) = true |- _ => apply Z.eqb_eq in H
  | H : (_ <=? _) = true |- _ => apply Z.leb_le in H
  | H : false = true |- _ => discriminate H
  end.

Lemma is_frame_bound ch t : is_frame ch t = true -> 0 <= t < 512.
Proof.
  intros H. destruct ch; cbn [is_frame] in H;
    unfold IsStreamFrame, IsMemoryFrame, IsCapabilityFrame, IsImmuneFrame, IsSettlementFrame, IsTelemetryFrame,
      IsCommerceFrame, IsInteractionFrame, IsWorkflowFrame, IsKnowledgeFrame in H; bools;
    repeat match goal with H : context [?c] |- _ => is_const c; lazymatch type of c with Z => unfold c in * end end; lia.
Qed.

Lemma in_list_bound (l : list Z) lo hi t :
  forallb (fun x => (lo <=? x) && (x <? hi)) l = true -> existsb (Z.eqb t) l = true -> lo <= t < hi.
Proof.
  rewrite forallb_forall, existsb_exists. intros Hl (x & Hx & He%Z.eqb_eq). subst x.
  apply Hl in Hx. apply andb_true_iff in Hx as [H1 H2]. apply Z.leb_le in H1. apply Z.ltb_lt in H2. lia.
Qed.

Lemma code_frame_bound c t : code_frame c t = true -> 0 <= c < 20 /\ 0 <= t < 512.
Proof.
  unfold code_frame. rewrite !orb_true_iff, !andb_true_iff, !Z.eqb_eq.
  intros [[[-> H]|[-> H]]|H]; [..|apply existsb_exists in H as (ch & _ & H)].
  - split; [done|]. by apply (in_list_bound control_frames).
  - split; [done|]. unfold IsBridgeFrame, FrameBridgeRequest, FrameBridgeStreamEnd in H. bools. lia.
  - apply andb_true_iff in H as [Hc H]. apply Z.eqb_eq in Hc. split; [|by eapply is_frame_bound]. subst c. by destruct ch.
Qed.

(** A list of pairs is the code's frame types when it has only them and all of them. *)
Lemma table_match (table : list (Z * Z)) c t :
  forallb (fun k => code_frame k.1 k.2) table = true ->
  forallb (fun c => forallb (fun t => if code_frame (Z.of_nat c) (Z.of_nat t)
    then existsb (fun k => (k.1 =? Z.of_nat c) && (k.2 =? Z.of_nat t)) table else true) (seq 0 512)) (seq 0 20) = true ->
  (c, t) ∈ table <-> code_frame c t = true.
Proof.
  intros Hsub Hsup. split.
  - intros Hin. rewrite forallb_forall in Hsub. apply list_elem_of_In in Hin. exact (Hsub (c, t) Hin).
  - intros Hc. destruct (code_frame_bound c t Hc) as [Hcb Htb].
    rewrite forallb_forall in Hsup. specialize (Hsup (Z.to_nat c)). rewrite in_seq in Hsup. specialize (Hsup ltac:(lia)).
    rewrite forallb_forall in Hsup. specialize (Hsup (Z.to_nat t)). rewrite in_seq in Hsup. specialize (Hsup ltac:(lia)).
    rewrite !Z2Nat.id, Hc in Hsup by lia. apply existsb_exists in Hsup as ([c' t'] & Hin & He).
    apply andb_true_iff in He as [H1 H2]. apply Z.eqb_eq in H1, H2. cbn [fst snd] in *. subst. by apply list_elem_of_In.
Qed.

Lemma chanFrames_of tc tr tf tt_ te : chanFrames (registries_of tc tr tf tt_ te) = last_wins chan_frame_entry (rows_of tf).
Proof. done. Qed.
Lemma systemFrames_of tc tr tf tt_ te :
  systemFrames (registries_of tc tr tf tt_ te) = last_wins (named_row (str "frame_type") 1 SystemFrameMax) (rows_of tr).
Proof. done. Qed.
Lemma tlvTags_of tc tr tf tt_ te : tlvTags (registries_of tc tr tf tt_ te) = last_wins (named_row (str "tag") 0 0xFFFF) (rows_of tt_).
Proof. done. Qed.

(** The pairs of frame_types_channel.csv. *)
Definition table_frames : list (Z * Z) :=
  Eval vm_compute in (omap chan_frame_entry (rows_of frame_types_channel_csv)).*1.

Lemma table_frames_eq : (omap chan_frame_entry (rows_of frame_types_channel_csv)).*1 = table_frames.
Proof. by vm_compute. Qed.

Lemma chan_frames_match c t : is_Some (chanFrames repository_registries !! (c, t)) <-> code_frame c t = true.
Proof.
  unfold repository_registries. rewrite chanFrames_of, last_wins_key, table_frames_eq.
  apply table_match; vm_compute; reflexivity.
Qed.

(** The keys of the small tables, read off. *)
Lemma keys_are {K} `{Countable K} (entry : csv_row -> option (K * bytes)) rows (l : list K) :
  (omap entry rows).*1 = l -> forall k, is_Some (last_wins entry rows !! k) <-> k ∈ l.
Proof. intros <- k. apply last_wins_key. Qed.

(** C38: the registry tables of the repository load, and what they register is what the code
    defines: the same channels under the same names, the ten system frames, on each channel
    exactly the frame types of its predicate (the handshake and ratchet frames on Control),
    the same error codes under the same names, and the TLV types of the code but for three
    the code defines and the registry does not assign: BridgeEnvelope and SafetyLabel
    (bridge.go), whose rows are reserved, and StreamControl (carriage_stream.go), which has
    no row. *)
Theorem registry_matches_code :
  exists reg, Load repository_files = Ok reg /\
    channels reg = channelNames /\
    (forall t, is_Some (systemFrames reg !! t) <-> t ∈ system_frames) /\
    (forall c t, is_Some (chanFrames reg !! (c, t)) <-> code_frame c t = true) /\
    (forall t, is_Some (tlvTags reg !! t) <-> t ∈ code_tlvs /\ t ∉ unassigned_tlvs) /\
    unassigned_tlvs ⊆ code_tlvs /\
    errorCodes reg = errCodeName.
Proof.
  exists repository_registries. split; [exact repository_load|]. split_and!.
  - by vm_compute.
  - intros t. unfold repository_registries. rewrite systemFrames_of. apply keys_are. by vm_compute.
  - exact chan_frames_match.
  - intros t. unfold repository_registries. rewrite tlvTags_of.
    rewrite (keys_are _ _ (base.filter (fun t => t ∉ unassigned_tlvs) code_tlvs)) by (by vm_compute).
    rewrite list_elem_of_filter. tauto.
  - intros t. unfold unassigned_tlvs, code_tlvs. rewrite !elem_of_cons. intuition.
  - by vm_compute.
Qed.

(** Every frame a channel's codec knows passes the validator on that channel. *)
Lemma code_frames_registered ch t :
  is_frame ch t = true -> SystemFrameMax < t -> registered repository_registries (companion_channel ch) t.
Proof.
  intros Hf Ht. unfold SystemFrameMax in *. split_and!; [lia| |unfold SystemFrameMax; lia|].
  - assert (forallb (fun ch => has (channels repository_registries) (companion_channel ch)) companions = true) as H by (by vm_compute).
    rewrite forallb_forall in H. specialize (H ch). unfold has in H. rewrite bool_decide_eq_true in H. apply H.
    destruct ch; cbn; tauto.
  - intros _. apply chan_frames_match. unfold code_frame. apply orb_true_iff. right. apply existsb_exists. exists ch.
    split; [destruct ch; cbn; tauto|]. by rewrite Z.eqb_refl, Hf.
Qed.
