(* ===== verification/Json.v ===== *)
(** * JSON as encoding/json reads and writes it

    What the proxy uses of Go's [encoding/json]: the scanner's grammar with its nesting
    bound, the octets of a value inside a document ([json.RawMessage]), unmarshalling into
    [map[string]json.RawMessage] and into a string, quoting a string with HTML escaping,
    compacting a raw message, and marshalling an object with sorted keys.  The scanner is a
    fixpoint on fuel; [scan_fuel] shows that the fuel used is enough. *)

From S2P Require Import Prelude Errors Cbor.
From Stdlib Require Import Strings.Byte.
From Stdlib Require Strings.String.
Open Scope Z_scope.

(** ** Octet classes *)

Definition oct (c d : byte) : bool := Byte.eqb c d.
#[global] Arguments oct : simpl never.

Definition is_ws (c : byte) : bool := oct c x20 || oct c x09 || oct c x0d || oct c x0a.

Definition is_digit (c : byte) : bool := (48 <=? b2z c) && (b2z c <=? 57).

Definition hex_value (c : byte) : option Z :=
  let z := b2z c in
  if (48 <=? z) && (z <=? 57) then Some (z - 48)
  else if (97 <=? z) && (z <=? 102) then Some (z - 87)
  else if (65 <=? z) && (z <=? 70) then Some (z - 55)
  else None.

Fixpoint skip_ws (b : bytes) : bytes :=
  match b with
  | c :: b' => if is_ws c then skip_ws b' else b
  | [] => []
  end.

Fixpoint skip_digits (b : bytes) : bytes :=
  match b with
  | c :: b' => if is_digit c then skip_digits b' else b
  | [] => []
  end.

(** ** Scanning

    Each scanner returns what follows the item it recognizes. *)

(** After an opening quote. *)
Fixpoint scan_string (b : bytes) : option bytes :=
  match b with
  | [] => None
  | c :: b =>
      if oct c x22 then Some b
      else if oct c x5c then
        match b with
        | [] => None
        | e :: b =>
            if existsb (oct e) [x62; x66; x6e; x72; x74; x5c; x2f; x22] then scan_string b
            else if oct e x75 then
              match b with
              | h1 :: h2 :: h3 :: h4 :: b =>
                  if forallb (fun h => if hex_value h then true else false) [h1; h2; h3; h4] then scan_string b else None
              | _ => None
              end
            else None
        end
      else if b2z c <? 32 then None
      else scan_string b
  end.

Definition scan_int (b : bytes) : option bytes :=
  match b with
  | [] => None
  | c :: b => if oct c x30 then Some b else if is_digit c then Some (skip_digits b) else None
  end.

(** One or more digits. *)
Definition scan_digits (b : bytes) : option bytes :=
  match b with
  | c :: b => if is_digit c then Some (skip_digits b) else None
  | [] => None
  end.

Definition scan_frac (b : bytes) : option bytes :=
  match b with
  | c :: b' => if oct c x2e then scan_digits b' else Some b
  | [] => Some []
  end.

Definition scan_exp (b : bytes) : option bytes :=
  match b with
  | c :: b' =>
      if oct c x65 || oct c x45 then
        scan_digits (match b' with s :: b'' => if oct s x2b || oct s x2d then b'' else b' | [] => [] end)
      else Some b
  | [] => Some []
  end.

Definition scan_number (b : bytes) : option bytes :=
  b ← scan_int (match b with c :: b' => if oct c x2d then b' else b | [] => [] end);
  b ← scan_frac b;
  scan_exp b.

Fixpoint strip (p b : bytes) : option bytes :=
  match p, b with
  | [], _ => Some b
  | x :: p, c :: b => if oct x c then strip p b else None
  | _ :: _, [] => None
  end.

Definition scan_literal (b : bytes) : option bytes :=
  match strip (str "true") b with
  | Some r => Some r
  | None => match strip (str "false") b with
            | Some r => Some r
            | None => strip (str "null") b
            end
  end.

Definition maxNestingDepth : Z := 10000.

(** What the scanner expects: a value, the elements of an array or the members of an
    object, after its opening bracket or a comma. *)
Inductive mode : Type := MValue | MElems | MMembers.

Fixpoint scan (fuel : nat) (depth : Z) (m : mode) (b : bytes) : option bytes :=
  match fuel with
  | O => None
  | S fuel =>
      match m with
      | MValue =>
          match skip_ws b with
          | [] => None
          | c :: b =>
              if oct c x7b then
                if maxNestingDepth <? depth + 1 then None
                else match skip_ws b with
                     | d :: b' => if oct d x7d then Some b' else scan fuel (depth + 1) MMembers b
                     | [] => None
                     end
              else if oct c x5b then
                if maxNestingDepth <? depth + 1 then None
                else match skip_ws b with
                     | d :: b' => if oct d x5d then Some b' else scan fuel (depth + 1) MElems b
                     | [] => None
                     end
              else if oct c x22 then scan_string b
              else if oct c x2d || is_digit c then scan_number (c :: b)
              else scan_literal (c :: b)
          end
      | MElems =>
          rest ← scan fuel depth MValue b;
          match skip_ws rest with
          | d :: b' => if oct d x2c then scan fuel depth MElems b' else if oct d x5d then Some b' else None
          | [] => None
          end
      | MMembers =>
          match skip_ws b with
          | q :: b =>
              if oct q x22 then
                b ← scan_string b;
                match skip_ws b with
                | colon :: b =>
                    if oct colon x3a then
                      rest ← scan fuel depth MValue b;
                      match skip_ws rest with
                      | d :: b' => if oct d x2c then scan fuel depth MMembers b' else if oct d x7d then Some b' else None
                      | [] => None
                      end
                    else None
                | [] => None
                end
              else None
          | [] => None
          end
      end
  end.

Definition weight (m : mode) (b : bytes) : nat := match m with MValue => 2 * length b + 1 | _ => 2 * length b + 2 end.

Definition scan_value (b : bytes) : option bytes := scan (weight MValue b) 0 MValue b.

(** [checkValid]: one value and white space around it. *)
Definition Valid (b : bytes) : bool :=
  match scan_value b with
  | Some rest => match skip_ws rest with [] => true | _ => false end
  | None => false
  end.

(** ** Text *)

Definition cont (c : byte) : bool := (128 <=? b2z c) && (b2z c <=? 191).

(** [utf8.DecodeRune]: the length of the valid sequence at the front, [None] when the front
    is not one. *)
Definition utf8_size (b : bytes) : option nat :=
  match b with
  | [] => None
  | c :: b =>
      let z := b2z c in
      let between lo hi d := (lo <=? b2z d) && (b2z d <=? hi) in
      if z <? 128 then Some 1%nat
      else if (194 <=? z) && (z <=? 223) then
        match b with d :: _ => if cont d then Some 2%nat else None | _ => None end
      else if (224 <=? z) && (z <=? 239) then
        match b with
        | d :: e :: _ =>
            if between (if z =? 224 then 160 else 128) (if z =? 237 then 159 else 191) d && cont e then Some 3%nat else None
        | _ => None
        end
      else if (240 <=? z) && (z <=? 244) then
        match b with
        | d :: e :: f :: _ =>
            if between (if z =? 240 then 144 else 128) (if z =? 244 then 143 else 191) d && cont e && cont f then Some 4%nat else None
        | _ => None
        end
      else None
  end.

Definition replacement : bytes := hex "efbfbd".

(** [utf8.EncodeRune]; surrogates and values out of range give the replacement. *)
Definition EncodeRune (r : Z) : bytes :=
  if r <? 128 then [z2b r]
  else if r <? 2048 then [z2b (192 + r / 64); z2b (128 + r mod 64)]
  else if (1114111 <? r) || ((55296 <=? r) && (r <=? 57343)) then replacement
  else if r <? 65536 then [z2b (224 + r / 4096); z2b (128 + r / 64 mod 64); z2b (128 + r mod 64)]
  else [z2b (240 + r / 262144); z2b (128 + r / 4096 mod 64); z2b (128 + r / 64 mod 64); z2b (128 + r mod 64)].

(** A [\uXXXX] escape at the front. *)
Definition getu4 (b : bytes) : option Z :=
  match b with
  | s :: u :: h1 :: h2 :: h3 :: h4 :: _ =>
      if oct s x5c && oct u x75 then
        a ← hex_value h1; b ← hex_value h2; c ← hex_value h3; d ← hex_value h4;
        Some (a * 4096 + b * 256 + c * 16 + d)
      else None
  | _ => None
  end.

Definition is_surrogate (r : Z) : bool := (55296 <=? r) && (r <? 57344).

(** [utf16.DecodeRune] of a pair. *)
Definition pair_rune (r1 r2 : Z) : option Z :=
  if (55296 <=? r1) && (r1 <? 56320) && (56320 <=? r2) && (r2 <? 57344)
  then Some ((r1 - 55296) * 1024 + (r2 - 56320) + 65536) else None.

Definition simple_escape (e : byte) : option byte :=
  if existsb (oct e) [x22; x5c; x2f] then Some e
  else if oct e x62 then Some x08
  else if oct e x66 then Some x0c
  else if oct e x6e then Some x0a
  else if oct e x72 then Some x0d
  else if oct e x74 then Some x09
  else None.

(** The octets of a string literal after its opening quote, up to the closing one. *)
Fixpoint unquote (fuel : nat) (b : bytes) : option bytes :=
  match fuel with
  | O => None
  | S fuel =>
      match b with
      | [] => None
      | c :: b' =>
          if oct c x22 then Some []
          else if oct c x5c then
            match b' with
            | [] => None
            | e :: b'' =>
                if oct e x75 then
                  rr ← getu4 b;
                  let rest := drop 6 b in
                  if is_surrogate rr then
                    match getu4 rest ≫= pair_rune rr with
                    | Some dec => app (EncodeRune dec) <$> unquote fuel (drop 6 rest)
                    | None => app replacement <$> unquote fuel rest
                    end
                  else app (EncodeRune rr) <$> unquote fuel rest
                else
                  x ← simple_escape e;
                  cons x <$> unquote fuel b''
            end
          else if b2z c <? 32 then None
          else match utf8_size b with
               | Some n => app (take n b) <$> unquote fuel (drop n b)
               | None => app replacement <$> unquote fuel b'
               end
      end
  end.

(** Unmarshalling a value into a string variable that holds [""]: [null] leaves it. *)
Definition unmarshal_string (raw : bytes) : option bytes :=
  if Valid raw then
    match skip_ws raw with
    | c :: b => if oct c x22 then unquote (length raw) b
                else if oct c x6e then Some []
                else None
    | [] => None
    end
  else None.

(** The members after an opening brace or a comma, with the octets of each value. *)
Fixpoint members (fuel : nat) (b : bytes) : option (list (bytes * bytes)) :=
  match fuel with
  | O => None
  | S fuel =>
      match skip_ws b with
      | _ :: b =>
          key ← unquote (length b) b;
          b ← scan_string b;
          match skip_ws b with
          | _ :: b =>
              let v := skip_ws b in
              rest ← scan_value v;
              let raw := take (length v - length rest) v in
              match skip_ws rest with
              | d :: b' => if oct d x2c then cons (key, raw) <$> members fuel b' else Some [(key, raw)]
              | [] => None
              end
          | [] => None
          end
      | [] => None
      end
  end.

(** [json.Unmarshal] into a nil [map[string]json.RawMessage]; [None] is an error.  [null]
    leaves the map nil. *)
Definition unmarshal_object (raw : bytes) : option (list (bytes * bytes)) :=
  if Valid raw then
    match skip_ws raw with
    | c :: b =>
        if oct c x7b then
          match skip_ws b with
          | d :: _ => if oct d x7d then Some [] else members (length b) b
          | [] => None
          end
        else if oct c x6e then Some []
        else None
    | [] => None
    end
  else None.

(** Reading the map: a repeated key keeps its last value. *)
Definition field (m : list (bytes * bytes)) (k : bytes) : option bytes :=
  snd <$> find (fun e => bool_decide (e.1 = k)) (rev m).

(** ** Marshalling *)

Definition hex_char (z : Z) : byte := nth (Z.to_nat z) (str "0123456789abcdef") x30.

Definition u_escape (r : Z) : bytes :=
  [x5c; x75; hex_char (r / 4096); hex_char (r / 256 mod 16); hex_char (r / 16 mod 16); hex_char (r mod 16)].

(** One octet below 128 inside a literal, with HTML escaping. *)
Definition quote_octet (c : byte) : bytes :=
  if oct c x22 || oct c x5c then [x5c; c]
  else if oct c x08 then str "\b"
  else if oct c x0c then str "\f"
  else if oct c x0a then str "\n"
  else if oct c x0d then str "\r"
  else if oct c x09 then str "\t"
  else if (b2z c <? 32) || existsb (oct c) [x3c; x3e; x26] then u_escape (b2z c)
  else [c].

(** The line separators U+2028 and U+2029. *)
Definition line_separator (s : bytes) : option Z :=
  match s with
  | [c; d; e] => if oct c xe2 && oct d x80 then
                   if oct e xa8 then Some 0x2028 else if oct e xa9 then Some 0x2029 else None
                 else None
  | _ => None
  end.

Fixpoint quote_body (fuel : nat) (s : bytes) : bytes :=
  match fuel with
  | O => []
  | S fuel =>
      match s with
      | [] => []
      | c :: s' =>
          if b2z c <? 128 then quote_octet c ++ quote_body fuel s'
          else match utf8_size s with
               | None => u_escape 0xfffd ++ quote_body fuel s'
               | Some n =>
                   match line_separator (take n s) with
                   | Some r => u_escape r
                   | None => take n s
                   end ++ quote_body fuel (drop n s)
               end
      end
  end.

(** [appendString] with [escapeHTML]. *)
Definition quote (s : bytes) : bytes := [x22] ++ quote_body (length s) s ++ [x22].

(** [appendCompact] with [escapeHTML] on a valid document. *)
Fixpoint compact_body (in_string : bool) (b : bytes) : bytes :=
  match b with
  | [] => []
  | c :: b' =>
      if existsb (oct c) [x3c; x3e; x26] then u_escape (b2z c) ++ compact_body in_string b'
      else match line_separator (take 3 b), b' with
           | Some r, _ :: _ :: b'' => u_escape r ++ compact_body in_string b''
           | _, _ =>
               if in_string then
                 if oct c x5c then
                   match b' with
                   | e :: b'' => c :: e :: compact_body true b''
                   | [] => [c]
                   end
                 else c :: compact_body (negb (oct c x22)) b'
               else if is_ws c then compact_body false b'
               else c :: compact_body (oct c x22) b'
           end
  end.

(** Marshalling a [json.RawMessage]: [None] when it is not a valid document. *)
Definition compact (raw : bytes) : option bytes := if Valid raw then Some (compact_body false raw) else None.

Fixpoint join (sep : bytes) (l : list bytes) : bytes :=
  match l with
  | [] => []
  | [x] => x
  | x :: l => x ++ sep ++ join sep l
  end.

(** Marshalling a [map[string]any] whose values marshal to the given octets. *)
Definition marshal_object (m : list (bytes * bytes)) : bytes :=
  [x7b] ++ join [x2c] (map (fun e => quote e.1 ++ [x3a] ++ e.2) (sort_entries fst m)) ++ [x7d].

(** JSON text with single for double quotes. *)
Definition json (s : String.string) : bytes := map (fun c => if oct c x27 then x22 else c) (str s).
#[global] Arguments json s%_string_scope.

Example json_example :
  let doc := json "{ 'a' : [1, -2.5e+3, {}], 'b\u0041':'x\n\ud83d\ude00' , 'a':null }" in
  option_map (fun m => (field m (str "a"), field m (str "bA"), field m (str "c"))) (unmarshal_object doc)
  = Some (Some (str "null"), Some (json "'x\n\ud83d\ude00'"), None) /\
  unmarshal_string (json " 'x\n\ud83d\ude00' ") = Some (str "x" ++ [x0a] ++ hex "f09f9880") /\
  map Valid [str "01"; str "1."; str "[1,]"; json "{'a':1,}"; str "nul"; str "-"; str "1e5 "; str "[[]]"; json "'\x'"]
  = [false; false; false; false; false; false; true; true; false] /\
  marshal_object [(str "m", quote (str "a<b")); (str "id", str "7")] = json "{'id':7,'m':'a\u003cb'}" /\
  compact (json "{ 'a b' : 'c \' d' }") = Some (json "{'a b':'c \' d'}").
Proof. by vm_compute. Qed.

(** ** Scanners consume input *)

Lemma oct_eq c d : oct c d = true <-> c = d.
Proof. unfold oct. apply Byte.byte_dec_lb || (split; [apply Byte.byte_dec_bl|apply Byte.byte_dec_lb]). Qed.

Lemma oct_refl c : oct c c = true.
Proof. by apply oct_eq. Qed.

Lemma skip_ws_length b : (length (skip_ws b) <= length b)%nat.
Proof. induction b as [|c b IH]; [done|]. cbn. destruct (is_ws c); cbn; lia. Qed.

Lemma skip_digits_length b : (length (skip_digits b) <= length b)%nat.
Proof. induction b as [|c b IH]; [done|]. cbn. destruct (is_digit c); cbn; lia. Qed.

(** [scan_string] by the size of what it reads. *)
Lemma scan_string_shorter b r : scan_string b = Some r -> (length r < length b)%nat.
Proof.
  induction b as [b IH] using (induction_ltof1 _ (@length byte)). unfold ltof in IH.
  destruct b as [|c b]; [done|]. cbn [scan_string]. destruct (oct c x22); [intros [= ->]; cbn; lia|].
  destruct (oct c x5c).
  - destruct b as [|e b]; [done|]. destruct (existsb _ _).
    + intros H%IH; cbn in *; lia.
    + destruct (oct e x75); [|done]. destruct b as [|h1 [|h2 [|h3 [|h4 b]]]]; try done.
      destruct (forallb _ _); [|done]. intros H%IH; cbn in *; lia.
  - destruct (b2z c <? 32); [done|]. intros H%IH; cbn in *; lia.
Qed.

Lemma scan_digits_shorter b r : scan_digits b = Some r -> (length r < length b)%nat.
Proof. destruct b as [|c b]; [done|]. cbn. destruct (is_digit c); [|done]. intros [= <-]. pose proof (skip_digits_length b). lia. Qed.

Lemma scan_number_shorter b r : scan_number b = Some r -> (length r < length b)%nat.
Proof.
  unfold scan_number. rewrite bind_Some. intros (b1 & H1 & H). rewrite bind_Some in H. destruct H as (b2 & H2 & H3).
  assert (length b1 < length b)%nat.
  { destruct b as [|c b]; [done|]. destruct (oct c x2d).
    - destruct b as [|d b]; [done|]. cbn in H1. pose proof (skip_digits_length b).
      destruct (oct d x30); [by injection H1 as <-; cbn; lia|]. destruct (is_digit d); [|done]. injection H1 as <-. cbn. lia.
    - cbn in H1. pose proof (skip_digits_length b).
      destruct (oct c x30); [by injection H1 as <-; cbn; lia|]. destruct (is_digit c); [|done]. injection H1 as <-. cbn. lia. }
  assert (length b2 <= length b1)%nat.
  { destruct b1 as [|c b1]; [by injection H2 as <-|]. cbn in H2. destruct (oct c x2e); [|by injection H2 as <-].
    apply scan_digits_shorter in H2. cbn. lia. }
  assert (length r <= length b2)%nat.
  { destruct b2 as [|c b2]; [by injection H3 as <-|]. cbn in H3. destruct (oct c x65 || oct c x45); [|by injection H3 as <-].
    apply scan_digits_shorter in H3. destruct b2 as [|e b2]; [cbn in *; lia|]. destruct (oct e x2b || oct e x2d); cbn in *; lia. }
  lia.
Qed.

Lemma strip_shorter p b r : strip p b = Some r -> length b = (length p + length r)%nat.
Proof.
  revert b. induction p as [|x p IH]; intros [|c b]; cbn; try (by intros [= <-]).
  destruct (oct x c); [|done]. intros H%IH. lia.
Qed.

Lemma scan_literal_shorter b r : scan_literal b = Some r -> (length r < length b)%nat.
Proof.
  unfold scan_literal. destruct (strip (str "true") b) eqn:E1; [intros [= <-]; apply strip_shorter in E1; cbn in E1; lia|].
  destruct (strip (str "false") b) eqn:E2; [intros [= <-]; apply strip_shorter in E2; cbn in E2; lia|].
  intros E3. apply strip_shorter in E3. cbn in E3. lia.
Qed.

Lemma scan_shorter f d m b r : scan f d m b = Some r -> (length r < length b)%nat.
Proof.
  revert d m b r. induction f as [|f IH]; intros d m b r; [done|]. pose proof (skip_ws_length b) as Hw. destruct m; cbn [scan].
  - destruct (skip_ws b) as [|c b1] eqn:Hb; [done|]. cbn [length] in Hw. pose proof (skip_ws_length b1).
    destruct (oct c x7b); [|destruct (oct c x5b)].
    1,2: destruct (_ <? _); [done|]; destruct (skip_ws b1) as [|e b2]; [done|];
      destruct (oct e _); [intros [= <-]; cbn [length] in *; lia|]; intros Hs%IH; lia.
    destruct (oct c x22); [intros Hs%scan_string_shorter; lia|].
    destruct (oct c x2d || is_digit c); [intros Hs%scan_number_shorter|intros Hs%scan_literal_shorter]; cbn [length] in *; lia.
  - rewrite bind_Some. intros (rest & Hv & H). apply IH in Hv. pose proof (skip_ws_length rest).
    destruct (skip_ws rest) as [|e b1]; [done|]. cbn [length] in *.
    destruct (oct e x2c); [apply IH in H; lia|]. destruct (oct e x5d); [|done]. injection H as <-. lia.
  - destruct (skip_ws b) as [|q b1]; [done|]. cbn [length] in Hw. destruct (oct q x22); [|done].
    rewrite bind_Some. intros (b2 & Hs & H). apply scan_string_shorter in Hs. pose proof (skip_ws_length b2).
    destruct (skip_ws b2) as [|co b3]; [done|]. cbn [length] in *. destruct (oct co x3a); [|done].
    apply bind_Some in H as (rest & Hv & H). apply IH in Hv. pose proof (skip_ws_length rest).
    destruct (skip_ws rest) as [|e b4]; [done|]. cbn [length] in *.
    destruct (oct e x2c); [apply IH in H; lia|]. destruct (oct e x7d); [|done]. injection H as <-. lia.
Qed.

(** ** What follows an item does not change it *)

(** Octets that do not continue a number. *)
Definition numstop (t : bytes) : bool :=
  match t with
  | [] => true
  | c :: _ => negb (is_digit c || existsb (oct c) [x2e; x65; x45; x2b; x2d])
  end.

Lemma skip_ws_app b c b' t : skip_ws b = c :: b' -> skip_ws (b ++ t) = c :: b' ++ t.
Proof. induction b as [|x b IH]; [done|]. cbn. destruct (is_ws x); [done|]. by intros [= -> ->]. Qed.

Lemma skip_digits_app b t : numstop t = true -> skip_digits (b ++ t) = skip_digits b ++ t.
Proof.
  intros Ht. induction b as [|x b IH]; cbn [app skip_digits]; [|by destruct (is_digit x)].
  destruct t as [|c t]; [done|]. cbn in Ht |- *. by destruct (is_digit c).
Qed.

Lemma scan_string_app b r t : scan_string b = Some r -> scan_string (b ++ t) = Some (r ++ t).
Proof.
  induction b as [b IH] using (induction_ltof1 _ (@length byte)). unfold ltof in IH.
  destruct b as [|c b]; [done|]. cbn [app scan_string]. destruct (oct c x22); [by intros [= ->]|].
  destruct (oct c x5c).
  - destruct b as [|e b]; [done|]. cbn [app]. destruct (existsb _ _); [apply IH; cbn; lia|].
    destruct (oct e x75); [|done]. destruct b as [|h1 [|h2 [|h3 [|h4 b]]]]; try done. cbn [app].
    destruct (forallb _ _); [|done]. apply IH; cbn; lia.
  - destruct (b2z c <? 32); [done|]. apply IH; cbn; lia.
Qed.

Lemma scan_digits_app b r t : numstop t = true -> scan_digits b = Some r -> scan_digits (b ++ t) = Some (r ++ t).
Proof.
  intros Ht. destruct b as [|c b]; [done|]. cbn. destruct (is_digit c); [|done]. intros [= <-]. by rewrite skip_digits_app.
Qed.

Lemma scan_int_app b r t : numstop t = true -> scan_int b = Some r -> scan_int (b ++ t) = Some (r ++ t).
Proof.
  intros Ht. destruct b as [|c b]; [done|]. cbn. destruct (oct c x30); [by intros [= <-]|].
  destruct (is_digit c); [|done]. intros [= <-]. by rewrite skip_digits_app.
Qed.

Lemma numstop_head c t : numstop (c :: t) = true ->
  is_digit c = false /\ oct c x2e = false /\ oct c x65 = false /\ oct c x45 = false /\ oct c x2b = false /\ oct c x2d = false.
Proof. cbn. rewrite negb_true_iff, !orb_false_iff. tauto. Qed.

Lemma scan_frac_app b r t : numstop t = true -> scan_frac b = Some r -> scan_frac (b ++ t) = Some (r ++ t).
Proof.
  intros Ht. destruct b as [|c b]; cbn [app scan_frac].
  - intros [= <-]. destruct t as [|c t]; [done|]. apply numstop_head in Ht as (_ & H & _). cbn. by rewrite H.
  - destruct (oct c x2e); [by apply scan_digits_app|by intros [= <-]].
Qed.

Lemma scan_exp_app b r t : numstop t = true -> scan_exp b = Some r -> scan_exp (b ++ t) = Some (r ++ t).
Proof.
  intros Ht. destruct b as [|c b]; cbn [app scan_exp].
  - intros [= <-]. destruct t as [|c t]; [done|]. apply numstop_head in Ht as (_ & _ & H1 & H2 & _). cbn. by rewrite H1, H2.
  - destruct (oct c x65 || oct c x45); [|by intros [= <-]]. destruct b as [|s b]; [done|]. cbn [app].
    destruct (oct s x2b || oct s x2d); [by apply scan_digits_app|]. intros H. by apply (scan_digits_app (s :: b)).
Qed.

Lemma scan_number_app b r t : numstop t = true -> scan_number b = Some r -> scan_number (b ++ t) = Some (r ++ t).
Proof.
  intros Ht. unfold scan_number. rewrite bind_Some. intros (b1 & H1 & H). apply bind_Some in H as (b2 & H2 & H3).
  destruct b as [|c b]; [done|]. cbn [app].
  assert (scan_int (if oct c x2d then b ++ t else c :: b ++ t) = Some (b1 ++ t)) as ->.
  { destruct (oct c x2d); [by apply scan_int_app|]. by apply (scan_int_app (c :: b)). }
  cbn [mbind option_bind]. rewrite (scan_frac_app b1 b2 t Ht H2). cbn [mbind option_bind]. by apply scan_exp_app.
Qed.

Lemma strip_app p b r t : strip p b = Some r -> strip p (b ++ t) = Some (r ++ t).
Proof.
  revert b. induction p as [|x p IH]; intros [|c b]; cbn; try (by intros [= <-]).
  destruct (oct x c); [|done]. apply IH.
Qed.

Lemma strip_head x p b r : strip (x :: p) b = Some r -> exists b', b = x :: b'.
Proof.
  destruct b as [|c b]; [done|]. cbn [strip]. destruct (oct x c) eqn:E; [|done]. apply oct_eq in E as <-. eauto.
Qed.

(** The three literals differ in their first octet. *)
Lemma scan_literal_app b r t : scan_literal b = Some r -> scan_literal (b ++ t) = Some (r ++ t).
Proof.
  unfold scan_literal. destruct (strip (str "true") b) as [r1|] eqn:E1; [intros [= <-]; by rewrite (strip_app _ _ _ t E1)|].
  destruct (strip (str "false") b) as [r2|] eqn:E2; intros H.
  - injection H as <-. rewrite (strip_app _ _ _ t E2). by apply strip_head in E2 as (b' & ->).
  - rewrite (strip_app _ _ _ t H). by apply strip_head in H as (b' & ->).
Qed.

(** A successful scan succeeds with more fuel, at a smaller depth and before any octets
    that do not continue a number. *)
Lemma scan_transfer f d m b r f' d' t :
  numstop t = true -> d' <= d -> (weight m (b ++ t) <= f')%nat ->
  scan f d m b = Some r -> scan f' d' m (b ++ t) = Some (r ++ t).
Proof.
  intros Ht. revert d m b r f' d'. induction f as [|f IH]; intros d m b r f' d' Hd Hw; [done|].
  destruct f' as [|f']; [exfalso; unfold weight in Hw; destruct m; lia|]. pose proof (skip_ws_length b) as Hl.
  unfold weight in Hw. rewrite length_app in Hw. destruct m; cbn [scan].
  - destruct (skip_ws b) as [|c b1] eqn:Hb; [done|]. rewrite (skip_ws_app _ _ _ t Hb). cbn [length] in Hl.
    destruct (oct c x7b); [|destruct (oct c x5b)].
    1,2: destruct (Z.ltb_spec maxNestingDepth (d + 1)); [done|]; rewrite (proj2 (Z.ltb_ge _ _)) by lia;
      destruct (skip_ws b1) as [|e b2] eqn:Hb1; [done|]; rewrite (skip_ws_app _ _ _ t Hb1);
      destruct (oct e _); [by intros [= <-]|]; apply IH; [lia|]; unfold weight; rewrite length_app; lia.
    destruct (oct c x22); [apply scan_string_app|].
    destruct (oct c x2d || is_digit c); [by apply (scan_number_app (c :: b1))|apply (scan_literal_app (c :: b1))].
  - rewrite bind_Some. intros (rest & Hv & H). pose proof (scan_shorter _ _ _ _ _ Hv) as Hs.
    rewrite (IH d MValue b rest f' d' Hd ltac:(unfold weight; rewrite length_app; lia) Hv). cbn [mbind option_bind].
    pose proof (skip_ws_length rest). destruct (skip_ws rest) as [|e b1] eqn:Hr; [done|]. rewrite (skip_ws_app _ _ _ t Hr). cbn [length] in *.
    destruct (oct e x2c); [|destruct (oct e x5d); [by injection H as <-|done]].
    revert H. apply IH; [done|]. unfold weight. rewrite length_app. lia.
  - destruct (skip_ws b) as [|q b1] eqn:Hb; [done|]. rewrite (skip_ws_app _ _ _ t Hb). cbn [length] in Hl.
    destruct (oct q x22); [|done]. rewrite bind_Some. intros (b2 & Hs & H). rewrite (scan_string_app _ _ t Hs). cbn [mbind option_bind].
    apply scan_string_shorter in Hs. pose proof (skip_ws_length b2). destruct (skip_ws b2) as [|co b3] eqn:Hb2; [done|].
    rewrite (skip_ws_app _ _ _ t Hb2). cbn [length] in *. destruct (oct co x3a); [|done].
    apply bind_Some in H as (rest & Hv & H). pose proof (scan_shorter _ _ _ _ _ Hv) as Hs'.
    rewrite (IH d MValue b3 rest f' d' Hd ltac:(unfold weight; rewrite length_app; lia) Hv). cbn [mbind option_bind].
    pose proof (skip_ws_length rest). destruct (skip_ws rest) as [|e b4] eqn:Hr; [done|]. rewrite (skip_ws_app _ _ _ t Hr). cbn [length] in *.
    destruct (oct e x2c); [|destruct (oct e x7d); [by injection H as <-|done]].
    revert H. apply IH; [done|]. unfold weight. rewrite length_app. lia.
Qed.

(** The fuel of [scan_value] is enough: whatever any fuel recognizes, it recognizes. *)
Lemma scan_fuel f b r : scan f 0 MValue b = Some r -> scan_value b = Some r.
Proof.
  intros H. unfold scan_value. rewrite <- (app_nil_r b) at 2. rewrite <- (app_nil_r r).
  by apply (scan_transfer f 0); [|lia|rewrite app_nil_r|].
Qed.

(** ** Quoting and unquoting *)

(** Text made of valid UTF-8 sequences. *)
Inductive utf8 : bytes -> Prop :=
| utf8_nil : utf8 []
| utf8_char c s : utf8_size (c ++ s) = Some (length c) -> utf8 s -> utf8 (c ++ s).

Fixpoint valid_utf8 (fuel : nat) (s : bytes) : bool :=
  match fuel, s with
  | _, [] => true
  | O, _ => false
  | S fuel, _ => match utf8_size s with Some n => valid_utf8 fuel (drop n s) | None => false end
  end.

(** The shapes of a sequence. *)
Lemma utf8_size_shape c s n :
  utf8_size (c :: s) = Some n ->
  (n = 1%nat /\ b2z c < 128) \/
  (128 <= b2z c /\ exists d t, s = d :: t /\ cont d = true /\ n = 2%nat) \/
  (128 <= b2z c /\ exists d e t, s = d :: e :: t /\ cont d = true /\ cont e = true /\ n = 3%nat) \/
  (128 <= b2z c /\ exists d e f t, s = d :: e :: f :: t /\ cont d = true /\ cont e = true /\ cont f = true /\ n = 4%nat).
Proof.
  unfold utf8_size. destruct (Z.ltb_spec (b2z c) 128) as [Hc|Hc]; [intros [= <-]; by left|]. intros Hu. right.
  assert (forall lo hi d, 128 <= lo -> hi <= 191 -> (lo <=? b2z d) && (b2z d <=? hi) = true -> cont d = true) as Hcont.
  { intros lo hi d Hlo Hhi Hb. unfold cont. bprop. rewrite andb_true_iff, !Z.leb_le. lia. }
  destruct ((194 <=? b2z c) && (b2z c <=? 223)).
  { destruct s as [|d t]; [done|]. destruct (cont d) eqn:Hd; [|done]. injection Hu as <-. left. split; [done|]. by exists d, t. }
  destruct ((224 <=? b2z c) && (b2z c <=? 239)).
  { destruct s as [|d [|e t]]; try done. destruct (_ && cont e) eqn:H; [|done]. injection Hu as <-. right; left.
    apply andb_true_iff in H as [H1 H2]. split; [done|]. exists d, e, t. split_and!; try done.
    revert H1. destruct (b2z c =? 224), (b2z c =? 237); apply Hcont; lia. }
  destruct ((240 <=? b2z c) && (b2z c <=? 244)); [|done].
  destruct s as [|d [|e [|f t]]]; try done. destruct (_ && cont f) eqn:H; [|done]. injection Hu as <-. right; right.
  apply andb_true_iff in H as [H1 H3]. apply andb_true_iff in H1 as [H1 H2]. split; [done|]. exists d, e, f, t. split_and!; try done.
  revert H1. destruct (b2z c =? 240), (b2z c =? 244); apply Hcont; lia.
Qed.

Lemma utf8_size_take s n : utf8_size s = Some n -> (1 <= n <= length s)%nat.
Proof.
  destruct s as [|c s]; [done|]. intros H. apply utf8_size_shape in H.
  destruct H as [[-> _]|[(_ & d & t & -> & _ & ->)|[(_ & d & e & t & -> & _ & _ & ->)|(_ & d & e & f & t & -> & _ & _ & _ & ->)]]]; cbn; lia.
Qed.

(** A sequence is recognized before any octets. *)
Lemma utf8_size_prefix s n t : utf8_size s = Some n -> utf8_size (take n s ++ t) = Some n.
Proof.
  destruct s as [|c s]; [done|]. intros H. pose proof (utf8_size_shape _ _ _ H) as Hs. revert H.
  destruct Hs as [[-> Hc]|[(_ & d & u & -> & _ & ->)|[(_ & d & e & u & -> & _ & _ & ->)|(_ & d & e & f & u & -> & _ & _ & _ & ->)]]];
    cbn [take app utf8_size]; [by rewrite (proj2 (Z.ltb_lt _ _) Hc)|..];
    (destruct (b2z c <? 128); [done|]); (destruct ((194 <=? b2z c) && _); [done|]);
    (destruct ((224 <=? b2z c) && _); [by repeat case_match|]); (destruct ((240 <=? b2z c) && _); [by repeat case_match|done]).
Qed.

Lemma valid_utf8_sound f s : valid_utf8 f s = true -> utf8 s.
Proof.
  revert s. induction f as [|f IH]; intros [|c s]; cbn [valid_utf8]; try done; [intros _; constructor..|].
  destruct (utf8_size (c :: s)) as [n|] eqn:H; [|done]. intros Hv%IH. pose proof (utf8_size_take _ _ H).
  rewrite <- (take_drop n (c :: s)). constructor; [|done]. rewrite take_drop, length_take, Nat.min_l by lia. done.
Qed.

Lemma high_scan c b : 128 <= b2z c -> scan_string (c :: b) = scan_string b.
Proof.
  intros Hc. cbn [scan_string]. destruct (oct c x22) eqn:E1; [apply oct_eq in E1 as ->; by vm_compute in Hc|].
  destruct (oct c x5c) eqn:E2; [apply oct_eq in E2 as ->; by vm_compute in Hc|]. by rewrite (proj2 (Z.ltb_ge _ _)) by lia.
Qed.

Lemma cont_high c : cont c = true -> 128 <= b2z c.
Proof. unfold cont. intros H. bprop. lia. Qed.

(** The escapes of one octet, by trying them all. *)
Lemma quote_octet_scan c b : b2z c < 128 -> scan_string (quote_octet c ++ b) = scan_string b.
Proof. intros Hc. destruct c; try reflexivity; by vm_compute in Hc. Qed.

Lemma quote_octet_unquote c b g :
  b2z c < 128 -> unquote (S g) (quote_octet c ++ b) = cons c <$> unquote g b.
Proof. intros Hc. destruct c; try reflexivity; by vm_compute in Hc. Qed.

Lemma separator_cases s r : line_separator s = Some r ->
  (r = 0x2028 /\ s = [xe2; x80; xa8]) \/ (r = 0x2029 /\ s = [xe2; x80; xa9]).
Proof.
  unfold line_separator. destruct s as [|c [|d [|e [|? ?]]]]; try done.
  destruct (oct c xe2) eqn:E1; [|done]. destruct (oct d x80) eqn:E2; [|done]. cbn [andb].
  apply oct_eq in E1 as ->. apply oct_eq in E2 as ->.
  destruct (oct e xa8) eqn:E3; [apply oct_eq in E3 as ->; intros [= <-]; by left|].
  destruct (oct e xa9) eqn:E4; [apply oct_eq in E4 as ->; intros [= <-]; by right|done].
Qed.

(** The image of one sequence of two octets or more. *)
Definition quote_seq (c : bytes) : bytes := match line_separator c with Some r => u_escape r | None => c end.

Lemma quote_seq_scan s n b : utf8_size s = Some n -> 128 <= at_ s 0 -> scan_string (quote_seq (take n s) ++ b) = scan_string b.
Proof.
  intros H Hc. unfold quote_seq. destruct (line_separator (take n s)) as [r|] eqn:Hl.
  { destruct (separator_cases _ _ Hl) as [[-> _]|[-> _]]; reflexivity. }
  destruct s as [|c s]; [done|]. unfold at_ in Hc. cbn [nth] in Hc.
  destruct (utf8_size_shape _ _ _ H) as [[-> Hlt]|[(_ & d & u & -> & Hd & ->)|[(_ & d & e & u & -> & Hd & He & ->)|(_ & d & e & f & u & -> & Hd & He & Hf & ->)]]];
    [lia|..]; cbn [take app]; rewrite !high_scan by (done || by apply cont_high); done.
Qed.

Lemma quote_seq_unquote s n b g :
  utf8_size s = Some n -> 128 <= at_ s 0 -> unquote (S g) (quote_seq (take n s) ++ b) = app (take n s) <$> unquote g b.
Proof.
  intros H Hc. unfold quote_seq. destruct (line_separator (take n s)) as [r|] eqn:Hl.
  { destruct (separator_cases _ _ Hl) as [[-> ->]|[-> ->]]; reflexivity. }
  pose proof (utf8_size_prefix s n b H) as Hp. pose proof (utf8_size_take _ _ H) as Hn.
  destruct s as [|c s]; [done|]. unfold at_ in Hc. cbn [nth] in Hc. destruct n as [|n]; [lia|]. cbn [take app] in *. cbn [unquote].
  destruct (oct c x22) eqn:E1; [apply oct_eq in E1 as ->; by vm_compute in Hc|].
  destruct (oct c x5c) eqn:E2; [apply oct_eq in E2 as ->; by vm_compute in Hc|]. rewrite (proj2 (Z.ltb_ge _ _)) by lia.
  rewrite Hp. cbn [take drop]. cbn [length] in Hn.
  rewrite take_app_length' by (rewrite length_take; lia). by rewrite drop_app_length' by (rewrite length_take; lia).
Qed.

Lemma quote_body_step c s f :
  utf8_size (c ++ s) = Some (length c) ->
  quote_body (S f) (c ++ s) = (match c with [x] => quote_octet x | _ => quote_seq c end) ++ quote_body f s /\
  (match c with [x] => b2z x < 128 | _ => 128 <= at_ (c ++ s) 0 end).
Proof.
  intros H. destruct c as [|x c]; [apply utf8_size_take in H; cbn in H; lia|]. cbn [app] in *. cbn [quote_body].
  assert (take (length (x :: c)) (x :: c ++ s) = x :: c) as Ht by (cbn; by rewrite take_app_length).
  assert (drop (length (x :: c)) (x :: c ++ s) = s) as Hd by (cbn; by rewrite drop_app_length).
  destruct (utf8_size_shape _ _ _ H) as [[Hl Hlt]|Hr].
  - destruct c; [|done]. rewrite (proj2 (Z.ltb_lt _ _)) by lia. done.
  - assert (128 <= b2z x /\ (2 <= length (x :: c))%nat) as [Hx Hl].
    { destruct Hr as [(? & d & u & _ & _ & ->)|[(? & d & e & u & _ & _ & _ & ->)|(? & d & e & f' & u & _ & _ & _ & _ & ->)]]; (split; [done|lia]). }
    rewrite (proj2 (Z.ltb_ge _ _)) by lia. rewrite H, Ht, Hd. destruct c as [|y c]; [cbn in Hl; lia|]. by unfold at_.
Qed.

Lemma quoted_string s f rest :
  utf8 s -> (length s <= f)%nat ->
  scan_string (quote_body f s ++ x22 :: rest) = Some rest /\
  forall g, (length (quote_body f s) < g)%nat -> unquote g (quote_body f s ++ x22 :: rest) = Some s.
Proof.
  intros Hs. revert f. induction Hs as [|c s Hc Hs IH]; intros f Hf.
  { destruct f; cbn; (split; [done|]); intros [|g] Hg; try done; cbn in Hg; lia. }
  pose proof (utf8_size_take _ _ Hc) as Hn. rewrite length_app in Hf, Hn. destruct f as [|f]; [lia|].
  destruct (quote_body_step c s f Hc) as [-> Hx]. destruct (IH f ltac:(lia)) as [IH1 IH2].
  assert (take (length c) (c ++ s) = c) as Ht by apply take_app_length.
  rewrite <- app_assoc. destruct c as [|x [|y c]]; [cbn in Hn; lia|..].
  - rewrite quote_octet_scan by done. split; [done|]. intros [|g] Hg; [lia|]. rewrite quote_octet_unquote by done.
    rewrite length_app in Hg. rewrite IH2; [done|]. enough (1 <= length (quote_octet x))%nat by lia. destruct x; apply Nat.leb_le; reflexivity.
  - rewrite <- Ht at 1. rewrite (quote_seq_scan _ _ _ Hc Hx). split; [done|]. intros [|g] Hg; [lia|].
    rewrite <- Ht at 1. rewrite (quote_seq_unquote _ _ _ _ Hc Hx), Ht. rewrite length_app in Hg. rewrite IH2; [done|].
    enough (1 <= length (quote_seq (x :: y :: c)))%nat by lia. unfold quote_seq. destruct (line_separator _); cbn; lia.
Qed.

(** ** Marshalled objects read back *)

(** One value with nothing around it, inside [d] brackets. *)
Definition document_at (d : Z) (v : bytes) : Prop :=
  match v with c :: _ => is_ws c = false | [] => False end /\ scan (weight MValue v) d MValue v = Some [].

(** A member of an object: what [json.Marshal] produces for it, and what a
    [json.RawMessage] member holds. *)
Abbreviation document := (document_at 1).

Lemma document_scan d v t d' f :
  document_at d v -> numstop t = true -> d' <= d -> (weight MValue (v ++ t) <= f)%nat -> scan f d' MValue (v ++ t) = Some t.
Proof. intros [_ Hv] Ht Hd Hf. by apply (scan_transfer (weight MValue v) d MValue v [] f d' t). Qed.

Lemma document_front d v t : document_at d v -> skip_ws (v ++ t) = v ++ t.
Proof. intros [Hw _]. destruct v as [|c v]; [done|]. cbn. by rewrite Hw. Qed.

Lemma quote_document d s : utf8 s -> document_at d (quote s).
Proof.
  intros Hs. split; [done|]. unfold quote. cbn [app]. unfold weight. rewrite Nat.add_comm. cbn [Nat.add scan].
  change (skip_ws (x22 :: ?b)) with (x22 :: b). cbv iota.
  change (oct x22 x7b) with false. change (oct x22 x5b) with false. change (oct x22 x22) with true.
  cbv iota. by destruct (quoted_string s (length s) [] Hs ltac:(lia)) as [-> _].
Qed.

(** The members of an object and its closing brace. *)
Fixpoint member_text (l : list (bytes * bytes)) (rest : bytes) : bytes :=
  match l with
  | [] => x7d :: rest
  | [(k, v)] => quote k ++ [x3a] ++ v ++ x7d :: rest
  | (k, v) :: l => quote k ++ [x3a] ++ v ++ x2c :: member_text l rest
  end.

Lemma join_members l rest :
  join [x2c] (map (fun e => quote e.1 ++ [x3a] ++ e.2) l) ++ x7d :: rest = member_text l rest.
Proof.
  induction l as [|[k v] l IH]; [done|]. destruct l as [|[k2 v2] l].
  - cbn [map join fst snd member_text]. by rewrite <- !app_assoc.
  - cbn [map fst snd] in IH |- *. cbn [join] in IH |- *. cbn [member_text] in IH |- *. rewrite <- IH, <- !app_assoc. done.
Qed.

(** What follows a member: the brace, or a comma and the members left. *)
Definition after_member (l : list (bytes * bytes)) (rest : bytes) : bytes :=
  match l with [] => x7d :: rest | _ => x2c :: member_text l rest end.

Lemma member_text_cons k v l rest :
  member_text ((k, v) :: l) rest = x22 :: quote_body (length k) k ++ x22 :: x3a :: v ++ after_member l rest.
Proof.
  assert (forall t, quote k ++ [x3a] ++ v ++ t = x22 :: quote_body (length k) k ++ x22 :: x3a :: v ++ t) as Hq
    by (intros t; unfold quote; cbn [app]; by rewrite <- app_assoc).
  destruct l as [|[k2 v2] l]; apply Hq.
Qed.

Definition members_at (d : Z) (l : list (bytes * bytes)) : Prop := Forall (fun e => utf8 e.1 /\ document_at d e.2) l.
Abbreviation members_ok := (members_at 1).

Lemma after_member_stop l rest : numstop (after_member l rest) = true.
Proof. by destruct l. Qed.

Lemma scan_members d l rest f :
  l <> [] -> members_at d l -> (weight MMembers (member_text l rest) <= f)%nat ->
  scan f d MMembers (member_text l rest) = Some rest.
Proof.
  intros Hne Hl. revert f. induction Hl as [|[k v] l [Hk Hv] Hl IH]; intros f Hf; [done|]. cbn [fst snd] in *.
  rewrite member_text_cons in *. destruct f as [|f]; [unfold weight in Hf; lia|]. cbn [scan].
  change (skip_ws (x22 :: ?b)) with (x22 :: b). cbv iota. change (oct x22 x22) with true. cbv iota.
  destruct (quoted_string k (length k) (x3a :: v ++ after_member l rest) Hk ltac:(lia)) as [-> _]. cbn [mbind option_bind].
  change (skip_ws (x3a :: ?b)) with (x3a :: b). cbv iota. change (oct x3a x3a) with true. cbv iota.
  unfold weight in Hf. cbn [length] in Hf. rewrite !length_app in Hf. cbn [length] in Hf. rewrite length_app in Hf.
  rewrite (document_scan d v _ d f Hv (after_member_stop _ _)) by (unfold weight; rewrite ?length_app; lia). cbn [mbind option_bind].
  destruct l as [|e l]; [done|]. cbn [after_member length] in *. change (skip_ws (x2c :: ?b)) with (x2c :: b). cbv iota.
  change (oct x2c x2c) with true. cbv iota. apply IH; [done|]. unfold weight. lia.
Qed.

Lemma read_members d l rest f :
  0 <= d -> l <> [] -> members_at d l -> (length (member_text l rest) <= f)%nat -> members f (member_text l rest) = Some l.
Proof.
  intros Hd Hne Hl. revert f. induction Hl as [|[k v] l [Hk Hv] Hl IH]; intros f Hf; [done|]. cbn [fst snd] in *.
  rewrite member_text_cons in *. destruct f as [|f]; [cbn in Hf; lia|]. cbn [members].
  change (skip_ws (x22 :: ?b)) with (x22 :: b). cbv iota.
  destruct (quoted_string k (length k) (x3a :: v ++ after_member l rest) Hk ltac:(lia)) as [Hs Hu].
  rewrite Hu by (rewrite length_app; cbn [length]; lia). rewrite Hs. cbn [mbind option_bind].
  change (skip_ws (x3a :: ?b)) with (x3a :: b). cbv iota. rewrite (document_front d v _ Hv).
  unfold scan_value. rewrite (document_scan d v _ 0 _ Hv (after_member_stop _ _)) by lia. cbn [mbind option_bind].
  rewrite length_app. replace (length v + _ - _)%nat with (length v) by lia. rewrite take_app_length.
  cbn [length] in Hf. rewrite length_app in Hf. cbn [length] in Hf. rewrite length_app in Hf.
  destruct l as [|e l]; [done|]. cbn [after_member length] in *. change (skip_ws (x2c :: ?b)) with (x2c :: b). cbv iota.
  change (oct x2c x2c) with true. cbv iota. rewrite IH; [done|done|lia].
Qed.

Lemma member_text_front l : l <> [] -> exists b, member_text l [] = x22 :: b.
Proof. destruct l as [|[k v] l]; [done|]. rewrite member_text_cons. eauto. Qed.

(** The text of an object is a document one bracket further out. *)
Lemma text_document d l :
  d < maxNestingDepth -> l <> [] -> members_at (d + 1) l -> document_at d (x7b :: member_text l []).
Proof.
  intros Hd Hl0 Hl. split; [done|]. unfold weight. cbn [length Nat.mul].
  replace (S (length (member_text l [])) + (S (length (member_text l [])) + 0) + 1)%nat
    with (S (weight MMembers (member_text l []))) by (unfold weight; lia).
  cbn [scan]. change (skip_ws (x7b :: ?b)) with (x7b :: b). cbv iota. change (oct x7b x7b) with true. cbv iota.
  rewrite (proj2 (Z.ltb_ge _ _)) by lia. destruct (member_text_front l Hl0) as [b Hb].
  rewrite Hb. change (skip_ws (x22 :: ?b)) with (x22 :: b). cbv iota. change (oct x22 x7d) with false. cbv iota. rewrite <- Hb.
  by rewrite (scan_members (d + 1) l [] _ Hl0 Hl) by lia.
Qed.

Lemma document_Valid v : document_at 0 v -> Valid v = true.
Proof. intros [_ Hv]. unfold Valid, scan_value. by rewrite Hv. Qed.

(** The text of an object with valid text keys unmarshals to its members, in their order. *)
Lemma text_roundtrip l :
  l <> [] -> members_ok l -> unmarshal_object (x7b :: member_text l []) = Some l.
Proof.
  intros Hl0 Hl. unfold unmarshal_object. rewrite document_Valid by (by apply text_document).
  change (skip_ws (x7b :: ?b)) with (x7b :: b). cbv iota. change (oct x7b x7b) with true. cbv iota.
  destruct (member_text_front l Hl0) as [b Hb].
  rewrite Hb. change (skip_ws (x22 :: ?b)) with (x22 :: b). cbv iota. change (oct x22 x7d) with false. cbv iota. rewrite <- Hb.
  by apply (read_members 1).
Qed.

(** An object marshalled from members with valid text keys unmarshals to the same members,
    in the order of their keys. *)
Lemma object_roundtrip m :
  m <> [] -> members_ok m -> unmarshal_object (marshal_object m) = Some (sort_entries fst m).
Proof.
  intros Hne Hm. unfold marshal_object. cbn [app]. rewrite join_members. pose proof (sort_entries_perm fst m) as Hp.
  apply text_roundtrip; [intros E; rewrite E in Hp; by apply Permutation_nil_l in Hp|]. unfold members_at. by rewrite Hp.
Qed.

(** A quoted string unmarshals to itself. *)
Lemma string_roundtrip s : utf8 s -> unmarshal_string (quote s) = Some s.
Proof.
  intros Hs. unfold unmarshal_string. rewrite document_Valid by (by apply quote_document).
  unfold quote. cbn [app]. change (skip_ws (x22 :: ?b)) with (x22 :: b). cbv iota. change (oct x22 x22) with true. cbv iota.
  destruct (quoted_string s (length s) [] Hs ltac:(lia)) as [_ Hu]. apply Hu. cbn [length]. rewrite length_app. lia.
Qed.
