(* ===== verification/JsonLine.v ===== *)
(** * Marshalled JSON is a single line

    What [encoding/json] writes holds no newline: the white space between tokens is dropped
    and a control character inside a string is not valid JSON.  The stdio backend and every
    other line protocol rest on it. *)

From S2P Require Import Prelude Errors Cbor Json.
From Stdlib Require Import Strings.Byte.
Open Scope Z_scope.
Definition newline_free (b : bytes) : Prop := x0a ∉ b.

Lemma newline_free_app b c : newline_free (b ++ c) <-> newline_free b /\ newline_free c.
Proof. unfold newline_free. rewrite elem_of_app. tauto. Qed.

Lemma newline_free_cons c b : newline_free (c :: b) <-> c <> x0a /\ newline_free b.
Proof. unfold newline_free. rewrite elem_of_cons. naive_solver. Qed.

Lemma newline_free_nil : newline_free [].
Proof. apply not_elem_of_nil. Qed.

Lemma hex_char_free z : hex_char z <> x0a.
Proof.
  unfold hex_char. intros E. destruct (nth_in_or_default (Z.to_nat z) (str "0123456789abcdef") x30) as [H|H]; [|congruence].
  rewrite E in H. vm_compute in H. intuition discriminate.
Qed.

Lemma u_escape_free r : newline_free (u_escape r).
Proof. unfold u_escape. rewrite !newline_free_cons. repeat split; try discriminate; try apply hex_char_free. apply newline_free_nil. Qed.

Lemma quote_octet_free c : newline_free (quote_octet c).
Proof. apply (bool_decide_unpack (newline_free (quote_octet c))). destruct c; by vm_compute. Qed.

(** ** Quoting *)

Lemma octet_free c b : ~ b2z c < 32 -> newline_free b -> newline_free (c :: b).
Proof. intros Hc Hb. apply newline_free_cons. split; [|done]. intros ->. by apply Hc. Qed.

(** The octets of a sequence of several are all above 127. *)
Lemma utf8_size_high s n : utf8_size s = Some n -> (match s with c :: _ => 128 <= b2z c | [] => True end) ->
  Forall (fun c => 128 <= b2z c) (take n s).
Proof.
  unfold utf8_size, cont. destruct s as [|c s]; [done|]. intros H Hc. rewrite (proj2 (Z.ltb_ge _ _) Hc) in H.
  destruct (_ && _) in H; [|destruct (_ && _) in H; [|destruct (_ && _) in H; [|done]]].
  - destruct s as [|d s]; [done|]. destruct (_ && _) eqn:Hd in H; [|done]. injection H as <-.
    apply andb_true_iff in Hd as [Hd _]. apply Z.leb_le in Hd. cbn. repeat constructor; lia.
  - destruct s as [|d [|e s]]; try done. destruct (_ && _) eqn:Hd in H; [|done]. injection H as <-.
    rewrite !andb_true_iff, !Z.leb_le in Hd. cbn. destruct (b2z c =? 224), Hd as [[Hd _] [He _]]; repeat constructor; lia.
  - destruct s as [|d [|e [|g s]]]; try done. destruct (_ && _) eqn:Hd in H; [|done]. injection H as <-.
    rewrite !andb_true_iff, !Z.leb_le in Hd. cbn. destruct (b2z c =? 240), Hd as [[[Hd _] [He _]] [Hg _]]; repeat constructor; lia.
Qed.

Lemma high_free s : Forall (fun c => 128 <= b2z c) s -> newline_free s.
Proof. intros H Hin. rewrite Forall_forall in H. specialize (H _ Hin). by vm_compute in H. Qed.

Lemma quote_body_free fuel s : newline_free (quote_body fuel s).
Proof.
  revert s. induction fuel as [|fuel IH]; intros s; cbn [quote_body]; [apply newline_free_nil|].
  destruct s as [|c s]; [apply newline_free_nil|]. destruct (Z.ltb_spec (b2z c) 128) as [Hc|Hc].
  - apply newline_free_app. split; [apply quote_octet_free|apply IH].
  - destruct (utf8_size (c :: s)) as [n|] eqn:E; apply newline_free_app; (split; [|apply IH]); [|apply u_escape_free].
    destruct (line_separator _); [apply u_escape_free|]. by apply high_free, utf8_size_high.
Qed.

Lemma quote_free s : newline_free (quote s).
Proof.
  unfold quote. rewrite !newline_free_app, !newline_free_cons. repeat split; try discriminate; try apply newline_free_nil. apply quote_body_free.
Qed.

(** ** Compacting

    [token b r]: [r] is what follows a token of [b], and compacting the token writes a fixed
    text without a newline, whatever comes after it. *)
Definition token (b r : bytes) : Prop :=
  exists p q, b = p ++ r /\ newline_free q /\ forall t, compact_body false (p ++ t) = q ++ compact_body false t.

(** The same from inside a string. *)
Definition inner (b r : bytes) : Prop :=
  exists p q, b = p ++ x22 :: r /\ newline_free q /\ forall t, compact_body true (p ++ x22 :: t) = q ++ compact_body false t.

Lemma token_refl b : token b b.
Proof. exists [], []. split; [done|]. split; [apply newline_free_nil|done]. Qed.

Lemma token_trans b m r : token b m -> token m r -> token b r.
Proof.
  intros (p1 & q1 & -> & F1 & H1) (p2 & q2 & -> & F2 & H2). exists (p1 ++ p2), (q1 ++ q2). rewrite <- app_assoc. split; [done|].
  rewrite newline_free_app. split; [done|]. intros t. by rewrite <- !app_assoc, H1, H2.
Qed.

Lemma no_separator c b : oct c xe2 = false -> line_separator (take 3 (c :: b)) = None.
Proof. intros He. destruct b as [|d [|e b]]; try done. cbn [take line_separator]. by rewrite He. Qed.

Lemma separator_octets c b sep : line_separator (take 3 (c :: b)) = Some sep ->
  exists e b', c = xe2 /\ b = x80 :: e :: b' /\ (e = xa8 \/ e = xa9).
Proof.
  destruct b as [|d [|e b]]; try done. cbn [take line_separator]. rewrite take_0. destruct (oct c xe2) eqn:Ec; [|done].
  destruct (oct d x80) eqn:Ed; [|done]. apply oct_eq in Ec as ->. apply oct_eq in Ed as ->. cbn [andb].
  destruct (oct e xa8) eqn:E1; [apply oct_eq in E1; eauto 10|]. destruct (oct e xa9) eqn:E2; [apply oct_eq in E2; eauto 10|done].
Qed.

Lemma token_plain c b : oct c x22 = false -> oct c xe2 = false -> token (c :: b) b.
Proof.
  intros Hq He. exists [c], (if existsb (oct c) [x3c; x3e; x26] then u_escape (b2z c) else if is_ws c then [] else [c]).
  split; [done|]. split.
  - destruct (existsb _ _); [apply u_escape_free|]. destruct (is_ws c) eqn:Hw; [apply newline_free_nil|].
    apply newline_free_cons. split; [|apply newline_free_nil]. intros ->. by vm_compute in Hw.
  - intros t. cbn [app compact_body]. destruct (existsb _ _); [done|]. rewrite (no_separator c t He). destruct (is_ws c); [done|]. by rewrite Hq.
Qed.

(** Octets [p] of a string that write [q] and stay inside it. *)
Definition stays (p q : bytes) : Prop := newline_free q /\ forall t, compact_body true (p ++ t) = q ++ compact_body true t.

Lemma inner_stays p q b r : stays p q -> inner b r -> inner (p ++ b) r.
Proof.
  intros [F1 H1] (p2 & q2 & -> & F2 & H2). exists (p ++ p2), (q ++ q2). rewrite <- app_assoc. split; [done|].
  rewrite newline_free_app. split; [done|]. intros t. by rewrite <- !app_assoc, H1, H2.
Qed.

(** An octet of a string that stands for itself. *)
Lemma stays_octet c : oct c x22 = false -> oct c x5c = false -> oct c xe2 = false -> c <> x0a ->
  stays [c] (if existsb (oct c) [x3c; x3e; x26] then u_escape (b2z c) else [c]).
Proof.
  intros Hq Hs He Hn. split.
  - destruct (existsb _ _); [apply u_escape_free|]. apply newline_free_cons. split; [done|apply newline_free_nil].
  - intros t. cbn [app compact_body]. destruct (existsb _ _); [done|]. by rewrite (no_separator c t He), Hs, Hq.
Qed.

Lemma stays_escape e : e <> x0a -> stays [x5c; e] [x5c; e].
Proof.
  intros He. split; [rewrite !newline_free_cons; repeat split; try done; apply newline_free_nil|]. intros t.
  cbn [app compact_body]. change (existsb (oct x5c) [x3c; x3e; x26]) with false. cbv iota.
  rewrite (no_separator x5c (e :: t) eq_refl). change (oct x5c x5c) with true. done.
Qed.

Lemma stays_hex h : (if hex_value h then true else false) = true -> stays [h] [h].
Proof.
  intros Hx. assert (existsb (oct h) [x3c; x3e; x26] = false /\ oct h xe2 = false /\ oct h x5c = false /\ oct h x22 = false /\ h <> x0a)
    as (E1 & E2 & E3 & E4 & E5) by (destruct h; vm_compute in Hx; try discriminate; by vm_compute).
  pose proof (stays_octet h E4 E3 E2 E5) as H. by rewrite E1 in H.
Qed.

(** The line separators are escaped. *)
Lemma stays_separator e r : (e = xa8 /\ r = 0x2028) \/ (e = xa9 /\ r = 0x2029) -> stays [xe2; x80; e] (u_escape r).
Proof. intros He. split; [apply u_escape_free|]. intros t. by destruct He as [[-> ->]|[-> ->]]. Qed.

Lemma inner_quote b : inner (x22 :: b) b.
Proof.
  exists [], [x22]. split; [done|]. split; [apply newline_free_cons; split; [done|apply newline_free_nil]|].
  intros t. cbn [app compact_body]. change (existsb (oct x22) [x3c; x3e; x26]) with false. cbv iota.
  rewrite (no_separator x22 t eq_refl). done.
Qed.

(** The octet that may start a separator, when it does not. *)
Lemma inner_lead b r : line_separator (take 3 (xe2 :: b)) = None -> inner b r -> inner (xe2 :: b) r.
Proof.
  intros El (p & q & -> & F & H). exists (xe2 :: p), (xe2 :: q). split; [done|]. split; [by apply newline_free_cons|].
  intros t. cbn [app compact_body]. change (existsb (oct xe2) [x3c; x3e; x26]) with false. cbv iota.
  assert (line_separator (take 3 (xe2 :: p ++ x22 :: t)) = None) as ->; [|by rewrite H].
  destruct p as [|d [|e p]]; [by destruct t| |].
  - cbn [app take line_separator]. rewrite take_0. by destruct (oct d x80).
  - cbn [app take] in El |- *. by rewrite take_0 in El |- *.
Qed.

(** Inside a string, up to its closing quote. *)
Lemma inner_string b r : scan_string b = Some r -> inner b r.
Proof.
  induction b as [b IH] using (induction_ltof1 _ (@length byte)). unfold ltof in IH.
  destruct b as [|c b]; [done|]. cbn [scan_string]. destruct (oct c x22) eqn:Eq.
  { intros [= ->]. apply oct_eq in Eq as ->. apply inner_quote. }
  destruct (oct c x5c) eqn:Ec.
  - apply oct_eq in Ec as ->. destruct b as [|e b]; [done|].
    destruct (existsb (oct e) _) eqn:Ee.
    { intros Hs. apply (inner_stays [x5c; e] [x5c; e]); [|apply IH; [cbn; lia|done]]. apply stays_escape. intros ->. by vm_compute in Ee. }
    destruct (oct e x75) eqn:Eu; [|done]. apply oct_eq in Eu as ->. destruct b as [|h1 [|h2 [|h3 [|h4 b]]]]; try done.
    destruct (forallb _ _) eqn:Eh; [|done]. intros Hs. cbn [forallb] in Eh. rewrite !andb_true_iff in Eh. destruct Eh as (H1 & H2 & H3 & H4 & _).
    apply (inner_stays [x5c; x75] _ _ r (stays_escape x75 ltac:(done))).
    apply (inner_stays [h1] _ _ r (stays_hex h1 H1)), (inner_stays [h2] _ _ r (stays_hex h2 H2)),
      (inner_stays [h3] _ _ r (stays_hex h3 H3)), (inner_stays [h4] _ _ r (stays_hex h4 H4)). apply IH; [cbn; lia|done].
  - destruct (Z.ltb_spec (b2z c) 32) as [|Hc]; [done|]. intros Hs.
    assert (Hb : inner b r) by (apply IH; [cbn; lia|done]). destruct (oct c xe2) eqn:E2.
    + apply oct_eq in E2 as ->. destruct (line_separator (take 3 (xe2 :: b))) as [sep|] eqn:El; [|by apply inner_lead].
      destruct (separator_octets _ _ _ El) as (e & b' & _ & -> & He).
      assert (Hb' : inner b' r) by (apply IH; [cbn; lia|]; by destruct He as [-> | ->]).
      destruct He as [-> | ->]; [apply (inner_stays _ _ _ _ (stays_separator xa8 0x2028 ltac:(auto)) Hb')|
                                 apply (inner_stays _ _ _ _ (stays_separator xa9 0x2029 ltac:(auto)) Hb')].
    + apply (inner_stays [c] _ _ _ (stays_octet c Eq Ec E2 ltac:(intros ->; by apply Hc)) Hb).
Qed.

(** A string literal with its opening quote. *)
Lemma token_literal b r : scan_string b = Some r -> token (x22 :: b) r.
Proof.
  intros H. destruct (inner_string b r H) as (p & q & -> & F & Hc). exists (x22 :: p ++ [x22]), (x22 :: q).
  cbn [app]. rewrite <- app_assoc. split; [done|]. split; [by apply newline_free_cons|]. intros t. rewrite <- app_assoc. cbn [app].
  rewrite <- Hc. cbn [compact_body]. change (existsb (oct x22) [x3c; x3e; x26]) with false. cbv iota.
  by rewrite (no_separator x22 _ eq_refl).
Qed.

(** ** The other tokens *)

Lemma class_plain (f : byte -> bool) c b : f x22 = false -> f xe2 = false -> f c = true -> token (c :: b) b.
Proof. intros Hq He Hc. apply token_plain; destruct (oct c _) eqn:E; try done; apply oct_eq in E as ->; congruence. Qed.

Lemma ws_plain c b : is_ws c = true -> token (c :: b) b.
Proof. by apply (class_plain is_ws). Qed.

Lemma digit_plain c b : is_digit c = true -> token (c :: b) b.
Proof. by apply (class_plain is_digit). Qed.

Lemma oct_plain d c b : oct d x22 = false -> oct d xe2 = false -> oct c d = true -> token (c :: b) b.
Proof. intros Hq He Hc%oct_eq. subst c. by apply token_plain. Qed.

Lemma token_skip_ws b : token b (skip_ws b).
Proof.
  induction b as [|c b IH]; [apply token_refl|]. cbn [skip_ws]. destruct (is_ws c) eqn:E; [|apply token_refl].
  apply (token_trans _ b); [by apply ws_plain|done].
Qed.

Lemma token_skip_digits b : token b (skip_digits b).
Proof.
  induction b as [|c b IH]; [apply token_refl|]. cbn [skip_digits]. destruct (is_digit c) eqn:E; [|apply token_refl].
  apply (token_trans _ b); [by apply digit_plain|done].
Qed.

Lemma token_digits b r : scan_digits b = Some r -> token b r.
Proof.
  destruct b as [|c b]; [done|]. cbn. destruct (is_digit c) eqn:E; [|done]. intros [= <-].
  apply (token_trans _ b); [by apply digit_plain|apply token_skip_digits].
Qed.

Lemma token_number b r : scan_number b = Some r -> token b r.
Proof.
  unfold scan_number. rewrite bind_Some. intros (b1 & H1 & H). rewrite bind_Some in H. destruct H as (b2 & H2 & H3).
  assert (C2 : token b2 r).
  { destruct b2 as [|c b2]; [injection H3 as <-; apply token_refl|]. cbn in H3. destruct (oct c x65 || oct c x45) eqn:E; [|injection H3 as <-; apply token_refl].
    apply (token_trans _ b2); [by apply (class_plain (fun c => oct c x65 || oct c x45))|]. destruct b2 as [|s b2]; [done|].
    destruct (oct s x2b || oct s x2d) eqn:Es; [|by apply token_digits].
    apply (token_trans _ b2); [by apply (class_plain (fun c => oct c x2b || oct c x2d))|by apply token_digits]. }
  assert (C1 : token b1 b2).
  { destruct b1 as [|c b1]; [injection H2 as <-; apply token_refl|]. cbn in H2. destruct (oct c x2e) eqn:E; [|injection H2 as <-; apply token_refl].
    apply (token_trans _ b1); [by apply (oct_plain x2e)|by apply token_digits]. }
  assert (Hi : forall t, scan_int t = Some b1 -> token t b1).
  { intros [|c t]; [done|]. cbn. destruct (oct c x30) eqn:E0; [intros [= ->]; by apply (oct_plain x30)|].
    destruct (is_digit c) eqn:Ed; [|done]. intros [= <-]. apply (token_trans _ t); [by apply digit_plain|apply token_skip_digits]. }
  apply (token_trans _ b1); [|by apply (token_trans _ b2)].
  destruct b as [|c b]; [done|]. destruct (oct c x2d) eqn:E; [|by apply Hi].
  apply (token_trans _ b); [by apply (oct_plain x2d)|by apply Hi].
Qed.

Lemma token_strip p b r : strip p b = Some r -> forallb (fun c => negb (oct c x22 || oct c xe2)) p = true -> token b r.
Proof.
  revert b. induction p as [|x p IH]; intros b; [intros [= <-] _; apply token_refl|]. destruct b as [|c b]; [done|]. cbn [strip].
  destruct (oct x c) eqn:E; [|done]. apply oct_eq in E as ->. cbn [forallb]. intros H [Hc Hp]%andb_true_iff.
  apply negb_true_iff, orb_false_iff in Hc as [H1 H2]. apply (token_trans _ b); [by apply token_plain|by apply IH].
Qed.

Lemma token_keyword b r : scan_literal b = Some r -> token b r.
Proof.
  unfold scan_literal. intros H. destruct (strip (str "true") b) eqn:E1; [injection H as ->; by apply (token_strip _ _ _ E1)|].
  destruct (strip (str "false") b) eqn:E2; [injection H as ->; by apply (token_strip _ _ _ E2)|]. by apply (token_strip _ _ _ H).
Qed.

(** ** Documents *)

(** A punctuation octet and what follows the white space after it. *)
Lemma token_mark d c b r : oct d x22 = false -> oct d xe2 = false -> oct c d = true -> token b r -> token (c :: b) r.
Proof. intros Hq He Hc Hb. apply (token_trans _ b); [by apply (oct_plain d)|done]. Qed.

Lemma token_after b c b' r : skip_ws b = c :: b' -> token (c :: b') r -> token b r.
Proof. intros E H. apply (token_trans _ (skip_ws b)); [apply token_skip_ws|by rewrite E]. Qed.

Lemma token_scan f d m b r : scan f d m b = Some r -> token b r.
Proof.
  revert d m b r. induction f as [|f IH]; intros d m b r; [done|]. destruct m; cbn [scan]; intros H.
  - destruct (skip_ws b) as [|c b1] eqn:Eb; [done|]. apply (token_after b c b1 r Eb).
    destruct (oct c x7b) eqn:E1; [|destruct (oct c x5b) eqn:E2].
    + apply (token_mark x7b); try done. destruct (_ <? _); [done|]. destruct (skip_ws b1) as [|e b2] eqn:Ew; [done|].
      destruct (oct e _) eqn:E; [|by apply (IH _ _ _ _ H)]. injection H as ->. apply (token_after _ _ _ _ Ew), (oct_plain x7d); done.
    + apply (token_mark x5b); try done. destruct (_ <? _); [done|]. destruct (skip_ws b1) as [|e b2] eqn:Ew; [done|].
      destruct (oct e _) eqn:E; [|by apply (IH _ _ _ _ H)]. injection H as ->. apply (token_after _ _ _ _ Ew), (oct_plain x5d); done.
    + destruct (oct c x22) eqn:E3; [apply oct_eq in E3 as ->; by apply token_literal|].
      destruct (oct c x2d || is_digit c); [by apply token_number|by apply token_keyword].
  - apply bind_Some in H as (rest & Hv & H). apply (token_trans _ rest); [by apply (IH _ _ _ _ Hv)|].
    destruct (skip_ws rest) as [|e b1] eqn:Er; [done|]. apply (token_after _ _ _ _ Er).
    destruct (oct e x2c) eqn:E; [apply (token_mark x2c); try done; by apply (IH _ _ _ _ H)|].
    destruct (oct e x5d) eqn:E'; [|done]. injection H as ->. by apply (oct_plain x5d).
  - destruct (skip_ws b) as [|q b1] eqn:Eb; [done|]. apply (token_after _ _ _ _ Eb). destruct (oct q x22) eqn:Eq; [|done]. apply oct_eq in Eq as ->.
    apply bind_Some in H as (b2 & Hs & H). apply (token_trans _ b2); [by apply token_literal|].
    destruct (skip_ws b2) as [|co b3] eqn:E2; [done|]. apply (token_after _ _ _ _ E2).
    destruct (oct co x3a) eqn:Eo; [|done]. apply (token_mark x3a); try done. apply bind_Some in H as (rest & Hv & H).
    apply (token_trans _ rest); [by apply (IH _ _ _ _ Hv)|]. destruct (skip_ws rest) as [|e b4] eqn:Er; [done|]. apply (token_after _ _ _ _ Er).
    destruct (oct e x2c) eqn:E; [apply (token_mark x2c); try done; by apply (IH _ _ _ _ H)|].
    destruct (oct e x7d) eqn:E'; [|done]. injection H as ->. by apply (oct_plain x7d).
Qed.

(** A valid document is one token; so is its compact form, which compacting leaves as it is
    wherever it stands. *)
Lemma Valid_token raw : Valid raw = true -> token raw [].
Proof.
  unfold Valid. destruct (scan_value raw) as [rest|] eqn:E; [|done]. destruct (skip_ws rest) eqn:Ew; [|done]. intros _.
  apply (token_trans _ rest); [by apply (token_scan _ _ _ _ _ E)|]. rewrite <- Ew. apply token_skip_ws.
Qed.

Lemma compact_free raw b : compact raw = Some b -> newline_free b.
Proof.
  unfold compact. destruct (Valid raw) eqn:E; [|done]. intros [= <-]. destruct (Valid_token raw E) as (p & q & Hp & F & H).
  rewrite app_nil_r in Hp. subst p. specialize (H []). rewrite !app_nil_r in H. by rewrite H.
Qed.

(** Text that compacting leaves as it is, in any context. *)
Definition settled (v : bytes) : Prop := forall t, compact_body false (v ++ t) = v ++ compact_body false t.

Lemma compact_settled v : compact v = Some v -> settled v.
Proof.
  unfold compact. destruct (Valid v) eqn:E; [|done]. intros [= Hv] t. destruct (Valid_token v E) as (p & q & Hp & _ & H).
  rewrite app_nil_r in Hp. subst p. rewrite H. f_equal. specialize (H []). rewrite !app_nil_r, Hv in H. done.
Qed.

Lemma join_free l : Forall newline_free l -> newline_free (join [x2c] l).
Proof.
  intros H. induction H as [|b l Hb Hl IH]; [apply newline_free_nil|]. cbn [join]. destruct l as [|c l]; [done|].
  rewrite !newline_free_app, newline_free_cons. repeat split; try done. apply newline_free_nil.
Qed.

Lemma marshal_free m : Forall (fun e => newline_free e.2) m -> newline_free (marshal_object m).
Proof.
  intros Hm. unfold marshal_object. rewrite !newline_free_app, !newline_free_cons.
  repeat (split; [first [discriminate | apply newline_free_nil | split; [discriminate|apply newline_free_nil]]|]).
  split; [|split; [discriminate|apply newline_free_nil]]. apply join_free, Forall_map. rewrite sort_entries_perm.
  eapply Forall_impl; [exact Hm|]. intros [k v] Hv. cbn [fst snd] in *. rewrite !newline_free_app, newline_free_cons.
  repeat split; try discriminate; try apply newline_free_nil; try done. apply quote_free.
Qed.
