(* ===== verification/CarriageJson.v ===== *)
(** * The JSON-RPC carriage (proxy/carriage_jsonrpc.go, and the codec half of proxy/jsonrpc.go)

    A JSON-RPC 2.0 object is carried octet for octet.  The encoders marshal an object once;
    the decoders parse a copy to classify it and to derive the correlation id from the
    octets of its id token.  Go values that a caller hands over as [any] stand for the
    octets [json.Marshal] makes of them, [None] when it fails. *)

From S2P Require Import Prelude Errors Cbor Bridge CarriageHttp CarriageStream Json.
From Stdlib Require Import Strings.Byte.
Open Scope Z_scope.

(** What [json.Marshal] makes of a Go value. *)
Abbreviation marshalled := (option bytes).

Inductive errJSONRPC : Type :=
| notObject
| missingVersion
| wrongVersion
| methodNotString
| idLength (n : Z)
| missingMethodMember
| notifyHasID
| requestHasNoID
| responseHasError
| missingResult
| missingError
| marshalFailed     (* an error of json.Marshal *)
| randFailed        (* an error of crypto/rand *)
| badErrorObject.   (* jsonrpc.go: the error member does not unmarshal *)

Record jsonrpcParsed : Type := mkParsed {
  jp_Raw : bytes;
  jp_Method : bytes;
  jp_HasMethod : bool;
  jp_ID : option bytes;
  jp_HasResult : bool;
  jp_Result : option bytes;
  jp_HasError : bool;
  jp_Error : option bytes
}.

Definition present {A} (o : option A) : bool := match o with Some _ => true | None => false end.

Definition parseJSONRPCObject (raw : bytes) : result errJSONRPC jsonrpcParsed :=
  match unmarshal_object raw with
  | None => Err notObject
  | Some fields =>
      verRaw ← match field fields (str "jsonrpc") with Some v => Ok v | None => Err missingVersion end;
      check (negb (bool_decide (unmarshal_string verRaw = Some (str "2.0")))) wrongVersion;;
      method ← match field fields (str "method") with
               | None => Ok []
               | Some m => match unmarshal_string m with Some s => Ok s | None => Err methodNotString end
               end;
      Ok (mkParsed raw method (present (field fields (str "method"))) (field fields (str "id"))
            (present (field fields (str "result"))) (field fields (str "result"))
            (present (field fields (str "error"))) (field fields (str "error")))
  end.

(** [bytes.TrimSpace]; a JSON token has no other white space at its ends. *)
Definition is_space (c : byte) : bool := is_ws c || oct c x0b || oct c x0c.

Fixpoint trim_left (b : bytes) : bytes :=
  match b with
  | c :: b' => if is_space c then trim_left b' else b
  | [] => []
  end.

Definition TrimSpace (b : bytes) : bytes := rev (trim_left (rev (trim_left b))).

(** [rnd] is what [newCorrelationID] draws, [None] when the source fails. *)
Definition jsonrpcCorrelationID (rnd : option bytes) (id : bytes) : result errJSONRPC bytes :=
  if bool_decide (TrimSpace id = str "null") then
    match rnd with Some r => Ok r | None => Err randFailed end
  else
    check ((blen id =? 0) || (255 <? blen id)) (idLength (blen id));;
    Ok id.

(** The members of a request or notification; [params] is [None] for a nil interface. *)
Definition request_members (method : bytes) (params : option bytes) (id : option bytes) : list (bytes * bytes) :=
  [(str "jsonrpc", quote (str "2.0")); (str "method", quote method)] ++
  (match id with Some i => [(str "id", i)] | None => [] end) ++
  (match params with Some p => [(str "params", p)] | None => [] end).

(** The octets of the optional value, failing when marshalling fails. *)
Definition marshal_opt (v : option marshalled) : result errJSONRPC (option bytes) :=
  match v with
  | None => Ok None
  | Some None => Err marshalFailed
  | Some (Some b) => Ok (Some b)
  end.

Definition encodeJSONRPCRequest (rnd : option bytes) (method : bytes) (params : option marshalled) (id : marshalled)
    : result errJSONRPC (bytes * bytes) :=
  i ← match id with Some i => Ok i | None => Err marshalFailed end;
  p ← marshal_opt params;
  let wire := marshal_object (request_members method p (Some i)) in
  parsed ← parseJSONRPCObject wire;
  corrID ← jsonrpcCorrelationID rnd (default [] (jp_ID parsed));
  Ok (wire, corrID).

Definition encodeJSONRPCNotification (method : bytes) (params : option marshalled) : result errJSONRPC bytes :=
  p ← marshal_opt params;
  Ok (marshal_object (request_members method p None)).

Definition decodeJSONRPCRequestOrNotification (foreign : bytes) (wantNotify : bool) : result errJSONRPC jsonrpcParsed :=
  p ← parseJSONRPCObject foreign;
  check (negb (jp_HasMethod p)) missingMethodMember;;
  check (wantNotify && present (jp_ID p)) notifyHasID;;
  check (negb wantNotify && negb (present (jp_ID p))) requestHasNoID;;
  Ok p.

Definition decodeJSONRPCSuccessResponse (foreign : bytes) : result errJSONRPC jsonrpcParsed :=
  p ← parseJSONRPCObject foreign;
  check (jp_HasError p) responseHasError;;
  check (negb (jp_HasResult p)) missingResult;;
  Ok p.

Definition decodeJSONRPCErrorResponse (foreign : bytes) : result errJSONRPC jsonrpcParsed :=
  p ← parseJSONRPCObject foreign;
  check (negb (jp_HasError p)) missingError;;
  Ok p.

Definition jsonrpcMethodAgrees (envelopeMethod : bytes) (obj : jsonrpcParsed) : bool :=
  bool_decide (envelopeMethod = jp_Method obj).

Definition jsonrpcEnvelope (protocol kind : Z) (corrID method : bytes) : BridgeEnvelope :=
  mkEnvelope protocol kind BridgeContentJSON 0 corrID method.

(** ** The error object *)

Record JSONRPCError : Type := mkRPCError {
  je_Code : Z;              (* int *)
  je_Message : bytes;
  je_Data : bytes           (* json.RawMessage, empty when absent *)
}.

(** [strconv.FormatInt] in base ten. *)
Fixpoint dec_digits (fuel : nat) (z : Z) : bytes :=
  match fuel with
  | O => []
  | S fuel => (if z <? 10 then [] else dec_digits fuel (z / 10)) ++ [z2b (48 + z mod 10)]
  end.

Definition FormatInt (z : Z) : bytes := if z <? 0 then x2d :: dec_digits 20 (- z) else dec_digits 20 z.

(** The decimal value of a run of digits. *)
Fixpoint dec_value (acc : Z) (b : bytes) : option Z :=
  match b with
  | [] => Some acc
  | c :: b => if is_digit c then dec_value (acc * 10 + (b2z c - 48)) b else None
  end.

(** [strconv.ParseInt] to 64 bits on a JSON number: fractions and exponents fail. *)
Definition ParseInt (b : bytes) : option Z :=
  let within z := if (- 2 ^ 63 <=? z) && (z <? 2 ^ 63) then Some z else None in
  match b with
  | c :: b' => if oct c x2d then (z ← dec_value 0 b'; within (- z)) else (z ← dec_value 0 b; within z)
  | [] => None
  end.

(** [json.Marshal] of the struct: [data] is omitted when empty. *)
Definition marshal_rpc_error (e : JSONRPCError) : marshalled :=
  data ← match je_Data e with [] => Some [] | d => c ← compact d; Some (str "," ++ quote (str "data") ++ [x3a] ++ c) end;
  Some ([x7b] ++ quote (str "code") ++ [x3a] ++ FormatInt (je_Code e) ++ str "," ++
        quote (str "message") ++ [x3a] ++ quote (je_Message e) ++ data ++ [x7d]).

(** Field names match exactly or up to case folding, which takes U+017F for an s and the
    Kelvin sign for a k. *)
Fixpoint fold_name (k : bytes) : bytes :=
  match k with
  | [] => []
  | c :: k' =>
      match k' with
      | d :: k'' =>
          if oct c xc5 && oct d xbf then x73 :: fold_name k''
          else match k'' with
               | e :: k3 => if oct c xe2 && oct d x84 && oct e xaa then x6b :: fold_name k3 else to_lower_octet c :: fold_name k'
               | [] => to_lower_octet c :: fold_name k'
               end
      | [] => [to_lower_octet c]
      end
  end.

(** Storing one member of the error object; an error is reported at the end. *)
Definition store_member (e : option JSONRPCError) (m : bytes * bytes) : option JSONRPCError :=
  e ← e;
  let '(k, v) := m in
  let null := bool_decide (v = str "null") in
  if bool_decide (fold_name k = str "code") then
    if null then Some e else (z ← ParseInt v; Some (mkRPCError z (je_Message e) (je_Data e)))
  else if bool_decide (fold_name k = str "message") then
    match v with
    | c :: _ => if oct c x22 || null then
                  if null then Some e else (s ← unmarshal_string v; Some (mkRPCError (je_Code e) s (je_Data e)))
                else None
    | [] => None
    end
  else if bool_decide (fold_name k = str "data") then Some (mkRPCError (je_Code e) (je_Message e) v)
  else Some e.

Definition unmarshal_rpc_error (raw : bytes) : option JSONRPCError :=
  members ← unmarshal_object raw;
  fold_left store_member members (Some (mkRPCError 0 [] [])).

Definition jsonrpcParams (raw : bytes) : option bytes :=
  fields ← unmarshal_object raw;
  field fields (str "params").

(** ** Reply objects (sendJSONRPCSuccessResponse, sendJSONRPCErrorResponse) *)

(** A nil [json.RawMessage] marshals as [null]. *)
Definition raw_or_null (r : option bytes) : marshalled :=
  match r with Some b => compact b | None => Some (str "null") end.

Definition success_object (id : option bytes) (res : option bytes) : marshalled :=
  i ← raw_or_null id;
  r ← raw_or_null (Some (default (str "null") res));
  Some (marshal_object [(str "jsonrpc", quote (str "2.0")); (str "id", i); (str "result", r)]).

Definition error_object (id : option bytes) (e : JSONRPCError) : marshalled :=
  errObj ← marshal_rpc_error e;
  i ← raw_or_null (Some (default (str "null") id));
  x ← compact errObj;
  Some (marshal_object [(str "jsonrpc", quote (str "2.0")); (str "id", i); (str "error", x)]).

Example jsonrpc_example :
  let req := encodeJSONRPCRequest None (str "tools/call") (Some (Some (json "{'x':1}"))) (Some (str "7")) in
  req = Ok (json "{'id':7,'jsonrpc':'2.0','method':'tools/call','params':{'x':1}}", str "7") /\
  (x ← error_object (Some (str "7")) (mkRPCError (-32601) (str "no <m>") (str "[ 1 ]")); 
   match decodeJSONRPCErrorResponse x with Ok p => jp_Error p ≫= unmarshal_rpc_error | Err _ => None end)
  = Some (mkRPCError (-32601) (str "no <m>") (str "[1]")) /\
  jsonrpcCorrelationID None (str "null") = Err randFailed.
Proof. by vm_compute. Qed.

(** ** Objects the encoders build *)

Lemma utf8_str s : valid_utf8 (length s) s = true -> utf8 s.
Proof. apply valid_utf8_sound. Qed.

Ltac ascii := apply utf8_str; by vm_compute.

Lemma member_ok (k v : bytes) : valid_utf8 (length k) k = true -> document v -> utf8 k /\ document v.
Proof. intros Hk Hv. split; [by apply utf8_str|done]. Qed.

Lemma version_document : document (quote (str "2.0")).
Proof. apply quote_document. ascii. Qed.

Lemma version_read : unmarshal_string (quote (str "2.0")) = Some (str "2.0").
Proof. apply string_roundtrip. ascii. Qed.

Lemma request_fields method params id :
  utf8 method -> (forall p, params = Some p -> document p) -> (forall i, id = Some i -> document i) ->
  exists fields, unmarshal_object (marshal_object (request_members method params id)) = Some fields /\
    field fields (str "jsonrpc") = Some (quote (str "2.0")) /\ field fields (str "method") = Some (quote method) /\
    field fields (str "id") = id /\ field fields (str "params") = params /\
    field fields (str "result") = None /\ field fields (str "error") = None.
Proof.
  intros Hm Hp Hi. eexists. split.
  - apply object_roundtrip; [done|]. unfold request_members, members_at. repeat apply Forall_app_2.
    + apply Forall_cons_2; [apply member_ok; [by vm_compute|apply version_document]|].
      apply Forall_singleton, member_ok; [by vm_compute|by apply quote_document].
    + destruct id as [i|]; [|apply Forall_nil_2]. apply Forall_singleton, member_ok; [by vm_compute|by apply Hi].
    + destruct params as [p|]; [|apply Forall_nil_2]. apply Forall_singleton, member_ok; [by vm_compute|by apply Hp].
  - unfold request_members. destruct id as [i|], params as [p|]; repeat split.
Qed.

(** A built request or notification parses back to what it was built from. *)
Lemma request_parses method params id :
  utf8 method -> (forall p, params = Some p -> document p) -> (forall i, id = Some i -> document i) ->
  let wire := marshal_object (request_members method params id) in
  parseJSONRPCObject wire = Ok (mkParsed wire method true id false None false None) /\ jsonrpcParams wire = params.
Proof.
  intros Hm Hp Hi wire. destruct (request_fields method params id Hm Hp Hi) as (fields & Hu & Hv & Hme & Hid & Hpa & Hr & He).
  fold wire in Hu. unfold parseJSONRPCObject, jsonrpcParams. rewrite Hu, Hv, Hme, Hid, Hr, He. cbn [mbind result_bind option_bind].
  rewrite version_read, bool_decide_true by done. cbn [negb check mbind result_bind]. rewrite (string_roundtrip method Hm). done.
Qed.

Lemma reply_fields id r name :
  name ∈ [str "result"; str "error"] -> document id -> document r ->
  exists fields, unmarshal_object (marshal_object [(str "jsonrpc", quote (str "2.0")); (str "id", id); (name, r)]) = Some fields /\
    field fields (str "jsonrpc") = Some (quote (str "2.0")) /\ field fields (str "method") = None /\
    field fields (str "id") = Some id /\
    field fields (str "result") = (if bool_decide (name = str "result") then Some r else None) /\
    field fields (str "error") = (if bool_decide (name = str "result") then None else Some r).
Proof.
  rewrite !elem_of_cons, elem_of_nil. intros Hn Hi Hr. eexists. split.
  - apply object_roundtrip; [done|]. apply Forall_cons_2; [apply member_ok; [by vm_compute|apply version_document]|].
    apply Forall_cons_2; [by apply member_ok|]. apply Forall_singleton, member_ok; [|done].
    destruct Hn as [-> | [-> | []]]; by vm_compute.
  - destruct Hn as [-> | [-> | []]]; repeat split.
Qed.

(** A compact document: what marshalling leaves as it is. *)
Definition compact_document (v : bytes) : Prop := document v /\ compact v = Some v.

Lemma null_document : compact_document (str "null").
Proof. repeat split. Qed.

Lemma success_parses id res :
  (forall i, id = Some i -> compact_document i) -> (forall r, res = Some r -> compact_document r) ->
  exists wire, success_object id res = Some wire /\
    decodeJSONRPCSuccessResponse wire =
      Ok (mkParsed wire [] false (Some (default (str "null") id)) true (Some (default (str "null") res)) false None).
Proof.
  intros Hi Hr. assert (compact_document (default (str "null") id)) as [Di Ci] by (destruct id; [by apply Hi|apply null_document]).
  assert (compact_document (default (str "null") res)) as [Dr Cr] by (destruct res; [by apply Hr|apply null_document]).
  exists (marshal_object [(str "jsonrpc", quote (str "2.0")); (str "id", default (str "null") id); (str "result", default (str "null") res)]). split.
  - unfold success_object. assert (raw_or_null id = Some (default (str "null") id)) as -> by (destruct id; [by apply Ci|done]).
    cbn [mbind option_bind raw_or_null]. by rewrite Cr.
  - destruct (reply_fields _ _ (str "result") ltac:(rewrite elem_of_cons; by left) Di Dr) as (fields & Hu & Hv & Hm & Hid & Hre & He).
    unfold decodeJSONRPCSuccessResponse, parseJSONRPCObject. rewrite Hu, Hv, Hm, Hid, Hre, He. cbn [mbind result_bind].
    rewrite version_read, !bool_decide_true by done. done.
Qed.

(** ** Decimal numbers *)

Lemma digit_of z : 0 <= z < 10 -> is_digit (z2b (48 + z)) = true /\ b2z (z2b (48 + z)) = 48 + z.
Proof. intros Hz. unfold is_digit. rewrite b2z_z2b_small by lia. split; [|done]. apply andb_true_iff. rewrite !Z.leb_le. lia. Qed.

Lemma dec_value_app acc b c : dec_value acc (b ++ c) = dec_value acc b ≫= fun z => dec_value z c.
Proof. revert acc. induction b as [|x b IH]; intros acc; [done|]. cbn. by destruct (is_digit x). Qed.

(** [fuel] digits are enough below [10 ^ fuel]. *)
Lemma dec_digits_value fuel z :
  0 <= z < 10 ^ Z.of_nat fuel -> (0 < fuel)%nat -> dec_value 0 (dec_digits fuel z) = Some z.
Proof.
  revert z. induction fuel as [|fuel IH]; intros z Hz Hf; [lia|]. cbn [dec_digits].
  pose proof (Z.mod_pos_bound z 10 ltac:(lia)) as Hm. destruct (digit_of (z mod 10) Hm) as [Hd Hv].
  rewrite dec_value_app. destruct (Z.ltb_spec z 10) as [Hl|Hl].
  - cbn [dec_value mbind option_bind]. rewrite Hd, Hv. f_equal. rewrite (Z.mod_small z 10) in Hm |- * by lia. lia.
  - rewrite IH; cbn [mbind option_bind dec_value].
    + rewrite Hd, Hv. f_equal. pose proof (Z.div_mod z 10). lia.
    + replace (Z.of_nat (S fuel)) with (Z.succ (Z.of_nat fuel)) in Hz by lia. rewrite Z.pow_succ_r in Hz by lia.
      split; [apply Z.div_pos; lia|]. apply Z.div_lt_upper_bound; lia.
    + destruct fuel; [cbn in Hz; lia|lia].
Qed.

(** The digits start with a digit, which is zero only alone. *)
Lemma dec_digits_shape fuel z :
  0 <= z < 10 ^ Z.of_nat fuel -> (0 < fuel)%nat ->
  exists c b, dec_digits fuel z = c :: b /\ is_digit c = true /\ skip_digits b = [] /\ (oct c x30 = true -> b = []).
Proof.
  revert z. induction fuel as [|fuel IH]; intros z Hz Hf; [lia|]. cbn [dec_digits].
  pose proof (Z.mod_pos_bound z 10 ltac:(lia)) as Hm. destruct (digit_of (z mod 10) Hm) as [Hd _].
  destruct (Z.ltb_spec z 10) as [Hl|Hl]; [cbn [app]; eauto 10|].
  assert (0 <= z / 10 < 10 ^ Z.of_nat fuel /\ 1 <= z / 10) as [Hz' H1].
  { replace (Z.of_nat (S fuel)) with (Z.succ (Z.of_nat fuel)) in Hz by lia. rewrite Z.pow_succ_r in Hz by lia.
    repeat split; [apply Z.div_pos; lia|apply Z.div_lt_upper_bound; lia|apply Z.div_le_lower_bound; lia]. }
  assert (0 < fuel)%nat as Hf' by (destruct fuel; [cbn in Hz'; lia|lia]).
  destruct (IH (z / 10) Hz' Hf') as (c & b & Heq & Hc & Hb & H0). rewrite Heq. cbn [app].
  eexists _, _. split; [done|]. split; [done|]. split.
  - clear - Hb Hd. induction b as [|x b IH]; cbn [app skip_digits] in *; [by rewrite Hd|]. destruct (is_digit x); [by apply IH|done].
  - intros Hc0. exfalso. rewrite (H0 Hc0) in Heq. pose proof (dec_digits_value fuel (z / 10) Hz' Hf') as Hval.
    rewrite Heq in Hval. cbn [dec_value] in Hval. rewrite Hc in Hval. injection Hval as Hval.
    apply oct_eq in Hc0 as ->. change (b2z x30) with 48 in Hval. lia.
Qed.

Lemma FormatInt_shape z : - 2 ^ 63 <= z < 2 ^ 63 ->
  exists n, 0 <= n < 10 ^ 20 /\ ((z < 0 /\ n = - z /\ FormatInt z = x2d :: dec_digits 20 n) \/ (0 <= z /\ n = z /\ FormatInt z = dec_digits 20 n)).
Proof.
  intros Hz. unfold FormatInt. destruct (Z.ltb_spec z 0); [exists (- z)|exists z]; (split; [lia|]); [left|right]; done.
Qed.

Lemma digit_not_minus c : is_digit c = true -> oct c x2d = false.
Proof. intros H. destruct (oct c x2d) eqn:E; [|done]. apply oct_eq in E as ->. by vm_compute in H. Qed.

Lemma ParseInt_FormatInt z : - 2 ^ 63 <= z < 2 ^ 63 -> ParseInt (FormatInt z) = Some z.
Proof.
  intros Hz. destruct (FormatInt_shape z Hz) as (n & Hn & [(Hs & -> & ->)|(Hs & -> & ->)]);
    pose proof (dec_digits_value 20 _ Hn ltac:(lia)) as Hv; unfold ParseInt.
  - rewrite oct_refl, Hv. cbn [mbind option_bind]. rewrite Z.opp_involutive.
    by rewrite (proj2 (Z.leb_le _ _)), (proj2 (Z.ltb_lt _ _)) by lia.
  - destruct (dec_digits_shape 20 z Hn ltac:(lia)) as (c & b & Heq & Hc & _). rewrite Heq in *. rewrite (digit_not_minus c Hc), Hv. cbn [mbind option_bind].
    by rewrite (proj2 (Z.leb_le _ _)), (proj2 (Z.ltb_lt _ _)) by lia.
Qed.

Lemma scan_digits_number c b :
  is_digit c = true -> skip_digits b = [] -> (oct c x30 = true -> b = []) -> scan_int (c :: b) = Some [].
Proof. intros Hc Hb H0. cbn. destruct (oct c x30); [by rewrite H0|]. by rewrite Hc, Hb. Qed.

Lemma digit_class c : is_digit c = true -> is_ws c = false /\ oct c x7b = false /\ oct c x5b = false /\ oct c x22 = false.
Proof. intros H. destruct c; try (by vm_compute in H); done. Qed.

Lemma digits_document d n : 0 <= n < 10 ^ 20 -> document_at d (dec_digits 20 n).
Proof.
  intros Hn. destruct (dec_digits_shape 20 n Hn ltac:(lia)) as (c & b & Heq & Hc & Hb & H0).
  destruct (digit_class c Hc) as (Hw & H1 & H2 & H3). pose proof (scan_digits_number c b Hc Hb H0) as Hi.
  rewrite Heq. split; [done|]. unfold weight. rewrite Nat.add_comm. cbn [Nat.add scan skip_ws].
  rewrite Hw, H1, H2, H3, Hc, orb_true_r. unfold scan_number. rewrite (digit_not_minus c Hc), Hi. done.
Qed.

Lemma FormatInt_number z : - 2 ^ 63 <= z < 2 ^ 63 ->
  exists c b, FormatInt z = c :: b /\ oct c x2d || is_digit c = true /\ scan_number (c :: b) = Some [].
Proof.
  intros Hz. destruct (FormatInt_shape z Hz) as (n & Hn & [(_ & -> & ->)|(_ & -> & ->)]);
    destruct (dec_digits_shape 20 _ Hn ltac:(lia)) as (c & b & Heq & Hc & Hb & H0); pose proof (scan_digits_number c b Hc Hb H0) as Hi; rewrite Heq.
  - eexists _, _. split; [done|]. split; [done|]. unfold scan_number. by rewrite oct_refl, Hi.
  - eexists _, _. split; [done|]. rewrite Hc, orb_true_r. split; [done|]. unfold scan_number. by rewrite (digit_not_minus c Hc), Hi.
Qed.

Lemma FormatInt_document d z : - 2 ^ 63 <= z < 2 ^ 63 -> document_at d (FormatInt z).
Proof.
  intros Hz. destruct (FormatInt_shape z Hz) as (n & Hn & [(_ & -> & ->)|(_ & -> & ->)]); [|by apply digits_document].
  destruct (dec_digits_shape 20 _ Hn ltac:(lia)) as (c & b & Heq & Hc & Hb & H0). pose proof (scan_digits_number c b Hc Hb H0) as Hi.
  rewrite Heq. split; [done|]. unfold weight. rewrite Nat.add_comm. cbn [Nat.add scan].
  change (skip_ws (x2d :: ?b)) with (x2d :: b). cbv iota. change (oct x2d x7b) with false. change (oct x2d x5b) with false.
  change (oct x2d x22) with false. change (oct x2d x2d) with true. cbn [orb]. cbv iota. unfold scan_number. rewrite oct_refl, Hi. done.
Qed.
