(* ===== verification/JsonAny.v ===== *)
(** * JSON values behind an interface

    What [json.Unmarshal] stores in an [any] and what [json.Marshal] writes for one: numbers
    are float64 (binary64 of the Standard Library's [SpecFloat]), read with correct rounding
    and written with the fewest digits that read back. *)

From S2P Require Import Prelude Errors Cbor CarriageHttp Json JsonLine CarriageJson.
From Stdlib Require Import Strings.Byte SpecFloat.
Open Scope Z_scope.

(** ** Arrays *)

Fixpoint elements (fuel : nat) (b : bytes) : option (list bytes) :=
  match fuel with
  | O => None
  | S fuel =>
      let v := skip_ws b in
      rest ← scan_value v;
      let raw := take (length v - length rest) v in
      match skip_ws rest with
      | d :: b' => if oct d x2c then cons raw <$> elements fuel b' else Some [raw]
      | [] => None
      end
  end.

(** The elements of an array, [None] for any other value. *)
Definition unmarshal_array (raw : bytes) : option (list bytes) :=
  if Valid raw then
    match skip_ws raw with
    | c :: b =>
        if oct c x5b then
          match skip_ws b with
          | d :: _ => if oct d x5d then Some [] else elements (length b) b
          | [] => None
          end
        else None
    | [] => None
    end
  else None.

Definition array_text (l : list bytes) : bytes := [x5b] ++ join [x2c] l ++ [x5d].

(** ** Numbers *)

Definition float64 : Type := spec_float.

Fixpoint digits_front (b : bytes) : bytes * bytes :=
  match b with
  | c :: b' => if is_digit c then let '(d, r) := digits_front b' in (c :: d, r) else ([], b)
  | [] => ([], [])
  end.

Definition digits_value (b : bytes) : Z := fold_left (fun z c => z * 10 + (b2z c - 48)) b 0.

(** The binary64 nearest to [m * 10 ^ e], ties to even. *)
Definition nearest (neg : bool) (m e : Z) : float64 :=
  match m with
  | Zpos p =>
      if 0 <=? e then binary_normalize 53 1024 (cond_Zopp neg (m * 10 ^ e)) 0 neg
      else SFdiv 53 1024 (S754_finite neg p 0) (S754_finite false (Z.to_pos (10 ^ (- e))) 0)
  | _ => S754_zero neg
  end.

(** [strconv.ParseFloat] on a JSON number; out of range is an error. *)
Definition ParseFloat (b : bytes) : option float64 :=
  let '(neg, b) := match b with c :: b' => if oct c x2d then (true, b') else (false, b) | [] => (false, b) end in
  let '(int, b) := digits_front b in
  let '(frac, b) := match b with c :: b' => if oct c x2e then digits_front b' else ([], b) | [] => ([], b) end in
  let exp :=
    match b with
    | c :: b' =>
        if oct c x65 || oct c x45 then
          match b' with
          | d :: b'' => if oct d x2d then - digits_value b'' else if oct d x2b then digits_value b'' else digits_value b'
          | [] => 0
          end
        else 0
    | [] => 0
    end in
  match nearest neg (digits_value (int ++ frac)) (exp - Z.of_nat (length frac)) with
  | S754_infinity _ => None
  | f => Some f
  end.

(** The decimal exponent [k] of a positive rational [n / d]: [10 ^ (k - 1) <= n / d < 10 ^ k]. *)
Fixpoint decimal_up (fuel : nat) (n d k : Z) : Z :=
  match fuel with
  | O => k
  | S fuel => if n <? d then k else decimal_up fuel n (d * 10) (k + 1)
  end.

Fixpoint decimal_down (fuel : nat) (n d k : Z) : Z :=
  match fuel with
  | O => k
  | S fuel => if n * 10 <? d then decimal_down fuel (n * 10) d (k - 1) else k
  end.

Definition decimal_exponent (n d : Z) : Z := if n <? d then decimal_down 400 n d 0 else decimal_up 400 n d 0.

(** [n / d] in units of [10 ^ k], rounded down. *)
Definition in_units (n d k : Z) : Z := if 0 <=? k then n / (d * 10 ^ k) else n * 10 ^ (- k) / d.

(** Of the two [i]-digit decimals around [n / d], the one that reads back as the float, the
    closer when both do. *)
Definition reads_as (f : float64) (m k : Z) : bool :=
  match nearest false m k, f with
  | S754_finite _ p e, S754_finite _ q e' => Pos.eqb p q && (e =? e')
  | _, _ => false
  end.

Definition closer_up (n d m k : Z) : bool :=
  if 0 <=? k then (2 * m + 1) * 10 ^ k * d <? 2 * n else (2 * m + 1) * d <? 2 * n * 10 ^ (- k).

Definition pick (f : float64) (n d k : Z) : option Z :=
  let lo := in_units n d k in
  let l := reads_as f lo k in
  let h := reads_as f (lo + 1) k in
  if l && h then Some (if closer_up n d lo k then lo + 1 else lo)
  else if l then Some lo else if h then Some (lo + 1) else None.

(** The shortest digits and the exponent of the last; 17 digits always read back. *)
Fixpoint shortest (fuel : nat) (f : float64) (n d k : Z) (i : Z) : Z * Z :=
  match fuel with
  | O => (in_units n d (k - i), k - i)
  | S fuel => match pick f n d (k - i) with Some m => (m, k - i) | None => shortest fuel f n d k (i + 1) end
  end.

Fixpoint drop_zeros (fuel : nat) (m k : Z) : Z * Z :=
  match fuel with
  | O => (m, k)
  | S fuel => if (m mod 10 =? 0) && (0 <? m) then drop_zeros fuel (m / 10) (k + 1) else (m, k)
  end.

Definition pad_zeros (n : Z) : bytes := replicate (Z.to_nat n) x30.

(** The digits [ds] with the point after the first [p] of them. *)
Definition fixed_text (ds : bytes) (p : Z) : bytes :=
  let n := blen ds in
  if p <=? 0 then str "0." ++ pad_zeros (- p) ++ ds
  else if n <=? p then ds ++ pad_zeros (p - n)
  else take (Z.to_nat p) ds ++ str "." ++ drop (Z.to_nat p) ds.

(** One digit before the point; the exponent has no leading zero, as encoding/json leaves it. *)
Definition scientific_text (ds : bytes) (p : Z) : bytes :=
  take 1 ds ++ (match drop 1 ds with [] => [] | r => str "." ++ r end) ++
  (if p - 1 <? 0 then str "e-" ++ FormatInt (1 - p) else str "e+" ++ FormatInt (p - 1)).

(** How encoding/json writes a float64; NaN and infinities are errors. *)
Definition FormatFloat (f : float64) : option bytes :=
  match f with
  | S754_zero neg => Some (if neg then str "-0" else str "0")
  | S754_finite neg p e =>
      let '(n, d) := if 0 <=? e then (Zpos p * 2 ^ e, 1) else (Zpos p, 2 ^ (- e)) in
      let '(m, k) := shortest 17 f n d (decimal_exponent n d) 1 in
      let '(m, k) := drop_zeros 20 m k in
      let ds := FormatInt m in
      let p := blen ds + k in
      Some ((if neg then str "-" else []) ++ (if (p <=? -6) || (21 <? p) then scientific_text ds p else fixed_text ds p))
  | _ => None
  end.

Example float_examples :
  map (fun s => ParseFloat s ≫= FormatFloat)
    [str "0.1"; str "-0"; str "1e21"; str "100000000000000000000"; str "0.000001"; str "1E-7"; str "1.50"; str "5.684341886080802e-14"; str "9007199254740993"; str "1e309"]
  = [Some (str "0.1"); Some (str "-0"); Some (str "1e+21"); Some (str "100000000000000000000"); Some (str "0.000001"); Some (str "1e-7"); Some (str "1.5");
     Some (str "5.684341886080802e-14"); Some (str "9007199254740992"); None].
Proof. by vm_compute. Qed.

(** ** Runes *)

(** The code point of a valid sequence. *)
Definition rune_value (q : bytes) : Z :=
  match q with
  | [a] => b2z a
  | [a; b] => (b2z a - 192) * 64 + (b2z b - 128)
  | [a; b; c] => (b2z a - 224) * 4096 + (b2z b - 128) * 64 + (b2z c - 128)
  | [a; b; c; d] => (b2z a - 240) * 262144 + (b2z b - 128) * 4096 + (b2z c - 128) * 64 + (b2z d - 128)
  | _ => 65533
  end.

(** [for _, r := range s]; an octet that starts no valid sequence is [utf8.RuneError]. *)
Fixpoint runes (fuel : nat) (s : bytes) : list Z :=
  match fuel, s with
  | S fuel, _ :: s' =>
      match utf8_size s with
      | Some n => rune_value (take n s) :: runes fuel (drop n s)
      | None => 65533 :: runes fuel s'
      end
  | _, _ => []
  end.

(** ** Values *)

Definition is_null (raw : bytes) : bool := bool_decide (raw = str "null").
Definition bool_text (b : bool) : bytes := if b then str "true" else str "false".
Definition unmarshal_bool (raw : bytes) : option bool :=
  if bool_decide (raw = str "true") then Some true else if bool_decide (raw = str "false") then Some false else None.

Fixpoint map_set {A} (m : list (bytes * A)) (k : bytes) (v : A) : list (bytes * A) :=
  match m with
  | [] => [(k, v)]
  | e :: m => if bool_decide (e.1 = k) then (k, v) :: m else e :: map_set m k v
  end.

(** The dynamic types an [any] of this code holds; an [int] and a [map[string]string] are
    only put there by Go code, never by [json.Unmarshal]. *)
#[local] Unset Elimination Schemes.
Inductive dyn : Type :=
| DNil
| DBool (b : bool)
| DNum (f : float64)
| DInt (z : Z)
| DStr (s : bytes)
| DArr (l : list dyn)
| DObj (m : list (bytes * dyn))
| DText (m : list (bytes * bytes)).
#[local] Set Elimination Schemes.

Lemma dyn_ind (P : dyn -> Prop) :
  P DNil -> (forall b, P (DBool b)) -> (forall f, P (DNum f)) -> (forall z, P (DInt z)) -> (forall s, P (DStr s)) -> (forall l, Forall P l -> P (DArr l)) ->
  (forall m, Forall (fun e => P e.2) m -> P (DObj m)) -> (forall m, P (DText m)) -> forall v, P v.
Proof.
  intros Hn Hb Hf Hz Hs Hl Hm Ht. refine (fix IH v := match v with
    | DNil => Hn | DBool b => Hb b | DNum f => Hf f | DInt z => Hz z | DStr s => Hs s | DText m => Ht m
    | DArr l => Hl l ((fix go l : Forall P l := match l with [] => Forall_nil_2 _ | x :: l => Forall_cons_2 _ _ _ (IH x) (go l) end) l)
    | DObj m => Hm m ((fix go m : Forall (fun e => P e.2) m :=
        match m with [] => Forall_nil_2 _ | e :: m => Forall_cons_2 _ _ _ (IH e.2) (go m) end) m)
    end).
Qed.

(** [m[k]]. *)
Definition lookup_member (m : list (bytes * dyn)) (k : bytes) : option dyn :=
  snd <$> find (fun e => bool_decide (e.1 = k)) m.

Section store_dyns.
Context (dec : bytes -> option dyn).

(** A member replaces the value its key had. *)
Definition store_dyns (ms : list (bytes * bytes)) (m : list (bytes * dyn)) : option (list (bytes * dyn)) :=
  fold_left (fun acc e => m ← acc; v ← dec e.2; Some (map_set m e.1 v)) ms (Some m).
End store_dyns.

(** Storing the value [raw] in an [any]; every value inside is shorter, so its length is fuel. *)
Fixpoint decode_dyn (fuel : nat) (raw : bytes) : option dyn :=
  match fuel, raw with
  | S fuel, c :: _ =>
      if oct c x7b then (ms ← unmarshal_object raw; DObj <$> store_dyns (decode_dyn fuel) ms [])
      else if oct c x5b then (els ← unmarshal_array raw; DArr <$> mapM (decode_dyn fuel) els)
      else if oct c x22 then DStr <$> unmarshal_string raw
      else if is_null raw then Some DNil
      else match unmarshal_bool raw with Some b => Some (DBool b) | None => DNum <$> ParseFloat raw end
  | _, _ => None
  end.

Section marshal_dyns.
Context (enc : dyn -> option bytes).

Fixpoint marshal_dyns (m : list (bytes * dyn)) : option (list (bytes * bytes)) :=
  match m with
  | [] => Some []
  | (k, v) :: m => b ← enc v; bs ← marshal_dyns m; Some ((k, b) :: bs)
  end.

Fixpoint marshal_items (l : list dyn) : option (list bytes) :=
  match l with
  | [] => Some []
  | v :: l => b ← enc v; bs ← marshal_items l; Some (b :: bs)
  end.
End marshal_dyns.

Fixpoint marshal_dyn (v : dyn) : option bytes :=
  match v with
  | DNil => Some (str "null")
  | DBool b => Some (bool_text b)
  | DNum f => FormatFloat f
  | DInt z => Some (FormatInt z)
  | DStr s => Some (quote s)
  | DArr l => array_text <$> marshal_items marshal_dyn l
  | DObj m => marshal_object <$> marshal_dyns marshal_dyn m
  | DText m => Some (marshal_object (map (fun e => (e.1, quote e.2)) m))
  end.

Definition reread (b : bytes) : option bytes := decode_dyn (length b) b ≫= marshal_dyn.

Example dyn_example :
  reread (json "{'b':[1.0,true,null,{}],'a':{'x':'<'},'b':[-1e2,[]]}") = Some (json "{'a':{'x':'\u003c'},'b':[-100,[]]}") /\
  reread (json "[1e400]") = None.
Proof. by vm_compute. Qed.

(** ** The octets of a number *)

Definition number_octet (c : byte) : bool := is_digit c || oct c x2d.

Lemma FormatInt_octets z : Forall (fun c => number_octet c = true) (FormatInt z).
Proof.
  assert (Hd : forall f n, Forall (fun c => number_octet c = true) (dec_digits f n)).
  { induction f as [|f IH]; intros n; [constructor|]. cbn [dec_digits]. apply Forall_app_2; [destruct (_ <? _); [constructor|apply IH]|].
    apply Forall_singleton. destruct (digit_of (n mod 10) (Z.mod_pos_bound n 10 ltac:(lia))) as [H _]. unfold number_octet. by rewrite H. }
  unfold FormatInt. destruct (z <? 0); [constructor; [done|]|]; apply Hd.
Qed.

Lemma number_prefix d1 d2 r1 r2 :
  Forall (fun c => number_octet c = true) d1 -> Forall (fun c => number_octet c = true) d2 ->
  (forall c r, r1 = c :: r -> number_octet c = false) -> (forall c r, r2 = c :: r -> number_octet c = false) ->
  d1 ++ r1 = d2 ++ r2 -> d1 = d2 /\ r1 = r2.
Proof.
  intros H1 H2 Hr1 Hr2. revert d2 H2. induction H1 as [|c d1 Hc H1 IH]; intros d2 H2 E; destruct H2 as [|c2 d2 Hc2 H2]; cbn [app] in E.
  - done.
  - subst r1. by rewrite (Hr1 c2 _ eq_refl) in Hc2.
  - subst r2. by rewrite (Hr2 c _ eq_refl) in Hc.
  - injection E as -> E. destruct (IH d2 H2 E) as [-> ->]. done.
Qed.

Lemma FormatInt_inj z1 z2 : - 2 ^ 63 <= z1 < 2 ^ 63 -> - 2 ^ 63 <= z2 < 2 ^ 63 -> FormatInt z1 = FormatInt z2 -> z1 = z2.
Proof. intros H1 H2 E. pose proof (ParseInt_FormatInt z1 H1) as P. rewrite E, (ParseInt_FormatInt z2 H2) in P. by injection P. Qed.

(** ** Integers as JSON numbers

    A Go [int] is written as decimal digits and read back behind an [any] as a float64.  The
    number read is the nearest float64, never an error; below [2 ^ 53] it is the integer. *)

(** The float64 nearest to an integer. *)
Definition int_float (z : Z) : float64 := nearest (z <? 0) (Z.abs z) 0.

(** The integer part, towards zero, of a finite float64. *)
Definition truncate (f : float64) : option Z :=
  match f with
  | S754_zero _ => Some 0
  | S754_finite neg m e => Some (cond_Zopp neg (if 0 <=? e then Zpos m * 2 ^ e else Zpos m / 2 ^ (- e)))
  | _ => None
  end.

#[global] Instance spec_float_eq_dec : EqDecision float64.
Proof. solve_decision. Defined.

(** ** The digits of an integer *)

Lemma digits_front_all b : Forall (fun c => is_digit c = true) b -> digits_front b = (b, []).
Proof. induction 1 as [|c b Hc _ IH]; [done|]. cbn. by rewrite Hc, IH. Qed.

Lemma dec_digits_digits fuel z : Forall (fun c => is_digit c = true) (dec_digits fuel z).
Proof.
  revert z. induction fuel as [|f IH]; intros z; [constructor|]. cbn [dec_digits]. apply Forall_app_2; [destruct (_ <? _); [constructor|apply IH]|].
  apply Forall_singleton. apply digit_of, Z.mod_pos_bound. lia.
Qed.

Lemma digits_value_dec acc b z : dec_value acc b = Some z -> fold_left (fun z c => z * 10 + (b2z c - 48)) b acc = z.
Proof. revert acc. induction b as [|c b IH]; intros acc; [by intros [= ->]|]. cbn. destruct (is_digit c); [apply IH|done]. Qed.

(** ** Rounding an integer *)

Lemma digits2_size p : digits2_pos p = Pos.size p.
Proof. done. Qed.

Lemma size_bound p n : Zpos p < 2 ^ n -> 0 <= n -> Zpos (Pos.size p) <= n.
Proof.
  intros Hp Hn. pose proof (Pos.size_le p) as Hs. destruct (Z.le_gt_cases (Zpos (Pos.size p)) n) as [|Hgt]; [done|exfalso].
  assert (2 ^ (n + 1) <= Zpos (2 ^ Pos.size p)) as H1 by (rewrite Pos2Z.inj_pow; apply Z.pow_le_mono_r; lia).
  rewrite Z.pow_add_r in H1 by lia. change (2 ^ 1) with 2 in H1. change (p~0)%positive with (2 * p)%positive in Hs. lia.
Qed.

Lemma shift_value p d : Zpos (Pos.iter xO p d) = Zpos p * 2 ^ Zpos d.
Proof.
  induction d as [|d IH] using Pos.peano_ind; [cbn; lia|]. rewrite Pos.iter_succ, Pos2Z.inj_succ, Z.pow_succ_r by lia. rewrite (Pos2Z.inj_xO (Pos.iter _ _ _)), IH. lia.
Qed.

Lemma shift_size p d : Zpos (Pos.size (Pos.iter xO p d)) = Zpos (Pos.size p) + Zpos d.
Proof.
  revert p. induction d as [|d IH] using Pos.peano_ind; intros p; [cbn; lia|]. rewrite Pos.iter_succ. cbn [Pos.size]. rewrite Pos2Z.inj_succ, IH. lia.
Qed.

Lemma shr_1_smaller r : 0 <= shr_m r -> 0 <= shr_m (shr_1 r) <= shr_m r.
Proof. destruct r as [[|[p|p|]|p] a b]; cbn; lia. Qed.

Lemma iter_shr_smaller n r : 0 <= shr_m r -> 0 <= shr_m (iter_pos shr_1 n r) <= shr_m r.
Proof.
  revert r. induction n as [n IH|n IH|]; intros r Hr; cbn [iter_pos].
  - pose proof (shr_1_smaller r Hr). pose proof (IH (shr_1 r) ltac:(lia)). pose proof (IH (iter_pos shr_1 n (shr_1 r)) ltac:(lia)). lia.
  - pose proof (IH r Hr). pose proof (IH (iter_pos shr_1 n r) ltac:(lia)). lia.
  - by apply shr_1_smaller.
Qed.

Lemma shr_smaller r e n : 0 <= shr_m r ->
  0 <= shr_m (shr r e n).1 <= shr_m r /\ (shr r e n).2 = Z.max e (e + n).
Proof. intros Hr. destruct n as [|p|p]; cbn [shr fst snd]; [lia| |lia]. pose proof (iter_shr_smaller p r Hr). lia. Qed.

Lemma shr_fexp_small m e l n : 0 <= m < 2 ^ n -> 0 <= n ->
  0 <= shr_m (shr_fexp 53 1024 m e l).1 <= m /\ (shr_fexp 53 1024 m e l).2 <= Z.max (Z.max e (n + e - 53)) (-1074).
Proof.
  intros Hm Hn. unfold shr_fexp. set (k := fexp 53 1024 (Zdigits2 m + e) - e).
  assert (shr_m (shr_record_of_loc m l) = m) as Hr by (by destruct l as [|[]]).
  destruct (shr_smaller (shr_record_of_loc m l) e k ltac:(lia)) as [H1 H2]. rewrite Hr in H1. split; [done|]. rewrite H2. subst k.
  assert (Zdigits2 m <= n) as Hd.
  { destruct m as [|p|p]; [done| |lia]. cbn [Zdigits2]. rewrite digits2_size. apply size_bound; lia. }
  unfold fexp, emin. lia.
Qed.

Lemma round_aux_finite s p e : Zpos p < 2 ^ 64 -> e <= 0 -> exists f, truncate f <> None /\ binary_round_aux 53 1024 s (Zpos p) e loc_Exact = f.
Proof.
  intros Hp He. unfold binary_round_aux. pose proof (shr_fexp_small (Zpos p) e loc_Exact 64 ltac:(lia) ltac:(lia)) as [H1 H2].
  destruct (shr_fexp 53 1024 (Zpos p) e loc_Exact) as [r e1]. cbn [fst snd] in *. set (m := round_nearest_even _ _).
  assert (0 <= m <= shr_m r + 1) as Hm by (subst m; destruct (loc_of_shr_record r) as [|[]]; cbn [round_nearest_even]; try destruct (Z.even _); lia).
  pose proof (shr_fexp_small m e1 loc_Exact 65 ltac:(lia) ltac:(lia)) as [H3 H4].
  destruct (shr_fexp 53 1024 m e1 loc_Exact) as [r2 e2]. cbn [fst snd] in *. eexists. split; [|reflexivity].
  destruct (shr_m r2) as [|q|q] eqn:E; [done| |lia]. rewrite (proj2 (Z.leb_le _ _)) by lia. done.
Qed.

Lemma int_round_finite s p : Zpos p < 2 ^ 64 -> truncate (binary_round 53 1024 s p 0) <> None.
Proof.
  intros Hp. unfold binary_round. pose proof (size_bound p 64 Hp ltac:(lia)) as Hs. rewrite digits2_size. rewrite Z.add_0_r.
  unfold fexp, emin, shl_align. rewrite Z.sub_0_r. destruct (Z.max _ _) as [|d|d] eqn:E.
  - by destruct (round_aux_finite s p 0 Hp ltac:(lia)) as (f & Hf & ->).
  - by destruct (round_aux_finite s p 0 Hp ltac:(lia)) as (f & Hf & ->).
  - assert (Zpos (Pos.iter xO p d) < 2 ^ 64) as Hq.
    { rewrite shift_value. pose proof (Pos.size_gt p) as Hg. assert (Zpos p < 2 ^ Zpos (Pos.size p)) as Hp2 by (rewrite <- Pos2Z.inj_pow; lia).
      apply (Z.lt_le_trans _ (2 ^ Zpos (Pos.size p) * 2 ^ Zpos d)); [apply Z.mul_lt_mono_pos_r; lia|].
      rewrite <- Z.pow_add_r by lia. apply Z.pow_le_mono_r; lia. }
    by destruct (round_aux_finite s _ (Zneg d) Hq ltac:(lia)) as (f & Hf & ->).
Qed.

(** [strconv.ParseFloat] of an [int] gives the nearest float64. *)
Lemma ParseFloat_FormatInt z : - 2 ^ 63 <= z < 2 ^ 63 -> ParseFloat (FormatInt z) = Some (int_float z).
Proof.
  intros Hz. assert (forall neg n, 0 <= n < 2 ^ 64 -> truncate (nearest neg n 0) <> None) as Hfin.
  { intros neg n Hn. destruct n as [|p|p]; [by destruct neg| |lia]. cbn [nearest]. change (0 <=? 0) with true. cbv iota.
    rewrite Z.pow_0_r, Z.mul_1_r. destruct neg; apply int_round_finite; lia. }
  destruct (FormatInt_shape z Hz) as (n & Hn & [(Hs & -> & ->)|(Hs & -> & ->)]).
  - pose proof (digits_value_dec _ _ _ (dec_digits_value 20 _ Hn ltac:(lia))) as Hv. unfold ParseFloat.
    rewrite oct_refl, (digits_front_all _ (dec_digits_digits 20 (- z))). unfold digits_value. rewrite app_nil_r, Hv. cbn [length].
    change (0 - Z.of_nat 0) with 0. unfold int_float. rewrite (proj2 (Z.ltb_lt _ _)), Z.abs_neq by lia.
    specialize (Hfin true (- z) ltac:(lia)). by destruct (nearest true (- z) 0).
  - pose proof (digits_value_dec _ _ _ (dec_digits_value 20 _ Hn ltac:(lia))) as Hv.
    destruct (dec_digits_shape 20 _ Hn ltac:(lia)) as (c & b & Heq & Hc & _). unfold ParseFloat.
    rewrite Heq, (digit_not_minus c Hc), <- Heq, (digits_front_all _ (dec_digits_digits 20 z)). unfold digits_value. rewrite app_nil_r, Hv. cbn [length].
    change (0 - Z.of_nat 0) with 0. unfold int_float. rewrite (proj2 (Z.ltb_ge _ _)), Z.abs_eq by lia.
    specialize (Hfin false z ltac:(lia)). by destruct (nearest false z 0).
Qed.

(** ** Integers below [2 ^ 53] are exact *)

Lemma shr_fexp_exact p e : Zpos (Pos.size p) = 53 -> -1074 <= e -> shr_fexp 53 1024 (Zpos p) e loc_Exact = (Build_shr_record (Zpos p) false false, e).
Proof.
  intros Hp He. unfold shr_fexp, fexp, emin. cbn [Zdigits2 shr_record_of_loc]. rewrite digits2_size, Hp.
  replace (Z.max (53 + e - 53) (3 - 1024 - 53) - e) with 0 by lia. done.
Qed.

Lemma round_aux_exact s p e : Zpos (Pos.size p) = 53 -> -1074 <= e <= 971 -> binary_round_aux 53 1024 s (Zpos p) e loc_Exact = S754_finite s p e.
Proof.
  intros Hp He. unfold binary_round_aux. rewrite shr_fexp_exact by lia. cbn [loc_of_shr_record shr_m round_nearest_even].
  rewrite shr_fexp_exact by lia. cbn [shr_m]. by rewrite (proj2 (Z.leb_le _ _)) by lia.
Qed.

Lemma truncate_round s p : Zpos p < 2 ^ 53 -> truncate (binary_round 53 1024 s p 0) = Some (cond_Zopp s (Zpos p)).
Proof.
  intros Hp. pose proof (size_bound p 53 Hp ltac:(lia)) as Hs. unfold binary_round. rewrite digits2_size, Z.add_0_r.
  unfold fexp, emin, shl_align. rewrite Z.sub_0_r. rewrite Z.max_l by lia. destruct (Zpos (Pos.size p) - 53) as [|d|d] eqn:E; [| lia|].
  - rewrite round_aux_exact by lia. cbn [truncate]. change (0 <=? 0) with true. cbv iota. by rewrite Z.pow_0_r, Z.mul_1_r.
  - rewrite round_aux_exact by (rewrite ?shift_size; lia). cbn [truncate]. rewrite (proj2 (Z.leb_gt _ _)) by lia.
    rewrite shift_value. change (- Zneg d) with (Zpos d). rewrite Z.div_mul by lia. done.
Qed.

Lemma truncate_int_float z : - 2 ^ 53 < z < 2 ^ 53 -> truncate (int_float z) = Some z.
Proof.
  intros Hz. unfold int_float, nearest. destruct (Z.abs z) as [|p|p] eqn:E; [by replace z with 0 by lia| |lia].
  change (0 <=? 0) with true. cbv iota. rewrite Z.pow_0_r, Z.mul_1_r. destruct (Z.ltb_spec z 0).
  - change (binary_normalize 53 1024 (cond_Zopp true (Zpos p)) 0 true) with (binary_round 53 1024 true p 0). rewrite truncate_round by lia. cbn [cond_Zopp]. f_equal. lia.
  - change (binary_normalize 53 1024 (cond_Zopp false (Zpos p)) 0 false) with (binary_round 53 1024 false p 0). rewrite truncate_round by lia. cbn [cond_Zopp]. f_equal. lia.
Qed.

Lemma int_float_inj a b : - 2 ^ 53 < a < 2 ^ 53 -> - 2 ^ 53 < b < 2 ^ 53 -> int_float a = int_float b -> a = b.
Proof. intros Ha Hb E. apply (f_equal truncate) in E. rewrite !truncate_int_float in E by lia. by injection E. Qed.
