(* ===== verification/JsonRoundtrip.v ===== *)
(** * Marshalled values read back

    For every Go type of [JsonTypes], what [json.Marshal] writes for a well-formed value is
    one compact document, and unmarshalling it into a zero value gives the value back. *)

From S2P Require Import Prelude Errors Cbor CarriageHttp Json JsonLine CarriageJson JsonAny JsonTypes.
From Stdlib Require Import Strings.Byte.
Open Scope Z_scope.

(** ** Compact text stays as it is *)

Lemma stays_app p1 q1 p2 q2 : stays p1 q1 -> stays p2 q2 -> stays (p1 ++ p2) (q1 ++ q2).
Proof.
  intros [F1 H1] [F2 H2]. split; [by apply newline_free_app|]. intros t. by rewrite <- !app_assoc, H1, H2.
Qed.

Lemma stays_nil : stays [] [].
Proof. split; [apply newline_free_nil|done]. Qed.

Lemma hex_char_hex z : (if hex_value (hex_char z) then true else false) = true.
Proof.
  unfold hex_char. destruct (nth_in_or_default (Z.to_nat z) (str "0123456789abcdef") x30) as [H|H]; [|by rewrite H].
  revert H. generalize (nth (Z.to_nat z) (str "0123456789abcdef") x30). intros h H. cbn in H.
  repeat (destruct H as [<-|H]; [by vm_compute|]). done.
Qed.

Lemma stays_u_escape r : stays (u_escape r) (u_escape r).
Proof.
  unfold u_escape. apply (stays_app [x5c; x75] [x5c; x75]); [by apply stays_escape|].
  repeat (apply (stays_app [hex_char _] [hex_char _]); [apply stays_hex, hex_char_hex|]). apply stays_nil.
Qed.

Lemma stays_quote_octet c : b2z c < 128 -> stays (quote_octet c) (quote_octet c).
Proof.
  intros Hc. unfold quote_octet. destruct (oct c x22 || oct c x5c) eqn:E1.
  { apply stays_escape. intros ->. by vm_compute in E1. }
  apply orb_false_iff in E1 as [Eq Es]. destruct (oct c x08); [by apply (stays_escape x62)|].
  destruct (oct c x0c); [by apply (stays_escape x66)|]. destruct (oct c x0a); [by apply (stays_escape x6e)|].
  destruct (oct c x0d); [by apply (stays_escape x72)|]. destruct (oct c x09); [by apply (stays_escape x74)|]. destruct ((b2z c <? 32) || _) eqn:E2; [apply stays_u_escape|].
  apply orb_false_iff in E2 as [E3 E4]. apply Z.ltb_ge in E3.
  assert (oct c xe2 = false) as E5 by (destruct (oct c xe2) eqn:E; [apply oct_eq in E as ->; by vm_compute in Hc|done]).
  pose proof (stays_octet c Eq Es E5 ltac:(intros ->; by apply E3)) as H. by rewrite E4 in H.
Qed.

(** An octet above 127 that cannot start a line separator. *)
Lemma stays_high c : 128 <= b2z c -> oct c xe2 = false -> stays [c] [c].
Proof.
  intros Hc He. assert (oct c x22 = false /\ oct c x5c = false /\ c <> x0a /\ existsb (oct c) [x3c; x3e; x26] = false) as (E1 & E2 & E3 & E4).
  { destruct c; try (by vm_compute in Hc); by vm_compute. }
  pose proof (stays_octet c E1 E2 He E3) as H. by rewrite E4 in H.
Qed.

Lemma cont_not_lead c : cont c = true -> oct c xe2 = false.
Proof. intros H. destruct (oct c xe2) eqn:E; [apply oct_eq in E as ->; by vm_compute in H|done]. Qed.

Lemma stays_cont c : cont c = true -> stays [c] [c].
Proof. intros H. apply stays_high; [by apply cont_high|by apply cont_not_lead]. Qed.

Lemma stays_three d e : cont d = true -> cont e = true -> line_separator [xe2; d; e] = None -> stays [xe2; d; e] [xe2; d; e].
Proof.
  intros Hd He Hl. destruct (stays_app [d] [d] [e] [e] (stays_cont d Hd) (stays_cont e He)) as [F H]. cbn [app] in F, H.
  split; [by apply newline_free_cons|]. intros t. cbn [app compact_body]. change (existsb (oct xe2) [x3c; x3e; x26]) with false. cbv iota.
  change (take 3 (xe2 :: d :: e :: t)) with [xe2; d; e]. rewrite Hl. change (oct xe2 x5c) with false. change (oct xe2 x22) with false.
  cbn [negb]. f_equal. apply H.
Qed.

Lemma lead_three s n : utf8_size (xe2 :: s) = Some n -> n = 3%nat.
Proof.
  unfold utf8_size. change (b2z xe2) with 226. cbn [Z.ltb Z.leb Z.compare Pos.compare Pos.compare_cont andb].
  destruct s as [|d [|e s]]; try done. destruct (_ && _); [|done]. by intros [= <-].
Qed.

Lemma stays_quote_seq c s n : utf8_size (c :: s) = Some n -> 128 <= b2z c ->
  stays (quote_seq (take n (c :: s))) (quote_seq (take n (c :: s))).
Proof.
  intros H Hc. unfold quote_seq. destruct (line_separator (take n (c :: s))) as [r|] eqn:Hl; [apply stays_u_escape|].
  destruct (oct c xe2) eqn:Ec.
  - apply oct_eq in Ec as ->. pose proof (lead_three _ _ H) as ->.
    destruct (utf8_size_shape _ _ _ H) as [[? _]|[(_ & d & t & _ & _ & ?)|[(_ & d & e & t & -> & Hd & He & _)|(_ & d & e & f & t & _ & _ & _ & _ & ?)]]]; try done.
    by apply stays_three.
  - pose proof (stays_high c Hc Ec) as S1.
    destruct (utf8_size_shape _ _ _ H) as [[_ ?]|[(_ & d & t & -> & Hd & ->)|[(_ & d & e & t & -> & Hd & He & ->)|(_ & d & e & f & t & -> & Hd & He & Hf & ->)]]]; [lia|..];
      cbn [take]; rewrite ?take_0; apply (stays_app [c] [c] _ _ S1); repeat (first [by apply stays_cont|apply (stays_app [_] [_]); [by apply stays_cont|]]).
Qed.

Lemma stays_quote_body f s : stays (quote_body f s) (quote_body f s).
Proof.
  revert s. induction f as [|f IH]; intros s; [apply stays_nil|]. destruct s as [|c s]; [apply stays_nil|]. cbn [quote_body].
  destruct (Z.ltb_spec (b2z c) 128) as [Hc|Hc]; [apply stays_app; [by apply stays_quote_octet|apply IH]|].
  destruct (utf8_size (c :: s)) as [n|] eqn:E; [|apply stays_app; [apply stays_u_escape|apply IH]].
  apply (stays_app _ _ _ _ (stays_quote_seq c s n E Hc)). apply IH.
Qed.

Lemma settled_app a b : settled a -> settled b -> settled (a ++ b).
Proof. intros Ha Hb t. by rewrite <- !app_assoc, Ha, Hb. Qed.

Lemma settled_nil : settled [].
Proof. done. Qed.

Lemma settled_octet c : oct c x22 = false -> oct c xe2 = false -> is_ws c = false -> existsb (oct c) [x3c; x3e; x26] = false -> settled [c].
Proof. intros Hq He Hw Hx t. cbn [app compact_body]. by rewrite Hx, (no_separator c t He), Hw, Hq. Qed.

Ltac mark := by apply settled_octet.

Lemma settled_quote s : settled (quote s).
Proof.
  intros t. unfold quote. destruct (stays_quote_body (length s) s) as [_ H]. rewrite <- !app_assoc. cbn [app compact_body].
  change (existsb (oct x22) [x3c; x3e; x26]) with false. cbv iota. rewrite (no_separator x22 _ eq_refl). change (is_ws x22) with false.
  change (oct x22 x22) with true. cbv iota. rewrite H. cbn [compact_body]. change (existsb (oct x22) [x3c; x3e; x26]) with false. cbv iota.
  rewrite (no_separator x22 t eq_refl). done.
Qed.

Lemma settled_digits f z : settled (dec_digits f z).
Proof.
  revert z. induction f as [|f IH]; intros z; [apply settled_nil|]. cbn [dec_digits]. apply settled_app; [destruct (_ <? _); [apply settled_nil|apply IH]|].
  destruct (digit_of (z mod 10) (Z.mod_pos_bound z 10 ltac:(lia))) as [Hd _]. revert Hd. generalize (z2b (48 + z mod 10)).
  intros c Hc. apply settled_octet; destruct c; try (by vm_compute in Hc); done.
Qed.

Lemma settled_FormatInt z : settled (FormatInt z).
Proof. unfold FormatInt. destruct (z <? 0); [|apply settled_digits]. apply (settled_app [x2d]); [mark|apply settled_digits]. Qed.

Lemma settled_join l : Forall settled l -> settled (join [x2c] l).
Proof.
  intros H. induction H as [|b l Hb Hl IH]; [apply settled_nil|]. cbn [join]. destruct l as [|c l]; [done|].
  apply settled_app; [done|]. apply (settled_app [x2c]); [mark|done].
Qed.

Lemma settled_array l : Forall settled l -> settled (array_text l).
Proof. intros H. unfold array_text. apply settled_app; [mark|]. apply settled_app; [by apply settled_join|mark]. Qed.

Lemma settled_struct ms : Forall (fun e => settled e.2) ms -> settled (struct_text ms).
Proof.
  intros H. unfold struct_text. apply settled_app; [mark|]. apply settled_app; [|mark]. apply settled_join, Forall_map.
  eapply Forall_impl; [exact H|]. intros [k v] Hv. cbn [fst snd] in *. apply settled_app; [apply settled_quote|]. apply (settled_app [x3a]); [mark|done].
Qed.

(** A settled document is its own compact form. *)
Lemma settled_compact v : document_at 0 v -> settled v -> compact v = Some v.
Proof.
  intros Hd Hs. unfold compact. rewrite document_Valid by done. specialize (Hs []). rewrite !app_nil_r in Hs. by rewrite Hs.
Qed.

(** ** Documents at a depth *)

Lemma document_mono d d' v : document_at d v -> d' <= d -> document_at d' v.
Proof.
  intros Hv Hd. split; [by apply Hv|]. pose proof (document_scan d v [] d' (weight MValue v) Hv eq_refl Hd) as H.
  rewrite app_nil_r in H. by apply H.
Qed.

(** The elements of an array and its closing bracket. *)
Fixpoint element_text (l : list bytes) (rest : bytes) : bytes :=
  match l with
  | [] => x5d :: rest
  | [v] => v ++ x5d :: rest
  | v :: l => v ++ x2c :: element_text l rest
  end.

Definition after_element (l : list bytes) (rest : bytes) : bytes :=
  match l with [] => x5d :: rest | _ => x2c :: element_text l rest end.

Lemma element_text_cons v l rest : element_text (v :: l) rest = v ++ after_element l rest.
Proof. by destruct l. Qed.

Lemma after_element_stop l rest : numstop (after_element l rest) = true.
Proof. by destruct l. Qed.

Lemma join_elements l rest : join [x2c] l ++ x5d :: rest = element_text l rest.
Proof.
  induction l as [|v l IH]; [done|]. destruct l as [|w l]; [done|]. cbn [join] in IH |- *. cbn [element_text] in IH |- *.
  rewrite <- IH, <- !app_assoc. done.
Qed.

Lemma scan_elements d l rest f :
  l <> [] -> Forall (document_at d) l -> (weight MElems (element_text l rest) <= f)%nat -> scan f d MElems (element_text l rest) = Some rest.
Proof.
  intros Hne Hl. revert f. induction Hl as [|v l Hv Hl IH]; intros f Hf; [done|]. rewrite element_text_cons in *.
  destruct f as [|f]; [unfold weight in Hf; lia|]. cbn [scan].
  rewrite (document_scan d v _ d f Hv (after_element_stop _ _)) by (unfold weight in *; lia). cbn [mbind option_bind].
  unfold weight in Hf. rewrite length_app in Hf.
  destruct l as [|w l]; [done|]. cbn [after_element length] in *. change (skip_ws (x2c :: ?b)) with (x2c :: b). cbv iota.
  change (oct x2c x2c) with true. cbv iota. apply IH; [done|]. unfold weight. lia.
Qed.

Lemma read_elements d l rest f :
  0 <= d -> l <> [] -> Forall (document_at d) l -> (length (element_text l rest) <= f)%nat -> elements f (element_text l rest) = Some l.
Proof.
  intros Hd Hne Hl. revert f. induction Hl as [|v l Hv Hl IH]; intros f Hf; [done|]. rewrite element_text_cons in *.
  destruct f as [|f]; [destruct v; [by destruct Hv|cbn in Hf; lia]|]. cbn [elements]. rewrite (document_front d v _ Hv). cbv zeta.
  unfold scan_value. rewrite (document_scan d v _ 0 _ Hv (after_element_stop _ _)) by lia. cbn [mbind option_bind].
  rewrite length_app. replace (length v + _ - _)%nat with (length v) by lia. rewrite take_app_length. rewrite length_app in Hf.
  destruct l as [|w l]; [done|]. cbn [after_element length] in *. change (skip_ws (x2c :: ?b)) with (x2c :: b). cbv iota.
  change (oct x2c x2c) with true. cbv iota. rewrite IH; [done|done|]. lia.
Qed.

Lemma element_front l : Forall (document_at 0) l -> l <> [] -> exists c b, element_text l [] = c :: b /\ is_ws c = false /\ c <> x5d.
Proof.
  intros H Hne. destruct H as [|v l [Hw Hs] Hl]; [done|]. rewrite element_text_cons. destruct v as [|c v]; [done|].
  exists c, (v ++ after_element l []). split; [done|]. split; [done|]. intros ->. by vm_compute in Hs.
Qed.

Lemma array_document d l : d < maxNestingDepth -> 0 <= d -> Forall (document_at (d + 1)) l -> document_at d (array_text l).
Proof.
  intros Hd H0 Hl. unfold array_text. cbn [app]. rewrite join_elements. split; [done|]. unfold weight. cbn [length Nat.mul].
  replace (S (length (element_text l [])) + (S (length (element_text l [])) + 0) + 1)%nat
    with (S (weight MElems (element_text l []))) by (unfold weight; lia).
  cbn [scan]. change (skip_ws (x5b :: ?b)) with (x5b :: b). cbv iota. change (oct x5b x7b) with false. change (oct x5b x5b) with true. cbv iota.
  rewrite (proj2 (Z.ltb_ge _ _)) by lia. destruct l as [|v l]; [done|].
  destruct (element_front (v :: l)) as (c & b & E & Hw & Hc); [|done|].
  { eapply Forall_impl; [exact Hl|]. intros x Hx. apply (document_mono (d + 1)); [done|lia]. }
  rewrite E. cbn [skip_ws]. rewrite Hw. destruct (oct c x5d) eqn:E5; [by apply oct_eq in E5|]. rewrite <- E.
  by rewrite (scan_elements (d + 1) (v :: l) [] _ ltac:(done) Hl) by lia.
Qed.

Lemma array_roundtrip l : Forall (document_at 1) l -> unmarshal_array (array_text l) = Some l.
Proof.
  intros Hl. unfold unmarshal_array. rewrite document_Valid by (by apply array_document). unfold array_text. cbn [app]. rewrite join_elements.
  change (skip_ws (x5b :: ?b)) with (x5b :: b). cbv iota. change (oct x5b x5b) with true. cbv iota. destruct l as [|v l]; [done|].
  destruct (element_front (v :: l)) as (c & b & E & Hw & Hc); [|done|].
  { eapply Forall_impl; [exact Hl|]. intros x Hx. apply (document_mono 1); [done|lia]. }
  rewrite E. cbn [skip_ws]. rewrite Hw. destruct (oct c x5d) eqn:E5; [by apply oct_eq in E5|]. rewrite <- E.
  by apply (read_elements 1).
Qed.

(** The text of a struct or map, also without members. *)
Lemma struct_document d ms : d < maxNestingDepth -> members_at (d + 1) ms -> document_at d (struct_text ms).
Proof.
  intros Hd Hm. unfold struct_text. cbn [app]. rewrite join_members. destruct ms as [|e ms]; [|by apply text_document].
  split; [done|]. cbn. by rewrite (proj2 (Z.ltb_ge _ _)) by (unfold maxNestingDepth in *; lia).
Qed.

Lemma struct_members ms : members_at 1 ms -> object_members (struct_text ms) = Some ms.
Proof.
  intros Hm. unfold object_members, struct_text. cbn [app]. change (oct x7b x7b) with true. cbv iota. rewrite join_members.
  destruct ms as [|e ms]; [done|]. by apply text_roundtrip.
Qed.

Lemma members_mono d d' ms : members_at d ms -> d' <= d -> members_at d' ms.
Proof. intros H Hd. eapply Forall_impl; [exact H|]. intros [k v] [Hk Hv]. split; [done|]. by apply (document_mono d). Qed.

(** ** Well-formed types and values *)

(** Field names are valid text and differ up to folding. *)
Fixpoint good (t : goty) : bool :=
  match t with
  | TPtr t | TSlice t => good t
  | TStruct fs =>
      bool_decide (NoDup (map (fun f => fold_name f.1.1) fs)) &&
      forallb (fun f => valid_utf8 (length f.1.1) f.1.1 && good f.2) fs
  | _ => true
  end.

Section wf_fields.
Context (P : goty -> goval -> Prop).

Fixpoint wf_fields (fs : list (bytes * bool * goty)) (vals : list goval) : Prop :=
  match fs, vals with
  | [], [] => True
  | (_, omitempty, t) :: fs, x :: vals => (if omitempty && is_empty x then x = zero t else P t x) /\ wf_fields fs vals
  | _, _ => False
  end.
End wf_fields.

Definition map_members (m : list (bytes * bytes)) : list (bytes * bytes) := map (fun e => (e.1, quote e.2)) m.

(** Keys in the order [json.Marshal] writes them. *)
Fixpoint keys_sorted (l : list bytes) : bool :=
  match l with
  | a :: (b :: _) as l' => byteLess a b && keys_sorted l'
  | _ => true
  end.

(** Dynamic values a text says all of: no numbers, arrays or [map[string]string]. *)
Fixpoint dyn_ok (d : Z) (v : dyn) : Prop :=
  match v with
  | DNil | DBool _ => True
  | DStr s => utf8 s
  | DObj m =>
      d < maxNestingDepth /\ NoDup (map fst m) /\ keys_sorted (map fst m) = true /\
      foldr (fun e P => (utf8 e.1 /\ dyn_ok (d + 1) e.2) /\ P) True m
  | _ => False
  end.

(** A number whose text reads back. *)
Definition prints (f : float64) : bool :=
  match FormatFloat f with
  | Some (c :: b) =>
      (oct c x2d || is_digit c) && bool_decide (scan_number (c :: b) = Some []) && bool_decide (compact (c :: b) = Some (c :: b)) &&
      bool_decide (ParseFloat (c :: b) = Some f)
  | _ => false
  end.

(** What an [any] holds after its text is read: an [int] has become a float64. *)
Fixpoint seen (v : dyn) : dyn :=
  match v with
  | DInt z => DNum (int_float z)
  | DArr l => DArr (map seen l)
  | DObj m => DObj (map (fun e => (e.1, seen e.2)) m)
  | _ => v
  end.

(** Dynamic values that are read as [seen]: numbers and arrays too. *)
Fixpoint dyn_fine (d : Z) (v : dyn) : Prop :=
  match v with
  | DNil | DBool _ => True
  | DNum f => prints f = true
  | DInt z => - 2 ^ 63 <= z < 2 ^ 63
  | DStr s => utf8 s
  | DArr l => d < maxNestingDepth /\ foldr (fun v P => dyn_fine (d + 1) v /\ P) True l
  | DObj m =>
      d < maxNestingDepth /\ NoDup (map fst m) /\ keys_sorted (map fst m) = true /\
      foldr (fun e P => (utf8 e.1 /\ dyn_fine (d + 1) e.2) /\ P) True m
  | DText _ => False
  end.

(** Values inside [d] brackets whose text says all there is: strings of valid text, ints in
    range, raw messages in compact form, pointers to structs, slices with nothing past
    their length, omitted fields that are zero. *)
Fixpoint wf (t : goty) (d : Z) (v : goval) {struct t} : Prop :=
  match t, v with
  | TString, GStr s => utf8 s
  | TInt, GInt z => - 2 ^ 63 <= z < 2 ^ 63
  | TBool, GBool _ => True
  | TRaw, GRaw (Some r) => document_at d r /\ compact r = Some r
  | TPtr t, GPtr p =>
      match p with
      | None => True
      | Some x => match t with TStruct _ => wf t d x | _ => False end
      end
  | TSlice t, GSlice l [] =>
      match l with
      | None => True
      | Some l => d < maxNestingDepth /\ Forall (wf t (d + 1)) l
      end
  | TMap, GMap m =>
      match m with
      | None => True
      | Some m => d < maxNestingDepth /\ NoDup (map fst m) /\ sort_entries fst (map_members m) = map_members m /\
                  Forall (fun e => utf8 e.1 /\ utf8 e.2) m
      end
  | TAnyMap, GAnyMap m =>
      match m with
      | None => True
      | Some m => dyn_ok d (DObj m)
      end
  | TStruct fs, GStruct vals => d < maxNestingDepth /\ wf_fields (fun t x => wf t (d + 1) x) fs vals
  | _, _ => False
  end.

(** What the round trip gives for one value. *)
Definition reads_back (t : goty) (d : Z) (v : goval) : Prop :=
  exists raw, Marshal t v = Some raw /\ document_at d raw /\ settled raw /\ decode t (zero t) raw = Some v.

Lemma unmarshal_text_quote old s : utf8 s -> unmarshal_text old (quote s) = Some s.
Proof.
  intros Hs. unfold unmarshal_text. replace (is_null (quote s)) with false by (symmetry; by apply bool_decide_false).
  unfold quote. cbn [app]. change (oct x22 x22) with true. cbv iota. by apply string_roundtrip.
Qed.

Lemma reads_back_elements t d l : Forall (reads_back t d) l ->
  exists raws, marshal_elements (Marshal t) l = Some raws /\ Forall (document_at d) raws /\ Forall settled raws /\
    store_elements (decode t) (zero t) raws [] = Some (l, []).
Proof.
  induction 1 as [|v l (raw & Hm & Hd & Hs & Hr) Hl (raws & Hms & Hds & Hss & Hrs)]; [exists []; by repeat split|].
  exists (raw :: raws). cbn [marshal_elements store_elements]. rewrite Hm, Hms. cbn [mbind option_bind].
  split; [done|]. split; [by constructor|]. split; [by constructor|]. by rewrite Hr, Hrs.
Qed.

(** Storing the members of fields [fs2] after those of [fs1]. *)
Lemma store_at fs1 n o t fs2 vs1 x vs2 raw :
  length fs1 = length vs1 -> fold_name n ∉ map (fun f => fold_name f.1.1) fs1 ->
  store decode (fs1 ++ (n, o, t) :: fs2) (vs1 ++ x :: vs2) n raw = (y ← decode t x raw; Some (vs1 ++ y :: vs2)).
Proof.
  intros Hl Hn. revert vs1 Hl. induction fs1 as [|[[m o'] t'] fs1 IH]; intros [|v vs1] Hl; try done; cbn [app store].
  - by rewrite bool_decide_true.
  - cbn [map] in Hn. rewrite bool_decide_false by (intros E; apply Hn; rewrite E; by left).
    rewrite IH; [|by intros Hin; apply Hn; right|by injection Hl]. by destruct (decode t x raw).
Qed.

Lemma store_members_app dec fs ms1 ms2 vals :
  store_members dec fs (ms1 ++ ms2) vals = store_members dec fs ms1 vals ≫= store_members dec fs ms2.
Proof.
  unfold store_members. rewrite fold_left_app. destruct (fold_left _ ms1 _) as [v|]; [done|]. cbn [mbind option_bind].
  induction ms2 as [|e ms2 IH]; [done|]. cbn [fold_left mbind option_bind]. exact IH.
Qed.

Lemma reads_back_fields d fs1 vs1 fs2 vs2 :
  length fs1 = length vs1 -> NoDup (map (fun f => fold_name f.1.1) (fs1 ++ fs2)) ->
  Forall (fun f => utf8 f.1.1) fs2 -> wf_fields (fun t x => reads_back t d x) fs2 vs2 ->
  exists ms, marshal_fields Marshal fs2 vs2 = Some ms /\ members_at d ms /\ Forall (fun e => settled e.2) ms /\
    store_members decode (fs1 ++ fs2) ms (vs1 ++ map (fun f => zero f.2) fs2) = Some (vs1 ++ vs2).
Proof.
  revert fs1 vs1 vs2. induction fs2 as [|[[n o] t] fs2 IH]; intros fs1 vs1 [|x vs2] Hl Hn Hu Hw; try done.
  { exists []. by repeat split; try constructor. }
  destruct Hw as [Hx Hw]. apply Forall_cons_1 in Hu as [Hun Hu]. cbn [fst] in Hun.
  assert (Hnext : exists ms, marshal_fields Marshal fs2 vs2 = Some ms /\ members_at d ms /\ Forall (fun e => settled e.2) ms /\
    store_members decode (fs1 ++ (n, o, t) :: fs2) ms (vs1 ++ x :: map (fun f => zero f.2) fs2) = Some (vs1 ++ x :: vs2)).
  { destruct (IH (fs1 ++ [(n, o, t)]) (vs1 ++ [x]) vs2) as (ms & H1 & H2 & H3 & H4); try done.
    - rewrite !length_app. cbn. lia.
    - by rewrite <- app_assoc.
    - exists ms. split_and!; try done. by rewrite <- !app_assoc in H4. }
  destruct Hnext as (ms & Hm & Hms & Hst & Hstore). cbn [marshal_fields map snd]. destruct (o && is_empty x).
  { subst x. by exists ms. }
  destruct Hx as (raw & Hmx & Hdx & Hsx & Hrx). exists ((n, raw) :: ms). rewrite Hmx, Hm. cbn [mbind option_bind].
  split; [done|]. split; [by constructor|]. split; [by constructor|].
  change ((n, raw) :: ms) with ([(n, raw)] ++ ms). rewrite store_members_app. unfold store_members at 2. cbn [fold_left mbind option_bind fst snd].
  rewrite (store_at fs1 n o t fs2 vs1 (zero t)); [|done|].
  - by rewrite Hrx.
  - rewrite map_app in Hn. cbn [map fst] in Hn. apply NoDup_app in Hn as (_ & Hd & _). intros Hin. apply (Hd _ Hin). by left.
Qed.

Lemma wf_fields_impl (P Q : goty -> goval -> Prop) fs vals :
  Forall (fun f => forall x, P f.2 x -> Q f.2 x) fs -> wf_fields P fs vals -> wf_fields Q fs vals.
Proof.
  revert vals. induction fs as [|[[n o] t] fs IH]; intros [|x vals] Hf; try done. apply Forall_cons_1 in Hf as [Ht Hf].
  cbn [wf_fields]. intros [Hx Hw]. split; [|by apply IH]. destruct (o && is_empty x); [done|by apply Ht].
Qed.

Lemma map_set_fresh {A} (m : list (bytes * A)) k v : k ∉ map fst m -> map_set m k v = m ++ [(k, v)].
Proof.
  induction m as [|e m IH]; [done|]. cbn [map map_set app]. intros Hn. rewrite bool_decide_false by (intros E; apply Hn; rewrite E; by left).
  f_equal. apply IH. intros Hin. apply Hn. by right.
Qed.

Lemma sorted_entries {A} (l : list (bytes * A)) : keys_sorted (map fst l) = true -> sort_entries fst l = l.
Proof.
  induction l as [|a l IH]; [done|]. destruct l as [|b l]; [done|]. cbn [map keys_sorted]. intros [Hlt Hs]%andb_true_iff.
  specialize (IH Hs). change (sort_entries fst (a :: b :: l)) with (insert_entry fst a (sort_entries fst (b :: l))). rewrite IH.
  cbn [insert_entry]. by rewrite Hlt.
Qed.

Lemma keys_sorted_marshal {A} (l : list (bytes * A)) (ms : list (bytes * bytes)) :
  map fst ms = map fst l -> keys_sorted (map fst l) = true -> marshal_object ms = struct_text ms.
Proof. intros E H. unfold marshal_object, struct_text. by rewrite sorted_entries by (by rewrite E). Qed.

Lemma null_reads_back d : document_at d (str "null") /\ settled (str "null").
Proof. split; [by split|]. by apply compact_settled. Qed.

Lemma bool_reads_back b d :
  document_at d (bool_text b) /\ settled (bool_text b) /\ is_null (bool_text b) = false /\ unmarshal_bool (bool_text b) = Some b.
Proof. destruct b; (split; [by split|]); (split; [by apply compact_settled|by vm_compute]). Qed.

Definition dyn_reads_back (d : Z) (v : dyn) : Prop :=
  exists raw, marshal_dyn v = Some raw /\ document_at d raw /\ settled raw /\ forall f, (length raw <= f)%nat -> decode_dyn f raw = Some (seen v).

Definition seen_members (m : list (bytes * dyn)) : list (bytes * dyn) := map (fun e => (e.1, seen e.2)) m.

Lemma seen_members_keys m : map fst (seen_members m) = map fst m.
Proof. unfold seen_members. rewrite map_map. done. Qed.

(** The members of an object of dynamic values, stored after those of [m1]. *)
Lemma dyns_read_back d m2 :
  foldr (fun e P => (utf8 e.1 /\ dyn_fine d e.2) /\ P) True m2 -> Forall (fun e => dyn_fine d e.2 -> dyn_reads_back d e.2) m2 ->
  exists ms, marshal_dyns marshal_dyn m2 = Some ms /\ map fst ms = map fst m2 /\ members_at d ms /\ Forall (fun e => settled e.2) ms /\
    forall f m1, Forall (fun e => (length e.2 <= f)%nat) ms -> NoDup (map fst (m1 ++ m2)) ->
      store_dyns (decode_dyn f) ms m1 = Some (m1 ++ seen_members m2).
Proof.
  induction m2 as [|[k v] m2 IH]; intros Hok Hr.
  { exists []. do 4 (split; [done || constructor|]). intros f m1 _ _. by rewrite app_nil_r. }
  destruct Hok as [[Hk Hv] Hok]. apply Forall_cons_1 in Hr as [Hrv Hr]. destruct (Hrv Hv) as (raw & Hm & Hd & Hs & Hdec). cbn [fst snd] in *.
  destruct (IH Hok Hr) as (ms & Hms & Hf & Hat & Hss & Hst). exists ((k, raw) :: ms). cbn [marshal_dyns]. rewrite Hm, Hms. cbn [mbind option_bind].
  split; [done|]. split; [cbn [map fst]; by rewrite Hf|]. split; [by constructor|]. split; [by constructor|].
  intros f m1 Hlen Hn. apply Forall_cons_1 in Hlen as [Hl1 Hlen]. cbn [snd] in Hl1. unfold store_dyns. cbn [fold_left mbind option_bind fst snd].
  rewrite (Hdec f Hl1). cbn [mbind option_bind]. change (seen_members ((k, v) :: m2)) with ((k, seen v) :: seen_members m2). rewrite map_set_fresh.
  - rewrite (cons_middle (k, seen v) m1 (seen_members m2)), app_assoc. apply (Hst f (m1 ++ [(k, seen v)]) Hlen).
    rewrite !map_app in *. cbn [map fst] in *. by rewrite <- app_assoc.
  - rewrite map_app in Hn. cbn [map fst] in Hn. apply NoDup_app in Hn as (_ & Hd' & _). intros Hin. apply (Hd' _ Hin). by left.
Qed.

Lemma items_read_back d l :
  foldr (fun v P => dyn_fine d v /\ P) True l -> Forall (fun v => dyn_fine d v -> dyn_reads_back d v) l ->
  exists raws, marshal_items marshal_dyn l = Some raws /\ Forall (document_at d) raws /\ Forall settled raws /\
    forall f, Forall (fun r => (length r <= f)%nat) raws -> mapM (decode_dyn f) raws = Some (map seen l).
Proof.
  induction l as [|v l IH]; intros Hok Hr; [by exists []|]. destruct Hok as [Hv Hok]. apply Forall_cons_1 in Hr as [Hrv Hr].
  destruct (Hrv Hv) as (raw & Hm & Hd & Hs & Hdec), (IH Hok Hr) as (raws & Hms & Hds & Hss & Hst). exists (raw :: raws). cbn [marshal_items].
  rewrite Hm, Hms. split; [done|]. split; [by constructor|]. split; [by constructor|]. intros f Hf. apply Forall_cons_1 in Hf as [H1 Hf].
  cbn [mapM]. by rewrite (Hdec f H1), (Hst f Hf).
Qed.

Lemma join_longer_items l : Forall (fun r => (length r < length (array_text l))%nat) l.
Proof.
  unfold array_text. rewrite !length_app. cbn [length]. induction l as [|v l IH]; [done|]. constructor.
  - cbn [join]. destruct l; rewrite ?length_app; lia.
  - eapply Forall_impl; [exact IH|]. intros r Hr. cbn beta in *. cbn [join]. destruct l as [|r' l]; [cbn in *; lia|]. rewrite !length_app. lia.
Qed.

(** Members are shorter than the object. *)
Lemma join_longer ms : Forall (fun e => (length e.2 < length (struct_text ms))%nat) ms.
Proof.
  unfold struct_text. rewrite !length_app. cbn [length]. induction ms as [|[k v] ms IH]; [done|]. constructor.
  - cbn [snd map join]. destruct (map _ ms); rewrite ?length_app; cbn; rewrite ?length_app; lia.
  - eapply Forall_impl; [exact IH|]. intros e He. cbn beta in *. cbn [map join]. destruct ms as [|e' ms]; [cbn in *; lia|].
    cbn [map] in *. rewrite !length_app. lia.
Qed.

Lemma dyns_document d ms : d < maxNestingDepth -> 0 <= d -> members_at (d + 1) ms -> Forall (fun e => settled e.2) ms ->
  document_at d (struct_text ms) /\ settled (struct_text ms) /\ object_members (struct_text ms) = Some ms.
Proof.
  intros Hd H0 Hat Hs. split; [by apply struct_document|]. split; [by apply settled_struct|].
  apply struct_members, (members_mono (d + 1)); [done|lia].
Qed.

Lemma number_reads_back d c b f :
  oct c x2d || is_digit c = true -> scan_number (c :: b) = Some [] -> ParseFloat (c :: b) = Some f ->
  document_at d (c :: b) /\ forall n, decode_dyn (S n) (c :: b) = Some (DNum f).
Proof.
  intros Hc Hs Hp. assert (is_ws c = false /\ oct c x7b = false /\ oct c x5b = false /\ oct c x22 = false /\ oct c x6e = false /\ oct c x74 = false /\ oct c x66 = false) as (Hw & H1 & H2 & H3 & H4 & H5 & H6).
  { destruct c; try (by vm_compute in Hc); done. }
  split.
  - split; [done|]. unfold weight. rewrite Nat.add_comm. cbn [Nat.add scan skip_ws]. by rewrite Hw, H1, H2, H3, Hc.
  - intros n. cbn [decode_dyn]. rewrite H1, H2, H3. unfold is_null. rewrite bool_decide_false by (intros [= -> _]; done).
    unfold unmarshal_bool. rewrite !bool_decide_false by (intros [= -> _]; done). by rewrite Hp.
Qed.

Lemma dyn_values_read_back v : forall d, 0 <= d -> dyn_fine d v -> dyn_reads_back d v.
Proof.
  induction v as [|b|f|z|s|l IH|m IH|m] using dyn_ind; intros d H0 Hok; try done.
  - exists (str "null"). destruct (null_reads_back d) as [Hd Hs]. do 3 (split; [done|]). intros [|f] Hf; [cbn in Hf; lia|done].
  - exists (bool_text b). destruct (bool_reads_back b d) as (Hd & Hs & _). do 3 (split; [done|]). intros [|f] Hf; [destruct b; cbn in Hf; lia|by destruct b].
  - cbn [dyn_fine] in Hok. unfold prints in Hok. destruct (FormatFloat f) as [[|c b]|] eqn:E; [done| |done]. apply andb_true_iff in Hok as [Hok Hp].
    apply andb_true_iff in Hok as [Hok Hcomp]. apply andb_true_iff in Hok as [Hc Hs]. apply bool_decide_eq_true in Hs, Hp, Hcomp.
    destruct (number_reads_back d c b f Hc Hs Hp) as [Hd Hdec]. exists (c :: b). split; [done|]. split; [done|]. split; [by apply compact_settled|].
    intros [|n] Hn; [cbn in Hn; lia|apply Hdec].
  - exists (FormatInt z). split; [done|]. split; [by apply FormatInt_document|]. split; [apply settled_FormatInt|]. intros n Hn.
    pose proof (ParseFloat_FormatInt z Hok) as Hp. destruct (FormatInt_number z Hok) as (c & b & Heq & Hc & Hs). rewrite Heq in *.
    destruct n as [|n]; [cbn in Hn; lia|]. by apply (number_reads_back d c b _ Hc Hs).
  - exists (quote s). split; [done|]. split; [by apply quote_document|]. split; [apply settled_quote|]. intros [|f] Hf; [by cbn in Hf; lia|].
    pose proof (string_roundtrip s Hok) as Hq. unfold quote in *. cbn [app decode_dyn] in *. by rewrite Hq.
  - destruct Hok as (Hd & Hok). destruct (items_read_back (d + 1) l Hok) as (raws & Hm & Hds & Hs & Hst).
    { eapply Forall_impl; [exact IH|]. intros v Hv. apply Hv. lia. }
    exists (array_text raws). cbn [marshal_dyn]. rewrite Hm. split; [done|]. split; [by apply array_document|]. split; [by apply settled_array|].
    intros [|f] Hf; [cbn in Hf; lia|]. change (decode_dyn (S f) (array_text raws)) with (els ← unmarshal_array (array_text raws); DArr <$> mapM (decode_dyn f) els).
    rewrite array_roundtrip. 2: { eapply Forall_impl; [exact Hds|]. intros x Hx. apply (document_mono (d + 1)); [done|lia]. }
    cbn [mbind option_bind]. rewrite Hst; [done|]. eapply Forall_impl; [apply join_longer_items|]. intros r Hr. cbn beta in *. lia.
  - destruct Hok as (Hd & Hn & Hks & Hok). destruct (dyns_read_back (d + 1) m Hok) as (ms & Hm & Hf & Hat & Hs & Hst).
    { eapply Forall_impl; [exact IH|]. intros e He. apply He. lia. }
    destruct (dyns_document d ms Hd H0 Hat Hs) as (Hdoc & Hset & Hmem). exists (struct_text ms). cbn [marshal_dyn]. rewrite Hm. cbn [fmap option_fmap option_map].
    rewrite (keys_sorted_marshal m ms Hf Hks). do 3 (split; [done|]). intros [|f] Hl; [by cbn in Hl; lia|].
    change (object_members (struct_text ms)) with (unmarshal_object (struct_text ms)) in Hmem.
    change (decode_dyn (S f) (struct_text ms)) with (l ← unmarshal_object (struct_text ms); DObj <$> store_dyns (decode_dyn f) l []).
    rewrite Hmem. cbn [mbind option_bind]. rewrite (Hst f []); [done| |done].
    eapply Forall_impl; [apply join_longer|]. intros e He. cbn beta in *. lia.
Qed.

Lemma dyn_ok_fine v : forall d, dyn_ok d v -> dyn_fine d v /\ seen v = v.
Proof.
  induction v as [|b|f|z|s|l IH|m IH|m] using dyn_ind; intros d Hok; try done. destruct Hok as (Hd & Hn & Hks & Hok).
  assert (foldr (fun e P => (utf8 e.1 /\ dyn_fine (d + 1) e.2) /\ P) True m /\ seen_members m = m) as [Hf Hm].
  { clear - IH Hok. induction IH as [|[k v] m Hv IH IHm]; [done|]. destruct Hok as [[Hk Hok] Hm]. destruct (Hv _ Hok) as [Hv1 Hv2], (IHm Hm) as [Hm1 Hm2].
    split; [done|]. cbn [seen_members map fst snd] in *. unfold seen_members in Hm2. by rewrite Hv2, Hm2. }
  split; [done|]. cbn [seen]. unfold seen_members in Hm. by rewrite Hm.
Qed.

Lemma store_entries_map m1 m2 : NoDup (map fst (m1 ++ m2)) -> Forall (fun e => utf8 e.1 /\ utf8 e.2) m2 ->
  store_entries (map_members m2) m1 = Some (m1 ++ m2).
Proof.
  revert m1. induction m2 as [|[k v] m2 IH]; intros m1 Hn Hu; [by rewrite app_nil_r|]. apply Forall_cons_1 in Hu as [[Hk Hv] Hu].
  unfold store_entries. cbn [map_members map fold_left mbind option_bind fst snd]. rewrite (unmarshal_text_quote [] v Hv). cbn [mbind option_bind].
  rewrite map_set_fresh.
  - rewrite (cons_middle (k, v) m1 m2), app_assoc in Hn. specialize (IH _ Hn Hu). unfold store_entries in IH.
    rewrite (cons_middle (k, v) m1 m2), app_assoc. exact IH.
  - rewrite map_app in Hn. cbn [map fst] in Hn. apply NoDup_app in Hn as (_ & Hd & _). intros Hin. apply (Hd _ Hin). by left.
Qed.

(** ** The round trip *)

Lemma FormatInt_not_null z : - 2 ^ 63 <= z < 2 ^ 63 -> is_null (FormatInt z) = false.
Proof. intros Hz. apply bool_decide_false. intros E. pose proof (ParseInt_FormatInt z Hz) as H. by rewrite E in H. Qed.

Lemma struct_not_null ms : is_null (struct_text ms) = false.
Proof. by apply bool_decide_false. Qed.

Lemma marshal_sorted m : sort_entries fst (map_members m) = map_members m -> marshal_object (map_members m) = struct_text (map_members m).
Proof. intros H. unfold marshal_object, struct_text. by rewrite H. Qed.

Lemma map_members_ok d m : Forall (fun e => utf8 e.1 /\ utf8 e.2) m -> members_at d (map_members m).
Proof.
  intros H. apply Forall_map. eapply Forall_impl; [exact H|]. intros [k v] [Hk Hv]. split; [done|]. by apply quote_document.
Qed.

Lemma struct_reads_back d fs vals : 0 <= d < maxNestingDepth -> good (TStruct fs) = true ->
  wf_fields (fun t x => reads_back t (d + 1) x) fs vals -> reads_back (TStruct fs) d (GStruct vals).
Proof.
  intros Hd [Hn Hg]%andb_true_iff Hw. apply bool_decide_eq_true in Hn. rewrite forallb_forall in Hg.
  destruct (reads_back_fields (d + 1) [] [] fs vals) as (ms & Hm & Hms & Hs & Hst); try done.
  { apply Forall_forall. intros f Hf. apply list_elem_of_In, Hg, andb_true_iff in Hf as [Hf _]. by apply valid_utf8_sound in Hf. }
  exists (struct_text ms). cbn [Marshal decode zero]. rewrite Hm. split; [done|]. split; [apply struct_document; [lia|done]|].
  split; [by apply settled_struct|]. rewrite struct_not_null, struct_members by (apply (members_mono (d + 1)); [done|lia]).
  cbn [mbind option_bind app] in *. by rewrite Hst.
Qed.

Lemma any_map_seen d m : 0 <= d -> dyn_fine d (DObj m) ->
  exists raw, Marshal TAnyMap (GAnyMap (Some m)) = Some raw /\ document_at d raw /\ settled raw /\
    decode TAnyMap (zero TAnyMap) raw = Some (GAnyMap (Some (seen_members m))).
Proof.
  intros H0 (Hd & Hn & Hks & Hok). destruct (dyns_read_back (d + 1) m Hok) as (ms & Hm & Hf & Hat & Hs & Hst).
  { apply Forall_forall. intros e _ He. apply dyn_values_read_back; [lia|done]. }
  destruct (dyns_document d ms Hd H0 Hat Hs) as (Hdoc & Hset & Hmem). exists (struct_text ms). cbn [Marshal decode zero]. rewrite Hm. cbn [fmap option_fmap option_map].
  rewrite (keys_sorted_marshal m ms Hf Hks), struct_not_null, Hmem. do 3 (split; [done|]). cbn [mbind option_bind]. rewrite (Hst _ []); [done| |done].
  eapply Forall_impl; [apply join_longer|]. intros e He. cbn beta in *. lia.
Qed.

Lemma any_map_reads_back d m : 0 <= d -> dyn_ok d (DObj m) -> reads_back TAnyMap d (GAnyMap (Some m)).
Proof.
  intros H0 Hok. destruct (dyn_ok_fine (DObj m) d Hok) as [Hf Hs]. destruct (any_map_seen d m H0 Hf) as (raw & Hm & Hd & Hset & Hdec).
  exists raw. do 3 (split; [done|]). rewrite Hdec. cbn [seen] in Hs. injection Hs as Hs. unfold seen_members. by rewrite Hs.
Qed.

Lemma values_read_back t : good t = true -> forall d v, 0 <= d -> wf t d v -> reads_back t d v.
Proof.
  induction t as [| | | |t IH|t IH| | |fs IH] using goty_ind; intros Hg d v H0 Hw; destruct v as [s|z|b|r|p|l spare|m|m|vals]; try done.
  - exists (quote s). split; [done|]. split; [by apply quote_document|]. split; [apply settled_quote|]. cbn [decode zero]. by rewrite unmarshal_text_quote.
  - exists (FormatInt z). split; [done|]. split; [by apply FormatInt_document|]. split; [apply settled_FormatInt|].
    cbn [decode]. by rewrite (FormatInt_not_null z Hw), (ParseInt_FormatInt z Hw).
  - exists (bool_text b). destruct (bool_reads_back b d) as (Hd & Hs & Hn & Hb). do 3 (split; [done|]). cbn [decode]. by rewrite Hn, Hb.
  - destruct r as [r|]; [|done]. destruct Hw as [Hd Hc]. exists r. split; [done|]. split; [done|]. split; [by apply compact_settled|done].
  - destruct p as [x|]; [|by exists (str "null"); destruct (null_reads_back d)]. cbn [wf] in Hw. destruct t as [| | | | | | | |fs]; try done.
    destruct (IH Hg d x H0 Hw) as (raw & Hm & Hd & Hs & Hr). exists raw. split; [done|]. split; [done|]. split; [done|].
    assert (is_null raw = false) as Hn.
    { destruct x as [| | | | | | | |vals]; try done. cbn [Marshal] in Hm. destruct (marshal_fields _ _ _) as [ms|]; [|done].
      injection Hm as <-. apply struct_not_null. }
    change (decode (TPtr (TStruct fs)) (zero (TPtr (TStruct fs))) raw) with
      (if is_null raw then Some (GPtr None) else y ← decode (TStruct fs) (zero (TStruct fs)) raw; Some (GPtr (Some y))).
    by rewrite Hn, Hr.
  - destruct spare; [|by destruct l]. destruct l as [l|]; [|by exists (str "null"); destruct (null_reads_back d)].
    destruct Hw as [Hd Hl]. destruct (reads_back_elements t (d + 1) l) as (raws & Hm & Hds & Hs & Hr).
    { eapply Forall_impl; [exact Hl|]. intros x Hx. apply IH; [done|lia|done]. }
    exists (array_text raws). cbn [Marshal decode zero]. rewrite Hm. split; [done|]. split; [by apply array_document|]. split; [by apply settled_array|].
    replace (is_null (array_text raws)) with false by (symmetry; by apply bool_decide_false).
    rewrite array_roundtrip. 2: { eapply Forall_impl; [exact Hds|]. intros x Hx. apply (document_mono (d + 1)); [done|lia]. }
    cbn [mbind option_bind]. destruct raws as [|raw raws]; [by injection Hr as <-|]. by rewrite Hr.
  - destruct m as [m|]; [|by exists (str "null"); destruct (null_reads_back d)]. destruct Hw as (Hd & Hn & Hsort & Hu).
    exists (struct_text (map_members m)). cbn [Marshal decode zero]. fold (map_members m). rewrite (marshal_sorted m Hsort).
    split; [done|]. split; [apply struct_document; [done|by apply map_members_ok]|]. split.
    { apply settled_struct, Forall_map, Forall_true. intros [k s]. apply settled_quote. }
    rewrite struct_not_null, struct_members by (by apply map_members_ok). cbn [mbind option_bind].
    by rewrite (store_entries_map [] m Hn Hu).
  - destruct m as [m|]; [|by exists (str "null"); destruct (null_reads_back d)]. by apply any_map_reads_back.
  - destruct Hw as [Hd Hw]. apply struct_reads_back; [lia|done|]. eapply wf_fields_impl; [|exact Hw].
    cbn [good] in Hg. apply andb_true_iff in Hg as [_ Hg]. rewrite forallb_forall in Hg. rewrite Forall_forall in IH |- *.
    intros f Hf x Hx. apply IH; [done| |lia|done]. apply list_elem_of_In, Hg, andb_true_iff in Hf as [_ Hf]. done.
Qed.

(** ** Values that always marshal *)

Section typed_fields.
Context (P : goty -> goval -> Prop).

Fixpoint typed_fields (fs : list (bytes * bool * goty)) (vals : list goval) : Prop :=
  match fs, vals with
  | [], [] => True
  | (_, _, t) :: fs, x :: vals => P t x /\ typed_fields fs vals
  | _, _ => False
  end.
End typed_fields.

(** Values of their type with no raw messages and no dynamic values in them. *)
Fixpoint typed (t : goty) (v : goval) {struct t} : Prop :=
  match t, v with
  | TString, GStr _ | TInt, GInt _ | TBool, GBool _ | TMap, GMap _ => True
  | TPtr t, GPtr p => match p with None => True | Some x => typed t x end
  | TSlice t, GSlice l _ => match l with None => True | Some l => Forall (typed t) l end
  | TStruct fs, GStruct vals => typed_fields typed fs vals
  | _, _ => False
  end.

Lemma Marshal_typed t : forall v, typed t v -> exists raw, Marshal t v = Some raw.
Proof.
  induction t as [| | | |t IH|t IH| | |fs IH] using goty_ind; intros v Hv; destruct v as [s|z|b|r|p|l spare|m|m|vals]; try done; try (by eexists).
  - destruct p as [x|]; [by apply IH|by eexists].
  - destruct l as [l|]; [|by eexists]. cbn [Marshal]. assert (exists raws, marshal_elements (Marshal t) l = Some raws) as [raws ->]; [|by eexists].
    cbn [typed] in Hv. induction Hv as [|x l Hx Hl [raws Hr]]; [by exists []|]. destruct (IH x Hx) as [raw Hraw]. cbn [marshal_elements]. rewrite Hraw, Hr. by eexists.
  - destruct m; by eexists.
  - cbn [Marshal]. assert (exists ms, marshal_fields Marshal fs vals = Some ms) as [ms ->]; [|by eexists]. cbn [typed] in Hv. revert vals Hv.
    induction IH as [|[[n o] t] fs Ht Hfs IHfs]; intros [|x vals]; try done; [by exists []|]. intros [Hx Hv]. cbn [snd] in Ht.
    destruct (Ht x Hx) as [raw Hraw], (IHfs vals Hv) as [ms Hms]. cbn [marshal_fields]. rewrite Hraw, Hms. destruct (o && is_empty x); by eexists.
Qed.

Lemma Unmarshal_document t raw v : document_at 0 raw -> decode t (zero t) raw = Some v -> Unmarshal t raw = Some v.
Proof.
  intros Hd Hr. unfold Unmarshal. rewrite document_Valid by done. cbv zeta.
  pose proof (document_front 0 raw [] Hd) as Hf. rewrite app_nil_r in Hf. rewrite Hf. unfold scan_value.
  destruct Hd as [_ Hscan]. rewrite Hscan. cbn [mbind option_bind length]. rewrite Nat.sub_0_r, firstn_all. exact Hr.
Qed.

(** [json.Unmarshal] of what [json.Marshal] writes; the text is in compact form. *)
Lemma Unmarshal_Marshal t v : good t = true -> wf t 0 v ->
  exists raw, Marshal t v = Some raw /\ Unmarshal t raw = Some v /\ document_at 0 raw /\ compact raw = Some raw.
Proof.
  intros Hg Hw. destruct (values_read_back t Hg 0 v ltac:(lia) Hw) as (raw & Hm & Hd & Hs & Hr). exists raw. split; [done|].
  split; [by apply Unmarshal_document|split; [done|by apply settled_compact]].
Qed.

(** ** Text read from JSON is valid *)

Lemma utf8_app a b : utf8 a -> utf8 b -> utf8 (a ++ b).
Proof.
  intros Ha Hb. induction Ha as [|c s Hc Hs IH]; [done|]. rewrite <- app_assoc. constructor; [|done].
  pose proof (utf8_size_prefix (c ++ s) (length c) (s ++ b) Hc) as H. by rewrite take_app_length in H.
Qed.

Lemma utf8_one c : utf8_size c = Some (length c) -> utf8 c.
Proof. intros H. rewrite <- (app_nil_r c). constructor; [by rewrite app_nil_r|constructor]. Qed.

Lemma EncodeRune_utf8 r : 0 <= r -> utf8 (EncodeRune r).
Proof.
  intros Hr. unfold EncodeRune. destruct (Z.ltb_spec r 128); [|destruct (Z.ltb_spec r 2048); [|destruct (_ || _) eqn:E; [by apply utf8_one|]]].
  - apply utf8_one. unfold utf8_size. rewrite b2z_z2b_small by lia. by rewrite (proj2 (Z.ltb_lt _ _)).
  - assert (2 <= r / 64 < 32) by (split; [apply Z.div_le_lower_bound|apply Z.div_lt_upper_bound]; lia).
    pose proof (Z.mod_pos_bound r 64 ltac:(lia)). apply utf8_one. unfold utf8_size, cont. rewrite !b2z_z2b_small by lia.
    rewrite (proj2 (Z.ltb_ge _ _)), !(proj2 (Z.leb_le _ _)) by lia. done.
  - apply orb_false_iff in E as [E1 E2]. apply Z.ltb_ge in E1. apply andb_false_iff in E2. rewrite !Z.leb_gt in E2.
    pose proof (Z.mod_pos_bound r 64 ltac:(lia)). pose proof (Z.mod_pos_bound (r / 64) 64 ltac:(lia)).
    pose proof (Z.mod_pos_bound (r / 4096) 64 ltac:(lia)).
    pose proof (Z.div_mod r 64 ltac:(lia)). pose proof (Z.div_mod (r / 64) 64 ltac:(lia)) as H64.
    assert (r / 64 / 64 = r / 4096) as Hdd by (rewrite Z.div_div by lia; done). rewrite Hdd in H64.
    destruct (Z.ltb_spec r 65536).
    + assert (0 <= r / 4096 < 16) by (split; [apply Z.div_pos|apply Z.div_lt_upper_bound]; lia).
      apply utf8_one. unfold utf8_size, cont. rewrite !b2z_z2b_small by lia. rewrite (proj2 (Z.ltb_ge _ _)) by lia.
      rewrite (proj2 (Z.leb_gt (224 + r / 4096) 223)), andb_false_r by lia.
      rewrite (proj2 (Z.leb_le 224 _)), (proj2 (Z.leb_le _ 239)) by lia. cbn [andb].
      destruct (Z.eqb_spec (224 + r / 4096) 224), (Z.eqb_spec (224 + r / 4096) 237); try lia;
        rewrite !(proj2 (Z.leb_le _ _)) by lia; done.
    + assert (0 <= r / 262144 < 5) by (split; [apply Z.div_pos|apply Z.div_lt_upper_bound]; lia).
      pose proof (Z.div_mod (r / 4096) 64 ltac:(lia)) as H4k. assert (r / 4096 / 64 = r / 262144) as Hdk by (rewrite Z.div_div by lia; done). rewrite Hdk in H4k.
      apply utf8_one. unfold utf8_size, cont. rewrite !b2z_z2b_small by lia. rewrite (proj2 (Z.ltb_ge _ _)) by lia.
      rewrite (proj2 (Z.leb_gt (240 + r / 262144) 223)), (proj2 (Z.leb_gt (240 + r / 262144) 239)), !andb_false_r by lia.
      rewrite (proj2 (Z.leb_le 240 _)), (proj2 (Z.leb_le _ 244)) by lia. cbn [andb].
      destruct (Z.eqb_spec (240 + r / 262144) 240), (Z.eqb_spec (240 + r / 262144) 244); try lia;
        rewrite !(proj2 (Z.leb_le _ _)) by lia; done.
Qed.

Lemma hex_value_range c z : hex_value c = Some z -> 0 <= z < 16.
Proof. intros H. destruct c; vm_compute in H; try discriminate; injection H as <-; lia. Qed.

Lemma getu4_range b z : getu4 b = Some z -> 0 <= z.
Proof.
  destruct b as [|s [|u [|h1 [|h2 [|h3 [|h4 b]]]]]]; try done. unfold getu4. destruct (_ && _); [|done].
  rewrite bind_Some. intros (a1 & H1 & H). apply bind_Some in H as (a2 & H2 & H). apply bind_Some in H as (a3 & H3 & H).
  apply bind_Some in H as (a4 & H4 & [= <-]). apply hex_value_range in H1, H2, H3, H4. lia.
Qed.

Lemma pair_rune_range r1 r2 z : pair_rune r1 r2 = Some z -> 0 <= z.
Proof.
  unfold pair_rune. destruct (_ && _) eqn:E; [|done]. intros [= <-]. rewrite !andb_true_iff, !Z.leb_le in E. lia.
Qed.

Lemma simple_escape_utf8 e x : simple_escape e = Some x -> utf8 [x].
Proof. intros H. apply utf8_one. destruct e; vm_compute in H; try discriminate; injection H as <-; by vm_compute. Qed.

Lemma unquote_utf8 fuel b s : unquote fuel b = Some s -> utf8 s.
Proof.
  revert b s. induction fuel as [|fuel IH]; intros b s; [done|]. cbn [unquote]. destruct b as [|c b]; [done|].
  assert (Happ : forall p t r, utf8 p -> app p <$> unquote fuel t = Some r -> utf8 r).
  { intros p t r Hp. destruct (unquote fuel t) as [u|] eqn:E; [|done]. intros [= <-]. apply utf8_app; [done|by apply (IH t)]. }
  destruct (oct c x22); [intros [= <-]; constructor|]. destruct (oct c x5c).
  - destruct b as [|e b]; [done|]. destruct (oct e x75).
    + rewrite bind_Some. intros (rr & Hr & H). cbv zeta in H. apply getu4_range in Hr. destruct (is_surrogate rr).
      * destruct (getu4 _ ≫= pair_rune rr) as [dec|] eqn:E; [|by eapply Happ; [|exact H]; apply utf8_one].
        apply bind_Some in E as (r2 & _ & E). eapply Happ; [|exact H]. by apply EncodeRune_utf8, (pair_rune_range rr r2).
      * eapply Happ; [|exact H]. by apply EncodeRune_utf8.
    + rewrite bind_Some. intros (x & Hx & H). apply (Happ [x] b); [by apply (simple_escape_utf8 e)|done].
  - destruct (b2z c <? 32); [done|]. destruct (utf8_size (c :: b)) as [n|] eqn:E; [|by apply Happ, utf8_one].
    apply Happ, utf8_one. pose proof (utf8_size_take _ _ E) as Hn. pose proof (utf8_size_prefix _ _ [] E) as H. rewrite app_nil_r in H.
    rewrite H, length_take. f_equal. lia.
Qed.

Lemma unmarshal_text_utf8 old raw s : utf8 old -> unmarshal_text old raw = Some s -> utf8 s.
Proof.
  intros Ho. unfold unmarshal_text. destruct (is_null raw); [by intros [= <-]|]. destruct raw as [|c raw]; [done|]. destruct (oct c x22); [|done].
  unfold unmarshal_string. destruct (Valid _); [|done]. destruct (skip_ws _) as [|d b]; [done|]. destruct (oct d x22); [apply unquote_utf8|].
  destruct (oct d x6e); [|done]. intros [= <-]. constructor.
Qed.

(** A struct of strings holds valid text in every field once it is unmarshalled. *)
Lemma text_struct_read fs raw v : Forall (fun f => f.2 = TString) fs -> Unmarshal (TStruct fs) raw = Some v ->
  exists ss, v = GStruct (map GStr ss) /\ length ss = length fs /\ Forall utf8 ss.
Proof.
  intros Hf H. unfold Unmarshal in H. destruct (Valid raw); [|done]. cbv zeta in H. apply bind_Some in H as (rest & _ & H).
  assert (Hz : exists ss, zero (TStruct fs) = GStruct (map GStr ss) /\ length ss = length fs /\ Forall utf8 ss).
  { exists (replicate (length fs) []). rewrite length_replicate. split; [|split; [done|apply Forall_replicate; constructor]]. cbn [zero]. f_equal.
    clear H. induction Hf as [|[[n o] t] fs Ht Hf IH]; [done|]. cbn [snd] in Ht. subst t. cbn [map snd zero length replicate]. by f_equal. }
  destruct Hz as (ss & Hz & Hl & Hu). cbn [decode] in H. destruct (is_null _); [injection H as <-; eauto|].
  apply bind_Some in H as (ms & _ & H). apply bind_Some in H as (vals & Hs & [= <-]). rewrite Hz in Hs. clear Hz.
  assert (Hstep : forall (k w : bytes) (ts : list bytes) vals, length ts = length fs -> Forall utf8 ts -> store decode fs (map GStr ts) k w = Some vals ->
    exists ts', vals = map GStr ts' /\ length ts' = length fs /\ Forall utf8 ts').
  { clear - Hf. intros k w. induction Hf as [|[[n o] t] fs Ht Hf IH]; intros [|x ts] vals Hl Hu; try done; [intros [= <-]; by exists []|].
    cbn [snd] in Ht. subst t. cbn [map store]. apply Forall_cons_1 in Hu as [Hx Hu]. destruct (bool_decide _).
    - rewrite bind_Some. intros (y & Hy & [= <-]). cbn [decode] in Hy. destruct (unmarshal_text x w) as [s|] eqn:E; [|done]. injection Hy as <-.
      exists (s :: ts). split; [done|]. split; [done|]. constructor; [by apply (unmarshal_text_utf8 x w)|done].
    - destruct (store decode fs (map GStr ts) k w) as [vs|] eqn:E; [|done]. intros [= <-].
      destruct (IH ts vs ltac:(by injection Hl) Hu E) as (ts' & -> & Hl' & Hu'). exists (x :: ts'). split; [done|]. split; [cbn; by rewrite Hl'|by constructor]. }
  unfold store_members in Hs. revert ss Hl Hu Hs. induction ms as [|m ms IH]; intros ss Hl Hu; cbn [fold_left mbind option_bind].
  { intros [= <-]. by exists ss. }
  destruct (store decode fs (map GStr ss) m.1 m.2) as [vs|] eqn:E.
  - destruct (Hstep _ _ _ _ Hl Hu E) as (ts' & -> & Hl' & Hu'). by apply IH.
  - intros Hn. exfalso. clear - Hn. induction ms as [|e ms IH]; [done|]. by apply IH.
Qed.
