(* ===== verification/Base64.v ===== *)
(** * Base64 as encoding/base64 writes and reads it

    The two encodings the ecosystem packages use: [StdEncoding] (padded) and
    [RawURLEncoding] (URL alphabet, no padding).  The decoders skip carriage returns and
    newlines and ignore the unused bits of the last digit, as Go's non-strict ones do. *)

From S2P Require Import Prelude Json.
From Stdlib Require Import Strings.Byte.
From Stdlib Require Strings.String.
Open Scope Z_scope.

Record encoding : Type := mkEncoding { enc_alphabet : bytes; enc_padded : bool }.

Definition StdEncoding : encoding :=
  mkEncoding (str "ABCDEFGHIJKLMNOPQRSTUVWXYZabcdefghijklmnopqrstuvwxyz0123456789+/") true.
Definition RawURLEncoding : encoding :=
  mkEncoding (str "ABCDEFGHIJKLMNOPQRSTUVWXYZabcdefghijklmnopqrstuvwxyz0123456789-_") false.

Fixpoint index_of (c : byte) (l : bytes) : option Z :=
  match l with
  | [] => None
  | d :: l => if oct d c then Some 0 else Z.succ <$> index_of c l
  end.

Section coding.
Context (e : encoding).

Definition digit (i : Z) : byte := nth (Z.to_nat i) (enc_alphabet e) x3d.
Definition digit_value (c : byte) : option Z := index_of c (enc_alphabet e).

Definition padding (n : nat) : bytes := if enc_padded e then replicate n x3d else [].

Fixpoint EncodeToString (src : bytes) : bytes :=
  match src with
  | a :: b :: c :: src =>
      [digit (b2z a / 4); digit (b2z a mod 4 * 16 + b2z b / 16); digit (b2z b mod 16 * 4 + b2z c / 64); digit (b2z c mod 64)] ++ EncodeToString src
  | [a; b] => [digit (b2z a / 4); digit (b2z a mod 4 * 16 + b2z b / 16); digit (b2z b mod 16 * 4)] ++ padding 1
  | [a] => [digit (b2z a / 4); digit (b2z a mod 4 * 16)] ++ padding 2
  | [] => []
  end.

Definition is_pad (c : byte) : bool := enc_padded e && oct c x3d.

Fixpoint decode_quanta (src : bytes) : option bytes :=
  match src with
  | [] => Some []
  | a :: b :: c :: d :: src =>
      x ← digit_value a; y ← digit_value b;
      let o1 := z2b (x * 4 + y / 16) in
      if is_pad c then if is_pad d && bool_decide (src = []) then Some [o1] else None
      else
        z ← digit_value c;
        let o2 := z2b (y mod 16 * 16 + z / 4) in
        if is_pad d then if bool_decide (src = []) then Some [o1; o2] else None
        else
          w ← digit_value d;
          app [o1; o2; z2b (z mod 4 * 64 + w)] <$> decode_quanta src
  | [a; b] =>
      if enc_padded e then None
      else (x ← digit_value a; y ← digit_value b; Some [z2b (x * 4 + y / 16)])
  | [a; b; c] =>
      if enc_padded e then None
      else (x ← digit_value a; y ← digit_value b; z ← digit_value c; Some [z2b (x * 4 + y / 16); z2b (y mod 16 * 16 + z / 4)])
  | [_] => None
  end.

Definition DecodeString (s : bytes) : option bytes :=
  decode_quanta (List.filter (fun c => negb (oct c x0d || oct c x0a)) s).
End coding.

Example base64_example :
  EncodeToString StdEncoding (str "any carnal pleas") = str "YW55IGNhcm5hbCBwbGVhcw==" /\
  EncodeToString RawURLEncoding (hex "fbff") = str "-_8" /\
  DecodeString StdEncoding (str "YW55" ++ [x0a] ++ str "IGM=") = Some (str "any c") /\
  DecodeString StdEncoding (str "YW5") = None /\ DecodeString RawURLEncoding (str "-_9") = Some (hex "fbff").
Proof. by vm_compute. Qed.

(** ** The digits *)

(** What the alphabets have: 64 distinct printable digits without the padding character. *)
Class Alphabet (e : encoding) : Prop := {
  digit_back i : 0 <= i < 64 -> digit_value e (digit e i) = Some i;
  digit_plain i : 0 <= i < 64 -> let c := digit e i in oct c x3d = false /\ oct c x0d = false /\ oct c x0a = false /\ b2z c < 128 /\ 32 <= b2z c
}.

Definition digits_ok (e : encoding) (i : Z) : bool :=
  let c := digit e i in
  bool_decide (digit_value e c = Some i) && negb (oct c x3d || oct c x0d || oct c x0a) && (b2z c <? 128) && (32 <=? b2z c).

Lemma alphabet_check e : forallb (fun n => digits_ok e (Z.of_nat n)) (seq 0 64) = true -> Alphabet e.
Proof.
  intros H. rewrite forallb_forall in H. assert (Hi : forall i, 0 <= i < 64 -> digits_ok e i = true).
  { intros i Hi. rewrite <- (Z2Nat.id i) by lia. apply H, in_seq. lia. }
  split; intros i Hr; specialize (Hi i Hr); unfold digits_ok in Hi; cbv zeta in Hi |- *;
    rewrite !andb_true_iff, negb_true_iff, !orb_false_iff, bool_decide_eq_true, Z.ltb_lt, Z.leb_le in Hi; tauto.
Qed.

#[export] Instance std_alphabet : Alphabet StdEncoding.
Proof. apply alphabet_check. by vm_compute. Qed.

#[export] Instance url_alphabet : Alphabet RawURLEncoding.
Proof. apply alphabet_check. by vm_compute. Qed.

(** ** Round trip *)

Lemma list_ind3 (P : bytes -> Prop) :
  P [] -> (forall a, P [a]) -> (forall a b, P [a; b]) -> (forall a b c l, P l -> P (a :: b :: c :: l)) -> forall l, P l.
Proof.
  intros H0 H1 H2 H3. refine (fix IH l := match l with [] => H0 | [a] => H1 a | [a; b] => H2 a b | a :: b :: c :: l => H3 a b c l (IH l) end).
Qed.

Section roundtrip.
Context (e : encoding) `{!Alphabet e}.

Lemma is_pad_digit i : 0 <= i < 64 -> is_pad e (digit e i) = false.
Proof. intros Hi. unfold is_pad. destruct (digit_plain i Hi) as [-> _]. by rewrite andb_false_r. Qed.

Lemma b2z_cases a : exists h l, b2z a = h * 4 + l /\ 0 <= h < 64 /\ 0 <= l < 4.
Proof. pose proof (b2z_range a). exists (b2z a / 4), (b2z a mod 4). pose proof (Z.div_mod (b2z a) 4). pose proof (Z.mod_pos_bound (b2z a) 4). lia. Qed.

Lemma octet_1 a : z2b (b2z a / 4 * 4 + (b2z a mod 4 * 16) / 16) = a.
Proof.
  rewrite <- (z2b_b2z a) at 3. f_equal. rewrite Z.div_mul by lia. pose proof (Z.div_mod (b2z a) 4). lia.
Qed.

Lemma octet_1' a b : z2b (b2z a / 4 * 4 + (b2z a mod 4 * 16 + b2z b / 16) / 16) = a.
Proof.
  rewrite <- (z2b_b2z a) at 3. f_equal. pose proof (b2z_range b). pose proof (Z.div_mod (b2z a) 4).
  rewrite Z.add_comm, (Z.add_comm (_ * 16)), Z.div_add by lia. rewrite (Z.div_small (b2z b / 16)); [lia|].
  split; [apply Z.div_pos; lia|apply Z.div_lt_upper_bound; lia].
Qed.

Lemma octet_2 a b : z2b ((b2z a mod 4 * 16 + b2z b / 16) mod 16 * 16 + (b2z b mod 16 * 4) / 4) = b.
Proof.
  rewrite <- (z2b_b2z b) at 3. f_equal. pose proof (b2z_range b). pose proof (Z.div_mod (b2z b) 16).
  rewrite Z.div_mul by lia. rewrite Z.add_comm, (Z.add_comm (_ * 16)), Z.mod_add by lia. rewrite (Z.mod_small (b2z b / 16)); [lia|].
  split; [apply Z.div_pos; lia|apply Z.div_lt_upper_bound; lia].
Qed.

Lemma octet_2' a b c : z2b ((b2z a mod 4 * 16 + b2z b / 16) mod 16 * 16 + (b2z b mod 16 * 4 + b2z c / 64) / 4) = b.
Proof.
  pose proof (b2z_range b). pose proof (b2z_range c). replace ((b2z b mod 16 * 4 + b2z c / 64) / 4) with ((b2z b mod 16 * 4) / 4); [apply octet_2|].
  rewrite Z.div_mul, Z.add_comm, Z.div_add, Z.div_small by lia || (split; [apply Z.div_pos; lia|apply Z.div_lt_upper_bound; lia]). lia.
Qed.

Lemma octet_3 b c : z2b ((b2z b mod 16 * 4 + b2z c / 64) mod 4 * 64 + b2z c mod 64) = c.
Proof.
  rewrite <- (z2b_b2z c) at 3. f_equal. pose proof (b2z_range c). pose proof (Z.div_mod (b2z c) 64).
  rewrite Z.add_comm, (Z.add_comm (_ * 4)), Z.mod_add by lia. rewrite (Z.mod_small (b2z c / 64)); [lia|].
  split; [apply Z.div_pos; lia|apply Z.div_lt_upper_bound; lia].
Qed.

(** The indices are digits. *)
Lemma index_1 a : 0 <= b2z a / 4 < 64.
Proof. pose proof (b2z_range a). split; [apply Z.div_pos; lia|apply Z.div_lt_upper_bound; lia]. Qed.

Lemma index_2 a b : 0 <= b2z a mod 4 * 16 + b2z b / 16 < 64.
Proof.
  pose proof (b2z_range b). pose proof (Z.mod_pos_bound (b2z a) 4).
  assert (0 <= b2z b / 16 < 16) by (split; [apply Z.div_pos; lia|apply Z.div_lt_upper_bound; lia]). lia.
Qed.

Lemma index_2' a : 0 <= b2z a mod 4 * 16 < 64.
Proof. pose proof (Z.mod_pos_bound (b2z a) 4). lia. Qed.

Lemma index_3 b c : 0 <= b2z b mod 16 * 4 + b2z c / 64 < 64.
Proof.
  pose proof (b2z_range c). pose proof (Z.mod_pos_bound (b2z b) 16).
  assert (0 <= b2z c / 64 < 4) by (split; [apply Z.div_pos; lia|apply Z.div_lt_upper_bound; lia]). lia.
Qed.

Lemma index_3' b : 0 <= b2z b mod 16 * 4 < 64.
Proof. pose proof (Z.mod_pos_bound (b2z b) 16). lia. Qed.

Lemma index_4 c : 0 <= b2z c mod 64 < 64.
Proof. pose proof (Z.mod_pos_bound (b2z c) 64). lia. Qed.

Hint Resolve index_1 index_2 index_2' index_3 index_3' index_4 : core.

Lemma quanta_back src : decode_quanta e (EncodeToString e src) = Some src.
Proof.
  induction src as [|a|a b|a b c src IH] using list_ind3; [done|..]; cbn [EncodeToString]; unfold padding.
  - destruct (enc_padded e) eqn:Ep; cbn [replicate app decode_quanta]; rewrite ?Ep, !digit_back by auto; cbn [mbind option_bind].
    + unfold is_pad. rewrite Ep. change (oct x3d x3d) with true. cbn [andb]. by rewrite octet_1.
    + by rewrite octet_1.
  - destruct (enc_padded e) eqn:Ep; cbn [replicate app decode_quanta]; rewrite ?Ep, !digit_back by auto; cbn [mbind option_bind].
    + rewrite is_pad_digit by auto. rewrite ?digit_back by auto. cbn [mbind option_bind]. unfold is_pad. rewrite Ep. change (oct x3d x3d) with true.
      cbn [andb]. by rewrite octet_1', octet_2.
    + by rewrite octet_1', octet_2.
  - cbn [app decode_quanta]. rewrite !digit_back by auto. cbn [mbind option_bind]. rewrite !is_pad_digit, IH by auto. cbn.
    by rewrite octet_1', octet_2', octet_3.
Qed.

(** Encoded text is printable ASCII. *)
Lemma encoded_plain src : Forall (fun c => oct c x0d = false /\ oct c x0a = false /\ 32 <= b2z c < 128) (EncodeToString e src).
Proof.
  assert (Hd : forall i, 0 <= i < 64 -> oct (digit e i) x0d = false /\ oct (digit e i) x0a = false /\ 32 <= b2z (digit e i) < 128).
  { intros i Hi. destruct (digit_plain i Hi) as (_ & H1 & H2 & H3 & H4). done. }
  assert (Hp : forall n, Forall (fun c => oct c x0d = false /\ oct c x0a = false /\ 32 <= b2z c < 128) (padding e n)).
  { intros n. unfold padding. destruct (enc_padded e); [|constructor]. apply Forall_replicate. done. }
  induction src as [|a|a b|a b c src IH] using list_ind3; cbn [EncodeToString app]; repeat (apply Forall_cons_2; [by auto|]); done.
Qed.

Lemma DecodeString_EncodeToString src : DecodeString e (EncodeToString e src) = Some src.
Proof.
  unfold DecodeString. replace (List.filter _ _) with (EncodeToString e src); [apply quanta_back|].
  pose proof (encoded_plain src) as H. induction H as [|c l (H1 & H2 & _) Hl IH]; [done|]. cbn. rewrite H1, H2. cbn. by f_equal.
Qed.
End roundtrip.

Lemma ascii_utf8 s : Forall (fun c => b2z c < 128) s -> utf8 s.
Proof.
  induction 1 as [|c s Hc Hs IH]; [constructor|]. apply (utf8_char [c] s); [|done]. unfold utf8_size. cbn [app].
  by rewrite (proj2 (Z.ltb_lt _ _)).
Qed.

Lemma encoded_utf8 e `{!Alphabet e} src : utf8 (EncodeToString e src).
Proof. apply ascii_utf8. eapply Forall_impl; [apply encoded_plain; done|]. cbn. lia. Qed.
