(* ===== verification/Discovery.v ===== *)
(** * Discovery documents (ecosystem/npamp-discovery)

    An agent's Ed25519 key as an OKP JSON Web Key, in a did:web DID Document and in a signed
    agent discovery document.  Decoding a JSON text goes through [json.Unmarshal] of
    [JsonTypes] into the Go struct types of the package. *)

From S2P Require Import Prelude Errors Cbor Crypto Json CarriageJson JsonTypes JsonRoundtrip Base64.
From Stdlib Require Import Strings.Byte.
Open Scope Z_scope.

Inductive discovery_error : Type :=
| ErrKeySize
| ErrMalformedJWK
| ErrPrivateKeyJWK
| ErrUnsupportedKty
| ErrUnsupportedCurve
| ErrBadDIDPrefix
| ErrEmptyDIDID
| ErrMalformedDIDDocument
| ErrVerificationMethodNotFound
| ErrUnsupportedVerificationMethodType
| ErrEmptyAgentURL
| ErrEmptyAgentDID
| ErrMalformedDiscoveryDocument
| ErrEnvelopeInvalid
| ErrKeyMismatch
| ErrSignatureInvalid
| ErrFetchFailed
| errMarshal.

Definition PublicKeySize : Z := 32.
Definition PrivateKeySize : Z := 64.
Definition SignatureSize : Z := 64.

(** ** Keys (jwk.go) *)

Record OKPJWK : Type := mkJWK { jwk_Kty : bytes; jwk_Crv : bytes; jwk_X : bytes; jwk_D : bytes }.

Definition OKPJWK_type : goty :=
  TStruct [(str "kty", false, TString); (str "crv", false, TString); (str "x", false, TString); (str "d", true, TString)].

Definition OKPJWK_to (j : OKPJWK) : goval := GStruct [GStr (jwk_Kty j); GStr (jwk_Crv j); GStr (jwk_X j); GStr (jwk_D j)].
Definition OKPJWK_of (v : goval) : OKPJWK :=
  match v with GStruct [GStr kty; GStr crv; GStr x; GStr d] => mkJWK kty crv x d | _ => mkJWK [] [] [] [] end.

Definition BuildOKPJWK (pubkey : bytes) : result discovery_error OKPJWK :=
  check (negb (blen pubkey =? PublicKeySize)) ErrKeySize;;
  Ok (mkJWK (str "OKP") (str "Ed25519") (EncodeToString RawURLEncoding pubkey) []).

Definition ParseOKPJWK (jwk : OKPJWK) : result discovery_error bytes :=
  check (negb (bool_decide (jwk_D jwk = []))) ErrPrivateKeyJWK;;
  check (negb (bool_decide (jwk_Kty jwk = str "OKP"))) ErrUnsupportedKty;;
  check (negb (bool_decide (jwk_Crv jwk = str "Ed25519"))) ErrUnsupportedCurve;;
  raw ← match DecodeString RawURLEncoding (jwk_X jwk) with Some raw => Ok raw | None => Err ErrMalformedJWK end;
  check (negb (blen raw =? PublicKeySize)) ErrKeySize;;
  Ok raw.

Definition ParseOKPJWKBytes (raw : bytes) : result discovery_error bytes :=
  check (blen raw =? 0) ErrMalformedJWK;;
  match Unmarshal OKPJWK_type raw with
  | None => Err ErrMalformedJWK
  | Some v => ParseOKPJWK (OKPJWK_of v)
  end.

(** ** DID Documents (diddoc.go) *)

Definition DIDCoreContext : bytes := str "https://www.w3.org/ns/did/v1".
Definition VerificationMethodType : bytes := str "JsonWebKey2020".

Record VerificationMethod : Type := mkVM { vm_ID : bytes; vm_Type : bytes; vm_Controller : bytes; vm_PublicKeyJWK : OKPJWK }.

(** A nil slice is [None]. *)
Record DIDDocument : Type := mkDID {
  did_Context : option (list bytes);
  did_ID : bytes;
  did_VerificationMethod : option (list VerificationMethod);
  did_Authentication : option (list bytes);
  did_AssertionMethod : option (list bytes)
}.

Definition VerificationMethod_type : goty :=
  TStruct [(str "id", false, TString); (str "type", false, TString); (str "controller", false, TString); (str "publicKeyJwk", false, OKPJWK_type)].
Definition DIDDocument_type : goty :=
  TStruct [(str "@context", false, TSlice TString); (str "id", false, TString); (str "verificationMethod", false, TSlice VerificationMethod_type);
           (str "authentication", true, TSlice TString); (str "assertionMethod", true, TSlice TString)].

Definition text_of (v : goval) : bytes := match v with GStr s => s | _ => [] end.
Definition slice_of {A} (f : goval -> A) (v : goval) : option (list A) := match v with GSlice (Some l) _ => Some (map f l) | _ => None end.
Definition slice_to {A} (f : A -> goval) (l : option (list A)) : goval := GSlice (map f <$> l) [].

Definition VerificationMethod_to (m : VerificationMethod) : goval :=
  GStruct [GStr (vm_ID m); GStr (vm_Type m); GStr (vm_Controller m); OKPJWK_to (vm_PublicKeyJWK m)].
Definition VerificationMethod_of (v : goval) : VerificationMethod :=
  match v with GStruct [GStr i; GStr t; GStr c; k] => mkVM i t c (OKPJWK_of k) | _ => mkVM [] [] [] (mkJWK [] [] [] []) end.

Definition DIDDocument_to (d : DIDDocument) : goval :=
  GStruct [slice_to GStr (did_Context d); GStr (did_ID d); slice_to VerificationMethod_to (did_VerificationMethod d);
           slice_to GStr (did_Authentication d); slice_to GStr (did_AssertionMethod d)].
Definition DIDDocument_of (v : goval) : DIDDocument :=
  match v with
  | GStruct [c; GStr i; m; a; s] => mkDID (slice_of text_of c) i (slice_of VerificationMethod_of m) (slice_of text_of a) (slice_of text_of s)
  | _ => mkDID None [] None None None
  end.

Definition BuildDIDWebDocument (domain pubkey : bytes) : result discovery_error DIDDocument :=
  check (bool_decide (domain = [])) ErrEmptyDIDID;;
  jwk ← BuildOKPJWK pubkey;
  let did := str "did:web:" ++ domain in
  let vmID := did ++ str "#key-1" in
  Ok (mkDID (Some [DIDCoreContext]) did (Some [mkVM vmID VerificationMethodType did jwk]) (Some [vmID]) (Some [vmID])).

Definition MarshalDIDDocument (doc : DIDDocument) : option bytes := Marshal DIDDocument_type (DIDDocument_to doc).

(** The checks on one verification method. *)
Definition check_method (vm : VerificationMethod) : result discovery_error unit :=
  check (bool_decide (vm_ID vm = []) || bool_decide (vm_Type vm = []) || bool_decide (vm_Controller vm = [])) ErrMalformedDIDDocument;;
  check (negb (bool_decide (vm_Type vm = VerificationMethodType))) ErrUnsupportedVerificationMethodType;;
  _ ← ParseOKPJWK (vm_PublicKeyJWK vm);
  Ok tt.

Fixpoint check_methods (l : list VerificationMethod) : result discovery_error unit :=
  match l with
  | [] => Ok tt
  | vm :: l => check_method vm;; check_methods l
  end.

Definition ParseDIDDocument (raw : bytes) : result discovery_error DIDDocument :=
  match Unmarshal DIDDocument_type raw with
  | None => Err ErrMalformedDIDDocument
  | Some v =>
      let doc := DIDDocument_of v in
      let methods := default [] (did_VerificationMethod doc) in
      check (bool_decide (did_ID doc = []) || bool_decide (methods = [])) ErrMalformedDIDDocument;;
      check_methods methods;;
      Ok doc
  end.

(** [None] stands for a nil document. *)
Definition VerificationKey (doc : option DIDDocument) (vmID : bytes) : result discovery_error bytes :=
  match doc with
  | None => Err ErrVerificationMethodNotFound
  | Some doc =>
      match find (fun vm => bool_decide (vm_ID vm = vmID)) (default [] (did_VerificationMethod doc)) with
      | Some vm =>
          check (negb (bool_decide (vm_Type vm = VerificationMethodType))) ErrUnsupportedVerificationMethodType;;
          ParseOKPJWK (vm_PublicKeyJWK vm)
      | None => Err ErrVerificationMethodNotFound
      end
  end.

(** [strings.Split] at an octet. *)
Fixpoint split (c : byte) (s : bytes) : list bytes :=
  match s with
  | [] => [[]]
  | d :: s => match split c s with
              | part :: parts => if oct d c then [] :: part :: parts else (d :: part) :: parts
              | [] => [[d]]
              end
  end.

(** [url.PathUnescape]. *)
Fixpoint PathUnescape (s : bytes) : option bytes :=
  match s with
  | [] => Some []
  | c :: s' =>
      if oct c x25 then
        match s' with
        | h1 :: h2 :: s'' => a ← hex_value h1; b ← hex_value h2; cons (z2b (a * 16 + b)) <$> PathUnescape s''
        | _ => None
        end
      else cons c <$> PathUnescape s'
  end.

Fixpoint unescape_parts (parts : list bytes) : result discovery_error (list bytes) :=
  match parts with
  | [] => Ok []
  | p :: parts =>
      check (bool_decide (p = [])) ErrEmptyDIDID;;
      d ← match PathUnescape p with Some d => Ok d | None => Err ErrMalformedDIDDocument end;
      ds ← unescape_parts parts;
      Ok (d :: ds)
  end.

Definition DIDWebURL (did : bytes) : result discovery_error bytes :=
  match strip (str "did:web:") did with
  | None => Err ErrBadDIDPrefix
  | Some rest =>
      check (bool_decide (rest = [])) ErrEmptyDIDID;;
      parts ← unescape_parts (split x3a rest);
      match parts with
      | [domain] => Ok (str "https://" ++ domain ++ str "/.well-known/did.json")
      | _ => Ok (str "https://" ++ join (str "/") parts ++ str "/did.json")
      end
  end.

(** ** Agent documents (wellknown.go) *)

Definition WellKnownSuffix : bytes := str "npamp-agent.json".
Definition maxDiscoveryDocumentBytes : Z := 2 ^ 20.

Record AgentDiscoveryDocument : Type := mkAgent {
  ad_ProtocolVersion : bytes;
  ad_Name : bytes;
  ad_Description : bytes;
  ad_URL : bytes;
  ad_Version : bytes;
  ad_DID : bytes;
  ad_VerificationMethodID : bytes
}.

Definition AgentDiscoveryDocument_type : goty :=
  TStruct [(str "protocolVersion", false, TString); (str "name", false, TString); (str "description", true, TString); (str "url", false, TString);
           (str "version", true, TString); (str "did", false, TString); (str "verificationMethodId", false, TString)].

Definition Agent_to (d : AgentDiscoveryDocument) : goval :=
  GStruct [GStr (ad_ProtocolVersion d); GStr (ad_Name d); GStr (ad_Description d); GStr (ad_URL d); GStr (ad_Version d); GStr (ad_DID d);
           GStr (ad_VerificationMethodID d)].
Definition Agent_of (v : goval) : AgentDiscoveryDocument :=
  match v with
  | GStruct [GStr p; GStr n; GStr d; GStr u; GStr r; GStr i; GStr m] => mkAgent p n d u r i m
  | _ => mkAgent [] [] [] [] [] [] []
  end.

Definition BuildAgentDiscoveryDocument (name description agentURL version did verificationMethodID : bytes)
    : result discovery_error AgentDiscoveryDocument :=
  check (bool_decide (agentURL = [])) ErrEmptyAgentURL;;
  check (bool_decide (did = [])) ErrEmptyAgentDID;;
  Ok (mkAgent (str "npamp-discovery/1") name description agentURL version did verificationMethodID).

Definition MarshalAgentDiscoveryDocument (doc : AgentDiscoveryDocument) : option bytes := Marshal AgentDiscoveryDocument_type (Agent_to doc).

Definition ParseAgentDiscoveryDocument (raw : bytes) : result discovery_error AgentDiscoveryDocument :=
  match Unmarshal AgentDiscoveryDocument_type raw with
  | None => Err ErrMalformedDiscoveryDocument
  | Some v =>
      let doc := Agent_of v in
      check (bool_decide (ad_URL doc = []) || bool_decide (ad_DID doc = [])) ErrMalformedDiscoveryDocument;;
      Ok doc
  end.

(** What a GET comes to: no response, or a status and a body that ends with the stream or
    with a read error. *)
Inductive fetched : Type :=
| NoResponse
| Fetched (status : Z) (body : bytes) (readOK : bool).

Definition fetchCapped (get : bytes -> fetched) (targetURL : bytes) : result discovery_error bytes :=
  match get targetURL with
  | NoResponse => Err ErrFetchFailed
  | Fetched status body readOK =>
      check ((status <? 200) || (300 <=? status)) ErrFetchFailed;;
      let limited := take (Z.to_nat (maxDiscoveryDocumentBytes + 1)) body in
      check (negb readOK && (blen body <=? maxDiscoveryDocumentBytes)) ErrFetchFailed;;
      check (maxDiscoveryDocumentBytes <? blen limited) ErrFetchFailed;;
      Ok limited
  end.

Definition ResolveWellKnownAgentDocument (get : bytes -> fetched) (domain : bytes) : result discovery_error bytes :=
  check (bool_decide (domain = [])) ErrFetchFailed;;
  fetchCapped get (str "https://" ++ domain ++ str "/.well-known/" ++ WellKnownSuffix).

Definition ResolveDIDWebDocument (get : bytes -> fetched) (did : bytes) : result discovery_error DIDDocument :=
  targetURL ← DIDWebURL did;
  body ← fetchCapped get targetURL;
  ParseDIDDocument body.

(** ** The signed envelope (envelope.go) *)

Record SignedDiscoveryEnvelope : Type := mkSigned { se_Document : option bytes; se_SignerJWK : OKPJWK; se_Signature : bytes }.

Definition Envelope_type : goty := TStruct [(str "document", false, TRaw); (str "signerJwk", false, OKPJWK_type); (str "signature", false, TString)].

Definition Envelope_to (e : SignedDiscoveryEnvelope) : goval := GStruct [GRaw (se_Document e); OKPJWK_to (se_SignerJWK e); GStr (se_Signature e)].
Definition Envelope_of (v : goval) : SignedDiscoveryEnvelope :=
  match v with GStruct [GRaw d; j; GStr s] => mkSigned d (OKPJWK_of j) s | _ => mkSigned None (mkJWK [] [] [] []) [] end.

Section signing.
Context `{Crypto}.

Definition marshalled_or_fail (b : option bytes) : result discovery_error bytes := match b with Some b => Ok b | None => Err errMarshal end.

Definition SignAgentDiscoveryDocument (doc : AgentDiscoveryDocument) (priv : bytes) : result discovery_error bytes :=
  check (negb (blen priv =? PrivateKeySize)) ErrKeySize;;
  docBytes ← marshalled_or_fail (MarshalAgentDiscoveryDocument doc);
  jwk ← BuildOKPJWK (ed25519_public priv);
  let sig := ed25519_sign priv docBytes in
  marshalled_or_fail (Marshal Envelope_type (Envelope_to (mkSigned (Some docBytes) jwk (EncodeToString StdEncoding sig)))).

Definition VerifyAgentDiscoveryDocument (envelopeJSON authenticatedSignerPubKey : bytes) : result discovery_error AgentDiscoveryDocument :=
  check (negb (blen authenticatedSignerPubKey =? PublicKeySize)) ErrKeySize;;
  match Unmarshal Envelope_type envelopeJSON with
  | None => Err ErrEnvelopeInvalid
  | Some v =>
      let env := Envelope_of v in
      let document := default [] (se_Document env) in
      check (bool_decide (document = []) || bool_decide (se_Signature env = []) || bool_decide (jwk_Kty (se_SignerJWK env) = [])) ErrEnvelopeInvalid;;
      claimedKey ← ParseOKPJWK (se_SignerJWK env);
      check (negb (bool_decide (claimedKey = authenticatedSignerPubKey))) ErrKeyMismatch;;
      match DecodeString StdEncoding (se_Signature env) with
      | None => Err ErrSignatureInvalid
      | Some sig =>
          check (negb (blen sig =? SignatureSize)) ErrSignatureInvalid;;
          check (negb (ed25519_verify authenticatedSignerPubKey document sig)) ErrSignatureInvalid;;
          ParseAgentDiscoveryDocument document
      end
  end.
End signing.

Example discovery_example :
  DIDWebURL (str "did:web:example.com%3A3000:user:alice") = Ok (str "https://example.com:3000/user/alice/did.json") /\
  DIDWebURL (str "did:web:example.com") = Ok (str "https://example.com/.well-known/did.json") /\
  DIDWebURL (str "did:web:a::b") = Err ErrEmptyDIDID /\
  ParseAgentDiscoveryDocument (json "{'url':'u','DID':'d','did':'e'}") = Ok (mkAgent [] [] [] (str "u") [] (str "e") []).
Proof. by vm_compute. Qed.

(** ** Keys read back *)

Lemma JWK_roundtrip k jwk : BuildOKPJWK k = Ok jwk -> ParseOKPJWK jwk = Ok k.
Proof.
  unfold BuildOKPJWK. rewrite bind_Ok. intros (u & Hs & [= <-]). apply check_Ok in Hs. unfold ParseOKPJWK. cbn [jwk_D jwk_Kty jwk_Crv jwk_X].
  rewrite !bool_decide_true by done. cbn [negb check mbind result_bind].
  rewrite (DecodeString_EncodeToString RawURLEncoding k). cbn [mbind result_bind]. by rewrite Hs.
Qed.

Lemma JWK_to_of j : OKPJWK_of (OKPJWK_to j) = j.
Proof. by destruct j. Qed.

Lemma text_wf o s d : utf8 s -> if o && is_empty (GStr s) then GStr s = zero TString else wf TString d (GStr s).
Proof. intros Hs. destruct o, s; done. Qed.

Lemma JWK_wf k jwk d : BuildOKPJWK k = Ok jwk -> d < maxNestingDepth -> wf OKPJWK_type d (OKPJWK_to jwk).
Proof.
  unfold BuildOKPJWK. rewrite bind_Ok. intros (u & _ & [= <-]) Hd. split; [done|]. cbn [OKPJWK_to wf_fields jwk_D jwk_Kty jwk_Crv jwk_X].
  repeat split; try (apply text_wf); try (apply utf8_str; by vm_compute). by apply encoded_utf8, url_alphabet.
Qed.

(** ** Agent documents read back *)

Definition agent_texts (doc : AgentDiscoveryDocument) : list bytes :=
  [ad_ProtocolVersion doc; ad_Name doc; ad_Description doc; ad_URL doc; ad_Version doc; ad_DID doc; ad_VerificationMethodID doc].

(** Documents [BuildAgentDiscoveryDocument] makes from valid text. *)
Definition agent_ok (doc : AgentDiscoveryDocument) : Prop := Forall utf8 (agent_texts doc) /\ ad_URL doc <> [] /\ ad_DID doc <> [].

Lemma agent_wf d doc : Forall utf8 (agent_texts doc) -> d < maxNestingDepth -> wf AgentDiscoveryDocument_type d (Agent_to doc).
Proof.
  intros Hu Hd. unfold agent_texts in Hu. rewrite !Forall_cons in Hu. destruct Hu as (H1 & H2 & H3 & H4 & H5 & H6 & H7 & _). split; [done|].
  cbn [Agent_to wf_fields]. repeat split; by apply text_wf.
Qed.

Lemma agent_roundtrip doc : agent_ok doc ->
  exists raw, MarshalAgentDiscoveryDocument doc = Some raw /\ ParseAgentDiscoveryDocument raw = Ok doc /\
    (forall d, 0 <= d < maxNestingDepth -> document_at d raw) /\ compact raw = Some raw.
Proof.
  intros (Hu & Hurl & Hdid).
  destruct (Unmarshal_Marshal AgentDiscoveryDocument_type (Agent_to doc)) as (raw & Hm & Hr & _ & Hc); [by vm_compute|by apply agent_wf|].
  exists raw. split; [done|]. split; [|split; [|done]].
  - unfold ParseAgentDiscoveryDocument. rewrite Hr. assert (Agent_of (Agent_to doc) = doc) as -> by (by destruct doc). cbv zeta.
    by rewrite !bool_decide_false by done.
  - intros d Hd. destruct (values_read_back AgentDiscoveryDocument_type ltac:(by vm_compute) d (Agent_to doc) ltac:(lia) (agent_wf d doc Hu ltac:(lia)))
      as (raw' & Hm' & Hd' & _). unfold MarshalAgentDiscoveryDocument in *. rewrite Hm in Hm'. by injection Hm' as <-.
Qed.

Section trust.
Context `{CryptoLaws}.

Lemma signature_text priv msg : exists s, EncodeToString StdEncoding (ed25519_sign priv msg) = s /\ s <> [] /\ utf8 s /\
  DecodeString StdEncoding s = Some (ed25519_sign priv msg).
Proof.
  eexists. split; [done|]. split; [|split; [by apply encoded_utf8, std_alphabet|by apply DecodeString_EncodeToString, std_alphabet]].
  pose proof (ed25519_sign_size priv msg) as Hs. destruct (ed25519_sign priv msg) as [|a [|b [|c l]]]; done.
Qed.

(** Signing succeeds on a well-formed document, and the envelope reads back. *)
Lemma sign_envelope doc priv : agent_ok doc -> blen priv = PrivateKeySize ->
  exists docBytes jwk s envelopeJSON, SignAgentDiscoveryDocument doc priv = Ok envelopeJSON /\
    Unmarshal Envelope_type envelopeJSON = Some (Envelope_to (mkSigned (Some docBytes) jwk s)) /\
    docBytes <> [] /\ s <> [] /\ jwk_Kty jwk = str "OKP" /\ ParseOKPJWK jwk = Ok (ed25519_public priv) /\
    DecodeString StdEncoding s = Some (ed25519_sign priv docBytes) /\ ParseAgentDiscoveryDocument docBytes = Ok doc.
Proof.
  intros Hdoc Hpriv. destruct (agent_roundtrip doc Hdoc) as (docBytes & Hm & Hp & Hd & Hc).
  destruct (BuildOKPJWK (ed25519_public priv)) as [jwk|] eqn:Hj; [|by unfold BuildOKPJWK in Hj; rewrite ed25519_public_size in Hj].
  destruct (signature_text priv docBytes) as (s & Hs & Hne & Hu & Hdec).
  destruct (Unmarshal_Marshal Envelope_type (Envelope_to (mkSigned (Some docBytes) jwk s))) as (raw & Hme & Hre & _); [by vm_compute| |].
  { split; [done|]. cbn [Envelope_to wf_fields se_Document se_SignerJWK se_Signature]. split; [by split; [apply Hd|]|].
    split; [by apply (JWK_wf _ _ _ Hj)|]. by split. }
  exists docBytes, jwk, s, raw. split.
  - unfold SignAgentDiscoveryDocument. rewrite Hpriv, Hm. change (PrivateKeySize =? PrivateKeySize) with true.
    cbn [negb check mbind result_bind marshalled_or_fail]. rewrite Hj. cbn [mbind result_bind]. by rewrite Hs, Hme.
  - split; [done|]. split; [intros ->; by vm_compute in Hp|]. split; [done|]. split.
    + unfold BuildOKPJWK in Hj. apply bind_Ok in Hj as (u & _ & [= <-]). done.
    + split; [by apply JWK_roundtrip|]. by split.
Qed.

(** C23: An agent document is trusted for the key the caller authenticated, never for what
    the envelope says of itself.  The envelope [SignAgentDiscoveryDocument] makes verifies
    under the signer's own key to the same document and is refused as a key mismatch under
    every other key; and an envelope verifies exactly when the key in its signer JWK is the
    authenticated key, the signature it carries is valid under that key over the document
    octets it carries, and the result is the parse of those octets. *)
Theorem discovery_trust (doc : AgentDiscoveryDocument) (priv : bytes) :
  agent_ok doc -> blen priv = PrivateKeySize ->
  (exists envelopeJSON, SignAgentDiscoveryDocument doc priv = Ok envelopeJSON /\
     forall key, blen key = PublicKeySize ->
       VerifyAgentDiscoveryDocument envelopeJSON key = if bool_decide (key = ed25519_public priv) then Ok doc else Err ErrKeyMismatch) /\
  (forall envelopeJSON key doc', VerifyAgentDiscoveryDocument envelopeJSON key = Ok doc' <->
     blen key = PublicKeySize /\ exists v document sig, Unmarshal Envelope_type envelopeJSON = Some v /\
       let env := Envelope_of v in
       se_Document env = Some document /\ document <> [] /\ jwk_Kty (se_SignerJWK env) <> [] /\ ParseOKPJWK (se_SignerJWK env) = Ok key /\
       se_Signature env <> [] /\ DecodeString StdEncoding (se_Signature env) = Some sig /\ blen sig = SignatureSize /\
       ed25519_verify key document sig = true /\ ParseAgentDiscoveryDocument document = Ok doc').
Proof.
  intros Hdoc Hpriv. split.
  - destruct (sign_envelope doc priv Hdoc Hpriv) as (docBytes & jwk & s & raw & Hsign & Hre & Hd0 & Hs0 & Hkty & Hparse & Hdec & Hp).
    exists raw. split; [done|]. intros key Hkey. unfold VerifyAgentDiscoveryDocument. rewrite Hkey, Hre. change (PublicKeySize =? PublicKeySize) with true.
    cbn [negb check mbind result_bind Envelope_to Envelope_of se_Document se_SignerJWK se_Signature default]. rewrite JWK_to_of, Hkty. unfold id.
    rewrite !bool_decide_false by done. cbn [orb check mbind result_bind]. rewrite Hparse. cbn [mbind result_bind].
    destruct (decide (key = ed25519_public priv)) as [->|Hk]; [rewrite !bool_decide_true by done|rewrite !bool_decide_false by done; done].
    cbn [negb check mbind result_bind]. rewrite Hdec, ed25519_sign_size. change (64 =? SignatureSize) with true. cbn [negb check mbind result_bind].
    by rewrite ed25519_verify_sign.
  - intros raw key doc'. split.
    + unfold VerifyAgentDiscoveryDocument. intros Hv. apply bind_Ok in Hv as (u & H0' & Hv). apply check_Ok, negb_false_iff, Z.eqb_eq in H0'. split; [done|].
      destruct (Unmarshal Envelope_type raw) as [v|]; [|done]. cbv zeta in Hv. apply bind_Ok in Hv as (u1 & H1 & Hv).
      apply check_Ok, orb_false_iff in H1 as [[Hd Hs]%orb_false_iff Ht]. apply bool_decide_eq_false in Hd, Hs, Ht.
      apply bind_Ok in Hv as (k & Hk & Hv). apply bind_Ok in Hv as (u2 & H2 & Hv). apply check_Ok, negb_false_iff, bool_decide_eq_true in H2. subst k.
      destruct (DecodeString _ _) as [sig|] eqn:Hsig; [|done].
      apply bind_Ok in Hv as (u3 & H3 & Hv). apply bind_Ok in Hv as (u4 & H4 & Hv). apply check_Ok, negb_false_iff in H3, H4. apply Z.eqb_eq in H3.
      destruct (se_Document (Envelope_of v)) as [document|] eqn:Ed; [|done]. by exists v, document, sig.
    + intros (Hk & v & document & sig & Hu & Hd & Hd0 & Ht & Hp & Hs0 & Hsig & Hl & Hv & Hdoc2). unfold VerifyAgentDiscoveryDocument. rewrite Hk, Hu.
      change (PublicKeySize =? PublicKeySize) with true. cbn [negb check mbind result_bind]. rewrite Hd. cbn [default id]. rewrite !bool_decide_false by done.
      cbn [orb check mbind result_bind]. rewrite Hp. cbn [mbind result_bind]. rewrite bool_decide_true by done. cbn [negb check mbind result_bind].
      rewrite Hsig, Hl. change (SignatureSize =? SignatureSize) with true. cbn [negb check mbind result_bind]. by rewrite Hv.
Qed.
End trust.

(** ** DID Documents read back *)

Lemma texts_of l : map text_of (map GStr l) = l.
Proof. rewrite map_map. apply map_id. Qed.

Lemma methods_of l : map VerificationMethod_of (map VerificationMethod_to l) = l.
Proof. rewrite map_map. rewrite <- (map_id l) at 2. apply map_ext. intros [i t c j]. unfold VerificationMethod_to, VerificationMethod_of. by rewrite JWK_to_of. Qed.

Lemma DIDDocument_to_of d : DIDDocument_of (DIDDocument_to d) = d.
Proof.
  destruct d as [c i m a s]. unfold DIDDocument_to, DIDDocument_of.
  cbn [did_Context did_ID did_VerificationMethod did_Authentication did_AssertionMethod].
  assert (forall o, slice_of text_of (slice_to GStr o) = o) as Ht by (intros [l|]; [cbn; by rewrite texts_of|done]).
  assert (slice_of VerificationMethod_of (slice_to VerificationMethod_to m) = m) as Hm by (destruct m; [cbn; by rewrite methods_of|done]).
  by rewrite !Ht, Hm.
Qed.

Lemma built_document domain k doc : BuildDIDWebDocument domain k = Ok doc ->
  exists jwk, BuildOKPJWK k = Ok jwk /\ domain <> [] /\
    let did := str "did:web:" ++ domain in let vmID := did ++ str "#key-1" in
    doc = mkDID (Some [DIDCoreContext]) did (Some [mkVM vmID VerificationMethodType did jwk]) (Some [vmID]) (Some [vmID]).
Proof.
  unfold BuildDIDWebDocument. rewrite bind_Ok. intros (u & Hd & H). apply check_Ok, bool_decide_eq_false in Hd.
  apply bind_Ok in H as (jwk & Hj & [= <-]). by exists jwk.
Qed.

Lemma built_document_wf domain k doc : utf8 domain -> BuildDIDWebDocument domain k = Ok doc -> wf DIDDocument_type 0 (DIDDocument_to doc).
Proof.
  intros Hu Hb. destruct (built_document _ _ _ Hb) as (jwk & Hj & _ & ->).
  assert (utf8 (str "did:web:" ++ domain)) as Hdid by (apply utf8_app; [apply utf8_str; by vm_compute|done]).
  assert (utf8 ((str "did:web:" ++ domain) ++ str "#key-1")) as Hvm by (apply utf8_app; [done|apply utf8_str; by vm_compute]).
  split; [done|]. cbn [DIDDocument_to wf_fields did_Context did_ID did_VerificationMethod did_Authentication did_AssertionMethod slice_to fmap option_fmap option_map map is_empty andb].
  split; [split; [done|]; apply Forall_singleton, utf8_str; by vm_compute|]. split; [done|].
  split; [split; [done|]; apply Forall_singleton|].
  { split; [done|]. cbn [VerificationMethod_to wf_fields vm_ID vm_Type vm_Controller vm_PublicKeyJWK andb is_empty].
    split; [done|]. split; [apply utf8_str; by vm_compute|]. split; [done|]. split; [|done]. by apply (JWK_wf _ _ _ Hj). }
  split; [split; [done|]; by apply Forall_singleton|]. split; [split; [done|]; by apply Forall_singleton|done].
Qed.

Lemma built_document_checked domain k doc : BuildDIDWebDocument domain k = Ok doc ->
  check_methods (default [] (did_VerificationMethod doc)) = Ok tt /\ did_ID doc <> [] /\ default [] (did_VerificationMethod doc) <> [] /\
  VerificationKey (Some doc) (did_ID doc ++ str "#key-1") = Ok k.
Proof.
  intros Hb. destruct (built_document _ _ _ Hb) as (jwk & Hj & _ & ->). pose proof (JWK_roundtrip _ _ Hj) as Hp. cbv zeta.
  split; [|split; [done|split; [done|]]].
  - cbn [did_VerificationMethod default check_methods]. unfold id. cbn [check_methods]. unfold check_method.
    cbn [vm_ID vm_Type vm_Controller vm_PublicKeyJWK]. rewrite Hp. done.
  - unfold VerificationKey. cbn [did_VerificationMethod default did_ID]. unfold id. cbn [find vm_ID]. rewrite bool_decide_true by done.
    cbn [vm_Type vm_PublicKeyJWK]. rewrite bool_decide_true by done. exact Hp.
Qed.

(** A key published through did:web is the key a resolver gets.  For every domain of
    valid text and every 32-octet key the DID Document marshals, and a resolver that fetches
    those octets with a 2xx status from the URL of the DID gets the same document, whose
    verification method [#key-1] carries the published key; a larger body, another status or
    a failed read is a failed fetch. *)
Theorem did_resolution (domain k : bytes) :
  domain <> [] -> utf8 domain -> blen k = PublicKeySize ->
  exists doc raw, BuildDIDWebDocument domain k = Ok doc /\ MarshalDIDDocument doc = Some raw /\
    forall (get : bytes -> fetched) (url body : bytes) (status : Z) (readOK : bool),
      DIDWebURL (did_ID doc) = Ok url -> get url = Fetched status body readOK ->
      if (200 <=? status) && (status <? 300) && readOK && (blen body <=? maxDiscoveryDocumentBytes) then
        body = raw -> ResolveDIDWebDocument get (did_ID doc) = Ok doc /\ VerificationKey (Some doc) (did_ID doc ++ str "#key-1") = Ok k
      else ResolveDIDWebDocument get (did_ID doc) = Err ErrFetchFailed.
Proof.
  intros Hne Hu Hk. destruct (BuildDIDWebDocument domain k) as [doc|] eqn:Hb.
  2: { unfold BuildDIDWebDocument, BuildOKPJWK in Hb. rewrite bool_decide_false, Hk in Hb by done. done. }
  destruct (Unmarshal_Marshal DIDDocument_type (DIDDocument_to doc)) as (raw & Hm & Hr & _); [by vm_compute|by apply (built_document_wf domain k)|].
  destruct (built_document_checked _ _ _ Hb) as (Hc & Hid & Hms & Hkey).
  exists doc, raw. split; [done|]. split; [done|]. intros get url body status readOK Hurl Hget.
  unfold ResolveDIDWebDocument. rewrite Hurl. cbn [mbind result_bind]. unfold fetchCapped. rewrite Hget.
  destruct (Z.ltb_spec status 200), (Z.leb_spec 200 status), (Z.ltb_spec status 300), (Z.leb_spec 300 status); try lia; try done.
  destruct readOK; cbn [orb andb negb check mbind result_bind].
  - destruct (Z.leb_spec (blen body) maxDiscoveryDocumentBytes) as [Hl|Hl].
    + intros ->. rewrite take_ge by (unfold blen, maxDiscoveryDocumentBytes in *; lia). rewrite (proj2 (Z.ltb_ge _ _)) by lia. cbn [check mbind result_bind].
      split; [|done]. unfold ParseDIDDocument. rewrite Hr, DIDDocument_to_of. cbv zeta. by rewrite !bool_decide_false, Hc by done.
    + rewrite (proj2 (Z.ltb_lt _ _)); [done|]. unfold blen in *. rewrite length_take. unfold maxDiscoveryDocumentBytes in *. lia.
  - destruct (blen body <=? maxDiscoveryDocumentBytes) eqn:Hl; [done|]. cbn [check mbind result_bind]. apply Z.leb_gt in Hl.
    rewrite (proj2 (Z.ltb_lt _ _)); [done|]. unfold blen in *. rewrite length_take. unfold maxDiscoveryDocumentBytes in *. lia.
Qed.

(** ** Samples *)

Definition sample_key : bytes := replicate 32 x07.
Definition sample_agent : AgentDiscoveryDocument :=
  mkAgent (str "npamp-discovery/1") (str "agent <a>") [] (str "npamp://a.example:4433") (str "1") (str "did:web:a.example") (str "did:web:a.example#key-1").

Lemma discovery_trust_witness :
  exists envelopeJSON, SignAgentDiscoveryDocument (H := Toy.crypto) sample_agent (replicate 64 x05) = Ok envelopeJSON /\
    VerifyAgentDiscoveryDocument (H := Toy.crypto) envelopeJSON sample_key = Err ErrKeyMismatch.
Proof.
  destruct (discovery_trust (H := Toy.crypto) (H0 := Toy.laws) sample_agent (replicate 64 x05)) as [(e & He & Hv) _].
  - split; [|split; discriminate]. repeat constructor; apply utf8_str; vm_compute; reflexivity.
  - reflexivity.
  - exists e. split; [exact He|]. rewrite (Hv sample_key eq_refl). reflexivity.
Defined.

Lemma did_resolution_witness :
  exists doc raw, BuildDIDWebDocument (str "a.example") sample_key = Ok doc /\ MarshalDIDDocument doc = Some raw /\
    ResolveDIDWebDocument (fun _ => Fetched 404 [] true) (did_ID doc) = Err ErrFetchFailed.
Proof.
  destruct (did_resolution (str "a.example") sample_key) as (doc & raw & Hb & Hm & Hr).
  - discriminate.
  - apply utf8_str. vm_compute. reflexivity.
  - reflexivity.
  - exists doc, raw. split; [exact Hb|]. split; [exact Hm|].
    apply (Hr (fun _ => Fetched 404 [] true) (str "https://a.example/.well-known/did.json") [] 404 true); [|reflexivity].
    injection Hb as <-. reflexivity.
Defined.
