(* ===== verification/Gnap.v ===== *)
(** * The GNAP client (ecosystem/npamp-gnap)

    The wire types of a grant request and response, the continuation poller, HTTP message
    signatures over covered components, and the export of a waypoint grant as an assertion.
    A value of a Go struct type is a [GStruct] of [JsonTypes] with the fields in declaration
    order. *)

From S2P Require Import Prelude Errors Cbor Crypto CarriageHttp Json JsonLine CarriageJson JsonTypes JsonRoundtrip Base64 Discovery Sha256.
From Stdlib Require Import Strings.Byte.
From stdpp Require Import gmap.
Open Scope Z_scope.

Inductive gnap_error : Type :=
| ErrKeyProofMismatch
| ErrMalformedRequest
| ErrMalformedResponse
| ErrContinuationMissing
| ErrUnknownComponent
| ErrGrantDenied
| ErrAuthorityExport
| ErrMalformedWaypointGrant
| errJSON
| errKey (e : discovery_error).

(** ** Wire types (gnaptypes.go) *)

Definition texts : goty := TSlice TString.

Definition AccessDescriptor : goty :=
  TStruct [(str "type", false, TString); (str "actions", true, texts); (str "locations", true, texts); (str "datatypes", true, texts); (str "identifier", true, TString)].
Definition AccessTokenRequest : goty := TStruct [(str "access", false, TSlice AccessDescriptor); (str "label", true, TString); (str "flags", true, texts)].
Definition Key : goty := TStruct [(str "proof", false, TString); (str "jwk", false, TRaw)].
Definition ClientField : goty := TStruct [(str "key", false, Key)].
Definition SubjectIdentifier : goty := TMap.
Definition Assertion : goty := TStruct [(str "format", false, TString); (str "value", false, TString)].
Definition UserField : goty := TStruct [(str "sub_ids", true, TSlice SubjectIdentifier); (str "assertions", true, TSlice Assertion)].
Definition SubjectRequest : goty :=
  TStruct [(str "sub_id_formats", true, texts); (str "assertion_formats", true, texts); (str "sub_ids", true, TSlice SubjectIdentifier)].
Definition InteractFinish : goty := TStruct [(str "method", false, TString); (str "uri", false, TString); (str "nonce", false, TString)].
Definition InteractRequest : goty := TStruct [(str "start", false, texts); (str "finish", true, TPtr InteractFinish)].
Definition GrantRequest : goty :=
  TStruct [(str "access_token", false, AccessTokenRequest); (str "client", false, ClientField); (str "user", true, TPtr UserField);
           (str "subject", true, TPtr SubjectRequest); (str "interact", true, TPtr InteractRequest)].

Definition ContinueAccessToken : goty := TStruct [(str "value", false, TString)].
Definition Continue : goty := TStruct [(str "access_token", false, ContinueAccessToken); (str "uri", false, TString); (str "wait", true, TInt)].
Definition TokenManage : goty := TStruct [(str "uri", false, TString)].
Definition AccessTokenResponse : goty :=
  TStruct [(str "value", false, TString); (str "access", true, TSlice AccessDescriptor); (str "manage", true, TPtr TokenManage);
           (str "label", true, TString); (str "expires_in", true, TInt); (str "flags", true, texts); (str "key", true, TPtr Key)].
Definition InteractResponse : goty := TStruct [(str "redirect", true, TString); (str "app", true, TString); (str "finish", true, TString)].
Definition SubjectResponse : goty :=
  TStruct [(str "sub_ids", true, TSlice SubjectIdentifier); (str "assertions", true, TSlice Assertion); (str "updated_at", true, TString)].
Definition GNAPError : goty := TStruct [(str "code", false, TString); (str "description", true, TString)].
Definition GrantResponse : goty :=
  TStruct [(str "continue", true, TPtr Continue); (str "access_token", true, TPtr AccessTokenResponse); (str "interact", true, TPtr InteractResponse);
           (str "subject", true, TPtr SubjectResponse); (str "instance_id", true, TString); (str "error", true, TPtr GNAPError)].
Definition ContinuationRequest : goty := TStruct [(str "interact_ref", true, TString)].

(** Field [i] of a struct value. *)
Definition field_at (v : goval) (i : nat) : goval := match v with GStruct vals => nth i vals (GPtr None) | _ => GPtr None end.
Definition is_nil (v : goval) : bool := match v with GPtr None => true | _ => false end.
Definition elements_of (v : goval) : list goval := match v with GSlice (Some l) _ => l | _ => [] end.

Definition EncodeGrantRequest (r : goval) : result gnap_error bytes :=
  check (bool_decide (elements_of (field_at (field_at r 0) 0) = [])) ErrMalformedRequest;;
  check (negb (bool_decide (text_of (field_at (field_at (field_at r 1) 0) 0) = str "httpsig"))) ErrMalformedRequest;;
  match Marshal GrantRequest r with Some b => Ok b | None => Err errJSON end.

(** ** The client instance (gnapclient.go) *)

Definition keyJWK (pubKey : bytes) : result gnap_error bytes :=
  jwk ← map_err errKey (BuildOKPJWK pubKey);
  match Marshal OKPJWK_type (OKPJWK_to jwk) with Some b => Ok b | None => Err errJSON end.

Definition Client_ClientField (pubKey : bytes) : result gnap_error goval :=
  jwk ← keyJWK pubKey;
  Ok (GStruct [GStruct [GStr (str "httpsig"); GRaw (Some jwk)]]).

Definition mkAssertion (format value : bytes) : goval := GStruct [GStr format; GStr value].

Definition BuildGrantRequest (pubKey : bytes) (access : option (list goval)) (assertion : option (bytes * bytes)) : result gnap_error goval :=
  cf ← Client_ClientField pubKey;
  let user := match assertion with
              | Some (format, value) =>
                  if bool_decide (format = []) then None
                  else Some (GStruct [GSlice None []; GSlice (Some [mkAssertion format value]) []])
              | None => None
              end in
  Ok (GStruct [GStruct [GSlice access []; GStr []; GSlice None []]; cf; GPtr user; GPtr None; GPtr None]).

(** ** Continuation (gnapcontinue.go) *)

(** The response comes back with [ErrGrantDenied] too. *)
Definition ParseGrantResponse (body : bytes) : option goval * option gnap_error :=
  match Unmarshal GrantResponse body with
  | None => (None, Some ErrMalformedResponse)
  | Some r =>
      if negb (is_nil (field_at r 5)) then (Some r, Some ErrGrantDenied)
      else if is_nil (field_at r 1) && is_nil (field_at r 0) then (None, Some ErrMalformedResponse)
      else (Some r, None)
  end.

Definition continue_URI (c : goval) : bytes := text_of (field_at c 1).
Definition continue_token (c : goval) : bytes := text_of (field_at (field_at c 0) 0).
Definition incomplete (c : goval) : bool := bool_decide (continue_URI c = []) || bool_decide (continue_token c = []).

(** A poller is its continuation. *)
Definition NewPoller (c : goval) : result gnap_error goval :=
  check (incomplete c) ErrContinuationMissing;;
  Ok c.

Definition NextRequest (p : goval) (interactRef : bytes) : result gnap_error (bytes * bytes * bytes) :=
  match Marshal ContinuationRequest (GStruct [GStr interactRef]) with
  | Some body => Ok (continue_URI p, str "GNAP " ++ continue_token p, body)
  | None => Err errJSON
  end.

(** The poller after the call and its error. *)
Definition Advance (p resp : goval) : goval * option gnap_error :=
  if negb (is_nil (field_at resp 1)) then (p, None)
  else match field_at resp 0 with
       | GPtr (Some c) => if incomplete c then (p, Some ErrContinuationMissing) else (c, None)
       | _ => (p, Some ErrContinuationMissing)
       end.

(** ** HTTP message signatures (gnapsig.go) *)

Definition GNAPCoveredComponentsBase : list bytes := [str "@method"; str "@target-uri"].

Definition RequiredComponents (hasBody hasAuthorization : bool) : list bytes :=
  GNAPCoveredComponentsBase ++ (if hasBody then [str "content-digest"] else []) ++ (if hasAuthorization then [str "authorization"] else []).

Record SignatureParams : Type := mkParams {
  sp_Created : Z;       (* int64 *)
  sp_Expires : Z;
  sp_Nonce : bytes;
  sp_Alg : bytes;
  sp_KeyID : bytes;
  sp_Tag : bytes
}.

(** The runes of a string, an invalid octet being the replacement character. *)
Fixpoint sf_body (fuel : nat) (s : bytes) : bytes :=
  match fuel with
  | O => []
  | S fuel =>
      match s with
      | [] => []
      | c :: s' =>
          match utf8_size s with
          | None => replacement ++ sf_body fuel s'
          | Some n => (if oct c x5c || oct c x22 then [x5c] else []) ++ take n s ++ sf_body fuel (drop n s)
          end
      end
  end.

Definition sfString (s : bytes) : bytes := [x22] ++ sf_body (length s) s ++ [x22].

Definition int_param (name : bytes) (z : Z) : bytes := if z =? 0 then [] else str ";" ++ name ++ str "=" ++ FormatInt z.
Definition text_param (name : bytes) (s : bytes) : bytes := if bool_decide (s = []) then [] else str ";" ++ name ++ str "=" ++ sfString s.

Definition serializeParams (p : SignatureParams) : bytes :=
  int_param (str "created") (sp_Created p) ++ int_param (str "expires") (sp_Expires p) ++ text_param (str "nonce") (sp_Nonce p) ++
  text_param (str "alg") (sp_Alg p) ++ text_param (str "keyid") (sp_KeyID p) ++ text_param (str "tag") (sp_Tag p).

Definition serializeComponentList (components : list bytes) : bytes := str "(" ++ Json.join (str " ") (map sfString components) ++ str ")".

(** The lines of the covered components. *)
Fixpoint component_lines (components : list bytes) (values : gmap bytes bytes) : result gnap_error bytes :=
  match components with
  | [] => Ok []
  | c :: components =>
      v ← match values !! c with Some v => Ok v | None => Err ErrUnknownComponent end;
      rest ← component_lines components values;
      Ok (sfString c ++ str ": " ++ v ++ [x0a] ++ rest)
  end.

Definition BuildSignatureBase (components : list bytes) (values : gmap bytes bytes) (params : SignatureParams) : result gnap_error bytes :=
  lines ← component_lines components values;
  Ok (lines ++ sfString (str "@signature-params") ++ str ": " ++ serializeComponentList components ++ serializeParams params).

Definition AlgTag : bytes := str "ed25519".

Section signatures.
Context `{Crypto}.

Definition Sign (priv : bytes) (components : list bytes) (values : gmap bytes bytes) (params : SignatureParams) : result gnap_error (bytes * bytes) :=
  base ← BuildSignatureBase components values params;
  Ok (base, ed25519_sign priv base).

Definition Verify (pub : bytes) (components : list bytes) (values : gmap bytes bytes) (params : SignatureParams) (sig : bytes) : result gnap_error unit :=
  base ← BuildSignatureBase components values params;
  check (negb (ed25519_verify pub base sig)) ErrKeyProofMismatch.
End signatures.

(** [ContentDigest]. *)
Definition ContentDigest (body : bytes) : bytes := str "sha-512=:" ++ EncodeToString StdEncoding (sha512 body) ++ str ":".

Definition BuildSignatureInputHeader (label : bytes) (components : list bytes) (params : SignatureParams) : bytes :=
  label ++ str "=" ++ serializeComponentList components ++ serializeParams params.

Definition BuildSignatureHeader (label sig : bytes) : bytes := label ++ str "=:" ++ EncodeToString StdEncoding sig ++ str ":".

(** ** Waypoint export (gnapexport.go, gnapexport_decode.go) *)

(** [EffectClass] is a [uint8]. *)
Definition EffectReadOnly : Z := 0.
Definition EffectIdempotentWrite : Z := 1.
Definition EffectNonIdempotentWrite : Z := 2.
Definition EffectDestructive : Z := 3.

Definition EffectClassFromWire (v : Z) : Z :=
  if v =? 0 then EffectReadOnly else if v =? 1 then EffectIdempotentWrite else if v =? 2 then EffectNonIdempotentWrite else EffectDestructive.

Definition EffectClass_String (e : Z) : bytes :=
  if e =? EffectReadOnly then str "read_only"
  else if e =? EffectIdempotentWrite then str "idempotent_write"
  else if e =? EffectNonIdempotentWrite then str "non_idempotent_write"
  else str "destructive".

Definition AssertionFormatWaypointGrant : bytes := str "npamp-waypoint-grant".

Record WaypointAssertionPayload : Type := mkPayload { wp_SignerID : bytes; wp_Audience : bytes; wp_Effect : bytes; wp_MaxGrant : bytes }.

Definition Payload_type : goty :=
  TStruct [(str "signer_id", false, TString); (str "audience", false, TString); (str "effect", false, TString); (str "max_grant", false, TString)].
Definition Payload_to (p : WaypointAssertionPayload) : goval := GStruct [GStr (wp_SignerID p); GStr (wp_Audience p); GStr (wp_Effect p); GStr (wp_MaxGrant p)].

Record WaypointGrant : Type := mkGrant { wg_SignerID : bytes; wg_MaxGrant : Z; wg_ConsumingAuthority : bytes }.

Definition ExportWaypointEvidence (grant : WaypointGrant) (audience : bytes) (requestedEffect : Z) : result gnap_error (bytes * bytes) :=
  check (negb (bool_decide (audience = wg_ConsumingAuthority grant))) ErrAuthorityExport;;
  check (wg_MaxGrant grant <? requestedEffect) ErrAuthorityExport;;
  let payload := mkPayload (wg_SignerID grant) audience (EffectClass_String requestedEffect) (EffectClass_String (wg_MaxGrant grant)) in
  match Marshal Payload_type (Payload_to payload) with
  | Some b => Ok (AssertionFormatWaypointGrant, b)
  | None => Err errJSON
  end.

Definition waypointGrantWire : goty :=
  TStruct [(str "signer_id", false, TString); (str "consuming_authority", false, TString); (str "max_grant", false, TString)].

Definition effectClassFromToken (s : bytes) : option Z :=
  if bool_decide (s = str "read_only") then Some EffectReadOnly
  else if bool_decide (s = str "idempotent_write") then Some EffectIdempotentWrite
  else if bool_decide (s = str "non_idempotent_write") then Some EffectNonIdempotentWrite
  else if bool_decide (s = str "destructive") then Some EffectDestructive
  else None.

Definition DecodeWaypointGrant (jsonBytes : bytes) : result gnap_error WaypointGrant :=
  match Unmarshal waypointGrantWire jsonBytes with
  | None => Err ErrMalformedWaypointGrant
  | Some wire =>
      let signer := text_of (field_at wire 0) in
      let authority := text_of (field_at wire 1) in
      check (bool_decide (signer = [])) ErrMalformedWaypointGrant;;
      check (bool_decide (authority = [])) ErrMalformedWaypointGrant;;
      match effectClassFromToken (text_of (field_at wire 2)) with
      | None => Err ErrMalformedWaypointGrant
      | Some maxGrant => Ok (mkGrant signer maxGrant authority)
      end
  end.

Definition ExportWaypointEvidenceFromJSON (jsonBytes audience : bytes) (requestedEffect : Z) : result gnap_error (bytes * bytes) :=
  grant ← DecodeWaypointGrant jsonBytes;
  ExportWaypointEvidence grant audience requestedEffect.

Example gnap_example :
  DecodeWaypointGrant (json "{'signer_id':'agent-b','consuming_authority':'gateway-a','max_grant':'non_idempotent_write'}")
    = Ok (mkGrant (str "agent-b") 2 (str "gateway-a")) /\
  BuildSignatureBase [str "@method"] {[str "@method" := str "POST"]} (mkParams 5 0 [] (str "ed25519") [] [])
    = Ok (json "'@method': POST" ++ [x0a] ++ json "'@signature-params': ('@method');created=5;alg='ed25519'") /\
  (match ParseGrantResponse (json "{'continue':{'access_token':{'value':'t'},'uri':'u','wait':5}}") with
   | (Some r, None) => match Advance (GStruct []) r with (p, None) => NextRequest p [] | _ => Err errJSON end
   | _ => Err errJSON end) = Ok (str "u", str "GNAP t", str "{}").
Proof. by vm_compute. Qed.
