(* ===== verification/GnapSafety.v ===== *)
(** * What the GNAP client guarantees

    The export of a waypoint grant never confers more than the grant; a signature base
    determines what was signed; the poller always holds a usable continuation. *)

From S2P Require Import Prelude Errors Cbor Crypto CarriageHttp Json JsonLine CarriageJson JsonAny JsonTypes JsonRoundtrip Base64 Discovery Gnap.
From Stdlib Require Import Strings.Byte.
From stdpp Require Import gmap.
Open Scope Z_scope.

(** ** Waypoint export *)

Lemma token_of_effect e : 0 <= e <= 3 -> effectClassFromToken (EffectClass_String e) = Some e.
Proof. intros He. assert (e = 0 \/ e = 1 \/ e = 2 \/ e = 3) as [-> | [-> | [-> | ->]]] by lia; by vm_compute. Qed.

Lemma effect_of_token s e : effectClassFromToken s = Some e -> 0 <= e <= 3.
Proof.
  unfold effectClassFromToken, EffectReadOnly, EffectIdempotentWrite, EffectNonIdempotentWrite, EffectDestructive.
  repeat case_bool_decide; try done; intros [= <-]; lia.
Qed.

Lemma EffectClass_String_utf8 e : utf8 (EffectClass_String e).
Proof. unfold EffectClass_String. repeat case_match; apply utf8_str; by vm_compute. Qed.

(** What a decoded grant holds. *)
Lemma decoded_grant raw g : DecodeWaypointGrant raw = Ok g ->
  wg_SignerID g <> [] /\ wg_ConsumingAuthority g <> [] /\ 0 <= wg_MaxGrant g <= 3 /\ utf8 (wg_SignerID g) /\ utf8 (wg_ConsumingAuthority g).
Proof.
  unfold DecodeWaypointGrant. destruct (Unmarshal waypointGrantWire raw) as [wire|] eqn:Hw; [|done]. cbv zeta.
  apply text_struct_read in Hw as (ss & -> & Hl & Hu); [|repeat constructor]. destruct ss as [|a [|b [|c [|? ?]]]]; try done.
  rewrite !Forall_cons in Hu. destruct Hu as (Ha & Hb & Hc & _). cbn [map field_at nth text_of].
  rewrite bind_Ok. intros (u1 & H1 & H). apply bind_Ok in H as (u2 & H2 & H). apply check_Ok, bool_decide_eq_false in H1, H2.
  destruct (effectClassFromToken c) as [e|] eqn:He; [|done]. injection H as <-. apply effect_of_token in He. done.
Qed.

Lemma exported_payload p : Forall utf8 [wp_SignerID p; wp_Audience p; wp_Effect p; wp_MaxGrant p] ->
  exists value, Marshal Payload_type (Payload_to p) = Some value /\ Unmarshal Payload_type value = Some (Payload_to p).
Proof.
  intros Hu. rewrite !Forall_cons in Hu. destruct Hu as (H1 & H2 & H3 & H4 & _).
  destruct (Unmarshal_Marshal Payload_type (Payload_to p)) as (value & Hm & Hr & _); [by vm_compute|by repeat split|by exists value].
Qed.

(** C25: Exporting a waypoint grant never widens it.  A payload that does not decode, names no
    signer or authority, or carries an unknown ceiling exports nothing; a decoded one
    exports exactly when the audience is the grant's own authority and the requested effect
    is at or below its ceiling, and the assertion then reads back to the grant's signer, that
    audience, the requested effect and the ceiling; every other request is refused. *)
Theorem waypoint_export (raw audience : bytes) (requestedEffect : Z) :
  match DecodeWaypointGrant raw with
  | Err e => e = ErrMalformedWaypointGrant /\ ExportWaypointEvidenceFromJSON raw audience requestedEffect = Err ErrMalformedWaypointGrant
  | Ok g =>
      0 <= wg_MaxGrant g <= EffectDestructive /\
      if bool_decide (audience = wg_ConsumingAuthority g) && (requestedEffect <=? wg_MaxGrant g) then
        exists value, ExportWaypointEvidenceFromJSON raw audience requestedEffect = Ok (AssertionFormatWaypointGrant, value) /\
          exists p, Unmarshal Payload_type value = Some (Payload_to p) /\ wp_SignerID p = wg_SignerID g /\ wp_Audience p = audience /\
            effectClassFromToken (wp_MaxGrant p) = Some (wg_MaxGrant g) /\
            (0 <= requestedEffect -> effectClassFromToken (wp_Effect p) = Some requestedEffect)
      else ExportWaypointEvidenceFromJSON raw audience requestedEffect = Err ErrAuthorityExport
  end.
Proof.
  unfold ExportWaypointEvidenceFromJSON. destruct (DecodeWaypointGrant raw) as [g|e] eqn:Hd; cbn [mbind result_bind].
  - destruct (decoded_grant raw g Hd) as (_ & _ & Hmax & Hus & Hua). split; [exact Hmax|]. unfold ExportWaypointEvidence.
    case_bool_decide as Ha; [|done]. cbn [negb check mbind result_bind andb]. destruct (Z.leb_spec requestedEffect (wg_MaxGrant g)) as [He|He].
    + rewrite (proj2 (Z.ltb_ge _ _)) by lia. cbn [check mbind result_bind]. cbv zeta. subst audience.
      destruct (exported_payload (mkPayload (wg_SignerID g) (wg_ConsumingAuthority g) (EffectClass_String requestedEffect) (EffectClass_String (wg_MaxGrant g))))
        as (value & Hm & Hr); [repeat constructor; try done; apply EffectClass_String_utf8|].
      rewrite Hm. exists value. split; [done|]. eexists. split; [exact Hr|]. split; [done|]. split; [done|]. split; [by apply token_of_effect|].
      intros H0. apply token_of_effect. lia.
    + by rewrite (proj2 (Z.ltb_lt _ _)) by lia.
  - assert (e = ErrMalformedWaypointGrant) as ->; [|done]. unfold DecodeWaypointGrant in Hd.
    destruct (Unmarshal waypointGrantWire raw); [|congruence]. cbv zeta in Hd. unfold check in Hd.
    repeat case_bool_decide; cbn [mbind result_bind] in Hd; try congruence. by destruct (effectClassFromToken _); [|congruence].
Qed.

(** ** Structured strings *)

(** Reading a structured string after its opening quote. *)
Fixpoint sf_read (b : bytes) : option (bytes * bytes) :=
  match b with
  | [] => None
  | c :: b =>
      if oct c x22 then Some ([], b)
      else if oct c x5c then
        match b with
        | d :: b => '(s, r) ← sf_read b; Some (d :: s, r)
        | [] => None
        end
      else '(s, r) ← sf_read b; Some (c :: s, r)
  end.

Lemma sf_read_plain c b : oct c x22 = false -> oct c x5c = false -> sf_read (c :: b) = '(s, r) ← sf_read b; Some (c :: s, r).
Proof. intros H1 H2. cbn [sf_read]. by rewrite H1, H2. Qed.

Lemma sf_read_high l b : Forall (fun c => 128 <= b2z c) l -> sf_read (l ++ b) = '(s, r) ← sf_read b; Some (l ++ s, r).
Proof.
  induction 1 as [|c l Hc Hl IH]; [cbn [app]; by destruct (sf_read b) as [[]|]|]. cbn [app]. rewrite sf_read_plain.
  - rewrite IH. by destruct (sf_read b) as [[]|].
  - destruct (oct c x22) eqn:E; [apply oct_eq in E as ->; by vm_compute in Hc|done].
  - destruct (oct c x5c) eqn:E; [apply oct_eq in E as ->; by vm_compute in Hc|done].
Qed.

Lemma sf_body_read s f r : utf8 s -> (length s <= f)%nat -> sf_read (sf_body f s ++ x22 :: r) = Some (s, r).
Proof.
  intros Hs. revert f. induction Hs as [|c s Hc Hs IH]; intros f Hf; [by destruct f|].
  pose proof (utf8_size_take _ _ Hc) as Hn. rewrite length_app in Hf, Hn. destruct f as [|f]; [lia|].
  destruct c as [|x c]; [cbn in Hn; lia|]. cbn [app sf_body]. change (x :: c ++ s) with ((x :: c) ++ s). rewrite Hc, take_app_length, drop_app_length.
  specialize (IH f ltac:(cbn [length] in *; lia)). destruct (utf8_size_shape x (c ++ s) (length (x :: c)) Hc) as [[Hl Hx]|Hr].
  - destruct c; [|done]. destruct (oct x x5c || oct x x22) eqn:E; cbn [app].
    + cbn [sf_read]. change (oct x5c x22) with false. change (oct x5c x5c) with true. cbv iota. by rewrite IH.
    + apply orb_false_iff in E as [E1 E2]. rewrite sf_read_plain by done. by rewrite IH.
  - assert (Hh : Forall (fun c => 128 <= b2z c) (x :: c)).
    { assert (128 <= b2z x) as Hx by (destruct Hr as [[H _]|[[H _]|[H _]]]; done).
      pose proof (utf8_size_high ((x :: c) ++ s) (length (x :: c)) Hc Hx) as H. by rewrite take_app_length in H. }
    apply Forall_cons_1 in Hh as Hx. destruct Hx as [Hx _]. assert (oct x x5c || oct x x22 = false) as ->.
    { destruct (oct x x5c) eqn:E1; [apply oct_eq in E1 as ->; by vm_compute in Hx|]. destruct (oct x x22) eqn:E2; [apply oct_eq in E2 as ->; by vm_compute in Hx|done]. }
    cbn [app]. change (x :: (c ++ sf_body f s) ++ x22 :: r) with (((x :: c) ++ sf_body f s) ++ x22 :: r). rewrite <- app_assoc, sf_read_high by done. by rewrite IH.
Qed.

(** A structured string delimits itself. *)
Lemma sfString_inj s1 s2 r1 r2 : utf8 s1 -> utf8 s2 -> sfString s1 ++ r1 = sfString s2 ++ r2 -> s1 = s2 /\ r1 = r2.
Proof.
  intros H1 H2 E. unfold sfString in E. cbn [app] in E. injection E as E. rewrite <- !app_assoc in E. cbn [app] in E.
  pose proof (sf_body_read s1 _ r1 H1 (le_n _)) as P1. rewrite E, (sf_body_read s2 _ r2 H2 (le_n _)) in P1. by injection P1 as <- <-.
Qed.

Lemma newline_free_sub n s : newline_free s -> newline_free (take n s) /\ newline_free (drop n s).
Proof. intros H. rewrite <- (take_drop n s) in H. by apply newline_free_app in H. Qed.

Lemma sf_body_free f s : newline_free s -> newline_free (sf_body f s).
Proof.
  revert s. induction f as [|f IH]; intros s Hs; [apply newline_free_nil|]. destruct s as [|c s]; [apply newline_free_nil|]. cbn [sf_body].
  destruct (utf8_size (c :: s)) as [n|].
  - rewrite !newline_free_app. split; [destruct (_ || _); [apply newline_free_cons; split; [done|]|]; apply newline_free_nil|].
    destruct (newline_free_sub n _ Hs) as [H1 H2]. split; [done|]. by apply IH.
  - apply newline_free_app. split; [apply (bool_decide_unpack (newline_free replacement)); by vm_compute|]. apply newline_free_cons in Hs as [_ Hs]. by apply IH.
Qed.

Lemma sfString_free s : newline_free s -> newline_free (sfString s).
Proof.
  intros Hs. unfold sfString. rewrite !newline_free_app, newline_free_cons. split; [split; [done|apply newline_free_nil]|].
  split; [by apply sf_body_free|]. split; [done|apply newline_free_nil].
Qed.

(** ** Parameters *)

(** What may follow a parameter whose name starts with [l]: nothing, or a parameter with
    another name. *)
Definition follows (l : byte) (r : bytes) : Prop :=
  match r with
  | [] => True
  | a :: x :: _ => a = x3b /\ x <> l
  | _ => False
  end.

Lemma follows_stop l r c r' : follows l r -> r = c :: r' -> number_octet c = false.
Proof. intros H ->. destruct r' as [|x r']; [done|]. by destruct H as [-> _]. Qed.

Lemma int_param_inj l name z1 z2 r1 r2 : - 2 ^ 63 <= z1 < 2 ^ 63 -> - 2 ^ 63 <= z2 < 2 ^ 63 -> follows l r1 -> follows l r2 ->
  int_param (l :: name) z1 ++ r1 = int_param (l :: name) z2 ++ r2 -> z1 = z2 /\ r1 = r2.
Proof.
  intros Hz1 Hz2 H1 H2 E. unfold int_param in E. destruct (Z.eqb_spec z1 0) as [->|N1], (Z.eqb_spec z2 0) as [->|N2]; [done|..]; cbn [app str] in E.
  - subst r1. by destruct H1 as [_ H1].
  - subst r2. by destruct H2 as [_ H2].
  - injection E as E. rewrite <- !app_assoc in E. apply app_inv_head in E. cbn [app] in E. injection E as E.
    destruct (number_prefix _ _ _ _ (FormatInt_octets z1) (FormatInt_octets z2) (fun c r => follows_stop l r1 c r H1) (fun c r => follows_stop l r2 c r H2) E) as [E1 ->].
    split; [by apply FormatInt_inj|done].
Qed.

Lemma text_param_inj l name s1 s2 r1 r2 : utf8 s1 -> utf8 s2 -> follows l r1 -> follows l r2 ->
  text_param (l :: name) s1 ++ r1 = text_param (l :: name) s2 ++ r2 -> s1 = s2 /\ r1 = r2.
Proof.
  intros U1 U2 H1 H2 E. assert (Hn : forall n, text_param n [] = []) by done.
  assert (Hp : forall n s, s <> [] -> text_param n s = str ";" ++ n ++ str "=" ++ sfString s) by (intros n s Hs; unfold text_param; by rewrite bool_decide_false).
  destruct (decide (s1 = [])) as [->|N1], (decide (s2 = [])) as [->|N2]; rewrite ?Hn, ?Hp in E by done; [done|..]; cbn [app str] in E.
  - subst r1. by destruct H1 as [_ H1].
  - subst r2. by destruct H2 as [_ H2].
  - injection E as E. rewrite <- !app_assoc in E. apply app_inv_head in E. cbn [app] in E. injection E as E.
    apply sfString_inj; try done. unfold sfString. cbn [app]. by rewrite E.
Qed.

Lemma follows_int l m name z r : m <> l -> follows l r -> follows l (int_param (m :: name) z ++ r).
Proof. intros Hm Hr. unfold int_param. by destruct (z =? 0). Qed.

Lemma follows_text l m name s r : m <> l -> follows l r -> follows l (text_param (m :: name) s ++ r).
Proof. intros Hm Hr. unfold text_param. by case_bool_decide. Qed.

Record params_ok (p : SignatureParams) : Prop := {
  po_created : - 2 ^ 63 <= sp_Created p < 2 ^ 63;
  po_expires : - 2 ^ 63 <= sp_Expires p < 2 ^ 63;
  po_utf8 : Forall utf8 [sp_Nonce p; sp_Alg p; sp_KeyID p; sp_Tag p];
  po_free : Forall newline_free [sp_Nonce p; sp_Alg p; sp_KeyID p; sp_Tag p]
}.

Lemma serializeParams_inj p1 p2 : params_ok p1 -> params_ok p2 -> serializeParams p1 = serializeParams p2 -> p1 = p2.
Proof.
  intros [C1 E1 U1 _] [C2 E2 U2 _] E. destruct p1 as [c1 e1 n1 a1 k1 t1], p2 as [c2 e2 n2 a2 k2 t2].
  unfold serializeParams in E. cbn [sp_Created sp_Expires sp_Nonce sp_Alg sp_KeyID sp_Tag] in *.
  rewrite !Forall_cons in U1, U2. destruct U1 as (N1 & A1 & K1 & T1 & _), U2 as (N2 & A2 & K2 & T2 & _).
  assert (Hf : forall l e n a k t, l <> x65 -> l <> x6e -> l <> x61 -> l <> x6b -> l <> x74 ->
    follows l (int_param (str "expires") e ++ text_param (str "nonce") n ++ text_param (str "alg") a ++ text_param (str "keyid") k ++ text_param (str "tag") t)).
  { intros l e n a k t H1 H2 H3 H4 H5. rewrite <- (app_nil_r (text_param (str "tag") t)).
    apply follows_int; [done|]. do 4 (apply follows_text; [done|]). done. }
  apply int_param_inj in E as [-> E]; [|done|done|apply Hf; done|apply Hf; done].
  rewrite <- (app_nil_r (text_param (str "tag") t1)), <- (app_nil_r (text_param (str "tag") t2)) in E.
  apply int_param_inj in E as [-> E]; [|done|done|repeat (apply follows_text; [done|]); done|repeat (apply follows_text; [done|]); done].
  apply text_param_inj in E as [-> E]; [|done|done|repeat (apply follows_text; [done|]); done|repeat (apply follows_text; [done|]); done].
  apply text_param_inj in E as [-> E]; [|done|done|repeat (apply follows_text; [done|]); done|repeat (apply follows_text; [done|]); done].
  apply text_param_inj in E as [-> E]; [|done|done|repeat (apply follows_text; [done|]); done|repeat (apply follows_text; [done|]); done].
  apply text_param_inj in E as [-> _]; done.
Qed.

(** ** The signature base *)

Lemma first_newline a1 a2 r1 r2 : newline_free a1 -> newline_free a2 -> a1 ++ x0a :: r1 = a2 ++ x0a :: r2 -> a1 = a2 /\ r1 = r2.
Proof.
  revert a2. induction a1 as [|c a1 IH]; intros [|d a2] H1 H2 E; cbn [app] in E.
  - by injection E as ->.
  - injection E as <- _. by apply newline_free_cons in H2 as [H2 _].
  - injection E as -> _. by apply newline_free_cons in H1 as [H1 _].
  - injection E as -> E. apply newline_free_cons in H1 as [_ H1], H2 as [_ H2]. destruct (IH a2 H1 H2 E) as [-> ->]. done.
Qed.

(** Components of valid text, values and parameters on one line each. *)
Record signable (components : list bytes) (values : gmap bytes bytes) (params : SignatureParams) : Prop := {
  sg_names : Forall (fun c => utf8 c /\ newline_free c) components;
  sg_values c v : c ∈ components -> values !! c = Some v -> newline_free v;
  sg_params : params_ok params
}.

Lemma component_line c components values L : component_lines (c :: components) values = Ok L ->
  exists v rest, values !! c = Some v /\ component_lines components values = Ok rest /\ L = sfString c ++ str ": " ++ v ++ x0a :: rest.
Proof.
  cbn [component_lines]. destruct (values !! c) as [v|]; [|done]. cbn [mbind result_bind].
  destruct (component_lines components values) as [rest|]; [|done]. cbn [mbind result_bind]. intros [= <-]. by exists v, rest.
Qed.

Lemma lines_inj components1 components2 values1 values2 L1 L2 last1 last2 :
  Forall (fun c => utf8 c /\ newline_free c) components1 -> Forall (fun c => utf8 c /\ newline_free c) components2 ->
  (forall c v, c ∈ components1 -> values1 !! c = Some v -> newline_free v) ->
  (forall c v, c ∈ components2 -> values2 !! c = Some v -> newline_free v) ->
  newline_free last1 -> newline_free last2 ->
  component_lines components1 values1 = Ok L1 -> component_lines components2 values2 = Ok L2 -> L1 ++ last1 = L2 ++ last2 ->
  components1 = components2 /\ (forall c, c ∈ components1 -> values1 !! c = values2 !! c) /\ last1 = last2.
Proof.
  intros N1. revert components2 L1 L2. induction N1 as [|c1 cs1 [U1 _] N1 IH]; intros [|c2 cs2] L1 L2 N2 V1 V2 F1 F2 B1 B2 E.
  - injection B1 as <-. injection B2 as <-. split; [done|]. split; [|done]. intros c Hc. by apply elem_of_nil in Hc.
  - injection B1 as <-. apply component_line in B2 as (v & rest & _ & _ & ->). exfalso. cbn [app] in E. apply F1. rewrite E. set_solver.
  - injection B2 as <-. apply component_line in B1 as (v & rest & _ & _ & ->). exfalso. cbn [app] in E. apply F2. rewrite <- E. set_solver.
  - apply component_line in B1 as (v1 & rest1 & Hv1 & B1 & ->), B2 as (v2 & rest2 & Hv2 & B2 & ->). apply Forall_cons_1 in N2 as [[U2 _] N2].
    rewrite <- !app_assoc in E. apply sfString_inj in E as [-> E]; [|done|done]. apply app_inv_head in E. cbn [app] in E.
    apply first_newline in E as [-> E]; [|by apply (V1 c2 v1); [left|]|by apply (V2 c2 v2); [left|]].
    destruct (IH cs2 rest1 rest2 N2) as (-> & Hvals & ->); try done.
    + intros c v Hc. apply V1. by right.
    + intros c v Hc. apply V2. by right.
    + split; [done|]. split; [|done]. intros c [->|Hc]%elem_of_cons; [congruence|by apply Hvals].
Qed.

Lemma int_param_free name z : newline_free name -> newline_free (int_param name z).
Proof.
  intros Hn. unfold int_param. destruct (z =? 0); [apply newline_free_nil|]. rewrite !newline_free_app.
  split; [apply (bool_decide_unpack (newline_free (str ";"))); by vm_compute|]. split; [done|]. split; [apply (bool_decide_unpack (newline_free (str "="))); by vm_compute|].
  intros H. pose proof (FormatInt_octets z) as Ho. rewrite Forall_forall in Ho. specialize (Ho _ H). by vm_compute in Ho.
Qed.

Lemma text_param_free name s : newline_free name -> newline_free s -> newline_free (text_param name s).
Proof.
  intros Hn Hs. unfold text_param. case_bool_decide; [apply newline_free_nil|]. rewrite !newline_free_app.
  split; [apply (bool_decide_unpack (newline_free (str ";"))); by vm_compute|]. split; [done|]. split; [apply (bool_decide_unpack (newline_free (str "="))); by vm_compute|].
  by apply sfString_free.
Qed.

Ltac literal_free := match goal with |- newline_free ?b => apply (bool_decide_unpack (newline_free b)); by vm_compute end.

Lemma last_line_free components params : Forall (fun c => utf8 c /\ newline_free c) components -> params_ok params ->
  newline_free (sfString (str "@signature-params") ++ str ": " ++ serializeComponentList components ++ serializeParams params).
Proof.
  intros Hc [_ _ _ Hf]. rewrite !Forall_cons in Hf. destruct Hf as (F1 & F2 & F3 & F4 & _). unfold serializeParams, serializeComponentList.
  rewrite !newline_free_app. split; [literal_free|]. split; [literal_free|]. split; [split; [literal_free|split; [|literal_free]]|].
  - induction Hc as [|c cs [_ Hc] Hcs IH]; [literal_free|]. cbn [map Json.join]. destruct cs as [|d cs]; [by apply sfString_free|].
    cbn [map Json.join] in *. rewrite !newline_free_app. split; [by apply sfString_free|]. split; [literal_free|exact IH].
  - split; [apply int_param_free; literal_free|]. split; [apply int_param_free; literal_free|].
    split_and!; apply text_param_free; try done; literal_free.
Qed.

Lemma base_inj components1 components2 values1 values2 params1 params2 base :
  signable components1 values1 params1 -> signable components2 values2 params2 ->
  BuildSignatureBase components1 values1 params1 = Ok base -> BuildSignatureBase components2 values2 params2 = Ok base ->
  components1 = components2 /\ (forall c, c ∈ components1 -> values1 !! c = values2 !! c) /\ params1 = params2.
Proof.
  intros [N1 V1 P1] [N2 V2 P2] B1 B2. unfold BuildSignatureBase in B1, B2. apply bind_Ok in B1 as (L1 & B1 & [= E1]), B2 as (L2 & B2 & [= E2]).
  rewrite <- E2 in E1. destruct (lines_inj _ _ _ _ _ _ _ _ N1 N2 V1 V2 (last_line_free _ _ N1 P1) (last_line_free _ _ N2 P2) B1 B2 E1) as (-> & Hv & E).
  split; [done|]. split; [done|]. apply app_inv_head, app_inv_head, app_inv_head in E. by apply serializeParams_inj.
Qed.

Section proofing.
Context `{CryptoLaws}.

(** C24: A key proof binds what it covers.  The signature [Sign] makes verifies under the
    signer's key for the same covered components, values and parameters; and among requests
    whose components and parameters are UTF-8 and, like the values, free of newlines, no
    other component list, component value or parameter gives the same signature base, so
    the octets under the signature name exactly one such request.  A covered
    component without a value is refused, never signed as absent. *)
Theorem key_proof_binds (priv : bytes) (components : list bytes) (values : gmap bytes bytes) (params : SignatureParams) :
  signable components values params ->
  if bool_decide (Forall (fun c => is_Some (values !! c)) components) then
    exists base sig, Sign priv components values params = Ok (base, sig) /\
      Verify (ed25519_public priv) components values params sig = Ok tt /\
      forall components' values' params', signable components' values' params' -> BuildSignatureBase components' values' params' = Ok base ->
        components = components' /\ (forall c, c ∈ components -> values !! c = values' !! c) /\ params = params'
  else Sign priv components values params = Err ErrUnknownComponent.
Proof.
  intros Hs. assert (Hlines : match component_lines components values with
    | Ok _ => Forall (fun c => is_Some (values !! c)) components
    | Err e => e = ErrUnknownComponent /\ ~ Forall (fun c => is_Some (values !! c)) components end).
  { clear Hs. induction components as [|c cs IH]; [constructor|]. cbn [component_lines]. destruct (values !! c) as [v|] eqn:Ev; cbn [mbind result_bind].
    - destruct (component_lines cs values) as [rest|e]; cbn [mbind result_bind]; [constructor; [by rewrite Ev|done]|].
      destruct IH as [-> Hn]. split; [done|]. by intros [_ H1]%Forall_cons_1.
    - split; [done|]. intros [H1 _]%Forall_cons_1. rewrite Ev in H1. by destruct H1. }
  unfold Sign, Verify. destruct (component_lines components values) as [L|e] eqn:EL.
  - rewrite bool_decide_true by done. destruct (BuildSignatureBase components values params) as [base|] eqn:EB; [|by unfold BuildSignatureBase in EB; rewrite EL in EB].
    exists base, (ed25519_sign priv base). split; [done|]. split; [cbn [mbind result_bind]; by rewrite ed25519_verify_sign|].
    intros cs' vs' ps' Hs' HB. by apply (base_inj _ _ _ _ _ _ base Hs Hs' EB HB).
  - destruct Hlines as [-> Hn]. rewrite bool_decide_false by done. unfold BuildSignatureBase. by rewrite EL.
Qed.
End proofing.

(** The one-line condition is needed and is not checked: with a newline inside a
    component value the lines shift, and two requests that differ in their covered values
    have the same signature base, hence the same valid signature. *)
Theorem newline_ambiguous :
  exists (components : list bytes) (values1 values2 : gmap bytes bytes) (params : SignatureParams) (base : bytes),
    BuildSignatureBase components values1 params = Ok base /\ BuildSignatureBase components values2 params = Ok base /\
    exists c, c ∈ components /\ values1 !! c <> values2 !! c.
Proof.
  set (a := str "a"). set (b := str "b"). set (line := [x0a] ++ json "'b': ").
  exists [a; b], (<[a := str "1" ++ line ++ str "2"]> {[b := str "3"]}), (<[a := str "1"]> {[b := str "2" ++ line ++ str "3"]}), (mkParams 0 0 [] [] [] []).
  eexists. split; [by vm_compute|]. split; [by vm_compute|]. exists a. split; [by left|]. by vm_compute.
Qed.

(** ** The poller *)

(** Pollers reached by feeding responses to [Advance]. *)
Lemma poller_complete c p responses : NewPoller c = Ok p ->
  incomplete (fold_left (fun p r => (Advance p r).1) responses p) = false.
Proof.
  unfold NewPoller. rewrite bind_Ok. intros (u & Hc & [= <-]). apply check_Ok in Hc. revert c Hc.
  induction responses as [|r rs IH]; intros c Hc; [done|]. cbn [fold_left]. apply IH. unfold Advance.
  destruct (negb _); [done|]. destruct (field_at r 0) as [| | | |[x|]| | | |]; try done. by destruct (incomplete x) eqn:E.
Qed.

Lemma key_proof_binds_witness :
  let values : gmap bytes bytes := {[str "@method" := str "POST"]} in
  exists base sig, Sign (H := Toy.crypto) (replicate 64 x05) [str "@method"] values (mkParams 5 0 [] [] [] []) = Ok (base, sig) /\
    Verify (H := Toy.crypto) (ed25519_public (Crypto := Toy.crypto) (replicate 64 x05)) [str "@method"] values (mkParams 5 0 [] [] [] []) sig = Ok tt.
Proof.
  intros values.
  assert (signable [str "@method"] values (mkParams 5 0 [] [] [] [])) as Hs.
  { split.
    - apply Forall_singleton. split; [apply utf8_str; vm_compute; reflexivity|literal_free].
    - intros c v Hc Hv. apply list_elem_of_singleton in Hc. subst c. vm_compute in Hv. injection Hv as <-. literal_free.
    - split; cbn [sp_Created sp_Expires]; [lia|lia|repeat constructor|repeat constructor; apply newline_free_nil]. }
  pose proof (key_proof_binds (H := Toy.crypto) (H0 := Toy.laws) (replicate 64 x05) _ _ _ Hs) as P.
  rewrite bool_decide_true in P by (apply Forall_singleton; eexists; vm_compute; reflexivity).
  destruct P as (base & sig & H1 & H2 & _). exists base, sig. split; [exact H1|exact H2].
Defined.
