(* ===== verification/SchemaVersion.v ===== *)
(** * The schema manifest check (schemaversion/schemaversion.go)

    The manifest pins the CDDL artifact by a SHA-256 over its octets.  Reading a file is a
    parameter: what [os.ReadFile] returns for the manifest and for the artifact. *)

From S2P Require Import Prelude Errors Cbor Sha256 CarriageHttp Json CarriageJson JsonTypes JsonRoundtrip Base64 Discovery.
From Stdlib Require Import Strings.Byte.
Open Scope Z_scope.

Record Manifest : Type := mkManifest {
  mf_Artifact : bytes;
  mf_ArtifactPath : bytes;
  mf_CDDLArtifactVersion : bytes;
  mf_WireFormatVersion : Z;
  mf_CryptoGeneration : Z;
  mf_ALPN : bytes;
  mf_SpecRevision : bytes;
  mf_CDDLGrammar : bytes;
  mf_RootRule : bytes;
  mf_SHA256 : bytes
}.

Definition Manifest_type : goty :=
  TStruct [(str "artifact", false, TString); (str "artifactPath", false, TString); (str "cddlArtifactVersion", false, TString);
           (str "wireFormatVersion", false, TInt); (str "cryptoGeneration", false, TInt); (str "alpn", false, TString);
           (str "specRevision", false, TString); (str "cddlGrammar", false, TString); (str "rootRule", false, TString); (str "sha256", false, TString)].

Definition Manifest_of (v : goval) : Manifest :=
  match v with
  | GStruct [GStr a; GStr p; GStr c; GInt w; GInt g; GStr l; GStr s; GStr r; GStr t; GStr h] => mkManifest a p c w g l s r t h
  | _ => mkManifest [] [] [] 0 0 [] [] [] [] []
  end.

Inductive manifest_error : Type :=
| readManifest
| parseManifest
| ErrIncompleteManifest
| sha256Length (n : Z)
| sha256Hex
| readArtifact
| sha256Mismatch.

Definition requiredStringFields (m : Manifest) : list bytes :=
  [mf_Artifact m; mf_ArtifactPath m; mf_CDDLArtifactVersion m; mf_SpecRevision m; mf_RootRule m; mf_SHA256 m].

(** [hex.DecodeString]. *)
Fixpoint hex_decode (s : bytes) : option bytes :=
  match s with
  | [] => Some []
  | h1 :: h2 :: s => a ← hex_value h1; b ← hex_value h2; cons (z2b (a * 16 + b)) <$> hex_decode s
  | [_] => None
  end.

(** [hex.EncodeToString]. *)
Definition hex_encode (b : bytes) : bytes := flat_map (fun c => [hex_char (b2z c / 16); hex_char (b2z c mod 16)]) b.

Definition LoadManifest (file : option bytes) : result manifest_error Manifest :=
  raw ← match file with Some raw => Ok raw | None => Err readManifest end;
  v ← match Unmarshal Manifest_type raw with Some v => Ok v | None => Err parseManifest end;
  let m := Manifest_of v in
  check (existsb (fun val => bool_decide (val = [])) (requiredStringFields m)) ErrIncompleteManifest;;
  check (negb (blen (mf_SHA256 m) =? 64)) (sha256Length (blen (mf_SHA256 m)));;
  check (bool_decide (hex_decode (mf_SHA256 m) = None)) sha256Hex;;
  check (mf_WireFormatVersion m <=? 0) ErrIncompleteManifest;;
  Ok m.

Fixpoint fold_equal (a b : bytes) : bool :=
  match a, b with
  | ca :: a, cb :: b => oct (to_lower_octet ca) (to_lower_octet cb) && fold_equal a b
  | _, _ => true
  end.

Definition equalFoldHex (a b : bytes) : bool := (blen a =? blen b) && fold_equal a b.

Definition VerifyManifest (m : Manifest) (artifact : option bytes) : result manifest_error unit :=
  raw ← match artifact with Some raw => Ok raw | None => Err readArtifact end;
  check (negb (equalFoldHex (hex_encode (sha256 raw)) (mf_SHA256 m))) sha256Mismatch.

(** The manifest of the repository, without the notes its Go type has no field for. *)
Example repository_manifest :
  LoadManifest (Some (json "{'artifact':'npamp-wire.cddl','artifactPath':'schema/npamp-wire.cddl','cddlArtifactVersion':'1.2.0','wireFormatVersion':2,'cryptoGeneration':3,'alpn':'n-pamp/3','specRevision':'draft-bubblefish-npamp-02','cddlGrammar':'RFC 8610 + RFC 9682','rootRule':'npamp-frame','sha256':'82cd4b4788f6ac424fcc1e4b9beb9d92876d5fe325aefe949d287684819578ae','scopeNote':'x'}"))
  = Ok (mkManifest (str "npamp-wire.cddl") (str "schema/npamp-wire.cddl") (str "1.2.0") 2 3 (str "n-pamp/3") (str "draft-bubblefish-npamp-02")
         (str "RFC 8610 + RFC 9682") (str "npamp-frame") (str "82cd4b4788f6ac424fcc1e4b9beb9d92876d5fe325aefe949d287684819578ae")).
Proof. by vm_compute. Qed.

(** ** Hex *)

(** Two digits compare equal up to case exactly when they have the same value. *)
Definition fold_value_ok (z : Z) (c : byte) : bool :=
  Bool.eqb (oct (to_lower_octet (hex_char z)) (to_lower_octet c)) (bool_decide (hex_value c = Some z)).

Lemma fold_value z c : 0 <= z < 16 -> oct (to_lower_octet (hex_char z)) (to_lower_octet c) = bool_decide (hex_value c = Some z).
Proof.
  intros Hz. apply eqb_prop. fold (fold_value_ok z c).
  assert (forallb (fun n => forallb (fun m => fold_value_ok (Z.of_nat n) (z2b (Z.of_nat m))) (seq 0 256)) (seq 0 16) = true) as H by (by vm_compute).
  rewrite forallb_forall in H. specialize (H (Z.to_nat z) ltac:(apply in_seq; lia)). rewrite forallb_forall in H.
  pose proof (b2z_range c) as Hc. specialize (H (Z.to_nat (b2z c)) ltac:(apply in_seq; lia)).
  rewrite !Z2Nat.id, z2b_b2z in H by lia. exact H.
Qed.

Lemma fold_equal_hex b s : blen s = 2 * blen b -> fold_equal (hex_encode b) s = bool_decide (hex_decode s = Some b).
Proof.
  unfold blen. revert s. induction b as [|c b IH]; intros s Hl; [by destruct s|]. destruct s as [|h1 [|h2 s]]; cbn [length] in Hl; try lia.
  cbn [hex_encode flat_map app fold_equal hex_decode]. fold (hex_encode b). pose proof (b2z_range c) as Hc.
  assert (0 <= b2z c / 16 < 16) as H1 by (split; [apply Z.div_pos; lia|apply Z.div_lt_upper_bound; lia]).
  pose proof (Z.mod_pos_bound (b2z c) 16 ltac:(lia)) as H2. rewrite !fold_value, IH by lia. pose proof (Z.div_mod (b2z c) 16 ltac:(lia)) as Hdm.
  apply eq_true_iff_eq. rewrite !andb_true_iff, !bool_decide_eq_true. split.
  - intros (-> & -> & ->). cbn [mbind option_bind fmap option_fmap option_map]. do 2 f_equal.
    rewrite <- (z2b_b2z c) at 3. f_equal. lia.
  - rewrite bind_Some. intros (a & Ha & H). apply bind_Some in H as (d & Hd & H). destruct (hex_decode s) as [t|]; [|done].
    injection H as <- <-. apply hex_value_range in Ha as Ra, Hd as Rd. rewrite b2z_z2b_small in * by lia.
    rewrite Ha, Hd. replace ((a * 16 + d) / 16) with a by (rewrite Z.div_add_l, Z.div_small by lia; lia).
    replace ((a * 16 + d) mod 16) with d; [done|]. rewrite Z.add_comm, Z.mod_add, Z.mod_small by lia. done.
Qed.

Lemma hex_encode_length b : blen (hex_encode b) = 2 * blen b.
Proof. unfold hex_encode, blen. induction b as [|c b IH]; [done|]. cbn [flat_map app length]. lia. Qed.

Lemma hex_char_all (P : byte -> bool) z : forallb P (str "0123456789abcdef") = true -> P (hex_char z) = true.
Proof.
  intros H. rewrite forallb_forall in H. apply H. unfold hex_char.
  destruct (nth_in_or_default (Z.to_nat z) (str "0123456789abcdef") x30) as [Hin|E]; [done|]. rewrite E. by left.
Qed.

Lemma hex_char_low z : b2z (hex_char z) < 128.
Proof. apply Z.ltb_lt. by apply (hex_char_all (fun c => b2z c <? 128)). Qed.

Lemma hex_encode_utf8 b : utf8 (hex_encode b).
Proof.
  apply ascii_utf8. induction b as [|c b IH]; [constructor|]. cbn [hex_encode flat_map app].
  repeat (constructor; [apply hex_char_low|]). exact IH.
Qed.

Lemma hex_value_char z : 0 <= z < 16 -> hex_value (hex_char z) = Some z.
Proof.
  intros Hz. assert (Forall (fun z => hex_value (hex_char z) = Some z) (seqZ 0 16)) as H by (vm_compute; by repeat constructor).
  rewrite Forall_forall in H. apply H, elem_of_seqZ. lia.
Qed.

Lemma hex_roundtrip b : hex_decode (hex_encode b) = Some b.
Proof.
  induction b as [|c b IH]; [done|]. pose proof (b2z_range c) as Hc. cbn [hex_encode flat_map app hex_decode]. fold (hex_encode b).
  rewrite (hex_value_char (b2z c / 16)) by (split; [apply Z.div_pos|apply Z.div_lt_upper_bound]; lia).
  rewrite (hex_value_char (b2z c mod 16)), IH by (apply Z.mod_pos_bound; lia).
  cbn [mbind option_bind fmap option_fmap option_map]. rewrite Z.mul_comm, <- Z.div_mod by lia. by rewrite z2b_b2z.
Qed.

(** The pin has teeth.  A manifest that loads names all required fields and holds the
    hex digits of some 32-octet hash, in either case; verifying it accepts an artifact
    exactly when that hash is the SHA-256 of the artifact's octets, so an artifact edited
    without a new pin is refused and a re-cased pin is not. *)
Theorem manifest_pins (file : option bytes) (m : Manifest) (raw : bytes) :
  LoadManifest file = Ok m ->
  exists h, hex_decode (mf_SHA256 m) = Some h /\ 0 < mf_WireFormatVersion m /\ [] ∉ requiredStringFields m /\
    VerifyManifest m (Some raw) = (if bool_decide (sha256 raw = h) then Ok tt else Err sha256Mismatch) /\
    VerifyManifest m None = Err readArtifact.
Proof.
  unfold LoadManifest. rewrite bind_Ok. intros (r & _ & H). apply bind_Ok in H as (v & _ & H). cbv zeta in H. revert H. generalize (Manifest_of v). intros m' H.
  apply bind_Ok in H as (u1 & H1 & H). apply bind_Ok in H as (u2 & H2 & H). apply bind_Ok in H as (u3 & H3 & H). apply bind_Ok in H as (u4 & H4 & [= ->]).
  apply check_Ok in H1, H2, H3, H4. apply negb_false_iff, Z.eqb_eq in H2. apply bool_decide_eq_false in H3. apply Z.leb_gt in H4.
  destruct (hex_decode (mf_SHA256 m)) as [h|] eqn:Eh; [|done]. exists h. split; [done|]. split; [done|]. split.
  - intros Hin. assert (existsb (fun val => bool_decide (val = [])) (requiredStringFields m) = true) as E; [|congruence].
    apply existsb_exists. exists []. split; [by apply list_elem_of_In|done].
  - split; [|done]. unfold VerifyManifest, equalFoldHex. cbn [mbind result_bind].
    assert (blen (sha256 raw) = 32) as Hl by (unfold blen; by rewrite length_sha256).
    rewrite hex_encode_length, Hl, H2. change (2 * 32 =? 64) with true. cbn [andb]. rewrite fold_equal_hex by (rewrite Hl; lia). rewrite Eh.
    destruct (decide (sha256 raw = h)) as [->|Hne]; [by rewrite !bool_decide_true|].
    rewrite !bool_decide_false by (done || congruence). done.
Qed.

Definition sample_manifest : bytes :=
  json "{'artifact':'a','artifactPath':'p','cddlArtifactVersion':'1','wireFormatVersion':2,'specRevision':'r','rootRule':'f','sha256':'BA7816BF8F01CFEA414140DE5DAE2223B00361A396177A9CB410FF61F20015AD'}".

Lemma manifest_pins_witness :
  exists m, LoadManifest (Some sample_manifest) = Ok m /\ VerifyManifest m (Some (str "abc")) = Ok tt /\ VerifyManifest m (Some (str "abd")) = Err sha256Mismatch.
Proof.
  eexists. split; [vm_compute; reflexivity|].
  destruct (manifest_pins (Some sample_manifest) _ (str "abc") ltac:(vm_compute; reflexivity)) as (h & Hh & _ & _ & Hv & _).
  destruct (manifest_pins (Some sample_manifest) _ (str "abd") ltac:(vm_compute; reflexivity)) as (h2 & Hh2 & _ & _ & Hv2 & _).
  vm_compute in Hh, Hh2. injection Hh as <-. injection Hh2 as <-. rewrite Hv, Hv2. split; vm_compute; reflexivity.
Defined.
