(* ===== verification/Otel.v ===== *)
(** * Telemetry (ecosystem/npamp-otel/span.go)

    One span and its metric points per reported session outcome.  The tracer and the meter
    are the record of what was emitted: finished spans and the attribute sets added to the
    two counters. *)

From S2P Require Import Prelude Errors ErrorFrame.
From Stdlib Require Import Strings.Byte.
From stdpp Require Import gmap.
Open Scope Z_scope.

Definition AttrErrorType : bytes := str "error.type".
Definition AttrNpampErrorCode : bytes := str "npamp.error.code".
Definition AttrNpampErrorName : bytes := str "npamp.error.name".
Definition AttrNpampReaction : bytes := str "npamp.reaction".
Definition AttrNpampSessionID : bytes := str "npamp.session_id".

Inductive attribute : Type :=
| AttrString (key value : bytes)
| AttrInt64 (key : bytes) (value : Z).

Inductive status : Type := StatusOk | StatusError (description : bytes).

Record span : Type := mkSpan { sp_name : bytes; sp_attrs : list attribute; sp_status : status }.

Record Recorder : Type := mkRecorder {
  rec_spans : list span;
  rec_operations : list (list attribute);    (* npamp.operations, one entry per point *)
  rec_errors : list (list attribute)         (* npamp.errors *)
}.

Definition rec_empty : Recorder := mkRecorder [] [] [].

Definition definedCodes : list Z :=
  [ErrCodeUnexpectedMessage; ErrCodeDecryptFailed; ErrCodeReplayDetected; ErrCodeUnknownChannel; ErrCodeUnknownCriticalTLV;
   ErrCodeHandshakeTimeout; ErrCodeDowngradeDetected; ErrCodeCloseIncomplete; ErrCodeKeyUpdateOutOfOrder; ErrCodeFlowControl].

Definition reactionName (r : ErrorReaction) : bytes := match r with ReactionDiscard => str "discard" | ReactionFatal => str "fatal" end.

Record Outcome : Type := mkOutcome { out_Code : option Z; out_SessionID : bytes }.

Inductive otel_error : Type := ErrNilOutcome | ErrUnknownErrorCode.

Definition session_attr (id : bytes) : list attribute := if bool_decide (id = []) then [] else [AttrString AttrNpampSessionID id].

Definition error_attrs (code : Z) : list attribute :=
  [AttrInt64 AttrNpampErrorCode code; AttrString AttrNpampErrorName (SessionErrorCode_String code);
   AttrString AttrNpampReaction (reactionName (Reaction code)); AttrString AttrErrorType (SessionErrorCode_String code)].

Definition metric_attrs (code : Z) : list attribute :=
  [AttrString AttrNpampErrorName (SessionErrorCode_String code); AttrString AttrNpampReaction (reactionName (Reaction code))].

(** The recorder after the call, and its error; [None] is a nil outcome. *)
Definition EmitOperationSpan (r : Recorder) (out : option Outcome) : Recorder * option otel_error :=
  match out with
  | None => (r, Some ErrNilOutcome)
  | Some out =>
      match out_Code out with
      | None =>
          (mkRecorder (rec_spans r ++ [mkSpan (str "npamp.session") (session_attr (out_SessionID out)) StatusOk])
             (rec_operations r ++ [[]]) (rec_errors r), None)
      | Some code =>
          if bool_decide (code ∈ definedCodes) then
            let errName := SessionErrorCode_String code in
            (mkRecorder
               (rec_spans r ++ [mkSpan (str "npamp.error." ++ errName) (session_attr (out_SessionID out) ++ error_attrs code) (StatusError errName)])
               (rec_operations r ++ [metric_attrs code]) (rec_errors r ++ [metric_attrs code]), None)
          else (r, Some ErrUnknownErrorCode)
      end
  end.

Definition emit_all (outs : list (option Outcome)) : Recorder := fold_left (fun r o => (EmitOperationSpan r o).1) outs rec_empty.

(** ** What is emitted *)

(** The table of this package is the registry of the protocol. *)
Lemma defined_iff code : code ∈ definedCodes <-> is_Some (errCodeName !! code).
Proof.
  unfold errCodeName, definedCodes. split.
  - rewrite !elem_of_cons, elem_of_nil. intros H. repeat (destruct H as [->|H]; [by eexists; vm_compute|]). done.
  - intros [n H]. apply elem_of_list_to_map_2 in H. apply list_elem_of_In in H. apply list_elem_of_In.
    cbn [In] in H |- *. repeat (destruct H as [[= <- <-]|H]; [tauto|]). done.
Qed.

(** The error codes of the outcomes that are reported. *)
Definition reported (out : option Outcome) : option (option Z) :=
  match out with
  | None => None
  | Some o => match out_Code o with
              | None => Some None
              | Some c => if bool_decide (is_Some (errCodeName !! c)) then Some (Some c) else None
              end
  end.

Lemma defined_bool c : bool_decide (c ∈ definedCodes) = bool_decide (is_Some (errCodeName !! c)).
Proof. apply bool_decide_ext, defined_iff. Qed.

Definition span_status (code : option Z) : status := match code with Some c => StatusError (SessionErrorCode_String c) | None => StatusOk end.
Definition point (code : option Z) : list attribute := match code with Some c => metric_attrs c | None => [] end.

Lemma emit_step r o : let '(r', e) := EmitOperationSpan r o in
  match reported o with
  | None => r' = r /\ e <> None
  | Some code => e = None /\ exists s, rec_spans r' = rec_spans r ++ [s] /\ sp_status s = span_status code /\
      rec_operations r' = rec_operations r ++ [point code] /\
      rec_errors r' = rec_errors r ++ (match code with Some c => [metric_attrs c] | None => [] end)
  end.
Proof.
  unfold EmitOperationSpan, reported. destruct o as [[[c|] id]|]; cbn [out_Code out_SessionID]; [|split; [done|]; eexists; cbn; by rewrite app_nil_r|done].
  rewrite defined_bool. case_bool_decide; [|done]. split; [done|]. by eexists.
Qed.

(** Telemetry reports exactly the registered outcomes.  A code is emitted when and only
    when the session registry names it; over any sequence of reports the finished spans, and
    the operation points, are those of the accepted outcomes in order, the error points those
    with a code, each under the registry's own name and reaction; a nil outcome or an
    unregistered code leaves no span and no point behind. *)
Theorem telemetry_exact (outs : list (option Outcome)) :
  let r := emit_all outs in
  let codes := omap reported outs in
  map sp_status (rec_spans r) = map span_status codes /\
  rec_operations r = map point codes /\
  rec_errors r = map metric_attrs (omap id codes) /\
  forall o, (EmitOperationSpan r o).2 = None <-> is_Some (reported o).
Proof.
  cbv zeta. unfold emit_all.
  assert (Hg : forall r, let r' := fold_left (fun r o => (EmitOperationSpan r o).1) outs r in
    map sp_status (rec_spans r') = map sp_status (rec_spans r) ++ map span_status (omap reported outs) /\
    rec_operations r' = rec_operations r ++ map point (omap reported outs) /\
    rec_errors r' = rec_errors r ++ map metric_attrs (omap id (omap reported outs))).
  { induction outs as [|o outs IH]; intros r; cbv zeta; [cbn; by rewrite !app_nil_r|]. cbn [fold_left omap list_omap].
    pose proof (emit_step r o) as Hs. destruct (EmitOperationSpan r o) as [r1 e]. cbn [fst]. destruct (IH r1) as (H1 & H2 & H3).
    rewrite H1, H2, H3. destruct (reported o) as [code|]; [|by destruct Hs as [-> _]].
    destruct Hs as (_ & s & Hsp & Hst & Hop & Her). rewrite Hsp, Hop, Her, map_app. cbn [map]. rewrite Hst, <- !app_assoc. cbn [app].
    split; [done|]. split; [done|]. by destruct code. }
  destruct (Hg rec_empty) as (H1 & H2 & H3). split; [done|]. split; [done|]. split; [done|]. intros o.
  pose proof (emit_step (fold_left (fun r o => (EmitOperationSpan r o).1) outs rec_empty) o) as Hs.
  destruct (EmitOperationSpan _ o) as [r1 e]. cbn [snd]. destruct (reported o); [destruct Hs as [-> _]|destruct Hs as [_ He]]; split; try done.
Qed.
