(* ===== verification/SupplyChain.v ===== *)
(** * Release attestations: digests, modules and the bill of materials

    ecosystem/npamp-supply-chain: digest.go, purl.go, uuid.go, modgraph.go and sbom.go.  Go
    maps from strings to strings are association lists with distinct keys; a time is its
    count of seconds since 1970. *)

From S2P Require Import Prelude Sha256 Errors Cbor Json CarriageJson JsonAny JsonTypes JsonRoundtrip Base64 WireValidator Discovery SchemaVersion.
From Stdlib Require Import Strings.Byte.
Open Scope Z_scope.

(** ** Errors (errors.go) *)

Inductive supply_error : Type :=
| ErrEmptyInput
| ErrMalformedModuleList
| ErrMalformedGoMod
| ErrEmptyModulePath
| ErrInvalidComponentType
| ErrEmptyComponentName
| ErrSchemaInvalid
| ErrEmptyArtifactDigest
| ErrEmptySBOMDigest
| ErrEmptyBuilderID
| ErrStatementInvalid
| ErrBindingMismatch
| ErrSeedSize
| ErrEnvelopeInvalid
| ErrPayloadTypeMismatch
| ErrPayloadMismatch
| ErrSignatureInvalid
(* errors of the packages called *)
| errRand
| errTooLong    (* bufio.ErrTooLong *)
| errJSON    (* an error of encoding/json *)
| errIO
| errSchema    (* a processing error of the schema validator *)
| errHex.

(** An error of encoding/json. *)
Definition or_json {A} (o : option A) : result supply_error A := match o with Some a => Ok a | None => Err errJSON end.

(** ** Digests (digest.go) *)

Definition DigestSet : Type := list (bytes * bytes).

Definition digest_of (d : DigestSet) (alg : bytes) : option bytes := snd <$> find (fun e => bool_decide (e.1 = alg)) d.

Definition DigestBytes (data : bytes) : DigestSet :=
  [(str "sha256", hex_encode (sha256 data)); (str "sha384", hex_encode (sha384 data))].

(** What a reader delivers: [None] for a nil reader, else the octets or a read error. *)
Definition DigestReader (r : option (option bytes)) : result supply_error DigestSet :=
  match r with
  | None => Err ErrEmptyInput
  | Some None => Err errIO
  | Some (Some data) => Ok (DigestBytes data)
  end.

(** The loop of [Equal]; the order of the map does not matter, see [Equal_iff]. *)
Fixpoint agree (d other : DigestSet) (shared : bool) : bool :=
  match d with
  | [] => shared
  | (alg, val) :: d =>
      match digest_of other alg with
      | None => agree d other shared
      | Some ov => if bool_decide (val = ov) then agree d other true else false
      end
  end.

Definition Equal (d other : DigestSet) : bool :=
  if (length d =? 0)%nat || (length other =? 0)%nat then false else agree d other false.

(** ** Package URLs (purl.go) *)

Definition between (a c b : byte) : bool := (b2z a <=? b2z c) && (b2z c <=? b2z b).

Definition isPURLSafeByte (b : byte) : bool :=
  between x61 b x7a || between x41 b x5a || between x30 b x39 || existsb (oct b) (str "/.~+-_").

Definition upper_hex (z : Z) : byte := nth (Z.to_nat z) (str "0123456789ABCDEF") x30.

Definition percentEncodePURLComponent (s : bytes) : bytes :=
  if forallb isPURLSafeByte s then s
  else flat_map (fun c => if isPURLSafeByte c then [c] else [x25; upper_hex (Z.shiftr (b2z c) 4); upper_hex (Z.land (b2z c) 15)]) s.

Section lower.
(** [strings.Map(unicode.ToLower, s)], which [strings.ToLower] uses on text that is not ASCII. *)
Context (unicode_lower : bytes -> bytes).

Definition ToLower (s : bytes) : bytes :=
  if forallb (fun c => b2z c <? 128) s then map (fun c => if between x41 c x5a then z2b (b2z c + 32) else c) s
  else unicode_lower s.

Definition GoModulePURL (path version : bytes) : result supply_error bytes :=
  check (bool_decide (path = [])) ErrEmptyModulePath;;
  let purl := str "pkg:golang/" ++ percentEncodePURLComponent (ToLower path) in
  Ok (if bool_decide (version = []) then purl else purl ++ str "@" ++ percentEncodePURLComponent version).
End lower.

(** ** Identifiers (uuid.go) *)

(** [rnd] is what [rand.Read] fills the 16 octets with. *)
Definition newUUIDv4 (rnd : option bytes) : result supply_error bytes :=
  match rnd with
  | None => Err errRand
  | Some b =>
      let b := <[6%nat := z2b (Z.lor (Z.land (at_ b 6) 0x0f) 0x40)]> b in
      let b := <[8%nat := z2b (Z.lor (Z.land (at_ b 8) 0x3f) 0x80)]> b in
      Ok (hex_encode (slice 0 4 b) ++ str "-" ++ hex_encode (slice 4 6 b) ++ str "-" ++ hex_encode (slice 6 8 b) ++ str "-" ++
          hex_encode (slice 8 10 b) ++ str "-" ++ hex_encode (slice 10 16 b))
  end.

(** ** Times *)

(** The civil date of a count of days since 1970 (proleptic Gregorian). *)
Definition civil (days : Z) : Z * Z * Z :=
  let z := days + 719468 in
  let era := z / 146097 in
  let doe := z mod 146097 in
  let yoe := (doe - doe / 1460 + doe / 36524 - doe / 146096) / 365 in
  let doy := doe - (365 * yoe + yoe / 4 - yoe / 100) in
  let mp := (5 * doy + 2) / 153 in
  let d := doy - (153 * mp + 2) / 5 + 1 in
  let m := if mp <? 10 then mp + 3 else mp - 9 in
  (yoe + era * 400 + (if m <=? 2 then 1 else 0), m, d).

Definition pad_int (width : Z) (z : Z) : bytes :=
  let ds := FormatInt (Z.abs z) in
  (if z <? 0 then str "-" else []) ++ pad_zeros (width - blen ds) ++ ds.

(** [t.UTC().Format(time.RFC3339)]. *)
Definition RFC3339 (t : Z) : bytes :=
  let '(y, m, d) := civil (t / 86400) in
  let s := t mod 86400 in
  pad_int 4 y ++ str "-" ++ pad_int 2 m ++ str "-" ++ pad_int 2 d ++ str "T" ++
  pad_int 2 (s / 3600) ++ str ":" ++ pad_int 2 (s mod 3600 / 60) ++ str ":" ++ pad_int 2 (s mod 60) ++ str "Z".

(** ** The module graph (modgraph.go) *)

Record Module : Type := mkModule {
  mod_Path : bytes;
  mod_Version : bytes;
  mod_Main : bool;
  mod_Indirect : bool;
  mod_GoVersion : bytes;
  mod_Sum : bytes
}.

Definition Module_type : goty :=
  TStruct [(str "Path", false, TString); (str "Version", false, TString); (str "Main", false, TBool); (str "Indirect", false, TBool);
           (str "GoVersion", false, TString); (str "Sum", false, TString)].
Definition Module_to (m : Module) : goval :=
  GStruct [GStr (mod_Path m); GStr (mod_Version m); GBool (mod_Main m); GBool (mod_Indirect m); GStr (mod_GoVersion m); GStr (mod_Sum m)].
Definition Module_of (v : goval) : Module :=
  match v with
  | GStruct [GStr p; GStr n; GBool a; GBool i; GStr g; GStr s] => mkModule p n a i g s
  | _ => mkModule [] [] false false [] []
  end.

(** [json.Decoder.More] on what is left of the stream: end of input, a read error and a
    closing bracket all stop the loop. *)
Definition More (b : bytes) : bool :=
  match skip_ws b with
  | c :: _ => negb (oct c x5d || oct c x7d)
  | [] => false
  end.

(** [dec.Decode(&m)]: the next value of the stream into a new [Module], and what follows. *)
Definition Decode_module (b : bytes) : option (Module * bytes) :=
  let v := skip_ws b in
  rest ← scan_value v;
  m ← decode Module_type (zero Module_type) (take (length v - length rest) v);
  Some (Module_of m, rest).

Fixpoint decode_modules (fuel : nat) (b : bytes) : result supply_error (list Module) :=
  match fuel with
  | O => Err ErrMalformedModuleList
  | S fuel =>
      if More b then
        match Decode_module b with
        | None => Err ErrMalformedModuleList
        | Some (m, rest) =>
            check (bool_decide (mod_Path m = [])) ErrMalformedModuleList;;
            ms ← decode_modules fuel rest;
            Ok (m :: ms)
        end
      else Ok []
  end.

(** [data] is what the reader delivers before its end or its first error; every module
    takes an octet of it, so its length is fuel. *)
Definition DecodeGoListModules (data : bytes) : result supply_error (list Module) := decode_modules (S (length data)) data.

(** [strings.Fields]; [cur] is the field being read. *)
Fixpoint fields_from (fuel : nat) (cur s : bytes) : list bytes :=
  match fuel, s with
  | S fuel, c :: s' =>
      match find (fun w => bool_decide (take (length w) s = w)) spaces with
      | Some w => (if bool_decide (cur = []) then [] else [cur]) ++ fields_from fuel [] (drop (length w) s)
      | None => fields_from fuel (cur ++ [c]) s'
      end
  | _, _ => if bool_decide (cur = []) then [] else [cur]
  end.

Definition Fields (s : bytes) : list bytes := fields_from (length s) [] s.

(** [strings.Cut] at the first "//". *)
Fixpoint cut_comment (s : bytes) : bytes * option bytes :=
  match s with
  | c :: s' =>
      match strip (str "//") s with
      | Some r => ([], Some r)
      | None => let '(a, r) := cut_comment s' in (c :: a, r)
      end
  | [] => ([], None)
  end.

Definition parseRequireEntry (entry : bytes) : result supply_error Module :=
  let '(entry, indirect) :=
    match cut_comment entry with
    | (a, Some comment) => (WireValidator.TrimSpace a, bool_decide (WireValidator.TrimSpace comment = str "indirect"))
    | (_, None) => (entry, false)
    end in
  match Fields entry with
  | [path; version] => Ok (mkModule path version false indirect [] [])
  | _ => Err ErrMalformedGoMod
  end.

Definition MaxScanTokenSize : Z := 65536.

(** The tokens of [bufio.ScanLines], with their carriage returns; the empty text after a last
    newline is none. *)
Definition scan_lines (data : bytes) : list bytes :=
  let parts := split x0a data in
  match rev parts with [] :: ps => rev ps | _ => parts end.

Fixpoint parse_requires (lines : list bytes) (inBlock : bool) : result supply_error (list Module) :=
  match lines with
  | [] => Ok []
  | l :: lines =>
      check (MaxScanTokenSize <=? blen l) errTooLong;;
      let line := WireValidator.TrimSpace l in
      let entry_then entry := (m ← parseRequireEntry entry; ms ← parse_requires lines inBlock; Ok (m :: ms)) in
      if bool_decide (line = []) || bool_decide (strip (str "//") line <> None) then parse_requires lines inBlock
      else if inBlock then (if bool_decide (line = str ")") then parse_requires lines false else entry_then line)
      else if bool_decide (strip (str "require (") line <> None) then parse_requires lines true
      else match strip (str "require ") line with
           | Some rest => entry_then (WireValidator.TrimSpace rest)
           | None => parse_requires lines inBlock
           end
  end.

Definition ParseGoModRequires (data : bytes) : result supply_error (list Module) := parse_requires (scan_lines data) false.

Example modules_example :
  GoModulePURL id (str "github.com/Foo/bar baz") (str "v1.0.0+x") = Ok (str "pkg:golang/github.com/foo/bar%20baz@v1.0.0+x") /\
  RFC3339 1790000000 = str "2026-09-21T14:13:20Z" /\ RFC3339 951782400 = str "2000-02-29T00:00:00Z" /\ RFC3339 (-1) = str "1969-12-31T23:59:59Z" /\
  newUUIDv4 (Some (replicate 16 xff)) = Ok (str "ffffffff-ffff-4fff-bfff-ffffffffffff") /\
  DecodeGoListModules (json "{'Path':'a','Main':true} {'Path':'b','Version':'v1','x':[1]}")
    = Ok [mkModule (str "a") [] true false [] []; mkModule (str "b") (str "v1") false false [] []] /\
  DecodeGoListModules (json "{'Path':'a'}{'Path':''}") = Err ErrMalformedModuleList /\
  ParseGoModRequires (str "module m" ++ [x0d; x0a] ++ str "require (" ++ [x0a; x09] ++ str "a v1 // indirect" ++ [x0a] ++ str " b  v2 // x" ++ [x0a] ++
                      str ")" ++ [x0a] ++ str "require c v3")
    = Ok [mkModule (str "a") (str "v1") false true [] []; mkModule (str "b") (str "v2") false false [] []; mkModule (str "c") (str "v3") false false [] []] /\
  ParseGoModRequires (str "require a") = Err ErrMalformedGoMod.
Proof. by vm_compute. Qed.

(** ** The bill of materials (sbom.go) *)

Definition ComponentTypeLibrary : bytes := str "library".
Definition validComponentTypes : list bytes :=
  [str "application"; str "framework"; ComponentTypeLibrary; str "container"; str "platform"; str "operating-system"; str "device";
   str "device-driver"; str "firmware"; str "file"; str "machine-learning-model"; str "data"; str "cryptographic-asset"].
Definition ComponentScopeRequired : bytes := str "required".
Definition ComponentScopeOptional : bytes := str "optional".
Definition HashAlgSHA256 : bytes := str "SHA-256".
Definition SpecVersion1_7 : bytes := str "1.7".

Record Hash : Type := mkHashEntry { h_Alg : bytes; h_Content : bytes }.
Record Component : Type := mkComponent {
  c_BOMRef : bytes;
  c_Type : bytes;
  c_Name : bytes;
  c_Version : bytes;
  c_PURL : bytes;
  c_Scope : bytes;
  c_Hashes : option (list Hash)
}.
Record Metadata : Type := mkMetadata { md_Timestamp : bytes; md_Component : option Component }.
Record BOM : Type := mkBOM {
  bom_BOMFormat : bytes;
  bom_SpecVersion : bytes;
  bom_SerialNumber : bytes;
  bom_Version : Z;
  bom_Metadata : option Metadata;
  bom_Components : option (list Component)
}.

Definition Hash_type : goty := TStruct [(str "alg", false, TString); (str "content", false, TString)].
Definition Component_type : goty :=
  TStruct [(str "bom-ref", true, TString); (str "type", false, TString); (str "name", false, TString); (str "version", true, TString);
           (str "purl", true, TString); (str "scope", true, TString); (str "hashes", true, TSlice Hash_type)].
Definition Metadata_type : goty := TStruct [(str "timestamp", true, TString); (str "component", true, TPtr Component_type)].
Definition BOM_type : goty :=
  TStruct [(str "bomFormat", false, TString); (str "specVersion", false, TString); (str "serialNumber", true, TString); (str "version", true, TInt);
           (str "metadata", true, TPtr Metadata_type); (str "components", false, TSlice Component_type)].

Definition Hash_to (h : Hash) : goval := GStruct [GStr (h_Alg h); GStr (h_Content h)].
Definition Component_to (c : Component) : goval :=
  GStruct [GStr (c_BOMRef c); GStr (c_Type c); GStr (c_Name c); GStr (c_Version c); GStr (c_PURL c); GStr (c_Scope c); slice_to Hash_to (c_Hashes c)].
Definition Metadata_to (m : Metadata) : goval := GStruct [GStr (md_Timestamp m); GPtr (Component_to <$> md_Component m)].
Definition BOM_to (b : BOM) : goval :=
  GStruct [GStr (bom_BOMFormat b); GStr (bom_SpecVersion b); GStr (bom_SerialNumber b); GInt (bom_Version b);
           GPtr (Metadata_to <$> bom_Metadata b); slice_to Component_to (bom_Components b)].

Definition decodeGoDirhashSHA256 (sum : bytes) : option bytes :=
  enc ← strip (str "h1:") sum;
  raw ← DecodeString StdEncoding enc;
  if blen raw =? 32 then Some (hex_encode raw) else None.

Section sbom.
Context (unicode_lower : bytes -> bytes).

(** The component of one module; [None] for the main module, which is skipped. *)
Definition module_component (m : Module) : result supply_error (option Component) :=
  if mod_Main m then Ok None
  else
    purl ← GoModulePURL unicode_lower (mod_Path m) (mod_Version m);
    let scope := if mod_Indirect m then ComponentScopeOptional else ComponentScopeRequired in
    Ok (Some (mkComponent [] ComponentTypeLibrary (ToLower unicode_lower (mod_Path m)) (mod_Version m) purl scope
                ((fun h => [mkHashEntry HashAlgSHA256 h]) <$> decodeGoDirhashSHA256 (mod_Sum m)))).

Fixpoint module_components (modules : list Module) : result supply_error (list Component) :=
  match modules with
  | [] => Ok []
  | m :: modules =>
      c ← module_component m;
      cs ← module_components modules;
      Ok (match c with Some c => c :: cs | None => cs end)
  end.

(** [rnd] is what [newUUIDv4] draws. *)
Definition BuildSBOM (rnd : option bytes) (root : Component) (modules : list Module) (now : Z) : result supply_error BOM :=
  check (negb (bool_decide (c_Type root ∈ validComponentTypes))) ErrInvalidComponentType;;
  check (bool_decide (c_Name root = [])) ErrEmptyComponentName;;
  components ← module_components modules;
  serial ← newUUIDv4 rnd;
  Ok (mkBOM (str "CycloneDX") SpecVersion1_7 (str "urn:uuid:" ++ serial) 1 (Some (mkMetadata (RFC3339 now) (Some root))) (Some components)).
End sbom.
