(* ===== verification/JsonSchema.v ===== *)
(** * The JSON Schema validator (ecosystem/npamp-supply-chain/jsonschema.go)

    The validator behind the check of a bill of materials, keyword by keyword, over values
    as [json.Unmarshal] stores them in an [any].  Its recursion follows references in the
    schema and has no bound of its own, so it runs with fuel, [unbounded] when that ends.
    The engine of regular expressions is a parameter, texts of messages are constructors.
    The rules of the draft are stated as a relation that looks at one keyword after the
    other, with equality of values, characters of a string and targets of references of its
    own, and the validator decides as they do. *)

From S2P Require Import Prelude Errors Cbor Json CarriageJson JsonAny JsonTypes JsonRoundtrip Discovery.
From Stdlib Require Import Strings.Byte SpecFloat Sorting.Sorted.
Open Scope Z_scope.

(** A [map[string]any] of the schema document. *)
Definition schema_node : Type := list (bytes * dyn).

Inductive schema_failure : Type :=
| unbounded | badSchema | notJSON
| refNotLocal | refNotObject | refNoKey | refNotSchema
| notArrayOf | entryNotObject | typeNotString | typeNotText | enumNotArray | itemsNotSchema
| requiredNotArray | requiredNotString | propertyNotSchema | additionalNotBool | marshalFailed.

Inductive disagreement : Type :=
| oneOfMatched (n : nat) | anyOfMatched | wrongType (got : bytes) (allowed : list bytes) | notConst | notInEnum
| tooShort | tooLong | noMatch | belowMinimum | aboveMaximum | tooFewItems | tooManyItems | duplicateItem
| missingProperty (key : bytes) | additionalProperty.

Record ValidationError : Type := mkVE { ve_Path : bytes; ve_Msg : disagreement }.

Abbreviation checked := (result schema_failure (list ValidationError)).

(** ** Pieces *)

(** [strings.ReplaceAll(s, ab, r)] for a pattern of two octets. *)
Fixpoint replace_pair (a b r : byte) (s : bytes) : bytes :=
  match s with
  | x :: ((y :: s') as t) => if oct x a && oct y b then r :: replace_pair a b r s' else x :: replace_pair a b r t
  | _ => s
  end.

Definition replace_octet (a : byte) (r : bytes) (s : bytes) : bytes := flat_map (fun c => if oct c a then r else [c]) s.

Definition unescape_segment (raw : bytes) : bytes := replace_pair x7e x30 x7e (replace_pair x7e x31 x2f raw).

Definition jsonPointerEscape (s : bytes) : bytes := replace_octet x2f (str "~1") (replace_octet x7e (str "~0") s).

Fixpoint resolve_from (cur : dyn) (segs : list bytes) : result schema_failure schema_node :=
  match segs with
  | [] => match cur with DObj m => Ok m | _ => Err refNotSchema end
  | seg :: segs =>
      match cur with
      | DObj m => match lookup_member m seg with Some next => resolve_from next segs | None => Err refNoKey end
      | _ => Err refNotObject
      end
  end.

Definition resolveRef (root : schema_node) (ref : bytes) : result schema_failure schema_node :=
  if negb (bool_decide (take 2 ref = str "#/")) && negb (bool_decide (ref = str "#")) then Err refNotLocal
  else if bool_decide (ref = str "#") then Ok root
  else resolve_from (DObj root) (map unescape_segment (split x2f (drop 2 ref))).

Definition numberField (node : schema_node) (key : bytes) : option float64 :=
  match lookup_member node key with Some (DNum n) => Some n | _ => None end.

Definition jsonInstanceType (v : dyn) : bytes :=
  match v with
  | DNil => str "null" | DBool _ => str "boolean" | DNum _ => str "number" | DStr _ => str "string"
  | DArr _ => str "array" | DObj _ => str "object" | DInt _ | DText _ => str "unknown"
  end.

Definition jsonDeepEqual (a b : dyn) : bool :=
  match marshal_dyn a, marshal_dyn b with Some x, Some y => bool_decide (x = y) | _, _ => false end.

(** [math.Trunc] clears the bits of the fraction. *)
Definition Trunc (f : float64) : float64 :=
  match f with
  | S754_finite neg m e =>
      if 0 <=? e then f
      else match Zpos m / 2 ^ (- e) * 2 ^ (- e) with Zpos p => S754_finite neg p e | _ => S754_zero neg end
  | _ => f
  end.

Fixpoint names_of (l : list dyn) : option (list bytes) :=
  match l with
  | [] => Some []
  | DStr s :: l => cons s <$> names_of l
  | _ => None
  end.

(** [utf8.RuneCountInString], as a float64. *)
Definition rune_count (s : bytes) : float64 := int_float (Z.of_nat (length (runes (length s) s))).
Definition item_count (l : list dyn) : float64 := int_float (Z.of_nat (length l)).

(** An error when the bound [key] is given and [bad] holds of it. *)
Definition bound_error (node : schema_node) (key : bytes) (bad : float64 -> bool) (path : bytes) (msg : disagreement) : list ValidationError :=
  match numberField node key with Some n => if bad n then [mkVE path msg] else [] | None => [] end.

(** ** The validator *)

Section validator.
Context (Compile : bytes -> option (bytes -> bool)) (root : schema_node).

Definition type_allows (instance : dyn) (want : bytes) : bool :=
  let got := jsonInstanceType instance in
  bool_decide (got = want) ||
  (bool_decide (want = str "integer") && bool_decide (got = str "number") &&
   match instance with DNum f => SFeqb f (Trunc f) | _ => false end).

Definition checkType (node : schema_node) (instance : dyn) (path : bytes) : checked :=
  match lookup_member node (str "type") with
  | None => Ok []
  | Some raw =>
      allowed ← match raw with
                | DStr t => Ok [t]
                | DArr l => match names_of l with Some ts => Ok ts | None => Err typeNotString end
                | _ => Err typeNotText
                end;
      Ok (if existsb (type_allows instance) allowed then [] else [mkVE path (wrongType (jsonInstanceType instance) allowed)])
  end.

Definition checkEnumConst (node : schema_node) (instance : dyn) (path : bytes) : checked :=
  let constErrs := match lookup_member node (str "const") with
                   | Some c => if jsonDeepEqual c instance then [] else [mkVE path notConst]
                   | None => []
                   end in
  match lookup_member node (str "enum") with
  | None => Ok constErrs
  | Some (DArr arr) => Ok (constErrs ++ (if existsb (fun cand => jsonDeepEqual cand instance) arr then [] else [mkVE path notInEnum]))
  | Some _ => Err enumNotArray
  end.

Definition checkStringConstraints (node : schema_node) (v path : bytes) : list ValidationError :=
  bound_error node (str "minLength") (SFltb (rune_count v)) path tooShort ++
  bound_error node (str "maxLength") (fun n => SFltb n (rune_count v)) path tooLong ++
  match lookup_member node (str "pattern") with
  | Some (DStr p) => match Compile p with Some re => if re v then [] else [mkVE path noMatch] | None => [] end
  | _ => []
  end.

Definition checkNumberConstraints (node : schema_node) (v : float64) (path : bytes) : list ValidationError :=
  bound_error node (str "minimum") (SFltb v) path belowMinimum ++ bound_error node (str "maximum") (fun n => SFltb n v) path aboveMaximum.

(** The loop over the items with the texts seen so far. *)
Fixpoint duplicate_errors (path : bytes) (i : Z) (seen : list bytes) (items : list dyn) : checked :=
  match items with
  | [] => Ok []
  | item :: items =>
      match marshal_dyn item with
      | None => Err marshalFailed
      | Some b =>
          rest ← duplicate_errors path (i + 1) (b :: seen) items;
          Ok ((if bool_decide (b ∈ seen) then [mkVE (path ++ str "/" ++ FormatInt i) duplicateItem] else []) ++ rest)
      end
  end.

Fixpoint required_errors (path : bytes) (v : list (bytes * dyn)) (required : list dyn) : checked :=
  match required with
  | [] => Ok []
  | DStr key :: required =>
      rest ← required_errors path v required;
      Ok ((match lookup_member v key with Some _ => [] | None => [mkVE path (missingProperty key)] end) ++ rest)
  | _ => Err requiredNotString
  end.

Section node.
Context (rec : schema_node -> dyn -> bytes -> checked).

Fixpoint count_matches (arr : list dyn) (instance : dyn) (path : bytes) : result schema_failure nat :=
  match arr with
  | [] => Ok 0%nat
  | DObj sub :: arr =>
      subErrs ← rec sub instance path;
      n ← count_matches arr instance path;
      Ok (match subErrs with [] => S n | _ => n end)
  | _ => Err entryNotObject
  end.

Definition validateOneOfAnyOf (raw instance : dyn) (path : bytes) (exactlyOne : bool) : checked :=
  match raw with
  | DArr arr =>
      matched ← count_matches arr instance path;
      Ok ((if exactlyOne && negb (matched =? 1)%nat then [mkVE path (oneOfMatched matched)] else []) ++
          (if negb exactlyOne && (matched =? 0)%nat then [mkVE path anyOfMatched] else []))
  | _ => Err notArrayOf
  end.

Fixpoint validate_items (itemSchema : schema_node) (path : bytes) (i : Z) (items : list dyn) : checked :=
  match items with
  | [] => Ok []
  | item :: items =>
      es ← rec itemSchema item (path ++ str "/" ++ FormatInt i);
      rest ← validate_items itemSchema path (i + 1) items;
      Ok (es ++ rest)
  end.

Definition checkArrayConstraints (node : schema_node) (v : list dyn) (path : bytes) : checked :=
  let counts := bound_error node (str "minItems") (SFltb (item_count v)) path tooFewItems ++
                bound_error node (str "maxItems") (fun n => SFltb n (item_count v)) path tooManyItems in
  dups ← match lookup_member node (str "uniqueItems") with Some (DBool true) => duplicate_errors path 0 [] v | _ => Ok [] end;
  items ← match lookup_member node (str "items") with
          | None => Ok []
          | Some (DObj itemSchema) => validate_items itemSchema path 0 v
          | Some _ => Err itemsNotSchema
          end;
  Ok (counts ++ dups ++ items).

(** The value of one key of the instance. *)
Definition validate_member (node properties : schema_node) (path key : bytes) (val : dyn) : checked :=
  let at_key := path ++ str "/" ++ jsonPointerEscape key in
  match lookup_member properties key with
  | Some (DObj ps) => rec ps val at_key
  | Some _ => Err propertyNotSchema
  | None =>
      match lookup_member node (str "additionalProperties") with
      | None => Ok []
      | Some (DBool allowed) => Ok (if allowed then [] else [mkVE at_key additionalProperty])
      | Some _ => Err additionalNotBool
      end
  end.

(** The loop over the keys of the instance. *)
Fixpoint validate_members (node properties : schema_node) (path : bytes) (members : list (bytes * dyn)) : checked :=
  match members with
  | [] => Ok []
  | (key, val) :: members =>
      es ← validate_member node properties path key val;
      rest ← validate_members node properties path members;
      Ok (es ++ rest)
  end.

Definition properties_of (node : schema_node) : schema_node :=
  match lookup_member node (str "properties") with Some (DObj ps) => ps | _ => [] end.

Definition checkObjectConstraints (node : schema_node) (v : list (bytes * dyn)) (path : bytes) : checked :=
  missing ← match lookup_member node (str "required") with
            | None => Ok []
            | Some (DArr arr) => required_errors path v arr
            | Some _ => Err requiredNotArray
            end;
  members ← validate_members node (properties_of node) path (sort_entries fst v);
  Ok (missing ++ members).

Definition check_instance (node : schema_node) (instance : dyn) (path : bytes) : checked :=
  match instance with
  | DStr v => Ok (checkStringConstraints node v path)
  | DNum v => Ok (checkNumberConstraints node v path)
  | DArr v => checkArrayConstraints node v path
  | DObj v => checkObjectConstraints node v path
  | _ => Ok []
  end.

Definition validate_node (node : schema_node) (instance : dyn) (path : bytes) : checked :=
  match lookup_member node (str "$ref") with
  | Some (DStr ref) => resolved ← resolveRef root ref; rec resolved instance path
  | _ =>
      match lookup_member node (str "oneOf"), lookup_member node (str "anyOf") with
      | Some raw, _ => validateOneOfAnyOf raw instance path true
      | None, Some raw => validateOneOfAnyOf raw instance path false
      | None, None =>
          es1 ← checkType node instance path;
          es2 ← checkEnumConst node instance path;
          es3 ← check_instance node instance path;
          Ok (es1 ++ es2 ++ es3)
      end
  end.
End node.

Fixpoint validateNode (fuel : nat) : schema_node -> dyn -> bytes -> checked :=
  match fuel with
  | O => fun _ _ _ => Err unbounded
  | S fuel => validate_node (validateNode fuel)
  end.
End validator.

(** [json.Unmarshal] into an [any]. *)
Definition Unmarshal_any (raw : bytes) : option dyn :=
  if Valid raw then
    let v := skip_ws raw in
    rest ← scan_value v;
    let raw := take (length v - length rest) v in
    decode_dyn (length raw) raw
  else None.

(** A document [null] leaves a nil map. *)
Definition LoadSchema (data : bytes) : result schema_failure schema_node :=
  match Unmarshal TAnyMap data with
  | Some (GAnyMap (Some m)) => Ok m
  | Some _ => Ok []
  | None => Err badSchema
  end.

Definition Validate_schema (Compile : bytes -> option (bytes -> bool)) (fuel : nat) (root : schema_node) (docJSON : bytes) : checked :=
  match Unmarshal_any docJSON with
  | None => Err notJSON
  | Some instance => validateNode Compile root fuel root instance []
  end.

(** The package's own test cases: the number of disagreements. *)
Definition disagreements (fuel : nat) (schema doc : bytes) : option nat :=
  match LoadSchema schema with
  | Ok root => match Validate_schema (fun _ => None) fuel root doc with Ok es => Some (length es) | Err _ => None end
  | Err _ => None
  end.

Example validator_examples :
  disagreements 9 (json "{'type':'object','required':['name'],'properties':{'name':{'type':'string'}}}") (json "{}") = Some 1%nat /\
  disagreements 9 (json "{'type':'integer'}") (json " 3 ") = Some 0%nat /\ disagreements 9 (json "{'type':'integer'}") (json "3.5") = Some 1%nat /\
  disagreements 9 (json "{'type':'array','minItems':1,'maxItems':2,'uniqueItems':true,'items':{'type':'string'}}") (json "['a','a']") = Some 1%nat /\
  disagreements 9 (json "{'additionalProperties':false,'properties':{'a':{'$ref':'#/definitions/x~1y'}},'definitions':{'x/y':{'enum':['p',{'q':1}]}}}")
    (json "{'a':{'q':1.0},'b':2}") = Some 1%nat /\
  disagreements 9 (json "{'oneOf':[{'type':'string'},{'minLength':2},{'maximum':3}]}") (json "'xy'") = Some 1%nat /\
  disagreements 9 (json "{'anyOf':[{'const':null},{'minimum':0,'maximum':10}]}") (json "5") = Some 0%nat.
Proof. by vm_compute. Qed.

(** ** The rules of the draft *)

(** The keywords that can make an instance invalid; any other is ignored. *)
Definition draft_keywords : list bytes :=
  [str "$ref"; str "type"; str "enum"; str "const"; str "multipleOf"; str "maximum"; str "exclusiveMaximum"; str "minimum";
   str "exclusiveMinimum"; str "maxLength"; str "minLength"; str "pattern"; str "items"; str "additionalItems"; str "maxItems";
   str "minItems"; str "uniqueItems"; str "contains"; str "maxProperties"; str "minProperties"; str "required"; str "properties";
   str "patternProperties"; str "additionalProperties"; str "dependencies"; str "propertyNames"; str "if"; str "then"; str "else";
   str "allOf"; str "anyOf"; str "oneOf"; str "not"].

(** A number without a fraction, whatever its representation. *)
Definition integral (f : float64) : bool :=
  match f with
  | S754_zero _ => true
  | S754_finite _ m e => (0 <=? e) || (Zpos m mod 2 ^ (- e) =? 0)
  | _ => false
  end.

(** The types a value has; [None] for what is not a value of JSON. *)
Definition has_type (v : dyn) : option (bytes -> bool) :=
  match v with
  | DNil => Some (fun t => bool_decide (t = str "null"))
  | DBool _ => Some (fun t => bool_decide (t = str "boolean"))
  | DNum (S754_infinity _ | S754_nan) | DInt _ | DText _ => None
  | DNum f => Some (fun t => bool_decide (t = str "number") || (bool_decide (t = str "integer") && integral f))
  | DStr _ => Some (fun t => bool_decide (t = str "string"))
  | DArr _ => Some (fun t => bool_decide (t = str "array"))
  | DObj _ => Some (fun t => bool_decide (t = str "object"))
  end.

(** Equal values have one normal form: members in the order of their keys, one zero. *)
Fixpoint normal (v : dyn) : dyn :=
  match v with
  | DNum (S754_zero _) => DNum (S754_zero false)
  | DArr l => DArr (map normal l)
  | DObj m => DObj (sort_entries fst (map (fun e => (e.1, normal e.2)) m))
  | _ => v
  end.

(** Values on which the code's comparison of texts is equality: no negative zero, numbers
    whose text reads back, strings of valid UTF-8, nesting within what a text can have. *)
Fixpoint comparable (d : Z) (v : dyn) : Prop :=
  match v with
  | DNil | DBool _ => True
  | DNum f => prints f = true /\ f <> S754_zero true
  | DStr s => utf8 s
  | DArr l => d < maxNestingDepth /\ foldr (fun v P => comparable (d + 1) v /\ P) True l
  | DObj m => d < maxNestingDepth /\ NoDup (map fst m) /\ foldr (fun e P => (utf8 e.1 /\ comparable (d + 1) e.2) /\ P) True m
  | DInt _ | DText _ => False
  end.

(** The characters of a string: the octets that do not continue one. *)
Definition characters (s : bytes) : Z := blen (List.filter (fun c => negb (b2z c / 64 =? 2)) s).

(** A JSON pointer in a fragment without percent-encoding (RFC 6901), and what it points to. *)
Definition pointer (keys : list bytes) : bytes :=
  str "#" ++ flat_map (fun k => str "/" ++ flat_map (fun c => if oct c x7e then str "~0" else if oct c x2f then str "~1" else [c]) k) keys.

Fixpoint walk (v : dyn) (keys : list bytes) : option dyn :=
  match keys with
  | [] => Some v
  | k :: keys => match v with DObj m => x ← lookup_member m k; walk x keys | _ => None end
  end.

Definition points_to (root : schema_node) (ref : bytes) (target : schema_node) : Prop :=
  x25 ∉ ref /\ exists keys, ref = pointer keys /\ walk (DObj root) keys = Some (DObj target).

Section draft.
Context (Compile : bytes -> option (bytes -> bool)) (root : schema_node).

(** What a keyword with argument [a] says of [v]. *)
Definition saying : Type := dyn -> dyn -> bool -> Prop.

Definition number_bound (holds : float64 -> dyn -> bool) : saying := fun a v b => exists n, a = DNum n /\ b = holds n v.

(** The length of a string under a bound, [None] for a string that is no text. *)
Definition length_bound (holds : float64 -> float64 -> bool) : saying := fun a v b =>
  exists n, a = DNum n /\
    match v with DStr s => utf8 s /\ b = holds n (int_float (characters s)) | _ => b = true end.

(** The keywords that look at the instance alone, or at its keys. *)
Definition assertions (node : schema_node) : list (bytes * saying) :=
  [(str "type", fun a v b => exists names ty,
      match a with DStr t => Some [t] | DArr l => names_of l | _ => None end = Some names /\ has_type v = Some ty /\ b = existsb ty names);
   (str "const", fun a v b => comparable 0 a /\ comparable 0 v /\ (b = true <-> normal a = normal v));
   (str "enum", fun a v b => exists l, a = DArr l /\ Forall (comparable 0) l /\ comparable 0 v /\ (b = true <-> Exists (fun c => normal c = normal v) l));
   (str "minLength", length_bound (fun n len => negb (SFltb len n)));
   (str "maxLength", length_bound (fun n len => negb (SFltb n len)));
   (str "pattern", fun a v b => exists p re, a = DStr p /\ Compile p = Some re /\ b = match v with DStr s => re s | _ => true end);
   (str "minimum", number_bound (fun n v => match v with DNum x => negb (SFltb x n) | _ => true end));
   (str "maximum", number_bound (fun n v => match v with DNum x => negb (SFltb n x) | _ => true end));
   (str "minItems", number_bound (fun n v => match v with DArr l => negb (SFltb (int_float (blen l)) n) | _ => true end));
   (str "maxItems", number_bound (fun n v => match v with DArr l => negb (SFltb n (int_float (blen l))) | _ => true end));
   (str "uniqueItems", fun a v b => exists u, a = DBool u /\
      match v with DArr l => if u then Forall (comparable 0) l /\ (b = true <-> NoDup (map normal l)) else b = true | _ => b = true end);
   (str "required", fun a v b => exists l keys, a = DArr l /\ names_of l = Some keys /\
      b = match v with DObj m => forallb (fun k => bool_decide (k ∈ map fst m)) keys | _ => true end);
   (str "additionalProperties", fun a v b => exists allowed, a = DBool allowed /\
      b = match v with DObj m => allowed || forallb (fun k => bool_decide (k ∈ map fst (properties_of node))) (map fst m) | _ => true end)].

Definition assertion (node : schema_node) (k : bytes) : option saying :=
  snd <$> find (fun e => bool_decide (e.1 = k)) (assertions node).

Section verdicts.
Context (J : schema_node -> dyn -> bool -> Prop).

(** A property of the instance under the schemas [ps]; one without a schema is fine. *)
Definition property (ps : schema_node) (e : bytes * dyn) (b : bool) : Prop :=
  match lookup_member ps e.1 with Some (DObj s) => J s e.2 b | Some _ => False | None => b = true end.

(** The verdict of one keyword of [node]. *)
Inductive keyword (node : schema_node) : bytes -> dyn -> dyn -> bool -> Prop :=
| kw_ignored k a v : k ∉ draft_keywords -> keyword node k a v true
| kw_assertion k f a v b : assertion node k = Some f -> f a v b -> keyword node k a v b
| kw_oneOf subs v bs : Forall2 (fun s => J s v) subs bs ->
    keyword node (str "oneOf") (DArr (map DObj subs)) v (length (List.filter id bs) =? 1)%nat
| kw_anyOf subs v bs : Forall2 (fun s => J s v) subs bs -> keyword node (str "anyOf") (DArr (map DObj subs)) v (existsb id bs)
| kw_items s l bs : Forall2 (J s) l bs -> keyword node (str "items") (DObj s) (DArr l) (forallb id bs)
| kw_no_items s v : (forall l, v <> DArr l) -> keyword node (str "items") (DObj s) v true
| kw_properties ps m bs : Forall2 (property ps) m bs -> keyword node (str "properties") (DObj ps) (DObj m) (forallb id bs)
| kw_no_properties ps v : (forall m, v <> DObj m) -> keyword node (str "properties") (DObj ps) v true.

(** Only keywords without effect stand beside a [oneOf] or [anyOf]: the subset of the code. *)
Definition alone (node : schema_node) : Prop :=
  forall k k', (k = str "oneOf" \/ k = str "anyOf") -> k ∈ map fst node -> k' ∈ map fst node -> k' = k \/ k' ∉ draft_keywords.

(** A reference stands for its target, whatever is beside it; otherwise an instance is valid
    when every keyword says so. *)
Inductive rule : schema_node -> dyn -> bool -> Prop :=
| rule_ref node ref target v b : lookup_member node (str "$ref") = Some (DStr ref) -> points_to root ref target ->
    J target v b -> rule node v b
| rule_keywords node v bs : NoDup (map fst node) -> alone node -> str "$ref" ∉ map fst node ->
    Forall2 (fun e => keyword node e.1 e.2 v) node bs -> rule node v (forallb id bs).
End verdicts.

(** The verdicts with a derivation of a depth at most [n], and of any depth. *)
Fixpoint judged_in (n : nat) : schema_node -> dyn -> bool -> Prop :=
  match n with O => fun _ _ _ => False | S n => rule (judged_in n) end.

Definition judged (node : schema_node) (v : dyn) (b : bool) : Prop := exists n, judged_in n node v b.
End draft.

(** ** Equality by text *)

Lemma insert_marshalled e l b ms : marshal_dyn e.2 = Some b -> marshal_dyns marshal_dyn l = Some ms ->
  marshal_dyns marshal_dyn (insert_entry fst e l) = Some (insert_entry fst (e.1, b) ms).
Proof.
  intros Hb. revert ms. induction l as [|[k x] l IH]; intros ms Hm.
  { injection Hm as <-. destruct e as [k v]. cbn in *. by rewrite Hb. }
  cbn [marshal_dyns] in Hm. apply bind_Some in Hm as (c & Hc & Hm). apply bind_Some in Hm as (cs & Hcs & [= <-]). cbn [insert_entry fst].
  destruct (byteLess _ _); cbn [marshal_dyns].
  - destruct e as [k' v']. cbn [fst snd marshal_dyns] in *. by rewrite Hb, Hc, Hcs.
  - by rewrite Hc, (IH cs Hcs).
Qed.

Lemma sort_marshalled l : forall ms, marshal_dyns marshal_dyn l = Some ms -> marshal_dyns marshal_dyn (sort_entries fst l) = Some (sort_entries fst ms).
Proof.
  induction l as [|[k x] l IH]; intros ms Hm; [by injection Hm as <-|]. cbn [marshal_dyns] in Hm. apply bind_Some in Hm as (c & Hc & Hm).
  apply bind_Some in Hm as (cs & Hcs & [= <-]). apply (insert_marshalled (k, x) _ c _ Hc (IH cs Hcs)).
Qed.

Lemma strict_keys {A} (l : list (bytes * A)) : Sorted (entry_lt fst) l -> keys_sorted (map fst l) = true.
Proof.
  induction 1 as [|e l Hs IH Hh]; [done|]. destruct l as [|e' l]; [done|]. cbn [map keys_sorted] in *. rewrite IH, andb_true_r. by inversion Hh.
Qed.

Lemma normal_keys m : map fst (map (fun e : bytes * dyn => (e.1, normal e.2)) m) = map fst m.
Proof. by rewrite map_map. Qed.

(** The normal form of a comparable value has the same text and reads back from it. *)
Lemma comparable_normal v : forall d, 0 <= d -> comparable d v -> marshal_dyn (normal v) = marshal_dyn v /\ dyn_fine d (normal v) /\ seen (normal v) = normal v.
Proof.
  induction v as [|b|f|z|s|l IH|m IH|m] using dyn_ind; intros d H0 Hc; try done.
  - destruct Hc as [Hp Hz]. destruct f as [[]| | |]; done.
  - destruct Hc as [Hd Hc]. cbn [normal marshal_dyn dyn_fine seen].
    assert (marshal_items marshal_dyn (map normal l) = marshal_items marshal_dyn l /\ foldr (fun v P => dyn_fine (d + 1) v /\ P) True (map normal l) /\
      map seen (map normal l) = map normal l) as (-> & Hf & ->); [|done].
    clear Hd. induction IH as [|x l Hx _ IHl]; [done|]. destruct Hc as [Hcx Hc]. destruct (Hx (d + 1) ltac:(lia) Hcx) as (Hm & Hf & Hs), (IHl Hc) as (Hm' & Hf' & Hs').
    cbn [map marshal_items foldr]. by rewrite Hm, Hm', Hs, Hs'.
  - destruct Hc as (Hd & Hn & Hc). cbn [normal marshal_dyn seen]. set (n := map (fun e : bytes * dyn => (e.1, normal e.2)) m).
    assert (marshal_dyns marshal_dyn n = marshal_dyns marshal_dyn m /\ Forall (fun e => utf8 e.1 /\ dyn_fine (d + 1) e.2) n /\ Forall (fun e => seen e.2 = e.2) n) as (Hm & Hf & Hs).
    { clear Hn Hd. subst n. induction IH as [|[k x] m Hx _ IHm]; [by repeat split|]. destruct Hc as [[Hk Hcx] Hc]. destruct (Hx (d + 1) ltac:(lia) Hcx) as (Hm & Hf & Hs), (IHm Hc) as (Hm' & Hf' & Hs').
      cbn [map marshal_dyns fst snd] in *. rewrite Hm, Hm'. split; [done|]. by split; constructor. }
    assert (NoDup (map fst n)) as Hnn by (subst n; by rewrite normal_keys).
    assert (NoDup (map fst (sort_entries fst n))) as Hsn by (change (NoDup (fst <$> sort_entries fst n)); by rewrite sort_entries_perm).
    split; [|split].
    + assert (exists ms, marshal_dyns marshal_dyn n = Some ms /\ map fst ms = map fst n) as (ms & Hms & Hk).
      { clear - Hf H0. clearbody n. induction Hf as [|[k x] l [_ Hx] _ (ms & Hms & Hk)]; [by exists []|]. cbn [snd] in Hx.
        destruct (dyn_values_read_back x (d + 1) ltac:(lia) Hx) as (raw & Hr & _). exists ((k, raw) :: ms). cbn [marshal_dyns map fst]. by rewrite Hr, Hms, Hk. }
      rewrite <- Hm, Hms, (sort_marshalled n ms Hms). cbn [fmap option_fmap option_map]. f_equal. unfold marshal_object.
      rewrite (sort_entries_unique fst (sort_entries fst ms) ms); [done| |apply sort_entries_perm].
      change (NoDup (fst <$> sort_entries fst ms)). rewrite sort_entries_perm. change (NoDup (map fst ms)). by rewrite Hk.
    + split; [done|]. split; [done|]. split; [by apply strict_keys, sort_entries_sorted|].
      assert (Forall (fun e => utf8 e.1 /\ dyn_fine (d + 1) e.2) (sort_entries fst n)) as Hall by (by rewrite sort_entries_perm).
      clear - Hall. induction Hall as [|e l He _ IHl]; [done|]. by split.
    + f_equal. assert (Forall (fun e : bytes * dyn => seen e.2 = e.2) (sort_entries fst n)) as Hall by (by rewrite sort_entries_perm).
      clear - Hall. induction Hall as [|[k x] l He _ IHl]; [done|]. cbn [map fst snd] in *. by rewrite He, IHl.
Qed.

(** On comparable values the comparison of the code is equality. *)
Lemma deep_equal_normal a b : comparable 0 a -> comparable 0 b -> jsonDeepEqual a b = true <-> normal a = normal b.
Proof.
  intros Ha Hb. destruct (comparable_normal a 0 ltac:(lia) Ha) as (Ma & Fa & Sa), (comparable_normal b 0 ltac:(lia) Hb) as (Mb & Fb & Sb).
  destruct (dyn_values_read_back _ 0 ltac:(lia) Fa) as (ra & Ra & _ & _ & Da), (dyn_values_read_back _ 0 ltac:(lia) Fb) as (rb & Rb & _ & _ & Db).
  unfold jsonDeepEqual. rewrite <- Ma, <- Mb, Ra, Rb, bool_decide_eq_true. split.
  - intros <-. specialize (Da (length ra) (le_n _)). rewrite (Db (length ra) (le_n _)) in Da. congruence.
  - intros E. rewrite E in Ra. congruence.
Qed.

(** The order of the members does not matter to it. *)
Lemma normal_order m n : NoDup (map fst m) -> m ≡ₚ n -> normal (DObj m) = normal (DObj n).
Proof.
  intros Hn Hp. cbn [normal]. f_equal. apply sort_entries_unique; [by rewrite normal_keys|]. change (map ?f ?l) with (f <$> l). by rewrite Hp.
Qed.

Lemma comparable_text v : comparable 0 v -> exists raw, marshal_dyn v = Some raw.
Proof.
  intros Hc. destruct (comparable_normal v 0 ltac:(lia) Hc) as (M & F & _). destruct (dyn_values_read_back _ 0 ltac:(lia) F) as (raw & R & _).
  exists raw. by rewrite <- M.
Qed.

Lemma texts_distinct l : Forall (comparable 0) l -> exists texts, mapM marshal_dyn l = Some texts /\ (NoDup texts <-> NoDup (map normal l)).
Proof.
  induction 1 as [|x l Hx Hl (texts & Ht & IH)]; [exists []; split; [done|split; constructor]|]. destruct (comparable_text x Hx) as [raw Hr].
  exists (raw :: texts). cbn [mapM map]. rewrite Hr, Ht. split; [done|]. rewrite !NoDup_cons, IH.
  assert (raw ∈ texts <-> normal x ∈ map normal l) as ->; [|done]. clear IH. revert texts Ht. induction Hl as [|y l Hy _ IHl]; intros texts Ht.
  { injection Ht as <-. by rewrite !elem_of_nil. }
  cbn [mapM] in Ht. apply bind_Some in Ht as (t & Hyt & Ht). apply bind_Some in Ht as (ts & Hts & [= <-]). cbn [map]. rewrite !elem_of_cons, (IHl ts Hts).
  assert (raw = t <-> normal x = normal y) as ->; [|done]. rewrite <- (deep_equal_normal x y Hx Hy). unfold jsonDeepEqual. by rewrite Hr, Hyt, bool_decide_eq_true.
Qed.

(** ** Characters and references *)

Lemma quotient_2 z : 128 <= z <= 191 -> z / 64 = 2.
Proof. intros H. symmetry. apply (Z.div_unique z 64 2 (z - 128)); lia. Qed.

Lemma continues c lo hi : 128 <= lo -> hi <= 191 -> (lo <=? b2z c) && (b2z c <=? hi) = true -> (b2z c / 64 =? 2) = true.
Proof. intros Hl Hh [H1 H2]%andb_true_iff. apply Z.leb_le in H1, H2. by rewrite quotient_2 by lia. Qed.

Lemma starts c : b2z c < 128 \/ 192 <= b2z c -> (b2z c / 64 =? 2) = false.
Proof.
  intros H. apply Z.eqb_neq. intros E. pose proof (b2z_range c). pose proof (Z.div_mod (b2z c) 64 ltac:(lia)) as Hd. pose proof (Z.mod_pos_bound (b2z c) 64 ltac:(lia)). lia.
Qed.

(** A sequence of UTF-8 has one octet that does not continue it. *)
Lemma size_characters c s : utf8_size (c ++ s) = Some (length c) -> characters c = 1.
Proof.
  unfold characters. destruct c as [|x c]; [by destruct s as [|y s]; [|unfold utf8_size; repeat case_match]|]. cbn [app utf8_size].
  destruct (Z.ltb_spec (b2z x) 128) as [Hx|Hx].
  { intros [= Hl]. destruct c; [|done]. cbn [List.filter]. by rewrite (starts x) by lia. }
  destruct ((194 <=? b2z x) && (b2z x <=? 223)) eqn:E2.
  { apply andb_true_iff in E2 as [E2 _]. apply Z.leb_le in E2. intros H. destruct (c ++ s) as [|d r] eqn:Er; [done|]. destruct (cont d) eqn:Hd; [|done].
    injection H as Hl. destruct c as [|d' [|]]; try done. injection Er as -> _. cbn [List.filter]. rewrite (starts x) by lia. by rewrite (continues d 128 191). }
  destruct ((224 <=? b2z x) && (b2z x <=? 239)) eqn:E3.
  { apply andb_true_iff in E3 as [E3 _]. apply Z.leb_le in E3. intros H. destruct (c ++ s) as [|d [|e r]] eqn:Er; [done..|].
    destruct (_ && cont e) eqn:Hd; [|done]. apply andb_true_iff in Hd as [Hd He]. injection H as Hl. destruct c as [|d' [|e' [|]]]; try done. injection Er as -> -> _.
    cbn [List.filter]. rewrite (starts x) by lia. rewrite (continues e 128 191) by done.
    rewrite (continues d (if b2z x =? 224 then 160 else 128) (if b2z x =? 237 then 159 else 191)); [done|by destruct (_ =? 224)|by destruct (_ =? 237)|done]. }
  destruct ((240 <=? b2z x) && (b2z x <=? 244)) eqn:E4; [|done].
  apply andb_true_iff in E4 as [E4 _]. apply Z.leb_le in E4. intros H. destruct (c ++ s) as [|d [|e [|f r]]] eqn:Er; [done..|].
  destruct (_ && cont f) eqn:Hd; [|done]. apply andb_true_iff in Hd as [Hd Hf]. apply andb_true_iff in Hd as [Hd He]. injection H as Hl.
  destruct c as [|d' [|e' [|f' [|]]]]; try done. injection Er as -> -> -> _.
  cbn [List.filter]. rewrite (starts x) by lia. rewrite (continues e 128 191), (continues f 128 191) by done.
  rewrite (continues d (if b2z x =? 240 then 144 else 128) (if b2z x =? 244 then 143 else 191)); [done|by destruct (_ =? 240)|by destruct (_ =? 244)|done].
Qed.

Lemma runes_characters s : utf8 s -> forall f, (length s <= f)%nat -> Z.of_nat (length (runes f s)) = characters s.
Proof.
  induction 1 as [|c s Hc _ IH]; intros f Hf; [by destruct f|]. pose proof (size_characters c s Hc) as H1. unfold characters in *. unfold blen in *.
  rewrite List.filter_app, length_app in *. destruct c as [|x c]; [done|]. cbn [length] in Hf. destruct f as [|f]; [lia|].
  change (runes (S f) ((x :: c) ++ s)) with (match utf8_size ((x :: c) ++ s) with
    | Some n => rune_value (take n ((x :: c) ++ s)) :: runes f (drop n ((x :: c) ++ s)) | None => 65533 :: runes f (c ++ s) end).
  rewrite Hc, drop_app_length. cbn [length]. specialize (IH f ltac:(lia)). lia.
Qed.

Lemma rune_count_characters s : utf8 s -> rune_count s = int_float (characters s).
Proof. intros H. unfold rune_count. by rewrite (runes_characters s H). Qed.

Definition escaped (k : bytes) : bytes := flat_map (fun c => if oct c x7e then str "~0" else if oct c x2f then str "~1" else [c]) k.

Lemma replace_other a b r x t : oct x a = false -> replace_pair a b r (x :: t) = x :: replace_pair a b r t.
Proof. intros H. destruct t as [|y t]; [done|]. cbn [replace_pair]. by rewrite H. Qed.

(** The two passes of the code undo the escapes one after the other. *)
Lemma unescape_escaped k : unescape_segment (escaped k) = k.
Proof.
  unfold unescape_segment. set (half := flat_map (fun c => if oct c x7e then str "~0" else [c]) k).
  assert (replace_pair x7e x31 x2f (escaped k) = half) as ->.
  { subst half. induction k as [|c k IH]; [done|]. unfold escaped in *. cbn [flat_map]. destruct (oct c x7e) eqn:Ec.
    - change (str "~0") with [x7e; x30] in *. cbn [app]. change (replace_pair x7e x31 x2f (x7e :: x30 :: ?t)) with (x7e :: replace_pair x7e x31 x2f (x30 :: t)).
      rewrite replace_other by done. by rewrite IH.
    - destruct (oct c x2f) eqn:Es.
      + change (str "~1") with [x7e; x31] in *. cbn [app]. change (replace_pair x7e x31 x2f (x7e :: x31 :: ?t)) with (x2f :: replace_pair x7e x31 x2f t).
        apply oct_eq in Es as ->. by rewrite IH.
      + cbn [app]. by rewrite replace_other, IH. }
  subst half. induction k as [|c k IH]; [done|]. cbn [flat_map]. destruct (oct c x7e) eqn:Ec.
  - change (str "~0") with [x7e; x30] in *. cbn [app]. change (replace_pair x7e x30 x7e (x7e :: x30 :: ?t)) with (x7e :: replace_pair x7e x30 x7e t).
    apply oct_eq in Ec as ->. by rewrite IH.
  - cbn [app]. by rewrite replace_other, IH.
Qed.

Lemma split_fresh c s : c ∉ s -> split c s = [s].
Proof.
  induction s as [|d s IH]; [done|]. rewrite not_elem_of_cons. intros [Hd Hs]. cbn [split]. rewrite (IH Hs).
  destruct (oct d c) eqn:E; [by apply oct_eq in E; subst|done].
Qed.

Lemma split_sep c s t : c ∉ s -> split c (s ++ c :: t) = s :: split c t.
Proof.
  induction s as [|d s IH]; cbn [app split].
  - intros _. destruct (split c t) as [|p ps] eqn:E; [by destruct t as [|y t]; cbn in E; [|destruct (split c t), (oct y c)]|]. by rewrite oct_refl.
  - rewrite not_elem_of_cons. intros [Hd Hs]. rewrite (IH Hs). destruct (oct d c) eqn:E; [by apply oct_eq in E; subst|done].
Qed.

Lemma escaped_plain k : x2f ∉ escaped k.
Proof.
  unfold escaped. induction k as [|c k IH]; [apply not_elem_of_nil|]. cbn [flat_map]. rewrite not_elem_of_app. split; [|done].
  destruct (oct c x7e); [by apply (bool_decide_unpack _); vm_compute|]. destruct (oct c x2f) eqn:E; [by apply (bool_decide_unpack _); vm_compute|].
  rewrite list_elem_of_singleton. intros <-. by rewrite oct_refl in E.
Qed.

Lemma split_pointer k ks : split x2f (drop 2 (pointer (k :: ks))) = map escaped (k :: ks).
Proof.
  unfold pointer. cbn [flat_map]. fold (escaped k). change (drop 2 (str "#" ++ (str "/" ++ escaped k) ++ ?t)) with (escaped k ++ t).
  revert k. induction ks as [|k' ks IH]; intros k; cbn [flat_map map].
  - rewrite app_nil_r. apply split_fresh, escaped_plain.
  - fold (escaped k'). change ((str "/" ++ escaped k') ++ ?t) with (x2f :: escaped k' ++ t). rewrite split_sep by apply escaped_plain. by rewrite IH.
Qed.

Lemma points_to_resolved root ref target : points_to root ref target -> resolveRef root ref = Ok target.
Proof.
  intros (_ & keys & -> & Hw). destruct keys as [|k ks]; [by injection Hw as ->|].
  unfold resolveRef. change (take 2 (pointer (k :: ks))) with (str "#/"). rewrite bool_decide_true by done. rewrite (bool_decide_false (pointer (k :: ks) = str "#")) by done.
  cbn [negb andb]. rewrite split_pointer, map_map, (map_ext _ id unescape_escaped), map_id. revert Hw. generalize (DObj root) (k :: ks). clear. intros v ks.
  revert v. induction ks as [|k ks IH]; intros v; cbn [walk resolve_from]; [by intros [= ->]|]. destruct v; try done. destruct (lookup_member m k) as [x|]; [|done]. apply IH.
Qed.

(** ** Runs that settle *)

(** With enough fuel [f] returns one value, which satisfies [P]. *)
Definition settles {A} (f : nat -> result schema_failure A) (P : A -> Prop) : Prop :=
  exists a F, (forall n, (F <= n)%nat -> f n = Ok a) /\ P a.

Lemma settles_ret {A} (a : A) (P : A -> Prop) : P a -> settles (fun _ => Ok a) P.
Proof. intros HP. exists a, 0%nat. done. Qed.

Lemma settles_ext {A} (f g : nat -> result schema_failure A) (P Q : A -> Prop) :
  (forall n, f n = g n) -> (forall a, P a -> Q a) -> settles f P -> settles g Q.
Proof. intros Hfg HPQ (a & F & Hf & Ha). exists a, F. split; [intros n Hn; rewrite <- Hfg; auto|auto]. Qed.

Lemma settles_bind {A B} (f : nat -> result schema_failure A) (g : nat -> A -> result schema_failure B) (P : A -> Prop) (Q : B -> Prop) :
  settles f P -> (forall a, P a -> settles (fun n => g n a) Q) -> settles (fun n => a ← f n; g n a) Q.
Proof.
  intros (a & F & Hf & Ha) Hg. destruct (Hg a Ha) as (b & G & Hb & HQ). exists b, (F + G)%nat. split; [|done].
  intros n Hn. rewrite Hf by lia. apply Hb. lia.
Qed.

(** Errors that are empty exactly when the verdict is [b]. *)
Definition tells (b : bool) (es : list ValidationError) : Prop := b = true <-> es = [].

Lemma tells_app b c es ds : tells b es -> tells c ds -> tells (b && c) (es ++ ds).
Proof. unfold tells. rewrite andb_true_iff, app_nil. tauto. Qed.

Lemma tells_if b path msg : tells b (if b then [] else [mkVE path msg]).
Proof. by destruct b. Qed.

Lemma lookup_member_None m k : lookup_member m k = None <-> k ∉ map fst m.
Proof.
  unfold lookup_member. induction m as [|[k' a] m IH]; cbn [find map fst]; [split; [intros _; apply not_elem_of_nil|done]|].
  case_bool_decide as E; cbn [fst] in E; rewrite elem_of_cons; [subst; split; [done|tauto]|]. rewrite IH. naive_solver.
Qed.

(** ** The keywords that look at the instance alone *)

Lemma integral_spec f : SFeqb f (Trunc f) = match f with S754_infinity _ => true | _ => integral f end.
Proof.
  destruct f as [s|s| |s m e]; [by destruct s|by destruct s|done|]. unfold Trunc, integral. destruct (0 <=? e) eqn:He; cbn [orb].
  { unfold SFeqb, SFcompare. rewrite Z.compare_refl, Pos.compare_cont_refl. by destruct s. }
  assert (0 < 2 ^ (- e)) as Hp by (apply Z.pow_pos_nonneg; lia). pose proof (Z.div_mod (Zpos m) (2 ^ (- e)) ltac:(lia)) as Hd.
  pose proof (Z.mod_pos_bound (Zpos m) (2 ^ (- e)) Hp) as Hb.
  assert (Zpos m / 2 ^ (- e) * 2 ^ (- e) = Zpos m - Zpos m mod 2 ^ (- e)) as -> by lia.
  destruct (Z.eqb_spec (Zpos m mod 2 ^ (- e)) 0) as [Hz|Hz].
  - rewrite Hz, Z.sub_0_r. unfold SFeqb, SFcompare. rewrite Z.compare_refl, Pos.compare_cont_refl. by destruct s.
  - destruct (Zpos m - Zpos m mod 2 ^ (- e)) as [|p|p] eqn:E; [by destruct s|..|by destruct s].
    assert (p <> m) as Hne by (intros ->; lia). unfold SFeqb, SFcompare. rewrite Z.compare_refl.
    change (Pos.compare_cont Eq m p) with (m ?= p)%positive. destruct s, (Pos.compare_spec m p) as [?| |]; try done; by subst.
Qed.

Lemma type_allows_spec v ty t : has_type v = Some ty -> type_allows v t = ty t.
Proof.
  unfold type_allows. intros Ht.
  assert (forall g : bytes, g <> str "number" -> bool_decide (g = t) || (bool_decide (t = str "integer") && bool_decide (g = str "number") && false) = bool_decide (t = g)) as Hg.
  { intros g Hg. rewrite andb_false_r, orb_false_r. apply bool_decide_ext. naive_solver. }
  destruct v as [|b|f|z|s|l|m|m]; try done; try (injection Ht as <-; cbn [jsonInstanceType]; apply Hg; done).
  assert (ty = (fun t => bool_decide (t = str "number") || (bool_decide (t = str "integer") && integral f)) /\ SFeqb f (Trunc f) = integral f) as [-> Hi].
  { rewrite integral_spec. destruct f; try done; by injection Ht as <-. }
  cbn [jsonInstanceType]. rewrite Hi, (bool_decide_eq_true_2 (str "number" = str "number")) by done. rewrite andb_true_r. f_equal. apply bool_decide_ext. naive_solver.
Qed.

Lemma existsb_ext {A} (p q : A -> bool) l : (forall x, p x = q x) -> existsb p l = existsb q l.
Proof. intros E. induction l as [|x l IH]; [done|]. cbn [existsb]. by rewrite E, IH. Qed.

Lemma duplicates_tell l : forall path i seen texts, mapM marshal_dyn l = Some texts ->
  exists es, duplicate_errors path i seen l = Ok es /\ (es = [] <-> NoDup texts /\ Forall (fun t => t ∉ seen) texts).
Proof.
  induction l as [|x l IH]; intros path i seen texts Hm.
  { injection Hm as <-. exists []. split; [done|]. split; [|done]. intros _. split; constructor. }
  cbn [mapM] in Hm. apply bind_Some in Hm as (b & Hb & Hm). apply bind_Some in Hm as (ts & Hts & [= <-]). cbn [duplicate_errors]. rewrite Hb.
  destruct (IH path (i + 1) (b :: seen) ts Hts) as (es & -> & He). eexists. split; [reflexivity|]. rewrite app_nil, He, NoDup_cons, Forall_cons.
  assert ((if bool_decide (b ∈ seen) then [mkVE (path ++ str "/" ++ FormatInt i) duplicateItem] else []) = [] <-> b ∉ seen) as -> by (case_bool_decide; naive_solver).
  rewrite !Forall_forall. setoid_rewrite not_elem_of_cons. split; [|naive_solver]. intros (Hs & Hn & Hf). split_and!; try done; [|naive_solver].
  intros Hin. destruct (Hf b Hin) as [Hx _]. by apply Hx.
Qed.

Lemma required_tells path m l : forall keys, names_of l = Some keys ->
  exists es, required_errors path m l = Ok es /\ tells (forallb (fun k => bool_decide (k ∈ map fst m)) keys) es.
Proof.
  induction l as [|x l IH]; intros keys Hk; [injection Hk as <-; by exists []|]. destruct x as [| | | |s| | |]; try done. cbn [names_of] in Hk.
  apply fmap_Some in Hk as (ks & Hks & ->). destruct (IH ks Hks) as (es & He & Ht). cbn [required_errors forallb]. rewrite He. eexists. split; [reflexivity|].
  apply tells_app; [|done]. destruct (lookup_member m s) eqn:E.
  - rewrite bool_decide_eq_true_2; [done|]. destruct (decide (s ∈ map fst m)) as [|Hn]; [done|]. apply lookup_member_None in Hn. congruence.
  - apply lookup_member_None in E. by rewrite bool_decide_eq_false_2.
Qed.

(** ** The keywords with schemas in them *)

Section decides.
Context (Compile : bytes -> option (bytes -> bool)) (root : schema_node).

(** The validator settles on [v] with errors that tell [b]. *)
Definition runs (node : schema_node) (v : dyn) (b : bool) : Prop :=
  forall path, settles (fun n => validateNode Compile root n node v path) (tells b).

Lemma matches_settle subs v bs path : Forall2 (fun s => runs s v) subs bs ->
  settles (fun n => count_matches (validateNode Compile root n) (map DObj subs) v path) (fun c => c = length (List.filter id bs)).
Proof.
  induction 1 as [|s b subs bs Hs _ IH]; [by apply settles_ret|]. cbn [map count_matches].
  apply (settles_bind _ _ _ _ (Hs path)). intros es He. apply (settles_bind _ _ _ _ IH). intros c ->. apply settles_ret.
  unfold tells in He. cbn [List.filter]. destruct b, es; cbn [id length]; try done; naive_solver.
Qed.

Lemma oneOf_settles subs v bs path : Forall2 (fun s => runs s v) subs bs ->
  settles (fun n => validateOneOfAnyOf (validateNode Compile root n) (DArr (map DObj subs)) v path true) (tells (length (List.filter id bs) =? 1)%nat).
Proof.
  intros H. apply (settles_bind _ _ _ _ (matches_settle subs v bs path H)). intros c ->. apply settles_ret.
  cbn [andb negb]. rewrite app_nil_r. by destruct (_ =? 1)%nat.
Qed.

Lemma anyOf_settles subs v bs path : Forall2 (fun s => runs s v) subs bs ->
  settles (fun n => validateOneOfAnyOf (validateNode Compile root n) (DArr (map DObj subs)) v path false) (tells (existsb id bs)).
Proof.
  intros H. apply (settles_bind _ _ _ _ (matches_settle subs v bs path H)). intros c ->. apply settles_ret. cbn [andb negb app].
  assert (existsb id bs = negb (length (List.filter id bs) =? 0)%nat) as ->.
  { clear. induction bs as [|b bs IH]; [done|]. by destruct b; cbn. }
  by destruct (_ =? 0)%nat.
Qed.

Lemma items_settle s l bs path : Forall2 (runs s) l bs -> forall i,
  settles (fun n => validate_items (validateNode Compile root n) s path i l) (tells (forallb id bs)).
Proof.
  induction 1 as [|x b l bs Hx _ IH]; intros i; [by apply settles_ret|]. cbn [validate_items forallb].
  apply (settles_bind _ _ _ _ (Hx _)). intros es He. apply (settles_bind _ _ _ _ (IH _)). intros ds Hd. apply settles_ret. by apply tells_app.
Qed.

(** One property, with what is said of those that have no schema. *)
Definition member_runs (node ps : schema_node) (e : bytes * dyn) (b : bool) : Prop :=
  forall path, settles (fun n => validate_member (validateNode Compile root n) node ps path e.1 e.2) (tells b).

Lemma members_settle node ps path m cs : Forall2 (member_runs node ps) m cs ->
  settles (fun n => validate_members (validateNode Compile root n) node ps path m) (tells (forallb id cs)).
Proof.
  induction 1 as [|[k x] b m cs Hx _ IH]; [by apply settles_ret|]. cbn [validate_members forallb].
  apply (settles_bind _ _ _ _ (Hx _)). intros es He. apply (settles_bind _ _ _ _ IH). intros ds Hd. apply settles_ret. by apply tells_app.
Qed.

Lemma forallb_perm (bs cs : list bool) : bs ≡ₚ cs -> forallb id bs = forallb id cs.
Proof. induction 1; cbn [forallb]; [done|congruence| |congruence]. unfold id. by destruct x, y. Qed.

(** The properties of an object in the order of the code, given the verdict on those that
    have a schema and on those that have none. *)
Lemma object_settles node ps path m bs allowed :
  Forall2 (property runs ps) m bs ->
  match lookup_member node (str "additionalProperties") with Some (DBool b) => allowed = b | None => allowed = true | _ => False end ->
  settles (fun n => validate_members (validateNode Compile root n) node ps path (sort_entries fst m))
    (tells (forallb id bs && (allowed || forallb (fun k => bool_decide (k ∈ map fst ps)) (map fst m)))).
Proof.
  intros Hm Ha.
  assert (exists cs, Forall2 (member_runs node ps) m cs /\
    forallb id cs = forallb id bs && (allowed || forallb (fun k => bool_decide (k ∈ map fst ps)) (map fst m))) as (cs & Hcs & <-).
  { induction Hm as [|[k x] b m bs Hx _ (cs & Hcs & E)]; [exists []; by rewrite orb_true_r|]. unfold property in Hx. cbn [fst snd] in Hx.
    destruct (lookup_member ps k) as [p|] eqn:El.
    - destruct p as [| | | | | |s|]; try done. exists (b :: cs). split.
      + constructor; [|done]. intros path'. unfold validate_member. cbn [fst snd]. rewrite El. apply Hx.
      + cbn [forallb map fst]. rewrite E, (bool_decide_eq_true_2 (k ∈ _)); [by rewrite andb_assoc|].
        destruct (decide (k ∈ map fst ps)) as [|Hn]; [done|]. apply lookup_member_None in Hn. congruence.
    - exists (allowed :: cs). split.
      + constructor; [|done]. intros path'. unfold validate_member. cbn [fst snd]. rewrite El.
        destruct (lookup_member node _) as [[]|]; try done; subst; apply settles_ret; [apply tells_if|done].
      + apply lookup_member_None in El. cbn [forallb map fst]. rewrite E, (bool_decide_eq_false_2 (k ∈ _)) by done. subst b. unfold id. by destruct allowed, (forallb _ bs). }
  destruct (Permutation_Forall2 (symmetry (sort_entries_perm fst m)) Hcs) as (ds & Hp & Hds).
  rewrite (forallb_perm _ _ Hp). by apply members_settle.
Qed.
End decides.

(** ** Which rule a keyword has *)

Section inversion.
Context (Compile : bytes -> option (bytes -> bool)) (J : schema_node -> dyn -> bool -> Prop) (node : schema_node).

Ltac keyword_rule H :=
  lazymatch type of H with keyword _ _ _ ?l _ _ _ =>
    let k := fresh "k" in let Ek := fresh "Ek" in let Hn := fresh "Hn" in
    remember l as k eqn:Ek; destruct H as [k a v Hn|k f a v b Hn _|subs v bs Hr|subs v bs Hr|s l' bs Hr|s v Hr|ps m bs Hr|ps v Hr]; try discriminate Ek;
    [subst; exfalso; apply Hn; clear; apply (bool_decide_unpack _); vm_compute; reflexivity|by subst|..]
  end.

Lemma keyword_items a v b : keyword Compile J node (str "items") a v b -> exists s, a = DObj s /\
  ((exists l bs, v = DArr l /\ Forall2 (J s) l bs /\ b = forallb id bs) \/ ((forall l, v <> DArr l) /\ b = true)).
Proof. intros H. keyword_rule H; exists s; naive_solver. Qed.

Lemma keyword_properties a v b : keyword Compile J node (str "properties") a v b -> exists ps, a = DObj ps /\
  ((exists m bs, v = DObj m /\ Forall2 (property J ps) m bs /\ b = forallb id bs) \/ ((forall m, v <> DObj m) /\ b = true)).
Proof. intros H. keyword_rule H; exists ps; naive_solver. Qed.

Lemma keyword_oneOf a v b : keyword Compile J node (str "oneOf") a v b ->
  exists subs bs, a = DArr (map DObj subs) /\ Forall2 (fun s => J s v) subs bs /\ b = (length (List.filter id bs) =? 1)%nat.
Proof. intros H. keyword_rule H; naive_solver. Qed.

Lemma keyword_anyOf a v b : keyword Compile J node (str "anyOf") a v b ->
  exists subs bs, a = DArr (map DObj subs) /\ Forall2 (fun s => J s v) subs bs /\ b = existsb id bs.
Proof. intros H. keyword_rule H; naive_solver. Qed.
End inversion.

(** ** One node *)

Section node.
Context (Compile : bytes -> option (bytes -> bool)) (root node : schema_node) (v : dyn) (bs : list bool).
Context (Hdistinct : NoDup (map fst node)) (Hkw : Forall2 (fun e => keyword Compile (runs Compile root) node e.1 e.2 v) node bs).

Definition verdict_at (k : bytes) : option bool := snd <$> find (fun e => bool_decide (e.1 = k)) (zip (map fst node) bs).

(** The keyword [k] of the node, if present, finds the instance valid. *)
Definition fine (k : bytes) : Prop := verdict_at k <> Some false.

Lemma verdict_spec k :
  match lookup_member node k with
  | Some a => exists b, verdict_at k = Some b /\ keyword Compile (runs Compile root) node k a v b
  | None => verdict_at k = None
  end.
Proof using Hkw.
  unfold lookup_member, verdict_at. clear Hdistinct.
  assert (forall l cs, Forall2 (fun e => keyword Compile (runs Compile root) node e.1 e.2 v) l cs ->
    match snd <$> find (fun e : bytes * dyn => bool_decide (e.1 = k)) l with
    | Some a => exists b, snd <$> find (fun e => bool_decide (e.1 = k)) (zip (map fst l) cs) = Some b /\ keyword Compile (runs Compile root) node k a v b
    | None => snd <$> find (fun e => bool_decide (e.1 = k)) (zip (map fst l) cs) = None
    end) as H; [|by apply H].
  induction 1 as [|[k' a] b l cs Hk _ IH]; [done|]. cbn [find map zip zip_with fst snd]. case_bool_decide; [|exact IH]. subst. by exists b.
Qed.

Lemma fine_iff : forallb id bs = true <-> forall k, fine k.
Proof using Hdistinct Hkw.
  unfold fine, verdict_at. pose proof (Forall2_length _ _ _ Hkw) as Hl. rewrite <- (length_map fst node) in Hl. clear Hkw. revert Hdistinct Hl. generalize (map fst node) as ks. clear. rename bs into cs.
  induction cs as [|b cs IH]; intros [|k ks] Hn Hl; try done. injection Hl as Hl. apply NoDup_cons in Hn as [Hk Hn]. cbn [forallb zip zip_with find fst snd]. rewrite andb_true_iff, (IH ks Hn Hl).
  split.
  - intros [Hb Hr] k'. case_bool_decide; [unfold id in Hb; by subst|]. apply Hr.
  - intros Hr. split; [specialize (Hr k); rewrite bool_decide_eq_true_2 in Hr by done; by destruct b|]. intros k'. specialize (Hr k'). case_bool_decide as E; [|done]. subst.
    destruct (find _ _) as [[k0 b0]|] eqn:Ef; [|done]. exfalso. apply List.find_some in Ef as [Hin E]. apply bool_decide_eq_true in E. cbn [fst] in E. subst.
    apply Hk. apply list_elem_of_In, List.in_combine_l in Hin || apply List.in_combine_l in Hin. by apply list_elem_of_In.
Qed.

Lemma assertion_draft k f : assertion Compile node k = Some f -> k ∈ map fst (assertions Compile node) /\ k ∈ draft_keywords.
Proof.
  unfold assertion. intros H. apply fmap_Some in H as (e & He & _). apply List.find_some in He as [Hin E]. apply bool_decide_eq_true in E. subst.
  assert (e.1 ∈ map fst (assertions Compile node)) as Hm by (apply list_elem_of_In, in_map; done). split; [done|].
  revert Hm. generalize e.1. intros k Hm. assert (forallb (fun k => bool_decide (k ∈ draft_keywords)) (map fst (assertions Compile node)) = true) as Ha by (clear; by vm_compute).
  rewrite forallb_forall in Ha. apply list_elem_of_In in Hm. specialize (Ha k Hm). by apply bool_decide_eq_true in Ha.
Qed.

(** What a keyword of the first kind says, when it is there. *)
Lemma assertion_at k f : assertion Compile node k = Some f ->
  match lookup_member node k with Some a => exists b, f a v b /\ (fine k <-> b = true) | None => fine k end.
Proof using Hkw.
  intros Hf. pose proof (verdict_spec k) as Hs. unfold fine. destruct (lookup_member node k) as [a|]; [|by rewrite Hs].
  destruct Hs as (b & -> & Hb). destruct (assertion_draft k f Hf) as [_ Hd]. exists b. split; [|by destruct b].
  inversion Hb; subst; try done; congruence.
Qed.

Lemma bound_fine k h bad path msg : assertion Compile node k = Some (number_bound h) -> (forall n, h n v = negb (bad n)) ->
  fine k <-> bound_error node k bad path msg = [].
Proof using Hkw.
  intros Hf Hh. pose proof (assertion_at k _ Hf) as Ha. unfold bound_error, numberField, number_bound in *. destruct (lookup_member node k) as [a|]; [|done].
  destruct Ha as (b & (n & -> & ->) & ->). rewrite Hh. by destruct (bad _).
Qed.

Lemma length_fine k h bad s path msg : v = DStr s -> assertion Compile node k = Some (length_bound h) ->
  (forall n, h n (rune_count s) = negb (bad n)) -> fine k <-> bound_error node k bad path msg = [].
Proof using Hkw.
  intros Hv Hf Hh. pose proof (assertion_at k _ Hf) as Ha. unfold bound_error, numberField, length_bound in *. destruct (lookup_member node k) as [a|]; [|done].
  destruct Ha as (b & (n & -> & Hb) & ->). rewrite Hv in Hb. destruct Hb as [Hu ->]. rewrite <- (rune_count_characters s Hu), Hh. by destruct (bad _).
Qed.

(** A bound on another kind of instance. *)
Lemma bound_idle k h : assertion Compile node k = Some (number_bound h) -> (forall n, h n v = true) -> fine k.
Proof using Hkw.
  intros Hf Hh. pose proof (assertion_at k _ Hf) as Ha. unfold number_bound in *. destruct (lookup_member node k) as [a|]; [|done].
  destruct Ha as (b & (n & -> & ->) & ->). apply Hh.
Qed.

Lemma type_fine path : exists es, checkType node v path = Ok es /\ (fine (str "type") <-> es = []).
Proof using Hkw.
  pose proof (assertion_at (str "type") _ eq_refl) as Ha. unfold checkType. destruct (lookup_member node _) as [a|]; [|by exists []].
  destruct Ha as (b & (names & ty & Hn & Hty & ->) & Hi).
  assert (existsb ty names = existsb (type_allows v) names) as E by (apply existsb_ext; intros t; symmetry; by apply type_allows_spec). rewrite E in Hi.
  destruct a; try done; [injection Hn as <-|rewrite Hn]; (eexists; split; [reflexivity|]; rewrite Hi; apply tells_if).
Qed.

Lemma enum_const_fine path : exists es, checkEnumConst node v path = Ok es /\ (fine (str "const") /\ fine (str "enum") <-> es = []).
Proof using Hkw.
  pose proof (assertion_at (str "const") _ eq_refl) as Hc. pose proof (assertion_at (str "enum") _ eq_refl) as He. unfold checkEnumConst.
  assert (fine (str "const") <-> match lookup_member node (str "const") with Some c => if jsonDeepEqual c v then [] else [mkVE path notConst] | None => [] end = []) as Hc'.
  { destruct (lookup_member node (str "const")) as [c|]; [|done]. destruct Hc as (b & (Hca & Hcv & Hb) & ->). rewrite Hb, <- (deep_equal_normal c v Hca Hcv). apply tells_if. }
  destruct (lookup_member node (str "enum")) as [a|]; [|eexists; split; [reflexivity|]; by rewrite <- Hc'; intuition].
  destruct He as (b & (l & -> & Hl & Hv & Hb) & Hi). eexists. split; [reflexivity|].
  assert (b = existsb (fun cand => jsonDeepEqual cand v) l) as ->.
  { apply eq_bool_prop_intro. rewrite !Is_true_true, Hb, existsb_exists, Exists_exists. setoid_rewrite list_elem_of_In.
    rewrite Forall_forall in Hl. setoid_rewrite list_elem_of_In in Hl. split; intros (c & Hin & Heq); exists c; (split; [done|]); by apply (deep_equal_normal c v); auto. }
  rewrite app_nil, Hc', Hi. destruct (existsb _ _); intuition done.
Qed.

(** A keyword of the first kind whose verdict on this kind of instance is always [true]. *)
Lemma assertion_idle k f : assertion Compile node k = Some f -> (forall a b, f a v b -> b = true) -> fine k.
Proof using Hkw.
  intros Hf Hi. pose proof (assertion_at k f Hf) as Ha. destruct (lookup_member node k) as [a|]; [|done]. destruct Ha as (b & Hb & ->). by apply (Hi a).
Qed.

Lemma pattern_fine s path : v = DStr s ->
  fine (str "pattern") <->
  match lookup_member node (str "pattern") with
  | Some (DStr p) => match Compile p with Some re => if re s then [] else [mkVE path noMatch] | None => [] end
  | _ => []
  end = [].
Proof using Hkw.
  intros Hv. pose proof (assertion_at (str "pattern") _ eq_refl) as Ha. destruct (lookup_member node _) as [a|]; [|done].
  destruct Ha as (b & (p & re & -> & -> & ->) & ->). rewrite Hv. apply tells_if.
Qed.

Lemma unique_fine l path : v = DArr l ->
  exists es, match lookup_member node (str "uniqueItems") with Some (DBool true) => duplicate_errors path 0 [] l | _ => Ok [] end = Ok es /\
    (fine (str "uniqueItems") <-> es = []).
Proof using Hkw.
  intros Hv. pose proof (assertion_at (str "uniqueItems") _ eq_refl) as Ha. destruct (lookup_member node _) as [a|]; [|by exists []].
  destruct Ha as (b & (u & -> & Hb) & Hi). rewrite Hv in Hb. destruct u; [|exists []; naive_solver].
  destruct Hb as [Hc Hb]. destruct (texts_distinct l Hc) as (texts & Ht & Hd). destruct (duplicates_tell l path 0 [] texts Ht) as (es & -> & He). exists es. split; [done|].
  rewrite Hi, Hb, <- Hd, He. split; [|tauto]. intros Hn. split; [done|]. apply Forall_true. intros t. apply not_elem_of_nil.
Qed.

Lemma required_fine m path : v = DObj m ->
  exists es, match lookup_member node (str "required") with None => Ok [] | Some (DArr arr) => required_errors path m arr | Some _ => Err requiredNotArray end = Ok es /\
    (fine (str "required") <-> es = []).
Proof using Hkw.
  intros Hv. pose proof (assertion_at (str "required") _ eq_refl) as Ha. destruct (lookup_member node _) as [a|]; [|by exists []].
  destruct Ha as (b & (l & keys & -> & Hk & ->) & Hi). rewrite Hv in Hi.
  destruct (required_tells path m _ _ Hk) as (es & He & Ht). exists es. split; [done|]. by rewrite Hi.
Qed.

Lemma items_fine l path : v = DArr l ->
  settles (fun n => match lookup_member node (str "items") with
                    | None => Ok []
                    | Some (DObj itemSchema) => validate_items (validateNode Compile root n) itemSchema path 0 l
                    | Some _ => Err itemsNotSchema
                    end) (fun es => fine (str "items") <-> es = []).
Proof using Hkw.
  intros Hv. pose proof (verdict_spec (str "items")) as Hs. unfold fine. destruct (lookup_member node _) as [a|]; [|rewrite Hs; by apply settles_ret].
  destruct Hs as (b & -> & Hb). apply keyword_items in Hb as (s & -> & [(l' & cs & El & Hl & ->)|[Hno _]]); [|by destruct (Hno l)].
  rewrite Hv in El. injection El as <-. eapply settles_ext; [reflexivity| |by apply items_settle].
  intros es He. unfold tells in He. rewrite <- He. by destruct (forallb id _).
Qed.

Lemma object_fine m path : v = DObj m ->
  settles (fun n => validate_members (validateNode Compile root n) node (properties_of node) path (sort_entries fst m))
    (fun es => fine (str "properties") /\ fine (str "additionalProperties") <-> es = []).
Proof using Hkw.
  intros Hv. pose proof (verdict_spec (str "properties")) as Hs.
  assert (exists ps cs, properties_of node = ps /\ Forall2 (property (runs Compile root) ps) m cs /\ (fine (str "properties") <-> forallb id cs = true)) as (ps & cs & Ep & Hcs & Hp).
  { unfold fine, properties_of. destruct (lookup_member node _) as [a|].
    - destruct Hs as (b & -> & Hb). apply keyword_properties in Hb as (ps & -> & [(m' & cs & Em & Hm & ->)|[Hno _]]); [|by destruct (Hno m)].
      rewrite Hv in Em. injection Em as <-. exists ps, cs. split; [done|]. split; [done|]. by destruct (forallb id _).
    - rewrite Hs. exists [], (replicate (length m) true). split; [done|]. split; [|split; [intros _|done]]. 
      + apply Forall2_replicate_r; [done|]. by apply Forall_true.
      + clear. by induction (length m). }
  pose proof (assertion_at (str "additionalProperties") _ eq_refl) as Ha.
  assert (exists allowed, match lookup_member node (str "additionalProperties") with Some (DBool b) => allowed = b | None => allowed = true | _ => False end /\
    (fine (str "additionalProperties") <-> allowed || forallb (fun k => bool_decide (k ∈ map fst ps)) (map fst m) = true)) as (allowed & Hal & Hadd).
  { destruct (lookup_member node (str "additionalProperties")) as [a|]; [|by exists true]. destruct Ha as (b & (u & -> & ->) & Hi).
    exists u. split; [done|]. rewrite Hi, Hv, Ep. done. }
  eapply settles_ext; [reflexivity| |rewrite Ep; by apply (object_settles Compile root node ps path m cs allowed)].
  intros es He. unfold tells in He. by rewrite <- He, andb_true_iff, Hp, Hadd.
Qed.

(** Every keyword the validator looks at when there is neither [oneOf] nor [anyOf]. *)
Definition checked_keywords : list bytes := map fst (assertions Compile node) ++ [str "items"; str "properties"].

Lemma checked_fine : lookup_member node (str "oneOf") = None -> lookup_member node (str "anyOf") = None ->
  forallb id bs = true <-> Forall fine checked_keywords.
Proof using Hdistinct Hkw.
  intros Ho Ha. rewrite fine_iff, Forall_forall. split; [by intros H k _|]. intros H k. destruct (decide (k ∈ checked_keywords)) as [Hin|Hout]; [by apply H|].
  pose proof (verdict_spec k) as Hs. unfold fine. destruct (lookup_member node k) as [a|] eqn:El; [|by rewrite Hs]. destruct Hs as (b & -> & Hb).
  unfold checked_keywords in Hout. rewrite not_elem_of_app, !not_elem_of_cons in Hout.
  destruct Hb as [| ? f ? ? ? Hf _ | | | | | |]; try done; try congruence; try tauto. destruct (assertion_draft _ f Hf). tauto.
Qed.

(** The keywords for another kind of instance. *)
Lemma string_idle : (forall s, v <> DStr s) -> fine (str "minLength") /\ fine (str "maxLength") /\ fine (str "pattern").
Proof using Hkw.
  intros Hv. split; [|split]; (eapply assertion_idle; [reflexivity|]).
  1, 2: intros a b (n & _ & Hb); destruct v; try done; by destruct (Hv s).
  intros a b (p & re & _ & _ & ->). destruct v; try done. by destruct (Hv s).
Qed.

Lemma number_idle : (forall f, v <> DNum f) -> fine (str "minimum") /\ fine (str "maximum").
Proof using Hkw. intros Hv. split; (eapply bound_idle; [reflexivity|]); intros n; destruct v; try done; by destruct (Hv f). Qed.

Lemma array_idle : (forall l, v <> DArr l) -> fine (str "minItems") /\ fine (str "maxItems") /\ fine (str "uniqueItems") /\ fine (str "items").
Proof using Hkw.
  intros Hv. split_and!; [eapply bound_idle; [reflexivity|].. |eapply assertion_idle; [reflexivity|]|].
  1, 2: intros n; destruct v; try done; by destruct (Hv l).
  - intros a b (u & _ & Hb). destruct v; try done. by destruct (Hv l).
  - pose proof (verdict_spec (str "items")) as Hs. unfold fine. destruct (lookup_member node _) as [a|]; [|by rewrite Hs]. destruct Hs as (b & -> & Hb).
    apply keyword_items in Hb as (s & _ & [(l & cs & El & _)|[_ ->]]); [by destruct (Hv l)|done].
Qed.

Lemma object_idle : (forall m, v <> DObj m) -> fine (str "required") /\ fine (str "additionalProperties") /\ fine (str "properties").
Proof using Hkw.
  intros Hv. split_and!; [eapply assertion_idle; [reflexivity|].. |].
  - intros a b (l & keys & _ & _ & ->). destruct v; try done. by destruct (Hv m).
  - intros a b (u & _ & ->). destruct v; try done. by destruct (Hv m).
  - pose proof (verdict_spec (str "properties")) as Hs. unfold fine. destruct (lookup_member node _) as [a|]; [|by rewrite Hs]. destruct Hs as (b & -> & Hb).
    apply keyword_properties in Hb as (s & _ & [(l & cs & El & _)|[_ ->]]); [by destruct (Hv l)|done].
Qed.

Lemma array_settles l path : v = DArr l ->
  settles (fun n => checkArrayConstraints (validateNode Compile root n) node l path)
    (fun es => fine (str "minItems") /\ fine (str "maxItems") /\ fine (str "uniqueItems") /\ fine (str "items") <-> es = []).
Proof using Hkw.
  intros Hl. destruct (unique_fine l path Hl) as (es & He & Hu). unfold checkArrayConstraints. rewrite He. cbn [mbind result_bind].
  apply (settles_bind _ _ _ _ (items_fine l path Hl)). intros ds Hd. apply settles_ret. rewrite !app_nil, Hd, Hu.
  rewrite <- (bound_fine (str "minItems") _ _ path tooFewItems eq_refl), <- (bound_fine (str "maxItems") _ _ path tooManyItems eq_refl); [tauto|by rewrite Hl..].
Qed.

Lemma object_node_settles m path : v = DObj m ->
  settles (fun n => checkObjectConstraints (validateNode Compile root n) node m path)
    (fun es => fine (str "required") /\ fine (str "properties") /\ fine (str "additionalProperties") <-> es = []).
Proof using Hkw.
  intros Hm. destruct (required_fine m path Hm) as (es & He & Hr). unfold checkObjectConstraints. rewrite He. cbn [mbind result_bind].
  apply (settles_bind _ _ _ _ (object_fine m path Hm)). intros ds Hd. apply settles_ret. by rewrite app_nil, Hd, Hr.
Qed.

(** The keywords that concern one kind of instance. *)
Lemma instance_settles path : settles (fun n => check_instance Compile (validateNode Compile root n) node v path)
  (fun es => Forall fine [str "minLength"; str "maxLength"; str "pattern"; str "minimum"; str "maximum"; str "minItems"; str "maxItems";
     str "uniqueItems"; str "required"; str "additionalProperties"; str "items"; str "properties"] <-> es = []).
Proof using Hkw.
  assert ((forall s, v <> DStr s) \/ (exists s, v = DStr s)) as HS by (destruct v; eauto; by left).
  assert ((forall f, v <> DNum f) \/ (exists f, v = DNum f)) as HN by (destruct v; eauto; by left).
  assert ((forall l, v <> DArr l) \/ (exists l, v = DArr l)) as HA by (destruct v; eauto; by left).
  assert ((forall m, v <> DObj m) \/ (exists m, v = DObj m)) as HO by (destruct v; eauto; by left).
  destruct HS as [HS|[s Hs]]; [pose proof (string_idle HS) as (S1 & S2 & S3)|].
  2:{ destruct number_idle as (N1 & N2), array_idle as (A1 & A2 & A3 & A4), object_idle as (O1 & O2 & O3); try (intros; by rewrite Hs).
    rewrite Hs. apply settles_ret. rewrite !Forall_cons, Forall_nil. unfold checkStringConstraints. rewrite !app_nil.
    rewrite <- (pattern_fine s path Hs), <- (length_fine (str "minLength") _ _ s path tooShort Hs eq_refl), <- (length_fine (str "maxLength") _ _ s path tooLong Hs eq_refl); [tauto|done..]. }
  destruct HN as [HN|[f Hf]]; [pose proof (number_idle HN) as (N1 & N2)|].
  2:{ destruct array_idle as (A1 & A2 & A3 & A4), object_idle as (O1 & O2 & O3); try (intros; by rewrite Hf).
    rewrite Hf. apply settles_ret. rewrite !Forall_cons, Forall_nil. unfold checkNumberConstraints. rewrite !app_nil.
    rewrite <- (bound_fine (str "minimum") _ _ path belowMinimum eq_refl), <- (bound_fine (str "maximum") _ _ path aboveMaximum eq_refl); [tauto|by rewrite Hf..]. }
  destruct HA as [HA|[l Hl]]; [pose proof (array_idle HA) as (A1 & A2 & A3 & A4)|].
  2:{ destruct object_idle as (O1 & O2 & O3); try (intros; by rewrite Hl).
    rewrite Hl. eapply settles_ext; [reflexivity| |exact (array_settles l path Hl)]. intros es He. cbn beta in He |- *. rewrite !Forall_cons, Forall_nil. tauto. }
  destruct HO as [HO|[m Hm]]; [pose proof (object_idle HO) as (O1 & O2 & O3)|].
  2:{ rewrite Hm. eapply settles_ext; [reflexivity| |exact (object_node_settles m path Hm)]. intros es He. cbn beta in He |- *. rewrite !Forall_cons, Forall_nil. tauto. }
  eapply (settles_ext (fun _ => Ok [])); [|intros es He; exact He|apply settles_ret]; [intros n; destruct v; try done; naive_solver|].
  rewrite !Forall_cons, Forall_nil. tauto.
Qed.

(** Beside [oneOf] or [anyOf] nothing else has an effect. *)
Lemma combined_verdict k : (k = str "oneOf" \/ k = str "anyOf") -> alone node -> forall a, lookup_member node k = Some a ->
  exists b, keyword Compile (runs Compile root) node k a v b /\ b = forallb id bs.
Proof using Hdistinct Hkw.
  intros Hk Hal a El. pose proof (verdict_spec k) as Hs. rewrite El in Hs. destruct Hs as (b & Hv & Hb). exists b. split; [done|].
  assert (forall k' x, lookup_member node k' = Some x -> k' ∈ map fst node) as Hin.
  { intros k' x Hx. destruct (decide (k' ∈ map fst node)) as [|Hn]; [done|]. apply lookup_member_None in Hn. congruence. }
  apply eq_bool_prop_intro. rewrite !Is_true_true. rewrite fine_iff. split.
  - intros -> k'. destruct (decide (k' = k)) as [->|Hne]; [unfold fine; by rewrite Hv|]. pose proof (verdict_spec k') as Hs. unfold fine.
    destruct (lookup_member node k') as [x|] eqn:Ex; [|by rewrite Hs]. destruct Hs as (c & -> & Hc).
    destruct (Hal k k' Hk (Hin _ _ El) (Hin _ _ Ex)) as [?|Hi]; [done|].
    destruct Hc as [| ? f ? ? ? Hf _ | | | | | |]; try done; try (exfalso; apply Hi; clear; apply (bool_decide_unpack _); vm_compute; reflexivity).
    by destruct (assertion_draft _ f Hf).
  - intros H. specialize (H k). unfold fine in H. rewrite Hv in H. by destruct b.
Qed.

Lemma node_settles path : alone node -> str "$ref" ∉ map fst node ->
  settles (fun n => validate_node Compile root (validateNode Compile root n) node v path) (tells (forallb id bs)).
Proof using Hdistinct Hkw.
  intros Hal Href. apply lookup_member_None in Href. unfold validate_node. rewrite Href.
  destruct (lookup_member node (str "oneOf")) as [a|] eqn:Eo.
  { destruct (combined_verdict _ (or_introl eq_refl) Hal a Eo) as (b & Hb & <-). apply keyword_oneOf in Hb as (subs & cs & -> & Hs & ->). by apply oneOf_settles. }
  destruct (lookup_member node (str "anyOf")) as [a|] eqn:Ea.
  { destruct (combined_verdict _ (or_intror eq_refl) Hal a Ea) as (b & Hb & <-). apply keyword_anyOf in Hb as (subs & cs & -> & Hs & ->). by apply anyOf_settles. }
  destruct (type_fine path) as (es1 & -> & H1), (enum_const_fine path) as (es2 & -> & H2). cbn [mbind result_bind].
  apply (settles_bind _ _ _ _ (instance_settles path)). intros es3 H3. apply settles_ret. unfold tells. rewrite (checked_fine Eo Ea), !app_nil, <- H1, <- H2, <- H3.
  unfold checked_keywords. cbn [assertions map fst app]. rewrite !Forall_cons, Forall_nil. tauto.
Qed.
End node.

(** ** The validator decides *)

Section theorem.
Context (Compile : bytes -> option (bytes -> bool)) (root : schema_node).

Lemma keyword_mono (J K : schema_node -> dyn -> bool -> Prop) node k a v b :
  (forall n x c, J n x c -> K n x c) -> keyword Compile J node k a v b -> keyword Compile K node k a v b.
Proof.
  intros HJ. destruct 1; econstructor; try done; eapply Forall2_impl; try done; try (intros ? ?; apply HJ).
  unfold property. intros [k x] c. destruct (lookup_member ps _) as [[]|]; auto.
Qed.

Lemma rule_runs node v b : rule Compile root (runs Compile root) node v b -> runs Compile root node v b.
Proof.
  intros H path. assert (settles (fun n => validate_node Compile root (validateNode Compile root n) node v path) (tells b)) as (es & F & Hes & Ht).
  { destruct H as [node ref target v b Hr Ht Hj|node v bs Hn Ha Href Hk]; [|by apply node_settles].
    unfold validate_node. rewrite Hr, (points_to_resolved _ _ _ Ht). apply Hj. }
  exists es, (S F). split; [|done]. intros [|n] Hle; [lia|]. apply Hes. lia.
Qed.

Lemma judged_runs n : forall node v b, judged_in Compile root n node v b -> runs Compile root node v b.
Proof.
  induction n as [|n IH]; intros node v b H; [done|]. apply rule_runs. destruct H as [node ref target v b Hr Ht Hj|node v bs Hn Ha Href Hk].
  - eapply rule_ref; eauto.
  - apply rule_keywords; try done. eapply Forall2_impl; [exact Hk|]. intros e c. by apply keyword_mono.
Qed.

(** C26: The validator decides as the draft does.  Whenever the rules of JSON Schema draft-07
    derive a verdict on a document under a schema, keyword by keyword, within the subset of
    keywords the code implements and on the parts of the schema the document reaches (local
    references without percent-encoding, patterns that compile, and for const, enum and
    uniqueItems values without a negative zero whose numbers print and read back), the
    validator returns (it needs no more than some amount of recursion), without a
    processing error, and with no disagreement exactly when the verdict is valid; and the
    verdict is unique. *)
Theorem validate_decides docJSON instance b :
  Unmarshal_any docJSON = Some instance -> judged Compile root root instance b ->
  (exists errs F, (forall fuel, (F <= fuel)%nat -> Validate_schema Compile fuel root docJSON = Ok errs) /\ (b = true <-> errs = [])) /\
  (forall b', judged Compile root root instance b' -> b' = b).
Proof.
  intros Hd [n Hj]. destruct (judged_runs n _ _ _ Hj []) as (errs & F & He & Ht). split.
  - exists errs, F. split; [|done]. intros fuel Hf. unfold Validate_schema. rewrite Hd. by apply He.
  - intros b' [n' Hj']. destruct (judged_runs n' _ _ _ Hj' []) as (errs' & F' & He' & Ht').
    specialize (He (F + F')%nat ltac:(lia)). rewrite (He' (F + F')%nat ltac:(lia)) in He. injection He as ->.
    unfold tells in *. destruct b, b'; naive_solver.
Qed.
End theorem.

(** ** Where the code departs from its comments *)

(** The keywords of the draft the code does not implement. *)
Definition unimplemented : list bytes :=
  [str "multipleOf"; str "exclusiveMaximum"; str "exclusiveMinimum"; str "additionalItems"; str "contains"; str "maxProperties";
   str "minProperties"; str "patternProperties"; str "dependencies"; str "propertyNames"; str "if"; str "then"; str "else"; str "allOf"; str "not"].

Lemma members_pass rec node path m : lookup_member node (str "additionalProperties") = None -> validate_members rec node [] path m = Ok [].
Proof. intros Ha. induction m as [|[k x] m IH]; [done|]. cbn [validate_members]. unfold validate_member. cbn [lookup_member find fmap option_fmap option_map]. by rewrite Ha, IH. Qed.

(** They are no error, as the comment on [Schema] has it: a node with one of them, whatever
    its argument, passes every instance.  So does a pattern that does not compile, though
    [validateNode] is said to return an error for it; and what stands beside a [oneOf] is
    not looked at, here a type. *)
Lemma silent_passes Compile root n a v path :
  Forall (fun k => validateNode Compile root (S n) [(k, a)] v path = Ok []) unimplemented /\
  (forall p s, Compile p = None -> validateNode Compile root (S n) [(str "pattern", DStr p)] (DStr s) path = Ok []) /\
  validateNode Compile root (S (S n)) [(str "type", DStr (str "string")); (str "oneOf", DArr [DObj []])] DNil path = Ok [].
Proof.
  split; [|split; [|done]].
  - repeat (apply Forall_cons; split); [..|by apply Forall_nil]; (destruct v as [| | | | | |m|]; try reflexivity); cbn [validateNode]; unfold validate_node;
      cbn -[validate_members sort_entries]; unfold checkObjectConstraints, properties_of; cbn -[validate_members sort_entries]; by rewrite members_pass.
  - intros p s Hp. assert (validateNode Compile root (S n) [(str "pattern", DStr p)] (DStr s) path =
      Ok (match Compile p with Some re => if re s then [] else [mkVE path noMatch] | None => [] end)) as -> by reflexivity. by rewrite Hp.
Qed.

(** Equality by text tells the two zeros apart, which are one number: a constant [0] refuses
    the document [-0]. *)
Lemma negative_zero Compile root n path :
  normal (DNum (S754_zero true)) = normal (DNum (S754_zero false)) /\ Unmarshal_any (str "-0") = Some (DNum (S754_zero true)) /\
  validateNode Compile root (S n) [(str "const", DNum (S754_zero false))] (DNum (S754_zero true)) path = Ok [mkVE path notConst].
Proof. split; [done|]. split; [by vm_compute|done]. Qed.

(** A schema that refers to itself has no verdict, and the recursion on it never ends. *)
Lemma self_reference Compile v path n :
  let root := [(str "$ref", DStr (str "#"))] in validateNode Compile root n root v path = Err unbounded.
Proof. intros root. induction n as [|n IH]; [done|exact IH]. Qed.

(** ** A concrete schema *)

Definition sample_schema : bytes :=
  json "{'type':'object','required':['name'],'properties':{'name':{'$ref':'#/definitions/n'}},'definitions':{'n':{'title':'a name','oneOf':[{'type':'string','minLength':2},{'const':null}]}}}".

Definition sample_text : schema_node := [(str "type", DStr (str "string")); (str "minLength", DNum (int_float 2))].
Definition sample_null : schema_node := [(str "const", DNil)].
Definition sample_name : schema_node := [(str "title", DStr (str "a name")); (str "oneOf", DArr (map DObj [sample_text; sample_null]))].

Definition sample_properties : schema_node := [(str "name", DObj [(str "$ref", DStr (str "#/definitions/n"))])].

Definition sample_root : schema_node :=
  [(str "type", DStr (str "object")); (str "required", DArr [DStr (str "name")]); (str "properties", DObj sample_properties);
   (str "definitions", DObj [(str "n", DObj sample_name)])].

Lemma sample_loaded : LoadSchema sample_schema = Ok sample_root.
Proof. by vm_compute. Qed.

Definition alone_b (node : schema_node) : bool :=
  forallb (fun k => negb (bool_decide (k = str "oneOf") || bool_decide (k = str "anyOf")) ||
                    forallb (fun k' => bool_decide (k' = k) || bool_decide (k' ∉ draft_keywords)) (map fst node)) (map fst node).

Lemma alone_check node : alone_b node = true -> alone node.
Proof.
  unfold alone_b. rewrite forallb_forall. intros H k k' Hk Hin Hin'. apply list_elem_of_In in Hin, Hin'. specialize (H k Hin).
  assert (bool_decide (k = str "oneOf") || bool_decide (k = str "anyOf") = true) as E by (destruct Hk as [->| ->]; by vm_compute).
  rewrite E in H. cbn [negb orb] in H. rewrite forallb_forall in H. specialize (H k' Hin'). apply orb_true_iff in H as [H|H]; apply bool_decide_eq_true in H; auto.
Qed.

(** A node without a reference, from the verdicts of its keywords. *)
Ltac node_verdicts bs :=
  refine (rule_keywords _ _ _ _ _ bs _ _ _ _);
  [apply (bool_decide_unpack _); by vm_compute|apply alone_check; by vm_compute|apply (bool_decide_unpack _); by vm_compute|repeat (apply Forall2_cons; split); try apply Forall2_nil; try done].

(** A name of one letter is too short for the first case and no null. *)
Lemma sample_verdict : judged (fun _ => None) sample_root sample_root (DObj [(str "name", DStr (str "a"))]) false.
Proof.
  assert (forall k, bool_decide (k ∉ draft_keywords) = true -> k ∉ draft_keywords) as Hi by (intros k; by rewrite bool_decide_eq_true).
  exists 4%nat. node_verdicts [true; true; false; true].
  - eapply kw_assertion; [reflexivity|]. by eexists _, _.
  - eapply kw_assertion; [reflexivity|]. by eexists _, _.
  - refine (kw_properties _ _ _ _ _ [false] _). apply Forall2_cons. split; [|done]. red. cbn.
    eapply rule_ref; [reflexivity|split; [apply (bool_decide_unpack _); by vm_compute|exists [str "definitions"; str "n"]; split; reflexivity]|].
    node_verdicts [true; false]; [by apply kw_ignored, Hi; vm_compute|].
    refine (kw_oneOf _ _ _ [sample_text; sample_null] _ [false; false] _). repeat (apply Forall2_cons; split); [..|done].
    + node_verdicts [true; false]; (eapply kw_assertion; [reflexivity|]); [by eexists _, _|].
      eexists. split; [reflexivity|]. split; [apply (valid_utf8_sound 1); by vm_compute|by vm_compute].
    + node_verdicts [false]. eapply kw_assertion; [reflexivity|]. split; [done|]. split; [apply (valid_utf8_sound 1); by vm_compute|done].
  - by apply kw_ignored, Hi; vm_compute.
Qed.

Lemma validate_decides_witness : exists errs F,
  (forall fuel, (F <= fuel)%nat -> Validate_schema (fun _ => None) fuel sample_root (json "{'name':'a'}") = Ok errs) /\ errs <> [].
Proof.
  destruct (validate_decides (fun _ => None) sample_root (json "{'name':'a'}") (DObj [(str "name", DStr (str "a"))]) false ltac:(by vm_compute) sample_verdict)
    as [(errs & F & He & Ht) _].
  exists errs, F. split; [done|]. intros E. by apply Ht in E.
Defined.
