(* ===== verification/Provenance.v ===== *)
(** * Release attestations: provenance, signatures and the release command

    ecosystem/npamp-supply-chain: dsse.go, sign.go, provenance.go, provenance_validate.go,
    sbom_validate.go and pipeline.go, and the pipeline of cmd/npamp-supply-chain.  The
    octets of the vendored schema are a parameter, and so are the engine of regular
    expressions and the depth of recursion its validator has. *)

From S2P Require Import Prelude Sha256 Errors Cbor Crypto Json CarriageJson JsonAny JsonTypes JsonRoundtrip Base64 Discovery SchemaVersion SupplyChain JsonSchema.
From Stdlib Require Import Strings.Byte.
Open Scope Z_scope.

(** ** DSSE envelopes (dsse.go) *)

Definition InTotoPayloadType : bytes := str "application/vnd.in-toto+json".

Record Signature : Type := mkSignature { sig_KeyID : bytes; sig_Sig : bytes }.
Record Envelope : Type := mkEnvelope { env_Payload : bytes; env_PayloadType : bytes; env_Signatures : option (list Signature) }.

Definition Signature_type : goty := TStruct [(str "keyid", true, TString); (str "sig", false, TString)].
Definition DSSE_type : goty :=
  TStruct [(str "payload", false, TString); (str "payloadType", false, TString); (str "signatures", false, TSlice Signature_type)].
Definition Signature_to (s : Signature) : goval := GStruct [GStr (sig_KeyID s); GStr (sig_Sig s)].
Definition Signature_of (v : goval) : Signature := match v with GStruct [GStr k; GStr s] => mkSignature k s | _ => mkSignature [] [] end.
Definition DSSE_to (e : Envelope) : goval := GStruct [GStr (env_Payload e); GStr (env_PayloadType e); slice_to Signature_to (env_Signatures e)].
Definition DSSE_of (v : goval) : Envelope :=
  match v with
  | GStruct [GStr p; GStr t; sigs] => mkEnvelope p t (slice_of Signature_of sigs)
  | _ => mkEnvelope [] [] None
  end.

Definition dssePrefix : bytes := str "DSSEv1".

Definition PAE (payloadType body : bytes) : bytes :=
  dssePrefix ++ str " " ++ FormatInt (blen payloadType) ++ str " " ++ payloadType ++ str " " ++ FormatInt (blen body) ++ str " " ++ body.

(** ** Signing (sign.go) *)

Record ProvenanceSigner : Type := mkSigner { ps_priv : bytes; ps_pub : bytes }.

Definition SeedSize : Z := 32.

Section signing.
Context `{Crypto}.
(** [ed25519.NewKeyFromSeed]. *)
Context (key_of_seed : bytes -> bytes).

Definition NewProvenanceSigner (seed : bytes) : result supply_error ProvenanceSigner :=
  check (negb (blen seed =? SeedSize)) ErrSeedSize;;
  let priv := key_of_seed seed in
  Ok (mkSigner priv (ed25519_public priv)).

(** [rnd] is the seed [ed25519.GenerateKey] draws. *)
Definition GenerateProvenanceSigner (rnd : option bytes) : result supply_error ProvenanceSigner :=
  match rnd with
  | None => Err errRand
  | Some seed => let priv := key_of_seed seed in Ok (mkSigner priv (ed25519_public priv))
  end.

Definition PublicKey (s : ProvenanceSigner) : bytes := ps_pub s.

Definition SignStatement (s : ProvenanceSigner) (statementJSON : bytes) : result supply_error bytes :=
  let sig := ed25519_sign (ps_priv s) (PAE InTotoPayloadType statementJSON) in
  let env := mkEnvelope (EncodeToString StdEncoding statementJSON) InTotoPayloadType (Some [mkSignature [] (EncodeToString StdEncoding sig)]) in
  or_json (Marshal DSSE_type (DSSE_to env)).

(** One turn of the loop over the signatures. *)
Definition signature_verifies (pub pae : bytes) (sig : Signature) : bool :=
  match DecodeString StdEncoding (sig_Sig sig) with
  | Some raw => (blen raw =? SignatureSize) && ed25519_verify pub pae raw
  | None => false
  end.

Definition VerifyEnvelope (pub : bytes) (env : option Envelope) (expectedPayload : bytes) : result supply_error unit :=
  match env with
  | None => Err ErrEnvelopeInvalid
  | Some env =>
      let sigs := default [] (env_Signatures env) in
      check (bool_decide (env_Payload env = []) || bool_decide (env_PayloadType env = []) || (length sigs =? 0)%nat) ErrEnvelopeInvalid;;
      check (negb (blen pub =? PublicKeySize)) ErrSignatureInvalid;;
      check (negb (bool_decide (env_PayloadType env = InTotoPayloadType))) ErrPayloadTypeMismatch;;
      match DecodeString StdEncoding (env_Payload env) with
      | None => Err ErrEnvelopeInvalid
      | Some payload =>
          let pae := PAE (env_PayloadType env) payload in
          check (negb (existsb (signature_verifies pub pae) sigs)) ErrSignatureInvalid;;
          check (negb (bool_decide (payload = expectedPayload))) ErrPayloadMismatch
      end
  end.

Definition VerifyStatementSignature (pub envelopeJSON expectedStatementJSON : bytes) : result supply_error unit :=
  match Unmarshal DSSE_type envelopeJSON with
  | None => Err ErrEnvelopeInvalid
  | Some v => VerifyEnvelope pub (Some (DSSE_of v)) expectedStatementJSON
  end.
End signing.

(** ** Provenance statements (provenance.go) *)

Definition StatementType : bytes := str "https://in-toto.io/Statement/v1".
Definition ProvenancePredicateType : bytes := str "https://slsa.dev/provenance/v1".
Definition NPAMPBuildType : bytes := str "https://npamp.dev/supply-chain/buildtype/go-sdk@v1".

Record ResourceDescriptor : Type := mkResource { rd_Name : bytes; rd_URI : bytes; rd_Digest : option DigestSet; rd_MediaType : bytes }.
Record RunMetadata : Type := mkRunMetadata { rm_InvocationID : bytes; rm_StartedOn : bytes; rm_FinishedOn : bytes }.
Record RunDetails : Type := mkRunDetails { run_BuilderID : bytes; run_Metadata : option RunMetadata }.
Record BuildDefinition : Type := mkBuildDefinition {
  bd_BuildType : bytes;
  bd_ExternalParameters : option (list (bytes * dyn));
  bd_InternalParameters : option (list (bytes * dyn));
  bd_ResolvedDependencies : option (list ResourceDescriptor)
}.
Record Statement : Type := mkStatement {
  st_Type : bytes;
  st_Subject : option (list ResourceDescriptor);
  st_PredicateType : bytes;
  st_BuildDefinition : BuildDefinition;    (* predicate.buildDefinition *)
  st_RunDetails : RunDetails    (* predicate.runDetails *)
}.

Definition Resource_type : goty :=
  TStruct [(str "name", true, TString); (str "uri", true, TString); (str "digest", true, TMap); (str "mediaType", true, TString)].
Definition Builder_type : goty := TStruct [(str "id", false, TString)].
Definition RunMetadata_type : goty := TStruct [(str "invocationId", true, TString); (str "startedOn", true, TString); (str "finishedOn", true, TString)].
Definition RunDetails_type : goty := TStruct [(str "builder", false, Builder_type); (str "metadata", true, TPtr RunMetadata_type)].
Definition BuildDefinition_type : goty :=
  TStruct [(str "buildType", false, TString); (str "externalParameters", false, TAnyMap); (str "internalParameters", true, TAnyMap);
           (str "resolvedDependencies", true, TSlice Resource_type)].
Definition Predicate_type : goty := TStruct [(str "buildDefinition", false, BuildDefinition_type); (str "runDetails", false, RunDetails_type)].
Definition Statement_type : goty :=
  TStruct [(str "_type", false, TString); (str "subject", false, TSlice Resource_type); (str "predicateType", false, TString); (str "predicate", false, Predicate_type)].

Definition Resource_to (r : ResourceDescriptor) : goval := GStruct [GStr (rd_Name r); GStr (rd_URI r); GMap (rd_Digest r); GStr (rd_MediaType r)].
Definition Resource_of (v : goval) : ResourceDescriptor :=
  match v with GStruct [GStr n; GStr u; GMap d; GStr m] => mkResource n u d m | _ => mkResource [] [] None [] end.
Definition RunMetadata_to (m : RunMetadata) : goval := GStruct [GStr (rm_InvocationID m); GStr (rm_StartedOn m); GStr (rm_FinishedOn m)].
Definition RunMetadata_of (v : goval) : RunMetadata :=
  match v with GStruct [GStr i; GStr s; GStr f] => mkRunMetadata i s f | _ => mkRunMetadata [] [] [] end.
Definition RunDetails_to (r : RunDetails) : goval := GStruct [GStruct [GStr (run_BuilderID r)]; GPtr (RunMetadata_to <$> run_Metadata r)].
Definition RunDetails_of (v : goval) : RunDetails :=
  match v with GStruct [GStruct [GStr b]; GPtr m] => mkRunDetails b (RunMetadata_of <$> m) | _ => mkRunDetails [] None end.
Definition BuildDefinition_to (b : BuildDefinition) : goval :=
  GStruct [GStr (bd_BuildType b); GAnyMap (bd_ExternalParameters b); GAnyMap (bd_InternalParameters b); slice_to Resource_to (bd_ResolvedDependencies b)].
Definition BuildDefinition_of (v : goval) : BuildDefinition :=
  match v with
  | GStruct [GStr t; GAnyMap e; GAnyMap i; deps] => mkBuildDefinition t e i (slice_of Resource_of deps)
  | _ => mkBuildDefinition [] None None None
  end.
Definition Statement_to (s : Statement) : goval :=
  GStruct [GStr (st_Type s); slice_to Resource_to (st_Subject s); GStr (st_PredicateType s);
           GStruct [BuildDefinition_to (st_BuildDefinition s); RunDetails_to (st_RunDetails s)]].
Definition Statement_of (v : goval) : Statement :=
  match v with
  | GStruct [GStr t; subj; GStr p; GStruct [b; r]] => mkStatement t (slice_of Resource_of subj) p (BuildDefinition_of b) (RunDetails_of r)
  | _ => mkStatement [] None [] (mkBuildDefinition [] None None None) (mkRunDetails [] None)
  end.

Definition BuildStatement (artifactName : bytes) (artifactDigest sbomDigest : DigestSet) (builderID : bytes) (started finished : Z)
    : result supply_error Statement :=
  check (length artifactDigest =? 0)%nat ErrEmptyArtifactDigest;;
  check (length sbomDigest =? 0)%nat ErrEmptySBOMDigest;;
  check (bool_decide (builderID = [])) ErrEmptyBuilderID;;
  Ok (mkStatement StatementType (Some [mkResource artifactName [] (Some artifactDigest) []]) ProvenancePredicateType
        (mkBuildDefinition NPAMPBuildType (Some [(str "sbomDigest", DText sbomDigest)]) None None)
        (mkRunDetails builderID (Some (mkRunMetadata [] (RFC3339 started) (RFC3339 finished))))).

(** ** Checking statements (provenance_validate.go) *)

Definition ValidateStatement (s : option Statement) : result supply_error unit :=
  match s with
  | None => Err ErrStatementInvalid
  | Some s =>
      let subjects := default [] (st_Subject s) in
      check (negb (bool_decide (st_Type s = StatementType))) ErrStatementInvalid;;
      check (length subjects =? 0)%nat ErrStatementInvalid;;
      check (existsb (fun subj => (length (default [] (rd_Digest subj)) =? 0)%nat) subjects) ErrStatementInvalid;;
      check (negb (bool_decide (st_PredicateType s = ProvenancePredicateType))) ErrStatementInvalid;;
      check (bool_decide (bd_BuildType (st_BuildDefinition s) = [])) ErrStatementInvalid;;
      check (match bd_ExternalParameters (st_BuildDefinition s) with None => true | Some _ => false end) ErrStatementInvalid;;
      check (bool_decide (run_BuilderID (st_RunDetails s) = [])) ErrStatementInvalid
  end.

Fixpoint strings_of (m : list (bytes * dyn)) : option DigestSet :=
  match m with
  | [] => Some []
  | (k, DStr s) :: m => cons (k, s) <$> strings_of m
  | _ => None
  end.

Definition asDigestSet (v : dyn) : result supply_error DigestSet :=
  match v with
  | DText m => Ok m
  | DObj m => match strings_of m with Some d => Ok d | None => Err ErrBindingMismatch end
  | _ => Err ErrBindingMismatch
  end.

Definition param (m : option (list (bytes * dyn))) (k : bytes) : option dyn := snd <$> find (fun e => bool_decide (e.1 = k)) (default [] m).

Definition VerifyBinding (s : option Statement) (artifact sbomJSON : bytes) : result supply_error unit :=
  match s with
  | None => Err ErrStatementInvalid
  | Some s =>
      match default [] (st_Subject s) with
      | [] => Err ErrStatementInvalid
      | subj :: _ =>
          check (negb (Equal (DigestBytes artifact) (default [] (rd_Digest subj)))) ErrBindingMismatch;;
          match param (bd_ExternalParameters (st_BuildDefinition s)) (str "sbomDigest") with
          | None => Err ErrBindingMismatch
          | Some raw =>
              recorded ← map_err (fun _ => ErrBindingMismatch) (asDigestSet raw);
              check (negb (Equal (DigestBytes sbomJSON) recorded)) ErrBindingMismatch
          end
      end
  end.

(** ** The pipeline (sbom_validate.go, pipeline.go) *)

Record BuildResult : Type := mkBuildResult {
  br_ArtifactDigest : DigestSet;
  br_SBOM : BOM;
  br_SBOMJSON : bytes;
  br_SBOMDigest : DigestSet;
  br_Statement : Statement;
  br_StatementJSON : bytes;
  br_SignedProvenance : bytes
}.

(** The embedded file schema/bom-1.7.schema.json, [regexp.Compile], and the recursion the
    stack allows. *)
Record schema_source : Type := mkSchemaSource {
  cyclonedxSchemaBytes : bytes;
  ss_Compile : bytes -> option (bytes -> bool);
  ss_stack : nat
}.

Definition loadCycloneDXSchema (src : schema_source) : result schema_failure schema_node := LoadSchema (cyclonedxSchemaBytes src).

Section pipeline.
Context `{Crypto}.
Context (unicode_lower : bytes -> bytes).
Context (cyclonedx : schema_source).

Definition ValidateSBOM (bomJSON : bytes) : result supply_error unit :=
  match loadCycloneDXSchema cyclonedx with
  | Err _ => Err errSchema
  | Ok schema =>
      match Validate_schema (ss_Compile cyclonedx) (ss_stack cyclonedx) schema bomJSON with
      | Err _ => Err errSchema
      | Ok errs => check (0 <? length errs)%nat ErrSchemaInvalid
      end
  end.

Definition MarshalAndValidateSBOM (bom : BOM) : result supply_error bytes :=
  data ← or_json (Marshal BOM_type (BOM_to bom));
  ValidateSBOM data;;
  Ok data.

(** [artifact] is the name and the data. *)
Definition BuildRelease (rnd : option bytes) (artifact : bytes * bytes) (rootComponent : Component) (modules : list Module) (builderID : bytes)
    (signer : ProvenanceSigner) (started finished : Z) : result supply_error BuildResult :=
  let artifactDigest := DigestBytes artifact.2 in
  sbom ← BuildSBOM unicode_lower rnd rootComponent modules finished;
  sbomJSON ← MarshalAndValidateSBOM sbom;
  let sbomDigest := DigestBytes sbomJSON in
  statement ← BuildStatement artifact.1 artifactDigest sbomDigest builderID started finished;
  ValidateStatement (Some statement);;
  statementJSON ← or_json (Marshal Statement_type (Statement_to statement));
  signed ← SignStatement signer statementJSON;
  Ok (mkBuildResult artifactDigest sbom sbomJSON sbomDigest statement statementJSON signed).

(** ** The release command (cmd/npamp-supply-chain) *)

Record config : Type := mkConfig {
  cfg_artifactPath : bytes;
  cfg_name : bytes;
  cfg_version : bytes;
  cfg_componentType : bytes;
  cfg_purl : bytes;
  cfg_builderID : bytes;
  cfg_seedHex : bytes;
  cfg_outDir : bytes;
  cfg_noModuleGraph : bool
}.

(** The files on disk; [filepath.Join]; which paths can be written; the output of
    [go list -m -json all]; [ed25519.NewKeyFromSeed]. *)
Definition disk : Type := bytes -> option bytes.
Context (filepath_Join : bytes -> bytes -> bytes) (writable : bytes -> bool) (go_list : option bytes) (key_of_seed : bytes -> bytes).

Definition ReadFile (d : disk) (path : bytes) : result supply_error bytes := match d path with Some b => Ok b | None => Err errIO end.
Definition WriteFile (d : disk) (path data : bytes) : result supply_error disk :=
  check (negb (writable path)) errIO;;
  Ok (fun p => if bool_decide (p = path) then Some data else d p).

Definition discoverModules : result supply_error (list Module) :=
  match go_list with
  | None => Err errIO
  | Some out => DecodeGoListModules out
  end.

Definition buildSigner (rnd : option bytes) (seedHex : bytes) : result supply_error ProvenanceSigner :=
  if bool_decide (seedHex = []) then GenerateProvenanceSigner key_of_seed rnd
  else
    match hex_decode seedHex with
    | None => Err errHex
    | Some seed =>
        check (negb (blen seed =? SeedSize)) ErrSeedSize;;
        NewProvenanceSigner key_of_seed seed
    end.

Definition out_path (cfg : config) (file : bytes) : bytes := filepath_Join (cfg_outDir cfg) file.

(** [outDir] exists once [os.MkdirAll] has made it. *)
Definition writeOutputs (cfg : config) (res : BuildResult) (pub : bytes) (d : disk) : result supply_error disk :=
  check (negb (writable (cfg_outDir cfg))) errIO;;
  d ← WriteFile d (out_path cfg (str "sbom.json")) (br_SBOMJSON res);
  d ← WriteFile d (out_path cfg (str "provenance.json")) (br_SignedProvenance res);
  WriteFile d (out_path cfg (str "pubkey.hex")) (hex_encode pub ++ [x0a]).

(** [strings.TrimRight] of carriage returns and newlines. *)
Fixpoint drop_newlines (s : bytes) : bytes :=
  match s with
  | c :: s' => if oct c x0d || oct c x0a then drop_newlines s' else s
  | [] => []
  end.
Definition trimNewline (s : bytes) : bytes := rev (drop_newlines (rev s)).

Definition decodeEnvelopePayload (env : Envelope) : result supply_error bytes := or_json (DecodeString StdEncoding (env_Payload env)).

Definition reverify (cfg : config) (d : disk) : result supply_error unit :=
  artifactData ← ReadFile d (cfg_artifactPath cfg);
  sbomJSON ← ReadFile d (out_path cfg (str "sbom.json"));
  provenanceJSON ← ReadFile d (out_path cfg (str "provenance.json"));
  pubHex ← ReadFile d (out_path cfg (str "pubkey.hex"));
  pub ← match hex_decode (trimNewline pubHex) with Some pub => Ok pub | None => Err errHex end;
  ValidateSBOM sbomJSON;;
  v ← or_json (Unmarshal DSSE_type provenanceJSON);
  let env := DSSE_of v in
  statementJSON ← decodeEnvelopePayload env;
  v ← or_json (Unmarshal Statement_type statementJSON);
  let statement := Statement_of v in
  ValidateStatement (Some statement);;
  VerifyBinding (Some statement) artifactData sbomJSON;;
  VerifyEnvelope pub (Some env) statementJSON.

(** The disk when the release is attested; [rnd] and [rnd'] are drawn for the key and for
    the serial number, [started] and [finished] are the two readings of the clock. *)
Definition run (cfg : config) (rnd rnd' : option bytes) (started finished : Z) (d : disk) : result supply_error disk :=
  artifactData ← ReadFile d (cfg_artifactPath cfg);
  mods ← (if cfg_noModuleGraph cfg then Ok [] else discoverModules);
  signer ← buildSigner rnd (cfg_seedHex cfg);
  let pub := PublicKey signer in
  let root := mkComponent [] (cfg_componentType cfg) (cfg_name cfg) (cfg_version cfg) (cfg_purl cfg) [] None in
  res ← BuildRelease rnd' (cfg_name cfg, artifactData) root mods (cfg_builderID cfg) signer started finished;
  d ← writeOutputs cfg res pub d;
  reverify cfg d;;
  Ok d.
End pipeline.
