(* ===== verification/ReleaseRuns.v ===== *)
(** * What a release attestation shows

    The release command succeeds on every release it can build, and what its check accepts
    is signed and bound to the artifact and the bill of materials on disk. *)

From S2P Require Import Prelude Sha256 Errors Cbor Crypto CarriageHttp Json JsonLine CarriageJson JsonAny JsonTypes JsonRoundtrip Base64 Discovery SchemaVersion SupplyChain JsonSchema Provenance.
From Stdlib Require Import Strings.Byte.
Open Scope Z_scope.

(** ** The signed octets determine type and payload *)

(** A Go length. *)
Definition int_length (b : bytes) : Prop := blen b < 2 ^ 63.

Lemma length_prefix_inj a b r r' : int_length a -> int_length b ->
  FormatInt (blen a) ++ x20 :: a ++ r = FormatInt (blen b) ++ x20 :: b ++ r' -> a = b /\ r = r'.
Proof.
  intros Ha Hb E. apply number_prefix in E as [E1 E2]; [|apply FormatInt_octets|apply FormatInt_octets|by intros ? ? [= <- <-]|by intros ? ? [= <- <-]].
  apply FormatInt_inj in E1; [|pose proof (blen_nonneg a); unfold int_length in *; lia|pose proof (blen_nonneg b); unfold int_length in *; lia].
  injection E2 as E2. unfold blen in E1. apply app_inj_1 in E2 as [-> ->]; [done|lia].
Qed.

Lemma PAE_inj t p t' p' : int_length t -> int_length p -> int_length t' -> int_length p' -> PAE t p = PAE t' p' -> t = t' /\ p = p'.
Proof.
  intros Ht Hp Ht' Hp' E. unfold PAE in E. apply app_inv_head in E. apply app_inv_head in E.
  change (str " ") with [x20] in E. cbn [app] in E. apply length_prefix_inj in E as [-> E]; [|done|done]. injection E as E.
  split; [done|]. apply (length_prefix_inj p p' [] []); [done|done|]. by rewrite !app_nil_r.
Qed.

(** ** Digest sets *)

(** [Equal] does not depend on the order of its maps. *)
Lemma agree_iff d other shared : agree d other shared = true <->
  (forall alg v w, (alg, v) ∈ d -> digest_of other alg = Some w -> v = w) /\
  (shared = true \/ exists alg v, (alg, v) ∈ d /\ digest_of other alg = Some v).
Proof.
  revert shared. induction d as [|[a v] d IH]; intros shared; cbn [agree].
  { split; [intros ->; split; [by intros ? ? ? ?%elem_of_nil|by left]|]. intros [_ [H|(? & ? & ?%elem_of_nil & _)]]; done. }
  destruct (digest_of other a) as [w|] eqn:Ew.
  - case_bool_decide as Hvw; [subst w; rewrite IH|].
    + split.
      * intros [H1 _]. split; [|right; exists a, v; split; [left|done]]. intros alg x w [[= -> ->]|Hin]%elem_of_cons Hw; [congruence|by apply (H1 alg)].
      * intros [H1 _]. split; [|by left]. intros alg x w Hin. apply H1. by right.
    + split; [done|]. intros [H1 _]. exfalso. apply Hvw, (H1 a v w); [left|done].
  - rewrite IH. split; intros [H1 H2]; (split; [intros alg x w Hin Hw|]).
    + apply elem_of_cons in Hin as [[= -> ->]|Hin]; [congruence|by apply (H1 alg)].
    + destruct H2 as [?|(alg & x & Hin & Hx)]; [by left|]. right. exists alg, x. split; [by right|done].
    + apply (H1 alg); [by right|done].
    + destruct H2 as [?|(alg & x & [[= -> ->]|Hin]%elem_of_cons & Hx)]; [by left|congruence|]. right. by exists alg, x.
Qed.

(** The digests [d] records are those of [data]: one of the two is there, and neither differs. *)
Definition records (d : DigestSet) (data : bytes) : Prop :=
  (digest_of d (str "sha256") = Some (hex_encode (sha256 data)) \/ digest_of d (str "sha384") = Some (hex_encode (sha384 data))) /\
  (forall w, digest_of d (str "sha256") = Some w -> w = hex_encode (sha256 data)) /\
  (forall w, digest_of d (str "sha384") = Some w -> w = hex_encode (sha384 data)).

Lemma Equal_records data d : Equal (DigestBytes data) d = true <-> records d data.
Proof.
  unfold Equal. destruct (length d =? 0)%nat eqn:E.
  { apply Nat.eqb_eq, length_zero_iff_nil in E as ->. cbn. split; [done|]. by intros [[?|?] _]. }
  unfold DigestBytes. cbn [length Nat.eqb orb]. rewrite agree_iff. unfold records. split.
  - intros [H1 [?|(alg & v & Hin & Hv)]]; [done|]. split; [|split; intros w Hw].
    + rewrite !elem_of_cons in Hin. destruct Hin as [[= -> ->]|[[= -> ->]|?%elem_of_nil]]; [by left|by right|done].
    + symmetry. apply (H1 (str "sha256")); [left|done].
    + symmetry. apply (H1 (str "sha384")); [right; left|done].
  - intros (Hone & H256 & H384). split.
    + intros alg v w. rewrite !elem_of_cons. intros [[= -> ->]|[[= -> ->]|?%elem_of_nil]] Hw; [symmetry; by apply H256|symmetry; by apply H384|done].
    + right. destruct Hone as [H|H]; [exists (str "sha256")|exists (str "sha384")]; eexists; (split; [|exact H]); [left|right; left].
Qed.

Lemma DigestBytes_records data : records (DigestBytes data) data.
Proof. split; [by left|]. split; by intros w [= <-]. Qed.

(** ** Texts *)

Lemma number_low c : number_octet c = true -> b2z c < 128.
Proof. intros H. destruct c; try done; by vm_compute in H. Qed.

Lemma FormatInt_low z : Forall (fun c => b2z c < 128) (FormatInt z).
Proof. eapply Forall_impl; [apply FormatInt_octets|]. exact number_low. Qed.

Lemma pad_int_low w z : Forall (fun c => b2z c < 128) (pad_int w z).
Proof.
  unfold pad_int, pad_zeros. repeat (apply Forall_app_2); [destruct (z <? 0); by repeat constructor|by apply Forall_replicate|apply FormatInt_low].
Qed.

Lemma RFC3339_utf8 t : utf8 (RFC3339 t).
Proof.
  apply ascii_utf8. unfold RFC3339. destruct (civil _) as [[y m] d].
  repeat (apply Forall_app_2; [first [apply pad_int_low|by repeat constructor]|]). by repeat constructor.
Qed.

(** ** Statements read back *)

(** What the external parameters are after a trip through JSON. *)
Definition decoded_digest (d : DigestSet) : dyn := DObj (map (fun e => (e.1, DStr e.2)) d).

Definition decoded (s : Statement) (sbomDigest : DigestSet) : Statement :=
  mkStatement (st_Type s) (st_Subject s) (st_PredicateType s)
    (mkBuildDefinition (bd_BuildType (st_BuildDefinition s)) (Some [(str "sbomDigest", decoded_digest sbomDigest)]) None None) (st_RunDetails s).

Lemma marshal_digest d : marshal_dyn (DText d) = marshal_dyn (decoded_digest d).
Proof.
  cbn [marshal_dyn decoded_digest]. assert (marshal_dyns marshal_dyn (map (fun e => (e.1, DStr e.2)) d) = Some (map (fun e => (e.1, quote e.2)) d)) as ->; [|done].
  induction d as [|[k v] d IH]; [done|]. cbn [map marshal_dyns marshal_dyn mbind option_bind fst snd]. by rewrite IH.
Qed.

Lemma strings_of_decoded d : strings_of (map (fun e => (e.1, DStr e.2)) d) = Some d.
Proof. induction d as [|[k v] d IH]; [done|]. cbn [map strings_of fst snd]. by rewrite IH. Qed.

Lemma algorithms : NoDup [str "sha256"; str "sha384"] /\ keys_sorted [str "sha256"; str "sha384"] = true.
Proof. split; [apply (bool_decide_unpack _)|]; by vm_compute. Qed.

Lemma digest_texts data : Forall (fun e => utf8 e.1 /\ utf8 e.2) (DigestBytes data).
Proof. repeat (constructor; [split; [apply utf8_str; by vm_compute|apply hex_encode_utf8]|]). constructor. Qed.

Lemma digests_dyn_ok data d : d + 1 < maxNestingDepth -> dyn_ok d (DObj [(str "sbomDigest", decoded_digest (DigestBytes data))]).
Proof.
  intros Hd. split; [lia|]. split; [repeat constructor; by intros ?%elem_of_nil|]. split; [done|]. split; [|done]. split; [apply utf8_str; by vm_compute|].
  split; [done|]. split; [exact (proj1 algorithms)|]. split; [exact (proj2 algorithms)|]. pose proof (digest_texts data) as Ht.
  induction Ht as [|e l He Hl IH]; [done|]. by split.
Qed.

Lemma digest_map_wf data d : d < maxNestingDepth -> wf TMap d (GMap (Some (DigestBytes data))).
Proof.
  intros Hd. split; [done|]. split; [exact (proj1 algorithms)|]. split; [apply sorted_entries; exact (proj2 algorithms)|apply digest_texts].
Qed.

Lemma Resource_to_of r : Resource_of (Resource_to r) = r.
Proof. by destruct r. Qed.

Lemma slice_to_of {A} (f : goval -> A) (g : A -> goval) o : (forall a, f (g a) = a) -> slice_of f (slice_to g o) = o.
Proof.
  intros H. destruct o as [l|]; [|done]. cbn. rewrite map_map. do 2 f_equal. rewrite <- (map_id l) at 2. by apply map_ext.
Qed.

Lemma Statement_to_of s : Statement_of (Statement_to s) = s.
Proof.
  destruct s as [t subj p [bt e i deps] [b m]]. cbn -[slice_of slice_to]. rewrite !(slice_to_of Resource_of Resource_to) by apply Resource_to_of.
  do 2 f_equal. destruct m as [[x y z]|]; done.
Qed.

Lemma DSSE_to_of e : DSSE_of (DSSE_to e) = e.
Proof. destruct e as [p t s]. cbn -[slice_of slice_to]. rewrite (slice_to_of Signature_of Signature_to); [done|]. by intros []. Qed.

(** The text of a struct depends on a field through the text of its value. *)
Lemma marshal_member fs1 f fs2 vs1 x y vs2 : length fs1 = length vs1 -> is_empty x = is_empty y -> Marshal f.2 x = Marshal f.2 y ->
  Marshal (TStruct (fs1 ++ f :: fs2)) (GStruct (vs1 ++ x :: vs2)) = Marshal (TStruct (fs1 ++ f :: fs2)) (GStruct (vs1 ++ y :: vs2)).
Proof.
  intros Hl He Hm. cbn [Marshal]. f_equal. revert vs1 Hl. induction fs1 as [|[[n o] t] fs1 IH]; intros [|v vs1] Hl; try done; cbn [app marshal_fields].
  - destruct f as [[n o] t]. cbn [snd] in Hm. by rewrite He, Hm.
  - rewrite (IH vs1) by (by injection Hl). done.
Qed.

Section statement.
Context (name artifact sbom builder : bytes) (started finished : Z).

Definition built : Statement :=
  mkStatement StatementType (Some [mkResource name [] (Some (DigestBytes artifact)) []]) ProvenancePredicateType
    (mkBuildDefinition NPAMPBuildType (Some [(str "sbomDigest", DText (DigestBytes sbom))]) None None)
    (mkRunDetails builder (Some (mkRunMetadata [] (RFC3339 started) (RFC3339 finished)))).

Lemma BuildStatement_built st : BuildStatement name (DigestBytes artifact) (DigestBytes sbom) builder started finished = Ok st -> st = built /\ builder <> [].
Proof.
  unfold BuildStatement. cbn [DigestBytes length Nat.eqb]. rewrite bind_Ok. intros (u & _ & E). apply bind_Ok in E as (u' & _ & E).
  apply bind_Ok in E as (u2 & Hb & [= <-]). apply check_Ok, bool_decide_eq_false in Hb. done.
Qed.

Lemma marshal_built : Marshal Statement_type (Statement_to built) = Marshal Statement_type (Statement_to (decoded built (DigestBytes sbom))).
Proof.
  apply (marshal_member [_; _; _] (_, _, _) [] [_; _; _] _ _ []); [done|done|].
  apply (marshal_member [] (_, _, _) [_] [] _ _ [_]); [done|done|]. apply (marshal_member [_] (_, _, _) [_; _] [_] _ _ [_; _]); [done|done|].
  change (marshal_object <$> marshal_dyns marshal_dyn [(str "sbomDigest", DText (DigestBytes sbom))]
          = marshal_object <$> marshal_dyns marshal_dyn [(str "sbomDigest", decoded_digest (DigestBytes sbom))]).
  cbn [marshal_dyns]. by rewrite marshal_digest.
Qed.

Lemma built_wf : utf8 name -> utf8 builder -> wf Statement_type 0 (Statement_to (decoded built (DigestBytes sbom))).
Proof.
  intros Hn Hb. unfold Statement_type, Predicate_type, BuildDefinition_type, RunDetails_type, Builder_type, RunMetadata_type, Statement_to, built, decoded.
  cbn [st_Type st_Subject st_PredicateType st_BuildDefinition st_RunDetails]. split; [done|]. cbn [wf_fields andb].
  split; [apply utf8_str; by vm_compute|]. split.
  { split; [done|]. apply Forall_singleton. split; [done|]. cbn [wf_fields Resource_to rd_Name rd_URI rd_Digest rd_MediaType].
    split; [by apply text_wf|]. split; [done|]. split; [|done]. by apply digest_map_wf. }
  split; [apply utf8_str; by vm_compute|]. split; [|done]. split; [done|]. cbn [wf_fields]. split; [|split; [|done]].
  - split; [done|]. cbn [BuildDefinition_to bd_BuildType bd_ExternalParameters bd_InternalParameters bd_ResolvedDependencies wf_fields andb].
    split; [apply utf8_str; by vm_compute|]. split; [by apply digests_dyn_ok|]. by split.
  - split; [done|]. cbn [RunDetails_to run_BuilderID run_Metadata wf_fields andb fmap option_fmap option_map]. split; [by split; [|split]|]. split; [|done].
    split; [done|]. cbn [RunMetadata_to rm_InvocationID rm_StartedOn rm_FinishedOn wf_fields]. split; [done|].
    split; [apply text_wf, RFC3339_utf8|]. split; [apply text_wf, RFC3339_utf8|done].
Qed.

Lemma statement_roundtrip : utf8 name -> utf8 builder ->
  exists raw, Marshal Statement_type (Statement_to built) = Some raw /\ Unmarshal Statement_type raw = Some (Statement_to (decoded built (DigestBytes sbom))) /\ raw <> [].
Proof.
  intros Hn Hb. destruct (Unmarshal_Marshal Statement_type (Statement_to (decoded built (DigestBytes sbom)))) as (raw & Hm & Hr & Hd & _); [by vm_compute|by apply built_wf|].
  exists raw. rewrite marshal_built. split; [done|]. split; [done|]. intros ->. by destruct Hd.
Qed.

Lemma built_valid : builder <> [] -> ValidateStatement (Some built) = Ok tt.
Proof.
  intros Hb. unfold ValidateStatement, built. cbn [st_Type st_Subject st_PredicateType st_BuildDefinition st_RunDetails bd_BuildType bd_ExternalParameters run_BuilderID default].
  unfold id. rewrite (bool_decide_true (StatementType = StatementType)), (bool_decide_true (ProvenancePredicateType = ProvenancePredicateType)) by done.
  by rewrite (bool_decide_false (NPAMPBuildType = [])), (bool_decide_false (builder = [])) by done.
Qed.

Lemma decoded_checks : builder <> [] ->
  ValidateStatement (Some (decoded built (DigestBytes sbom))) = Ok tt /\ VerifyBinding (Some (decoded built (DigestBytes sbom))) artifact sbom = Ok tt.
Proof.
  intros Hb. split.
  - by apply built_valid.
  - unfold VerifyBinding, decoded, built. cbn [st_Subject st_BuildDefinition bd_ExternalParameters rd_Digest default]. unfold id. cbn [rd_Digest from_option].
    rewrite (proj2 (Equal_records _ _) (DigestBytes_records artifact)). cbn [negb check mbind result_bind]. unfold param. cbn [default find fst snd]. unfold id. cbn [find fst].
    rewrite bool_decide_true by done. cbn [fmap option_fmap option_map snd asDigestSet decoded_digest]. rewrite strings_of_decoded. cbn [map_err mbind result_bind].
    by rewrite (proj2 (Equal_records _ _) (DigestBytes_records sbom)).
Qed.
End statement.

(** ** Envelopes *)

Section envelope.
Context `{Crypto}.

Lemma VerifyEnvelope_sound pub env expected u : VerifyEnvelope pub (Some env) expected = Ok u ->
  DecodeString StdEncoding (env_Payload env) = Some expected /\ blen pub = PublicKeySize /\
  env_PayloadType env = InTotoPayloadType /\
  exists s sig, s ∈ default [] (env_Signatures env) /\ DecodeString StdEncoding (sig_Sig s) = Some sig /\ blen sig = SignatureSize /\
    ed25519_verify pub (PAE InTotoPayloadType expected) sig = true.
Proof.
  unfold VerifyEnvelope. cbv zeta. rewrite bind_Ok. intros (u1 & _ & E). apply bind_Ok in E as (u2 & Hp & E). apply bind_Ok in E as (u3 & Ht & E).
  apply check_Ok, negb_false_iff in Hp, Ht. apply Z.eqb_eq in Hp. apply bool_decide_eq_true in Ht. destruct (DecodeString _ _) as [payload|]; [|done].
  apply bind_Ok in E as (u4 & Hs & E). destruct u. apply check_Ok, negb_false_iff in Hs, E. apply bool_decide_eq_true in E as ->. split; [done|]. split; [done|]. split; [done|].
  rewrite Ht in Hs. apply existsb_exists in Hs as (s & Hin & Hs). unfold signature_verifies in Hs. destruct (DecodeString _ (sig_Sig s)) as [sig|] eqn:Hd; [|done].
  apply andb_true_iff in Hs as [Hl Hv]. apply Z.eqb_eq in Hl. exists s, sig. split; [by apply list_elem_of_In|]. by split.
Qed.

Context `{!CryptoLaws}.

(** The envelope of a signer reads back and verifies under its own key. *)
Lemma SignStatement_verifies signer raw : ps_pub signer = ed25519_public (ps_priv signer) -> raw <> [] ->
  exists signed env, SignStatement signer raw = Ok signed /\ Unmarshal DSSE_type signed = Some (DSSE_to env) /\
    DecodeString StdEncoding (env_Payload env) = Some raw /\ VerifyEnvelope (ps_pub signer) (Some env) raw = Ok tt.
Proof.
  intros Hpub Hne. destruct (signature_text (ps_priv signer) (PAE InTotoPayloadType raw)) as (s & Hs & Hs0 & Hu & Hdec).
  set (env := mkEnvelope (EncodeToString StdEncoding raw) InTotoPayloadType (Some [mkSignature [] s])).
  destruct (Unmarshal_Marshal DSSE_type (DSSE_to env)) as (signed & Hm & Hr & _); [by vm_compute| |].
  { split; [done|]. cbn [wf_fields andb]. split; [by apply encoded_utf8, std_alphabet|]. split; [apply utf8_str; by vm_compute|]. split; [|done].
    split; [done|]. apply Forall_singleton. split; [done|]. by split. }
  assert (DecodeString StdEncoding (EncodeToString StdEncoding raw) = Some raw) as Hp by apply DecodeString_EncodeToString, std_alphabet.
  exists signed, env. split; [unfold SignStatement; cbv zeta; rewrite Hs; fold env; by rewrite Hm|]. split; [done|]. split; [done|].
  unfold VerifyEnvelope, env. cbn [env_Payload env_PayloadType env_Signatures default]. unfold id. cbn [length Nat.eqb].
  rewrite (bool_decide_false (EncodeToString StdEncoding raw = [])) by (intros E; rewrite E in Hp; by injection Hp as ?).
  rewrite (bool_decide_false (InTotoPayloadType = [])), (bool_decide_true (InTotoPayloadType = InTotoPayloadType)), Hpub, ed25519_public_size by done.
  cbn [orb negb check mbind result_bind Z.eqb]. change (32 =? PublicKeySize) with true. cbn [negb check mbind result_bind]. rewrite Hp. cbn [existsb].
  unfold signature_verifies. cbn [sig_Sig]. rewrite Hdec, ed25519_sign_size, ed25519_verify_sign. change (64 =? SignatureSize) with true.
  cbn [andb orb negb check mbind result_bind]. by rewrite bool_decide_true.
Qed.
End envelope.

Lemma VerifyBinding_sound s artifact sbom u : VerifyBinding (Some s) artifact sbom = Ok u ->
  exists subj subjects raw d, st_Subject s = Some (subj :: subjects) /\ records (default [] (rd_Digest subj)) artifact /\
    param (bd_ExternalParameters (st_BuildDefinition s)) (str "sbomDigest") = Some raw /\ asDigestSet raw = Ok d /\ records d sbom.
Proof.
  unfold VerifyBinding. destruct (st_Subject s) as [[|subj subjects]|]; cbn [default]; unfold id; try done.
  rewrite bind_Ok. intros (u1 & Ha & E). apply check_Ok, negb_false_iff, Equal_records in Ha. destruct (param _ _) as [raw|]; [|done].
  apply bind_Ok in E as (d & Hd & E). destruct u. apply check_Ok, negb_false_iff, Equal_records in E. destruct (asDigestSet raw) as [d'|] eqn:Hr; [|done].
  injection Hd as <-. by exists subj, subjects, raw, d'.
Qed.

Lemma BuildRelease_inv `{Crypto} lower schema rnd name data root mods builder signer started finished res :
  BuildRelease lower schema rnd (name, data) root mods builder signer started finished = Ok res ->
  ValidateSBOM schema (br_SBOMJSON res) = Ok tt /\ builder <> [] /\
  Marshal Statement_type (Statement_to (built name data (br_SBOMJSON res) builder started finished)) = Some (br_StatementJSON res) /\
  SignStatement signer (br_StatementJSON res) = Ok (br_SignedProvenance res).
Proof.
  unfold BuildRelease. cbn [fst snd]. rewrite bind_Ok. intros (bom & _ & E). apply bind_Ok in E as (sbomJSON & Hv & E).
  unfold MarshalAndValidateSBOM in Hv. apply bind_Ok in Hv as (raw & _ & Hv). apply bind_Ok in Hv as ([] & Hv & [= ->]). cbv zeta in E.
  apply bind_Ok in E as (st & Hst & E). apply bind_Ok in E as ([] & _ & E). apply bind_Ok in E as (stJSON & Hm & E).
  apply bind_Ok in E as (signed & Hs & [= <-]). cbn [br_SBOMJSON br_StatementJSON br_SignedProvenance].
  apply BuildStatement_built in Hst as [-> Hb]. split; [done|]. split; [done|]. split; [|done].
  destruct (Marshal _ _); [by injection Hm as ->|done].
Qed.

(** ** The public key file *)

Lemma trim_hex b : trimNewline (hex_encode b ++ [x0a]) = hex_encode b.
Proof.
  unfold trimNewline. rewrite rev_app_distr. cbn [rev app drop_newlines]. change (oct x0a x0d || oct x0a x0a) with true. cbv iota.
  rewrite <- (rev_involutive (hex_encode b)) at 2. f_equal. destruct (rev (hex_encode b)) as [|c r] eqn:E; [done|]. cbn [drop_newlines].
  assert (c ∈ hex_encode b) as Hc by (apply list_elem_of_In, in_rev; rewrite E; by left).
  assert (Forall (fun c => exists z, c = hex_char z) (hex_encode b)) as Hf.
  { clear. induction b as [|c b IH]; [constructor|]. cbn [hex_encode flat_map app]. repeat (constructor; [by eexists|]). exact IH. }
  rewrite Forall_forall in Hf. destruct (Hf c Hc) as [z ->]. pose proof (hex_char_all (fun c => negb (oct c x0d || oct c x0a)) z eq_refl) as Hn.
  apply negb_true_iff in Hn. by rewrite Hn.
Qed.

(** ** The release command *)

Section release.
Context `{Crypto} (unicode_lower : bytes -> bytes) (cyclonedx : schema_source).
Context (filepath_Join : bytes -> bytes -> bytes) (writable : bytes -> bool) (go_list : option bytes) (key_of_seed : bytes -> bytes).

Abbreviation out cfg file := (out_path filepath_Join cfg (str file)).

(** The three outputs and the artifact are four files, and the outputs can be written. *)
Definition outputs_ok (cfg : config) : Prop :=
  NoDup [cfg_artifactPath cfg; out cfg "sbom.json"; out cfg "provenance.json"; out cfg "pubkey.hex"] /\
  Forall (fun p => writable p = true) [cfg_outDir cfg; out cfg "sbom.json"; out cfg "provenance.json"; out cfg "pubkey.hex"].

Lemma writeOutputs_ok cfg res pub d : outputs_ok cfg ->
  exists d', writeOutputs filepath_Join writable cfg res pub d = Ok d' /\ d' (cfg_artifactPath cfg) = d (cfg_artifactPath cfg) /\
    d' (out cfg "sbom.json") = Some (br_SBOMJSON res) /\ d' (out cfg "provenance.json") = Some (br_SignedProvenance res) /\
    d' (out cfg "pubkey.hex") = Some (hex_encode pub ++ [x0a]).
Proof.
  unfold outputs_ok, writeOutputs, WriteFile. generalize (out cfg "sbom.json"), (out cfg "provenance.json"), (out cfg "pubkey.hex"). intros p1 p2 p3 [Hn Hw].
  rewrite !Forall_cons in Hw. destruct Hw as (W0 & W1 & W2 & W3 & _). rewrite !NoDup_cons, !not_elem_of_cons in Hn. destruct Hn as ((N1 & N2 & N3 & _) & (N4 & N5 & _) & (N6 & _) & _).
  rewrite W0, W1, W2, W3. cbn [negb check mbind result_bind]. eexists. split; [done|]. cbv beta.
  repeat case_bool_decide; done.
Qed.

Lemma buildSigner_pub rnd seedHex signer : buildSigner key_of_seed rnd seedHex = Ok signer -> ps_pub signer = ed25519_public (ps_priv signer).
Proof.
  unfold buildSigner. destruct (bool_decide _).
  - unfold GenerateProvenanceSigner. destruct rnd; [|done]. by intros [= <-].
  - destruct (hex_decode seedHex) as [seed|]; [|done]. rewrite bind_Ok. intros (u & _ & E). unfold NewProvenanceSigner in E.
    apply bind_Ok in E as (u' & _ & [= <-]). done.
Qed.
(** C28: The check of the release command, on any disk: when it accepts, provenance.json holds
    an envelope whose payload, decoded, is a statement, one of the signatures of the envelope
    is valid over that payload under the key in pubkey.hex, and the statement records the
    digests of the artifact and of the sbom.json on disk, which the schema accepts; and the
    signed octets determine the payload. *)
Theorem attestation_binds (cfg : config) (d : disk) :
  reverify cyclonedx filepath_Join cfg d = Ok tt ->
  exists artifact sbomJSON provenanceJSON pubHex pub v payload statement s sig subj subjects raw sbomDigest,
    d (cfg_artifactPath cfg) = Some artifact /\ d (out cfg "sbom.json") = Some sbomJSON /\
    d (out cfg "provenance.json") = Some provenanceJSON /\ d (out cfg "pubkey.hex") = Some pubHex /\
    hex_decode (trimNewline pubHex) = Some pub /\ ValidateSBOM cyclonedx sbomJSON = Ok tt /\
    Unmarshal DSSE_type provenanceJSON = Some v /\ env_PayloadType (DSSE_of v) = InTotoPayloadType /\
    DecodeString StdEncoding (env_Payload (DSSE_of v)) = Some payload /\
    s ∈ default [] (env_Signatures (DSSE_of v)) /\ DecodeString StdEncoding (sig_Sig s) = Some sig /\
    blen sig = SignatureSize /\ ed25519_verify pub (PAE InTotoPayloadType payload) sig = true /\
    Unmarshal Statement_type payload = Some statement /\ st_Subject (Statement_of statement) = Some (subj :: subjects) /\
    records (default [] (rd_Digest subj)) artifact /\
    param (bd_ExternalParameters (st_BuildDefinition (Statement_of statement))) (str "sbomDigest") = Some raw /\
    asDigestSet raw = Ok sbomDigest /\ records sbomDigest sbomJSON /\
    (int_length payload -> forall t p, int_length t -> int_length p -> PAE t p = PAE InTotoPayloadType payload -> t = InTotoPayloadType /\ p = payload).
Proof.
  unfold reverify, ReadFile. destruct (d (cfg_artifactPath cfg)) as [artifact|]; [|done]. destruct (d (out cfg "sbom.json")) as [sbomJSON|]; [|done].
  destruct (d (out cfg "provenance.json")) as [provenanceJSON|]; [|done]. destruct (d (out cfg "pubkey.hex")) as [pubHex|]; [|done].
  cbn [mbind result_bind]. destruct (hex_decode (trimNewline pubHex)) as [pub|] eqn:Hpub; [|done]. cbn [mbind result_bind].
  rewrite bind_Ok. intros ([] & Hschema & E). apply bind_Ok in E as (v & Hv0 & E). cbv zeta in E. apply bind_Ok in E as (payload & Hp & E).
  apply bind_Ok in E as (statement & Hs & E). apply bind_Ok in E as (u2 & _ & E). apply bind_Ok in E as (u3 & Hb & E).
  apply VerifyBinding_sound in Hb as (subj & subjects & raw & dg & H1 & H2 & H3 & H4 & H5).
  apply VerifyEnvelope_sound in E as (Hd & _ & Ht & s & sig & Hin & Hsig & Hl & Hv).
  exists artifact, sbomJSON, provenanceJSON, pubHex, pub, v, payload, statement, s, sig, subj, subjects, raw, dg. do 6 (split; [done|]).
  split; [by destruct (Unmarshal DSSE_type provenanceJSON); [injection Hv0 as ->|]|]. do 6 (split; [done|]).
  split; [by destruct (Unmarshal Statement_type payload); [injection Hs as ->|]|]. do 5 (split; [done|]).
  intros Hi t p Ht' Hpp E. by apply PAE_inj in E.
Qed.

Lemma run_reverified cfg rnd rnd' started finished d d' :
  run unicode_lower cyclonedx filepath_Join writable go_list key_of_seed cfg rnd rnd' started finished d = Ok d' ->
  reverify cyclonedx filepath_Join cfg d' = Ok tt.
Proof.
  unfold run. rewrite bind_Ok. intros (data & _ & E). apply bind_Ok in E as (mods & _ & E). apply bind_Ok in E as (signer & _ & E). cbv zeta in E.
  apply bind_Ok in E as (res & _ & E). apply bind_Ok in E as (d1 & _ & E). apply bind_Ok in E as ([] & Hr & [= ->]). exact Hr.
Qed.

Context `{!CryptoLaws}.

(** ** Releases that can be built *)

Lemma components_built mods : Forall (fun m => mod_Path m <> []) mods ->
  exists cs, module_components unicode_lower mods = Ok cs /\ length cs = length (List.filter (fun m => negb (mod_Main m)) mods).
Proof.
  induction 1 as [|m mods Hp Hms (cs & Hcs & Hl)]; [by exists []|]. cbn [module_components List.filter]. unfold module_component at 1.
  destruct (mod_Main m); cbn [negb mbind result_bind]; [rewrite Hcs; by exists cs|]. unfold GoModulePURL. rewrite (bool_decide_false (mod_Path m = [])) by done.
  cbn [check mbind result_bind]. rewrite Hcs. eexists. split; [done|]. cbn [length]. by rewrite Hl.
Qed.

Lemma Component_typed c : typed Component_type (Component_to c).
Proof.
  destruct c as [b t n v p sc hs]. unfold Component_type, Component_to. cbn [typed typed_fields c_Hashes]. do 6 (split; [done|]). split; [|done].
  destruct hs as [hs|]; [|done]. cbn [slice_to fmap option_fmap option_map]. apply Forall_map, Forall_true. by intros [].
Qed.

Lemma BOM_marshals bom : exists raw, Marshal BOM_type (BOM_to bom) = Some raw.
Proof.
  apply Marshal_typed. destruct bom as [f v sn n m cs]. unfold BOM_type, BOM_to, Metadata_type. cbn [typed typed_fields bom_Metadata bom_Components].
  do 4 (split; [done|]). split; [|split; [|done]].
  - destruct m as [[ts c]|]; [|done]. cbn [fmap option_fmap option_map Metadata_to md_Component typed typed_fields]. split; [done|]. split; [|done].
    destruct c as [c|]; [apply Component_typed|done].
  - destruct cs as [cs|]; [|done]. cbn [slice_to fmap option_fmap option_map]. apply Forall_map, Forall_true. apply Component_typed.
Qed.

Lemma BuildRelease_ok serial name data root mods builder signer started finished :
  c_Type root ∈ validComponentTypes -> c_Name root <> [] -> utf8 name -> utf8 builder -> builder <> [] ->
  Forall (fun m => mod_Path m <> []) mods -> ps_pub signer = ed25519_public (ps_priv signer) ->
  exists bom sbomJSON cs, BuildSBOM unicode_lower (Some serial) root mods finished = Ok bom /\ Marshal BOM_type (BOM_to bom) = Some sbomJSON /\
    bom_Components bom = Some cs /\ length cs = length (List.filter (fun m => negb (mod_Main m)) mods) /\
    match ValidateSBOM cyclonedx sbomJSON with
    | Err e => BuildRelease unicode_lower cyclonedx (Some serial) (name, data) root mods builder signer started finished = Err e
    | Ok _ => exists res, BuildRelease unicode_lower cyclonedx (Some serial) (name, data) root mods builder signer started finished = Ok res /\
        br_SBOM res = bom /\ br_SBOMJSON res = sbomJSON
    end.
Proof.
  intros Ht Hn Hu Hub Hb Hp Hpub. destruct (components_built mods Hp) as (cs & Hcs & Hl). unfold BuildRelease. cbn [fst snd].
  destruct (BuildSBOM unicode_lower (Some serial) root mods finished) as [bom|] eqn:Hbom.
  2: { unfold BuildSBOM in Hbom. rewrite (bool_decide_true (_ ∈ _)), (bool_decide_false (_ = _)), Hcs in Hbom by done. done. }
  assert (bom_Components bom = Some cs) as Hc.
  { unfold BuildSBOM in Hbom. rewrite (bool_decide_true (_ ∈ _)), (bool_decide_false (_ = _)), Hcs in Hbom by done. by injection Hbom as <-. }
  destruct (BOM_marshals bom) as [sbomJSON Hm]. cbn [mbind result_bind]. unfold MarshalAndValidateSBOM. rewrite Hm. cbn [or_json mbind result_bind].
  exists bom, sbomJSON, cs. do 4 (split; [done|]). destruct (ValidateSBOM cyclonedx sbomJSON) as [[]|]; [|done]. cbn [mbind result_bind]. cbv zeta. unfold BuildStatement.
  cbn [DigestBytes length Nat.eqb check mbind result_bind]. rewrite (bool_decide_false (builder = [])) by done. cbn [check mbind result_bind].
  fold (DigestBytes data). fold (DigestBytes sbomJSON). fold (built name data sbomJSON builder started finished).
  rewrite built_valid by done. cbn [mbind result_bind].
  destruct (statement_roundtrip name data sbomJSON builder started finished Hu Hub) as (raw & Hraw & _ & Hne). rewrite Hraw. cbn [or_json mbind result_bind].
  destruct (SignStatement_verifies signer raw Hpub Hne) as (signed & env & Hsign & _). rewrite Hsign. cbn [mbind result_bind].
  by eexists.
Qed.

(** A release that is built is attested. *)
Lemma run_attested (cfg : config) (rnd rnd' : option bytes) (started finished : Z) (d : disk) (data : bytes) (mods : list Module)
    (signer : ProvenanceSigner) (res : BuildResult) :
  outputs_ok cfg -> utf8 (cfg_name cfg) -> utf8 (cfg_builderID cfg) ->
  d (cfg_artifactPath cfg) = Some data ->
  (if cfg_noModuleGraph cfg then Ok [] else discoverModules go_list) = Ok mods ->
  buildSigner key_of_seed rnd (cfg_seedHex cfg) = Ok signer ->
  BuildRelease unicode_lower cyclonedx rnd' (cfg_name cfg, data)
    (mkComponent [] (cfg_componentType cfg) (cfg_name cfg) (cfg_version cfg) (cfg_purl cfg) [] None) mods (cfg_builderID cfg) signer started finished = Ok res ->
  exists d', run unicode_lower cyclonedx filepath_Join writable go_list key_of_seed cfg rnd rnd' started finished d = Ok d' /\
    d' (out cfg "sbom.json") = Some (br_SBOMJSON res) /\ d' (out cfg "provenance.json") = Some (br_SignedProvenance res) /\
    d' (out cfg "pubkey.hex") = Some (hex_encode (PublicKey signer) ++ [x0a]) /\ d' (cfg_artifactPath cfg) = Some data.
Proof.
  intros Hout Hn Hb Hdata Hmods Hsigner Hres. pose proof (buildSigner_pub _ _ _ Hsigner) as Hpub.
  destruct (BuildRelease_inv _ _ _ _ _ _ _ _ _ _ _ _ Hres) as (Hv & Hbne & Hm & Hs).
  destruct (statement_roundtrip (cfg_name cfg) data (br_SBOMJSON res) (cfg_builderID cfg) started finished Hn Hb) as (raw & Hm' & Hr & Hne).
  rewrite Hm in Hm'. injection Hm' as <-. destruct (SignStatement_verifies signer _ Hpub Hne) as (signed & env & Hs' & He & Hp & Hve).
  rewrite Hs in Hs'. injection Hs' as <-. destruct (decoded_checks (cfg_name cfg) data (br_SBOMJSON res) (cfg_builderID cfg) started finished Hbne) as [Hvs Hvb].
  destruct (writeOutputs_ok cfg res (PublicKey signer) d Hout) as (d' & Hw & D0 & D1 & D2 & D3). rewrite Hdata in D0.
  exists d'. split; [|done]. unfold run, ReadFile at 1. rewrite Hdata. cbn [mbind result_bind]. rewrite Hmods. cbn [mbind result_bind]. rewrite Hsigner.
  cbn [mbind result_bind]. rewrite Hres. cbn [mbind result_bind]. rewrite Hw. cbn [mbind result_bind]. unfold reverify, ReadFile.
  rewrite D0, D1, D2, D3. cbn [mbind result_bind]. rewrite trim_hex, hex_roundtrip. cbn [mbind result_bind]. rewrite Hv. cbn [mbind result_bind].
  rewrite He. cbn [or_json mbind result_bind]. rewrite DSSE_to_of. unfold decodeEnvelopePayload. rewrite Hp. cbn [or_json mbind result_bind].
  rewrite Hr. cbn [or_json mbind result_bind]. rewrite Statement_to_of, Hvs. cbn [mbind result_bind]. rewrite Hvb. cbn [mbind result_bind].
  unfold PublicKey. by rewrite Hve.
Qed.
(** C27: Every release whose bill of materials the schema accepts is attested.  When the
    artifact is read, the modules are found and have paths, the component has a type and a
    name, the key and the serial number are drawn and a builder is named, the bill of
    materials is built, with one component for every module but the main one; when the
    schema accepts it the command builds the release, writes the three files, leaves the
    artifact as it was, and its own check accepts the files as they are read back; and when
    the schema does not, the command returns that error. *)
Theorem release_attested (cfg : config) (rnd : option bytes) (serial : bytes) (started finished : Z) (d : disk) (data : bytes) (mods : list Module)
    (signer : ProvenanceSigner) :
  outputs_ok cfg -> utf8 (cfg_name cfg) -> utf8 (cfg_builderID cfg) ->
  cfg_name cfg <> [] -> cfg_builderID cfg <> [] -> cfg_componentType cfg ∈ validComponentTypes ->
  d (cfg_artifactPath cfg) = Some data ->
  (if cfg_noModuleGraph cfg then Ok [] else discoverModules go_list) = Ok mods ->
  Forall (fun m => mod_Path m <> []) mods ->
  buildSigner key_of_seed rnd (cfg_seedHex cfg) = Ok signer ->
  let root := mkComponent [] (cfg_componentType cfg) (cfg_name cfg) (cfg_version cfg) (cfg_purl cfg) [] None in
  let outcome := run unicode_lower cyclonedx filepath_Join writable go_list key_of_seed cfg rnd (Some serial) started finished d in
  exists bom sbomJSON components, BuildSBOM unicode_lower (Some serial) root mods finished = Ok bom /\ Marshal BOM_type (BOM_to bom) = Some sbomJSON /\
    bom_Components bom = Some components /\ length components = length (List.filter (fun m => negb (mod_Main m)) mods) /\
    match ValidateSBOM cyclonedx sbomJSON with
    | Err e => outcome = Err e
    | Ok _ => exists signed d', outcome = Ok d' /\
        d' (out cfg "sbom.json") = Some sbomJSON /\ d' (out cfg "provenance.json") = Some signed /\
        d' (out cfg "pubkey.hex") = Some (hex_encode (PublicKey signer) ++ [x0a]) /\ d' (cfg_artifactPath cfg) = Some data /\
        reverify cyclonedx filepath_Join cfg d' = Ok tt
    end.
Proof.
  intros Hout Hn Hb Hn0 Hb0 Ht Hdata Hmods Hpaths Hsigner root outcome. pose proof (buildSigner_pub _ _ _ Hsigner) as Hpub.
  destruct (BuildRelease_ok serial (cfg_name cfg) data root mods (cfg_builderID cfg) signer started finished) as (bom & sbomJSON & cs & Hbom & Hm & Hcs & Hl & Hres); try done.
  exists bom, sbomJSON, cs. do 4 (split; [done|]). destruct (ValidateSBOM cyclonedx sbomJSON) as [[]|e].
  - destruct Hres as (res & Hres & <- & <-).
    destruct (run_attested cfg rnd (Some serial) started finished d data mods signer res) as (d' & Hrun & D1 & D2 & D3 & D0); try done.
    exists (br_SignedProvenance res), d'. split; [done|]. do 4 (split; [done|]). by apply (run_reverified _ _ _ _ _ _ _ Hrun).
  - unfold outcome, run, ReadFile. rewrite Hdata. cbn [mbind result_bind]. rewrite Hmods. cbn [mbind result_bind]. rewrite Hsigner. cbn [mbind result_bind]. cbv zeta.
    fold root. by rewrite Hres.
Qed.
End release.

(** ** The module stream *)

Definition module_ok (m : Module) : Prop :=
  Forall utf8 [mod_Path m; mod_Version m; mod_GoVersion m; mod_Sum m] /\ mod_Path m <> [].

Lemma Module_to_of m : Module_of (Module_to m) = m.
Proof. by destruct m. Qed.

Lemma module_text m : module_ok m -> exists raw, Marshal Module_type (Module_to m) = Some raw /\ document_at 0 raw /\
  decode Module_type (zero Module_type) raw = Some (Module_to m) /\ exists b, raw = x7b :: b.
Proof.
  intros [Hu Hp]. rewrite !Forall_cons in Hu. destruct Hu as (H1 & H2 & H3 & H4 & _).
  destruct (values_read_back Module_type ltac:(by vm_compute) 0 (Module_to m) ltac:(lia)) as (raw & Hm & Hd & _ & Hr).
  { split; [done|]. cbn [Module_to wf_fields andb is_empty]. by repeat split. }
  exists raw. split; [done|]. split; [done|]. split; [done|]. cbn [Module_type Module_to Marshal] in Hm.
  destruct (marshal_fields _ _ _) as [ms|]; [|done]. injection Hm as <-. by eexists.
Qed.

Lemma More_stop b : More b = false -> numstop b = true.
Proof.
  unfold More. destruct b as [|c b]; [done|]. cbn [skip_ws]. destruct (is_ws c) eqn:Hw; [by destruct c|].
  intros E. apply negb_false_iff, orb_true_iff in E as [E|E]; apply oct_eq in E as ->; done.
Qed.

(** A stream of modules, each as [go list -m -json] writes it, reads back as those modules
    when it ends there, and also when a closing bracket follows, whatever comes after it. *)
Theorem module_stream (ms : list Module) (rest : bytes) :
  Forall module_ok ms -> More rest = false ->
  exists texts, mapM (fun m => Marshal Module_type (Module_to m)) ms = Some texts /\ DecodeGoListModules (concat texts ++ rest) = Ok ms.
Proof.
  intros Hms Hrest. unfold DecodeGoListModules.
  assert (exists texts, mapM (fun m => Marshal Module_type (Module_to m)) ms = Some texts /\
    numstop (concat texts ++ rest) = true /\
    forall fuel, (length (concat texts) < fuel)%nat -> decode_modules fuel (concat texts ++ rest) = Ok ms) as (texts & Hm & _ & Hdec).
  2: { exists texts. split; [done|]. apply Hdec. rewrite length_app. lia. }
  induction Hms as [|m ms Hm Hms (texts & Ht & Hstop & IH)].
  { exists []. split; [done|]. split; [by apply More_stop|]. intros [|fuel] Hf; [lia|]. cbn [concat app decode_modules]. by rewrite Hrest. }
  destruct (module_text m Hm) as (raw & Hraw & Hdoc & Hdec & b & Hb). exists (raw :: texts). split.
  { cbn [mapM]. rewrite Hraw. cbn [mbind option_bind]. by rewrite Ht. }
  split; [by rewrite Hb|]. intros [|fuel] Hf; [lia|]. cbn [concat] in *. rewrite <- app_assoc. rewrite length_app in Hf. cbn [decode_modules].
  assert (More (raw ++ concat texts ++ rest) = true) as -> by (rewrite Hb; done).
  assert (Decode_module (raw ++ concat texts ++ rest) = Some (m, concat texts ++ rest)) as ->.
  { unfold Decode_module. rewrite (document_front 0 raw) by done. cbv zeta. unfold scan_value. rewrite (document_scan 0 raw _ 0 _ Hdoc Hstop) by lia.
    cbn [mbind option_bind]. rewrite !length_app. replace (_ - _)%nat with (length raw) by lia. rewrite take_app_length, Hdec.
    cbn [mbind option_bind]. by rewrite Module_to_of. }
  rewrite bool_decide_false by apply Hm. cbn [check mbind result_bind]. rewrite IH; [done|]. rewrite Hb in Hf. cbn [length] in Hf. lia.
Qed.

(** ** Samples *)

Definition sample_join (dir file : bytes) : bytes := dir ++ str "/" ++ file.
Definition sample_seed (seed : bytes) : bytes := seed ++ seed.
Definition sample_config : config :=
  mkConfig (str "a.tgz") (str "n") [] ComponentTypeLibrary [] (str "b") (hex_encode (replicate 32 x07)) (str "out") true.
Definition sample_start : disk := fun p => if bool_decide (p = str "a.tgz") then Some (str "release") else None.
Definition sample_root : Component := mkComponent [] ComponentTypeLibrary (str "n") [] [] [] None.
Abbreviation sample_serial := (Some (replicate 16 x5a)).
Definition sample_modules : list Module :=
  [mkModule (str "example.com/Main") [] true false [] []; mkModule (str "example.com/Dep") (str "v1.2.3") false true [] []].

(** The keywords of the vendored schema that the bill of materials of the sample reaches. *)
Definition sample_source : schema_source := mkSchemaSource
  (json "{'type':'object','required':['bomFormat','specVersion'],'additionalProperties':false,'properties':{" ++
   json "'bomFormat':{'type':'string','enum':['CycloneDX']},'specVersion':{'type':'string'},'serialNumber':{'type':'string'}," ++
   json "'version':{'type':'integer','minimum':1},'metadata':{'$ref':'#/definitions/metadata'}," ++
   json "'components':{'type':'array','items':{'$ref':'#/definitions/component'},'uniqueItems':true}},'definitions':{" ++
   json "'metadata':{'type':'object','additionalProperties':false,'properties':{'timestamp':{'type':'string','format':'date-time'},'component':{'$ref':'#/definitions/component'}}}," ++
   json "'component':{'type':'object','required':['type','name'],'additionalProperties':false,'properties':{'type':{'type':'string','enum':['application','library']},'name':{'type':'string'}}}}}")
  (fun _ => None) 8.

Abbreviation sample_run :=
  (run (H := Toy.crypto) id sample_source sample_join (fun _ => true) None sample_seed sample_config None sample_serial 1790000000 1790000042 sample_start).

Example sbom_example :
  match BuildSBOM id sample_serial sample_root sample_modules 1790000042 with
  | Ok bom => Marshal BOM_type (BOM_to bom) = Some (json "{'bomFormat':'CycloneDX','specVersion':'1.7','serialNumber':'urn:uuid:5a5a5a5a-5a5a-4a5a-9a5a-5a5a5a5a5a5a','version':1,'metadata':{'timestamp':'2026-09-21T14:14:02Z','component':{'type':'library','name':'n'}},'components':[{'type':'library','name':'example.com/dep','version':'v1.2.3','purl':'pkg:golang/example.com/dep@v1.2.3','scope':'optional'}]}")
  | Err _ => False
  end.
Proof. by vm_compute. Qed.

Definition sample_signer : ProvenanceSigner := mkSigner (replicate 64 x07) (ed25519_public (Crypto := Toy.crypto) (replicate 64 x07)).

Lemma sample_key_made : buildSigner (H := Toy.crypto) sample_seed None (cfg_seedHex sample_config) = Ok sample_signer.
Proof. by vm_compute. Qed.

Lemma sample_outputs : outputs_ok sample_join (fun _ => true) sample_config.
Proof. split; [apply (bool_decide_unpack _); by vm_compute|by repeat constructor]. Qed.

Lemma sample_accepted bom sbomJSON : BuildSBOM id sample_serial sample_root [] 1790000042 = Ok bom -> Marshal BOM_type (BOM_to bom) = Some sbomJSON ->
  ValidateSBOM sample_source sbomJSON = Ok tt.
Proof.
  intros Hb Hm. assert (match BuildSBOM id sample_serial sample_root [] 1790000042 with
    | Ok bom => match Marshal BOM_type (BOM_to bom) with Some raw => ValidateSBOM sample_source raw = Ok tt | None => False end | Err _ => False end) as H
    by (clear; by vm_compute).
  rewrite Hb, Hm in H. exact H.
Qed.

Lemma release_attested_witness : exists d', sample_run = Ok d' /\ d' (str "out/pubkey.hex") = Some (hex_encode (PublicKey sample_signer) ++ [x0a]).
Proof.
  destruct (release_attested (H := Toy.crypto) (H0 := Toy.laws) id sample_source sample_join (fun _ => true) None sample_seed sample_config
    None (replicate 16 x5a) 1790000000 1790000042 sample_start (str "release") [] sample_signer) as (bom & sbomJSON & cs & Hbom & Hm & _ & _ & Hout).
  - exact sample_outputs.
  - apply utf8_str. vm_compute. reflexivity.
  - apply utf8_str. vm_compute. reflexivity.
  - discriminate.
  - discriminate.
  - apply (bool_decide_unpack _). vm_compute. reflexivity.
  - reflexivity.
  - reflexivity.
  - constructor.
  - exact sample_key_made.
  - rewrite (sample_accepted bom sbomJSON Hbom Hm) in Hout. destruct Hout as (signed & d' & Hrun & _ & _ & Hpub & _).
    exists d'. split; [exact Hrun|exact Hpub].
Defined.

Lemma sample_run_reverified : exists d, sample_run = Ok d /\ reverify (H := Toy.crypto) sample_source sample_join sample_config d = Ok tt.
Proof.
  destruct (BuildRelease_ok (H := Toy.crypto) (H0 := Toy.laws) id sample_source (replicate 16 x5a) (str "n") (str "release") sample_root [] (str "b") sample_signer
    1790000000 1790000042) as (bom & sbomJSON & cs & Hbom & Hm & _ & _ & Hres);
    [apply (bool_decide_unpack _); by vm_compute|done|apply utf8_str; by vm_compute|apply utf8_str; by vm_compute|done|constructor|done|].
  rewrite (sample_accepted bom sbomJSON Hbom Hm) in Hres. destruct Hres as (res & Hres & _).
  destruct (run_attested (H := Toy.crypto) (H0 := Toy.laws) id sample_source sample_join (fun _ => true) None sample_seed sample_config None (Some (replicate 16 x5a))
    1790000000 1790000042 sample_start (str "release") [] sample_signer res) as (d & Hrun & _);
    [exact sample_outputs|apply utf8_str; by vm_compute|apply utf8_str; by vm_compute|done|done|exact sample_key_made|exact Hres|].
  exists d. split; [exact Hrun|]. exact (run_reverified (H := Toy.crypto) _ _ _ _ _ _ _ _ _ _ _ _ _ Hrun).
Qed.

Lemma attestation_binds_witness :
  exists d pub payload sig, sample_run = Ok d /\ ed25519_verify (Crypto := Toy.crypto) pub (PAE InTotoPayloadType payload) sig = true.
Proof.
  destruct sample_run_reverified as (d & Hrun & Hr).
  destruct (attestation_binds (H := Toy.crypto) sample_source sample_join sample_config d Hr)
    as (artifact & sbomJSON & provenanceJSON & pubHex & pub & v & payload & st & s & sig & subj & subjects & raw & dg & H).
  exists d, pub, payload, sig. split; [exact Hrun|]. apply H.
Defined.

Lemma module_stream_witness :
  exists texts, mapM (fun m => Marshal Module_type (Module_to m)) sample_modules = Some texts /\
    DecodeGoListModules (concat texts ++ json "} not JSON") = Ok sample_modules.
Proof.
  apply module_stream; [|reflexivity].
  repeat constructor; try (apply utf8_str; vm_compute; reflexivity); discriminate.
Defined.
