(* ===== verification/Url.v ===== *)
(** * URLs as net/url and net/http read and write them

    What the HTTP egress of proxy/proxy.go uses of Go's [net/url] and [net/http]: parsing a
    reference, percent-encoding, writing a URL back, resolving "/" against the backend, and
    the checks of [http.NewRequestWithContext].  The syntax of hosts that are bracketed or
    hold several colons differs between Go releases and is a parameter. *)

From S2P Require Import Prelude Errors CarriageHttp CarriageStream Json.
From Stdlib Require Import Strings.Byte.
Open Scope Z_scope.

Record Userinfo : Type := mkUser {
  ui_username : bytes;
  ui_password : option bytes      (* [None] when passwordSet is false *)
}.

Record URL : Type := mkURL {
  u_Scheme : bytes;
  u_Opaque : bytes;
  u_User : option Userinfo;
  u_Host : bytes;
  u_Path : bytes;
  u_RawPath : bytes;
  u_OmitHost : bool;
  u_ForceQuery : bool;
  u_RawQuery : bytes;
  u_Fragment : bytes;
  u_RawFragment : bytes
}.

Inductive url_error : Type :=
| ControlCharacter | MissingScheme | ColonInFirstSegment | InvalidUserinfo | InvalidHost | InvalidEscape.

(** ** Percent-encoding *)

Inductive encoding : Type := encodePath | encodeUserPassword | encodeHost | encodeFragment.

Definition is_alnum (c : byte) : bool :=
  let within lo hi := (b2z lo <=? b2z c) && (b2z c <=? b2z hi) in
  within x61 x7a || within x41 x5a || within x30 x39.

Definition among (s : bytes) (c : byte) : bool := existsb (oct c) s.

Definition shouldEscape (mode : encoding) (c : byte) : bool :=
  if is_alnum c || among (str "-_.~") c then false
  else match mode with
       | encodeHost => negb (among (str "!$&'()*+,;=:[]<>" ++ [x22]) c)
       | encodePath => negb (among (str "$&+,/:;=@") c)
       | encodeUserPassword => negb (among (str "$&+,;=") c)
       | encodeFragment => negb (among (str "$&+,/:;=?@!()*") c)
       end.

Definition url_digit (z : Z) : byte := nth (Z.to_nat z) (str "0123456789ABCDEF") x30.

Definition escape (mode : encoding) (s : bytes) : bytes :=
  flat_map (fun c => if shouldEscape mode c then [x25; url_digit (b2z c / 16); url_digit (b2z c mod 16)] else [c]) s.

(** In a host only octets above 0x7f and the percent sign may be encoded, and an octet that
    would need it may not stand bare. *)
Fixpoint unescape (mode : encoding) (s : bytes) : option bytes :=
  let in_host := match mode with encodeHost => true | _ => false end in
  match s with
  | [] => Some []
  | c :: s' =>
      if oct c x25 then
        match s' with
        | h1 :: h2 :: s'' =>
            a ← hex_value h1; b ← hex_value h2;
            if in_host && (a <? 8) && negb (oct h1 x32 && oct h2 x35) then None
            else cons (z2b (a * 16 + b)) <$> unescape mode s''
        | _ => None
        end
      else if in_host && (b2z c <? 128) && shouldEscape mode c then None
      else cons c <$> unescape mode s'
  end.

Definition unescaped (mode : encoding) (s : bytes) : result url_error bytes :=
  match unescape mode s with Some t => Ok t | None => Err InvalidEscape end.

Definition validEncoded (mode : encoding) (s : bytes) : bool :=
  forallb (fun c => among (str "!$&'()*+,;=:@[]%") c || negb (shouldEscape mode c)) s.

(** [setPath] and [setFragment] keep the raw text where it is not the default encoding;
    [EscapedPath] and [EscapedFragment] give it back where it still encodes the value. *)
Definition raw_of (mode : encoding) (text value : bytes) : bytes :=
  if bool_decide (text = escape mode value) then [] else text.

Definition keeps_raw (mode : encoding) (raw value : bytes) : bool :=
  negb (bool_decide (raw = [])) && validEncoded mode raw && bool_decide (unescape mode raw = Some value).

Definition EscapedPath (u : URL) : bytes :=
  if keeps_raw encodePath (u_RawPath u) (u_Path u) then u_RawPath u
  else if bool_decide (u_Path u = str "*") then str "*" else escape encodePath (u_Path u).

Definition EscapedFragment (u : URL) : bytes :=
  if keeps_raw encodeFragment (u_RawFragment u) (u_Fragment u) then u_RawFragment u
  else escape encodeFragment (u_Fragment u).

(** ** Parsing *)

Definition HasPrefix (p s : bytes) : bool := match strip p s with Some _ => true | None => false end.

Definition is_letter (c : byte) : bool :=
  (b2z x61 <=? b2z c) && (b2z c <=? b2z x7a) || (b2z x41 <=? b2z c) && (b2z c <=? b2z x5a).

(** [getScheme]: the scheme and what follows its colon, or nothing when there is none. *)
Fixpoint getScheme_from (first : bool) (s : bytes) : result url_error (option (bytes * bytes)) :=
  match s with
  | [] => Ok None
  | c :: s =>
      if is_letter c || (is_digit c || among (str "+-.") c) && negb first then
        r ← getScheme_from false s;
        Ok (match r with Some (a, b) => Some (c :: a, b) | None => None end)
      else if oct c x3a then if first then Err MissingScheme else Ok (Some ([], s))
      else Ok None
  end.

Definition getScheme (s : bytes) : result url_error (bytes * bytes) :=
  r ← getScheme_from true s; Ok (default ([], s) r).

Definition is_ctl (c : byte) : bool := (b2z c <? 32) || (b2z c =? 127).

Definition validOptionalPort (port : bytes) : bool :=
  match port with [] => true | c :: digits => oct c x3a && forallb is_digit digits end.

Definition validUserinfo (s : bytes) : bool :=
  forallb (fun c => is_alnum c || among (str "-._:~!$&'()*+,;=%@") c) s.

(** [strings.LastIndex] of an octet, as the text around it. *)
Definition cut_last (c : byte) (s : bytes) : option (bytes * bytes) :=
  match cut_at c (rev s) with Some (b, a) => Some (rev a, rev b) | None => None end.

Section parse.
(** What [parseHost] makes of a bracketed host and of one with several colons. *)
Context (parseOtherHost : bytes -> option bytes).

Definition parseHost (host : bytes) : result url_error bytes :=
  if among host x5b || (1 <? Z.of_nat (length (filter (fun c => c = x3a) host))) then
    match parseOtherHost host with Some h => Ok h | None => Err InvalidHost end
  else
    check (negb (validOptionalPort (match cut_at x3a host with Some (_, port) => x3a :: port | None => [] end))) InvalidHost;;
    match unescape encodeHost host with Some h => Ok h | None => Err InvalidHost end.

Definition parse_userinfo (userinfo : bytes) : result url_error Userinfo :=
  check (negb (validUserinfo userinfo)) InvalidUserinfo;;
  match cut_at x3a userinfo with
  | None => u ← unescaped encodeUserPassword userinfo; Ok (mkUser u None)
  | Some (username, password) =>
      u ← unescaped encodeUserPassword username;
      p ← unescaped encodeUserPassword password;
      Ok (mkUser u (Some p))
  end.

Definition parseAuthority (authority : bytes) : result url_error (option Userinfo * bytes) :=
  match cut_last x40 authority with
  | None => host ← parseHost authority; Ok (None, host)
  | Some (userinfo, hostpart) =>
      host ← parseHost hostpart;
      user ← parse_userinfo userinfo;
      Ok (Some user, host)
  end.

(** [parse] with viaRequest unset. *)
Definition parse (rawURL : bytes) : result url_error URL :=
  check (existsb is_ctl rawURL) ControlCharacter;;
  if bool_decide (rawURL = str "*") then Ok (mkURL [] [] None [] (str "*") [] false false [] [] [])
  else
    '(scheme, rest) ← getScheme rawURL;
    let scheme := toLowerASCII scheme in
    let '(rest, forceQuery, rawQuery) :=
      match cut_at x3f rest with Some (a, q) => (a, bool_decide (q = []), q) | None => (rest, false, []) end in
    let rooted := HasPrefix (str "/") rest in
    let schemed := negb (bool_decide (scheme = [])) in
    if negb rooted && schemed then Ok (mkURL scheme rest None [] [] [] false forceQuery rawQuery [] [])
    else
      check (negb rooted && among (match cut_at x2f rest with Some (segment, _) => segment | None => rest end) x3a) ColonInFirstSegment;;
      let authoritative := (schemed || negb (HasPrefix (str "///") rest)) && HasPrefix (str "//") rest in
      '(user, host, rest) ←
        (if authoritative then
           let '(authority, rest) :=
             match cut_at x2f (drop 2 rest) with Some (a, r) => (a, x2f :: r) | None => (drop 2 rest, []) end in
           '(user, host) ← parseAuthority authority;
           Ok (user, host, rest)
         else Ok (None, [], rest));
      path ← unescaped encodePath rest;
      Ok (mkURL scheme [] user host path (raw_of encodePath rest path)
            (negb authoritative && schemed && rooted) forceQuery rawQuery [] []).

Definition Parse (rawURL : bytes) : result url_error URL :=
  match cut_at x23 rawURL with
  | None => parse rawURL
  | Some (u, frag) =>
      url ← parse u;
      if bool_decide (frag = []) then Ok url
      else
        f ← unescaped encodeFragment frag;
        Ok (mkURL (u_Scheme url) (u_Opaque url) (u_User url) (u_Host url) (u_Path url) (u_RawPath url) (u_OmitHost url)
              (u_ForceQuery url) (u_RawQuery url) f (raw_of encodeFragment frag f))
  end.

(** ** Writing *)

Definition Userinfo_String (u : Userinfo) : bytes :=
  escape encodeUserPassword (ui_username u) ++
  match ui_password u with Some p => x3a :: escape encodeUserPassword p | None => [] end.

Definition URL_String (u : URL) : bytes :=
  let empty s := bool_decide (s = ([] : bytes)) in
  let scheme := if empty (u_Scheme u) then [] else u_Scheme u ++ str ":" in
  let body :=
    if negb (empty (u_Opaque u)) then scheme ++ u_Opaque u
    else
      let nouser := match u_User u with None => true | Some _ => false end in
      let authority :=
        if empty (u_Scheme u) && empty (u_Host u) && nouser then []
        else if u_OmitHost u && empty (u_Host u) && nouser then []
        else
          (if empty (u_Host u) && empty (u_Path u) && nouser then [] else str "//") ++
          match u_User u with Some ui => Userinfo_String ui ++ str "@" | None => [] end ++
          escape encodeHost (u_Host u) in
      let path := EscapedPath u in
      let slash := if negb (empty path) && negb (HasPrefix (str "/") path) && negb (empty (u_Host u)) then str "/" else [] in
      let front := scheme ++ authority ++ slash in
      let dot :=
        if empty front && among (match cut_at x2f path with Some (segment, _) => segment | None => path end) x3a
        then str "./" else [] in
      front ++ dot ++ path in
  body ++ (if u_ForceQuery u || negb (empty (u_RawQuery u)) then x3f :: u_RawQuery u else [])
       ++ (if empty (u_Fragment u) then [] else x23 :: EscapedFragment u).

(** ** The backend request (proxy.go, net/http) *)

(** [base.ResolveReference(&url.URL{Path: "/"})]: the scheme, the user and the host of the
    base, whose own path and query are dropped. *)
Definition resolve_root (base : URL) : URL :=
  mkURL (u_Scheme base) [] (u_User base) (u_Host base) (str "/") [] false false [] [] [].

Definition set_target (full : URL) (path rawQuery : bytes) : URL :=
  mkURL (u_Scheme full) (u_Opaque full) (u_User full) (u_Host full) path (u_RawPath full) (u_OmitHost full)
    (u_ForceQuery full) rawQuery (u_Fragment full) (u_RawFragment full).

(** [full]: the backend with the path and query of the carried target. *)
Definition backend_url (base : URL) (target : bytes) : URL :=
  let full := resolve_root base in
  match Parse target with
  | Ok u => set_target full (u_Path u) (u_RawQuery u)
  | Err _ => set_target full target (u_RawQuery full)
  end.

Inductive errNewRequest : Type :=
| InvalidMethod (method : bytes)
| InvalidURL (rawURL : bytes) (e : url_error).

(** [removeEmptyPort]: a colon that ends the host goes. *)
Definition removeEmptyPort (host : bytes) : bytes :=
  match rev host with c :: h => if oct c x3a then rev h else host | [] => host end.

(** [http.NewRequestWithContext]: the method and the URL of the request. *)
Definition NewRequest (method rawURL : bytes) : result errNewRequest (bytes * URL) :=
  let method := if bool_decide (method = []) then str "GET" else method in
  check (negb (forallb isTchar method)) (InvalidMethod method);;
  match Parse rawURL with
  | Err e => Err (InvalidURL rawURL e)
  | Ok u => Ok (method, mkURL (u_Scheme u) (u_Opaque u) (u_User u) (removeEmptyPort (u_Host u)) (u_Path u) (u_RawPath u)
                          (u_OmitHost u) (u_ForceQuery u) (u_RawQuery u) (u_Fragment u) (u_RawFragment u))
  end.
End parse.

(** ** Percent-encoding round trips *)

Lemma url_digit_in z : url_digit z ∈ str "0123456789ABCDEF".
Proof.
  unfold url_digit. destruct (nth_in_or_default (Z.to_nat z) (str "0123456789ABCDEF") x30) as [Hin|E].
  - by apply list_elem_of_In.
  - rewrite E. by left.
Qed.

Lemma url_digit_value z : 0 <= z < 16 -> hex_value (url_digit z) = Some z.
Proof.
  intros Hz. assert (Forall (fun z => hex_value (url_digit z) = Some z) (seqZ 0 16)) as H by (vm_compute; by repeat constructor).
  rewrite Forall_forall in H. apply H, elem_of_seqZ. lia.
Qed.

Lemma bare_not_percent mode c : shouldEscape mode c = false -> oct c x25 = false.
Proof.
  intros H. pose proof (every_octet (fun c => shouldEscape mode c || negb (oct c x25)) c) as Hall.
  cbn beta in Hall. rewrite H in Hall. apply negb_true_iff, Hall. by destruct mode; vm_compute.
Qed.

Lemma unescape_escape mode s : mode <> encodeHost -> unescape mode (escape mode s) = Some s.
Proof.
  intros Hm. assert (match mode with encodeHost => true | _ => false end = false) as Hh by (by destruct mode).
  induction s as [|c s IH]; [done|]. pose proof (b2z_range c) as Hc. cbn [escape flat_map].
  fold (escape mode s). destruct (shouldEscape mode c) eqn:He; cbn [app unescape]; rewrite Hh; cbn [andb].
  - change (oct x25 x25) with true. cbn match.
    rewrite (url_digit_value (b2z c / 16)) by (split; [apply Z.div_pos|apply Z.div_lt_upper_bound]; lia).
    rewrite (url_digit_value (b2z c mod 16)), IH by (apply Z.mod_pos_bound; lia).
    cbn [mbind option_bind fmap option_fmap option_map]. rewrite Z.mul_comm, <- Z.div_mod by lia. by rewrite z2b_b2z.
  - by rewrite (bare_not_percent mode c He), IH.
Qed.

(** An escaped text consists of bare octets, the percent sign and digits. *)
Lemma escape_all (P : byte -> bool) mode s :
  forallb (fun c => shouldEscape mode c || P c) all_octets = true ->
  forallb P (x25 :: str "0123456789ABCDEF") = true -> forallb P (escape mode s) = true.
Proof.
  intros Hall Hx. assert (forall z, P (url_digit z) = true) as Hd.
  { intros z. cbn [forallb] in Hx. apply andb_true_iff in Hx as [_ Hx]. rewrite forallb_forall in Hx. apply Hx, list_elem_of_In, url_digit_in. }
  cbn [forallb] in Hx. apply andb_true_iff in Hx as [Hp _].
  induction s as [|c s IH]; [done|]. cbn [escape flat_map]. fold (escape mode s). rewrite forallb_app, IH, andb_true_r.
  destruct (shouldEscape mode c) eqn:He; cbn [forallb]; [by rewrite Hp, !Hd|].
  pose proof (every_octet _ c Hall) as Hc. cbn beta in Hc. rewrite He in Hc. cbn [orb] in Hc. by rewrite Hc.
Qed.

Lemma forallb_free (P : byte -> bool) c s : P c = false -> forallb P s = true -> c ∉ s.
Proof. intros Hc Hs Hin. rewrite forallb_forall in Hs. apply list_elem_of_In, Hs in Hin. congruence. Qed.

Lemma escape_free mode c s :
  shouldEscape mode c = true -> c ∉ x25 :: str "0123456789ABCDEF" -> c ∉ escape mode s.
Proof.
  intros He Hd. apply (forallb_free (fun d => negb (oct d c))); [by rewrite oct_refl|].
  apply escape_all.
  - apply forallb_forall. intros d _. destruct (oct d c) eqn:E; [|by rewrite orb_true_r].
    apply oct_eq in E as ->. by rewrite He.
  - apply forallb_forall. intros d Hin. apply negb_true_iff. destruct (oct d c) eqn:E; [|done].
    apply oct_eq in E as ->. by apply list_elem_of_In in Hin.
Qed.

Lemma cut_at_None c s : c ∉ s -> cut_at c s = None.
Proof.
  induction s as [|d s IH]; [done|]. intros H. apply not_elem_of_cons in H as [Hd Hs]. cbn.
  rewrite bool_decide_false by congruence. by rewrite IH.
Qed.

Lemma cut_at_Some c a b : c ∉ a -> cut_at c (a ++ c :: b) = Some (a, b).
Proof.
  induction a as [|d a IH]; cbn; [by rewrite bool_decide_true|]. intros H. apply not_elem_of_cons in H as [Hd Ha].
  rewrite bool_decide_false by congruence. by rewrite IH.
Qed.

Lemma cut_last_None c s : c ∉ s -> cut_last c s = None.
Proof. intros H. unfold cut_last. by rewrite cut_at_None by (by rewrite list_elem_of_In, <- in_rev, <- list_elem_of_In). Qed.

Lemma cut_last_Some c a b : c ∉ b -> cut_last c (a ++ c :: b) = Some (a, b).
Proof.
  intros H. unfold cut_last. rewrite rev_app_distr. cbn [rev]. rewrite <- app_assoc. cbn [app].
  rewrite cut_at_Some by (by rewrite list_elem_of_In, <- in_rev, <- list_elem_of_In). by rewrite !rev_involutive.
Qed.

(** ** What the backend is asked for *)

(** A scheme as [Parse] leaves it: a lower-case letter, then letters, digits, '+', '-' and '.'. *)
Definition plain_scheme (s : bytes) : bool :=
  let letter c := is_letter c && oct (to_lower_octet c) c in
  match s with
  | [] => false
  | c :: s => letter c && forallb (fun c => letter c || is_digit c || among (str "+-.") c) s
  end.

(** A rooted path that is not a network reference and holds no octet with a meaning of its
    own in a reference; a query without a fragment mark. *)
Definition plain_path (s : bytes) : bool :=
  HasPrefix (str "/") s && negb (HasPrefix (str "//") s) && forallb (fun c => negb (is_ctl c || among (str "?#%") c)) s.

Definition plain_query (s : bytes) : bool := forallb (fun c => negb (is_ctl c || oct c x23)) s.

Lemma scheme_octets s : plain_scheme s = true -> toLowerASCII s = s.
Proof.
  destruct s as [|c s]; [done|]. cbn [plain_scheme toLowerASCII map]. intros [[_ Hc]%andb_true_iff Hs]%andb_true_iff.
  f_equal; [by apply oct_eq|]. induction s as [|d s IH]; [done|]. cbn [forallb map] in *. apply andb_true_iff in Hs as [Hd Hs].
  f_equal; [|by apply IH].
  pose proof (every_octet (fun d => negb (is_letter d && oct (to_lower_octet d) d || is_digit d || among (str "+-.") d) || oct (to_lower_octet d) d) d) as H.
  cbn beta in H. rewrite Hd in H. by apply oct_eq, H.
Qed.

Lemma scheme_found s rest : plain_scheme s = true -> getScheme (s ++ x3a :: rest) = Ok (s, rest).
Proof.
  intros H. assert (forall s, forallb (fun c => is_letter c && oct (to_lower_octet c) c || is_digit c || among (str "+-.") c) s = true ->
    getScheme_from false (s ++ x3a :: rest) = Ok (Some (s, rest))) as Htail.
  { clear. induction s as [|c s IH]; [done|]. cbn [forallb app getScheme_from]. intros [Hc Hs]%andb_true_iff.
    rewrite (IH Hs). cbn [mbind result_bind]. assert (is_letter c || (is_digit c || among (str "+-.") c) && negb false = true) as ->; [|done].
    rewrite andb_true_r. by destruct (is_letter c), (is_digit c), (among _ c). }
  destruct s as [|c s]; [done|]. cbn [plain_scheme] in H. apply andb_true_iff in H as [[Hc _]%andb_true_iff Hs].
  unfold getScheme. cbn [app getScheme_from]. rewrite Hc. cbn [orb]. by rewrite (Htail s Hs).
Qed.

Lemma plain_path_root path : plain_path path = true -> exists p, path = x2f :: p.
Proof.
  intros [[H _]%andb_true_iff _]%andb_true_iff. unfold HasPrefix in H. destruct (strip _ path) eqn:E; [|done].
  by apply strip_head in E.
Qed.

Lemma unescape_plain mode s : mode <> encodeHost -> x25 ∉ s -> unescape mode s = Some s.
Proof.
  intros Hm. assert (match mode with encodeHost => true | _ => false end = false) as Hh by (by destruct mode).
  induction s as [|c s IH]; [done|]. intros [Hc Hs]%not_elem_of_cons. cbn [unescape]. rewrite Hh, (IH Hs). cbn [andb].
  destruct (oct c x25) eqn:E; [|done]. apply oct_eq in E. congruence.
Qed.

(** No control octet and no fragment mark. *)
Definition url_text (s : bytes) : bool := plain_query s.

Lemma url_text_ok s : url_text s = true -> existsb is_ctl s = false /\ cut_at x23 s = None.
Proof.
  intros H. split; [|apply cut_at_None; by apply (forallb_free (fun c => negb (is_ctl c || oct c x23)))].
  induction s as [|c s IH]; [done|]. cbn [url_text plain_query forallb existsb] in *. apply andb_true_iff in H as [Hc Hs].
  rewrite (IH Hs). by destruct (is_ctl c).
Qed.

Lemma url_text_app s t : url_text (s ++ t) = url_text s && url_text t.
Proof. apply forallb_app. Qed.

Lemma escape_url_text mode s : url_text (escape mode s) = true.
Proof. apply escape_all; by destruct mode; vm_compute. Qed.

Lemma weaken_all (P Q : byte -> bool) s :
  forallb (fun c => negb (P c) || Q c) all_octets = true -> forallb P s = true -> forallb Q s = true.
Proof.
  intros Hall Hs. apply forallb_forall. intros c Hc. rewrite forallb_forall in Hs. specialize (Hs c Hc).
  pose proof (every_octet _ c Hall) as H. cbn beta in H. by rewrite Hs in H.
Qed.

Lemma plain_path_text path : plain_path path = true -> url_text path = true /\ x3f ∉ path /\ x25 ∉ path.
Proof.
  intros [_ H]%andb_true_iff. split_and!.
  - revert H. by apply weaken_all; vm_compute.
  - by eapply forallb_free, H.
  - by eapply forallb_free, H.
Qed.

Lemma scheme_text s : plain_scheme s = true -> url_text s = true.
Proof.
  destruct s as [|c s]; [done|]. cbn [plain_scheme]. intros [Hc Hs]%andb_true_iff.
  apply (weaken_all (fun c => is_letter c && oct (to_lower_octet c) c || is_digit c || among (str "+-.") c)); [by vm_compute|].
  cbn [forallb]. by rewrite Hc, Hs.
Qed.

(** The text of a target: the query follows the path when there is one. *)
Definition query_text (rawQuery : bytes) : bytes := match rawQuery with [] => [] | q => x3f :: q end.

Lemma query_text_ok q : plain_query q = true -> url_text (query_text q) = true.
Proof. destruct q as [|c q]; [done|]. intros H. change (query_text (c :: q)) with ([x3f] ++ (c :: q)). rewrite url_text_app. exact H. Qed.

Lemma cut_query s q : x3f ∉ s ->
  match cut_at x3f (s ++ query_text q) with Some (a, q) => (a, bool_decide (q = []), q) | None => (s ++ query_text q, false, []) end
  = (s, false, q).
Proof.
  intros H. destruct q as [|c q]; cbn [query_text]; [by rewrite app_nil_r, cut_at_None|].
  rewrite cut_at_Some by done. by rewrite bool_decide_false.
Qed.

Section requests.
Context (parseOtherHost : bytes -> option bytes).

(** A carried target with a plain path and query is read as that path and query. *)
Lemma target_parses path q : plain_path path = true -> plain_query q = true ->
  exists u, Parse parseOtherHost (path ++ query_text q) = Ok u /\ u_Path u = path /\ u_RawQuery u = q.
Proof.
  intros Hp Hq. destruct (plain_path_text path Hp) as (Ht & Hmark & Hpct).
  assert (url_text (path ++ query_text q) = true) as Htext by (by rewrite url_text_app, Ht, query_text_ok).
  destruct (url_text_ok _ Htext) as [Hctl Hcut]. unfold Parse. rewrite Hcut. unfold parse. rewrite Hctl. cbn [check mbind result_bind].
  pose proof (plain_path_root path Hp) as [p Ep]. rewrite bool_decide_false by (by rewrite Ep).
  assert (getScheme (path ++ query_text q) = Ok ([], path ++ query_text q)) as -> by (by rewrite Ep).
  cbn [mbind result_bind toLowerASCII map]. rewrite cut_query by done.
  assert (HasPrefix (str "/") path = true) as -> by (by rewrite Ep). assert (HasPrefix (str "//") path = false) as ->.
  { unfold plain_path in Hp. by destruct (HasPrefix (str "//") path); [rewrite andb_false_r in Hp|]. }
  rewrite bool_decide_true by done. cbn [negb andb check mbind result_bind]. rewrite !andb_false_r. cbn [mbind result_bind].
  unfold unescaped. rewrite unescape_plain by done. cbn [mbind result_bind]. by eexists.
Qed.

Lemma userinfo_parses user : parse_userinfo (Userinfo_String user) = Ok user.
Proof.
  destruct user as [name password]. unfold Userinfo_String, parse_userinfo. cbn [ui_username ui_password].
  assert (forall s, validUserinfo (escape encodeUserPassword s) = true) as Hv by (intros s; by apply escape_all; vm_compute).
  assert (forall s, unescaped encodeUserPassword (escape encodeUserPassword s) = Ok s) as Hu
    by (intros s; unfold unescaped; by rewrite unescape_escape).
  assert (x3a ∉ escape encodeUserPassword name) as Hc by (apply escape_free; [done|by apply (bool_decide_eq_true_1 (_ ∉ _))]).
  destruct password as [p|].
  - assert (validUserinfo (escape encodeUserPassword name ++ x3a :: escape encodeUserPassword p) = true) as ->
      by (unfold validUserinfo in *; by rewrite forallb_app, Hv; cbn [forallb]; rewrite Hv).
    cbn [negb check mbind result_bind]. rewrite cut_at_Some by done. by rewrite !Hu.
  - rewrite app_nil_r, Hv. cbn [negb check mbind result_bind]. by rewrite cut_at_None, Hu.
Qed.

Definition authority_text (user : option Userinfo) (host : bytes) : bytes :=
  match user with Some ui => Userinfo_String ui ++ str "@" | None => [] end ++ escape encodeHost host.

Lemma authority_parses user host host' : parseHost parseOtherHost (escape encodeHost host) = Ok host' ->
  parseAuthority parseOtherHost (authority_text user host) = Ok (user, host').
Proof.
  intros Hh. unfold parseAuthority, authority_text.
  assert (x40 ∉ escape encodeHost host) as Hat by (apply escape_free; [done|by apply (bool_decide_eq_true_1 (_ ∉ _))]).
  destruct user as [ui|]; cbn [app].
  - rewrite <- app_assoc. change (str "@") with [x40]; cbn [app]. rewrite cut_last_Some, Hh by done. cbn [mbind result_bind].
    by rewrite userinfo_parses.
  - by rewrite cut_last_None, Hh.
Qed.

Lemma userinfo_all (P : byte -> bool) ui :
  forallb (fun c => shouldEscape encodeUserPassword c || P c) all_octets = true ->
  forallb P (x25 :: x3a :: str "0123456789ABCDEF") = true -> forallb P (Userinfo_String ui) = true.
Proof.
  intros Hall Hx. cbn [forallb] in Hx. apply andb_true_iff in Hx as [H25 [H3a Hx]%andb_true_iff].
  assert (forall s, forallb P (escape encodeUserPassword s) = true) as He
    by (intros s; apply escape_all; [done|]; cbn [forallb]; by rewrite H25, Hx).
  unfold Userinfo_String. rewrite forallb_app, He. destruct (ui_password ui); [|done]. cbn [forallb]. by rewrite H3a, He.
Qed.

Lemma authority_all (P : byte -> bool) user host :
  forallb (fun c => shouldEscape encodeUserPassword c || P c) all_octets = true ->
  forallb (fun c => shouldEscape encodeHost c || P c) all_octets = true ->
  forallb P (x25 :: x3a :: str "0123456789ABCDEF") = true -> P x40 = true -> forallb P (authority_text user host) = true.
Proof.
  intros Hu Hh Hx Hat. unfold authority_text. rewrite forallb_app. assert (forallb P (escape encodeHost host) = true) as ->.
  { apply escape_all; [done|]. cbn [forallb] in *. apply andb_true_iff in Hx as [-> [_ ->]%andb_true_iff]. done. }
  rewrite andb_true_r. destruct user; [|done]. rewrite forallb_app, userinfo_all by done. change (str "@") with [x40]; cbn [forallb]. by rewrite Hat.
Qed.

(** Writing the URL of a backend request. *)
Lemma request_text b path q : plain_scheme (u_Scheme b) = true -> plain_path path = true ->
  URL_String (set_target (resolve_root b) path q) =
  u_Scheme b ++ x3a :: (str "//" ++ authority_text (u_User b) (u_Host b) ++ escape encodePath path) ++ query_text q.
Proof.
  intros Hs Hp. destruct (plain_path_root path Hp) as [p ->].
  unfold URL_String, set_target, resolve_root, EscapedPath, keeps_raw. cbn [u_Scheme u_Opaque u_User u_Host u_Path u_RawPath u_OmitHost u_ForceQuery u_RawQuery u_Fragment u_RawFragment].
  rewrite (bool_decide_false (u_Scheme b = [])) by (by intros E; rewrite E in Hs). rewrite (bool_decide_true ([] = [])) by done.
  rewrite (bool_decide_false (x2f :: p = [])), (bool_decide_false (x2f :: p = str "*")) by done. cbn [negb andb orb]. rewrite !andb_false_r. cbn [andb orb].
  unfold authority_text.
  assert ((if negb (bool_decide (q = [])) then x3f :: q else []) = query_text q) as -> by (destruct q; [done|by rewrite bool_decide_false]).
  change (str "//") with [x2f; x2f]; change (str ":") with [x3a]; rewrite !app_nil_r, <- !app_assoc. by destruct (u_User b); cbn [app]; rewrite <- ?app_assoc.
Qed.

(** A plain request reaches the backend as it is: the request built for a backend and a
    carried target names the backend's scheme, user and host, and the path and the query
    carried. *)
Lemma request_url b method path q host :
  plain_scheme (u_Scheme b) = true -> parseHost parseOtherHost (escape encodeHost (u_Host b)) = Ok host ->
  plain_path path = true -> plain_query q = true -> method <> [] -> forallb isTchar method = true ->
  NewRequest parseOtherHost method (URL_String (backend_url parseOtherHost b (path ++ query_text q))) =
  Ok (method, mkURL (u_Scheme b) [] (u_User b) (removeEmptyPort host) path [] false false q [] []).
Proof.
  intros Hs Hh Hp Hq Hm Ht. unfold backend_url. destruct (target_parses path q Hp Hq) as (u & -> & -> & ->).
  rewrite request_text by done. unfold NewRequest. rewrite bool_decide_false, Ht by done. cbn [negb check mbind result_bind].
  set (auth := authority_text (u_User b) (u_Host b)). set (ep := escape encodePath path).
  assert (url_text (u_Scheme b ++ x3a :: (str "//" ++ auth ++ ep) ++ query_text q) = true) as Htext.
  { rewrite url_text_app, scheme_text by done. change (x3a :: ?x) with ([x3a] ++ x). rewrite !url_text_app.
    unfold ep. rewrite escape_url_text, query_text_ok by done. unfold auth, url_text, plain_query at 3. by rewrite authority_all by (by vm_compute). }
  destruct (url_text_ok _ Htext) as [Hctl Hcut]. unfold Parse. rewrite Hcut. unfold parse. rewrite Hctl. cbn [check mbind result_bind].
  rewrite bool_decide_false by (destruct (u_Scheme b) as [|? [|??]]; [done|discriminate|discriminate]).
  rewrite scheme_found by done. cbn [mbind result_bind]. rewrite scheme_octets by done.
  assert (x3f ∉ str "//" ++ auth ++ ep) as Hmark.
  { rewrite !not_elem_of_app. split_and!; [by apply (bool_decide_eq_true_1 (_ ∉ _))| |].
    - apply (forallb_free (fun c => negb (oct c x3f))); [done|]. by apply authority_all; vm_compute.
    - apply escape_free; [done|by apply (bool_decide_eq_true_1 (_ ∉ _))]. }
  rewrite cut_query by done. assert (HasPrefix (str "/") (str "//" ++ auth ++ ep) = true) as -> by done.
  rewrite (bool_decide_false (u_Scheme b = [])) by (by intros E; rewrite E in Hs). cbn [negb andb orb check mbind result_bind].
  assert (HasPrefix (str "//") (str "//" ++ auth ++ ep) = true) as -> by done. change (str "//") with [x2f; x2f]; cbn [app drop].
  assert (exists ep', ep = x2f :: ep') as [ep' Eep] by (destruct (plain_path_root path Hp) as [p Ep]; unfold ep; rewrite Ep; by eexists).
  rewrite drop_0, Eep, cut_at_Some, <- Eep by (apply (forallb_free (fun c => negb (oct c x2f))); [done|]; by apply authority_all; vm_compute).
  unfold auth. rewrite (authority_parses _ _ _ Hh). cbn [mbind result_bind]. unfold unescaped, ep. rewrite unescape_escape by done.
  cbn [mbind result_bind]. unfold raw_of. by rewrite bool_decide_true.
Qed.
End requests.

(** ** Targets that are rewritten

    The calling proxy sends the decoded path, which the peer parses as a reference: an
    encoded question mark begins a query, a path of two slashes loses its first segment, an
    encoded percent sign is decoded again, and a path that no longer parses swallows the
    query; the backend's own path is not used. *)
Lemma target_rewritten parseOtherHost :
  let asked target := let u := backend_url parseOtherHost (mkURL (str "http") [] None (str "h") (str "/base") [] false false [] [] []) target in
                      (u_Path u, u_RawQuery u, URL_String u) in
  asked (str "/a?b") = (str "/a", str "b", str "http://h/a?b") /\
  asked (str "//host/x") = (str "/x", [], str "http://h/x") /\
  asked (str "/a%41") = (str "/aA", [], str "http://h/aA") /\
  asked (str "/a%b?q=1") = (str "/a%b?q=1", [], str "http://h/a%25b%3Fq=1").
Proof. by repeat split; vm_compute. Qed.
