(* ===== verification/ProxyEgress.v ===== *)
(** * The egress side of the proxy
      (proxy/proxy.go, jsonrpc.go, opaque.go, stream.go: the handleInbound functions)

    A decoded BRIDGE_REQUEST is routed by its protocol id to a carriage class, whose
    handler answers it with frames that echo the request's correlation id.  The local
    backends (an HTTP service, JSON-RPC, gRPC, WebSocket and opaque handlers) are functions
    from what the proxy hands them to what they answer; the wording of error texts is a
    parameter.  An encoder's panic is an outcome of its own. *)

From S2P Require Import Prelude Errors Cbor Tlv Bridge CarriageHttp CarriageStream Json CarriageJson Url.
From Stdlib Require Import Strings.Byte.
From stdpp Require Import gmap.
Open Scope Z_scope.

Definition BridgeProtoMCP : Z := 0x0001.
Definition BridgeProtoA2A : Z := 0x0002.
Definition BridgeProtoHTTP2 : Z := 0x0003.
Definition BridgeProtoWebSocket : Z := 0x0004.

Definition BridgeErrEnvelopeMalformed : Z := 1.
Definition BridgeErrProtocolUnsupported : Z := 2.
Definition BridgeErrMethodUnsupported : Z := 3.
Definition BridgeErrNotDelivered : Z := 4.

(** The text of an error value. *)
Class ErrorText (E : Type) : Type := Error : E -> bytes.

(** ** The local backends *)

(** Issuing the backend request and reading its body can each fail. *)
Inductive backend_outcome : Type :=
| DoFailed (text : bytes)
| ReadFailed (text : bytes)
| Response (status : Z) (h : Header) (body : bytes).

Inductive rpc_outcome : Type :=
| RPCFailed (text : bytes)
| RPCError (e : JSONRPCError)
| RPCResult (res : option bytes).

(** The HTTP backend: the URL of [Backend], what [net/url] makes of unusual hosts, and
    [HTTPClient.Do] on a request's method, URL, header and body. *)
Record HTTPBackend : Type := mkHTTPBackend {
  hb_URL : URL;
  hb_parseOtherHost : bytes -> option bytes;
  hb_Do : bytes -> URL -> Header -> bytes -> backend_outcome
}.

(** The fields of [Proxy] the egress side reads. *)
Record Proxy : Type := mkProxy {
  px_Backend : option HTTPBackend;
  px_JSONRPCHandler : option (Z -> bytes -> option bytes -> rpc_outcome);       (* protocol, method, params *)
  px_JSONRPCNotifyHandler : bool;                                               (* whether one is set *)
  px_GRPCHandler : option (bytes -> bytes -> bytes + bytes);                    (* method, request: error or response *)
  px_WebSocketHandler : option (bytes -> bytes + list bytes);                   (* message: error or replies *)
  px_OpaqueProtocolID : Z;
  px_OpaqueHandler : option (bytes -> bytes -> bytes + bytes * bytes)           (* media type, payload *)
}.

(** What a handler does: the frames it hands to [Conn.Send], or a panic. *)
Inductive egress : Type :=
| Panics
| Sends (frames : list (Z * bytes)).

Definition send_one (ft : Z) (wire : option bytes) : egress :=
  match wire with Some w => Sends [(ft, w)] | None => Panics end.

Definition sendBridgeError (protocol : Z) (corrID : bytes) (code : Z) (msg : bytes) : egress :=
  let msg := if 255 <? blen msg then take 255 msg else msg in
  let env := mkEnvelope protocol BridgeKindError BridgeContentCBOR 0 corrID [] in
  send_one FrameBridgeError
    (foreign ← EncodeBridgeTransportError (mkTransportError code msg);
     EncodeBridgePayload env None foreign).

Section handlers.
Context `{ErrorText errCarriageMalformed, ErrorText errJSONRPC, ErrorText errOpaqueContentType, ErrorText errGRPCMalformed, ErrorText errNewRequest}.
Context (p : Proxy).

Definition handleInboundHTTPRequest (frame : BridgeFrame) : egress :=
  let env := bf_Envelope frame in
  let corrID := be_CorrelationID env in
  let fail := sendBridgeError BridgeProtoHTTP2 corrID in
  match px_Backend p with
  | None => fail BridgeErrMethodUnsupported (str "this proxy instance carries no HTTP egress backend")
  | Some backend =>
      match decodeHTTPCarriageObject (bf_Foreign frame) httpKindRequest with
      | Err derr => fail BridgeErrEnvelopeMalformed (Error derr)
      | Ok obj =>
          if (0 <? blen (be_Method env)) && negb (bool_decide (be_Method env = ho_Method obj ++ str " " ++ ho_Target obj)) then
            fail BridgeErrEnvelopeMalformed (str "envelope method routing key disagrees with the HTTP-Carriage Object")
          else
            let full := backend_url (hb_parseOtherHost backend) (hb_URL backend) (ho_Target obj) in
            match NewRequest (hb_parseOtherHost backend) (ho_Method obj) (URL_String full) with
            | Err rerr => fail BridgeErrEnvelopeMalformed (str "could not construct backend request: " ++ Error rerr)
            | Ok (method, url) =>
                match hb_Do backend method url (toHTTPHeader (ho_Headers obj)) (ho_Body obj) with
                | DoFailed t => fail BridgeErrNotDelivered t
                | ReadFailed t => fail BridgeErrNotDelivered (str "reading backend response body: " ++ t)
                | Response status h body =>
                    let obj2 := encodeHTTPCarriageResponse status h body in
                    let env2 := mkEnvelope BridgeProtoHTTP2 BridgeKindResponse BridgeContentCBOR 0 corrID [] in
                    send_one FrameBridgeResponse (EncodeBridgePayload env2 None obj2)
                end
            end
      end
  end.

(** A reply that does not marshal is not sent. *)
Definition sendJSONRPCSuccessResponse (protocol : Z) (corrID : bytes) (id : option bytes) (res : option bytes) : egress :=
  match success_object id res with
  | None => Sends []
  | Some wire => send_one FrameBridgeResponse (EncodeBridgePayload (jsonrpcEnvelope protocol BridgeKindResponse corrID []) None wire)
  end.

Definition sendJSONRPCErrorResponse (protocol : Z) (corrID : bytes) (id : option bytes) (rpcErr : JSONRPCError) : egress :=
  match error_object id rpcErr with
  | None => Sends []
  | Some wire => send_one FrameBridgeError (EncodeBridgePayload (jsonrpcEnvelope protocol BridgeKindError corrID []) None wire)
  end.

Definition handleInboundJSONRPCRequest (frame : BridgeFrame) : egress :=
  let env := bf_Envelope frame in
  let protocol := be_Protocol env in
  let corrID := be_CorrelationID env in
  let fail := sendBridgeError protocol corrID in
  match px_JSONRPCHandler p with
  | None => fail BridgeErrMethodUnsupported (str "this proxy instance carries no JSON-RPC egress backend")
  | Some handler =>
      match decodeJSONRPCRequestOrNotification (bf_Foreign frame) false with
      | Err derr => fail BridgeErrEnvelopeMalformed (Error derr)
      | Ok obj =>
          if negb (jsonrpcMethodAgrees (be_Method env) obj) then
            fail BridgeErrEnvelopeMalformed (str "envelope method field disagrees with the carried JSON-RPC object's method member")
          else
            match handler protocol (jp_Method obj) (jsonrpcParams (jp_Raw obj)) with
            | RPCFailed t => fail BridgeErrNotDelivered t
            | RPCError e => sendJSONRPCErrorResponse protocol corrID (jp_ID obj) e
            | RPCResult r => sendJSONRPCSuccessResponse protocol corrID (jp_ID obj) r
            end
      end
  end.

(** The call the notification handler gets, when there is one; nothing is ever sent. *)
Definition handleInboundNotify (payload : bytes) : option (Z * bytes * option bytes) :=
  match DecodeBridgeFrame FrameBridgeNotify payload with
  | Err _ => None
  | Ok frame =>
      let env := bf_Envelope frame in
      if negb (be_Protocol env =? BridgeProtoMCP) && negb (be_Protocol env =? BridgeProtoA2A) then None
      else if negb (px_JSONRPCNotifyHandler p) then None
      else match decodeJSONRPCRequestOrNotification (bf_Foreign frame) true with
           | Err _ => None
           | Ok obj => if negb (jsonrpcMethodAgrees (be_Method env) obj) then None
                       else Some (be_Protocol env, jp_Method obj, jsonrpcParams (jp_Raw obj))
           end
  end.

Definition handleInboundOpaqueRequest (frame : BridgeFrame) : egress :=
  let env := bf_Envelope frame in
  let protocol := be_Protocol env in
  let corrID := be_CorrelationID env in
  let fail := sendBridgeError protocol corrID in
  match px_OpaqueHandler p with
  | None => fail BridgeErrMethodUnsupported (str "this proxy instance carries no opaque-carriage egress backend")
  | Some handler =>
      match decodeOpaquePayload env (bf_Foreign frame) with
      | Err derr => fail BridgeErrEnvelopeMalformed (Error derr)
      | Ok (mediaType, raw) =>
          match handler mediaType raw with
          | inl herr => fail BridgeErrNotDelivered herr
          | inr (replyMediaType, resp) =>
              match encodeOpaquePayload (mkEnvelope protocol BridgeKindResponse 0 0 corrID []) replyMediaType resp with
              | None => Panics
              | Some (Err eerr) => fail BridgeErrNotDelivered (Error eerr)
              | Some (Ok wire) => Sends [(FrameBridgeResponse, wire)]
              end
          end
      end
  end.

(** ** The stream producer *)

Inductive streamCarriageClass : Type := grpcStreamClass | websocketStreamClass.

Definition streamContentType (class : streamCarriageClass) : Z :=
  match class with grpcStreamClass => BridgeContentGRPCProto | websocketStreamClass => BridgeContentCBOR end.

(** What the producer observes while it runs: the cancel flag before each emission and
    before the end frame, and whether each [Conn.Send] succeeds. *)
Record observed : Type := mkObserved { cancelled : nat -> bool; send_ok : nat -> bool }.

Definition prepend (f : Z * bytes) (e : egress) : egress :=
  match e with Sends fs => Sends (f :: fs) | Panics => Panics end.

(** The emission loop from event id [eventID], which is also the index of the check. *)
Fixpoint emit (obs : observed) (protocol ct : Z) (corrID : bytes) (eventID : nat) (events : list bytes) : egress :=
  let finish (flag : bool) :=
    let flags := if flag then streamFlagCancelAck else 0 in
    let endEnv := mkEnvelope protocol BridgeKindStreamEnd ct BridgeFlagFinal corrID [] in
    send_one FrameBridgeStreamEnd (encodeStreamFrame endEnv (mkControl streamControlData flags (u64 (Z.of_nat eventID))) []) in
  match events with
  | [] => finish (cancelled obs eventID)
  | ev :: events =>
      if cancelled obs eventID then finish true
      else
        let env := mkEnvelope protocol BridgeKindStreamData ct 0 corrID [] in
        match encodeStreamFrame env (mkControl streamControlData 0 (u64 (Z.of_nat eventID))) ev with
        | None => Panics
        | Some payload =>
            if send_ok obs eventID then prepend (FrameBridgeStreamData, payload) (emit obs protocol ct corrID (S eventID) events)
            else Sends []
        end
  end.

(** The events of a handler's answer, or the error code and text. *)
Definition stream_events (class : streamCarriageClass) (frame : BridgeFrame) : result (Z * bytes) (list bytes) :=
  match class with
  | grpcStreamClass =>
      match px_GRPCHandler p with
      | None => Err (BridgeErrMethodUnsupported, str "this proxy instance carries no gRPC egress backend")
      | Some handler =>
          match decodeGRPCLengthPrefixedMessage (bf_Foreign frame) with
          | Err lerr => Err (BridgeErrEnvelopeMalformed, Error lerr)
          | Ok (_, reqMsg) =>
              match handler (be_Method (bf_Envelope frame)) reqMsg with
              | inl t => Err (BridgeErrNotDelivered, t)
              | inr resp => Ok [encodeGRPCLengthPrefixedMessage false resp]
              end
          end
      end
  | websocketStreamClass =>
      match px_WebSocketHandler p with
      | None => Err (BridgeErrMethodUnsupported, str "this proxy instance carries no WebSocket egress backend")
      | Some handler =>
          match handler (bf_Foreign frame) with
          | inl t => Err (BridgeErrNotDelivered, t)
          | inr replies => Ok replies
          end
      end
  end.

Definition is_resume (foreign : bytes) : bool :=
  match decodeLeadingStreamControl foreign with
  | Ok (sc, _) => sc_Control sc =? streamControlResume
  | Err _ => false
  end.

Definition handleInboundStreamRequest (obs : observed) (frame : BridgeFrame) (class : streamCarriageClass) : egress :=
  let protocol := be_Protocol (bf_Envelope frame) in
  let corrID := be_CorrelationID (bf_Envelope frame) in
  if is_resume (bf_Foreign frame) then
    sendBridgeError protocol corrID BridgeErrNotResumable
      (str "this proxy instance retains no per-stream state and cannot resume or restart (" ++ hex "c2a7" ++ str "6.3)")
  else
    match stream_events class frame with
    | Err (code, msg) => sendBridgeError protocol corrID code msg
    | Ok events => emit obs protocol (streamContentType class) corrID 1 events
    end.

(** ** Routing *)

(** [%02x] of an octet. *)
Definition hex2 (z : Z) : bytes := [hex_char (z / 16); hex_char (z mod 16)].

Inductive route : Type :=
| ToHTTP | ToJSONRPC | ToStream (class : streamCarriageClass) | ToOpaque | Unsupported.

Definition route_of (protocol : Z) : route :=
  if protocol =? BridgeProtoHTTP2 then ToHTTP
  else if (protocol =? BridgeProtoMCP) || (protocol =? BridgeProtoA2A) then ToJSONRPC
  else if protocol =? BridgeProtoWebSocket then ToStream websocketStreamClass
  else if protocol =? grpcProtocolID then ToStream grpcStreamClass
  else if negb (px_OpaqueProtocolID p =? 0) && (protocol =? px_OpaqueProtocolID p) then ToOpaque
  else Unsupported.

Definition handleInboundBridgeRequest (obs : observed) (payload : bytes) : egress :=
  match DecodeBridgeFrame FrameBridgeRequest payload with
  | Err _ => Sends []
  | Ok frame =>
      let protocol := be_Protocol (bf_Envelope frame) in
      match route_of protocol with
      | ToHTTP => handleInboundHTTPRequest frame
      | ToJSONRPC => handleInboundJSONRPCRequest frame
      | ToStream class => handleInboundStreamRequest obs frame class
      | ToOpaque => handleInboundOpaqueRequest frame
      | Unsupported =>
          sendBridgeError protocol (be_CorrelationID (bf_Envelope frame)) BridgeErrProtocolUnsupported
            (str "protocol_id 0x" ++ hex2 (u8 protocol) ++ str " is not carried by this n-pamp-proxy instance")
      end
  end.
End handlers.

(** ** Answers echo the request *)

(** The fields of a decoded request every answer copies. *)
Definition answerable (protocol : Z) (corrID : bytes) : Prop := is_u16 protocol /\ corrID <> [] /\ blen corrID <= 255.

Lemma decoded_answerable payload frame :
  DecodeBridgeFrame FrameBridgeRequest payload = Ok frame ->
  answerable (be_Protocol (bf_Envelope frame)) (be_CorrelationID (bf_Envelope frame)).
Proof.
  intros Hd. apply bridge_accepted in Hd as [[Hk (Hp & _ & _ & _ & Hc & _) Hcorr _] _].
  split; [done|]. split; [|done]. intros E. by apply Hcorr in E.
Qed.

Lemma answer_sendable protocol corrID ft kind ct flags :
  answerable protocol corrID -> BridgeKindForFrame ft = Some kind -> ft <> FrameBridgeNotify ->
  is_u8 kind -> is_u8 ct -> is_u8 flags -> sendable ft (mkEnvelope protocol kind ct flags corrID []).
Proof.
  intros (Hp & Hne & Hl) Hk Hn Hk8 Hct Hfl. split; [done|]. split; [by repeat split; try apply Hp; try apply Hk8; try apply Hct; try apply Hfl|].
  cbn. tauto.
Qed.

(** A frame that answers a request with this protocol and correlation id. *)
Definition replies_to (protocol : Z) (corrID : bytes) (f : Z * bytes) : Prop :=
  exists env foreign, sendable f.1 env /\ EncodeBridgePayload env None foreign = Some f.2 /\
    be_Protocol env = protocol /\ be_CorrelationID env = corrID.

Lemma send_one_replies protocol corrID ft kind ct flags foreign :
  answerable protocol corrID -> BridgeKindForFrame ft = Some kind -> ft <> FrameBridgeNotify ->
  is_u8 kind -> is_u8 ct -> is_u8 flags ->
  exists b, send_one ft (EncodeBridgePayload (mkEnvelope protocol kind ct flags corrID []) None foreign) = Sends [(ft, b)] /\
    replies_to protocol corrID (ft, b) /\
    (~ reads_as_label foreign -> DecodeBridgeFrame ft b = Ok (mkBridge (mkEnvelope protocol kind ct flags corrID []) None foreign)).
Proof.
  intros Ha Hk Hn H1 H2 H3. pose proof (answer_sendable _ _ _ _ ct flags Ha Hk Hn H1 H2 H3) as Hs.
  destruct (encode_sendable ft _ foreign Hs) as [b Hb]. exists b. rewrite Hb. split; [done|].
  split; [by eexists _, _|]. intros Hl. by apply (carried ft _ _ _ Hs).
Qed.

(** A single BRIDGE_ERROR with a transport error of this code. *)
Definition refusal (protocol : Z) (corrID : bytes) (code : Z) (e : egress) : Prop :=
  exists b env te foreign, e = Sends [(FrameBridgeError, b)] /\
    DecodeBridgeFrame FrameBridgeError b = Ok (mkBridge env None foreign) /\
    be_Protocol env = protocol /\ be_CorrelationID env = corrID /\ be_ContentType env = BridgeContentCBOR /\
    DecodeBridgeTransportError foreign = Ok te /\ bt_Code te = code.

Lemma transport_not_label te foreign :
  1 <= bt_Code te < 256 -> EncodeBridgeTransportError te = Some foreign -> ~ reads_as_label foreign.
Proof.
  intros Hc He [_ Ht]. unfold EncodeBridgeTransportError in He. destruct (_ <? _); [done|]. injection He as <-.
  unfold slice in Ht. cbn [app drop take Nat.sub] in Ht.
  unfold be_get in Ht. cbn [fold_left] in Ht. rewrite take_0 in Ht. cbn [fold_left] in Ht. rewrite b2z_z2b_small in Ht by lia.
  pose proof (b2z_range (z2b (blen (bt_Message te)))). unfold TLVSafetyLabel in Ht. lia.
Qed.

Lemma sendBridgeError_spec protocol corrID code msg :
  answerable protocol corrID -> 1 <= code < 256 ->
  refusal protocol corrID code (sendBridgeError protocol corrID code msg) /\
  exists b, sendBridgeError protocol corrID code msg = Sends [(FrameBridgeError, b)] /\ replies_to protocol corrID (FrameBridgeError, b).
Proof.
  intros Ha Hc. unfold sendBridgeError. set (m := if 255 <? blen msg then take 255 msg else msg).
  assert (blen m <= 255) as Hm.
  { subst m. destruct (Z.ltb_spec 255 (blen msg)); [|done]. unfold blen. rewrite length_take. lia. }
  assert (exists foreign, EncodeBridgeTransportError (mkTransportError code m) = Some foreign) as [foreign Hf].
  { unfold EncodeBridgeTransportError. cbn [bt_Message]. rewrite (proj2 (Z.ltb_ge _ _)) by done. eauto. }
  rewrite Hf. cbn [mbind option_bind].
  destruct (send_one_replies protocol corrID FrameBridgeError BridgeKindError BridgeContentCBOR 0 foreign Ha) as (b & Hs & Hr & Hd); try done.
  rewrite Hs. split; [|by exists b]. eexists b, _, (mkTransportError code m), foreign. split; [done|].
  split; [apply Hd, (transport_not_label (mkTransportError code m)); [cbn; lia|done]|]. split_and!; try done. apply transport_exact. split; [split; [cbn; unfold is_u8; lia|done]|done].
Qed.

(** A one-frame answer. *)
Definition one_answer (protocol : Z) (corrID : bytes) (e : egress) : Prop :=
  exists ft b, e = Sends [(ft, b)] /\ replies_to protocol corrID (ft, b).

Lemma error_answers protocol corrID code msg :
  answerable protocol corrID -> 1 <= code < 256 -> one_answer protocol corrID (sendBridgeError protocol corrID code msg).
Proof. intros Ha Hc. destruct (sendBridgeError_spec protocol corrID code msg Ha Hc) as [_ (b & ? & ?)]. by eexists _, _. Qed.

Section answers.
Context `{ErrorText errCarriageMalformed, ErrorText errJSONRPC, ErrorText errOpaqueContentType, ErrorText errGRPCMalformed, ErrorText errNewRequest}.
Context (p : Proxy).

Lemma http_answers frame :
  be_Protocol (bf_Envelope frame) = BridgeProtoHTTP2 ->
  answerable (be_Protocol (bf_Envelope frame)) (be_CorrelationID (bf_Envelope frame)) ->
  one_answer (be_Protocol (bf_Envelope frame)) (be_CorrelationID (bf_Envelope frame)) (handleInboundHTTPRequest p frame).
Proof.
  intros Hp Ha. unfold handleInboundHTTPRequest. rewrite Hp in *.
  repeat match goal with |- one_answer _ _ (match ?x with _ => _ end) => destruct x end; try (by apply error_answers).
  match goal with |- context [encodeHTTPCarriageResponse ?s ?h ?b] => set (obj2 := encodeHTTPCarriageResponse s h b) end.
  destruct (send_one_replies _ _ FrameBridgeResponse BridgeKindResponse BridgeContentCBOR 0 obj2 Ha)
    as (wire & -> & Hr & _); try done. by eexists _, _.
Qed.

Lemma opaque_answers frame :
  answerable (be_Protocol (bf_Envelope frame)) (be_CorrelationID (bf_Envelope frame)) ->
  one_answer (be_Protocol (bf_Envelope frame)) (be_CorrelationID (bf_Envelope frame)) (handleInboundOpaqueRequest p frame).
Proof.
  intros Ha. unfold handleInboundOpaqueRequest. set (c := be_CorrelationID _) in *. set (pr := be_Protocol _) in *.
  destruct (px_OpaqueHandler p) as [handler|]; [|by apply error_answers].
  destruct (decodeOpaquePayload _ _) as [[mt raw]|]; [|by apply error_answers].
  destruct (handler mt raw) as [|[mt' resp]]; [by apply error_answers|].
  assert (forall ct, is_u8 ct -> sendable FrameBridgeResponse (with_content (mkEnvelope pr BridgeKindResponse 0 0 c []) ct)) as Hs
    by (intros ct Hct; by apply (answer_sendable pr c FrameBridgeResponse BridgeKindResponse ct 0 Ha)).
  unfold encodeOpaquePayload. destruct (mediaTypeToContentType mt') as [ct|] eqn:Hm.
  - apply media_types in Hm as (_ & Hu & _). destruct (encode_sendable _ _ resp (Hs ct Hu)) as [b Hb]. rewrite Hb.
    exists FrameBridgeResponse, b. split; [done|].
    exists (with_content (mkEnvelope pr BridgeKindResponse 0 0 c []) ct), resp. split; [by apply Hs|done].
  - case_bool_decide; [by apply error_answers|]. destruct (has_nul mt'); [by apply error_answers|].
    destruct (negb _); [by apply error_answers|]. pose proof (Hs opaqueContentTypeDiscriminator ltac:(done)) as Hs4.
    destruct (encode_sendable _ _ [] Hs4) as [e He]. rewrite He. cbn [mbind option_bind]. eexists _, _. split; [done|].
    eexists _, _. split; [exact Hs4|]. split; [by apply opaque_payload|done].
Qed.

(** The only request that gets no answer: its handler's result is not JSON. *)
Definition unmarshallable (frame : BridgeFrame) : Prop :=
  exists handler obj, px_JSONRPCHandler p = Some handler /\ decodeJSONRPCRequestOrNotification (bf_Foreign frame) false = Ok obj /\
    match handler (be_Protocol (bf_Envelope frame)) (jp_Method obj) (jsonrpcParams (jp_Raw obj)) with
    | RPCFailed _ => False
    | RPCError e => error_object (jp_ID obj) e = None
    | RPCResult r => success_object (jp_ID obj) r = None
    end.

Lemma jsonrpc_answers frame :
  answerable (be_Protocol (bf_Envelope frame)) (be_CorrelationID (bf_Envelope frame)) ->
  one_answer (be_Protocol (bf_Envelope frame)) (be_CorrelationID (bf_Envelope frame)) (handleInboundJSONRPCRequest p frame) \/
  (handleInboundJSONRPCRequest p frame = Sends [] /\ unmarshallable frame).
Proof.
  intros Ha. unfold handleInboundJSONRPCRequest, unmarshallable. set (c := be_CorrelationID _) in *. set (pr := be_Protocol _) in *.
  destruct (px_JSONRPCHandler p) as [handler|]; [|left; by apply error_answers].
  destruct (decodeJSONRPCRequestOrNotification _ _) as [obj|] eqn:Hd; [|left; by apply error_answers].
  destruct (negb _); [left; by apply error_answers|].
  destruct (handler _ _ _) as [t|e|r] eqn:Hh; [left; by apply error_answers|..].
  - unfold sendJSONRPCErrorResponse. destruct (error_object (jp_ID obj) e) as [wire|] eqn:Ho.
    + left. destruct (send_one_replies pr c FrameBridgeError BridgeKindError BridgeContentJSON 0 wire Ha) as (b & Hb & Hr & _); try done.
      by exists FrameBridgeError, b.
    + right. split; [done|]. exists handler, obj. by rewrite Hh.
  - unfold sendJSONRPCSuccessResponse. destruct (success_object (jp_ID obj) r) as [wire|] eqn:Ho.
    + left. destruct (send_one_replies pr c FrameBridgeResponse BridgeKindResponse BridgeContentJSON 0 wire Ha) as (b & Hb & Hr & _); try done.
      by exists FrameBridgeResponse, b.
    + right. split; [done|]. exists handler, obj. by rewrite Hh.
Qed.

(** The producer's frames all answer the request; the last one ends the stream unless a
    send failed. *)
Lemma emit_answers obs protocol ct corrID i events :
  answerable protocol corrID -> is_u8 ct ->
  exists frames, emit obs protocol ct corrID i events = Sends frames /\ Forall (replies_to protocol corrID) frames /\
    ((exists j, send_ok obs j = false) \/ exists b, last frames = Some (FrameBridgeStreamEnd, b)).
Proof.
  intros Ha Hct.
  assert (forall i flags, is_u8 flags -> exists b, send_one FrameBridgeStreamEnd (encodeStreamFrame
      (mkEnvelope protocol BridgeKindStreamEnd ct BridgeFlagFinal corrID []) (mkControl streamControlData flags (u64 (Z.of_nat i))) [])
      = Sends [(FrameBridgeStreamEnd, b)] /\ replies_to protocol corrID (FrameBridgeStreamEnd, b)) as Hend.
  { intros j flags Hf. destruct (send_one_replies protocol corrID FrameBridgeStreamEnd BridgeKindStreamEnd ct BridgeFlagFinal
      (stream_foreign (mkControl streamControlData flags (u64 (Z.of_nat j))) []) Ha) as (b & Hb & Hr & _); try done. by exists b. }
  revert i. induction events as [|ev events IH]; intros i; cbn [emit].
  - destruct (Hend i (if cancelled obs i then streamFlagCancelAck else 0)) as (b & -> & Hr); [by destruct (cancelled obs i)|].
    exists [(FrameBridgeStreamEnd, b)]. split; [done|]. split; [by apply Forall_singleton|]. right. by exists b.
  - destruct (cancelled obs i).
    { destruct (Hend i streamFlagCancelAck) as (b & -> & Hr); [done|]. exists [(FrameBridgeStreamEnd, b)].
      split; [done|]. split; [by apply Forall_singleton|]. right. by exists b. }
    pose proof (answer_sendable protocol corrID FrameBridgeStreamData BridgeKindStreamData ct 0 Ha) as Hs.
    specialize (Hs ltac:(done) ltac:(done) ltac:(done) Hct ltac:(done)).
    destruct (encode_sendable _ _ (stream_foreign (mkControl streamControlData 0 (u64 (Z.of_nat i))) ev) Hs) as [b Hb].
    unfold encodeStreamFrame. rewrite Hb. destruct (send_ok obs i) eqn:Hok.
    + destruct (IH (S i)) as (frames & -> & Hf & Hl). exists ((FrameBridgeStreamData, b) :: frames). split; [done|].
      split; [constructor; [by eexists _, _|done]|]. destruct Hl as [?|(e & He)]; [by left|]. right. exists e. by destruct frames.
    + exists []. split; [done|]. split; [done|]. left. by exists i.
Qed.

Lemma stream_answers obs frame class :
  answerable (be_Protocol (bf_Envelope frame)) (be_CorrelationID (bf_Envelope frame)) ->
  exists frames, handleInboundStreamRequest p obs frame class = Sends frames /\
    Forall (replies_to (be_Protocol (bf_Envelope frame)) (be_CorrelationID (bf_Envelope frame))) frames /\
    (frames = [] -> exists j, send_ok obs j = false).
Proof.
  intros Ha. unfold handleInboundStreamRequest. set (c := be_CorrelationID _) in *. set (pr := be_Protocol _) in *.
  assert (forall code msg, 1 <= code < 256 -> exists frames, sendBridgeError pr c code msg = Sends frames /\
    Forall (replies_to pr c) frames /\ (frames = [] -> exists j, send_ok obs j = false)) as Herr.
  { intros code msg Hc. destruct (error_answers pr c code msg Ha Hc) as (ft & b & -> & Hr). exists [(ft, b)].
    split; [done|]. split; [by apply Forall_singleton|done]. }
  destruct (is_resume _); [by apply Herr|]. destruct (stream_events p class frame) as [events|[code msg]] eqn:Hev.
  - destruct (emit_answers obs pr (streamContentType class) c 1 events Ha) as (frames & -> & Hf & Hl); [by destruct class|].
    exists frames. split; [done|]. split; [done|]. intros ->. by destruct Hl as [|(b & ?)].
  - apply Herr. unfold stream_events in Hev. destruct class.
    + destruct (px_GRPCHandler p) as [handler|]; [|by injection Hev as <- <-].
      destruct (decodeGRPCLengthPrefixedMessage _) as [[? m]|]; [|by injection Hev as <- <-]. destruct (handler _ m); [by injection Hev as <- <-|done].
    + destruct (px_WebSocketHandler p) as [handler|]; [|by injection Hev as <- <-]. destruct (handler _); [by injection Hev as <- <-|done].
Qed.

(** C17: what happens to a request the Bridge decoder accepts, whatever it carries: no
    handler panics, every frame sent in answer is well formed for its type and carries the
    request's protocol and correlation id, and at least one frame is sent unless the
    connection fails or a JSON-RPC handler returns a result that is not JSON.  A request
    that does not decode is not answered at all. *)
Theorem request_answered (obs : observed) (payload : bytes) :
  match DecodeBridgeFrame FrameBridgeRequest payload with
  | Err _ => handleInboundBridgeRequest p obs payload = Sends []
  | Ok frame =>
      let env := bf_Envelope frame in
      exists frames, handleInboundBridgeRequest p obs payload = Sends frames /\
        Forall (replies_to (be_Protocol env) (be_CorrelationID env)) frames /\
        (frames = [] -> (exists j, send_ok obs j = false) \/ (route_of p (be_Protocol env) = ToJSONRPC /\ unmarshallable frame))
  end.
Proof.
  unfold handleInboundBridgeRequest. destruct (DecodeBridgeFrame _ _) as [frame|] eqn:Hd; [|done].
  pose proof (decoded_answerable _ _ Hd) as Ha. cbv zeta.
  assert (forall e, one_answer (be_Protocol (bf_Envelope frame)) (be_CorrelationID (bf_Envelope frame)) e -> exists frames, e = Sends frames /\
    Forall (replies_to (be_Protocol (bf_Envelope frame)) (be_CorrelationID (bf_Envelope frame))) frames /\
    (frames = [] -> (exists j, send_ok obs j = false) \/ (route_of p (be_Protocol (bf_Envelope frame)) = ToJSONRPC /\ unmarshallable frame))) as Hone.
  { intros e (ft & b & -> & Hr). exists [(ft, b)]. split; [done|]. split; [by apply Forall_singleton|done]. }
  destruct (route_of p _) as [| |class| |] eqn:Hr.
  - apply Hone, http_answers; [|done]. unfold route_of in Hr. destruct (Z.eqb_spec (be_Protocol (bf_Envelope frame)) BridgeProtoHTTP2) as [E|E]; [done|].
    by repeat case_match.
  - destruct (jsonrpc_answers frame Ha) as [Hj|[-> Hj]]; [by apply Hone|]. exists []. split; [done|]. split; [done|]. intros _. by right.
  - destruct (stream_answers obs frame class Ha) as (frames & -> & Hf & Hn). exists frames. split; [done|]. split; [done|].
    intros E. left. by apply Hn.
  - by apply Hone, opaque_answers.
  - by apply Hone, error_answers.
Qed.

(** A request for something the proxy does not carry is refused, not dropped: a protocol
    id outside the routing table gets one BRIDGE_ERROR with ProtocolUnsupported, a routed
    protocol without a local backend gets MethodUnsupported (a resume request on a stream
    protocol is refused as NotResumable first), each under the request's protocol and
    correlation id. *)
Theorem unsupported_refused (obs : observed) (payload : bytes) (frame : BridgeFrame)
    (Hd : DecodeBridgeFrame FrameBridgeRequest payload = Ok frame) :
  let env := bf_Envelope frame in
  let out := handleInboundBridgeRequest p obs payload in
  let refused code := refusal (be_Protocol env) (be_CorrelationID env) code out in
  match route_of p (be_Protocol env) with
  | Unsupported => refused BridgeErrProtocolUnsupported
  | ToHTTP => px_Backend p = None -> refused BridgeErrMethodUnsupported
  | ToJSONRPC => px_JSONRPCHandler p = None -> refused BridgeErrMethodUnsupported
  | ToOpaque => px_OpaqueHandler p = None -> refused BridgeErrMethodUnsupported
  | ToStream class =>
      if is_resume (bf_Foreign frame) then refused BridgeErrNotResumable
      else match class with grpcStreamClass => px_GRPCHandler p = None | websocketStreamClass => px_WebSocketHandler p = None end ->
           refused BridgeErrMethodUnsupported
  end.
Proof.
  cbv zeta. pose proof (decoded_answerable _ _ Hd) as Ha. unfold handleInboundBridgeRequest. rewrite Hd.
  assert (forall code msg, 1 <= code < 256 -> refusal (be_Protocol (bf_Envelope frame)) (be_CorrelationID (bf_Envelope frame)) code
    (sendBridgeError (be_Protocol (bf_Envelope frame)) (be_CorrelationID (bf_Envelope frame)) code msg)) as Herr
    by (intros code msg Hc; by apply sendBridgeError_spec).
  destruct (route_of p _) as [| |class| |] eqn:Hr.
  - intros Hn. unfold handleInboundHTTPRequest. rewrite Hn.
    assert (be_Protocol (bf_Envelope frame) = BridgeProtoHTTP2) as <-; [|by apply Herr].
    unfold route_of in Hr. destruct (Z.eqb_spec (be_Protocol (bf_Envelope frame)) BridgeProtoHTTP2) as [E|E]; [done|]. by repeat case_match.
  - intros Hn. unfold handleInboundJSONRPCRequest. rewrite Hn. by apply Herr.
  - unfold handleInboundStreamRequest. destruct (is_resume _); [by apply Herr|]. intros Hn. unfold stream_events.
    destruct class; rewrite Hn; by apply Herr.
  - intros Hn. unfold handleInboundOpaqueRequest. rewrite Hn. by apply Herr.
  - by apply Herr.
Qed.
End answers.
