(* ===== verification/Proxy.v ===== *)
(** * The proxy: calls, waiters and the receive loop
      (proxy/proxy.go, jsonrpc.go, opaque.go, stream.go, grpc.go, websocket.go)

    A call registers the channel it waits on under its correlation id and sends one
    BRIDGE_REQUEST; the receive loop hands a reply to the channel registered under its
    correlation id and removes the entry; stream chunks go to a channel of capacity 32 and
    are dropped when it is full.  Maps, channels and cancel flags are one shared store with
    addresses, so that an entry overwritten or removed by another call is seen here as in
    the source.  [step] interleaves the loop with any number of calls. *)

From S2P Require Import Prelude Errors Registry Cbor Tlv Bridge CarriageHttp CarriageStream Json CarriageJson ProxyEgress.
From Stdlib Require Import Strings.Byte.
From stdpp Require Import gmap relations.
Open Scope Z_scope.

(** ** Data *)

(** The [err] field of the source is never set. *)
Record pendingReply : Type := mkReply { pr_ft : Z; pr_env : BridgeEnvelope; pr_foreign : bytes }.

#[export] Instance BridgeEnvelope_eq_dec : EqDecision BridgeEnvelope.
Proof. solve_decision. Defined.
#[export] Instance pendingReply_eq_dec : EqDecision pendingReply.
Proof. solve_decision. Defined.

Record streamChunk : Type := mkChunk {
  ck_ft : Z;
  ck_data : result errStreamMalformed (streamControl * bytes)
}.

Abbreviation addr := nat.

(** The shared state: the three maps of [Proxy], and the channels and flags they point to. *)
Record state : Type := mkState {
  st_pending : gmap bytes addr;
  st_streamPending : gmap bytes addr;
  st_streamCancel : gmap bytes addr;
  st_replies : gmap addr (list pendingReply);     (* capacity 1 *)
  st_chunks : gmap addr (list streamChunk);       (* capacity 32 *)
  st_flags : gmap addr bool;
  st_next : addr
}.

Definition init : state := mkState ∅ ∅ ∅ ∅ ∅ ∅ 0.

(** The other half of [Proxy.init]: a stdio backend becomes the JSON-RPC handler pair when
    the proxy has neither handler. *)
Definition init_handlers (stdioCall : option (Z -> bytes -> option bytes -> rpc_outcome)) (p : Proxy) : Proxy :=
  match stdioCall, px_JSONRPCHandler p, px_JSONRPCNotifyHandler p with
  | Some call, None, false =>
      mkProxy (px_Backend p) (Some call) true (px_GRPCHandler p) (px_WebSocketHandler p) (px_OpaqueProtocolID p) (px_OpaqueHandler p)
  | _, _, _ => p
  end.

Definition streamBuffer : nat := 32.

(** ** The receive loop *)

(** [None]: the send on the reply channel blocks, and the loop with it. *)
Definition deliverReply (st : state) (ft : Z) (payload : bytes) : option state :=
  match DecodeBridgeFrame ft payload with
  | Err _ => Some st
  | Ok frame =>
      let key := be_CorrelationID (bf_Envelope frame) in
      match st_pending st !! key with
      | None => Some st
      | Some waiter =>
          let pending := delete key (st_pending st) in
          match st_replies st !! waiter with
          | Some [] =>
              Some (mkState pending (st_streamPending st) (st_streamCancel st)
                (<[waiter := [mkReply ft (bf_Envelope frame) (bf_Foreign frame)]]> (st_replies st))
                (st_chunks st) (st_flags st) (st_next st))
          | _ => None
          end
      end
  end.

(** The non-blocking send of a chunk. *)
Definition push_chunk (buffer : list streamChunk) (c : streamChunk) : list streamChunk :=
  if decide (length buffer < streamBuffer)%nat then buffer ++ [c] else buffer.

Definition handleInboundStreamFrame (st : state) (ft : Z) (payload : bytes) : state :=
  match DecodeBridgeFrame ft payload with
  | Err _ => st
  | Ok frame =>
      let key := be_CorrelationID (bf_Envelope frame) in
      let control := decodeLeadingStreamControl (bf_Foreign frame) in
      match st_streamPending st !! key, st_streamCancel st !! key with
      | Some waiter, _ =>
          mkState (st_pending st) (st_streamPending st) (st_streamCancel st) (st_replies st)
            (alter (fun buffer => push_chunk buffer (mkChunk ft control)) waiter (st_chunks st)) (st_flags st) (st_next st)
      | None, Some flag =>
          match control with
          | Ok (sc, _) =>
              if (ft =? FrameBridgeStreamEnd) && (sc_Control sc =? streamControlCancel) then
                mkState (st_pending st) (st_streamPending st) (st_streamCancel st) (st_replies st) (st_chunks st)
                  (<[flag := true]> (st_flags st)) (st_next st)
              else st
          | Err _ => st
          end
      | None, None => st
      end
  end.

(** One iteration of [Run] on a received frame; requests and notifications start a goroutine
    of their own ([handleInboundBridgeRequest], [handleInboundNotify]) and change nothing
    here. *)
Definition Run_frame (st : state) (ch ft : Z) (payload : bytes) : option state :=
  if negb (ch =? ChanBridge) then Some st
  else if (ft =? FrameBridgeResponse) || (ft =? FrameBridgeError) then deliverReply st ft payload
  else if (ft =? FrameBridgeStreamData) || (ft =? FrameBridgeStreamEnd) then Some (handleInboundStreamFrame st ft payload)
  else Some st.

(** ** Calls *)

Inductive request : Type :=
| ServeHTTP (method path rawQuery : bytes) (h : Header) (body : option bytes)   (* None: reading the body failed *)
| CallJSONRPC (protocol : Z) (method : bytes) (params : option marshalled) (id : marshalled)
| CallOpaque (mediaType raw : bytes)
| CallGRPCUnary (method req : bytes)
| CallWebSocketMessage (msg : bytes).

(** The locals of a waiting call. *)
Record call : Type := mkCall {
  c_req : request;
  c_key : bytes;
  c_replyCh : addr;
  c_dataCh : option addr
}.

Inductive call_error : Type :=
| ErrNoConn
| ErrOpaqueProtocolIDUnset
| errBody
| errRand
| errJSON (e : errJSONRPC)
| errOpaque (e : errOpaqueContentType)
| errCollision
| errSend.

(** [register] and its undoing: the [cleanup] closures of the source. *)
Definition register (st : state) (key : bytes) (stream : bool) : state * addr * option addr :=
  let replyCh := st_next st in
  let dataCh := S (st_next st) in
  (mkState (<[key := replyCh]> (st_pending st))
     (if stream then <[key := dataCh]> (st_streamPending st) else st_streamPending st) (st_streamCancel st)
     (<[replyCh := []]> (st_replies st))
     (if stream then <[dataCh := []]> (st_chunks st) else st_chunks st) (st_flags st) (S (S (st_next st))),
   replyCh, if stream then Some dataCh else None).

Definition cleanup (st : state) (key : bytes) (stream : bool) : state :=
  mkState (delete key (st_pending st)) (if stream then delete key (st_streamPending st) else st_streamPending st)
    (st_streamCancel st) (st_replies st) (st_chunks st) (st_flags st) (st_next st).

Inductive started : Type :=
| Waiting (c : call) (payload : bytes)
| Refused (e : call_error)
| Crashed.     (* the envelope encoder panicked *)

(** Register, encode, send: the order of [ServeHTTP], [CallJSONRPC] and
    [openConsumerStream].  A panic leaves the entry behind. *)
Definition open_call (st : state) (req : request) (key : bytes) (stream : bool) (wire : option bytes) (sendOK : bool)
    : started * state :=
  let '(st1, replyCh, dataCh) := register st key stream in
  match wire with
  | None => (Crashed, st1)
  | Some payload =>
      if sendOK then (Waiting (mkCall req key replyCh dataCh) payload, st1)
      else (Refused errSend, cleanup st1 key stream)
  end.

Definition http_target (path rawQuery : bytes) : bytes :=
  match rawQuery with [] => path | q => path ++ str "?" ++ q end.

Section start.
Context (p : Proxy) (connected : bool).

(** The head of each call up to its wait.  [rnd] is what [newCorrelationID] draws and
    [sendOK] whether [Conn.Send] succeeds. *)
Definition start_http (st : state) (rnd : option bytes) (sendOK : bool) (method path rawQuery : bytes) (h : Header)
    (body : option bytes) : started * state :=
  match body, rnd with
  | None, _ => (Refused errBody, st)
  | _, None => (Refused errRand, st)
  | Some b, Some corrID =>
      let target := http_target path rawQuery in
      let env := mkEnvelope BridgeProtoHTTP2 BridgeKindRequest BridgeContentCBOR 0 corrID (method ++ str " " ++ target) in
      open_call st (ServeHTTP method path rawQuery h body) corrID false
        (EncodeBridgePayload env None (encodeHTTPCarriageRequest method target h b)) sendOK
  end.

Definition start_jsonrpc (st : state) (rnd : option bytes) (sendOK : bool) (protocol : Z) (method : bytes)
    (params : option marshalled) (id : marshalled) : started * state :=
  match encodeJSONRPCRequest rnd method params id with
  | Err e => (Refused (errJSON e), st)
  | Ok (wire, corrID) =>
      if present (st_pending st !! corrID) then (Refused errCollision, st)
      else open_call st (CallJSONRPC protocol method params id) corrID false
             (EncodeBridgePayload (jsonrpcEnvelope protocol BridgeKindRequest corrID method) None wire) sendOK
  end.

Definition start_opaque (st : state) (rnd : option bytes) (sendOK : bool) (mediaType raw : bytes) : started * state :=
  if px_OpaqueProtocolID p =? 0 then (Refused ErrOpaqueProtocolIDUnset, st)
  else match rnd with
       | None => (Refused errRand, st)
       | Some corrID =>
           match encodeOpaquePayload (mkEnvelope (px_OpaqueProtocolID p) BridgeKindRequest 0 0 corrID []) mediaType raw with
           | None => (Crashed, st)
           | Some (Err e) => (Refused (errOpaque e), st)
           | Some (Ok wire) => open_call st (CallOpaque mediaType raw) corrID false (Some wire) sendOK
           end
       end.

Definition openConsumerStream (st : state) (rnd : option bytes) (sendOK : bool) (req : request) (protocol contentType : Z)
    (method event : bytes) : started * state :=
  match rnd with
  | None => (Refused errRand, st)
  | Some corrID =>
      open_call st req corrID true
        (EncodeBridgePayload (mkEnvelope protocol BridgeKindRequest contentType 0 corrID method) None event) sendOK
  end.

Definition start_grpc (st : state) (rnd : option bytes) (sendOK : bool) (method req : bytes) : started * state :=
  let frame := encodeGRPCLengthPrefixedMessage false req in
  openConsumerStream st rnd sendOK (CallGRPCUnary method req) grpcProtocolID BridgeContentGRPCProto method frame.

Definition start_websocket (st : state) (rnd : option bytes) (sendOK : bool) (msg : bytes) : started * state :=
  openConsumerStream st rnd sendOK (CallWebSocketMessage msg) BridgeProtoWebSocket (streamContentType websocketStreamClass) [] msg.

Definition start (st : state) (rnd : option bytes) (sendOK : bool) (req : request) : started * state :=
  if negb connected then (Refused ErrNoConn, st)
  else
    match req with
    | ServeHTTP method path rawQuery h body => start_http st rnd sendOK method path rawQuery h body
    | CallJSONRPC protocol method params id => start_jsonrpc st rnd sendOK protocol method params id
    | CallOpaque mediaType raw => start_opaque st rnd sendOK mediaType raw
    | CallGRPCUnary method req => start_grpc st rnd sendOK method req
    | CallWebSocketMessage msg => start_websocket st rnd sendOK msg
    end.

(** [SendJSONRPCNotification]: one frame, no waiter.  [None] is a panic. *)
Definition SendJSONRPCNotification (protocol : Z) (method : bytes) (params : option marshalled) : option (result call_error bytes) :=
  if negb connected then Some (Err ErrNoConn)
  else match encodeJSONRPCNotification method params with
       | Err e => Some (Err (errJSON e))
       | Ok wire => Ok <$> EncodeBridgePayload (jsonrpcEnvelope protocol BridgeKindNotification [] method) None wire
       end.
End start.

(** ** Replies *)

Inductive reply_error : Type :=
| malformedBridgeError (e : error)
| peerReported (code : Z) (message : bytes)
| httpObject (e : errCarriageMalformed)
| jsonObject (e : errJSONRPC)
| opaqueObject (e : errOpaqueContentType)
| streamObject (e : errStreamMalformed)
| grpcMessage (e : errGRPCMalformed)
| replyCount (n : Z).

Definition decodeTransportErrorReply (foreign : bytes) : reply_error :=
  match DecodeBridgeTransportError foreign with
  | Err e => malformedBridgeError e
  | Ok te => peerReported (bt_Code te) (bt_Message te)
  end.

(** What [ServeHTTP] writes: a status, the added header fields and the body; every failure
    is a 502. *)
Definition http_reply (reply : pendingReply) : result reply_error (Z * list headerKV * bytes) :=
  if pr_ft reply =? FrameBridgeError then Err (decodeTransportErrorReply (pr_foreign reply))
  else match decodeHTTPCarriageObject (pr_foreign reply) httpKindResponse with
       | Err e => Err (httpObject e)
       | Ok obj => Ok (ho_Status obj, ho_Headers obj, ho_Body obj)
       end.

(** A result, or a foreign JSON-RPC error. *)
Definition decodeJSONRPCReply (reply : pendingReply) : result reply_error (option bytes + JSONRPCError) :=
  if pr_ft reply =? FrameBridgeError then
    if be_ContentType (pr_env reply) =? BridgeContentJSON then
      match decodeJSONRPCErrorResponse (pr_foreign reply) with
      | Err e => Err (jsonObject e)
      | Ok obj => match jp_Error obj ≫= unmarshal_rpc_error with
                  | Some je => Ok (inr je)
                  | None => Err (jsonObject badErrorObject)
                  end
      end
    else Err (decodeTransportErrorReply (pr_foreign reply))
  else match decodeJSONRPCSuccessResponse (pr_foreign reply) with
       | Err e => Err (jsonObject e)
       | Ok obj => Ok (inl (jp_Result obj))
       end.

Definition decodeOpaqueReply (reply : pendingReply) : result reply_error (bytes * bytes) :=
  if pr_ft reply =? FrameBridgeError then Err (decodeTransportErrorReply (pr_foreign reply))
  else map_err opaqueObject (decodeOpaquePayload (pr_env reply) (pr_foreign reply)).

Definition decodeStreamOpenErrorReply (reply : pendingReply) : reply_error := decodeTransportErrorReply (pr_foreign reply).

(** ** Collecting a stream *)

(** The loop of [collectStream] between two receives: tracker and events so far. *)
Inductive collected : Type :=
| Collecting (t : streamEventTracker) (events : list bytes)
| Collected (events : list bytes)
| CollectFailed (e : reply_error).

Definition collect_chunk (s : collected) (chunk : streamChunk) : collected :=
  match s with
  | Collecting t events =>
      match ck_data chunk with
      | Err e => CollectFailed (streamObject e)
      | Ok (sc, event) =>
          match accept t (sc_EventID sc) with
          | Err e => CollectFailed (streamObject e)
          | Ok t' => if ck_ft chunk =? FrameBridgeStreamEnd then Collected events else Collecting t' (events ++ [event])
          end
      end
  | _ => s
  end.

Definition collectStream (chunks : list streamChunk) : collected := fold_left collect_chunk chunks (Collecting None []).

Definition grpc_result (c : collected) : option (result reply_error bytes) :=
  match c with
  | Collecting _ _ => None
  | CollectFailed e => Some (Err e)
  | Collected events =>
      match events with
      | [ev] => match decodeGRPCLengthPrefixedMessage ev with
                | Ok (_, msg) => Some (Ok msg)
                | Err e => Some (Err (grpcMessage e))
                end
      | _ => Some (Err (replyCount (blen events)))
      end
  end.

(** ** Interleavings *)

Definition is_stream (c : call) : bool := match c_dataCh c with Some _ => true | None => false end.

(** Taking the buffered reply out of a channel. *)
Definition take_reply (st : state) (ch : addr) : state :=
  mkState (st_pending st) (st_streamPending st) (st_streamCancel st) (<[ch := []]> (st_replies st)) (st_chunks st) (st_flags st) (st_next st).

Definition take_chunk (st : state) (ch : addr) (rest : list streamChunk) : state :=
  mkState (st_pending st) (st_streamPending st) (st_streamCancel st) (st_replies st) (<[ch := rest]> (st_chunks st)) (st_flags st) (st_next st).

(** The registration of a producer's cancel flag and its removal. *)
Definition open_cancel (st : state) (key : bytes) : state :=
  mkState (st_pending st) (st_streamPending st) (<[key := st_next st]> (st_streamCancel st)) (st_replies st) (st_chunks st)
    (<[st_next st := false]> (st_flags st)) (S (st_next st)).

Definition close_cancel (st : state) (key : bytes) : state :=
  mkState (st_pending st) (st_streamPending st) (delete key (st_streamCancel st)) (st_replies st) (st_chunks st) (st_flags st) (st_next st).

(** The correlation id a call would register under. *)
Definition drawn_key (rnd : option bytes) (req : request) : option bytes :=
  match req with
  | CallJSONRPC _ method params id =>
      match encodeJSONRPCRequest rnd method params id with Ok (_, corrID) => Some corrID | Err _ => None end
  | _ => rnd
  end.

(** One step of the proxy with its live calls, labelled with the correlation id of a
    starting call. *)
Inductive step (p : Proxy) : option bytes -> state * list call -> state * list call -> Prop :=
| step_receive st calls ch ft payload st' :
    Run_frame st ch ft payload = Some st' -> step p None (st, calls) (st', calls)
| step_start st calls connected rnd sendOK req c payload st' :
    start p connected st rnd sendOK req = (Waiting c payload, st') -> step p (drawn_key rnd req) (st, calls) (st', c :: calls)
| step_no_start st calls connected rnd sendOK req o st' :
    start p connected st rnd sendOK req = (o, st') -> (forall c payload, o <> Waiting c payload) ->
    step p (drawn_key rnd req) (st, calls) (st', calls)
| step_reply st calls1 c calls2 r :
    st_replies st !! c_replyCh c = Some [r] ->
    step p None (st, calls1 ++ c :: calls2)
      (let st1 := take_reply st (c_replyCh c) in if is_stream c then cleanup st1 (c_key c) true else st1, calls1 ++ calls2)
| step_chunk st calls c ch k rest :
    c ∈ calls -> c_dataCh c = Some ch -> st_chunks st !! ch = Some (k :: rest) -> step p None (st, calls) (take_chunk st ch rest, calls)
| step_done st calls1 c calls2 :
    (* the context is done, or a stream call has collected its end *)
    step p None (st, calls1 ++ c :: calls2) (cleanup st (c_key c) (is_stream c), calls1 ++ calls2)
| step_open_cancel st calls key : step p None (st, calls) (open_cancel st key, calls)
| step_close_cancel st calls key : step p None (st, calls) (close_cancel st key, calls).

Definition reachable (p : Proxy) (s : state * list call) : Prop := rtc (fun s s' => exists l, step p l s s') (init, []) s.

(** Runs in which no call starts under the correlation id of a live call: what sixteen
    random octets give with overwhelming probability, and what a caller of [CallJSONRPC]
    has to ensure for its ids. *)
Definition unique_reachable (p : Proxy) (s : state * list call) : Prop :=
  rtc (fun s s' => exists l, step p l s s' /\ forall k, l = Some k -> k ∉ map c_key s.2) (init, []) s.
