(* ===== verification/ProxyRuns.v ===== *)
(** * Runs of the proxy

    Invariants of every interleaving of the receive loop with the calls: the loop never
    blocks on a reply channel, a call is only ever given a reply with its own correlation
    id, and buffers stay within their capacity.  When live calls have distinct correlation
    ids, a reply for a live call reaches it. *)

From S2P Require Import Prelude Errors Registry Cbor Tlv Bridge CarriageHttp CarriageStream Json CarriageJson ProxyEgress Proxy.
From Stdlib Require Import Strings.Byte.
From stdpp Require Import gmap relations.
Open Scope Z_scope.

Record inv (s : state * list call) : Prop := {
  inv_pending k ch : st_pending s.1 !! k = Some ch -> st_replies s.1 !! ch = Some [];
  inv_inj k1 k2 ch : st_pending s.1 !! k1 = Some ch -> st_pending s.1 !! k2 = Some ch -> k1 = k2;
  inv_fresh ch l : st_replies s.1 !! ch = Some l -> (ch < st_next s.1)%nat;
  inv_alloc c : c ∈ s.2 -> is_Some (st_replies s.1 !! c_replyCh c);
  inv_owner c k : c ∈ s.2 -> st_pending s.1 !! k = Some (c_replyCh c) -> k = c_key c;
  inv_reply c r l : c ∈ s.2 -> st_replies s.1 !! c_replyCh c = Some (r :: l) -> be_CorrelationID (pr_env r) = c_key c;
  inv_one ch l : st_replies s.1 !! ch = Some l -> (length l <= 1)%nat;
  inv_chunks ch l : st_chunks s.1 !! ch = Some l -> (length l <= streamBuffer)%nat
}.

Lemma proxy_inv_init : inv (init, []).
Proof. constructor; cbn; intros *; rewrite ?lookup_empty; (done || by intros ?%elem_of_nil). Qed.

(** Removing entries and calls. *)
Lemma inv_weaken st st' calls calls' :
  inv (st, calls) -> st_pending st' ⊆ st_pending st -> st_replies st' = st_replies st -> st_chunks st' = st_chunks st ->
  (st_next st <= st_next st')%nat -> (forall c, c ∈ calls' -> c ∈ calls) -> inv (st', calls').
Proof.
  intros [H1 H2 H3 H4 H5 H6 H7 H8] Hp Hr Hc Hn Hsub. cbn in *.
  assert (forall k ch, st_pending st' !! k = Some ch -> st_pending st !! k = Some ch) as Hp' by (intros k ch Hk; by eapply lookup_weaken).
  constructor; cbn; rewrite ?Hr, ?Hc; eauto. intros ch l Hl. apply H3 in Hl. lia.
Qed.

Lemma deliver_inv st calls ft payload :
  inv (st, calls) -> exists st', deliverReply st ft payload = Some st' /\ inv (st', calls).
Proof.
  intros Hi. unfold deliverReply. destruct (DecodeBridgeFrame ft payload) as [frame|]; [|eauto].
  set (key := be_CorrelationID (bf_Envelope frame)). destruct (st_pending st !! key) as [w|] eqn:Hw; [|eauto].
  pose proof Hi as [H1 H2 H3 H4 H5 H6 H7 H8]. cbn in *. rewrite (H1 _ _ Hw). eexists. split; [done|].
  assert (forall k ch, delete key (st_pending st) !! k = Some ch -> k <> key /\ st_pending st !! k = Some ch /\ ch <> w) as Hd.
  { intros k ch Hk. apply lookup_delete_Some in Hk as [Hne Hk]. split_and!; [done|done|]. intros ->. apply Hne. symmetry. eauto. }
  constructor; cbn.
  - intros k ch Hk. apply Hd in Hk as (_ & Hk & Hne). rewrite lookup_insert_ne by done. eauto.
  - intros k1 k2 ch Hk1 Hk2. apply Hd in Hk1 as (_ & Hk1 & _). apply Hd in Hk2 as (_ & Hk2 & _). eauto.
  - intros ch l. destruct (decide (ch = w)) as [->|Hne]; [intros _; eauto|]. rewrite lookup_insert_ne by done. eauto.
  - intros c Hc. destruct (decide (c_replyCh c = w)) as [->|Hne]; [rewrite lookup_insert_eq; eauto|]. rewrite lookup_insert_ne by done. eauto.
  - intros c k Hc Hk. apply Hd in Hk as (_ & Hk & _). eauto.
  - intros c r l Hc. destruct (decide (c_replyCh c = w)) as [E|Hne].
    + rewrite E, lookup_insert_eq. intros [= <- <-]. cbn. apply (H5 c key Hc). by rewrite E.
    + rewrite lookup_insert_ne by done. eauto.
  - intros ch l. destruct (decide (ch = w)) as [->|Hne]; [rewrite lookup_insert_eq; by intros [= <-]|]. rewrite lookup_insert_ne by done. eauto.
  - done.
Qed.

Lemma stream_frame_inv st calls ft payload : inv (st, calls) -> inv (handleInboundStreamFrame st ft payload, calls).
Proof.
  intros Hi. unfold handleInboundStreamFrame. destruct (DecodeBridgeFrame ft payload) as [frame|]; [|done].
  destruct (st_streamPending st !! _) as [w|].
  - destruct Hi as [H1 H2 H3 H4 H5 H6 H7 H8]. constructor; cbn in *; try done. intros ch l.
    destruct (decide (ch = w)) as [->|Hne]; [|rewrite lookup_alter_ne by done; apply H8].
    rewrite lookup_alter_eq. destruct (st_chunks st !! w) as [b|] eqn:Hb; [|done]. intros [= <-]. apply H8 in Hb.
    unfold push_chunk. case_decide; [rewrite length_app; cbn; lia|done].
  - destruct (st_streamCancel st !! _) as [f|]; [|done]. destruct (decodeLeadingStreamControl _) as [[sc ev]|]; [|done].
    destruct (_ && _); [|done]. destruct Hi. by constructor.
Qed.

Lemma Run_frame_inv st calls ch ft payload :
  inv (st, calls) -> exists st', Run_frame st ch ft payload = Some st' /\ inv (st', calls).
Proof.
  intros Hi. unfold Run_frame. destruct (negb _); [eauto|]. destruct (_ || _); [by apply deliver_inv|].
  destruct (_ || _); [|eauto]. eexists. split; [done|]. by apply stream_frame_inv.
Qed.

(** A new call with fresh channels. *)
Lemma register_inv st calls key stream st1 replyCh dataCh req :
  inv (st, calls) -> register st key stream = (st1, replyCh, dataCh) ->
  inv (st1, mkCall req key replyCh dataCh :: calls) /\ inv (st1, calls) /\ st_pending st1 = <[key := replyCh]> (st_pending st) /\
  st_replies st1 = <[replyCh := []]> (st_replies st) /\ st_replies st !! replyCh = None.
Proof.
  intros [H1 H2 H3 H4 H5 H6 H7 H8] Hr. unfold register in Hr. injection Hr as <- <- <-. cbn in *.
  assert (st_replies st !! st_next st = None) as Hn.
  { destruct (st_replies st !! st_next st) eqn:E; [|done]. apply H3 in E. lia. }
  assert (forall k ch, st_pending st !! k = Some ch -> ch <> st_next st) as Hp by (intros k ch Hk ->; apply H1 in Hk; congruence).
  assert (forall c, c ∈ calls -> c_replyCh c <> st_next st) as Hc by (intros c Hc E; apply H4 in Hc as [x Hx]; rewrite E in Hx; congruence).
  set (c0 := mkCall req key (st_next st) (if stream then Some (S (st_next st)) else None)).
  assert (inv (mkState (<[key:=st_next st]> (st_pending st)) (if stream then <[key:=S (st_next st)]> (st_streamPending st) else st_streamPending st)
     (st_streamCancel st) (<[st_next st:=[]]> (st_replies st)) (if stream then <[S (st_next st):=[]]> (st_chunks st) else st_chunks st)
     (st_flags st) (S (S (st_next st))), c0 :: calls)) as Hi.
  { constructor; cbn.
    - intros k ch. rewrite lookup_insert_Some. intros [[<- <-]|[Hne Hk]]; [by rewrite lookup_insert_eq|].
      rewrite lookup_insert_ne by (intros E; by eapply Hp). eauto.
    - intros k1 k2 ch. rewrite !lookup_insert_Some. intros [[<- <-]|[Hne1 Hk1]] [[<- E]|[Hne2 Hk2]]; [done| | |eauto].
      + by apply Hp in Hk2.
      + subst ch. by apply Hp in Hk1.
    - intros ch l. rewrite lookup_insert_Some. intros [[<- _]|[_ Hl]]; [lia|]. apply H3 in Hl. lia.
    - intros c [->|Hin]%elem_of_cons; [cbn; rewrite lookup_insert_eq; eauto|]. rewrite lookup_insert_ne by (symmetry; by apply Hc). eauto.
    - intros c k [->|Hin]%elem_of_cons; rewrite lookup_insert_Some; cbn.
      + intros [[<- _]|[_ Hk]]; [done|]. by apply Hp in Hk.
      + intros [[_ E]|[_ Hk]]; [symmetry in E; by apply Hc in E|eauto].
    - intros c r l [->|Hin]%elem_of_cons; cbn; [by rewrite lookup_insert_eq|]. rewrite lookup_insert_ne by (symmetry; by apply Hc). eauto.
    - intros ch l. rewrite lookup_insert_Some. intros [[_ <-]|[_ Hl]]; [cbn; lia|eauto].
    - intros ch l. destruct stream; [|eauto]. rewrite lookup_insert_Some. intros [[_ <-]|[_ Hl]]; [cbn; lia|eauto]. }
  split_and!; [done| |done|done|done]. eapply inv_weaken; [exact Hi|done..|]. intros c Hin. by right.
Qed.

Lemma cleanup_inv st calls key stream : inv (st, calls) -> inv (cleanup st key stream, calls).
Proof. intros Hi. eapply inv_weaken; [exact Hi|apply delete_subseteq|done..]. Qed.

(** Starting a call, whatever comes of it. *)
Lemma open_call_inv st calls req key stream wire sendOK o st' :
  inv (st, calls) -> open_call st req key stream wire sendOK = (o, st') ->
  match o with Waiting c _ => inv (st', c :: calls) | _ => inv (st', calls) end.
Proof.
  intros Hi. unfold open_call. destruct (register st key stream) as [[st1 replyCh] dataCh] eqn:Hr.
  destruct (register_inv _ _ _ _ _ _ _ req Hi Hr) as (H1 & H2 & _). destruct wire as [payload|]; [|by intros [= <- <-]].
  destruct sendOK; intros [= <- <-]; [done|]. by apply cleanup_inv.
Qed.

Lemma start_inv p connected st calls rnd sendOK req o st' :
  inv (st, calls) -> start p connected st rnd sendOK req = (o, st') ->
  match o with Waiting c _ => inv (st', c :: calls) | _ => inv (st', calls) end.
Proof.
  intros Hi. unfold start, start_http, start_jsonrpc, start_opaque, start_grpc, start_websocket, openConsumerStream. destruct connected; cbn [negb]; [|by intros [= <- <-]].
  destruct req as [method path rawQuery h body|protocol method params id|mediaType raw|method reqMsg|msg].
  - destruct body; [|by intros [= <- <-]]. destruct rnd; [|by intros [= <- <-]]. by apply open_call_inv.
  - destruct (encodeJSONRPCRequest _ _ _ _) as [[wire corrID]|]; [|by intros [= <- <-]].
    destruct (present _); [by intros [= <- <-]|]. by apply open_call_inv.
  - destruct (_ =? 0); [by intros [= <- <-]|]. destruct rnd; [|by intros [= <- <-]].
    destruct (encodeOpaquePayload _ _ _) as [[wire|e]|]; [|by intros [= <- <-]..]. by apply open_call_inv.
  - destruct rnd; [|by intros [= <- <-]]. by apply open_call_inv.
  - destruct rnd; [|by intros [= <- <-]]. by apply open_call_inv.
Qed.

Lemma take_reply_inv st calls1 c calls2 :
  inv (st, calls1 ++ c :: calls2) -> inv (take_reply st (c_replyCh c), calls1 ++ calls2).
Proof.
  intros [H1 H2 H3 H4 H5 H6 H7 H8]. cbn in *.
  assert (forall c', c' ∈ calls1 ++ calls2 -> c' ∈ calls1 ++ c :: calls2) as Hsub by set_solver.
  assert (is_Some (st_replies st !! c_replyCh c)) as [x Hx] by (apply H4; set_solver).
  constructor; cbn.
  - intros k ch Hk. destruct (decide (ch = c_replyCh c)) as [->|Hne]; [by rewrite lookup_insert_eq|]. rewrite lookup_insert_ne by done. eauto.
  - eauto.
  - intros ch l. rewrite lookup_insert_Some. intros [[<- _]|[_ Hl]]; eauto.
  - intros c' Hc. destruct (decide (c_replyCh c' = c_replyCh c)) as [->|Hne]; [rewrite lookup_insert_eq; eauto|]. rewrite lookup_insert_ne by done. eauto.
  - eauto.
  - intros c' r l Hc. rewrite lookup_insert_Some. intros [[_ ?]|[_ Hl]]; [done|eauto].
  - intros ch l. rewrite lookup_insert_Some. intros [[_ <-]|[_ Hl]]; [cbn; lia|eauto].
  - eauto.
Qed.

Lemma proxy_step_inv p l s s' : inv s -> step p l s s' -> inv s'.
Proof.
  intros Hi Hs. destruct Hs as [st calls ch ft payload st' Hr|st calls connected rnd sendOK req c payload st' Hr
    |st calls connected rnd sendOK req o st' Hr Ho|st calls1 c calls2 r Hr|st calls c ch k rest Hc Hd Hr|st calls1 c calls2|st calls key|st calls key].
  - destruct (Run_frame_inv st calls ch ft payload Hi) as (st2 & Hr2 & Hi2). congruence.
  - exact (start_inv _ _ _ _ _ _ _ _ _ Hi Hr).
  - pose proof (start_inv _ _ _ _ _ _ _ _ _ Hi Hr) as Hi'. destruct o as [c payload| |]; [by destruct (Ho c payload)|done..].
  - apply take_reply_inv in Hi. cbv zeta. destruct (is_stream c); [by apply cleanup_inv|done].
  - destruct Hi as [H1 H2 H3 H4 H5 H6 H7 H8]. constructor; cbn in *; try done. intros ch' l'. rewrite lookup_insert_Some.
    intros [[<- <-]|[_ Hl]]; [|eauto]. apply H8 in Hr. cbn in Hr. lia.
  - eapply cleanup_inv, inv_weaken; [exact Hi|done..|]. set_solver.
  - eapply inv_weaken; [exact Hi|done..| |done]. cbn. lia.
  - by eapply inv_weaken.
Qed.

Lemma proxy_reachable_inv p s : reachable p s -> inv s.
Proof. apply (rtc_ind_r inv); [apply proxy_inv_init|]. intros s1 s2 _ [l Hs] Hi. by eapply proxy_step_inv. Qed.

(** C16: in every interleaving of the receive loop with any calls, successful, failed,
    crashed, timed out or cancelled, the loop never blocks on a reply channel; what a live
    call finds in its channel is at most one reply, and it carries the call's own
    correlation id; no stream buffer exceeds its capacity. *)
Theorem proxy_safe (p : Proxy) (st : state) (calls : list call) (Hr : reachable p (st, calls)) :
  (forall ch ft payload, is_Some (Run_frame st ch ft payload)) /\
  (forall c r l, c ∈ calls -> st_replies st !! c_replyCh c = Some (r :: l) -> l = [] /\ be_CorrelationID (pr_env r) = c_key c) /\
  (forall ch l, st_chunks st !! ch = Some l -> (length l <= streamBuffer)%nat).
Proof.
  apply proxy_reachable_inv in Hr as Hi. split_and!.
  - intros ch ft payload. destruct (Run_frame_inv st calls ch ft payload Hi) as (st' & -> & _). eauto.
  - intros c r l Hc Hl. split; [|by eapply (inv_reply _ Hi)]. apply (inv_one _ Hi) in Hl. destruct l; [done|cbn in Hl; lia].
  - apply (inv_chunks _ Hi).
Qed.

(** ** Runs with distinct correlation ids *)

(** Every live call is registered or has its reply. *)
Record registered (s : state * list call) : Prop := {
  reg_keys : NoDup (map c_key s.2);
  reg_chans : NoDup (map c_replyCh s.2);
  reg_waits c : c ∈ s.2 -> st_pending s.1 !! c_key c = Some (c_replyCh c) \/ exists r, st_replies s.1 !! c_replyCh c = Some [r]
}.

(** Changes that leave the waiters of the remaining calls alone. *)
Lemma registered_keep st st' calls calls' :
  registered (st, calls) -> sublist calls' calls ->
  (forall c, c ∈ calls' -> st_pending st' !! c_key c = st_pending st !! c_key c \/ exists r, st_replies st' !! c_replyCh c = Some [r]) ->
  (forall c, c ∈ calls' -> st_replies st' !! c_replyCh c = st_replies st !! c_replyCh c \/ exists r, st_replies st' !! c_replyCh c = Some [r]) ->
  registered (st', calls').
Proof.
  intros [H1 H2 H3] Hsub Hp Hr. cbn in *. constructor; cbn.
  - eapply (sublist_NoDup _ (c_key <$> calls)); [exact H1|by apply fmap_sublist].
  - eapply (sublist_NoDup _ (c_replyCh <$> calls)); [exact H2|by apply fmap_sublist].
  - intros c Hc. destruct (Hp c Hc) as [->|?]; [|by right]. destruct (Hr c Hc) as [->|?]; [|by right].
    apply H3. by eapply elem_of_sublist.
Qed.

Lemma deliver_registered st calls ft payload st' :
  inv (st, calls) -> registered (st, calls) -> deliverReply st ft payload = Some st' -> registered (st', calls).
Proof.
  intros Hi Hreg. unfold deliverReply. destruct (DecodeBridgeFrame ft payload) as [frame|]; [|by intros [= <-]].
  set (key := be_CorrelationID (bf_Envelope frame)). destruct (st_pending st !! key) as [w|] eqn:Hw; [|by intros [= <-]].
  destruct (st_replies st !! w) as [[|]|]; try done. intros [= <-].
  apply (registered_keep st _ calls calls Hreg); [done|..]; cbn; intros c Hc.
  - destruct (decide (c_key c = key)) as [E|Hne]; [|left; by rewrite lookup_delete_ne].
    right. destruct (reg_waits _ Hreg c Hc) as [Hp|[r Hr]]; cbn in *.
    + rewrite E, Hw in Hp. injection Hp as ->. rewrite lookup_insert_eq. eauto.
    + destruct (decide (c_replyCh c = w)) as [->|Hne']; [rewrite lookup_insert_eq; eauto|]. rewrite lookup_insert_ne by done. eauto.
  - destruct (decide (c_replyCh c = w)) as [->|Hne]; [right; rewrite lookup_insert_eq; eauto|]. left. by rewrite lookup_insert_ne.
Qed.

Lemma stream_frame_tables st ft payload :
  st_pending (handleInboundStreamFrame st ft payload) = st_pending st /\ st_replies (handleInboundStreamFrame st ft payload) = st_replies st.
Proof. unfold handleInboundStreamFrame. by repeat case_match. Qed.

Lemma open_call_registered st calls req key stream wire sendOK o st' :
  inv (st, calls) -> registered (st, calls) -> key ∉ map c_key calls -> open_call st req key stream wire sendOK = (o, st') ->
  match o with Waiting c _ => registered (st', c :: calls) | _ => registered (st', calls) end.
Proof.
  intros Hi Hreg Hk. unfold open_call. destruct (register st key stream) as [[st1 replyCh] dataCh] eqn:Hr.
  destruct (register_inv _ _ _ _ _ _ _ req Hi Hr) as (_ & _ & Hp & Hrep & Hnone).
  assert (forall c, c ∈ calls -> c_key c <> key) as Hne by (intros c Hc E; apply Hk; rewrite <- E; by apply (list_elem_of_fmap_2 c_key)).
  assert (forall c, c ∈ calls -> c_replyCh c <> replyCh) as Hch
    by (intros c Hc E; apply (inv_alloc _ Hi) in Hc as [x Hx]; cbn in Hx; rewrite E in Hx; congruence).
  assert (registered (st1, calls)) as Hreg1.
  { apply (registered_keep st _ calls calls Hreg); [done|..]; intros c Hc; left;
      [rewrite Hp; apply lookup_insert_ne|rewrite Hrep; apply lookup_insert_ne]; symmetry; [by apply Hne|by apply Hch]. }
  destruct wire as [payload|]; [|by intros [= <- <-]]. destruct sendOK; intros [= <- <-].
  - destruct Hreg1 as [R1 R2 R3]. cbn in *. constructor; cbn.
    + by constructor.
    + constructor; [|done]. intros Hin. apply list_elem_of_fmap in Hin as (c & E & Hc). symmetry in E. by apply Hch in E.
    + intros c [->|Hc]%elem_of_cons; [left; by rewrite Hp, lookup_insert_eq|by apply R3].
  - apply (registered_keep st1 _ calls calls Hreg1); [done|..]; intros c Hc; left; [|done]. cbn.
    rewrite lookup_delete_ne; [done|]. symmetry. by apply Hne.
Qed.

Lemma start_registered p connected st calls rnd sendOK req o st' :
  inv (st, calls) -> registered (st, calls) -> (forall k, drawn_key rnd req = Some k -> k ∉ map c_key calls) ->
  start p connected st rnd sendOK req = (o, st') ->
  match o with Waiting c _ => registered (st', c :: calls) | _ => registered (st', calls) end.
Proof.
  intros Hi Hreg Hk. unfold start, start_http, start_jsonrpc, start_opaque, start_grpc, start_websocket, openConsumerStream. destruct connected; cbn [negb]; [|by intros [= <- <-]].
  destruct req as [method path rawQuery h body|protocol method params id|mediaType raw|method reqMsg|msg]; cbn [drawn_key] in Hk.
  - destruct body; [|by intros [= <- <-]]. destruct rnd; [|by intros [= <- <-]]. apply open_call_registered; try done. by apply Hk.
  - destruct (encodeJSONRPCRequest _ _ _ _) as [[wire corrID]|]; [|by intros [= <- <-]].
    destruct (present _); [by intros [= <- <-]|]. apply open_call_registered; try done. by apply Hk.
  - destruct (_ =? 0); [by intros [= <- <-]|]. destruct rnd; [|by intros [= <- <-]].
    destruct (encodeOpaquePayload _ _ _) as [[wire|e]|]; [|by intros [= <- <-]..]. apply open_call_registered; try done. by apply Hk.
  - destruct rnd; [|by intros [= <- <-]]. apply open_call_registered; try done. by apply Hk.
  - destruct rnd; [|by intros [= <- <-]]. apply open_call_registered; try done. by apply Hk.
Qed.

(** Removing one call from the list. *)
Lemma removed_distinct {A B} (f : A -> B) l1 x l2 y :
  NoDup (map f (l1 ++ x :: l2)) -> y ∈ l1 ++ l2 -> f y <> f x.
Proof.
  intros Hn Hy E. change (NoDup (f <$> l1 ++ x :: l2)) in Hn. rewrite fmap_app, fmap_cons, <- Permutation_middle in Hn.
  apply NoDup_cons in Hn as [Hx _]. apply Hx. rewrite <- E, <- fmap_app. by apply list_elem_of_fmap_2.
Qed.

Lemma step_registered p l s s' :
  inv s -> registered s -> (forall k, l = Some k -> k ∉ map c_key s.2) -> step p l s s' -> registered s'.
Proof.
  intros Hi Hreg Hk Hs. destruct Hs as [st calls ch ft payload st' Hr|st calls connected rnd sendOK req c payload st' Hr
    |st calls connected rnd sendOK req o st' Hr Ho|st calls1 c calls2 r Hr|st calls c ch k rest Hc Hd Hr|st calls1 c calls2|st calls key|st calls key].
  - unfold Run_frame in Hr. destruct (negb _); [by injection Hr as <-|]. destruct (_ || _); [by eapply deliver_registered|].
    destruct (_ || _); [|by injection Hr as <-]. injection Hr as <-. destruct (stream_frame_tables st ft payload) as [Hp Hrep].
    apply (registered_keep st _ calls calls Hreg); [done|..]; intros c Hc; left; [by rewrite Hp|by rewrite Hrep].
  - exact (start_registered _ _ _ _ _ _ _ _ _ Hi Hreg Hk Hr).
  - pose proof (start_registered _ _ _ _ _ _ _ _ _ Hi Hreg Hk Hr) as Hreg'. destruct o as [c payload| |]; [by destruct (Ho c payload)|done..].
  - apply (registered_keep st _ _ (calls1 ++ calls2) Hreg); [apply sublist_app; [done|]; by apply sublist_cons|..]; intros c' Hc'; left.
    + destruct (is_stream c); [|done]. cbn. rewrite lookup_delete_ne; [done|]. symmetry. by apply (removed_distinct c_key _ _ _ _ (reg_keys _ Hreg)).
    + assert (c_replyCh c <> c_replyCh c') by (symmetry; by apply (removed_distinct c_replyCh _ _ _ _ (reg_chans _ Hreg))).
      destruct (is_stream c); cbn; by rewrite lookup_insert_ne.
  - by apply (registered_keep st _ calls calls Hreg); [done|..]; intros c' Hc'; left.
  - apply (registered_keep st _ _ (calls1 ++ calls2) Hreg); [apply sublist_app; [done|]; by apply sublist_cons|..]; intros c' Hc'; left; [|done].
    cbn. rewrite lookup_delete_ne; [done|]. symmetry. by apply (removed_distinct c_key _ _ _ _ (reg_keys _ Hreg)).
  - by apply (registered_keep st _ calls calls Hreg); [done|..]; intros c' Hc'; left.
  - by apply (registered_keep st _ calls calls Hreg); [done|..]; intros c' Hc'; left.
Qed.

Lemma unique_registered p s : unique_reachable p s -> inv s /\ registered s.
Proof.
  apply (rtc_ind_r (fun s => inv s /\ registered s)).
  - split; [apply proxy_inv_init|]. constructor; cbn; [constructor..|]. by intros c ?%elem_of_nil.
  - intros s1 s2 _ (l & Hs & Hk) [Hi Hreg]. split; [by eapply proxy_step_inv|by eapply step_registered].
Qed.

(** Two waiters never share a channel. *)
Lemma other_channel st calls c c' :
  registered (st, calls) -> c ∈ calls -> c' ∈ calls -> c' <> c -> c_replyCh c' <> c_replyCh c.
Proof.
  intros [_ Hn _] Hc Hc' Hne E. cbn in Hn. apply Hne. apply list_elem_of_lookup_1 in Hc as [i Hi]. apply list_elem_of_lookup_1 in Hc' as [j Hj].
  assert (i = j) as ->; [|congruence]. apply (NoDup_lookup (c_replyCh <$> calls) i j (c_replyCh c) Hn); rewrite list_lookup_fmap; [by rewrite Hi|].
  rewrite Hj. cbn. by rewrite E.
Qed.

(** When live calls have distinct correlation ids, a reply that arrives for a live call
    that has none yet is handed to exactly that call, with its frame type, envelope and
    foreign octets as decoded, and to no other; a further reply with the same id, or one
    with an id no live call waits under, changes no call's channel. *)
Theorem reply_delivered (p : Proxy) (st : state) (calls : list call) (ft : Z) (payload : bytes) (frame : BridgeFrame)
    (Hr : unique_reachable p (st, calls)) (Hft : ft ∈ [FrameBridgeResponse; FrameBridgeError])
    (Hd : DecodeBridgeFrame ft payload = Ok frame) :
  exists st', Run_frame st ChanBridge ft payload = Some st' /\
    forall c, c ∈ calls -> st_replies st' !! c_replyCh c =
      if bool_decide (c_key c = be_CorrelationID (bf_Envelope frame) /\ st_replies st !! c_replyCh c = Some [])
      then Some [mkReply ft (bf_Envelope frame) (bf_Foreign frame)] else st_replies st !! c_replyCh c.
Proof.
  apply unique_registered in Hr as [Hi Hreg]. rewrite !elem_of_cons, elem_of_nil in Hft.
  assert (Run_frame st ChanBridge ft payload = deliverReply st ft payload) as -> by (destruct Hft as [-> | [-> | []]]; done).
  unfold deliverReply. rewrite Hd. set (key := be_CorrelationID (bf_Envelope frame)).
  assert (forall c, c ∈ calls -> st_replies st !! c_replyCh c = Some [] -> st_pending st !! c_key c = Some (c_replyCh c)) as Hwait.
  { intros c Hc He. destruct (reg_waits _ Hreg c Hc) as [?|[r Hx]]; [done|]. cbn in Hx. congruence. }
  destruct (st_pending st !! key) as [w|] eqn:Hw.
  - pose proof (inv_pending _ Hi _ _ Hw) as Hempty. cbn in Hempty. rewrite Hempty. eexists. split; [done|]. intros c Hc. cbn.
    destruct (decide (c_replyCh c = w)) as [E|Hne].
    + rewrite E, lookup_insert_eq, bool_decide_true; [done|]. split; [|done].
      symmetry. apply (inv_owner _ Hi c key Hc). cbn. by rewrite E.
    + rewrite lookup_insert_ne by done. rewrite bool_decide_false; [done|]. intros [Hk He]. apply (Hwait c Hc) in He. rewrite Hk in He. congruence.
  - eexists. split; [done|]. intros c Hc. rewrite bool_decide_false; [done|]. intros [Hk He]. apply (Hwait c Hc) in He. rewrite Hk in He. congruence.
Qed.

(** ** A call that loses its waiter *)

(** A reply frame for any correlation id that fits. *)
Lemma some_reply key : key <> [] -> blen key <= 255 ->
  exists payload frame, DecodeBridgeFrame FrameBridgeResponse payload = Ok frame /\ be_CorrelationID (bf_Envelope frame) = key.
Proof.
  intros Hne Hl. destruct (send_one_replies BridgeProtoMCP key FrameBridgeResponse BridgeKindResponse BridgeContentJSON 0 []) as (b & _ & _ & Hd);
    [by repeat split|done..|]. eexists b, _. split; [apply Hd; intros [H _]; by apply H|done].
Qed.

Lemma encoded_corr env foreign b : EncodeBridgePayload env None foreign = Some b -> blen (be_CorrelationID env) <= 255.
Proof.
  intros He. apply payload_split in He as (ev & _ & He & _). cbn in He. unfold encodeEnvelopeValue in He.
  destruct (Z.ltb_spec 255 (blen (be_CorrelationID env))); [done|lia].
Qed.

(** A live call whose reply channel is not registered gets nothing any more. *)
Lemma unregistered_starves st calls c :
  inv (st, calls) -> c ∈ calls -> st_pending st !! c_key c = None -> st_replies st !! c_replyCh c = Some [] ->
  forall ch ft b st', Run_frame st ch ft b = Some st' -> st_replies st' !! c_replyCh c = Some [].
Proof.
  intros Hi Hc Hp Hr ch ft b st'. unfold Run_frame. destruct (negb _); [by intros [= <-]|]. destruct (_ || _).
  - unfold deliverReply. destruct (DecodeBridgeFrame ft b) as [frame|]; [|by intros [= <-]].
    destruct (st_pending st !! be_CorrelationID (bf_Envelope frame)) as [w|] eqn:Hw; [|by intros [= <-]].
    destruct (st_replies st !! w) as [[|]|]; try done. intros [= <-]. cbn.
    destruct (decide (c_replyCh c = w)) as [E|Hne]; [|by rewrite lookup_insert_ne].
    assert (be_CorrelationID (bf_Envelope frame) = c_key c) as Hk by (apply (inv_owner _ Hi c); [done|]; cbn; by rewrite E).
    rewrite Hk in Hw. congruence.
  - destruct (_ || _); [|by intros [= <-]]. intros [= <-]. by rewrite (proj2 (stream_frame_tables st ft b)).
Qed.

(** Two JSON-RPC calls with the same id can overlap although the id of an outstanding
    call is refused: the first call's entry is gone once its reply is in its channel.  If
    the second call starts then and the first one's context is done before it has read its
    reply, the first call's cleanup removes the second call's entry: the second call stays
    alive with an empty channel and no frame the loop receives will ever fill it.  So
    distinct ids among live calls, not only among pending ones, are what delivery needs. *)
Theorem jsonrpc_id_reuse (p : Proxy) (rnd : option bytes) (protocol : Z) (method : bytes) (params : option marshalled)
    (id : marshalled) (wire key payload : bytes)
    (Henc : encodeJSONRPCRequest rnd method params id = Ok (wire, key)) (Hne : key <> [])
    (Hsend : EncodeBridgePayload (jsonrpcEnvelope protocol BridgeKindRequest key method) None wire = Some payload) :
  exists st c, reachable p (st, [c]) /\ c_key c = key /\ c_req c = CallJSONRPC protocol method params id /\
    st_replies st !! c_replyCh c = Some [] /\
    forall ch ft b st', Run_frame st ch ft b = Some st' -> st_replies st' !! c_replyCh c = Some [].
Proof.
  destruct (some_reply key Hne (encoded_corr _ _ _ Hsend)) as (rb & frame & Hd & Hk).
  set (req := CallJSONRPC protocol method params id).
  assert (forall st, st_pending st !! key = None -> start p true st rnd true req = open_call st req key false (Some payload) true) as Hstart.
  { intros st Hn. unfold start, start_http, start_jsonrpc, start_opaque, start_grpc, start_websocket, openConsumerStream, req. cbn [negb]. rewrite Henc, Hn. cbn [present]. by rewrite Hsend. }
  set (c1 := mkCall req key 0%nat None).
  set (st1 := mkState (<[key := 0%nat]> ∅) ∅ ∅ (<[0%nat := []]> ∅) ∅ ∅ 2%nat).
  set (st2 := mkState (delete key (st_pending st1)) ∅ ∅ (<[0%nat := [mkReply FrameBridgeResponse (bf_Envelope frame) (bf_Foreign frame)]]> (st_replies st1)) ∅ ∅ 2%nat).
  set (st3 := mkState (<[key := 2%nat]> (st_pending st2)) ∅ ∅ (<[2%nat := []]> (st_replies st2)) ∅ ∅ 4%nat).
  set (c2 := mkCall req key 2%nat None).
  assert (reachable p (cleanup st3 key false, [c2])) as Hreach.
  { eapply rtc_l; [exists (drawn_key rnd req); eapply (step_start p init [] true rnd true req c1 payload st1); by rewrite Hstart|].
    eapply rtc_l; [exists None; eapply (step_receive p st1 [c1] ChanBridge FrameBridgeResponse rb st2)|].
    { unfold Run_frame. cbn [negb]. unfold deliverReply. rewrite Hd, Hk. unfold st1. cbn [st_pending st_replies].
      by rewrite lookup_insert_eq, lookup_insert_eq. }
    eapply rtc_l; [exists (drawn_key rnd req); eapply (step_start p st2 [c1] true rnd true req c2 payload st3)|].
    { rewrite Hstart; [done|]. cbn. apply lookup_delete_eq. }
    eapply rtc_l; [exists None; eapply (step_done p st3 [c2] c1 [])|]. apply rtc_refl. }
  exists (cleanup st3 key false), c2. split_and!; [done|done|done|cbn; apply lookup_insert_eq|].
  apply (unregistered_starves _ [c2]); [by eapply proxy_reachable_inv|by apply list_elem_of_singleton|cbn; apply lookup_delete_eq|cbn; apply lookup_insert_eq].
Qed.
