(* ===== verification/ProxyExchange.v ===== *)
(** * Exchanges between two proxies

    A call on one proxy, its request handled by the peer, the answer delivered back: the
    caller gets what the peer's backend answered.  Streams are followed through every
    schedule of arrivals and reads. *)

From S2P Require Import Prelude Errors Registry Cbor Tlv Bridge ChannelFrames Bodies BodySpec BodyRoundtrip CodecBind CarriageHttp CarriageStream Json CarriageJson Url ProxyEgress Proxy ProxyRuns.
From Stdlib Require Import Strings.Byte.
From stdpp Require Import gmap relations.
Open Scope Z_scope.

(** ** Octets that no TLV header begins with *)

Lemma nonzero_front c b typ : b2z c <> 0 -> 0 <= typ < 256 -> ~ begins_with typ (c :: b).
Proof.
  intros Hc Ht [H4 Hg]. destruct b as [|d b]; [unfold blen in H4; cbn in H4; lia|].
  unfold slice, be_get in Hg. cbn [drop Nat.sub take fold_left] in Hg. rewrite take_0 in Hg. cbn [fold_left] in Hg.
  pose proof (b2z_range c). pose proof (b2z_range d). lia.
Qed.

Lemma http_object_front m : 0 <= blen m <= 5 -> exists c b, cborEncode (VGoMap m) = c :: b /\ b2z c <> 0.
Proof.
  intros Hm. cbn [cborEncode]. unfold encodeHead. rewrite (proj2 (Z.ltb_lt _ 24)) by lia. cbn [app]. eexists _, _. split; [done|].
  assert (blen m = 0 \/ blen m = 1 \/ blen m = 2 \/ blen m = 3 \/ blen m = 4 \/ blen m = 5) as H by lia.
  by destruct H as [-> | [-> | [-> | [-> | [-> | ->]]]]].
Qed.

Lemma common_entries_short h body : 0 <= blen (common_entries h body) <= 2.
Proof. unfold common_entries. rewrite blen_app. destruct (0 <? _), (0 <? _); unfold blen; cbn; lia. Qed.

Lemma http_request_front method target h body :
  ~ reads_as_label (encodeHTTPCarriageRequest method target h body).
Proof.
  unfold encodeHTTPCarriageRequest. pose proof (common_entries_short h body).
  destruct (http_object_front ([(1, VUint httpKindRequest); (2, VText method); (3, VText target)] ++ common_entries h body)) as (c & b & -> & Hc).
  { rewrite blen_app. unfold blen at 1 3. cbn [length]. lia. }
  by apply nonzero_front.
Qed.

Lemma http_response_front status h body : ~ reads_as_label (encodeHTTPCarriageResponse status h body).
Proof.
  unfold encodeHTTPCarriageResponse. pose proof (common_entries_short h body).
  destruct (http_object_front ([(1, VUint httpKindResponse); (6, VUint (u64 status))] ++ common_entries h body)) as (c & b & -> & Hc).
  { rewrite blen_app. unfold blen at 1 3. cbn [length]. lia. }
  by apply nonzero_front.
Qed.

Lemma json_object_front m : ~ reads_as_label (marshal_object m).
Proof. by apply nonzero_front. Qed.

(** ** Delivery right after a call has started *)

Lemma open_call_waits st req key stream wire sendOK c payload st1 :
  open_call st req key stream wire sendOK = (Waiting c payload, st1) ->
  wire = Some payload /\ c_key c = key /\ c_req c = req /\ st_pending st1 !! key = Some (c_replyCh c) /\
  st_replies st1 !! c_replyCh c = Some [] /\
  (if stream then exists ch, c_dataCh c = Some ch /\ st_streamPending st1 !! key = Some ch /\ st_chunks st1 !! ch = Some [] else c_dataCh c = None).
Proof.
  unfold open_call, register. destruct wire as [w|]; [|done]. destruct sendOK; [|done]. intros [= <- <- <-]. cbn.
  rewrite !lookup_insert_eq. split_and!; try done. destruct stream; [|done]. eexists. split; [done|]. by rewrite !lookup_insert_eq.
Qed.

Lemma deliver_waiting st key ch ft payload frame :
  st_pending st !! key = Some ch -> st_replies st !! ch = Some [] -> ft ∈ [FrameBridgeResponse; FrameBridgeError] ->
  DecodeBridgeFrame ft payload = Ok frame -> be_CorrelationID (bf_Envelope frame) = key ->
  exists st', Run_frame st ChanBridge ft payload = Some st' /\
    st_replies st' !! ch = Some [mkReply ft (bf_Envelope frame) (bf_Foreign frame)].
Proof.
  intros Hp Hr Hft Hd Hk. rewrite !elem_of_cons, elem_of_nil in Hft.
  assert (Run_frame st ChanBridge ft payload = deliverReply st ft payload) as -> by (destruct Hft as [-> | [-> | []]]; done).
  unfold deliverReply. rewrite Hd, Hk, Hp, Hr. eexists. split; [done|]. cbn. apply lookup_insert_eq.
Qed.

Section exchanges.
Context `{ErrorText errCarriageMalformed, ErrorText errJSONRPC, ErrorText errOpaqueContentType, ErrorText errGRPCMalformed, ErrorText errNewRequest}.
(** The calling proxy's state and the peer. *)
Context (q p : Proxy) (st : state) (obs : observed).

(** C13: an HTTP request served through two proxies gets the backend's response.  For a
    request with a method token, canonical header names, a routing key that fits the
    envelope, a rooted path that does not begin with two slashes and whose decoded octets
    hold no control octet, question mark, hash or percent sign, and a query without control
    octets or hash, and for a backend with a lower-case scheme and a host that [net/url]
    reads back, the peer issues a request of the same method and body, the same header
    fields (but for names without values), the backend's scheme, user and host, and exactly
    the path and the query of the request; and whatever status between 100 and 599, header
    map and body the backend answers, the calling proxy writes that status and body and
    header fields that rebuild that header map.  Other decoded paths are rewritten on the
    way ([Url.target_rewritten]). *)
Theorem http_exchange (corrID method path rawQuery body body2 payload : bytes) (h h2 : Header) (status : Z) (c : call) (st1 : state)
    (backend : HTTPBackend) (host : bytes)
    (Hcorr : corrID <> []) (Hmethod : method <> []) (Htoken : forallb isTchar method = true)
    (Hpath : plain_path path = true) (Hquery : plain_query rawQuery = true)
    (Hscheme : plain_scheme (u_Scheme (hb_URL backend)) = true)
    (Hhost : parseHost (hb_parseOtherHost backend) (escape encodeHost (u_Host (hb_URL backend))) = Ok host)
    (Hh : header_ok h) (Hh2 : header_ok h2) (Hstatus : 100 <= status <= 599)
    (Hsize : blen (encodeHTTPCarriageRequest method (http_target path rawQuery) h body) < 2 ^ 63)
    (Hsize2 : blen (encodeHTTPCarriageResponse status h2 body2) < 2 ^ 63)
    (Hstart : start q true st (Some corrID) true (ServeHTTP method path rawQuery h (Some body)) = (Waiting c payload, st1))
    (Hb : px_Backend p = Some backend)
    (Hresp : hb_Do backend method
               (mkURL (u_Scheme (hb_URL backend)) [] (u_User (hb_URL backend)) (removeEmptyPort host) path [] false false rawQuery [] [])
               (toHTTPHeader (encodeHTTPHeaders h)) body = Response status h2 body2) :
  (forall k, toHTTPHeader (encodeHTTPHeaders h) !! k = h !! k ≫= entry_of) /\
  exists wire, handleInboundBridgeRequest p obs payload = Sends [(FrameBridgeResponse, wire)] /\
  exists st2 r fields, Run_frame st1 ChanBridge FrameBridgeResponse wire = Some st2 /\
    st_replies st2 !! c_replyCh c = Some [r] /\ http_reply r = Ok (status, fields, body2) /\
    forall k, toHTTPHeader fields !! k = h2 !! k ≫= entry_of.
Proof.
  split; [intros k; by apply headers_roundtrip|].
  assert (http_target path rawQuery = path ++ query_text rawQuery) as Et by (by destruct rawQuery; [cbn; rewrite app_nil_r|]).
  assert (http_target path rawQuery <> []) as Htarget by (destruct (plain_path_root path Hpath) as [? ->]; by destruct rawQuery).
  pose proof (request_url (hb_parseOtherHost backend) (hb_URL backend) method path rawQuery host Hscheme Hhost Hpath Hquery Hmethod Htoken) as Hreq.
  rewrite <- Et in Hreq. clear Et. set (target := http_target path rawQuery) in *.
  unfold start, start_http, start_jsonrpc, start_opaque, start_grpc, start_websocket, openConsumerStream in Hstart. cbn [negb] in Hstart. fold target in Hstart.
  apply open_call_waits in Hstart as (Hwire & _ & _ & Hpend & Hrep & _).
  set (env := mkEnvelope BridgeProtoHTTP2 BridgeKindRequest BridgeContentCBOR 0 corrID (method ++ str " " ++ target)) in *.
  pose proof (encoded_corr _ _ _ Hwire) as Hclen. cbn [be_CorrelationID env] in Hclen.
  assert (sendable FrameBridgeRequest env) as Hs.
  { split; [done|]. split; [|cbn; split; [done|intros E; discriminate E]].
    apply payload_split in Hwire as (ev & _ & Hev & _). cbn [bf_Envelope] in Hev. unfold encodeEnvelopeValue in Hev.
    destruct (Z.ltb_spec 255 (blen (be_CorrelationID env))); [done|]. destruct (Z.ltb_spec 255 (blen (be_Method env))); [done|]. by repeat split. }
  pose proof (carried FrameBridgeRequest env _ payload Hs (http_request_front method target h body) Hwire) as Hdec.
  unfold handleInboundBridgeRequest. rewrite Hdec. cbn [bf_Envelope be_Protocol env]. cbn [route_of BridgeProtoHTTP2 Z.eqb Pos.eqb].
  unfold handleInboundHTTPRequest. cbn [bf_Envelope bf_Foreign be_CorrelationID be_Method env]. rewrite Hb.
  rewrite (request_roundtrip method target h body Hsize), !bool_decide_false, (no_pseudo h Hh) by done. cbn [ho_Method ho_Target ho_Headers ho_Body].
  rewrite bool_decide_true by done. rewrite andb_false_r, Hreq, Hresp.
  destruct (send_one_replies BridgeProtoHTTP2 corrID FrameBridgeResponse BridgeKindResponse BridgeContentCBOR 0
    (encodeHTTPCarriageResponse status h2 body2)) as (wire & Hsend & _ & Hd2); [by repeat split|done..|].
  rewrite Hsend. exists wire. split; [done|]. specialize (Hd2 (http_response_front _ _ _)).
  destruct (deliver_waiting st1 corrID _ FrameBridgeResponse wire _ Hpend Hrep ltac:(rewrite elem_of_cons; by left) Hd2 eq_refl) as (st2 & Hrun & Hr2).
  eexists st2, _, (encodeHTTPHeaders h2). split; [done|]. split; [done|]. split; [|intros k; by apply headers_roundtrip].
  unfold http_reply. cbn [pr_ft pr_foreign FrameBridgeResponse FrameBridgeError Z.eqb Pos.eqb bf_Foreign].
  rewrite response_roundtrip by (done || lia). rewrite (proj2 (Z.ltb_ge _ 100)), (proj2 (Z.ltb_ge 599 _)) by lia. cbn [orb].
  by rewrite (no_pseudo h2 Hh2).
Qed.

(** A request whose method and target together exceed 254 octets crashes the calling
    proxy's handler: the routing key does not fit the envelope's length octet, the encoder
    panics, and the entry registered for the reply stays in the table.  Shorter ones start
    waiting. *)
Theorem long_target_panics (corrID method path rawQuery body : bytes) (h : Header) (Hcorr : blen corrID <= 255) :
  let '(o, st1) := start q true st (Some corrID) true (ServeHTTP method path rawQuery h (Some body)) in
  st_pending st1 !! corrID = Some (st_next st) /\
  if 254 <? blen method + blen (http_target path rawQuery) then o = Crashed
  else exists c payload, o = Waiting c payload /\ c_replyCh c = st_next st.
Proof.
  unfold start, start_http, start_jsonrpc, start_opaque, start_grpc, start_websocket, openConsumerStream. cbn [negb]. set (target := http_target path rawQuery). set (m := method ++ str " " ++ target).
  assert (blen m = blen method + 1 + blen target) as Hm by (unfold m; rewrite !blen_app; change (blen (str " ")) with 1; lia).
  unfold open_call. cbn [register]. unfold EncodeBridgePayload, EncodeBridgeFrame, encodeEnvelopeValue. cbn [bf_Envelope be_CorrelationID be_Method bf_Safety].
  rewrite (proj2 (Z.ltb_ge 255 (blen corrID))) by done. rewrite Hm. destruct (Z.ltb_spec 254 (blen method + blen target)).
  - rewrite (proj2 (Z.ltb_lt 255 _)) by lia. cbn [mbind option_bind st_pending]. by rewrite lookup_insert_eq.
  - rewrite (proj2 (Z.ltb_ge 255 _)) by lia. cbn [mbind option_bind st_pending]. rewrite lookup_insert_eq. split; [done|]. by eexists _, _.
Qed.

(** A JSON-RPC id that is its own correlation id. *)
Definition plain_id (i : bytes) : Prop := TrimSpace i <> str "null" /\ 1 <= blen i <= 255.

Lemma request_encodes rnd method params i :
  utf8 method -> (forall v, params = Some v -> document v) -> document i -> plain_id i ->
  let wire := marshal_object (request_members method params (Some i)) in
  encodeJSONRPCRequest rnd method (Some <$> params) (Some i) = Ok (wire, i).
Proof.
  intros Hm Hp Hi [Hnull Hlen] wire. unfold encodeJSONRPCRequest. cbn [mbind result_bind].
  assert (marshal_opt (Some <$> params) = Ok params) as -> by (by destruct params). cbn [mbind result_bind]. fold wire.
  destruct (request_parses method params (Some i) Hm Hp ltac:(by intros ? [= <-])) as [Hparse _]. fold wire in Hparse. rewrite Hparse.
  cbn [mbind result_bind jp_ID default]. unfold jsonrpcCorrelationID. cbn [default]. rewrite bool_decide_false by done.
  unfold id. rewrite (proj2 (Z.eqb_neq (blen i) 0)), (proj2 (Z.ltb_ge 255 (blen i))) by lia. done.
Qed.

(** A JSON-RPC call through two proxies gets the handler's result.  For a method of
    valid text that fits the envelope, an id token that is not null and at most 255 octets,
    and parameters that are one JSON value, the peer calls its handler with the same
    protocol, method and parameter octets, and a result that is compact JSON comes back to
    the caller unchanged (a missing result as null), correlated by the id token. *)
Theorem jsonrpc_exchange (rnd : option bytes) (protocol : Z) (method i payload : bytes) (params res : option bytes) (c : call) (st1 : state)
    (handler : Z -> bytes -> option bytes -> rpc_outcome)
    (Hproto : protocol ∈ [BridgeProtoMCP; BridgeProtoA2A]) (Hmethod : utf8 method)
    (Hparams : forall v, params = Some v -> document v) (Hid : compact_document i) (Hplain : plain_id i)
    (Hres : forall r, res = Some r -> compact_document r)
    (Hstart : start q true st rnd true (CallJSONRPC protocol method (Some <$> params) (Some i)) = (Waiting c payload, st1))
    (Hh : px_JSONRPCHandler p = Some handler) (Hcall : handler protocol method params = RPCResult res) :
  c_key c = i /\
  exists wire, handleInboundBridgeRequest p obs payload = Sends [(FrameBridgeResponse, wire)] /\
  exists st2 r, Run_frame st1 ChanBridge FrameBridgeResponse wire = Some st2 /\
    st_replies st2 !! c_replyCh c = Some [r] /\ decodeJSONRPCReply r = Ok (inl (Some (default (str "null") res))).
Proof.
  destruct Hid as [Hdoc Hcompact]. unfold start, start_http, start_jsonrpc, start_opaque, start_grpc, start_websocket, openConsumerStream in Hstart. cbn [negb] in Hstart.
  rewrite (request_encodes rnd method params i Hmethod Hparams Hdoc Hplain) in Hstart.
  set (wire := marshal_object (request_members method params (Some i))) in *.
  destruct (present _); [done|]. apply open_call_waits in Hstart as (Hwire & Hkey & _ & Hpend & Hrep & _). split; [done|].
  set (env := jsonrpcEnvelope protocol BridgeKindRequest i method) in *.
  assert (answerable protocol i) as Ha.
  { rewrite !elem_of_cons, elem_of_nil in Hproto. split; [destruct Hproto as [-> | [-> | []]]; done|]. destruct Hplain as [_ Hl].
    split; [by intros ->|lia]. }
  assert (sendable FrameBridgeRequest env) as Hs.
  { destruct Ha as (Hp16 & Hne & Hl). split; [done|]. split; [|cbn; split; [done|intros E; discriminate E]].
    apply payload_split in Hwire as (ev & _ & Hev & _). cbn [bf_Envelope] in Hev. unfold encodeEnvelopeValue in Hev.
    destruct (Z.ltb_spec 255 (blen (be_CorrelationID env))); [done|]. destruct (Z.ltb_spec 255 (blen (be_Method env))); [done|].
    by repeat split; try apply Hp16. }
  pose proof (carried FrameBridgeRequest env _ payload Hs (json_object_front _) Hwire) as Hdec.
  unfold handleInboundBridgeRequest. rewrite Hdec. cbn [bf_Envelope be_Protocol env jsonrpcEnvelope].
  assert (route_of p protocol = ToJSONRPC) as ->
    by (rewrite !elem_of_cons, elem_of_nil in Hproto; destruct Hproto as [-> | [-> | []]]; done).
  unfold handleInboundJSONRPCRequest. cbn [bf_Envelope bf_Foreign be_CorrelationID be_Method be_Protocol env jsonrpcEnvelope]. rewrite Hh.
  destruct (request_parses method params (Some i) Hmethod Hparams ltac:(by intros ? [= <-])) as [Hparse Hpar]. fold wire in Hparse, Hpar.
  fold wire. unfold decodeJSONRPCRequestOrNotification. rewrite Hparse. cbn [mbind result_bind jp_HasMethod jp_ID present negb andb check].
  unfold jsonrpcMethodAgrees. cbn [jp_Method jp_Raw jp_ID]. rewrite bool_decide_true by done. cbn [negb]. rewrite Hpar, Hcall.
  destruct (success_parses (Some i) res ltac:(by intros ? [= <-]) Hres) as (reply & Hobj & Hsucc). cbn [default] in Hsucc.
  unfold sendJSONRPCSuccessResponse. rewrite Hobj.
  assert (~ reads_as_label reply) as Hnl.
  { unfold success_object in Hobj. apply bind_Some in Hobj as (? & _ & Hobj). apply bind_Some in Hobj as (? & _ & [= <-]). apply json_object_front. }
  destruct (send_one_replies protocol i FrameBridgeResponse BridgeKindResponse BridgeContentJSON 0 reply Ha)
    as (rw & Hsend & _ & Hd2); try done. unfold jsonrpcEnvelope. rewrite Hsend. exists rw. split; [done|]. specialize (Hd2 Hnl).
  destruct (deliver_waiting st1 i _ FrameBridgeResponse rw _ Hpend Hrep ltac:(rewrite elem_of_cons; by left) Hd2 eq_refl) as (st2 & Hrun & Hr2).
  eexists st2, _. split; [done|]. split; [done|]. unfold decodeJSONRPCReply.
  cbn [pr_ft pr_foreign FrameBridgeResponse FrameBridgeError Z.eqb Pos.eqb bf_Foreign]. by rewrite Hsucc.
Qed.
End exchanges.
