(* ===== verification/ProxyStream.v ===== *)
(** * Streams through the proxy

    The frames a stream producer sends, the bounded buffer the receive loop fills and the
    consumer's loop, for every schedule of arrivals and reads.  What the consumer collects
    is always in order; it is everything when the buffer never overflows, and when it does
    overflow an event can be lost without an error. *)

From S2P Require Import Prelude Errors Registry Cbor Tlv Bridge CarriageHttp CarriageStream Json CarriageJson Url ProxyEgress Proxy ProxyRuns ProxyExchange.
From Stdlib Require Import Strings.Byte.
From stdpp Require Import gmap relations.
Open Scope Z_scope.

(** A producer that is not cancelled and whose connection works. *)
Definition quiet (obs : observed) : Prop := forall i, cancelled obs i = false /\ send_ok obs i = true.

(** The chunks of a stream from event id [i]. *)
Fixpoint chunks_from (i : nat) (events : list bytes) : list streamChunk :=
  match events with
  | [] => [mkChunk FrameBridgeStreamEnd (Ok (mkControl streamControlData 0 (Z.of_nat i), []))]
  | ev :: events => mkChunk FrameBridgeStreamData (Ok (mkControl streamControlData 0 (Z.of_nat i), ev)) :: chunks_from (S i) events
  end.

Lemma length_chunks_from i events : length (chunks_from i events) = S (length events).
Proof. revert i. induction events as [|ev events IH]; intros i; [done|]. cbn. by rewrite IH. Qed.

(** A frame that the receive loop turns into a chunk. *)
Definition carries (corrID : bytes) (f : Z * bytes) (k : streamChunk) : Prop :=
  exists frame, DecodeBridgeFrame f.1 f.2 = Ok frame /\ be_CorrelationID (bf_Envelope frame) = corrID /\
    k = mkChunk f.1 (decodeLeadingStreamControl (bf_Foreign frame)) /\ f.1 ∈ [FrameBridgeStreamData; FrameBridgeStreamEnd].

Lemma stream_frame_carried protocol corrID ft kind ct flags i ev :
  answerable protocol corrID -> is_u8 ct -> is_u8 flags -> Z.of_nat i < 2 ^ 64 ->
  (ft, kind) ∈ [(FrameBridgeStreamData, BridgeKindStreamData); (FrameBridgeStreamEnd, BridgeKindStreamEnd)] ->
  exists b, encodeStreamFrame (mkEnvelope protocol kind ct flags corrID []) (mkControl streamControlData 0 (u64 (Z.of_nat i))) ev = Some b /\
    carries corrID (ft, b) (mkChunk ft (Ok (mkControl streamControlData 0 (Z.of_nat i), ev))).
Proof.
  intros Ha Hct Hfl Hi Hft. rewrite u64_id by (unfold is_u64; lia). set (sc := mkControl streamControlData 0 (Z.of_nat i)).
  rewrite !elem_of_cons, elem_of_nil in Hft.
  assert (BridgeKindForFrame ft = Some kind /\ ft <> FrameBridgeNotify /\ is_u8 kind) as (Hk & Hn & Hk8)
    by (destruct Hft as [[= -> ->]|[[= -> ->]|[]]]; done).
  pose proof (answer_sendable protocol corrID ft kind ct flags Ha Hk Hn Hk8 Hct Hfl) as Hs.
  destruct (encode_sendable _ _ (stream_foreign sc ev) Hs) as [b Hb]. exists b. split; [done|].
  eexists. split; [apply (carried ft _ (stream_foreign sc ev) b Hs); [|exact Hb]|].
  - unfold stream_foreign. rewrite TLV_Encode_app, app_nil_l. intros Hl.
    pose proof (tlv_begins (mkTLV TLVStreamControl (encodeStreamControlValue sc)) ev ltac:(done)) as Hbeg.
    by pose proof (begins_unique _ _ _ Hl Hbeg).
  - split; [done|]. split; [|destruct Hft as [[= -> _]|[[= -> _]|[]]]; rewrite !elem_of_cons; auto].
    cbn [bf_Foreign fst]. rewrite stream_control_decodes; [done|]. split_and!; cbn; [rewrite elem_of_cons; by left|done|unfold is_u64; lia].
Qed.

Lemma emit_chunks obs protocol ct corrID i events :
  quiet obs -> answerable protocol corrID -> is_u8 ct -> Z.of_nat (i + length events) < 2 ^ 64 ->
  exists frames, emit obs protocol ct corrID i events = Sends frames /\ Forall2 (carries corrID) frames (chunks_from i events).
Proof.
  intros Hq Ha Hct. revert i. induction events as [|ev events IH]; intros i Hi; cbn [emit chunks_from length] in *.
  - rewrite (proj1 (Hq i)). destruct (stream_frame_carried protocol corrID FrameBridgeStreamEnd BridgeKindStreamEnd ct BridgeFlagFinal i [])
      as (b & -> & Hc); [done..|lia|rewrite !elem_of_cons; auto|]. eexists. split; [done|]. by constructor.
  - rewrite (proj1 (Hq i)), (proj2 (Hq i)).
    destruct (stream_frame_carried protocol corrID FrameBridgeStreamData BridgeKindStreamData ct 0 i ev)
      as (b & -> & Hc); [done..|lia|rewrite !elem_of_cons; auto|].
    destruct (IH (S i)) as (frames & -> & Hf); [lia|]. eexists. split; [done|]. by constructor.
Qed.

(** ** Schedules *)

Inductive action : Type :=
| Arrive (f : Z * bytes)    (* the receive loop gets a frame *)
| Take.                     (* the consumer reads its channel *)

Definition arrivals (acts : list action) : list (Z * bytes) :=
  omap (fun a => match a with Arrive f => Some f | Take => None end) acts.

(** The state and the chunks read so far. *)
Definition act (ch : addr) (s : state * list streamChunk) (a : action) : state * list streamChunk :=
  let '(st, taken) := s in
  match a with
  | Arrive f => (default st (Run_frame st ChanBridge f.1 f.2), taken)
  | Take => match st_chunks st !! ch with
            | Some (k :: rest) => (take_chunk st ch rest, taken ++ [k])
            | _ => (st, taken)
            end
  end.

(** The buffer has room at every arrival; [n] chunks are buffered at first. *)
Fixpoint fits (n : nat) (acts : list action) : Prop :=
  match acts with
  | [] => True
  | Arrive _ :: acts => (n < streamBuffer)%nat /\ fits (S n) acts
  | Take :: acts => fits (pred n) acts
  end.

(** How many chunks a schedule that fits leaves in the buffer. *)
Fixpoint occupancy (n : nat) (acts : list action) : nat :=
  match acts with
  | [] => n
  | Arrive _ :: acts => occupancy (S n) acts
  | Take :: acts => occupancy (pred n) acts
  end.

(** The loop adds an arriving chunk to the consumer's buffer. *)
Lemma arrive_chunk st corrID ch buf f k :
  st_streamPending st !! corrID = Some ch -> st_chunks st !! ch = Some buf -> carries corrID f k ->
  exists st', Run_frame st ChanBridge f.1 f.2 = Some st' /\ st_streamPending st' !! corrID = Some ch /\
    st_chunks st' !! ch = Some (push_chunk buf k).
Proof.
  intros Hp Hb (frame & Hd & Hc & -> & Hf). destruct f as [ft b]. cbn [fst snd] in *.
  assert (Run_frame st ChanBridge ft b = Some (handleInboundStreamFrame st ft b)) as ->
    by (rewrite !elem_of_cons, elem_of_nil in Hf; destruct Hf as [-> | [-> | []]]; done).
  eexists. split; [done|]. unfold handleInboundStreamFrame. rewrite Hd, Hc, Hp. cbn. split; [done|]. by rewrite lookup_alter_eq, Hb.
Qed.

(** What has been read and what is buffered are, in order, chunks that arrived; all of them
    when nothing overflowed. *)
Lemma schedule_chunks corrID ch acts st buf taken chunks :
  st_streamPending st !! corrID = Some ch -> st_chunks st !! ch = Some buf -> Forall2 (carries corrID) (arrivals acts) chunks ->
  exists st' buf' taken' kept, fold_left (act ch) acts (st, taken) = (st', taken') /\ st_chunks st' !! ch = Some buf' /\
    taken' ++ buf' = taken ++ buf ++ kept /\ sublist kept chunks /\
    (fits (length buf) acts -> kept = chunks /\ length buf' = occupancy (length buf) acts).
Proof.
  revert st buf taken chunks. induction acts as [|a acts IH]; intros st buf taken chunks Hp Hb Hc.
  { cbn in Hc. apply Forall2_nil_inv_l in Hc as ->. exists st, buf, taken, []. cbn. rewrite app_nil_r. done. }
  destruct a as [f|]; cbn [fold_left act arrivals omap list_omap fits occupancy] in *.
  - apply Forall2_cons_inv_l in Hc as (k & ks & Hk & Hks & ->). fold (arrivals acts) in Hks.
    destruct (arrive_chunk st corrID ch buf f k Hp Hb Hk) as (st1 & -> & Hp1 & Hb1). cbn [default].
    destruct (IH st1 _ taken ks Hp1 Hb1 Hks) as (st' & buf' & taken' & kept & Hrun & Hbuf & Heq & Hsub & Hfit). unfold id. rewrite Hrun.
    unfold push_chunk in *. destruct (decide (length buf < streamBuffer)%nat) as [Hroom|Hfull].
    + exists st', buf', taken', (k :: kept). split; [done|]. split; [done|]. split; [by rewrite Heq, <- app_assoc|]. split; [by constructor|].
      intros [_ Hf]. rewrite length_app in Hfit. cbn [length] in Hfit. rewrite Nat.add_1_r in Hfit. destruct (Hfit Hf) as [-> ->]. done.
    + exists st', buf', taken', kept. split; [done|]. split; [done|]. split; [done|]. split; [by apply sublist_cons|]. intros [? _]. lia.
  - fold (arrivals acts) in Hc. rewrite Hb. destruct buf as [|k buf].
    + destruct (IH st [] taken chunks Hp Hb Hc) as (st' & buf' & taken' & kept & Hrun & Hbuf & Heq & Hsub & Hfit).
      exists st', buf', taken', kept. by split_and!.
    + destruct (IH (take_chunk st ch buf) buf (taken ++ [k]) chunks) as (st' & buf' & taken' & kept & Hrun & Hbuf & Heq & Hsub & Hfit);
        [done|cbn; apply lookup_insert_eq|done|].
      exists st', buf', taken', kept. split; [done|]. split; [done|]. split; [by rewrite Heq, <- app_assoc|]. done.
Qed.

(** ** Collecting *)

(** The tracker accepts ids from [i] on. *)
Definition below (t : streamEventTracker) (i : nat) : Prop := match t with Some last => last < Z.of_nat i | None => True end.

Lemma accept_below t i : below t i -> accept t (Z.of_nat i) = Ok (Some (Z.of_nat i)).
Proof. destruct t as [last|]; [|done]. cbn. intros Hl. by rewrite (proj2 (Z.leb_gt _ _)). Qed.

Lemma collect_nonfailing s chunks : (forall t ev, s <> Collecting t ev) -> fold_left collect_chunk chunks s = s.
Proof. intros Hs. induction chunks as [|k chunks IH]; [done|]. destruct s; [by destruct (Hs t events)|done..]. Qed.

(** Any subsequence of a stream's chunks collects to a subsequence of its events. *)
Lemma collect_sublist l i events t acc :
  sublist l (chunks_from i events) -> below t i ->
  exists evs, sublist evs events /\
    (fold_left collect_chunk l (Collecting t acc) = Collected (acc ++ evs) \/
     exists t', fold_left collect_chunk l (Collecting t acc) = Collecting t' (acc ++ evs)).
Proof.
  revert l i t acc. induction events as [|ev events IH]; intros l i t acc Hl Ht; cbn [chunks_from] in Hl.
  - exists []. split; [done|]. rewrite app_nil_r. apply sublist_cons_r in Hl as [Hl|(l' & -> & Hl)]; apply sublist_nil_r in Hl as ->.
    + right. by exists t.
    + left. cbn. by rewrite (accept_below t i Ht).
  - apply sublist_cons_r in Hl as [Hl|(l' & -> & Hl)].
    + destruct (IH l (S i) t acc Hl) as (evs & Hsub & Hres); [destruct t; cbn in *; lia|]. exists evs. split; [by apply sublist_cons|done].
    + cbn [fold_left collect_chunk ck_data ck_ft sc_EventID]. rewrite (accept_below t i Ht). cbn [Z.eqb FrameBridgeStreamData FrameBridgeStreamEnd Pos.eqb].
      destruct (IH l' (S i) (Some (Z.of_nat i)) (acc ++ [ev]) Hl) as (evs & Hsub & Hres); [cbn; lia|].
      exists (ev :: evs). split; [by constructor|]. by rewrite <- app_assoc in Hres.
Qed.

Lemma collect_all i events t acc :
  below t i -> fold_left collect_chunk (chunks_from i events) (Collecting t acc) = Collected (acc ++ events).
Proof.
  revert i t acc. induction events as [|ev events IH]; intros i t acc Ht; cbn [chunks_from fold_left collect_chunk ck_data ck_ft sc_EventID];
    rewrite (accept_below t i Ht); cbn [Z.eqb FrameBridgeStreamData FrameBridgeStreamEnd Pos.eqb]; [by rewrite app_nil_r|].
  rewrite IH by (cbn; lia). by rewrite <- app_assoc.
Qed.

(** ** A WebSocket message and its replies *)

Section websocket.
Context `{ErrorText errCarriageMalformed, ErrorText errJSONRPC, ErrorText errOpaqueContentType, ErrorText errGRPCMalformed, ErrorText errNewRequest}.

Lemma started_sendable env foreign payload :
  be_Kind env = BridgeKindRequest -> is_u16 (be_Protocol env) -> is_u8 (be_ContentType env) -> be_Flags env = 0 -> be_CorrelationID env <> [] ->
  EncodeBridgePayload env None foreign = Some payload -> sendable FrameBridgeRequest env.
Proof.
  intros Hk Hp Hct Hf Hc He. split; [by rewrite Hk|]. split; [|split; [done|intros E; discriminate E]].
  apply payload_split in He as (ev & _ & Hev & _). cbn [bf_Envelope] in Hev. unfold encodeEnvelopeValue in Hev.
  destruct (Z.ltb_spec 255 (blen (be_CorrelationID env))); [done|]. destruct (Z.ltb_spec 255 (blen (be_Method env))); [done|].
  unfold envelope_wf. rewrite Hk, Hf. by repeat split; try apply Hp; try apply Hct.
Qed.

(** The peer's frames for a stream-opening call, and the caller's tables. *)
Record opened (q p : Proxy) (obs : observed) (corrID payload : bytes) (c : call) (st1 : state) (ch : addr)
    (events : list bytes) (frames : list (Z * bytes)) : Prop := {
  op_frames : handleInboundBridgeRequest p obs payload = Sends frames;
  op_chunks : Forall2 (carries corrID) frames (chunks_from 1 events);
  op_pending : st_streamPending st1 !! corrID = Some ch;
  op_buffer : st_chunks st1 !! ch = Some []
}.

Lemma websocket_opened q p st obs corrID msg payload events c st1 ch handler :
  corrID <> [] -> ~ begins_with TLVSafetyLabel msg -> is_resume msg = false -> quiet obs -> Z.of_nat (length events) < 2 ^ 63 ->
  start q true st (Some corrID) true (CallWebSocketMessage msg) = (Waiting c payload, st1) -> c_dataCh c = Some ch ->
  px_WebSocketHandler p = Some handler -> handler msg = inr events ->
  exists frames, opened q p obs corrID payload c st1 ch events frames.
Proof.
  intros Hcorr Hlab Hres Hq Hlen Hstart Hch Hh Hans. unfold start, start_http, start_jsonrpc, start_opaque, start_grpc, start_websocket, openConsumerStream in Hstart. cbn [negb] in Hstart.
  apply open_call_waits in Hstart as (Hwire & _ & _ & _ & _ & (ch' & Hch' & Hpend & Hbuf)). rewrite Hch in Hch'. injection Hch' as <-.
  set (env := mkEnvelope BridgeProtoWebSocket BridgeKindRequest (streamContentType websocketStreamClass) 0 corrID []) in *.
  assert (sendable FrameBridgeRequest env) as Hs by (by apply (started_sendable env msg payload)).
  pose proof (encoded_corr _ _ _ Hwire) as Hcl. cbn [env be_CorrelationID] in Hcl.
  destruct (emit_chunks obs BridgeProtoWebSocket BridgeContentCBOR corrID 1 events Hq) as (frames & Hemit & Hf); [by repeat split|done|lia|].
  exists frames. constructor; try done. unfold handleInboundBridgeRequest.
  rewrite (carried FrameBridgeRequest env msg payload Hs Hlab Hwire). cbn [bf_Envelope be_Protocol env].
  change (route_of p BridgeProtoWebSocket) with (ToStream websocketStreamClass). cbv iota.
  unfold handleInboundStreamRequest. cbn [bf_Envelope bf_Foreign be_Protocol be_CorrelationID env]. rewrite Hres.
  unfold stream_events. rewrite Hh. cbn [bf_Foreign]. by rewrite Hans.
Qed.

(** What any schedule of an opened stream collects. *)
Lemma opened_collects q p obs corrID payload c st1 ch events frames acts st2 taken :
  opened q p obs corrID payload c st1 ch events frames -> arrivals acts = frames -> fold_left (act ch) acts (st1, []) = (st2, taken) ->
  match collectStream taken with
  | CollectFailed _ => False
  | Collected evs | Collecting _ evs => sublist evs events
  end /\
  (fits 0 acts -> occupancy 0 acts = 0%nat -> collectStream taken = Collected events).
Proof.
  intros [_ Hf Hp Hb] Harr Hrun. rewrite <- Harr in Hf.
  destruct (schedule_chunks corrID ch acts st1 [] [] _ Hp Hb Hf) as (st' & buf' & taken' & kept & Hrun' & Hbuf & Heq & Hsub & Hfit).
  rewrite Hrun in Hrun'. injection Hrun' as <- <-. cbn [app] in Heq. split.
  - destruct (collect_sublist taken 1 events None []) as (evs & Hevs & Hres); [|done|].
    { etrans; [|exact Hsub]. rewrite <- Heq. by apply sublist_inserts_r. }
    unfold collectStream. cbn [app] in Hres. by destruct Hres as [-> | [t' ->]].
  - intros Hfits Hocc. destruct (Hfit Hfits) as [-> Hlen]. cbn [length] in Hlen. rewrite Hocc in Hlen.
    destruct buf'; [|done]. rewrite app_nil_r in Heq. rewrite Heq. unfold collectStream. by rewrite collect_all.
Qed.

(** C20: the replies of a WebSocket call come back in order.  However the arrivals of the
    producer's frames and the consumer's reads interleave, the consumer's loop never fails
    and the events it has at any point, or returns, are a subsequence of the handler's
    replies; when the buffer of 32 has room at each arrival and everything is read, it
    returns exactly the handler's replies. *)
Theorem stream_delivery (q p : Proxy) (st : state) (obs : observed) (corrID msg payload : bytes) (events : list bytes)
    (c : call) (st1 : state) (ch : addr) (handler : bytes -> bytes + list bytes)
    (Hcorr : corrID <> []) (Hlabel : ~ begins_with TLVSafetyLabel msg) (Hresume : is_resume msg = false) (Hquiet : quiet obs)
    (Hlen : Z.of_nat (length events) < 2 ^ 63)
    (Hstart : start q true st (Some corrID) true (CallWebSocketMessage msg) = (Waiting c payload, st1)) (Hch : c_dataCh c = Some ch)
    (Hh : px_WebSocketHandler p = Some handler) (Hans : handler msg = inr events) :
  exists frames, handleInboundBridgeRequest p obs payload = Sends frames /\ length frames = S (length events) /\
    forall acts st2 taken, arrivals acts = frames -> fold_left (act ch) acts (st1, []) = (st2, taken) ->
      match collectStream taken with
      | CollectFailed _ => False
      | Collected evs | Collecting _ evs => sublist evs events
      end /\
      (fits 0 acts -> occupancy 0 acts = 0%nat -> collectStream taken = Collected events).
Proof.
  destruct (websocket_opened q p st obs corrID msg payload events c st1 ch handler) as [frames Hop]; [done..|].
  exists frames. split; [apply Hop|]. split.
  - rewrite (Forall2_length _ _ _ (op_chunks _ _ _ _ _ _ _ _ _ _ Hop)). apply length_chunks_from.
  - intros acts st2 taken. by apply (opened_collects q p obs corrID payload c).
Qed.

(** ** An overflow *)

(** The data chunks of a stream, without its end. *)
Fixpoint data_from (i : nat) (events : list bytes) : list streamChunk :=
  match events with
  | [] => []
  | ev :: events => mkChunk FrameBridgeStreamData (Ok (mkControl streamControlData 0 (Z.of_nat i), ev)) :: data_from (S i) events
  end.

Definition end_chunk (i : nat) : streamChunk := mkChunk FrameBridgeStreamEnd (Ok (mkControl streamControlData 0 (Z.of_nat i), [])).

Lemma chunks_data i events : chunks_from i events = data_from i events ++ [end_chunk (i + length events)].
Proof.
  revert i. induction events as [|ev events IH]; intros i; cbn [chunks_from data_from length app].
  - by rewrite Nat.add_0_r.
  - rewrite IH. by replace (i + S (length events))%nat with (S i + length events)%nat by lia.
Qed.

Lemma take_data n i events : take n (data_from i events) = data_from i (take n events).
Proof. revert n i. induction events as [|ev events IH]; intros [|n] i; cbn; try done. by rewrite IH. Qed.

Lemma length_data_from i events : length (data_from i events) = length events.
Proof. revert i. induction events as [|ev events IH]; intros i; cbn; [done|by rewrite IH]. Qed.

(** Arrivals fill the buffer and then are lost. *)
Lemma push_many ks buf :
  (length buf <= streamBuffer)%nat -> fold_left push_chunk ks buf = take streamBuffer (buf ++ ks).
Proof.
  revert buf. induction ks as [|k ks IH]; intros buf Hb; cbn [fold_left].
  - by rewrite app_nil_r, take_ge.
  - unfold push_chunk at 2. case_decide as Hc.
    + rewrite IH by (rewrite length_app; cbn [length]; lia). by rewrite <- app_assoc.
    + rewrite IH by done. rewrite !take_app_ge by lia. replace (streamBuffer - length buf)%nat with 0%nat by lia. by rewrite !take_0.
Qed.

Lemma arrive_many corrID ch fs ks st buf taken :
  st_streamPending st !! corrID = Some ch -> st_chunks st !! ch = Some buf -> Forall2 (carries corrID) fs ks ->
  exists st', fold_left (act ch) (map Arrive fs) (st, taken) = (st', taken) /\ st_streamPending st' !! corrID = Some ch /\
    st_chunks st' !! ch = Some (fold_left push_chunk ks buf).
Proof.
  intros Hp Hb Hf. revert st buf Hp Hb. induction Hf as [|f k fs ks Hk Hf IH]; intros st buf Hp Hb; [by exists st|].
  cbn [map fold_left act]. destruct (arrive_chunk st corrID ch buf f k Hp Hb Hk) as (st1 & -> & Hp1 & Hb1). cbn [default]. unfold id.
  by apply IH.
Qed.

Lemma take_many ch buf st taken :
  st_chunks st !! ch = Some buf -> exists st', fold_left (act ch) (replicate (length buf) Take) (st, taken) = (st', taken ++ buf).
Proof.
  revert st taken. induction buf as [|k buf IH]; intros st taken Hb; [exists st; cbn; by rewrite app_nil_r|].
  cbn [length replicate fold_left act]. rewrite Hb. destruct (IH (take_chunk st ch buf) (taken ++ [k])) as [st' Hst']; [cbn; apply lookup_insert_eq|].
  exists st'. by rewrite Hst', <- app_assoc.
Qed.

Lemma arrivals_app a1 a2 : arrivals (a1 ++ a2) = arrivals a1 ++ arrivals a2.
Proof. apply omap_app. Qed.

Lemma arrivals_map fs : arrivals (map Arrive fs) = fs.
Proof. induction fs as [|f fs IH]; [done|]. cbn. by rewrite <- IH at 2. Qed.

Lemma arrivals_takes n : arrivals (replicate n Take) = [].
Proof. by induction n. Qed.

(** A stream of more than 32 replies can lose events without an error.  If the data
    frames all arrive before the consumer reads, those after the 32nd are dropped; once the
    consumer has read one chunk the end frame fits, and the call returns the first 32
    replies as if they were the whole stream: the tracker asks for increasing event ids,
    not for consecutive ones. *)
Theorem stream_loss (q p : Proxy) (st : state) (obs : observed) (corrID msg payload : bytes) (events : list bytes)
    (c : call) (st1 : state) (ch : addr) (handler : bytes -> bytes + list bytes)
    (Hcorr : corrID <> []) (Hlabel : ~ begins_with TLVSafetyLabel msg) (Hresume : is_resume msg = false) (Hquiet : quiet obs)
    (Hlen : 32 < Z.of_nat (length events) < 2 ^ 63)
    (Hstart : start q true st (Some corrID) true (CallWebSocketMessage msg) = (Waiting c payload, st1)) (Hch : c_dataCh c = Some ch)
    (Hh : px_WebSocketHandler p = Some handler) (Hans : handler msg = inr events) :
  exists frames acts st2 taken, handleInboundBridgeRequest p obs payload = Sends frames /\ arrivals acts = frames /\
    fold_left (act ch) acts (st1, []) = (st2, taken) /\
    collectStream taken = Collected (take 32 events) /\ take 32 events <> events.
Proof.
  destruct (websocket_opened q p st obs corrID msg payload events c st1 ch handler) as [frames [Hfr Hch' Hp Hb]]; [try done..|]; [lia|].
  rewrite chunks_data in Hch'. apply Forall2_app_inv_r in Hch' as (data & last & Hdata & Hlast & ->).
  apply Forall2_cons_inv_r in Hlast as (e & le & He & Hnil & ->). apply Forall2_nil_inv_r in Hnil as ->.
  destruct (arrive_many corrID ch data _ st1 [] [] Hp Hb Hdata) as (sa & Hra & Hpa & Hba). rewrite push_many in Hba by (cbn [length]; lia).
  cbn [app] in Hba. set (kept := take streamBuffer (data_from 1 events)) in *.
  assert (length kept = streamBuffer) as Hk by (unfold kept; rewrite length_take, length_data_from; unfold streamBuffer; lia).
  destruct kept as [|k0 kept'] eqn:Hkept; [discriminate Hk|]. cbn [length] in Hk.
  set (sb := take_chunk sa ch kept').
  destruct (arrive_chunk sb corrID ch kept' e (end_chunk (1 + length events))) as (sc & Hrc & Hpc & Hbc); [done|cbn; apply lookup_insert_eq|done|].
  unfold push_chunk in Hbc. rewrite decide_True in Hbc by (unfold streamBuffer in *; lia).
  destruct (take_many ch (kept' ++ [end_chunk (1 + length events)]) sc [k0] Hbc) as (sd & Hrd).
  exists (data ++ [e]), (map Arrive data ++ [Take; Arrive e] ++ replicate (length (kept' ++ [end_chunk (1 + length events)])) Take), sd, ([k0] ++ kept' ++ [end_chunk (1 + length events)]).
  split; [done|]. split; [rewrite !arrivals_app, arrivals_map, arrivals_takes; done|]. split; [|split].
  - rewrite fold_left_app, Hra. cbn [app fold_left act]. rewrite Hba. cbn [fold_left act]. fold sb. rewrite Hrc. cbn [default]. unfold id. exact Hrd.
  - rewrite app_assoc. change ([k0] ++ kept') with (k0 :: kept'). rewrite <- Hkept. unfold kept. rewrite take_data. unfold collectStream.
    rewrite fold_left_app.
    assert (forall l i t acc, below t i -> exists t', below t' (i + length l) /\
      fold_left collect_chunk (data_from i l) (Collecting t acc) = Collecting t' (acc ++ l)) as Hd.
    { clear. induction l as [|ev l IH]; intros i t acc Ht; cbn [data_from fold_left length].
      - exists t. rewrite Nat.add_0_r, app_nil_r. done.
      - cbn [collect_chunk ck_data ck_ft sc_EventID]. rewrite (accept_below t i Ht). cbn [Z.eqb FrameBridgeStreamData FrameBridgeStreamEnd Pos.eqb].
        destruct (IH (S i) (Some (Z.of_nat i)) (acc ++ [ev])) as (t' & Ht' & ->); [cbn; lia|]. exists t'.
        rewrite <- app_assoc. split; [|done]. by replace (i + S (length l))%nat with (S i + length l)%nat by lia. }
    destruct (Hd (take streamBuffer events) 1%nat None [] ltac:(done)) as (t' & Ht' & ->). cbn [app fold_left collect_chunk end_chunk ck_data ck_ft sc_EventID].
    rewrite accept_below; [done|]. destruct t' as [z|]; [|done]. cbn [below] in *. rewrite length_take in Ht'. unfold streamBuffer in *. lia.
  - intros E. apply (f_equal length) in E. rewrite length_take in E. lia.
Qed.
End websocket.

(** ** A gRPC call *)

Section grpc.
Context `{ErrorText errCarriageMalformed, ErrorText errJSONRPC, ErrorText errOpaqueContentType, ErrorText errGRPCMalformed, ErrorText errNewRequest}.

(** A length-prefixed message below 2^24 octets begins with two zero octets. *)
Lemma lpm_front msg typ : blen msg < 2 ^ 24 -> 0 < typ -> ~ begins_with typ (encodeGRPCLengthPrefixedMessage false msg).
Proof.
  intros Hl Ht [_ Hg]. pose proof (blen_nonneg msg).
  assert (exists r, encodeGRPCLengthPrefixedMessage false msg = x00 :: x00 :: r) as [r Hr].
  { unfold encodeGRPCLengthPrefixedMessage. cbn [app].
    change (be_put 4 ?z) with (z2b (Z.shiftr z (8 * Z.of_nat 3)) :: be_put 3 z). cbn [app].
    assert (z2b (Z.shiftr (u32 (blen msg)) (8 * Z.of_nat 3)) = x00) as ->; [|eauto].
    unfold u32. rewrite Z.mod_small by lia. rewrite Z.shiftr_div_pow2 by lia. by rewrite Z.div_small by lia. }
  rewrite Hr in Hg. unfold slice, be_get in Hg. cbn [drop Nat.sub take fold_left] in Hg. rewrite take_0 in Hg. cbn [fold_left] in Hg.
  change (b2z x00) with 0 in Hg. lia.
Qed.

Lemma lpm_not_resume msg : blen msg < 2 ^ 24 -> is_resume (encodeGRPCLengthPrefixedMessage false msg) = false.
Proof.
  intros Hl. unfold is_resume. destruct (decodeLeadingStreamControl _) as [[sc ev]|] eqn:Hd; [|done]. exfalso.
  apply (lpm_front msg TLVStreamControl); [done|done|]. by eapply control_begins.
Qed.

(** A unary gRPC call through two proxies gets the handler's response.  For a method
    name that fits the envelope and messages below 2^24 octets, the peer hands its handler
    the method and the message, and under every schedule in which both frames of the answer
    arrive and are read, the call returns the handler's response. *)
Theorem grpc_exchange (q p : Proxy) (st : state) (obs : observed) (corrID method req resp payload : bytes)
    (c : call) (st1 : state) (ch : addr) (handler : bytes -> bytes -> bytes + bytes)
    (Hcorr : corrID <> []) (Hreq : blen req < 2 ^ 24) (Hquiet : quiet obs)
    (Hstart : start q true st (Some corrID) true (CallGRPCUnary method req) = (Waiting c payload, st1)) (Hch : c_dataCh c = Some ch)
    (Hh : px_GRPCHandler p = Some handler) (Hans : handler method req = inr resp) :
  exists f1 f2, handleInboundBridgeRequest p obs payload = Sends [f1; f2] /\
    forall acts st2 taken, arrivals acts = [f1; f2] -> fold_left (act ch) acts (st1, []) = (st2, taken) -> occupancy 0 acts = 0%nat ->
      grpc_result (collectStream taken) = Some (Ok resp).
Proof.
  unfold start, start_http, start_jsonrpc, start_opaque, start_grpc, start_websocket, openConsumerStream in Hstart. cbn [negb] in Hstart.
  apply open_call_waits in Hstart as (Hwire & _ & _ & _ & _ & (ch' & Hch' & Hpend & Hbuf)). rewrite Hch in Hch'. injection Hch' as <-.
  set (env := mkEnvelope grpcProtocolID BridgeKindRequest BridgeContentGRPCProto 0 corrID method) in *.
  set (foreign := encodeGRPCLengthPrefixedMessage false req) in *.
  assert (sendable FrameBridgeRequest env) as Hs by (by apply (started_sendable env foreign payload)).
  pose proof (encoded_corr _ _ _ Hwire) as Hcl. cbn [env be_CorrelationID] in Hcl.
  set (events := [encodeGRPCLengthPrefixedMessage false resp]).
  destruct (emit_chunks obs grpcProtocolID BridgeContentGRPCProto corrID 1 events Hquiet) as (frames & Hemit & Hf); [by repeat split|done|cbn; lia|].
  assert (opened q p obs corrID payload c st1 ch events frames) as Hop.
  { constructor; try done. unfold handleInboundBridgeRequest.
    rewrite (carried FrameBridgeRequest env foreign payload Hs (lpm_front req TLVSafetyLabel Hreq ltac:(done)) Hwire). cbn [bf_Envelope be_Protocol env].
    change (route_of p grpcProtocolID) with (ToStream grpcStreamClass). cbv iota.
    unfold handleInboundStreamRequest. cbn [bf_Envelope bf_Foreign be_Protocol be_CorrelationID env].
    unfold foreign at 1. rewrite (lpm_not_resume req Hreq). unfold stream_events. rewrite Hh. cbn [bf_Foreign bf_Envelope be_Method env].
    unfold foreign. rewrite (lpm_decodes false req). cbv iota beta. by rewrite Hans. }
  apply Forall2_length in Hf as Hfl. rewrite length_chunks_from in Hfl. destruct frames as [|f1 [|f2 [|? ?]]]; try discriminate Hfl.
  exists f1, f2. split; [apply Hop|]. intros acts st2 taken Harr Hrun Hocc.
  destruct (opened_collects _ _ _ _ _ _ _ _ _ _ acts st2 taken Hop Harr Hrun) as [_ Hall].
  rewrite Hall; [cbn [grpc_result events]; by rewrite (lpm_decodes false resp)| |done].
  assert (forall acts n, (n + length (arrivals acts) <= streamBuffer)%nat -> fits n acts) as Hfits.
  { clear. induction acts as [|[f|] acts IH]; intros n Hn; cbn [fits]; [done|..].
    - cbn [arrivals omap list_omap length] in Hn. fold (arrivals acts) in Hn. split; [lia|]. apply IH. lia.
    - apply IH. change (arrivals (Take :: acts)) with (arrivals acts) in Hn. lia. }
  apply Hfits. rewrite Harr. cbn. unfold streamBuffer. lia.
Qed.
End grpc.
