(* ===== verification/ProxySamples.v ===== *)
(** * A pair of proxies to try the theorems on

    Concrete backends and calls at which the hypotheses of the proxy theorems hold. *)

From S2P Require Import Prelude Errors Registry Cbor Tlv Bridge CarriageHttp CarriageStream Json CarriageJson Url ProxyEgress Proxy ProxyRuns ProxyExchange ProxyStream.
From Stdlib Require Import Strings.Byte.
From stdpp Require Import gmap relations.
Open Scope Z_scope.

#[local] Instance sample_text (E : Type) : ErrorText E := fun _ => str "malformed".

Definition sample_header : Header := {[ str "Accept" := [str "a/b"; str "c/d"] ]}.
Definition sample_header2 : Header := {[ str "Content-Type" := [str "text/plain"] ]}.

(** A backend that takes the method, URL and body it is asked for and answers 404 to the
    request of the sample exchange, 500 to any other. *)
Definition sample_http_backend : HTTPBackend :=
  mkHTTPBackend (mkURL (str "http") [] None (str "localhost:8080") (str "/base") [] false false [] [] []) (fun _ => None)
    (fun method u _ body =>
       if bool_decide (method = str "GET") && bool_decide (URL_String u = str "http://localhost:8080/a%20b?q=1") && bool_decide (body = str "hi")
       then Response 404 sample_header2 (str "gone") else Response 500 sample_header2 []).

(** Handlers that answer one fixed thing; thirty-three WebSocket replies. *)
Definition sample_proxy : Proxy :=
  mkProxy (Some sample_http_backend)
    (Some (fun _ _ params => RPCResult params)) true
    (Some (fun _ req => inr req)) (Some (fun _ => inr (replicate 33 (str "tick"))))
    0x7001 (Some (fun mt raw => inr (mt, raw))).

Definition quiet_run : observed := mkObserved (fun _ => false) (fun _ => true).

Definition sample_corr : bytes := str "0123456789abcdef".

(** Nothing is carried by this one. *)
Definition empty_proxy : Proxy := mkProxy None None false None None 0 None.

Lemma http_exchange_witness :
  exists c payload st1 wire st2 r fields,
    start sample_proxy true init (Some sample_corr) true (ServeHTTP (str "GET") (str "/a b") (str "q=1") sample_header (Some (str "hi")))
      = (Waiting c payload, st1) /\
    handleInboundBridgeRequest sample_proxy quiet_run payload = Sends [(FrameBridgeResponse, wire)] /\
    Run_frame st1 ChanBridge FrameBridgeResponse wire = Some st2 /\ st_replies st2 !! c_replyCh c = Some [r] /\
    http_reply r = Ok (404, fields, str "gone").
Proof.
  assert (exists c payload st1, start sample_proxy true init (Some sample_corr) true
    (ServeHTTP (str "GET") (str "/a b") (str "q=1") sample_header (Some (str "hi"))) = (Waiting c payload, st1)) as (c & payload & st1 & Hs)
    by (eexists _, _, _; reflexivity).
  exists c, payload, st1.
  destruct (http_exchange sample_proxy sample_proxy init quiet_run sample_corr (str "GET") (str "/a b") (str "q=1") (str "hi") (str "gone") payload
    sample_header sample_header2 404 c st1 sample_http_backend (str "localhost:8080"))
    as [_ (wire & Hw & st2 & r & fields & H1 & H2 & H3 & _)].
  - discriminate.
  - discriminate.
  - reflexivity.
  - reflexivity.
  - reflexivity.
  - reflexivity.
  - by vm_compute.
  - eapply bool_decide_eq_true_1. by vm_compute.
  - eapply bool_decide_eq_true_1. by vm_compute.
  - lia.
  - by vm_compute.
  - by vm_compute.
  - exact Hs.
  - reflexivity.
  - by vm_compute.
  - exists wire, st2, r, fields. split; [exact Hs|]. split; [exact Hw|]. split; [exact H1|]. split; [exact H2|exact H3].
Defined.

Lemma long_target_panics_witness :
  fst (start sample_proxy true init (Some sample_corr) true (ServeHTTP (str "GET") (replicate 252 x2f) [] ∅ (Some []))) = Crashed.
Proof.
  pose proof (long_target_panics sample_proxy init sample_corr (str "GET") (replicate 252 x2f) [] [] ∅ ltac:(by vm_compute)) as H.
  destruct (start _ _ _ _ _ _) as [o st1]. destruct H as [_ H]. exact H.
Defined.

Lemma jsonrpc_exchange_witness :
  exists c payload st1 wire st2 r,
    start sample_proxy true init None true (CallJSONRPC BridgeProtoMCP (str "tools/list") (Some (Some (str "[1]"))) (Some (str "7"))) = (Waiting c payload, st1) /\
    c_key c = str "7" /\ handleInboundBridgeRequest sample_proxy quiet_run payload = Sends [(FrameBridgeResponse, wire)] /\
    Run_frame st1 ChanBridge FrameBridgeResponse wire = Some st2 /\ st_replies st2 !! c_replyCh c = Some [r] /\
    decodeJSONRPCReply r = Ok (inl (Some (str "[1]"))).
Proof.
  assert (exists c payload st1, start sample_proxy true init None true
    (CallJSONRPC BridgeProtoMCP (str "tools/list") (Some (Some (str "[1]"))) (Some (str "7"))) = (Waiting c payload, st1))
    as (c & payload & st1 & Hs) by (eexists _, _, _; reflexivity).
  exists c, payload, st1.
  destruct (jsonrpc_exchange sample_proxy sample_proxy init quiet_run None BridgeProtoMCP (str "tools/list") (str "7") payload
    (Some (str "[1]")) (Some (str "[1]")) c st1 (fun _ _ params => RPCResult params)) as [Hk (wire & Hw & st2 & r & H1 & H2 & H3)].
  - rewrite elem_of_cons. by left.
  - apply utf8_str. by vm_compute.
  - intros v [= <-]. by repeat split.
  - by repeat split.
  - split; [by vm_compute|]. vm_compute. split; discriminate.
  - intros v [= <-]. by repeat split.
  - exact Hs.
  - reflexivity.
  - reflexivity.
  - exists wire, st2, r. split; [exact Hs|]. split; [exact Hk|]. split; [exact Hw|]. split; [exact H1|]. split; [exact H2|exact H3].
Defined.

(** A request under a protocol id nobody assigned, as octets. *)
Definition stray_request : bytes :=
  Eval vm_compute in default [] (EncodeBridgePayload (mkEnvelope 0x0105 BridgeKindRequest 1 0 sample_corr []) None (str "x")).

Lemma unsupported_refused_witness :
  refusal 0x0105 sample_corr BridgeErrProtocolUnsupported (handleInboundBridgeRequest sample_proxy quiet_run stray_request).
Proof.
  exact (unsupported_refused sample_proxy quiet_run stray_request
    (mkBridge (mkEnvelope 0x0105 BridgeKindRequest 1 0 sample_corr []) None (str "x")) ltac:(by vm_compute)).
Defined.

(** One live call. *)
Definition sample_call : call := mkCall (CallWebSocketMessage (str "hi")) sample_corr 0 (Some 1%nat).
Definition sample_state : state := snd (start sample_proxy true init (Some sample_corr) true (CallWebSocketMessage (str "hi"))).

Lemma sample_step : exists payload, start sample_proxy true init (Some sample_corr) true (CallWebSocketMessage (str "hi")) = (Waiting sample_call payload, sample_state).
Proof. eexists. reflexivity. Qed.

Lemma sample_reachable : unique_reachable sample_proxy (sample_state, [sample_call]).
Proof.
  destruct sample_step as [payload Hs]. apply rtc_once. exists (drawn_key (Some sample_corr) (CallWebSocketMessage (str "hi"))). split.
  - by eapply (step_start sample_proxy init [] true (Some sample_corr) true).
  - intros k _. apply not_elem_of_nil.
Qed.

Lemma proxy_safe_witness :
  sample_call ∈ [sample_call] /\ forall ch ft payload, is_Some (Run_frame sample_state ch ft payload).
Proof.
  split; [by apply list_elem_of_singleton|]. apply (proxy_safe sample_proxy sample_state [sample_call]).
  destruct sample_step as [payload Hs]. apply rtc_once. exists (drawn_key (Some sample_corr) (CallWebSocketMessage (str "hi"))).
  by eapply (step_start sample_proxy init [] true (Some sample_corr) true).
Defined.

Lemma reply_delivered_witness :
  exists payload frame st', DecodeBridgeFrame FrameBridgeResponse payload = Ok frame /\
    Run_frame sample_state ChanBridge FrameBridgeResponse payload = Some st' /\
    st_replies st' !! c_replyCh sample_call = Some [mkReply FrameBridgeResponse (bf_Envelope frame) (bf_Foreign frame)].
Proof.
  destruct (some_reply sample_corr) as (payload & frame & Hd & Hk); [discriminate|by vm_compute|].
  destruct (reply_delivered sample_proxy sample_state [sample_call] FrameBridgeResponse payload frame) as (st' & Hrun & Hall);
    [apply sample_reachable|rewrite elem_of_cons; by left|exact Hd|].
  exists payload, frame, st'. split; [exact Hd|]. split; [exact Hrun|].
  rewrite (Hall sample_call) by (by apply list_elem_of_singleton). rewrite Hk, bool_decide_true; [done|]. by split.
Defined.

Lemma jsonrpc_id_reuse_witness :
  exists st c, reachable empty_proxy (st, [c]) /\ c_key c = str "7" /\
    forall ch ft b st', Run_frame st ch ft b = Some st' -> st_replies st' !! c_replyCh c = Some [].
Proof.
  assert (exists payload, EncodeBridgePayload (jsonrpcEnvelope BridgeProtoMCP BridgeKindRequest (str "7") (str "ping")) None
    (json "{'id':7,'jsonrpc':'2.0','method':'ping'}") = Some payload) as [payload Hp] by (eexists; reflexivity).
  destruct (jsonrpc_id_reuse empty_proxy None BridgeProtoMCP (str "ping") None (Some (str "7"))
    (json "{'id':7,'jsonrpc':'2.0','method':'ping'}") (str "7") payload) as (st & c & Hr & Hk & _ & _ & Hrun);
    [by vm_compute|discriminate|exact Hp|].
  exists st, c. split; [exact Hr|]. split; [exact Hk|exact Hrun].
Defined.

Lemma quiet_sample : quiet quiet_run.
Proof. by intros i. Qed.

Lemma stream_delivery_witness :
  exists payload frames, start sample_proxy true init (Some sample_corr) true (CallWebSocketMessage (str "hi")) = (Waiting sample_call payload, sample_state) /\
    handleInboundBridgeRequest sample_proxy quiet_run payload = Sends frames /\ length frames = 34%nat.
Proof.
  destruct sample_step as [payload Hs].
  destruct (stream_delivery sample_proxy sample_proxy init quiet_run sample_corr (str "hi") payload (replicate 33 (str "tick")) sample_call
    sample_state 1%nat (fun _ => inr (replicate 33 (str "tick")))) as (frames & Hf & Hl & _).
  - discriminate.
  - intros [Hb _]. by vm_compute in Hb.
  - reflexivity.
  - apply quiet_sample.
  - by vm_compute.
  - exact Hs.
  - reflexivity.
  - reflexivity.
  - reflexivity.
  - exists payload, frames. split; [exact Hs|]. split; [exact Hf|exact Hl].
Defined.

Lemma stream_loss_witness :
  exists payload frames acts st2 taken, handleInboundBridgeRequest sample_proxy quiet_run payload = Sends frames /\ arrivals acts = frames /\
    fold_left (act 1) acts (sample_state, []) = (st2, taken) /\ collectStream taken = Collected (replicate 32 (str "tick")).
Proof.
  destruct sample_step as [payload Hs]. exists payload.
  destruct (stream_loss sample_proxy sample_proxy init quiet_run sample_corr (str "hi") payload (replicate 33 (str "tick")) sample_call
    sample_state 1%nat (fun _ => inr (replicate 33 (str "tick")))) as (frames & acts & st2 & taken & Hf & Ha & Hr & Hc & _).
  - discriminate.
  - intros [Hb _]. by vm_compute in Hb.
  - reflexivity.
  - apply quiet_sample.
  - by vm_compute.
  - exact Hs.
  - reflexivity.
  - reflexivity.
  - reflexivity.
  - exists frames, acts, st2, taken. split; [exact Hf|]. split; [exact Ha|]. split; [exact Hr|exact Hc].
Defined.

Lemma grpc_exchange_witness :
  exists c payload st1 f1 f2, start sample_proxy true init (Some sample_corr) true (CallGRPCUnary (str "/s/m") (str "req")) = (Waiting c payload, st1) /\
    handleInboundBridgeRequest sample_proxy quiet_run payload = Sends [f1; f2] /\
    forall st2 taken, fold_left (act 1) [Arrive f1; Take; Arrive f2; Take] (st1, []) = (st2, taken) ->
      grpc_result (collectStream taken) = Some (Ok (str "req")).
Proof.
  assert (exists c payload st1, start sample_proxy true init (Some sample_corr) true (CallGRPCUnary (str "/s/m") (str "req")) = (Waiting c payload, st1) /\
    c_dataCh c = Some 1%nat) as (c & payload & st1 & Hs & Hc) by (eexists _, _, _; split; reflexivity).
  destruct (grpc_exchange sample_proxy sample_proxy init quiet_run sample_corr (str "/s/m") (str "req") (str "req") payload c st1 1%nat (fun _ req => inr req))
    as (f1 & f2 & Hf & Hall).
  - discriminate.
  - by vm_compute.
  - apply quiet_sample.
  - exact Hs.
  - exact Hc.
  - reflexivity.
  - reflexivity.
  - exists c, payload, st1, f1, f2. split; [exact Hs|]. split; [exact Hf|]. intros st2 taken Hrun. by apply (Hall [Arrive f1; Take; Arrive f2; Take] st2).
Defined.
