(* ===== verification/Stdio.v ===== *)
(** * The stdio backend (proxy/stdio.go)

    A local child process answers JSON-RPC calls over its standard input and output, one
    object per line.  Each call takes the next local id, registers a channel under its
    decimal digits and writes a request line; the read loop hands a reply line to the
    channel registered under the octets of its id token, until the child closes its output
    or writes a line its scanner cannot hold. *)

From S2P Require Import Prelude Errors Cbor Bridge CarriageHttp CarriageStream Json JsonLine CarriageJson ProxyEgress Proxy.
From Stdlib Require Import Strings.Byte.
From stdpp Require Import gmap relations.
Open Scope Z_scope.

Inductive stdioReply : Type :=
| stdioResult (res : option bytes)
| stdioRPCError (e : JSONRPCError)
| stdioMalformed.

Record StdioBackend : Type := mkStdio {
  sb_nextID : Z;                              (* uint64 *)
  sb_pending : gmap bytes addr;
  sb_replies : gmap addr (list stdioReply);   (* channels of capacity 1 *)
  sb_next : addr;
  sb_reading : bool                           (* the goroutine of readLoop runs *)
}.

Definition stdio_init : StdioBackend := mkStdio 0 ∅ ∅ 0 true.

(** [strconv.FormatUint] in base ten. *)
Definition FormatUint (z : Z) : bytes := dec_digits 20 z.

Inductive stdio_call_error : Type :=
| stdioEncode (e : errJSONRPC)
| stdioWrite.

(** The locals of a waiting call. *)
Record stdio_call : Type := mkStdioCall { sc_key : bytes; sc_ch : addr }.

(** [Call] up to its wait: the line written, and the waiting call.  [params] is a
    [json.RawMessage], so a nil one is still a non-nil [any]. *)
Definition Call (b : StdioBackend) (method : bytes) (params : option bytes) (writeOK : bool)
    : result stdio_call_error (stdio_call * bytes) * StdioBackend :=
  let localID := u64 (sb_nextID b + 1) in
  let key := FormatUint localID in
  match encodeJSONRPCRequest None method (Some (raw_or_null params)) (Some key) with
  | Err e => (Err (stdioEncode e), mkStdio localID (sb_pending b) (sb_replies b) (sb_next b) (sb_reading b))
  | Ok (wire, _) =>
      let ch := sb_next b in
      let b1 := mkStdio localID (<[key := ch]> (sb_pending b)) (<[ch := []]> (sb_replies b)) (S ch) (sb_reading b) in
      if writeOK then (Ok (mkStdioCall key ch, wire ++ [x0a]), b1)
      else (Err stdioWrite, mkStdio localID (delete key (sb_pending b1)) (sb_replies b1) (S ch) (sb_reading b))
  end.

(** The line of a notification, [None] when nothing is written. *)
Definition Notify (method : bytes) (params : option bytes) : option bytes :=
  match encodeJSONRPCNotification method (Some (raw_or_null params)) with
  | Ok wire => Some (wire ++ [x0a])
  | Err _ => None
  end.

Definition reply_of (parsed : jsonrpcParsed) : stdioReply :=
  if jp_HasError parsed then
    match jp_Error parsed ≫= unmarshal_rpc_error with Some je => stdioRPCError je | None => stdioMalformed end
  else stdioResult (jp_Result parsed).

(** One iteration of [readLoop]; [None]: the send on the channel blocks. *)
Definition readLoop_line (b : StdioBackend) (line : bytes) : option StdioBackend :=
  match line with
  | [] => Some b
  | _ =>
      match parseJSONRPCObject line with
      | Err _ => Some b
      | Ok parsed =>
          match jp_ID parsed with
          | None => Some b
          | Some key =>
              match sb_pending b !! key with
              | None => Some b
              | Some waiter =>
                  let pending := delete key (sb_pending b) in
                  match sb_replies b !! waiter with
                  | Some [] => Some (mkStdio (sb_nextID b) pending (<[waiter := [reply_of parsed]]> (sb_replies b)) (sb_next b) (sb_reading b))
                  | _ => None
                  end
              end
          end
      end
  end.

(** The buffer of the scanner. *)
Definition scannerMax : Z := 16 * 1024 * 1024.

(** [bufio.ScanLines] drops one carriage return at the end of a line. *)
Definition dropCR (raw : bytes) : bytes :=
  match rev raw with c :: r => if oct c x0d then rev r else raw | [] => raw end.

(** The loop has ended: the scanner gave no line. *)
Definition stopped (b : StdioBackend) : StdioBackend :=
  mkStdio (sb_nextID b) (sb_pending b) (sb_replies b) (sb_next b) false.

(** [scanner.Scan] on the octets [raw] before the next newline or the end, and the body of the
    loop: a line that fills the buffer is [bufio.ErrTooLong] and ends the loop. *)
Definition readLoop_scan (b : StdioBackend) (raw : bytes) : option StdioBackend :=
  if scannerMax <=? blen raw then Some (stopped b) else readLoop_line b (dropCR raw).

(** The context of a call is done. *)
Definition abandon (b : StdioBackend) (c : stdio_call) : StdioBackend :=
  mkStdio (sb_nextID b) (delete (sc_key c) (sb_pending b)) (sb_replies b) (sb_next b) (sb_reading b).

(** ** Runs *)

(** The backend with the live calls and the local ids they were given. *)
Inductive stdio_step : StdioBackend * list stdio_call -> StdioBackend * list stdio_call -> Prop :=
| stdio_line b calls raw b' : sb_reading b = true -> x0a ∉ raw -> readLoop_scan b raw = Some b' -> stdio_step (b, calls) (b', calls)
| stdio_eof b calls : sb_reading b = true -> stdio_step (b, calls) (stopped b, calls)
| stdio_started b calls method params c wire b' :
    sb_nextID b < 2 ^ 64 - 1 ->
    Call b method params true = (Ok (c, wire), b') -> stdio_step (b, calls) (b', c :: calls)
| stdio_failed b calls method params writeOK e b' :
    sb_nextID b < 2 ^ 64 - 1 ->
    Call b method params writeOK = (Err e, b') -> stdio_step (b, calls) (b', calls)
| stdio_returned b calls1 c calls2 r :
    sb_replies b !! sc_ch c = Some [r] -> stdio_step (b, calls1 ++ c :: calls2) (b, calls1 ++ calls2)
| stdio_done b calls1 c calls2 : stdio_step (b, calls1 ++ c :: calls2) (abandon b c, calls1 ++ calls2).

Definition stdio_reachable (s : StdioBackend * list stdio_call) : Prop := rtc stdio_step (stdio_init, []) s.

Example stdio_example :
  let '(r, b) := Call stdio_init (str "ping") None true in
  match r with
  | Ok (c, line) => line = json "{'id':1,'jsonrpc':'2.0','method':'ping','params':null}" ++ [x0a] /\
      (b' ← readLoop_line b (json "{'jsonrpc':'2.0','id':1,'result':true}"); sb_replies b' !! sc_ch c) = Some [stdioResult (Some (str "true"))]
  | Err _ => False
  end.
Proof. split; reflexivity. Qed.

(** ** Local ids *)

Lemma FormatUint_inj x y : 0 <= x < 2 ^ 64 -> 0 <= y < 2 ^ 64 -> FormatUint x = FormatUint y -> x = y.
Proof.
  intros Hx Hy E. unfold FormatUint in E. pose proof (dec_digits_value 20 x ltac:(lia) ltac:(lia)) as H1.
  rewrite E, (dec_digits_value 20 y ltac:(lia) ltac:(lia)) in H1. congruence.
Qed.

(** A key in use is the digits of an id already given out. *)
Definition issued (n : Z) (key : bytes) : Prop := exists i, 1 <= i <= n /\ key = FormatUint i.

Record stdio_inv (s : StdioBackend * list stdio_call) : Prop := {
  si_range : 0 <= sb_nextID s.1 < 2 ^ 64;
  si_pending k ch : sb_pending s.1 !! k = Some ch -> sb_replies s.1 !! ch = Some [] /\ issued (sb_nextID s.1) k;
  si_inj k1 k2 ch : sb_pending s.1 !! k1 = Some ch -> sb_pending s.1 !! k2 = Some ch -> k1 = k2;
  si_fresh ch l : sb_replies s.1 !! ch = Some l -> (ch < sb_next s.1)%nat;
  si_calls c : c ∈ s.2 -> issued (sb_nextID s.1) (sc_key c) /\ is_Some (sb_replies s.1 !! sc_ch c);
  si_keys : NoDup (map sc_key s.2);
  si_chans : NoDup (map sc_ch s.2);
  si_waits c : c ∈ s.2 -> sb_pending s.1 !! sc_key c = Some (sc_ch c) \/ exists r, sb_replies s.1 !! sc_ch c = Some [r]
}.

Lemma issued_mono n m key : issued n key -> n <= m -> issued m key.
Proof. intros (i & Hi & ->) Hm. exists i. split; [lia|done]. Qed.

Lemma next_not_issued n : 0 <= n < 2 ^ 64 - 1 -> ~ issued n (FormatUint (n + 1)).
Proof. intros Hn (i & Hi & E). apply FormatUint_inj in E; lia. Qed.

(** ** The invariant is kept *)

Lemma stdio_inv_init : stdio_inv (stdio_init, []).
Proof.
  split; simpl; try (intros; by rewrite ?lookup_empty in * ); try (intros; set_solver); try constructor; lia.
Qed.

(** A reply line empties the pending entry into its channel. *)
Lemma inv_line b calls line b' : stdio_inv (b, calls) -> readLoop_line b line = Some b' -> stdio_inv (b', calls).
Proof.
  intros I H. unfold readLoop_line in H. destruct line as [|o line]; [by injection H as <-|].
  destruct (parseJSONRPCObject (o :: line)) as [parsed|]; [|by injection H as <-].
  destruct (jp_ID parsed) as [key|]; [|by injection H as <-].
  destruct (sb_pending b !! key) as [w|] eqn:Ew; [|by injection H as <-].
  destruct (sb_replies b !! w) as [[|? ?]|] eqn:Er; try discriminate. injection H as <-.
  destruct I as [Ir Ip Ii If Ic Ik Ih Iw]; simpl in *. split; simpl; try done.
  - intros k ch [Hk Hp]%lookup_delete_Some. rewrite lookup_insert_ne; [by apply Ip|].
    intros <-. apply Hk, (Ii key k w Ew Hp).
  - intros k1 k2 ch [_ H1]%lookup_delete_Some [_ H2]%lookup_delete_Some. by apply (Ii k1 k2 ch).
  - intros ch l [[<- _]|[_ Hl]]%lookup_insert_Some; [by apply (If w [])|by apply (If ch l)].
  - intros c Hc. destruct (Ic c Hc) as [Hi Hs]. split; [done|].
    destruct (decide (w = sc_ch c)) as [<-|Hw]; [by rewrite lookup_insert_eq|by rewrite lookup_insert_ne].
  - intros c Hc. destruct (decide (w = sc_ch c)) as [->|Hw]; [right; rewrite lookup_insert_eq; eauto|].
    rewrite (lookup_insert_ne _ _ _ _ Hw). destruct (Iw c Hc) as [Hp|Hp]; [|by right].
    left. rewrite lookup_delete_ne; [done|]. intros ->. congruence.
Qed.

(** Taking a channel without registering it, as a call that fails does. *)
Lemma inv_bump (b : StdioBackend) (calls : list stdio_call) (pending : gmap bytes addr) (replies : gmap addr (list stdioReply)) (next : addr) :
  stdio_inv (b, calls) -> sb_nextID b < 2 ^ 64 - 1 -> pending = sb_pending b ->
  (replies = sb_replies b /\ next = sb_next b \/ replies = <[sb_next b := []]> (sb_replies b) /\ next = S (sb_next b)) ->
  stdio_inv (mkStdio (sb_nextID b + 1) pending replies next (sb_reading b), calls).
Proof.
  intros [Ir Ip Ii If Ic Ik Ih Iw] Hn -> Hr; simpl in *.
  assert (Hold : forall ch l, sb_replies b !! ch = Some l -> replies !! ch = Some l).
  { intros ch l Hl. destruct Hr as [[-> _]|[-> _]]; [done|]. rewrite lookup_insert_ne; [done|].
    pose proof (If ch l Hl). lia. }
  split; simpl; try done; [lia| | | |].
  - intros k ch Hk. destruct (Ip k ch Hk) as [H1 H2]. split; [by apply Hold|]. apply (issued_mono _ _ _ H2). lia.
  - intros ch l Hl. destruct Hr as [[-> ->]|[-> ->]]; [by apply (If ch l)|].
    apply lookup_insert_Some in Hl as [[<- _]|[_ Hl]]; [lia|]. pose proof (If ch l Hl). lia.
  - intros c Hc. destruct (Ic c Hc) as [H1 [l Hl]]. split; [apply (issued_mono _ _ _ H1); lia|].
    exists l. by apply Hold.
  - intros c Hc. destruct (Iw c Hc) as [Hp|[r Hp]]; [by left|]. right. exists r. by apply Hold.
Qed.

Lemma next_key b calls : stdio_inv (b, calls) -> sb_nextID b < 2 ^ 64 - 1 ->
  u64 (sb_nextID b + 1) = sb_nextID b + 1 /\ sb_pending b !! FormatUint (sb_nextID b + 1) = None /\
  forall c, c ∈ calls -> sc_key c <> FormatUint (sb_nextID b + 1).
Proof.
  intros [Ir Ip Ii If Ic Ik Ih Iw] Hn; simpl in *. assert (Hno := next_not_issued (sb_nextID b) ltac:(lia)). split; [|split].
  - unfold u64. apply Z.mod_small. lia.
  - destruct (sb_pending b !! _) as [ch|] eqn:E; [|done]. by destruct (Hno (proj2 (Ip _ _ E))).
  - intros c Hc E. apply Hno. rewrite <- E. apply (Ic c Hc).
Qed.

Lemma inv_register b calls key ch : stdio_inv (b, calls) -> sb_nextID b < 2 ^ 64 - 1 ->
  key = FormatUint (sb_nextID b + 1) -> ch = sb_next b ->
  stdio_inv (mkStdio (sb_nextID b + 1) (<[key := ch]> (sb_pending b)) (<[ch := []]> (sb_replies b)) (S ch) (sb_reading b),
             mkStdioCall key ch :: calls).
Proof.
  intros I Hn -> ->. destruct (next_key b calls I Hn) as (_ & Hfree & Hkeys).
  assert (Hch : forall l, sb_replies b !! sb_next b <> Some l).
  { intros l Hl. pose proof (si_fresh _ I _ _ Hl) as Hlt. simpl in Hlt. lia. }
  pose proof (inv_bump b calls _ _ _ I Hn eq_refl (or_intror (conj eq_refl eq_refl))) as J.
  destruct I as [Ir Ip Ii If Ic Ik Ih Iw], J as [Jr Jp Ji Jf Jc Jk Jh Jw]; simpl in *. split; simpl; try done.
  - intros k ch [[<- <-]|[_ Hk]]%lookup_insert_Some; [|by apply Jp].
    rewrite lookup_insert_eq. split; [done|]. exists (sb_nextID b + 1). split; [lia|done].
  - intros k1 k2 ch [[<- <-]|[_ H1]]%lookup_insert_Some [[<- E]|[_ H2]]%lookup_insert_Some; try done.
    + by destruct (Hch _ (proj1 (Ip _ _ H2))).
    + subst ch. by destruct (Hch _ (proj1 (Ip _ _ H1))).
    + by apply (Ii k1 k2 ch).
  - intros c [->|Hc]%elem_of_cons; [|by apply Jc]. simpl. rewrite lookup_insert_eq. split; [|done].
    exists (sb_nextID b + 1). split; [lia|done].
  - constructor; [|done]. intros (c & E & Hc)%list_elem_of_fmap. by apply (Hkeys c Hc).
  - constructor; [|done]. intros (c & E & Hc)%list_elem_of_fmap. destruct (proj2 (Ic c Hc)) as [l Hl].
    apply (Hch l). by rewrite E.
  - intros c [->|Hc]%elem_of_cons; [left; simpl; by rewrite lookup_insert_eq|].
    destruct (Jw c Hc) as [Hp|Hp]; [left|by right]. rewrite lookup_insert_ne; [done|]. intros E. by apply (Hkeys c Hc).
Qed.

(** What [Call] does to the backend on each of its branches. *)
Lemma inv_call b calls method params writeOK r b' : stdio_inv (b, calls) -> sb_nextID b < 2 ^ 64 - 1 ->
  Call b method params writeOK = (r, b') ->
  stdio_inv (b', match r with Ok (c, _) => c :: calls | Err _ => calls end).
Proof.
  intros I Hn H. destruct (next_key b calls I Hn) as (Hu & Hfree & _). unfold Call in H. rewrite Hu in H. cbv zeta in H.
  destruct (encodeJSONRPCRequest _ _ _ _) as [[wire cid]|e].
  - destruct writeOK; injection H as <- <-; [by apply inv_register|]. simpl.
    rewrite (delete_insert_id _ _ _ Hfree). apply inv_bump; auto.
  - injection H as <- <-. apply inv_bump; auto.
Qed.

Lemma NoDup_map_app {A B} (g : A -> B) l1 x l2 : NoDup (map g (l1 ++ x :: l2)) ->
  NoDup (map g (l1 ++ l2)) /\ forall y, y ∈ l1 ++ l2 -> g y <> g x.
Proof.
  intros H. assert (Hp : l1 ++ x :: l2 ≡ₚ x :: (l1 ++ l2)) by (by rewrite Permutation_middle).
  rewrite Hp in H. apply NoDup_cons in H as [Hx Hn]. split; [done|].
  intros y Hy E. apply Hx, list_elem_of_fmap. eauto.
Qed.

(** A call leaves: by taking its reply or because its context is done. *)
Lemma inv_leave b b' calls1 c calls2 : stdio_inv (b, calls1 ++ c :: calls2) -> b' = b \/ b' = abandon b c ->
  stdio_inv (b', calls1 ++ calls2).
Proof.
  intros [Ir Ip Ii If Ic Ik Ih Iw] Hb; simpl in *.
  destruct (NoDup_map_app _ _ _ _ Ik) as [Hk Hkc], (NoDup_map_app _ _ _ _ Ih) as [Hh _].
  assert (Hin : forall d, d ∈ calls1 ++ calls2 -> d ∈ calls1 ++ c :: calls2) by set_solver.
  destruct Hb as [-> | ->]; split; simpl; auto.
  - intros k ch [_ Hl]%lookup_delete_Some. by apply Ip.
  - intros k1 k2 ch [_ H1]%lookup_delete_Some [_ H2]%lookup_delete_Some. by apply (Ii k1 k2 ch).
  - intros d Hd. destruct (Iw d (Hin d Hd)) as [Hp|Hp]; [left|by right].
    rewrite lookup_delete_ne; [done|]. intros E. by apply (Hkc d Hd).
Qed.

Lemma inv_stopped b calls : stdio_inv (b, calls) -> stdio_inv (stopped b, calls).
Proof. intros [Ir Ip Ii If Ic Ik Ih Iw]. by split. Qed.

Lemma stdio_invariant s : stdio_reachable s -> stdio_inv s.
Proof.
  intros H. unfold stdio_reachable in H. remember (stdio_init, []) as s0 eqn:E.
  assert (I : stdio_inv s0) by (subst; apply stdio_inv_init). clear E.
  induction H as [s|s1 s2 s3 Hs _ IH]; [done|]. apply IH. clear IH s3.
  destruct Hs as [b calls raw b' _ _ Hl|b calls _|b calls me pa c wire b' Hn Hc|b calls me pa w e b' Hn Hc|b c1 c c2 r Hr|b c1 c c2].
  - unfold readLoop_scan in Hl. destruct (_ <=? _); [injection Hl as <-; by apply inv_stopped|by apply (inv_line b calls (dropCR raw))].
  - by apply inv_stopped.
  - exact (inv_call b calls me pa true _ b' I Hn Hc).
  - exact (inv_call b calls me pa w _ b' I Hn Hc).
  - by apply (inv_leave b b c1 c c2); auto.
  - apply (inv_leave b (abandon b c) c1 c c2); auto.
Qed.

(** A line whose id is that of a waiting call. *)
Lemma line_delivered b calls c o line parsed : stdio_inv (b, calls) -> c ∈ calls -> sb_replies b !! sc_ch c = Some [] ->
  parseJSONRPCObject (o :: line) = Ok parsed -> jp_ID parsed = Some (sc_key c) ->
  exists b', readLoop_line b (o :: line) = Some b' /\ sb_replies b' !! sc_ch c = Some [reply_of parsed] /\
    sb_pending b' = delete (sc_key c) (sb_pending b) /\
    forall d, d ∈ calls -> d <> c -> sb_replies b' !! sc_ch d = sb_replies b !! sc_ch d.
Proof.
  intros I Hc Hr Hp Hid. pose proof (si_waits _ I c Hc) as Hw. simpl in Hw. destruct Hw as [Hw|[r Hw]]; [|congruence].
  eexists. unfold readLoop_line. rewrite Hp, Hid, Hw, Hr. split; [reflexivity|]. simpl.
  rewrite lookup_insert_eq. split; [done|]. split; [done|]. intros d Hd Hne. apply lookup_insert_ne. intros E.
  apply Hne. pose proof (si_chans _ I) as Hn. simpl in Hn. apply list_elem_of_lookup in Hc as [i Hi], Hd as [j Hj].
  assert (i = j) as <-; [|congruence].
  apply (NoDup_lookup _ _ _ (sc_ch c) Hn); rewrite list_lookup_fmap; [by rewrite Hi|by rewrite Hj, E].
Qed.

(** Once the loop has ended no channel that exists gets a reply, and it stays ended. *)
Lemma stopped_silent b calls b' calls' : stdio_inv (b, calls) -> sb_reading b = false -> stdio_step (b, calls) (b', calls') ->
  sb_reading b' = false /\ forall ch l, sb_replies b !! ch = Some l -> sb_replies b' !! ch = Some l.
Proof.
  intros I Hf Hs. assert (forall ch l, sb_replies b !! ch = Some l -> <[sb_next b := []]> (sb_replies b) !! ch = Some l) as Hnew.
  { intros ch l Hl. rewrite lookup_insert_ne; [done|]. pose proof (si_fresh _ I ch l Hl) as Hlt. simpl in Hlt. lia. }
  inversion Hs; subst; try congruence; try done.
  - unfold Call in *. cbv zeta in *. destruct (encodeJSONRPCRequest _ _ _ _) as [[w cid]|]; [|done]. by match goal with E : (_, _) = _ |- _ => injection E as _ _ <- end.
  - unfold Call in *. cbv zeta in *. destruct (encodeJSONRPCRequest _ _ _ _) as [[w cid]|]; [destruct writeOK; [done|]|];
      by match goal with E : (_, _) = _ |- _ => injection E as _ <- end.
Qed.

(** C22: In every state the backend reaches while fewer than 2^64 - 1 calls were made, the read
    loop takes whatever line the child writes without blocking; a line shorter than the
    16 MiB buffer of the scanner whose id is the digits of a waiting call puts its reply,
    and nothing else, in the channel of that call and of no other live call; a longer line
    ends the loop, and once it has ended no call that waits ever gets a reply. *)
Theorem stdio_delivered (b : StdioBackend) (calls : list stdio_call) :
  stdio_reachable (b, calls) ->
  (forall raw, is_Some (readLoop_scan b raw)) /\
  (forall c raw o line parsed, c ∈ calls -> sb_replies b !! sc_ch c = Some [] -> blen raw < scannerMax -> dropCR raw = o :: line ->
    parseJSONRPCObject (o :: line) = Ok parsed -> jp_ID parsed = Some (sc_key c) ->
    exists b', readLoop_scan b raw = Some b' /\ sb_replies b' !! sc_ch c = Some [reply_of parsed] /\
      sb_pending b' = delete (sc_key c) (sb_pending b) /\
      forall d, d ∈ calls -> d <> c -> sb_replies b' !! sc_ch d = sb_replies b !! sc_ch d) /\
  (forall raw, scannerMax <= blen raw -> readLoop_scan b raw = Some (stopped b)) /\
  (sb_reading b = false -> forall b' calls', rtc stdio_step (b, calls) (b', calls') ->
    sb_reading b' = false /\ forall ch l, sb_replies b !! ch = Some l -> sb_replies b' !! ch = Some l).
Proof.
  intros Hreach. pose proof (stdio_invariant _ Hreach) as I. split; [|split; [|split]].
  - intros raw. unfold readLoop_scan. destruct (_ <=? _); [by eexists|]. unfold readLoop_line. destruct (dropCR raw) as [|o line]; [by eexists|].
    destruct (parseJSONRPCObject (o :: line)) as [parsed|]; [|by eexists]. destruct (jp_ID parsed) as [key|]; [|by eexists].
    destruct (sb_pending b !! key) as [w|] eqn:Ew; [|by eexists].
    pose proof (si_pending _ I key w Ew) as [Hw _]. simpl in Hw. rewrite Hw. by eexists.
  - intros c raw o line parsed Hc Hr Hl Hd Hp Hid. unfold readLoop_scan. rewrite (proj2 (Z.leb_gt _ _)), Hd by done. by apply (line_delivered b calls).
  - intros raw Hl. unfold readLoop_scan. by rewrite (proj2 (Z.leb_le _ _)).
  - intros Hf b' calls' Hrun. remember (b, calls) as s eqn:Es. remember (b', calls') as t eqn:Et. revert b calls I Hf Es Hreach.
    induction Hrun as [s|s [b1 calls1] t Hstep Hrun IH]; intros b calls I Hf -> Hreach; [injection Et as -> ->; done|].
    destruct (stopped_silent _ _ _ _ I Hf Hstep) as [Hf1 Hl1].
    assert (stdio_reachable (b1, calls1)) as Hr1 by (eapply rtc_r; [exact Hreach|exact Hstep]).
    destruct (IH Et b1 calls1 (stdio_invariant _ Hr1) Hf1 eq_refl Hr1) as [Hf2 Hl2]. split; [done|]. intros ch l Hl. by apply Hl2, Hl1.
Qed.

(** ** The line written *)

Lemma digits_free fuel z : newline_free (dec_digits fuel z).
Proof.
  revert z. induction fuel as [|fuel IH]; intros z; [apply newline_free_nil|]. cbn [dec_digits].
  pose proof (Z.mod_pos_bound z 10 ltac:(lia)) as Hm. destruct (digit_of (z mod 10) Hm) as [Hd _].
  rewrite newline_free_app, newline_free_cons. split; [destruct (z <? 10); [apply newline_free_nil|apply IH]|].
  split; [|apply newline_free_nil]. intros E. rewrite E in Hd. by vm_compute in Hd.
Qed.

Lemma raw_or_null_free params p : raw_or_null params = Some p -> newline_free p.
Proof.
  destruct params as [raw|]; cbn [raw_or_null]; [apply compact_free|]. intros [= <-].
  apply (bool_decide_unpack (newline_free (str "null"))). by vm_compute.
Qed.

Lemma members_free method p id : newline_free p -> newline_free id ->
  newline_free (marshal_object (request_members method (Some p) (Some id))).
Proof. intros Hp Hi. apply marshal_free. repeat apply Forall_cons_2; try done; apply quote_free. Qed.

Lemma Call_line b method params c line b' : Call b method params true = (Ok (c, line), b') ->
  exists p, raw_or_null params = Some p /\ sc_key c = FormatUint (u64 (sb_nextID b + 1)) /\
    line = marshal_object (request_members method (Some p) (Some (sc_key c))) ++ [x0a].
Proof.
  unfold Call. cbv zeta. destruct (encodeJSONRPCRequest _ _ _ _) as [[wire cid]|] eqn:E; [|done]. intros [= <- <- _].
  unfold encodeJSONRPCRequest in E. destruct (raw_or_null params) as [p|] eqn:Ep; [|done]. cbn [mbind result_bind marshal_opt] in E.
  exists p. split; [done|]. split; [done|]. cbn [sc_key].
  apply bind_Ok in E as (parsed & _ & E). apply bind_Ok in E as (corr & _ & E). by injection E as <- _.
Qed.

(** The line [Call] writes to the child is framed as the stdio transport requires: it
    ends in its only newline, whatever the method text and the parameters are; when the
    method is valid text and the parameters are valid JSON the child reads back the method,
    the call's own id and the parameters in compact form. *)
Theorem stdio_line_framed (b : StdioBackend) (method : bytes) (params : option bytes) c line b' :
  Call b method params true = (Ok (c, line), b') ->
  exists wire, line = wire ++ [x0a] /\ x0a ∉ wire /\
    (utf8 method -> (forall p, raw_or_null params = Some p -> document p) ->
     exists parsed, decodeJSONRPCRequestOrNotification wire false = Ok parsed /\ jp_Method parsed = method /\
       jp_ID parsed = Some (sc_key c) /\ jsonrpcParams wire = raw_or_null params).
Proof.
  intros H. destruct (Call_line _ _ _ _ _ _ H) as (p & Hp & Hk & ->). eexists. split; [done|].
  assert (Hid : newline_free (sc_key c)) by (rewrite Hk; apply digits_free). split; [by apply members_free; [apply (raw_or_null_free params)|]|].
  intros Hm Hd. assert (Di : document (sc_key c)).
  { rewrite Hk. apply digits_document. pose proof (u64_range (sb_nextID b + 1)) as Hu. unfold is_u64 in Hu. lia. }
  destruct (request_parses method (Some p) (Some (sc_key c)) Hm) as [Hr Hpa]; [by intros ? [= <-]; apply Hd|by intros ? [= <-]|].
  eexists. unfold decodeJSONRPCRequestOrNotification. rewrite Hr. cbn [mbind result_bind]. split; [done|]. by rewrite Hpa, Hp.
Qed.

(** A call without parameters still writes a [params] member, [null]: the nil
    [json.RawMessage] is a non-nil interface, so the encoder's test that would leave the
    member out does not see it. *)
Theorem stdio_null_params (b : StdioBackend) (method : bytes) (c : stdio_call) (line : bytes) (b' : StdioBackend) :
  Call b method None true = (Ok (c, line), b') ->
  line = marshal_object (request_members method (Some (str "null")) (Some (sc_key c))) ++ [x0a].
Proof. intros H. destruct (Call_line _ _ _ _ _ _ H) as (p & Hp & _ & ->). by injection Hp as <-. Qed.

(** ** Samples *)

Definition sample_backend : StdioBackend := (Call (Call stdio_init (str "ping") None true).2 (str "list") (Some (json "{'x' : 1}")) true).2.
Definition sample_calls : list stdio_call := [mkStdioCall (str "2") 1%nat; mkStdioCall (str "1") 0%nat].

Lemma sample_reached : stdio_reachable (sample_backend, sample_calls).
Proof.
  eapply rtc_l; [eapply (stdio_started _ _ (str "ping") None); [done|reflexivity]|].
  eapply rtc_l; [eapply (stdio_started _ _ (str "list") (Some (json "{'x' : 1}"))); [done|reflexivity]|]. reflexivity.
Qed.

Lemma stdio_delivered_witness :
  exists b', readLoop_scan sample_backend (json "{'id':1,'jsonrpc':'2.0','result':[]}" ++ [x0d]) = Some b' /\
    sb_replies b' !! 0%nat = Some [stdioResult (Some (str "[]"))].
Proof.
  destruct (stdio_delivered sample_backend sample_calls sample_reached) as (_ & H & _).
  destruct (H (mkStdioCall (str "1") 0%nat) (json "{'id':1,'jsonrpc':'2.0','result':[]}" ++ [x0d]) x7b (json "'id':1,'jsonrpc':'2.0','result':[]}") _
    (list_elem_of_further _ _ _ (list_elem_of_here _ _)) ltac:(reflexivity) ltac:(reflexivity) ltac:(reflexivity) ltac:(reflexivity) ltac:(reflexivity)) as (b' & Hb & Hr & _).
  exists b'. split; [exact Hb|exact Hr].
Defined.

Lemma stdio_line_framed_witness :
  exists wire, json "{'id':1,'jsonrpc':'2.0','method':'ping','params':{'x':1}}" ++ [x0a] = wire ++ [x0a] /\ x0a ∉ wire.
Proof.
  destruct (stdio_line_framed stdio_init (str "ping") (Some (json "{'x' : 1}")) _ _ _ eq_refl) as (wire & E & Hn & _).
  exists wire. split; [exact E|exact Hn].
Defined.

Lemma stdio_null_params_witness :
  json "{'id':1,'jsonrpc':'2.0','method':'ping','params':null}" ++ [x0a] =
  marshal_object (request_members (str "ping") (Some (str "null")) (Some (str "1"))) ++ [x0a].
Proof. exact (stdio_null_params stdio_init (str "ping") _ _ _ eq_refl). Defined.
