(* ===== verification/Sul.v ===== *)
(** * The system under learning (harness/statelearn/sul)

    The driver that active automata learning talks to: it runs one endpoint of the
    SDK in-process, plays the other endpoint by hand, turns every abstract input
    symbol into a frame and every reaction into an abstract output symbol.

    The two ends share an unbuffered pipe.  A handshake of the endpoint is a program
    of [SdkHandshake]: a write of the driver is taken by a program that is reading, a
    read takes what a program is writing, and the outcome is there when the program
    has ended.  The windows the driver waits are long against the endpoint's
    reactions, so a reaction that is due is taken to arrive in its window, and the
    five-second wait of [CloseGraceful] not to run out within an episode. *)

From S2P Require Import Prelude Errors Registry Sha256 Crypto Tlv Frame Aead Kem KeySchedule Transcript.
From S2P Require Import Handshake Cbor ErrorFrame Conn SdkHandshake WireValidator.
From Stdlib Require Import Strings.Byte.
From stdpp Require Import gmap.
Open Scope Z_scope.

(** ** The alphabets *)

(** The strings [step] and [concretize] switch on; [iOther] is any other line. *)
Inductive symbol : Type :=
| iCLIENT_HELLO | iSERVER_HELLO | iSERVER_HELLO_BADSEL | iSERVER_AUTH | iSERVER_AUTH_BADAUTH
| iCLIENT_AUTH | iCLIENT_AUTH_BADAUTH | iKEY_UPDATE | iKEY_UPDATE_ACK | iCLOSE | iCLOSE_ACK
| iAPP | iUNKNOWN | iINIT_CLOSE | iOther.

#[export] Instance symbol_dec : EqDecision symbol.
Proof. solve_decision. Defined.

Definition symbol_names : list (bytes * symbol) :=
  [ (str "CLIENT_HELLO", iCLIENT_HELLO); (str "SERVER_HELLO", iSERVER_HELLO);
    (str "SERVER_HELLO_BADSEL", iSERVER_HELLO_BADSEL); (str "SERVER_AUTH", iSERVER_AUTH);
    (str "SERVER_AUTH_BADAUTH", iSERVER_AUTH_BADAUTH); (str "CLIENT_AUTH", iCLIENT_AUTH);
    (str "CLIENT_AUTH_BADAUTH", iCLIENT_AUTH_BADAUTH); (str "KEY_UPDATE", iKEY_UPDATE);
    (str "KEY_UPDATE_ACK", iKEY_UPDATE_ACK); (str "CLOSE", iCLOSE); (str "CLOSE_ACK", iCLOSE_ACK);
    (str "APP", iAPP); (str "UNKNOWN", iUNKNOWN); (str "INIT_CLOSE", iINIT_CLOSE) ].

Fixpoint find_symbol (names : list (bytes * symbol)) (line : bytes) : symbol :=
  match names with
  | [] => iOther
  | (n, s) :: names => if bool_decide (line = n) then s else find_symbol names line
  end.

Definition read_symbol (line : bytes) : symbol := find_symbol symbol_names line.

(** [oPANIC]: the driver dereferences a nil connection. *)
Inductive output : Type :=
| oSILENT | oSILENT_ABORT | oACCEPT | oSH_SA | oCLIENT_AUTH | oKEY_UPDATE_ACK | oCLOSE_ACK
| oERROR (code : Z) | oPANIC.

Definition errCodeOutput (code : Z) : output := oERROR code.

Definition print_output (o : output) : bytes :=
  match o with
  | oSILENT => str "SILENT"
  | oSILENT_ABORT => str "SILENT_ABORT"
  | oACCEPT => str "ACCEPT"
  | oSH_SA => str "SH_SA"
  | oCLIENT_AUTH => str "CLIENT_AUTH"
  | oKEY_UPDATE_ACK => str "KEY_UPDATE_ACK"
  | oCLOSE_ACK => str "CLOSE_ACK"
  | oERROR code => str "ERROR:" ++ SessionErrorCode_String code
  | oPANIC => str "panic"
  end.

(** ** The driver's side of the wire (wire.go, common.go, identity.go) *)

Definition profile : Z := ProfileStandard.

(** The driver's own send direction of one channel. *)
Record chanState : Type := mkChan { cs_epoch : Z; cs_seq : Z }.

Definition chan_advance (c : chanState) : chanState := mkChan (u64 (cs_epoch c + 1)) 0.
Definition chan_bump (c : chanState) : chanState := mkChan (cs_epoch c) (u64 (cs_seq c + 1)).

(** A key is named by the seed [ed25519.NewKeyFromSeed] expands. *)
Definition fixedSeed (tag : byte) : bytes := replicate 32 tag.
Definition driverPriv : bytes := fixedSeed x11.
Definition sutPriv : bytes := fixedSeed x22.

Definition keyUpdateMarkerBytes (epoch : Z) : bytes :=
  TLV_Encode (mkTLV TLVKeyUpdateMarker (be_put 8 epoch)) [].

Definition dummyAuthPayload (identity : bytes) : bytes :=
  let certVerify := be_put 2 SigEd25519 ++ replicate 64 x00 in
  let finished := replicate 32 x00 in
  AuthMessage_Encode (mkAuth identity certVerify finished).

Definition unknownFrameType : Z := 0x00FE.
Definition appChannel : Z := ChanMemory.
Definition appFrameType : Z := ChannelSpecificBase.
Definition placeholderSecret : bytes := replicate 32 x00.

(** One frame off the octets the other end writes. *)
Definition readWireFrame (stream : bytes) : result error Frame :=
  check (blen stream <? HeaderSize) ErrUnexpectedEOF;;
  let payloadLen := be_get (slice 17 21 stream) in
  let total := HeaderSize + payloadLen in
  check (MaxFrameSize <? total) ErrFrameOverMax;;
  check (blen stream <? total) ErrUnexpectedEOF;;
  UnmarshalBinary (take (Z.to_nat total) stream).

(** [wire[npamp.HeaderSize]++] *)
Definition corrupted (wire : bytes) : bytes := <[36%nat := z2b (at_ wire 36 + 1)]> wire.

Definition cleartextWire (ft : Z) (payload : bytes) : bytes :=
  (MarshalBinary (mkFrame 0 0 ft ChanControl 0 payload)).2.

(** ** The pipe *)

(** The program takes the whole frame, or the write runs into its deadline. *)
Definition pipe_write {A} (wire : bytes) (p : hs A) : option (hs A) :=
  match p with
  | HRead k => match readFrame wire with (Ok w, []) => Some (k (Ok w)) | _ => None end
  | _ => None
  end.

(** [readWireFrame] on the pipe: what a writing program writes, or a timeout. *)
Definition pipe_read {A} (p : hs A) : result error Frame * hs A :=
  match p with
  | HWrite w k => (readWireFrame (hw_wire w), k true)
  | _ => (Err ErrIO, p)
  end.

(** What the goroutine has sent on its result channel. *)
Definition pipe_result {A} (p : hs A) : option (result error A) :=
  match p with HDone r => Some r | _ => None end.

(** ** The state of an episode

    The fields the two scenarios share.  A slice the code compares with nil is an
    option. *)

Record episode : Type := mkEpisode {
  proc : hs Conn;                   (* the goroutine running [AcceptRaw] or [DialRaw] *)
  resolved : bool;
  sutErr : option error;
  sutConn : option Conn;
  ep_established : bool;
  ep_closing : bool;
  ep_closed : bool;
  master : bytes;
  ctrlOut : chanState;
  appOut : chanState
}.

Definition new_episode (p : hs Conn) : episode :=
  mkEpisode p false None None false false false [] (mkChan 0 0) (mkChan 0 0).

Definition set_proc (p : hs Conn) (s : episode) : episode :=
  mkEpisode p (resolved s) (sutErr s) (sutConn s) (ep_established s) (ep_closing s) (ep_closed s)
    (master s) (ctrlOut s) (appOut s).

Definition set_resolved (r : result error Conn) (s : episode) : episode :=
  mkEpisode (proc s) true (match r with Ok _ => None | Err e => Some e end)
    (match r with Ok c => Some c | Err _ => None end)
    (ep_established s) (ep_closing s) (ep_closed s) (master s) (ctrlOut s) (appOut s).

Definition set_established (m : bytes) (s : episode) : episode :=
  mkEpisode (proc s) (resolved s) (sutErr s) (sutConn s) true (ep_closing s) (ep_closed s)
    m (ctrlOut s) (appOut s).

Definition set_master (m : bytes) (s : episode) : episode :=
  mkEpisode (proc s) (resolved s) (sutErr s) (sutConn s) (ep_established s) (ep_closing s) (ep_closed s)
    m (ctrlOut s) (appOut s).

Definition set_closed (s : episode) : episode :=
  mkEpisode (proc s) (resolved s) (sutErr s) (sutConn s) (ep_established s) (ep_closing s) true
    (master s) (ctrlOut s) (appOut s).

(** The connection as an operation of the endpoint leaves it. *)
Definition set_conn (c : Conn) (s : episode) : episode :=
  mkEpisode (proc s) (resolved s) (sutErr s) (Some c) (ep_established s) (ep_closing s) (ep_closed s)
    (master s) (ctrlOut s) (appOut s).

Definition set_closing (s : episode) : episode :=
  mkEpisode (proc s) (resolved s) (sutErr s) (sutConn s) (ep_established s) true (ep_closed s)
    (master s) (ctrlOut s) (appOut s).

Definition set_out (ctrl app : chanState) (s : episode) : episode :=
  mkEpisode (proc s) (resolved s) (sutErr s) (sutConn s) (ep_established s) (ep_closing s) (ep_closed s)
    (master s) ctrl app.

(** The single place that takes the result of the goroutine. *)
Definition poll (s : episode) : episode :=
  if resolved s then s
  else match pipe_result (proc s) with Some r => set_resolved r s | None => s end.

Definition has_err (s : episode) : bool := match sutErr s with Some _ => true | None => false end.

(** What [concretize] returns: type, payload, cleartext, corrupt. *)
Definition shape : Type := Z * bytes * bool * bool.

Section wire.
Context `{Crypto}.

Definition driverPub : bytes := ed25519_public driverPriv.
Definition sutPub : bytes := ed25519_public sutPriv.

Definition sul_config : Config := mkConfig false (Some sutPriv) [] None.

Definition deriveKeyIVAt (base : bytes) (dir epoch channel p : Z) : result error (bytes * bytes) :=
  ts ← DeriveTrafficSecret base dir epoch AEADAES256GCM channel p;
  DeriveKeyIV ts p.

Definition sealFrameWire (base : bytes) (dir epoch channel seq ft : Z) (plaintext : bytes) (p : Z)
    : result error bytes :=
  '(key, iv) ← deriveKeyIVAt base dir epoch channel p;
  let f := mkFrame 0 FlagENC ft channel seq [] in
  let aad := HeaderPrefix f (u32 (blen plaintext + 16)) in
  sealed ← SealAES256GCM key iv seq aad plaintext;
  Ok (MarshalBinary (mkFrame 0 FlagENC ft channel seq sealed)).2.

Definition openFrameWire (f : Frame) (base : bytes) (dir epoch p : Z) : result error bytes :=
  '(key, iv) ← deriveKeyIVAt base dir epoch (Channel f) p;
  let aad := HeaderPrefix f (u32 (blen (Payload f))) in
  OpenAES256GCM key iv (Seq f) aad (Payload f).

(** The wire of a shape; a sealed one is sealed at the given coordinates. *)
Definition build (x : shape) (base : bytes) (dir epoch seq : Z) : result error bytes :=
  let '(ft, payload, cleartext, corrupt) := x in
  if cleartext : bool then Ok (cleartextWire ft payload)
  else
    wire ← sealFrameWire base dir epoch ChanControl seq ft payload profile;
    Ok (if corrupt : bool then corrupted wire else wire).

(** ** The established phase

    [sd] and [rd] are the directions the driver sends and receives on; [x] and [rnd]
    the randomness of the endpoint's goroutines. *)

Section established.
Context (sd rd : Z) (x rnd : bytes).

(** The goroutines the receive path started, run to their end. *)
Fixpoint run_tasks (ts : list task) : M unit :=
  match ts with
  | [] => mret tt
  | t :: ts => run_task true x rnd t;; run_tasks ts
  end.

Definition run_spawned : M unit :=
  c ← get;
  modify (set_tasks []);;
  run_tasks (tasks c).

(** [classifyEstablishedFrame] *)
Definition classify_established (s : episode) (f : Frame) : episode * output :=
  if Type_ f =? FrameError then
    match openFrameWire f (master s) rd 0 profile with
    | Err _ => (set_closed s, oSILENT)
    | Ok pt =>
        match DecodeErrorBody pt with
        | Err _ => (set_closed s, oSILENT)
        | Ok (code, _) => (set_closed s, errCodeOutput code)
        end
    end
  else if Type_ f =? FrameCloseAck then (set_closed s, oCLOSE_ACK)
  else if Type_ f =? FrameKeyUpdateAck then (s, oKEY_UPDATE_ACK)
  else (s, oSILENT).

(** One bounded [Recv] of the endpoint on what the driver writes, then the
    goroutines it started; a [CloseGraceful] that waits tears down once its
    acknowledgement has been signalled.  The frames the endpoint wrote, and the
    error of [Recv]. *)
Definition sut_recv (waiting : bool) (wire : bytes) (c : Conn) : Conn * list sent * option error :=
  let '(c, out, r) := Recv true wire c in
  let '(c, out', _) := run_spawned c in
  let c := if waiting && negb (closing c) then (CloseGraceful_finish true c).1.1 else c in
  (c, out ++ out', match r with Ok (Ok _, _) => None | Ok (Err e, _) => Some e | Err e => Some e end).

(** [injectAndObserve]: the driver reads the first frame of the reaction. *)
Definition inject_and_observe (s : episode) (wire : bytes) : episode * output :=
  match sutConn s with
  | None => (s, oPANIC)
  | Some c =>
      if rawClosed c then (set_closed s, oSILENT)
      else
        let '(c, out, err) := sut_recv (ep_closing s) wire c in
        let s := set_conn c s in
        match (match out with w :: _ => readWireFrame (s_wire w) | [] => Err ErrIO end), err with
        | Ok rf, _ => classify_established s rf
        | Err _, None => (s, oACCEPT)
        | Err _, Some e => if bool_decide (e = ErrPeerClosed) then (set_closed s, oSILENT) else (s, oSILENT)
        end
  end.

(** [stepApp] *)
Definition step_app (s : episode) : episode * output :=
  let seq := cs_seq (appOut s) in
  match sealFrameWire (master s) sd 0 appChannel seq appFrameType (str "app") profile with
  | Err _ => (s, oSILENT)
  | Ok wire => inject_and_observe (set_out (ctrlOut s) (chan_bump (appOut s)) s) wire
  end.

(** The bookkeeping of a frame that was sealed and not corrupted. *)
Definition sent_ctrl (input : symbol) (x : shape) (c : chanState) : chanState :=
  let '(_, _, cleartext, corrupt) := x in
  if (cleartext || corrupt : bool) then c
  else if bool_decide (input = iKEY_UPDATE) then chan_advance (chan_bump c) else chan_bump c.

(** [stepEstablished] on what [concretize] returned for the input. *)
Definition step_established (s : episode) (input : symbol) (x : shape) : episode * output :=
  if bool_decide (input = iAPP) then step_app s
  else
    match build x (master s) sd (cs_epoch (ctrlOut s)) (cs_seq (ctrlOut s)) with
    | Err _ => (s, oSILENT)
    | Ok wire => inject_and_observe (set_out (sent_ctrl input x (ctrlOut s)) (appOut s) s) wire
    end.

(** [stepInitClose]: the endpoint's own CLOSE, which the driver reads. *)
Definition step_init_close (s : episode) : episode * output :=
  match sutConn s with
  | None => (s, oSILENT)
  | Some c =>
      if ep_closing s then (s, oSILENT)
      else (set_conn (CloseGraceful_start true c).1.1 (set_closing s), oSILENT)
  end.
End established.

(** The write of a handshake-phase frame and the wait for its reaction.  [None]: the
    write failed; otherwise the episode, with the frame read or, after the result
    of the goroutine has been polled by [pollf], whether it was torn down. *)
Definition react_handshake (pollf : episode -> episode) (s : episode) (wire : bytes)
    : option (episode * option Frame * bool) :=
  match pipe_write wire (proc s) with
  | None => None
  | Some p =>
      let '(r, p) := pipe_read p in
      let s := set_proc p s in
      match r with
      | Ok f => Some (s, Some f, false)
      | Err _ =>
          let s := pollf s in
          Some (s, None, resolved s && has_err s && negb (ep_established s))
      end
  end.
End wire.

(** ** The responder as the system under learning (responder.go) *)

Record responderScenario : Type := mkResponder {
  r_ep : episode;
  r_kem : KEMClient;
  r_ch : ClientHello;
  r_hs : option bytes;
  r_cHS : option bytes;
  r_sHS : option bytes;
  caPlaintext : option bytes;
  pendingMaster : option bytes
}.

Definition r_set (e : episode) (s : responderScenario) : responderScenario :=
  mkResponder e (r_kem s) (r_ch s) (r_hs s) (r_cHS s) (r_sHS s) (caPlaintext s) (pendingMaster s).

Definition r_set_hs (h : bytes) (s : responderScenario) : responderScenario :=
  mkResponder (r_ep s) (r_kem s) (r_ch s) (Some h) (r_cHS s) (r_sHS s) (caPlaintext s) (pendingMaster s).

Definition r_set_keys (c sv : bytes) (s : responderScenario) : responderScenario :=
  mkResponder (r_ep s) (r_kem s) (r_ch s) (r_hs s) (Some c) (Some sv) (caPlaintext s) (pendingMaster s).

Definition r_set_ca (pt : bytes) (s : responderScenario) : responderScenario :=
  mkResponder (r_ep s) (r_kem s) (r_ch s) (r_hs s) (r_cHS s) (r_sHS s) (Some pt) (pendingMaster s).

Definition r_set_pending (m : bytes) (s : responderScenario) : responderScenario :=
  mkResponder (r_ep s) (r_kem s) (r_ch s) (r_hs s) (r_cHS s) (r_sHS s) (caPlaintext s) (Some m).

Definition dummyServerHelloPayload : bytes :=
  ServerHello_Encode (mkServerHello ProfileStandard KEMX25519MLKEM768 SigEd25519 AEADAES256GCM
    (replicate (Z.to_nat KEMCiphertextSize768) x00)).

(** The transcript of the two hellos for the driver's profile; [NewTranscript] does
    not fail there. *)
Definition hellos (ch : ClientHello) (sh : ServerHello) : Transcript :=
  match helloTranscript profile ch sh with
  | Ok t => t
  | Err _ => mkTranscript SHA256 []
  end.

Definition auth_flight (ft : Z) (id : bytes) (t : Transcript) : Transcript :=
  AddTLV (mkTLV TLVIdentityKey id) (AddFrameType ft t).

Section responder.
Context `{Crypto}.
Context (x rnd : bytes).

Definition responderDriverSendDir : Z := DirClientToServer.
Definition responderDriverRecvDir : Z := DirServerToClient.

(** [reset]: the endpoint is a fresh [AcceptRaw]; [x] and [rnd] are its randomness and
    [kem] is what [GenerateKEMClient] yields for the driver. *)
Definition responder_reset (kem : result error KEMClient) : result error responderScenario :=
  let e := new_episode (AcceptRaw sul_config (Err ErrCrypto) x rnd true) in
  kem ← kem;
  let ch := mkClientHello [ProfileStandard] [KEMX25519MLKEM768] [SigEd25519] [AEADAES256GCM] (KEMShare kem) in
  Ok (mkResponder e kem ch None None None None None).

Definition clientAuthOrDummy (s : responderScenario) : bytes :=
  match caPlaintext s with
  | Some pt => pt
  | None => dummyAuthPayload driverPub
  end.

Definition responder_concretize (s : responderScenario) (input : symbol) : shape :=
  let epoch := cs_epoch (ctrlOut (r_ep s)) in
  match input with
  | iCLIENT_HELLO => (FrameClientHello, ClientHello_Encode (r_ch s), true, false)
  | iSERVER_HELLO => (FrameServerHello, dummyServerHelloPayload, true, false)
  | iSERVER_HELLO_BADSEL => (FrameServerHello, dummyServerHelloPayload, true, false)
  | iSERVER_AUTH => (FrameServerAuth, dummyAuthPayload sutPub, false, false)
  | iSERVER_AUTH_BADAUTH => (FrameServerAuth, dummyAuthPayload sutPub, false, true)
  | iCLIENT_AUTH => (FrameClientAuth, clientAuthOrDummy s, false, false)
  | iCLIENT_AUTH_BADAUTH => (FrameClientAuth, clientAuthOrDummy s, false, true)
  | iKEY_UPDATE => (FrameKeyUpdate, keyUpdateMarkerBytes (u64 (epoch + 1)), false, false)
  | iKEY_UPDATE_ACK => (FrameKeyUpdateAck, keyUpdateMarkerBytes epoch, false, false)
  | iCLOSE => (FrameClose, [], false, false)
  | iCLOSE_ACK => (FrameCloseAck, [], false, false)
  | iUNKNOWN => (unknownFrameType, [], false, false)
  | _ => (unknownFrameType, [], false, false)
  end.

(** The result of the goroutine, and the promotion of the master secret. *)
Definition pollAccept (pending : option bytes) (s : episode) : episode :=
  let s := poll s in
  match pending with
  | Some m => if resolved s && negb (ep_established s) && negb (has_err s) then set_established m s else s
  | None => s
  end.

(** The secrets of a real SERVER_HELLO and SERVER_AUTH; what was assigned before an
    error stays. *)
Definition establishHandshakeSecrets (s : responderScenario) (sh : ServerHello) (saFrame : Frame)
    : responderScenario * option error :=
  match (ss ← KEMClient_SharedSecrets (r_kem s) (sh_KEMCiphertext sh); HandshakeSecret ss profile) with
  | Err e => (s, Some e)
  | Ok hsec =>
  let s := r_set_hs hsec s in
  let t := hellos (r_ch s) sh in
  match DeriveHandshakeTrafficSecrets hsec (Transcript_Sum t) profile with
  | Err e => (s, Some e)
  | Ok (cHS, sHS) =>
  let s := r_set_keys cHS sHS s in
  match (
    saPt ← openFrameWire saFrame sHS responderDriverRecvDir 0 profile;
    sAuth ← DecodeAuthMessage saPt;
    let t := auth_flight FrameServerAuth (IdentityKey sAuth) t in
    let t := AddTLV (mkTLV TLVCertVerify (CertVerify sAuth)) t in
    let t := AddTLV (mkTLV TLVFinished (Finished sAuth)) t in
    let t := auth_flight FrameClientAuth driverPub t in
    cCV ← SignCertVerify driverPriv RoleClient (Transcript_Sum t);
    let t := AddTLV (mkTLV TLVCertVerify cCV) t in
    cFinKey ← DeriveFinishedKey cHS profile;
    cFin ← ComputeFinished cFinKey (Transcript_Sum t) profile;
    Ok (AuthMessage_Encode (mkAuth driverPub cCV cFin), Transcript_Sum t)) with
  | Err e => (s, Some e)
  | Ok (pt, thCCV) =>
  let s := r_set_ca pt s in
  match DeriveMasterSecret hsec thCCV profile with
  | Err e => (s, Some e)
  | Ok m => (r_set_pending m s, None)
  end end end end.

(** A sealed ERROR, or the flight of SERVER_HELLO and SERVER_AUTH. *)
Definition responder_classify (s : responderScenario) (f : Frame) : responderScenario * output :=
  let closed := r_set (set_closed (r_ep s)) s in
  if Type_ f =? FrameError then
    match openFrameWire f (default placeholderSecret (r_sHS s)) responderDriverRecvDir 0 profile with
    | Err _ => (closed, oSILENT_ABORT)
    | Ok pt =>
        match DecodeErrorBody pt with
        | Err _ => (closed, oSILENT_ABORT)
        | Ok (code, _) => (closed, errCodeOutput code)
        end
    end
  else if Type_ f =? FrameServerHello then
    match DecodeServerHello (Payload f) with
    | Err _ => (s, oSILENT)
    | Ok sh =>
        let '(r, p) := pipe_read (proc (r_ep s)) in
        let s := r_set (set_proc p (r_ep s)) s in
        match r with
        | Err _ => (s, oSILENT)
        | Ok saFrame =>
            if negb (Type_ saFrame =? FrameServerAuth) then (s, oSILENT)
            else ((establishHandshakeSecrets s sh saFrame).1, oSH_SA)
        end
    end
  else (s, oSILENT).

Definition responder_stepHandshake (s : responderScenario) (input : symbol) : responderScenario * output :=
  if bool_decide (input = iAPP) then (s, oSILENT)
  else
    match build (responder_concretize s input) (default placeholderSecret (r_cHS s)) responderDriverSendDir 0 0 with
    | Err _ => (s, oSILENT)
    | Ok wire =>
        match react_handshake (pollAccept (pendingMaster s)) (r_ep s) wire with
        | None => (r_set (set_closed (r_ep s)) s, oSILENT)
        | Some (e, Some f, _) => responder_classify (r_set e s) f
        | Some (e, None, torndown) =>
            if torndown : bool then (r_set (set_closed e) s, oSILENT_ABORT) else (r_set e s, oSILENT)
        end
    end.

Definition responder_step (s : responderScenario) (input : symbol) : responderScenario * output :=
  let on_ep (r : episode * output) := (r_set r.1 s, r.2) in
  if ep_closed (r_ep s) then (s, oSILENT)
  else if bool_decide (input = iINIT_CLOSE) then on_ep (step_init_close (r_ep s))
  else if ep_established (r_ep s) then
    on_ep (step_established responderDriverSendDir responderDriverRecvDir x rnd (r_ep s) input
             (responder_concretize s input))
  else responder_stepHandshake s input.
End responder.

(** ** The initiator as the system under learning (initiator.go) *)

Record initiatorScenario : Type := mkInitiator {
  i_ep : episode;
  i_ch : ClientHello;
  chBytes : bytes;
  shValid : ServerHello;
  shBad : ServerHello;
  i_hs : bytes;
  i_cHS : bytes;
  i_sHS : bytes;
  saPlaintext : bytes
}.

Definition i_set (e : episode) (s : initiatorScenario) : initiatorScenario :=
  mkInitiator e (i_ch s) (chBytes s) (shValid s) (shBad s) (i_hs s) (i_cHS s) (i_sHS s) (saPlaintext s).

Section initiator.
Context `{Crypto}.
Context (x rnd : bytes).

Definition initiatorDriverSendDir : Z := DirServerToClient.
Definition initiatorDriverRecvDir : Z := DirClientToServer.

(** The signature and the MAC of the driver's SERVER_AUTH and the transcript after it;
    an error leaves the fields not yet computed empty. *)
Definition transcriptThroughServerAuth (ch : ClientHello) (sh : ServerHello) (sHS : bytes)
    : Transcript * bytes * bytes :=
  let t := auth_flight FrameServerAuth driverPub (hellos ch sh) in
  match SignCertVerify driverPriv RoleServer (Transcript_Sum t) with
  | Err _ => (t, [], [])
  | Ok sCV =>
      let t := AddTLV (mkTLV TLVCertVerify sCV) t in
      match (k ← DeriveFinishedKey sHS profile; ComputeFinished k (Transcript_Sum t) profile) with
      | Err _ => (t, sCV, [])
      | Ok sFin => (AddTLV (mkTLV TLVFinished sFin) t, sCV, sFin)
      end
  end.

(** [reset]: a fresh [DialRaw] with the KEM key [kem], its CLIENT_HELLO read, and the
    driver's answers computed; [x] and [rnd] are the driver's randomness. *)
Definition initiator_reset (kem : result error KEMClient) : result error initiatorScenario :=
  let '(r, p) := pipe_read (DialRaw sul_config (Err ErrCrypto) kem true) in
  chFrame ← r;
  check (negb (Type_ chFrame =? FrameClientHello) || negb (Z.land (Flags chFrame) FlagENC =? 0)) ErrWrongFrameType;;
  ch ← DecodeClientHello (Payload chFrame);
  '(kemCT, ss) ← Encapsulate (ch_KEMShare ch) x rnd;
  let valid := mkServerHello ProfileStandard KEMX25519MLKEM768 SigEd25519 AEADAES256GCM kemCT in
  let bad := mkServerHello ProfileHigh KEMX25519MLKEM768 SigEd25519 AEADAES256GCM kemCT in
  hsec ← HandshakeSecret ss profile;
  '(cHS, sHS) ← DeriveHandshakeTrafficSecrets hsec (Transcript_Sum (hellos ch valid)) profile;
  let '(_, sCV, sFin) := transcriptThroughServerAuth ch valid sHS in
  Ok (mkInitiator (new_episode p) ch (Payload chFrame) valid bad hsec cHS sHS
        (AuthMessage_Encode (mkAuth driverPub sCV sFin))).

Definition initiator_concretize (s : initiatorScenario) (input : symbol) : shape :=
  let epoch := cs_epoch (ctrlOut (i_ep s)) in
  match input with
  | iCLIENT_HELLO => (FrameClientHello, chBytes s, true, false)
  | iSERVER_HELLO => (FrameServerHello, ServerHello_Encode (shValid s), true, false)
  | iSERVER_HELLO_BADSEL => (FrameServerHello, ServerHello_Encode (shBad s), true, false)
  | iSERVER_AUTH => (FrameServerAuth, saPlaintext s, false, false)
  | iSERVER_AUTH_BADAUTH => (FrameServerAuth, saPlaintext s, false, true)
  | iCLIENT_AUTH => (FrameClientAuth, dummyAuthPayload sutPub, false, false)
  | iCLIENT_AUTH_BADAUTH => (FrameClientAuth, dummyAuthPayload sutPub, false, true)
  | iKEY_UPDATE => (FrameKeyUpdate, keyUpdateMarkerBytes (u64 (epoch + 1)), false, false)
  | iKEY_UPDATE_ACK => (FrameKeyUpdateAck, keyUpdateMarkerBytes epoch, false, false)
  | iCLOSE => (FrameClose, [], false, false)
  | iCLOSE_ACK => (FrameCloseAck, [], false, false)
  | iUNKNOWN => (unknownFrameType, [], false, false)
  | _ => (unknownFrameType, [], false, false)
  end.

(** The master secret the endpoint computed, from its CLIENT_AUTH. *)
Definition initiator_master (s : initiatorScenario) (f : Frame) : result error bytes :=
  pt ← openFrameWire f (i_cHS s) initiatorDriverRecvDir 0 profile;
  cAuth ← DecodeAuthMessage pt;
  let t := (transcriptThroughServerAuth (i_ch s) (shValid s) (i_sHS s)).1.1 in
  let t := auth_flight FrameClientAuth (IdentityKey cAuth) t in
  let t := AddTLV (mkTLV TLVCertVerify (CertVerify cAuth)) t in
  DeriveMasterSecret (i_hs s) (Transcript_Sum t) profile.

(** A sealed ERROR, or the endpoint's CLIENT_AUTH, after which it is established. *)
Definition initiator_classify (s : initiatorScenario) (f : Frame) : initiatorScenario * output :=
  let closed := i_set (set_closed (i_ep s)) s in
  if Type_ f =? FrameError then
    match openFrameWire f (i_cHS s) initiatorDriverRecvDir 0 profile with
    | Err _ => (closed, oSILENT_ABORT)
    | Ok pt =>
        match DecodeErrorBody pt with
        | Err _ => (closed, oSILENT_ABORT)
        | Ok (code, _) => (closed, errCodeOutput code)
        end
    end
  else if Type_ f =? FrameClientAuth then
    match initiator_master s f with
    | Err _ => (s, oSILENT)
    | Ok m =>
        let e := poll (set_master m (i_ep s)) in
        match sutErr e, sutConn e with
        | None, Some _ => (i_set (set_established m e) s, oCLIENT_AUTH)
        | _, _ => (i_set (set_closed e) s, oSILENT_ABORT)
        end
    end
  else (s, oSILENT).

Definition initiator_stepHandshake (s : initiatorScenario) (input : symbol) : initiatorScenario * output :=
  if bool_decide (input = iAPP) then (s, oSILENT)
  else
    match build (initiator_concretize s input) (i_sHS s) initiatorDriverSendDir 0 0 with
    | Err _ => (s, oSILENT)
    | Ok wire =>
        match react_handshake poll (i_ep s) wire with
        | None => (i_set (set_closed (i_ep s)) s, oSILENT)
        | Some (e, Some f, _) => initiator_classify (i_set e s) f
        | Some (e, None, torndown) =>
            if torndown : bool then (i_set (set_closed e) s, oSILENT_ABORT) else (i_set e s, oSILENT)
        end
    end.

Definition initiator_step (s : initiatorScenario) (input : symbol) : initiatorScenario * output :=
  let on_ep (r : episode * output) := (i_set r.1 s, r.2) in
  if ep_closed (i_ep s) then (s, oSILENT)
  else if bool_decide (input = iINIT_CLOSE) then on_ep (step_init_close (i_ep s))
  else if ep_established (i_ep s) then
    on_ep (step_established initiatorDriverSendDir initiatorDriverRecvDir x rnd (i_ep s) input
             (initiator_concretize s input))
  else initiator_stepHandshake s input.
End initiator.

(** ** The protocol of the driver (main.go) *)

Section serve.
Context {S : Type} (reset : nat -> result error S) (step : S -> symbol -> S * output).

(** The responses to a list of scanned lines; [n] counts the resets, each of which
    draws its own randomness.  Before the first RESET ([None]) only the two symbols that
    touch no connection are answered.  The responses are followed up to the first
    reset that fails, whose error text is left out. *)
Fixpoint serve (n : nat) (s : option S) (lines : list bytes) : list bytes :=
  match lines with
  | [] => []
  | line :: lines =>
      let line := TrimSpace line in
      if bool_decide (line = []) then serve n s lines
      else if bool_decide (line = str "RESET") then
        match reset n with
        | Err _ => [str "ERR"]
        | Ok s => str "OK" :: serve (n + 1) (Some s) lines
        end
      else
        match s with
        | Some s => let '(s, o) := step s (read_symbol line) in print_output o :: serve n (Some s) lines
        | None =>
            match read_symbol line with
            | iAPP | iINIT_CLOSE => print_output oSILENT :: serve n None lines
            | _ => [print_output oPANIC]
            end
        end
  end.

(** The outputs of one episode. *)
Fixpoint outputs (s : S) (word : list symbol) : list output :=
  match word with
  | [] => []
  | i :: word => let '(s, o) := step s i in o :: outputs s word
  end.
End serve.
