(* ===== verification/SulLearned.v ===== *)
(** * The learned automata are the automata of the code

    The Mealy machines that active learning stored for the two roles
    (learned-responder.json, learned-initiator.json), and the proof that the system
    under learning of [Sul] answers every word of inputs as they do. *)

From S2P Require Import Prelude Errors Registry Sha256 Crypto Tlv Frame Aead Kem KeySchedule Transcript.
From S2P Require Import Handshake Cbor ErrorFrame Conn ConnRecv ConnLogic ConnLive ConnSync ConnDrop ConnControl.
From S2P Require Import SdkHandshake HandshakeRuns HandshakeHonest Sul.
From Stdlib Require Import Strings.Byte.
From stdpp Require Import gmap.
Open Scope Z_scope.

(** ** The learned machines *)

Inductive lstate : Type := LQ0 | LQ1 | LQ2 | LQ3 | LQ4.

Definition unexpected : output := oERROR ErrCodeUnexpectedMessage.

(** The established states; [LQ4] is [LQ3] after the endpoint's own CLOSE. *)
Definition learned_established (closing : bool) (i : symbol) : output * lstate :=
  let here := if closing then LQ4 else LQ3 in
  match i with
  | iCLIENT_HELLO | iSERVER_HELLO | iSERVER_HELLO_BADSEL => (oSILENT, here)
  | iSERVER_AUTH_BADAUTH | iCLIENT_AUTH_BADAUTH => (oSILENT, here)
  | iKEY_UPDATE => (oKEY_UPDATE_ACK, here)
  | iCLOSE => (oCLOSE_ACK, LQ1)
  | iCLOSE_ACK => if closing then (oSILENT, LQ1) else (unexpected, LQ1)
  | iAPP => (oACCEPT, here)
  | iINIT_CLOSE => (oSILENT, LQ4)
  | _ => (unexpected, LQ1)
  end.

Definition learned_responder (q : lstate) (i : symbol) : output * lstate :=
  match q with
  | LQ0 => match i with
           | iCLIENT_HELLO => (oSH_SA, LQ2)
           | iAPP | iINIT_CLOSE => (oSILENT, LQ0)
           | _ => (oSILENT_ABORT, LQ1)
           end
  | LQ1 => (oSILENT, LQ1)
  | LQ2 => match i with
           | iCLIENT_AUTH => (oSILENT, LQ3)
           | iCLIENT_AUTH_BADAUTH => (oERROR ErrCodeDecryptFailed, LQ1)
           | iAPP | iINIT_CLOSE => (oSILENT, LQ2)
           | _ => (unexpected, LQ1)
           end
  | LQ3 => learned_established false i
  | LQ4 => learned_established true i
  end.

Definition learned_initiator (q : lstate) (i : symbol) : output * lstate :=
  match q with
  | LQ0 => match i with
           | iSERVER_HELLO => (oSILENT, LQ2)
           | iAPP | iINIT_CLOSE => (oSILENT, LQ0)
           | _ => (oSILENT_ABORT, LQ1)
           end
  | LQ1 => (oSILENT, LQ1)
  | LQ2 => match i with
           | iSERVER_AUTH => (oCLIENT_AUTH, LQ3)
           | iSERVER_AUTH_BADAUTH => (oERROR ErrCodeDecryptFailed, LQ1)
           | iAPP | iINIT_CLOSE => (oSILENT, LQ2)
           | _ => (unexpected, LQ1)
           end
  | LQ3 => learned_established false i
  | LQ4 => learned_established true i
  end.

(** The outputs of a machine on a word. *)
Fixpoint mealy {Q} (machine : Q -> symbol -> output * Q) (q : Q) (word : list symbol) : list output :=
  match word with
  | [] => []
  | i :: word => (machine q i).1 :: mealy machine (machine q i).2 word
  end.

(** A step that follows the machine, for as many inputs as the sequence space allows,
    gives its outputs. *)
Lemma simulation_outputs {S} (step : S -> symbol -> S * output) machine (rel : Z -> lstate -> S -> Prop) :
  (forall n q s i, 0 <= n < maxSeq -> rel n q s ->
    exists s', step s i = (s', (machine q i).1) /\ rel (n + 1) (machine q i).2 s') ->
  forall word n q s, 0 <= n -> n + Z.of_nat (length word) < maxSeq -> rel n q s ->
    outputs step s word = mealy machine q word.
Proof.
  intros Hsim. induction word as [|i w IH]; intros n q s Hn Hlen Hrel; [done|]. cbn [length] in Hlen.
  destruct (Hsim n q s i ltac:(lia) Hrel) as (s' & Hs & Hrel').
  cbn [outputs mealy]. rewrite Hs. f_equal. apply (IH (n + 1)); [lia|lia|exact Hrel'].
Qed.

(** ** Frames on the driver's end *)

Lemma readWireFrame_marshal f :
  frame_wf f -> frame_size f <= MaxFrameSize -> readWireFrame (marshal f) = Ok f.
Proof.
  intros Hwf Hmax. pose proof (declared_length f [] Hwf) as Hd. rewrite app_nil_r in Hd.
  unfold readWireFrame. rewrite Hd, blen_marshal. pose proof (blen_nonneg (Payload f)) as Hp.
  change (HeaderSize + blen (Payload f)) with (frame_size f).
  rewrite (proj2 (Z.ltb_ge (frame_size f) HeaderSize)) by (unfold frame_size; lia).
  rewrite (proj2 (Z.ltb_ge MaxFrameSize (frame_size f)) Hmax), Z.ltb_irrefl. cbn [check mbind result_bind].
  rewrite take_ge; [by apply unmarshal_marshal|].
  pose proof (blen_marshal f) as Hl. unfold blen in Hl at 1. lia.
Qed.

(** Changing the first octet of a sealed text makes it fail to open. *)
Definition tamper_evident `{Crypto} : Prop :=
  forall key nonce p aad b rest, gcm_seal key nonce p aad = b :: rest ->
    gcm_open key nonce (z2b (b2z b + 1) :: rest) aad = None.

(** The traffic key of a channel at an epoch and sequence number. *)
Definition keys_at (m : bytes) (dir epoch ch q : Z) : result error epochKeys :=
  derive (mkKeys epoch [] [] q) m dir ch ProfileStandard.

Lemma keys_at_ok m dir epoch ch q :
  exists st, keys_at m dir epoch ch q = Ok st /\ k_epoch st = epoch /\ k_seq st = q.
Proof.
  destruct (derive_standard (mkKeys epoch [] [] q) m dir ch) as (st & Hst). exists st. split; [exact Hst|].
  unfold derive in Hst. apply bind_Ok in Hst as (ts & _ & Hst). by apply bind_Ok in Hst as ([? ?] & _ & [= <-]).
Qed.

Lemma keys_at_bump m dir epoch ch q st :
  keys_at m dir epoch ch q = Ok st -> Ok (bump st) = keys_at m dir epoch ch (u64 (q + 1)).
Proof.
  unfold keys_at, derive. cbn [k_epoch k_seq]. intros Hk. apply bind_Ok in Hk as (ts & Hts & Hk).
  apply bind_Ok in Hk as ([key iv] & Hkv & [= <-]). rewrite Hts. cbn [mbind result_bind]. rewrite Hkv. reflexivity.
Qed.

Lemma keys_at_advance m dir epoch ch q st :
  keys_at m dir epoch ch q = Ok st ->
  exists st', advance st m dir ch ProfileStandard = (st', Ok tt) /\ keys_at m dir (u64 (epoch + 1)) ch 0 = Ok st'.
Proof.
  intros Hk. destruct (keys_at_ok m dir (u64 (epoch + 1)) ch 0) as (st' & Hst' & _). exists st'.
  split; [|exact Hst']. destruct (keys_at_ok m dir epoch ch q) as (st0 & Hst0 & He & _).
  rewrite Hk in Hst0. injection Hst0 as <-. unfold advance. cbn [zeroize k_epoch k_key k_iv]. rewrite He.
  unfold keys_at in Hst'. change (derive (mkKeys (u64 (epoch + 1)) (replicate 32 x00) (replicate 12 x00) 0) m dir ch ProfileStandard)
    with (derive (mkKeys (u64 (epoch + 1)) [] [] 0) m dir ch ProfileStandard). by rewrite Hst'.
Qed.

Section frames.
Context `{CryptoLaws}.

(** The driver's sealing is the record layer's. *)
Lemma sealFrameWire_at m dir epoch ch q st ft pt :
  keys_at m dir epoch ch q = Ok st -> sealFrameWire m dir epoch ch q ft pt profile = sealWith st ch ft pt.
Proof.
  unfold keys_at, derive, sealFrameWire, deriveKeyIVAt. cbn [k_epoch k_seq]. intros Hk.
  apply bind_Ok in Hk as (ts & Hts & Hk). apply bind_Ok in Hk as ([key iv] & Hkv & [= <-]).
  change profile with ProfileStandard. rewrite Hts. cbn [mbind result_bind]. rewrite Hkv. reflexivity.
Qed.

Lemma openFrameWire_at m dir epoch f q st :
  keys_at m dir epoch (Channel f) q = Ok st -> openFrameWire f m dir epoch profile = openWith st f.
Proof.
  unfold keys_at, derive, openFrameWire, deriveKeyIVAt. cbn [k_epoch k_seq]. intros Hk.
  apply bind_Ok in Hk as (ts & Hts & Hk). apply bind_Ok in Hk as ([key iv] & Hkv & [= <-]).
  change profile with ProfileStandard. rewrite Hts. cbn [mbind result_bind]. rewrite Hkv. reflexivity.
Qed.

Lemma seal_ok st ch ft pt : exists wire, sealWith st ch ft pt = Ok wire.
Proof. by eexists. Qed.

(** A sealed frame: read whole by either end, and opened with its plaintext. *)
Lemma sealed_frame st ch ft pt wire :
  sealWith st ch ft pt = Ok wire -> is_u16 ch -> is_u16 ft -> is_u64 (k_seq st) -> blen pt < 2 ^ 20 ->
  exists f, wire = marshal f /\ frame_wf f /\ Flags f = FlagENC /\ Type_ f = ft /\ Channel f = ch /\
    Seq f = k_seq st /\ openWith st f = Ok pt /\ readWireFrame wire = Ok f /\
    readFrame wire = (Ok wire, []) /\ blen wire <= MaxFrameSize.
Proof.
  intros Hs Hch Hft Hq Hsz. pose proof (seal_length _ _ _ _ _ Hs) as Hl. pose proof (blen_nonneg pt).
  assert (blen wire <= MaxFrameSize) as Hmax
    by (change MaxFrameSize with 16777216; unfold HeaderSize in Hl; lia).
  destruct (seal_frame st ch ft pt wire Hs Hch Hft Hq) as (f & -> & Hwf & Hfl & Ht & Hc & Hsq & Ho); [lia|].
  exists f. rewrite blen_marshal in Hmax. split_and!; [reflexivity|assumption..| | |].
  - by apply readWireFrame_marshal.
  - pose proof (readFrame_marshal f [] Hwf Hmax) as Hr. by rewrite app_nil_r in Hr.
  - by rewrite blen_marshal.
Qed.

Lemma corrupted_app h b rest : length h = 36%nat -> corrupted (h ++ b :: rest) = h ++ z2b (b2z b + 1) :: rest.
Proof.
  intros Hh. unfold corrupted. rewrite insert_app_r_alt by lia.
  replace (36 - length h)%nat with 0%nat by lia. cbn. do 2 f_equal.
  unfold at_. rewrite app_nth2 by lia. by replace (36 - length h)%nat with 0%nat by lia.
Qed.

(** The corrupted frame has the same header and does not open. *)
Lemma corrupted_frame st ch ft pt wire :
  tamper_evident ->
  sealWith st ch ft pt = Ok wire -> is_u16 ch -> is_u16 ft -> is_u64 (k_seq st) -> blen pt < 2 ^ 20 ->
  exists f e, corrupted wire = marshal f /\ frame_wf f /\ frame_size f <= MaxFrameSize /\ Flags f = FlagENC /\
    Type_ f = ft /\ Channel f = ch /\ Seq f = k_seq st /\ openWith st f = Err e.
Proof.
  intros Htamper Hs Hch Hft Hq Hsz. pose proof (blen_nonneg pt). unfold sealWith, SealAES256GCM in Hs.
  cbn [mbind result_bind] in Hs. set (aad := HeaderPrefix _ _) in Hs. set (nonce := DeriveNonce _ _) in Hs.
  set (sealed := gcm_seal (k_key st) nonce pt aad) in Hs.
  assert (blen sealed = blen pt + 16) as Hl by apply gcm_overhead.
  destruct sealed as [|b rest] eqn:Es; [unfold blen in Hl at 1; cbn in Hl; lia|].
  assert (blen (z2b (b2z b + 1) :: rest) = blen pt + 16) as Hl' by (rewrite blen_cons in *; exact Hl).
  set (f := mkFrame ProtocolVersion FlagENC ft ch (k_seq st) (z2b (b2z b + 1) :: rest)).
  exists f, ErrCrypto.
  assert (frame_wf f) as Hwf.
  { unfold frame_wf, f. cbn [Version Flags Type_ Channel Seq Payload]. rewrite Hl'. unfold FlagENC.
    split_and!; [reflexivity|lia|lia|reflexivity|exact Hft|exact Hch|exact Hq|lia]. }
  split.
  { assert (wire = marshal (mkFrame 0 FlagENC ft ch (k_seq st) (b :: rest))) as -> by (unfold marshal; congruence).
    rewrite marshal_zero_version, (marshal_eq (mkFrame _ _ _ _ _ _) eq_refl), (marshal_eq f eq_refl).
    cbn [Payload f]. rewrite Hl', Hl.
    apply (corrupted_app (marshalHeaderInto (mkFrame ProtocolVersion FlagENC ft ch (k_seq st) (b :: rest)) (u32 (blen pt + 16)))).
    apply length_marshalHeaderInto. }
  split; [exact Hwf|]. split.
  { unfold frame_size, f. cbn [Payload]. rewrite Hl'. change MaxFrameSize with 16777216. unfold HeaderSize. lia. }
  split_and!; [reflexivity..|]. unfold openWith, OpenAES256GCM, f. cbn [Payload Seq]. rewrite Hl'.
  change (HeaderPrefix _ _) with aad. fold nonce.
  by rewrite (Htamper _ _ _ _ _ _ Es).
Qed.
End frames.

(** ** The established endpoint *)

(** The endpoint's connection against the driver's bookkeeping: the driver sends on
    [sd] and receives on [rd], both roots are [m], and the endpoint has sent [q] control
    frames. *)
Record session (sd rd : Z) (m : bytes) (ctrl app : chanState) (q : Z) (c : Conn) : Prop := {
  se_live : live c;
  se_tasks : tasks c = [];
  se_acks : pendingKUAck c = ∅;
  se_recv : masterRecv c = m;
  se_rdir : recvDir c = sd;
  se_ctrl : recv_key c ChanControl = keys_at m sd (cs_epoch ctrl) ChanControl (cs_seq ctrl);
  se_app : recv_key c appChannel = keys_at m sd 0 appChannel (cs_seq app);
  se_send : send_key c ChanControl = keys_at m rd 0 ChanControl q
}.

Lemma session_new m peer sd rd :
  session sd rd m (mkChan 0 0) (mkChan 0 0) 0 (establish rd sd (m, peer, ProfileStandard)).
Proof. by split. Qed.

(** Fields a session does not look at. *)
Lemma session_similar sd rd m ctrl app q c d :
  similar c d -> session sd rd m ctrl app q d -> session sd rd m ctrl app q c.
Proof.
  intros (ks & u & v & -> & Hk) []. destruct se_live0 as (Hc & Hr & Hp).
  change (closed (twist ks u v c)) with (closed c) in Hc.
  split; try done. - by rewrite (Hk Hc). - by rewrite (Hk Hc).
Qed.

Section established.
Context `{CryptoLaws}.
Context (sd rd : Z) (m x rnd : bytes).

(** A control frame of the endpoint and the driver's reading of it. *)
Lemma reply_session ctrl app q c ft pt g :
  session sd rd m ctrl app q c -> is_u16 ft -> is_u64 q -> blen pt < 2 ^ 20 ->
  exists st s f,
    reply true ChanControl ft pt g c =
      (set_sendKeys <[ChanControl := bump st]> (set_sendKeys <[ChanControl := st]> c), [s], Ok tt) /\
    Ok (bump st) = keys_at m rd 0 ChanControl (u64 (q + 1)) /\
    readWireFrame (s_wire s) = Ok f /\ Type_ f = ft /\ openFrameWire f m rd 0 profile = Ok pt.
Proof.
  intros [] Hft Hq Hsz. pose proof (blen_nonneg pt).
  destruct (live_seal c ChanControl ft pt se_live0) as (st & wire & Hk & Hw & Hmax & Hss & Hwr);
    [change MaxFrameSize with 16777216; unfold HeaderSize; lia|].
  rewrite se_send0 in Hk. destruct (keys_at_ok m rd 0 ChanControl q) as (st0 & Hst0 & _ & Hst).
  rewrite Hk in Hst0. injection Hst0 as <-.
  destruct (sealed_frame st ChanControl ft pt wire Hw) as (f & _ & _ & _ & Ht & Hch & _ & Ho & Hrd & _);
    [by vm_compute|exact Hft|by rewrite Hst|exact Hsz|].
  eexists st, _, f. split; [|split; [by apply keys_at_bump|split; [|split; [exact Ht|]]]].
  - unfold reply. step by exact Hss. step by (by apply step_lift).
    step by (apply step_on_error; apply Hwr; [done|apply se_live0]). reflexivity. all: reflexivity.
  - exact Hrd.
  - rewrite (openFrameWire_at m rd 0 f q st); [exact Ho|]. by rewrite Hch.
Qed.

Lemma session_sent ctrl app q c st :
  session sd rd m ctrl app q c -> Ok (bump st) = keys_at m rd 0 ChanControl (u64 (q + 1)) ->
  session sd rd m ctrl app (u64 (q + 1))
    (set_sendKeys <[ChanControl := bump st]> (set_sendKeys <[ChanControl := st]> c)).
Proof.
  intros [] Hb. split; try done. unfold send_key. cbn [sendKeys set_sendKeys]. by rewrite lookup_insert_eq.
Qed.

(** The driver's next control frame is authentic to the endpoint. *)
Lemma ctrl_received ctrl app q c ft pt :
  session sd rd m ctrl app q c -> is_u16 ft -> is_u64 (cs_seq ctrl) -> blen pt < 2 ^ 20 ->
  exists st wire, keys_at m sd (cs_epoch ctrl) ChanControl (cs_seq ctrl) = Ok st /\
    sealFrameWire m sd (cs_epoch ctrl) ChanControl (cs_seq ctrl) ft pt profile = Ok wire /\
    (forall io, Recv io wire c =
      (o ← dispatch (bump st) ChanControl ft pt;
       match o with None => Recv io [] | Some y => r ← react io y; mret (r, []) end)
      (set_recvKeys <[ChanControl := bump st]> c)) /\
    session sd rd m (chan_bump ctrl) app q (set_recvKeys <[ChanControl := bump st]> c).
Proof.
  intros Hse Hft Hq Hsz. pose proof Hse as []. pose proof (blen_nonneg pt).
  destruct (keys_at_ok m sd (cs_epoch ctrl) ChanControl (cs_seq ctrl)) as (st & Hst & _ & Hsq).
  destruct (seal_ok st ChanControl ft pt) as (wire & Hw). exists st, wire. split; [exact Hst|].
  split; [by rewrite (sealFrameWire_at _ _ _ _ _ st)|].
  destruct (sealed_frame st ChanControl ft pt wire Hw) as (f & _ & _ & _ & _ & _ & _ & _ & _ & Hrf & _);
    [by vm_compute|exact Hft|by rewrite Hsq|exact Hsz|]. split.
  - intros io. pose proof (Recv_cons io wire [] c) as Hr. rewrite app_nil_r in Hr. rewrite (Hr Hrf).
    unfold mbind, M_bind. rewrite (recv_authentic c ChanControl ft pt st wire);
      [reflexivity|apply se_live0|by rewrite se_ctrl0|exact Hw|by vm_compute|exact Hft|by rewrite Hsq|lia].
  - split; try done.
    + unfold recv_key. cbn [recvKeys set_recvKeys]. rewrite lookup_insert_eq. by apply keys_at_bump.
    + rewrite <- se_app0. unfold recv_key. cbn [recvKeys set_recvKeys]. by rewrite lookup_insert_ne.
Qed.

(** ** One injection *)

(** The endpoint answered from inside [Recv]. *)
Lemma inject_answered s c wire c' w out r f :
  sutConn s = Some c -> rawClosed c = false -> Recv true wire c = (c', w :: out, r) ->
  readWireFrame (s_wire w) = Ok f ->
  exists c2, inject_and_observe rd x rnd s wire = classify_established rd (set_conn c2 s) f.
Proof.
  intros Hc Hr Hrecv Hf. unfold inject_and_observe, sut_recv. rewrite Hc, Hr, Hrecv.
  destruct (run_spawned x rnd c') as [[c2 out2] r2]. cbn [app]. rewrite Hf. by eexists.
Qed.

(** The endpoint wrote nothing and started nothing. *)
Lemma inject_quiet s c wire c' r :
  sutConn s = Some c -> rawClosed c = false -> Recv true wire c = (c', [], Ok (r, [])) -> tasks c' = [] ->
  ep_closing s = closing c' ->
  inject_and_observe rd x rnd s wire =
    match r with
    | Ok _ => (set_conn c' s, oACCEPT)
    | Err e => if bool_decide (e = ErrPeerClosed) then (set_closed (set_conn c' s), oSILENT) else (set_conn c' s, oSILENT)
    end.
Proof.
  intros Hc Hr Hrecv Ht Hcl. unfold inject_and_observe, sut_recv. rewrite Hc, Hr, Hrecv.
  assert (run_spawned x rnd c' = (c', [], Ok tt)) as ->.
  { unfold run_spawned, get, modify, mbind, M_bind. rewrite Ht. cbn. by destruct c'; cbn in *; subst. }
  rewrite Hcl, andb_negb_r. cbn [app]. by destruct r.
Qed.

(** [Recv] of one frame that ends with the reaction to [y] in state [c2]. *)
Definition comes_to (wire : bytes) (c : Conn) (y : received) (c2 : Conn) : Prop :=
  Recv true wire c = (r ← react true y; mret (r, [])) c2.

Lemma comes_to_intro wire c c1 c2 y (D : M (option received)) :
  (forall io, Recv io wire c =
      (o ← D; match o with None => Recv io [] | Some y => r ← react io y; mret (r, []) end) c1) ->
  D c1 = (c2, [], Ok (Some y)) -> comes_to wire c y c2.
Proof.
  intros Hr Hd. unfold comes_to. rewrite Hr. unfold mbind, M_bind. rewrite Hd.
  by destruct (react true y c2) as [[? ?] [?|?]].
Qed.

Lemma error_body_small code : is_u8 code -> blen (EncodeErrorBody code []) < 2 ^ 20.
Proof.
  intros Hc. rewrite EncodeErrorBody_eq, !blen_app. pose proof (blen_encodeHead 0 code).
  pose proof (blen_encodeHead 2 0). change (blen [xa2; x01]) with 2. change (blen [x02]) with 1.
  change (blen (A := byte) []) with 0. lia.
Qed.

(** A reaction that writes one control frame and tears the endpoint down. *)
Lemma inject_teardown s c c2 wire ctrl app q y ft pt e :
  sutConn s = Some c -> rawClosed c = false -> is_u64 q -> is_u16 ft -> blen pt < 2 ^ 20 ->
  react true y = (ignore (reply true ChanControl ft pt id);; modify Close;; mret (Err e)) ->
  comes_to wire c y c2 -> session sd rd m ctrl app q c2 ->
  exists c3 f, inject_and_observe rd x rnd s wire = classify_established rd (set_conn c3 s) f /\
    Type_ f = ft /\ openFrameWire f m rd 0 profile = Ok pt.
Proof.
  intros Hc Hr Hq Hft Hsz Hy Hrecv Hse.
  destruct (reply_session ctrl app q c2 ft pt id Hse Hft Hq Hsz) as (st & w & f & Hrep & _ & Hf & Ht & Ho).
  destruct (inject_answered s c wire (Close (set_sendKeys <[ChanControl := bump st]> (set_sendKeys <[ChanControl := st]> c2)))
    w [] (Ok (Err e, [])) f Hc Hr) as (c3 & Hi); [|exact Hf|by exists c3, f].
  unfold comes_to in Hrecv. rewrite Hrecv, Hy. unfold ignore.
  eapply step_bind; [eapply step_bind|reflexivity|].
  - eapply step_bind; [apply step_attempt; exact Hrep|reflexivity|reflexivity].
  - step by reflexivity; reflexivity.
  - reflexivity.
  - reflexivity.
Qed.

(** A fatal rejection: the sealed ERROR, and the driver is done. *)
Lemma inject_rejected s c c2 wire ctrl app q code e :
  sutConn s = Some c -> rawClosed c = false -> master s = m -> is_u64 q -> is_u8 code ->
  comes_to wire c (reject code e) c2 -> session sd rd m ctrl app q c2 ->
  exists s', inject_and_observe rd x rnd s wire = (s', oERROR code) /\ ep_closed s' = true.
Proof.
  intros Hc Hr Hm Hq Hcode Hrecv Hse.
  destruct (inject_teardown s c c2 wire ctrl app q (reject code e) FrameError (EncodeErrorBody code []) e Hc Hr Hq
    ltac:(by vm_compute) (error_body_small code Hcode) eq_refl Hrecv Hse) as (c3 & f & Hi & Ht & Ho).
  exists (set_closed (set_conn c3 s)). split; [|reflexivity]. rewrite Hi. unfold classify_established.
  rewrite Ht, Z.eqb_refl. change (master (set_conn c3 s)) with (master s). rewrite Hm, Ho.
  by rewrite decode_error_encoded.
Qed.

(** The peer's CLOSE: the acknowledgement, and the driver is done. *)
Lemma inject_close s c c2 wire ctrl app q :
  sutConn s = Some c -> rawClosed c = false -> is_u64 q ->
  comes_to wire c (0, 0, [], actCloseAck) c2 -> session sd rd m ctrl app q c2 ->
  exists s', inject_and_observe rd x rnd s wire = (s', oCLOSE_ACK) /\ ep_closed s' = true.
Proof.
  intros Hc Hr Hq Hrecv Hse.
  destruct (inject_teardown s c c2 wire ctrl app q (0, 0, [], actCloseAck) FrameCloseAck [] ErrPeerClosed Hc Hr Hq
    ltac:(by vm_compute) ltac:(by vm_compute) eq_refl Hrecv Hse) as (c3 & f & Hi & Ht & _).
  exists (set_closed (set_conn c3 s)). split; [|reflexivity]. rewrite Hi. unfold classify_established. by rewrite Ht.
Qed.

(** A frame the endpoint cannot authenticate is dropped. *)
Lemma inject_forged s c f ctrl app q :
  sutConn s = Some c -> ep_closing s = closing c -> session sd rd m ctrl app q c ->
  frame_wf f -> frame_size f <= MaxFrameSize -> forged c (marshal f) = true ->
  exists c', inject_and_observe rd x rnd s (marshal f) = (set_conn c' s, oSILENT) /\ closing c' = closing c /\
    session sd rd m ctrl app q c'.
Proof.
  intros Hc Hcl Hse Hwf Hsz Hf. pose proof Hse as []. destruct se_live0 as (Ho & Hr & _).
  destruct (Recv_forged true c (marshal f) [] Ho Hf ltac:(by rewrite blen_marshal)) as (c' & Hrecv & Hs & Ho').
  rewrite app_nil_r, Recv_nil in Hrecv. assert (session sd rd m ctrl app q c') as Hse' by (by eapply session_similar).
  assert (closing c' = closing c) as Hc' by (by destruct Hs as (? & ? & ? & -> & _)).
  exists c'. split; [|done]. rewrite (inject_quiet s c _ c' (Err ErrEOF)); [|done..| |by rewrite Hc'].
  - by rewrite bool_decide_false.
  - by destruct Hse'.
Qed.

(** KEY_UPDATE: the endpoint's receive key and the driver's send key move together. *)
Lemma inject_key_update s c wire c1 ctrl app q st :
  sutConn s = Some c -> rawClosed c = false -> ep_closing s = closing c1 -> is_u64 q ->
  session sd rd m (chan_bump ctrl) app q c1 -> Ok (bump st) = keys_at m sd (cs_epoch ctrl) ChanControl (cs_seq (chan_bump ctrl)) ->
  k_epoch (bump st) = cs_epoch ctrl ->
  (forall io, Recv io wire c =
      (o ← dispatch (bump st) ChanControl FrameKeyUpdate (keyUpdateMarker (u64 (cs_epoch ctrl + 1)));
       match o with None => Recv io [] | Some y => r ← react io y; mret (r, []) end) c1) ->
  exists c', inject_and_observe rd x rnd s wire = (set_conn c' s, oKEY_UPDATE_ACK) /\ closing c' = closing c1 /\
    session sd rd m (chan_advance (chan_bump ctrl)) app (u64 (q + 1)) c'.
Proof.
  intros Hc Hr Hcl Hq Hse Hb He Hrecv. destruct Hse as [(Hl1 & Hl2 & Hl3) Ht Ha Hm Hrd Hctrl Happ Hsend].
  destruct (keys_at_advance m sd (cs_epoch ctrl) ChanControl _ (bump st) (eq_sym Hb)) as (st' & Had & Hst').
  pose proof (dispatch_key_update ChanControl (bump st) st' c1) as Hd. rewrite Hm, Hrd, Hl3, He, Ht in Hd. specialize (Hd Had).
  set (c2 := set_recvKeys <[ChanControl := st']> c1) in *.
  assert (session sd rd m (chan_advance (chan_bump ctrl)) app q c2) as Hse2.
  { split; try done.
    - unfold recv_key, c2. cbn [recvKeys set_recvKeys]. by rewrite lookup_insert_eq.
    - rewrite <- Happ. unfold recv_key, c2. cbn [recvKeys set_recvKeys]. by rewrite lookup_insert_ne. }
  destruct (reply_session _ app q c2 FrameKeyUpdateAck (keyUpdateMarker (u64 (cs_epoch ctrl + 1))) Close Hse2)
    as (sk & w & f & Hrep & Hbk & Hf & Hty & _);
    [by vm_compute|exact Hq|unfold keyUpdateMarker; by rewrite tlv_marker_size|].
  set (c3 := set_sendKeys <[ChanControl := bump sk]> _) in Hrep.
  exists c3. split; [|split; [reflexivity|by apply session_sent]].
  unfold inject_and_observe, sut_recv. rewrite Hc, Hr, Hrecv. unfold mbind at 1, M_bind. rewrite Hd, Recv_nil.
  assert (run_spawned x rnd (set_tasks ([] ++ [TKeyUpdateAck ChanControl (u64 (cs_epoch ctrl + 1))]) c2)
    = (c3, [w], Ok tt)) as ->.
  { unfold run_spawned. eapply step_bind; [reflexivity| |reflexivity]. eapply step_bind; [reflexivity| |reflexivity].
    assert (set_tasks [] (set_tasks ([] ++ [TKeyUpdateAck ChanControl (u64 (cs_epoch ctrl + 1))]) c2) = c2) as ->
      by (destruct c1; cbn in *; by subst).
    cbn [tasks set_tasks Datatypes.app run_tasks run_task]. unfold sendKeyUpdateAck, ignore. eapply step_bind; [|reflexivity|].
    - eapply step_bind; [apply step_attempt; exact Hrep|reflexivity|reflexivity].
    - reflexivity. }
  change (closing c3) with (closing c1). rewrite Hcl, andb_negb_r. cbn [Datatypes.app]. rewrite Hf.
  unfold classify_established. by rewrite Hty.
Qed.

(** An application frame is delivered. *)
Lemma step_app_session s c q :
  sutConn s = Some c -> ep_closing s = closing c -> master s = m -> is_u64 (cs_seq (appOut s)) ->
  session sd rd m (ctrlOut s) (appOut s) q c ->
  exists c', step_app sd rd x rnd s = (set_conn c' (set_out (ctrlOut s) (chan_bump (appOut s)) s), oACCEPT) /\
    closing c' = closing c /\ session sd rd m (ctrlOut s) (chan_bump (appOut s)) q c'.
Proof.
  intros Hc Hcl Hm Hq Hse. pose proof Hse as [].
  destruct (keys_at_ok m sd 0 appChannel (cs_seq (appOut s))) as (st & Hst & _ & Hsq).
  destruct (seal_ok st appChannel appFrameType (str "app")) as (wire & Hw).
  assert (is_u16 appChannel /\ is_u16 appFrameType) as [Hch Hft] by (by vm_compute).
  destruct (sealed_frame st appChannel appFrameType (str "app") wire Hw Hch Hft) as (f & _ & _ & _ & _ & _ & _ & _ & _ & Hrf & _);
    [by rewrite Hsq|by vm_compute|].
  set (c' := set_recvKeys <[appChannel := bump st]> c). exists c'.
  unfold step_app. rewrite Hm, (sealFrameWire_at _ _ _ _ _ st _ _ Hst), Hw. split.
  - rewrite (inject_quiet _ c wire c' (Ok (appChannel, appFrameType, str "app"))); [done|exact Hc|apply se_live0| |exact se_tasks0|exact Hcl].
    pose proof (Recv_cons true wire [] c) as Hr. rewrite app_nil_r in Hr. rewrite (Hr Hrf).
    apply (step_bind _ _ _ c' _ [] [] _ (Some (deliver appChannel appFrameType (str "app")))); [|reflexivity|reflexivity].
    rewrite (recv_authentic c appChannel appFrameType (str "app") st wire);
      [reflexivity|apply se_live0|by rewrite se_app0|exact Hw|exact Hch|exact Hft|by rewrite Hsq|by vm_compute].
  - split; [reflexivity|]. split; try done.
    + rewrite <- se_ctrl0. unfold recv_key, c'. cbn [recvKeys set_recvKeys]. by rewrite lookup_insert_ne.
    + unfold recv_key, c'. cbn [recvKeys set_recvKeys]. rewrite lookup_insert_eq. by apply keys_at_bump.
Qed.

(** The acknowledgement of the endpoint's own CLOSE. *)
Lemma inject_close_ack s c c2 wire :
  sutConn s = Some c -> rawClosed c = false -> comes_to wire c (failed ErrPeerClosed) c2 -> tasks c2 = [] ->
  exists s', inject_and_observe rd x rnd s wire = (s', oSILENT) /\ ep_closed s' = true.
Proof.
  intros Hc Hr Hrecv Ht. unfold inject_and_observe, sut_recv. unfold comes_to in Hrecv. rewrite Hc, Hr, Hrecv.
  assert ((r ← react true (failed ErrPeerClosed); mret (r, [] : bytes)) c2 = (c2, [], Ok (Err ErrPeerClosed, []))) as ->
    by reflexivity.
  assert (run_spawned x rnd c2 = (c2, [], Ok tt)) as ->.
  { unfold run_spawned, get, modify, mbind, M_bind. rewrite Ht. cbn. by destruct c2; cbn in *; subst. }
  cbn [app]. rewrite bool_decide_true by done. by eexists.
Qed.

(** The endpoint's own CLOSE. *)
Lemma step_init_close_session s c q :
  sutConn s = Some c -> ep_closing s = false -> 0 <= q < maxSeq ->
  session sd rd m (ctrlOut s) (appOut s) q c ->
  exists c', step_init_close s = (set_conn c' (set_closing s), oSILENT) /\ closing c' = true /\
    session sd rd m (ctrlOut s) (appOut s) (q + 1) c'.
Proof.
  intros Hc Hcl Hq Hse. pose proof Hse as [].
  destruct (live_seal c ChanControl FrameClose [] se_live0) as (st & wire & Hk & Hw & Hmax & Hss & Hwr); [by vm_compute|].
  destruct (keys_at_ok m rd 0 ChanControl q) as (st0 & Hst0 & _ & Hsq). rewrite se_send0 in Hk.
  rewrite Hk in Hst0. injection Hst0 as <-. pose proof (keys_at_bump _ _ _ _ _ _ Hk) as Hb.
  replace (u64 (q + 1)) with (q + 1) in Hb by (unfold u64, maxSeq in *; rewrite Z.mod_small; lia).
  set (c1 := set_flags true (closed c) (rawClosed c) (set_sendKeys <[ChanControl := st]> c)).
  assert (sendClose true c = (set_sendKeys <[ChanControl := bump st]> c1,
    [mkSent (genSend c) ChanControl (k_epoch st) (k_seq st) wire], Ok true)) as Hstart.
  { unfold sendClose. step by reflexivity. rewrite (proj1 se_live0). step by exact Hss.
    step by (apply step_guard, Z.eqb_neq; lia). step by (by apply step_lift). step by reflexivity.
    step by (apply step_on_error; apply Hwr; [done|apply se_live0]). step by reflexivity. all: reflexivity. }
  exists (set_sendKeys <[ChanControl := bump st]> c1). split.
  { unfold step_init_close, CloseGraceful_start, attempt, mbind, M_bind. by rewrite Hc, Hcl, Hstart. }
  split; [reflexivity|]. split; try done. unfold send_key. cbn [sendKeys set_sendKeys]. by rewrite lookup_insert_eq.
Qed.
End established.

(** ** The established states of the machine *)

(** The shapes both roles give to an input. *)
Definition shape_ok (epoch : Z) (i : symbol) (y : shape) : Prop :=
  let auth (corrupt : bool) := exists ft pl, y = (ft, pl, false, corrupt) /\ ft ∉ control_types /\ is_u16 ft /\ blen pl < 2 ^ 20 in
  match i with
  | iCLIENT_HELLO | iSERVER_HELLO | iSERVER_HELLO_BADSEL =>
      exists ft pl, y = (ft, pl, true, false) /\ is_u16 ft /\ blen pl < 2 ^ 23
  | iSERVER_AUTH | iCLIENT_AUTH | iUNKNOWN | iOther => auth false
  | iSERVER_AUTH_BADAUTH | iCLIENT_AUTH_BADAUTH => auth true
  | iKEY_UPDATE => y = (FrameKeyUpdate, keyUpdateMarkerBytes (u64 (epoch + 1)), false, false)
  | iKEY_UPDATE_ACK => y = (FrameKeyUpdateAck, keyUpdateMarkerBytes epoch, false, false)
  | iCLOSE => y = (FrameClose, [], false, false)
  | iCLOSE_ACK => y = (FrameCloseAck, [], false, false)
  | iAPP | iINIT_CLOSE => True
  end.

(** An episode whose endpoint is established, after at most [n] control frames of it. *)
Record up (sd rd : Z) (cl : bool) (n : Z) (s : episode) : Prop := {
  up_est : ep_established s = true;
  up_open : ep_closed s = false;
  up_closing : ep_closing s = cl;
  up_epoch : is_u64 (cs_epoch (ctrlOut s));
  up_seq : is_u64 (cs_seq (ctrlOut s));
  up_app : is_u64 (cs_seq (appOut s));
  up_conn : exists c q, sutConn s = Some c /\ closing c = cl /\ 0 <= q <= n /\
    session sd rd (master s) (ctrlOut s) (appOut s) q c
}.

(** What the states of the machine from [LQ1] on stand for. *)
Definition stands (sd rd : Z) (n : Z) (q : lstate) (s : episode) : Prop :=
  match q with
  | LQ1 => ep_closed s = true
  | LQ3 => up sd rd false n s
  | LQ4 => up sd rd true n s
  | _ => False
  end.

Section established_step.
Context `{CryptoLaws}.
Context (sd rd : Z) (x rnd : bytes) (Htamper : tamper_evident).

Lemma up_after cl n s c' q ctrl app :
  up sd rd cl n s -> n < maxSeq -> 0 <= q <= n + 1 -> closing c' = cl ->
  is_u64 (cs_epoch ctrl) -> is_u64 (cs_seq ctrl) -> is_u64 (cs_seq app) ->
  session sd rd (master s) ctrl app q c' ->
  stands sd rd (n + 1) (if cl then LQ4 else LQ3) (set_conn c' (set_out ctrl app s)).
Proof.
  intros [] Hn Hq Hc H1 H2 H3 Hse. assert (up sd rd cl (n + 1) (set_conn c' (set_out ctrl app s))) as Hup.
  { split; try done. exists c', q. exact (conj eq_refl (conj Hc (conj Hq Hse))). }
  by destruct cl.
Qed.

(** The connection of an established episode. *)
Ltac open_up Hup c q :=
  let Hc := fresh "Hc" in let Hcl := fresh "Hcl" in let Hq := fresh "Hq" in let Hse := fresh "Hse" in
  destruct (up_conn _ _ _ _ _ Hup) as (c & q & Hc & Hcl & Hq & Hse).

(** The driver's next control frame. *)
Lemma control_built cl n s i ft pl :
  up sd rd cl n s -> n < maxSeq -> is_u16 ft -> blen pl < 2 ^ 20 -> i <> iAPP ->
  exists c q c1 wire st, sutConn s = Some c /\ rawClosed c = false /\ closing c1 = cl /\ 0 <= q <= n /\ is_u64 q /\
    step_established sd rd x rnd s i (ft, pl, false, false) =
      inject_and_observe rd x rnd (set_out (sent_ctrl i (ft, pl, false, false) (ctrlOut s)) (appOut s) s) wire /\
    (forall io, Recv io wire c =
      (o ← dispatch (bump st) ChanControl ft pl;
       match o with None => Recv io [] | Some y => r ← react io y; mret (r, []) end) c1) /\
    keys_at (master s) sd (cs_epoch (ctrlOut s)) ChanControl (cs_seq (ctrlOut s)) = Ok st /\
    session sd rd (master s) (chan_bump (ctrlOut s)) (appOut s) q c1.
Proof.
  intros Hup Hn Hft Hsz Hi. open_up Hup c q.
  destruct (ctrl_received sd rd (master s) (ctrlOut s) (appOut s) q c ft pl Hse Hft (up_seq _ _ _ _ _ Hup) Hsz)
    as (st & wire & Hst & Hw & Hrecv & Hse').
  exists c, q, (set_recvKeys <[ChanControl := bump st]> c), wire, st.
  split; [exact Hc|]. split; [apply (se_live _ _ _ _ _ _ _ Hse)|]. split; [exact Hcl|]. split; [exact Hq|].
  split; [unfold is_u64; unfold maxSeq in Hn; lia|]. split; [|exact (conj Hrecv (conj Hst Hse'))].
  unfold step_established, build. rewrite bool_decide_false by done. by rewrite Hw.
Qed.

(** A control frame the dispatch rejects. *)
Lemma established_rejected cl n s i ft pl code e :
  up sd rd cl n s -> n < maxSeq -> is_u16 ft -> blen pl < 2 ^ 20 -> i <> iAPP -> is_u8 code ->
  (forall st c, closing c = cl -> pendingKUAck c = ∅ ->
     dispatch st ChanControl ft pl c = (c, [], Ok (Some (reject code e)))) ->
  exists s', step_established sd rd x rnd s i (ft, pl, false, false) = (s', oERROR code) /\ ep_closed s' = true.
Proof.
  intros Hup Hn Hft Hsz Hi Hcode Hd.
  destruct (control_built cl n s i ft pl Hup Hn Hft Hsz Hi)
    as (c & q & c1 & wire & st & Hc & Hr & Hcl & Hq & Hqu & Hstep & Hrecv & Hst & Hse).
  rewrite Hstep. apply (inject_rejected sd rd (master s) x rnd _ c c1 wire (chan_bump (ctrlOut s)) (appOut s) q code e); try done.
  eapply comes_to_intro; [exact Hrecv|]. apply Hd; [exact Hcl|apply Hse].
Qed.

(** A frame that does not authenticate changes nothing the driver sees. *)
Lemma established_forged cl n s i y f :
  up sd rd cl n s -> n < maxSeq -> i <> iAPP -> sent_ctrl i y (ctrlOut s) = ctrlOut s ->
  build y (master s) sd (cs_epoch (ctrlOut s)) (cs_seq (ctrlOut s)) = Ok (marshal f) ->
  frame_wf f -> frame_size f <= MaxFrameSize ->
  (Z.land (Flags f) FlagENC = 0 \/ exists st e, Channel f = ChanControl /\
     keys_at (master s) sd (cs_epoch (ctrlOut s)) ChanControl (cs_seq (ctrlOut s)) = Ok st /\ openWith st f = Err e) ->
  exists s', step_established sd rd x rnd s i y = (s', oSILENT) /\
    stands sd rd (n + 1) (if cl then LQ4 else LQ3) s'.
Proof.
  intros Hup Hn Hi Hsent Hb Hwf Hsz Hbad. open_up Hup c q.
  unfold step_established. rewrite bool_decide_false by done. rewrite Hb, Hsent.
  set (s1 := set_out (ctrlOut s) (appOut s) s).
  destruct (inject_forged sd rd (master s) x rnd s1 c f (ctrlOut s) (appOut s) q) as (c' & Hi' & Hc' & Hse');
    [exact Hc|by rewrite Hcl, <- (up_closing _ _ _ _ _ Hup)|exact Hse|exact Hwf|exact Hsz| |].
  { unfold forged. rewrite (unmarshal_marshal f Hwf). destruct Hbad as [->|(st & e & -> & Hst & Ho)]; [done|].
    rewrite (se_ctrl _ _ _ _ _ _ _ Hse), Hst, Ho. by rewrite !orb_true_r. }
  exists (set_conn c' s1). split; [exact Hi'|]. pose proof Hup as [].
  apply (up_after cl n s c' q); try done; [lia|congruence].
Qed.

Lemma established_cleartext cl n s i ft pl :
  up sd rd cl n s -> n < maxSeq -> i <> iAPP -> is_u16 ft -> blen pl < 2 ^ 23 ->
  exists s', step_established sd rd x rnd s i (ft, pl, true, false) = (s', oSILENT) /\
    stands sd rd (n + 1) (if cl then LQ4 else LQ3) s'.
Proof.
  intros Hup Hn Hi Hft Hsz. destruct (cleartext_wf ft pl Hft Hsz) as (Hwf & Hw & Hs).
  apply (established_forged cl n s i _ (mkFrame ProtocolVersion 0 ft ChanControl 0 pl));
    [exact Hup|exact Hn|exact Hi|reflexivity| |exact Hwf| |].
  - exact (f_equal Ok Hw).
  - unfold frame_size. cbn [Payload]. pose proof (blen_nonneg pl). change MaxFrameSize with 16777216. unfold HeaderSize. lia.
  - by left.
Qed.

Lemma established_corrupted cl n s i ft pl :
  up sd rd cl n s -> n < maxSeq -> i <> iAPP -> is_u16 ft -> blen pl < 2 ^ 20 ->
  exists s', step_established sd rd x rnd s i (ft, pl, false, true) = (s', oSILENT) /\
    stands sd rd (n + 1) (if cl then LQ4 else LQ3) s'.
Proof.
  intros Hup Hn Hi Hft Hsz.
  destruct (keys_at_ok (master s) sd (cs_epoch (ctrlOut s)) ChanControl (cs_seq (ctrlOut s))) as (st & Hst & _ & Hq).
  destruct (seal_ok st ChanControl ft pl) as (wire & Hw).
  destruct (corrupted_frame st ChanControl ft pl wire Htamper Hw) as (f & e & Hf & Hwf & Hs & Hfl & _ & Hch & _ & Ho);
    [by vm_compute|exact Hft|rewrite Hq; apply Hup|exact Hsz|].
  apply (established_forged cl n s i _ f); [exact Hup|exact Hn|exact Hi|reflexivity| |exact Hwf|exact Hs|].
  - unfold build. rewrite (sealFrameWire_at _ _ _ _ _ st _ _ Hst), Hw. cbn [mbind result_bind]. by rewrite Hf.
  - right. by exists st, e.
Qed.

Lemma dispatch_unsolicited_ack st epoch c :
  is_u64 epoch -> pendingKUAck c = ∅ ->
  dispatch st ChanControl FrameKeyUpdateAck (keyUpdateMarkerBytes epoch) c =
    (c, [], Ok (Some (reject ErrCodeUnexpectedMessage ErrUnsolicitedAck))).
Proof.
  intros He Hc. unfold dispatch. change (FrameKeyUpdateAck =? FrameKeyUpdate) with false. rewrite Z.eqb_refl.
  unfold parseKeyUpdateMarker, keyUpdateMarkerBytes. rewrite (parse_marker_encoded TLVKeyUpdateMarker epoch ltac:(by vm_compute) He).
  unfold consume, mbind, M_bind, consumePendingKeyUpdateAck. by rewrite Hc.
Qed.

Lemma dispatch_close_ack st c :
  dispatch st ChanControl FrameCloseAck [] c =
    if closing c then (set_flags false (closed c) (rawClosed c) c, [], Ok (Some (failed ErrPeerClosed)))
    else (c, [], Ok (Some (reject ErrCodeUnexpectedMessage ErrUnsolicitedAck))).
Proof.
  change (dispatch st ChanControl FrameCloseAck [] c) with
    ((ok ← consume signalCloseAck;
       mret (Some (if ok : bool then failed ErrPeerClosed
                   else reject ErrCodeUnexpectedMessage ErrUnsolicitedAck))) c).
  unfold consume, mbind, M_bind, signalCloseAck. by destruct (closing c).
Qed.

Lemma established_key_update cl n s :
  up sd rd cl n s -> 0 <= n < maxSeq ->
  exists s', step_established sd rd x rnd s iKEY_UPDATE
      (FrameKeyUpdate, keyUpdateMarkerBytes (u64 (cs_epoch (ctrlOut s) + 1)), false, false) = (s', oKEY_UPDATE_ACK) /\
    stands sd rd (n + 1) (if cl then LQ4 else LQ3) s'.
Proof.
  intros Hup Hn. destruct (control_built cl n s iKEY_UPDATE FrameKeyUpdate
    (keyUpdateMarkerBytes (u64 (cs_epoch (ctrlOut s) + 1))) Hup)
    as (c & q & c1 & wire & st & Hc & Hr & Hcl & Hq & Hqu & Hstep & Hrecv & Hst & Hse);
    [lia|by vm_compute|unfold keyUpdateMarkerBytes; by rewrite tlv_marker_size|done|].
  rewrite Hstep. cbn [sent_ctrl orb]. rewrite bool_decide_true by done.
  pose proof (keys_at_ok (master s) sd (cs_epoch (ctrlOut s)) ChanControl (cs_seq (ctrlOut s))) as (st0 & Hst0 & He & _).
  rewrite Hst in Hst0. injection Hst0 as <-. pose proof Hup as [].
  destruct (inject_key_update sd rd (master s) x rnd (set_out (chan_advance (chan_bump (ctrlOut s))) (appOut s) s) c wire c1
    (ctrlOut s) (appOut s) q st) as (c' & Hi & Hc' & Hse'); try done; [exact (eq_trans up_closing0 (eq_sym Hcl))|by apply keys_at_bump|].
  eexists. split; [exact Hi|]. apply (up_after cl n s c' (u64 (q + 1))); try done.
  - lia.
  - unfold u64, maxSeq in *. rewrite Z.mod_small; lia.
  - congruence.
  - apply u64_range.
Qed.

(** The default of the Control channel. *)
Lemma established_default cl n s i ft pl :
  up sd rd cl n s -> n < maxSeq -> i <> iAPP -> ft ∉ control_types -> is_u16 ft -> blen pl < 2 ^ 20 ->
  exists s', step_established sd rd x rnd s i (ft, pl, false, false) = (s', unexpected) /\
    stands sd rd (n + 1) LQ1 s'.
Proof.
  intros Hup Hn Hi Hno Hft Hsz. eapply (established_rejected cl n s i ft pl); try eassumption; [by vm_compute|].
  intros st c _ _. by apply dispatch_default.
Qed.

(** The peer's CLOSE, and the acknowledgement of the endpoint's own. *)
Lemma established_close cl n s :
  up sd rd cl n s -> n < maxSeq ->
  exists s', step_established sd rd x rnd s iCLOSE (FrameClose, [], false, false) = (s', oCLOSE_ACK) /\
    stands sd rd (n + 1) LQ1 s'.
Proof.
  intros Hup Hn. destruct (control_built cl n s iCLOSE FrameClose [] Hup Hn)
    as (c & q & c1 & wire & st & Hc & Hr & Hcl & Hq & Hqu & Hstep & Hrecv & Hst & Hse); [by vm_compute..|done|].
  rewrite Hstep. eapply (inject_close sd rd (master s) x rnd _ c c1 wire (chan_bump (ctrlOut s)) (appOut s) q); try eassumption.
  eapply comes_to_intro; [exact Hrecv|reflexivity].
Qed.

Lemma established_close_ack cl n s :
  up sd rd cl n s -> n < maxSeq ->
  exists s', step_established sd rd x rnd s iCLOSE_ACK (FrameCloseAck, [], false, false)
    = (s', if cl then oSILENT else unexpected) /\ stands sd rd (n + 1) LQ1 s'.
Proof.
  intros Hup Hn. destruct cl.
  - destruct (control_built true n s iCLOSE_ACK FrameCloseAck [] Hup Hn)
      as (c & q & c1 & wire & st & Hc & Hr & Hcl & Hq & Hqu & Hstep & Hrecv & Hst & Hse); [by vm_compute..|done|].
    rewrite Hstep. eapply (inject_close_ack rd x rnd _ c _ wire); [exact Hc|exact Hr| |].
    + eapply comes_to_intro; [exact Hrecv|]. rewrite dispatch_close_ack, Hcl. reflexivity.
    + apply Hse.
  - eapply (established_rejected false n s); try eassumption; [by vm_compute..|].
    intros st c Hcl _. by rewrite dispatch_close_ack, Hcl.
Qed.

Lemma established_init_close cl n s :
  up sd rd cl n s -> 0 <= n < maxSeq ->
  exists s', step_init_close s = (s', oSILENT) /\ stands sd rd (n + 1) LQ4 s'.
Proof.
  intros Hup Hn. pose proof Hup as []. open_up Hup c q. destruct cl.
  - exists s. split; [unfold step_init_close; by rewrite Hc, up_closing0|].
    split; try assumption. exists c, q. split; [exact Hc|]. split; [exact Hcl|]. split; [lia|exact Hse].
  - destruct (step_init_close_session sd rd (master s) s c q Hc up_closing0 ltac:(lia) Hse) as (c' & Hi & Hc' & Hse').
    eexists. split; [exact Hi|]. split; try assumption; [reflexivity|].
    exists c', (q + 1). split; [reflexivity|]. split; [exact Hc'|]. split; [lia|exact Hse'].
Qed.

Lemma established_app cl n s y :
  up sd rd cl n s -> n < maxSeq ->
  exists s', step_established sd rd x rnd s iAPP y = (s', oACCEPT) /\
    stands sd rd (n + 1) (if cl then LQ4 else LQ3) s'.
Proof.
  intros Hup Hn. pose proof Hup as []. open_up Hup c q.
  destruct (step_app_session sd rd (master s) x rnd s c q Hc (eq_trans up_closing0 (eq_sym Hcl)) eq_refl up_app0 Hse)
    as (c' & Hi & Hc' & Hse').
  eexists. split; [exact Hi|]. apply (up_after cl n s c' q); try assumption; [lia|congruence|apply u64_range].
Qed.

(** Every input of an established episode is answered as in the machine. *)
Lemma established_step cl n s i y :
  up sd rd cl n s -> 0 <= n < maxSeq -> shape_ok (cs_epoch (ctrlOut s)) i y ->
  exists s', (if bool_decide (i = iINIT_CLOSE) then step_init_close s else step_established sd rd x rnd s i y)
    = (s', (learned_established cl i).1) /\ stands sd rd (n + 1) (learned_established cl i).2 s'.
Proof.
  intros Hup Hn Hy. assert (n < maxSeq) as Hn' by lia.
  destruct i; unfold shape_ok in Hy; cbn [learned_established fst snd];
    first [rewrite (bool_decide_true (iINIT_CLOSE = _) eq_refl)|rewrite bool_decide_false by discriminate];
    try (subst y);
    [ destruct Hy as (ft & pl & -> & Hft & Hsz); eapply established_cleartext; try eassumption; discriminate
    | destruct Hy as (ft & pl & -> & Hft & Hsz); eapply established_cleartext; try eassumption; discriminate
    | destruct Hy as (ft & pl & -> & Hft & Hsz); eapply established_cleartext; try eassumption; discriminate
    | destruct Hy as (ft & pl & -> & Hno & Hft & Hsz); eapply established_default; try eassumption; discriminate
    | destruct Hy as (ft & pl & -> & Hno & Hft & Hsz); eapply established_corrupted; try eassumption; discriminate
    | destruct Hy as (ft & pl & -> & Hno & Hft & Hsz); eapply established_default; try eassumption; discriminate
    | destruct Hy as (ft & pl & -> & Hno & Hft & Hsz); eapply established_corrupted; try eassumption; discriminate
    | eapply established_key_update; eassumption
    | 
    | eapply established_close; eassumption
    | 
    | eapply established_app; eassumption
    | destruct Hy as (ft & pl & -> & Hno & Hft & Hsz); eapply established_default; try eassumption; discriminate
    | eapply established_init_close; eassumption
    | destruct Hy as (ft & pl & -> & Hno & Hft & Hsz); eapply established_default; try eassumption; discriminate ].
  - eapply (established_rejected cl n s); try eassumption; [by vm_compute| |discriminate|by vm_compute|].
    + unfold keyUpdateMarkerBytes. by rewrite tlv_marker_size.
    + intros st c _ Hp. apply dispatch_unsolicited_ack; [apply Hup|exact Hp].
  - destruct (established_close_ack cl n s Hup Hn') as (s' & Hs). exists s'. by destruct cl.
Qed.
End established_step.
