(* ===== verification/SulRoles.v ===== *)
(** * The handshake states of the learned automata

    The system under learning before the handshake has completed, for both roles, and
    the theorems that put the two phases together. *)

From S2P Require Import Prelude Errors Registry Sha256 Crypto Tlv Frame Aead Kem KeySchedule Transcript.
From S2P Require Import Handshake Cbor ErrorFrame Conn ConnRecv ConnLogic ConnLive ConnSync ConnDrop ConnControl.
From S2P Require Import SdkHandshake HandshakeRuns HandshakeHonest Sul SulLearned.
From Stdlib Require Import Strings.Byte.
From stdpp Require Import gmap.
Open Scope Z_scope.

Lemma bind_known {A B} (r : result error A) (a : A) (f : A -> result error B) : r = Ok a -> r ≫= f = f a.
Proof. by intros ->. Qed.

Section handshake.
Context `{CryptoLaws}.

(** ** Frames of the handshake phase *)

(** Every input but the two that build none gives a whole frame of its type. *)
Lemma built_frame epoch i y base dir :
  tamper_evident -> shape_ok epoch i y -> i <> iAPP -> i <> iINIT_CLOSE ->
  exists f, build y base dir 0 0 = Ok (marshal f) /\ frame_wf f /\ frame_size f <= MaxFrameSize /\ Type_ f = y.1.1.1.
Proof.
  intros Htamper Hy H1 H2.
  destruct (keys_at_ok base dir 0 ChanControl 0) as (st & Hst & _ & Hq).
  assert (forall ft pl corrupt, y = (ft, pl, false, corrupt) -> is_u16 ft -> blen pl < 2 ^ 20 ->
    exists f, build y base dir 0 0 = Ok (marshal f) /\ frame_wf f /\ frame_size f <= MaxFrameSize /\ Type_ f = y.1.1.1) as Hsealed.
  { intros ft pl corrupt -> Hft Hsz. destruct (seal_ok st ChanControl ft pl) as (wire & Hw).
    unfold build. rewrite (sealFrameWire_at _ _ _ _ _ st _ _ Hst), Hw. cbn [mbind result_bind fst].
    destruct corrupt.
    - destruct (corrupted_frame st ChanControl ft pl wire Htamper Hw) as (f & e & Hf & Hwf & Hs & _ & Ht & _);
        [by vm_compute|exact Hft|by rewrite Hq|exact Hsz|]. exists f. by rewrite Hf.
    - destruct (sealed_frame st ChanControl ft pl wire Hw) as (f & -> & Hwf & _ & Ht & _ & _ & _ & _ & _ & Hs);
        [by vm_compute|exact Hft|by rewrite Hq|exact Hsz|]. exists f. rewrite blen_marshal in Hs.
      exact (conj eq_refl (conj Hwf (conj Hs Ht))). }
  assert (forall ft pl, y = (ft, pl, true, false) -> is_u16 ft -> blen pl < 2 ^ 23 ->
    exists f, build y base dir 0 0 = Ok (marshal f) /\ frame_wf f /\ frame_size f <= MaxFrameSize /\ Type_ f = y.1.1.1) as Hclear.
  { intros ft pl -> Hft Hsz. destruct (cleartext_wf ft pl Hft Hsz) as (Hwf & Hw & _).
    exists (mkFrame ProtocolVersion 0 ft ChanControl 0 pl). split; [exact (f_equal Ok Hw)|]. split; [exact Hwf|].
    split; [|reflexivity]. unfold frame_size. cbn [Payload]. change MaxFrameSize with 16777216. unfold HeaderSize. lia. }
  destruct i; unfold shape_ok in Hy; try (by destruct H1); try (by destruct H2);
    first [destruct Hy as (ft & pl & Hy & Hft & Hsz); eapply Hclear; eassumption
          |destruct Hy as (ft & pl & Hy & _ & Hft & Hsz); eapply Hsealed; eassumption
          |eapply Hsealed; [exact Hy|by vm_compute|first [by vm_compute|unfold keyUpdateMarkerBytes; by rewrite tlv_marker_size]]].
Qed.

Lemma wire_taken {A} f (k : result error bytes -> hs A) :
  frame_wf f -> frame_size f <= MaxFrameSize -> pipe_write (marshal f) (HRead k) = Some (k (Ok (marshal f))).
Proof.
  intros Hwf Hsz. unfold pipe_write. pose proof (readFrame_marshal f [] Hwf Hsz) as Hr.
  rewrite app_nil_r in Hr. by rewrite Hr.
Qed.

Lemma readable_taken {A} w (k : result error bytes -> hs A) : readable w -> pipe_write w (HRead k) = Some (k (Ok w)).
Proof. intros Hw. unfold pipe_write. by rewrite (read_whole w Hw). Qed.

(** A cleartext frame on the driver's end. *)
Lemma cleartext_read ft pl :
  is_u16 ft -> blen pl < 2 ^ 23 ->
  exists f, readWireFrame (hw_wire (cleartext ft pl)) = Ok f /\ Type_ f = ft /\ Payload f = pl /\ Flags f = 0.
Proof.
  intros Hft Hsz. destruct (cleartext_wf ft pl Hft Hsz) as (Hwf & Hw & Hs). rewrite Hw in *.
  eexists. split; [apply readWireFrame_marshal; [exact Hwf|]|split_and!; reflexivity]. rewrite <- blen_marshal. apply Hs.
Qed.

(** ** Reactions *)

Lemma code_range : is_u8 ErrCodeDecryptFailed.
Proof. by vm_compute. Qed.

(** The endpoint gave up without a word. *)
Lemma react_abort pollf s f j err :
  proc s = HRead j -> frame_wf f -> frame_size f <= MaxFrameSize -> j (Ok (marshal f)) = HDone (Err err) ->
  react_handshake pollf s (marshal f) =
    let s' := pollf (set_proc (HDone (Err err)) s) in
    Some (s', None, resolved s' && has_err s' && negb (ep_established s')).
Proof.
  intros Hp Hwf Hsz Hj. unfold react_handshake. rewrite Hp, (wire_taken f j Hwf Hsz), Hj. reflexivity.
Qed.

(** The endpoint sent an ERROR. *)
Lemma react_emit pollf s f j bs dir seq code err :
  proc s = HRead j -> frame_wf f -> frame_size f <= MaxFrameSize ->
  j (Ok (marshal f)) = emitHandshakeError bs dir seq code ProfileStandard err -> is_u64 seq -> is_u8 code ->
  exists g, react_handshake pollf s (marshal f) = Some (set_proc (HDone (Err err)) s, Some g, false) /\
    Type_ g = FrameError /\ openFrameWire g bs dir 0 profile = Ok (EncodeErrorBody code []).
Proof.
  intros Hp Hwf Hsz Hj Hseq Hcode. unfold react_handshake. rewrite Hp, (wire_taken f j Hwf Hsz), Hj.
  destruct (keys_at_ok bs dir 0 ChanControl seq) as (st & Hst & _ & Hq).
  destruct (seal_ok st ChanControl FrameError (EncodeErrorBody code [])) as (wire & Hw).
  destruct (sealed_frame st ChanControl FrameError (EncodeErrorBody code []) wire Hw)
    as (g & _ & _ & _ & Ht & Hch & _ & Ho & Hr & _ & Hmax);
    [by vm_compute|by vm_compute|by rewrite Hq|by apply error_body_small|].
  assert (exists w, sealFrame bs dir ChanControl seq FrameError (EncodeErrorBody code []) ProfileStandard = Ok w /\
    hw_wire w = wire) as (w & Hsf & Hww).
  { pose proof (sealFrameWire_at bs dir 0 ChanControl seq st FrameError (EncodeErrorBody code []) Hst) as Hs.
    rewrite Hw in Hs. unfold sealFrameWire in Hs. unfold sealFrame.
    change (deriveKeyIV bs dir ChanControl ProfileStandard) with (deriveKeyIVAt bs dir 0 ChanControl profile).
    destruct (deriveKeyIVAt bs dir 0 ChanControl profile) as [[key iv]|]; [|discriminate Hs].
    cbn [mbind result_bind] in *. unfold SealAES256GCM in *. cbn [mbind result_bind] in *.
    eexists. split; [reflexivity|]. by injection Hs. }
  assert (emitHandshakeError bs dir seq code ProfileStandard err = HWrite w (fun _ => HDone (Err err)) :> hs Conn) as ->.
  { unfold emitHandshakeError. rewrite Hsf. pose proof (seal_length _ _ _ _ _ Hw) as Hl.
    pose proof (blen_nonneg (EncodeErrorBody code [])). unfold writeFrame. rewrite Hww.
    rewrite (proj2 (Z.ltb_ge (blen wire) HeaderSize)) by lia.
    rewrite (proj2 (Z.ltb_ge maxFrameSize (blen wire)) Hmax). reflexivity. }
  cbn [pipe_read]. rewrite Hww, Hr. exists g. split; [reflexivity|]. split; [exact Ht|].
  rewrite (openFrameWire_at bs dir 0 g seq st); [exact Ho|]. by rewrite Hch.
Qed.

(** The frames an endpoint waiting for an AUTH message refuses. *)
Lemma auth_wrong_type f want bs dir :
  frame_wf f -> Type_ f <> want ->
  openAuthFrame (marshal f) want bs dir ProfileStandard = inr (ErrCodeUnexpectedMessage, ErrWrongFrameType).
Proof.
  intros Hwf Ht. unfold openAuthFrame. rewrite (unmarshal_marshal f Hwf).
  by rewrite (proj2 (Z.eqb_neq _ _) Ht).
Qed.

(** The corrupted AUTH message. *)
Lemma auth_corrupted bs dir ft pl :
  tamper_evident -> is_u16 ft -> blen pl < 2 ^ 20 ->
  exists f e, build (ft, pl, false, true) bs dir 0 0 = Ok (marshal f) /\ frame_wf f /\ frame_size f <= MaxFrameSize /\
    openAuthFrame (marshal f) ft bs dir ProfileStandard = inr (ErrCodeDecryptFailed, e).
Proof.
  intros Htamper Hft Hsz. destruct (keys_at_ok bs dir 0 ChanControl 0) as (st & Hst & _ & Hq).
  destruct (seal_ok st ChanControl ft pl) as (wire & Hw).
  destruct (corrupted_frame st ChanControl ft pl wire Htamper Hw) as (f & e & Hf & Hwf & Hs & Hfl & Ht & Hch & _ & Ho);
    [by vm_compute|exact Hft|by rewrite Hq|exact Hsz|].
  exists f, e. split.
  { unfold build. rewrite (sealFrameWire_at _ _ _ _ _ st _ _ Hst), Hw. cbn [mbind result_bind]. by rewrite Hf. }
  split; [exact Hwf|]. split; [exact Hs|]. unfold openAuthFrame. rewrite (unmarshal_marshal f Hwf), Ht, Z.eqb_refl, Hfl.
  change (Z.land FlagENC FlagENC =? 0) with false. cbn [negb].
  change (openFrame f bs dir ProfileStandard) with (openFrameWire f bs dir 0 profile).
  rewrite (openFrameWire_at bs dir 0 f 0 st); [by rewrite Ho|]. by rewrite Hch.
Qed.

(** An AUTH message of an honest exchange on the driver's end. *)
Lemma auth_read id role ft dir hsec t1 t2 cv key fin w :
  auth_ok id role ft dir hsec t1 t2 cv key fin w ->
  build (ft, AuthMessage_Encode (mkAuth (edPub id) cv fin), false, false) hsec dir 0 0 = Ok (hw_wire w) /\
  exists f, hw_wire w = marshal f /\ frame_wf f /\ frame_size f <= MaxFrameSize /\ readWireFrame (hw_wire w) = Ok f /\
    Type_ f = ft /\ (pt ← openFrameWire f hsec dir 0 profile; DecodeAuthMessage pt) = Ok (mkAuth (edPub id) cv fin).
Proof.
  intros [_ _ _ _ _ ao_seal0 _ ao_size0 ao_open0]. split.
  - unfold sealFrame in ao_seal0. unfold build, sealFrameWire.
    change (deriveKeyIVAt hsec dir 0 ChanControl profile) with (deriveKeyIV hsec dir ChanControl ProfileStandard).
    destruct (deriveKeyIV hsec dir ChanControl ProfileStandard) as [[k iv]|]; [|discriminate ao_seal0].
    cbn [mbind result_bind] in *. unfold SealAES256GCM in *. cbn [mbind result_bind] in *. injection ao_seal0 as <-. reflexivity.
  - unfold openAuthFrame in ao_open0. destruct (UnmarshalBinary (hw_wire w)) as [f|] eqn:Eu; [|discriminate ao_open0].
    destruct (marshal_unmarshal _ _ Eu) as [Hwf Hm].
    assert (frame_size f <= MaxFrameSize) as Hs by (rewrite <- blen_marshal, Hm; apply ao_size0).
    exists f. split; [by rewrite Hm|]. split; [exact Hwf|]. split; [exact Hs|].
    split; [rewrite <- Hm; by apply readWireFrame_marshal|].
    destruct (Type_ f =? ft) eqn:Et; [|discriminate ao_open0]. apply Z.eqb_eq in Et. split; [exact Et|]. cbn [negb] in ao_open0.
    destruct (Z.land (Flags f) FlagENC =? 0); [discriminate ao_open0|].
    change (openFrame f hsec dir ProfileStandard) with (openFrameWire f hsec dir 0 profile) in ao_open0.
    destruct (openFrameWire f hsec dir 0 profile) as [pt|]; [|discriminate ao_open0]. cbn [mbind result_bind].
    destruct (DecodeAuthMessage pt) as [am|]; [congruence|discriminate ao_open0].
Qed.
End handshake.

(** ** The two identities of the driver *)

Section identities.
Context `{CryptoLaws}.

Definition driver_id : localIdentity := mkIdentity (Some driverPriv) driverPub [ProfileStandard].
Definition sut_id : localIdentity := mkIdentity (Some sutPriv) sutPub [ProfileStandard].

Lemma driver_id_ok : identity_ok driver_id driverPriv.
Proof. by split. Qed.

Lemma sut_id_ok : identity_ok sut_id sutPriv.
Proof. by split. Qed.

Lemma dummy_auth_small id priv : identity_ok id priv -> blen (dummyAuthPayload (edPub id)) < 2 ^ 20.
Proof. intros Hid. by apply (auth_message_ok id priv (be_put 2 SigEd25519 ++ replicate 64 x00) (replicate 32 x00) Hid). Qed.

Lemma dummy_hello_small : blen dummyServerHelloPayload < 2 ^ 23.
Proof. apply (server_hello_ok (replicate (Z.to_nat KEMCiphertextSize768) x00)). by vm_compute. Qed.

Lemma auth_types : FrameServerAuth ∉ control_types /\ FrameClientAuth ∉ control_types /\ unknownFrameType ∉ control_types /\
  is_u16 FrameServerAuth /\ is_u16 FrameClientAuth /\ is_u16 unknownFrameType.
Proof.
  split; [apply (bool_decide_unpack _); vm_compute; exact I|]. split; [apply (bool_decide_unpack _); vm_compute; exact I|].
  split; [apply (bool_decide_unpack _); vm_compute; exact I|]. by vm_compute.
Qed.

(** What the two concretizations share. *)
Lemma concretize_ok epoch i (hello sh1 sh2 sauth cauth : bytes) :
  blen hello < 2 ^ 23 -> blen sh1 < 2 ^ 23 -> blen sh2 < 2 ^ 23 -> blen sauth < 2 ^ 20 -> blen cauth < 2 ^ 20 ->
  shape_ok epoch i
    match i with
    | iCLIENT_HELLO => (FrameClientHello, hello, true, false)
    | iSERVER_HELLO => (FrameServerHello, sh1, true, false)
    | iSERVER_HELLO_BADSEL => (FrameServerHello, sh2, true, false)
    | iSERVER_AUTH => (FrameServerAuth, sauth, false, false)
    | iSERVER_AUTH_BADAUTH => (FrameServerAuth, sauth, false, true)
    | iCLIENT_AUTH => (FrameClientAuth, cauth, false, false)
    | iCLIENT_AUTH_BADAUTH => (FrameClientAuth, cauth, false, true)
    | iKEY_UPDATE => (FrameKeyUpdate, keyUpdateMarkerBytes (u64 (epoch + 1)), false, false)
    | iKEY_UPDATE_ACK => (FrameKeyUpdateAck, keyUpdateMarkerBytes epoch, false, false)
    | iCLOSE => (FrameClose, [], false, false)
    | iCLOSE_ACK => (FrameCloseAck, [], false, false)
    | iUNKNOWN => (unknownFrameType, [], false, false)
    | _ => (unknownFrameType, [], false, false)
    end.
Proof.
  intros H1 H2 H3 H4 H5. destruct auth_types as (T1 & T2 & T3 & U1 & U2 & U3).
  assert (is_u16 FrameClientHello /\ is_u16 FrameServerHello) as [U4 U5] by (by vm_compute).
  assert (blen (A := byte) [] < 2 ^ 20) as H6 by (by vm_compute).
  destruct i; unfold shape_ok; first [reflexivity|exact I|eexists _, _; split; [reflexivity|]; by split_and!].
Qed.
End identities.

(** ** The responder *)

Section responder.
Context `{CryptoLaws} (Htamper : tamper_evident).
Context (seed xk x rnd ct : bytes) (kem : KEMClient) (ss : SharedSecrets).
Context (Hkem : NewKEMClient seed xk = Ok kem) (Hrec : mlkem_recovers seed rnd)
  (Henc : Encapsulate (KEMShare kem) x rnd = Ok (ct, ss)).

Definition accepted (e : established) : hs Conn := mret (establish DirServerToClient DirClientToServer e).

Lemma accept_program :
  AcceptRaw sul_config (Err ErrCrypto) x rnd true = runServerHandshake sut_id None x rnd ≫= accepted.
Proof. reflexivity. Qed.

Definition responder0 : responderScenario :=
  mkResponder (new_episode (AcceptRaw sul_config (Err ErrCrypto) x rnd true)) kem (hello_c driver_id kem) None None None None None.

Lemma responder_reset_ok : responder_reset x rnd (Ok kem) = Ok responder0.
Proof. reflexivity. Qed.

(** The payloads of the scenario fit their frames. *)
Definition r_fits (s : responderScenario) : Prop :=
  r_ch s = hello_c driver_id kem /\ blen (clientAuthOrDummy s) < 2 ^ 20.

Lemma responder_shape s i : r_fits s -> shape_ok (cs_epoch (ctrlOut (r_ep s))) i (responder_concretize s i).
Proof.
  intros [Hch Hca]. unfold responder_concretize. rewrite Hch.
  destruct (client_hello_ok driver_id driverPriv kem driver_id_ok) as (_ & _ & Hcl).
  exact (concretize_ok _ i _ _ _ _ _ Hcl dummy_hello_small dummy_hello_small (dummy_auth_small _ _ sut_id_ok) Hca).
Qed.

(** Waiting for CLIENT_AUTH, after the flight of the exchange [e]. *)
Record waits_ca (e : exchange) (s : responderScenario) : Prop := {
  wc_proc : exists j, r_ep s = new_episode (HRead j) /\
    j (Ok (hw_wire (x_ca e))) = HDone (Ok (establish DirServerToClient DirClientToServer
      (x_master e, edPub driver_id, ProfileStandard))) /\
    forall w code err, openAuthFrame w FrameClientAuth (x_cHS e) DirClientToServer ProfileStandard = inr (code, err) ->
      j (Ok w) = emitHandshakeError (x_sHS e) DirServerToClient 1 code ProfileStandard err;
  wc_cHS : r_cHS s = Some (x_cHS e);
  wc_sHS : r_sHS s = Some (x_sHS e);
  wc_ca : caPlaintext s = Some (AuthMessage_Encode (mkAuth (edPub driver_id) (x_cCV e) (x_cFin e)));
  wc_master : pendingMaster s = Some (x_master e)
}.

Definition r_rel (e : exchange) (n : Z) (q : lstate) (s : responderScenario) : Prop :=
  r_fits s /\
  match q with
  | LQ0 => s = responder0
  | LQ2 => waits_ca e s
  | _ => stands DirClientToServer DirServerToClient n q (r_ep s)
  end.

Notation xok := (exchange_ok driver_id sut_id ct kem ss).

(** The first flight: the driver derives what the endpoint derived. *)
Lemma secrets_of_exchange e s f :
  xok e -> r_kem s = kem -> r_ch s = hello_c driver_id kem ->
  (pt ← openFrameWire f (x_sHS e) DirServerToClient 0 profile; DecodeAuthMessage pt)
    = Ok (mkAuth (edPub sut_id) (x_sCV e) (x_sFin e)) ->
  establishHandshakeSecrets s (hello_s ct) f =
    (r_set_pending (x_master e)
      (r_set_ca (AuthMessage_Encode (mkAuth (edPub driver_id) (x_cCV e) (x_cFin e)))
        (r_set_keys (x_cHS e) (x_sHS e) (r_set_hs (x_hsec e) s))), None).
Proof.
  intros [Hh Hk _ Hc Hm] Hrk Hrch Ho. destruct Hc as [Hsign _ Hkey Hfin _ _ _ _ _].
  unfold establishHandshakeSecrets. rewrite Hrk. change (sh_KEMCiphertext (hello_s ct)) with ct.
  rewrite (kem_agreement seed xk kem x rnd ct ss Hkem Hrec Henc). cbn [mbind result_bind].
  change profile with ProfileStandard in *. rewrite Hh.
  change (r_ch (r_set_hs (x_hsec e) s)) with (r_ch s). rewrite Hrch.
  assert (hellos (hello_c driver_id kem) (hello_s ct) = point_hello driver_id ct kem) as ->
    by (unfold hellos; change profile with ProfileStandard; by rewrite hello_transcript).
  rewrite Hk. change responderDriverRecvDir with DirServerToClient.
  destruct (openFrameWire f (x_sHS e) DirServerToClient 0 ProfileStandard) as [pt|]; [|discriminate Ho].
  cbn [mbind result_bind] in *. rewrite Ho. cbn [mbind result_bind IdentityKey CertVerify Finished].
  change (signCertVerify driver_id RoleClient ?th) with (SignCertVerify driverPriv RoleClient th) in Hsign.
  change (AddTLV (mkTLV TLVFinished (x_sFin e)) (AddTLV (mkTLV TLVCertVerify (x_sCV e))
    (auth_flight FrameServerAuth (edPub sut_id) (point_hello driver_id ct kem)))) with
    (AddTLV (mkTLV TLVFinished (x_sFin e)) (point_scv driver_id sut_id ct kem e)).
  change (auth_flight FrameClientAuth driverPub (AddTLV (mkTLV TLVFinished (x_sFin e)) (point_scv driver_id sut_id ct kem e)))
    with (point_cid driver_id sut_id ct kem e).
  rewrite Hsign. cbn [mbind result_bind]. rewrite Hkey. cbn [mbind result_bind].
  change (AddTLV (mkTLV TLVCertVerify (x_cCV e)) (point_cid driver_id sut_id ct kem e)) with (point_ccv driver_id sut_id ct kem e).
  rewrite Hfin. cbn [mbind result_bind]. rewrite Hm. reflexivity.
Qed.

Lemma client_auth_small e :
  xok e -> blen (AuthMessage_Encode (mkAuth (edPub driver_id) (x_cCV e) (x_cFin e))) < 2 ^ 20.
Proof.
  intros [_ _ _ [Hsign _ Hkey Hfin _ _ _ _ _] _].
  destruct (identity_signs driver_id driverPriv RoleClient (Transcript_Sum (point_cid driver_id sut_id ct kem e)) driver_id_ok)
    as (cv & Hs & _ & Hl); [by left|]. rewrite Hsign in Hs. injection Hs as <-.
  destruct (finished_standard (x_cHS e) (Transcript_Sum (point_ccv driver_id sut_id ct kem e))) as (k & mac & Hk & Hf & _ & Hm).
  rewrite Hkey in Hk. injection Hk as <-. rewrite Hfin in Hf. injection Hf as <-.
  by apply (auth_message_ok driver_id driverPriv).
Qed.

(** CLIENT_HELLO at the start. *)
Lemma responder_hello e n :
  xok e -> exists s', responder_step x rnd responder0 iCLIENT_HELLO = (s', oSH_SA) /\ r_rel e n LQ2 s'.
Proof.
  intros He.
  destruct (server_program driver_id sut_id driverPriv sutPriv None x rnd ct kem ss driver_id_ok sut_id_ok Henc
    (or_introl eq_refl) e He) as (j0 & j1 & j2 & j3 & Hs & Hj0 & Hj1 & Hj2 & Hj3 & _ & Hauth).
  destruct (client_hello_ok driver_id driverPriv kem driver_id_ok) as (_ & _ & Hcl).
  destruct (server_hello_ok ct (Encapsulate_size _ _ _ _ _ Henc)) as [Hsd Hsl]. fold (hello_s ct) in Hsd, Hsl.
  destruct (cleartext_read FrameServerHello _ ltac:(by vm_compute) Hsl) as (fs & Hfs & Htype & Hpl & _).
  destruct (auth_read _ _ _ _ _ _ _ _ _ _ _ (xo_server _ _ _ _ _ _ He)) as (_ & fa & _ & _ & _ & Hfa & Hta & Hoa).
  set (s1 := r_set (new_episode (j2 true ≫= accepted)) responder0).
  exists (establishHandshakeSecrets s1 (hello_s ct) fa).1.
  rewrite (secrets_of_exchange e s1 fa He eq_refl eq_refl Hoa). split.
  - change (responder_step x rnd responder0 iCLIENT_HELLO) with (responder_stepHandshake responder0 iCLIENT_HELLO).
    unfold responder_stepHandshake. rewrite bool_decide_false by discriminate.
    change (build (responder_concretize responder0 iCLIENT_HELLO) _ _ _ _)
      with (Ok (E := error) (hw_wire (ch_wire driver_id kem))). cbn iota.
    unfold react_handshake. change (proc (r_ep responder0)) with (AcceptRaw sul_config (Err ErrCrypto) x rnd true).
    rewrite accept_program, Hs. change (HRead j0 ≫= accepted) with (HRead (fun r => j0 r ≫= accepted)).
    rewrite readable_taken by (apply cleartext_readable; [by vm_compute|exact Hcl]). cbn beta. rewrite Hj0.
    change (HWrite (sh_wire ct) j1 ≫= accepted) with (HWrite (sh_wire ct) (fun io => j1 io ≫= accepted)).
    unfold pipe_read at 1. change (hw_wire (sh_wire ct)) with (hw_wire (cleartext FrameServerHello (ServerHello_Encode (hello_s ct)))).
    rewrite Hfs. cbn iota beta. rewrite Hj1. unfold responder_classify. rewrite Htype.
    change (FrameServerHello =? FrameError) with false. rewrite Z.eqb_refl, Hpl. cbn iota. rewrite Hsd.
    change (proc (r_ep (r_set (set_proc (HWrite (x_sa e) j2 ≫= accepted) (r_ep responder0)) responder0)))
      with (HWrite (x_sa e) (fun io => j2 io ≫= accepted)).
    unfold pipe_read. rewrite Hfa. cbn iota beta. rewrite Hta, Z.eqb_refl. cbn [negb].
    change (r_set (set_proc (j2 true ≫= accepted) _) _) with s1.
    by rewrite (secrets_of_exchange e s1 fa He eq_refl eq_refl Hoa).
  - split; [split; [reflexivity|exact (client_auth_small e He)]|]. split; try reflexivity.
    exists (fun r => j3 r ≫= accepted). split; [|split].
    + change (new_episode (j2 true ≫= accepted) = new_episode (HRead j3 ≫= accepted)). by rewrite Hj2.
    + by rewrite Hj3.
    + intros w code err Ho. rewrite (Hauth w code err Ho). apply emit_bind.
Qed.

Lemma r_fits0 : r_fits responder0.
Proof. split; [reflexivity|]. exact (dummy_auth_small driver_id driverPriv driver_id_ok). Qed.

(** Any other frame at the start ends the handshake without a word. *)
Lemma responder_abort e n i :
  xok e -> i <> iAPP -> i <> iINIT_CLOSE -> (responder_concretize responder0 i).1.1.1 <> FrameClientHello ->
  exists s', responder_step x rnd responder0 i = (s', oSILENT_ABORT) /\ r_rel e n LQ1 s'.
Proof.
  intros He H1 H2 Ht.
  destruct (server_program driver_id sut_id driverPriv sutPriv None x rnd ct kem ss driver_id_ok sut_id_ok Henc
    (or_introl eq_refl) e He) as (j0 & j1 & j2 & j3 & Hs & _ & _ & _ & _ & Hwrong & _).
  destruct (built_frame _ i _ (default placeholderSecret (r_cHS responder0)) responderDriverSendDir Htamper
    (responder_shape responder0 i r_fits0) H1 H2) as (f & Hb & Hwf & Hsz & Hty).
  assert (responder_step x rnd responder0 i = responder_stepHandshake responder0 i) as ->.
  { unfold responder_step. rewrite (bool_decide_false (i = iINIT_CLOSE) H2). reflexivity. }
  unfold responder_stepHandshake. rewrite (bool_decide_false (i = iAPP) H1), Hb.
  rewrite (react_abort _ (r_ep responder0) f (fun r => j0 r ≫= accepted) ErrWrongFrameType); [|..|].
  - eexists. split; [reflexivity|]. split; [exact r_fits0|reflexivity].
  - change (AcceptRaw sul_config (Err ErrCrypto) x rnd true = HRead (fun r => j0 r ≫= accepted)).
    by rewrite accept_program, Hs.
  - exact Hwf.
  - exact Hsz.
  - cbn beta. rewrite Hwrong; [reflexivity|exact Hwf|congruence].
Qed.

(** While CLIENT_AUTH is awaited, a frame the endpoint refuses with an ERROR. *)
Lemma responder_refused e n s i f code err :
  waits_ca e s -> r_fits s -> i <> iAPP -> i <> iINIT_CLOSE ->
  build (responder_concretize s i) (x_cHS e) DirClientToServer 0 0 = Ok (marshal f) ->
  frame_wf f -> frame_size f <= MaxFrameSize -> is_u8 code ->
  openAuthFrame (marshal f) FrameClientAuth (x_cHS e) DirClientToServer ProfileStandard = inr (code, err) ->
  exists s', responder_step x rnd s i = (s', oERROR code) /\ r_rel e n LQ1 s'.
Proof.
  intros [(j & Hep & _ & Hj) Hc Hs _ _] Hfit H1 H2 Hb Hwf Hsz Hcode Ho.
  assert (responder_step x rnd s i = responder_stepHandshake s i) as ->.
  { unfold responder_step. rewrite (bool_decide_false (i = iINIT_CLOSE) H2), Hep. reflexivity. }
  unfold responder_stepHandshake. rewrite (bool_decide_false (i = iAPP) H1), Hc.
  change (default placeholderSecret (Some (x_cHS e))) with (x_cHS e). change responderDriverSendDir with DirClientToServer.
  rewrite Hb. destruct (react_emit (pollAccept (pendingMaster s)) (r_ep s) f j (x_sHS e) DirServerToClient 1 code err)
    as (g & Hre & Ht & Hg); [by rewrite Hep|exact Hwf|exact Hsz|by apply Hj|by vm_compute|exact Hcode|].
  rewrite Hre. unfold responder_classify. rewrite Ht, Z.eqb_refl.
  change (r_sHS (r_set _ s)) with (r_sHS s). rewrite Hs. change (default placeholderSecret (Some (x_sHS e))) with (x_sHS e).
  change responderDriverRecvDir with DirServerToClient. rewrite Hg, decode_error_encoded by done.
  eexists. split; [reflexivity|]. split; [exact Hfit|reflexivity].
Qed.

(** The valid CLIENT_AUTH. *)
Lemma responder_auth e n s :
  xok e -> 0 <= n -> waits_ca e s -> r_fits s ->
  exists s', responder_step x rnd s iCLIENT_AUTH = (s', oSILENT) /\ r_rel e n LQ3 s'.
Proof.
  intros He Hn [(j & Hep & Hj & _) Hc Hs Hca Hm] Hfit.
  destruct (auth_read _ _ _ _ _ _ _ _ _ _ _ (xo_client _ _ _ _ _ _ He)) as (Hb & f & Hw & Hwf & Hsz & _).
  assert (responder_step x rnd s iCLIENT_AUTH = responder_stepHandshake s iCLIENT_AUTH) as ->.
  { unfold responder_step. rewrite Hep. reflexivity. }
  unfold responder_stepHandshake. rewrite bool_decide_false by discriminate. rewrite Hc.
  change (responder_concretize s iCLIENT_AUTH) with (FrameClientAuth, clientAuthOrDummy s, false, false).
  unfold clientAuthOrDummy. rewrite Hca. change (default placeholderSecret (Some (x_cHS e))) with (x_cHS e).
  change responderDriverSendDir with DirClientToServer. rewrite Hb, Hw.
  unfold react_handshake. rewrite Hep. change (proc (new_episode (HRead j))) with (HRead j).
  rewrite (wire_taken f j Hwf Hsz), <- Hw, Hj, Hm. cbn [pipe_read].
  eexists. split; [reflexivity|]. split; [exact Hfit|]. cbn [stands].
  split; try reflexivity; [by vm_compute..|]. eexists _, 0. split; [reflexivity|]. split; [reflexivity|].
  split; [lia|]. apply session_new.
Qed.

Lemma responder_wait e n s i :
  xok e -> 0 <= n -> waits_ca e s -> r_fits s ->
  exists s', responder_step x rnd s i = (s', (learned_responder LQ2 i).1) /\ r_rel e n (learned_responder LQ2 i).2 s'.
Proof.
  intros He Hn Hw Hfit.
  assert (forall i, i <> iAPP -> i <> iINIT_CLOSE -> (responder_concretize s i).1.1.1 <> FrameClientAuth ->
    exists s', responder_step x rnd s i = (s', unexpected) /\ r_rel e n LQ1 s') as Hother.
  { intros k H1 H2 Ht. destruct (built_frame _ k _ (x_cHS e) DirClientToServer Htamper (responder_shape s k Hfit) H1 H2)
      as (f & Hb & Hwf & Hsz & Hty).
    apply (responder_refused e n s k f ErrCodeUnexpectedMessage ErrWrongFrameType Hw Hfit H1 H2 Hb Hwf Hsz);
      [by vm_compute|]. apply auth_wrong_type; [exact Hwf|congruence]. }
  pose proof Hw as [(j & Hep & _ & _) _ _ _ _].
  destruct i; cbn [learned_responder fst snd]; try (apply Hother; discriminate).
  - by apply responder_auth.
  - destruct (auth_corrupted (x_cHS e) DirClientToServer FrameClientAuth (clientAuthOrDummy s) Htamper)
      as (f & er & Hb & Hwf & Hsz & Ho); [by vm_compute|apply Hfit|].
    apply (responder_refused e n s iCLIENT_AUTH_BADAUTH f ErrCodeDecryptFailed er Hw Hfit);
      [discriminate|discriminate|exact Hb|exact Hwf|exact Hsz|apply code_range|exact Ho].
  - exists s. split; [|by split]. unfold responder_step. rewrite Hep. reflexivity.
  - exists s. split; [|by split]. unfold responder_step, step_init_close. rewrite Hep. cbn. rewrite <- Hep. by destruct s.
Qed.

(** One input, in any state. *)
Lemma responder_simulates e n q s i :
  xok e -> 0 <= n < maxSeq -> r_rel e n q s ->
  exists s', responder_step x rnd s i = (s', (learned_responder q i).1) /\ r_rel e (n + 1) (learned_responder q i).2 s'.
Proof.
  intros He Hn [Hfit Hq].
  assert (forall cl, up DirClientToServer DirServerToClient cl n (r_ep s) ->
    exists s', responder_step x rnd s i = (s', (learned_established cl i).1) /\
      r_rel e (n + 1) (learned_established cl i).2 s') as Hest.
  { intros cl Hup. destruct (established_step _ _ x rnd Htamper cl n (r_ep s) i _ Hup Hn (responder_shape s i Hfit))
      as (s' & Hs' & Hst).
    exists (r_set s' s). split; [|split; [exact Hfit|by destruct cl, i]].
    unfold responder_step. rewrite (up_open _ _ _ _ _ Hup), (up_est _ _ _ _ _ Hup).
    change responderDriverSendDir with DirClientToServer. change responderDriverRecvDir with DirServerToClient.
    destruct (bool_decide (i = iINIT_CLOSE)); by rewrite Hs'. }
  destruct q; cbn [learned_responder].
  - subst s. destruct i; cbn [fst snd]; try (apply responder_abort; [exact He|discriminate..]).
    + by apply responder_hello.
    + exists responder0. split; [reflexivity|by split].
    + exists responder0. split; [reflexivity|by split].
  - exists s. split; [|by split]. unfold responder_step. cbn [stands] in Hq. by rewrite Hq.
  - apply responder_wait; [exact He|lia|exact Hq|exact Hfit].
  - apply (Hest false Hq).
  - apply (Hest true Hq).
Qed.

Lemma responder_outputs word :
  Z.of_nat (length word) < maxSeq ->
  outputs (responder_step x rnd) responder0 word = mealy learned_responder LQ0 word.
Proof.
  destruct (exchange_exists driver_id sut_id driverPriv sutPriv ct kem ss driver_id_ok sut_id_ok) as (e & He).
  intros Hlen. apply (simulation_outputs _ _ (r_rel e)) with (n := 0); [|lia|lia|split; [exact r_fits0|reflexivity]].
  intros n q s i Hn. by apply responder_simulates.
Qed.
End responder.

(** ** The initiator *)

Section initiator.
Context `{CryptoLaws} (Htamper : tamper_evident).
Context (seed xk x rnd ct : bytes) (kem : KEMClient) (ss : SharedSecrets).
Context (Hkem : NewKEMClient seed xk = Ok kem) (Hrec : mlkem_recovers seed rnd)
  (Henc : Encapsulate (KEMShare kem) x rnd = Ok (ct, ss)).

Notation xok := (exchange_ok sut_id driver_id ct kem ss).

Definition dialed (e : established) : hs Conn := mret (establish DirClientToServer DirServerToClient e).

Lemma dial_program :
  DialRaw sul_config (Err ErrCrypto) (Ok kem) true = runClientHandshake sut_id None (Ok kem) ≫= dialed.
Proof. reflexivity. Qed.

Definition hello_bad : ServerHello :=
  mkServerHello ProfileHigh KEMX25519MLKEM768 SigEd25519 AEADAES256GCM ct.

(** The scenario of the exchange [e] around an episode. *)
Definition initiator_of (e : exchange) (ep : episode) : initiatorScenario :=
  mkInitiator ep (hello_c sut_id kem) (ClientHello_Encode (hello_c sut_id kem)) (hello_s ct) hello_bad
    (x_hsec e) (x_cHS e) (x_sHS e) (AuthMessage_Encode (mkAuth (edPub driver_id) (x_sCV e) (x_sFin e))).

Lemma hellos_exchange : hellos (hello_c sut_id kem) (hello_s ct) = point_hello sut_id ct kem.
Proof. unfold hellos. change profile with ProfileStandard. by rewrite hello_transcript. Qed.

Lemma server_auth_transcript e :
  xok e -> transcriptThroughServerAuth (hello_c sut_id kem) (hello_s ct) (x_sHS e) =
    (AddTLV (mkTLV TLVFinished (x_sFin e)) (point_scv sut_id driver_id ct kem e), x_sCV e, x_sFin e).
Proof.
  intros [_ _ [Hsign _ Hkey Hfin _ _ _ _ _] _ _]. unfold transcriptThroughServerAuth. rewrite hellos_exchange.
  change (signCertVerify driver_id RoleServer ?th) with (SignCertVerify driverPriv RoleServer th) in Hsign.
  change (auth_flight FrameServerAuth driverPub (point_hello sut_id ct kem)) with (point_sid sut_id driver_id ct kem).
  rewrite Hsign. change profile with ProfileStandard. rewrite Hkey. cbn [mbind result_bind].
  change (AddTLV (mkTLV TLVCertVerify (x_sCV e)) (point_sid sut_id driver_id ct kem)) with (point_scv sut_id driver_id ct kem e).
  by rewrite Hfin.
Qed.

Lemma server_auth_small e :
  xok e -> blen (AuthMessage_Encode (mkAuth (edPub driver_id) (x_sCV e) (x_sFin e))) < 2 ^ 20.
Proof.
  intros [_ _ [Hsign _ Hkey Hfin _ _ _ _ _] _ _].
  destruct (identity_signs driver_id driverPriv RoleServer (Transcript_Sum (point_sid sut_id driver_id ct kem)) driver_id_ok)
    as (cv & Hs & _ & Hl); [by right|]. rewrite Hsign in Hs. injection Hs as <-.
  destruct (finished_standard (x_sHS e) (Transcript_Sum (point_scv sut_id driver_id ct kem e))) as (k & mac & Hk & Hf & _ & Hm).
  rewrite Hkey in Hk. injection Hk as <-. rewrite Hfin in Hf. injection Hf as <-.
  by apply (auth_message_ok driver_id driverPriv).
Qed.

Lemma hello_bad_ok :
  server_hello_wf hello_bad /\ blen (ServerHello_Encode hello_bad) < 2 ^ 23.
Proof.
  pose proof (Encapsulate_size _ _ _ _ _ Henc) as Hct.
  assert (server_hello_wf hello_bad) as Hwf.
  { unfold server_hello_wf, hello_bad. cbn [ProfileSelect KEMSelect SigSelect AEADSelect sh_KEMCiphertext].
    do 4 (split; [by vm_compute|]). split; [apply blen_nonempty; by rewrite Hct|by rewrite Hct]. }
  split; [exact Hwf|]. pose proof (encode_tlvs_size _ (ServerHello_TLVs_wf _ Hwf)) as Hs. unfold ServerHello_Encode.
  change (blen (ServerHello_TLVs hello_bad)) with 5 in Hs. lia.
Qed.

Lemma initiator_shape e ep i :
  xok e -> shape_ok (cs_epoch (ctrlOut ep)) i (initiator_concretize (initiator_of e ep) i).
Proof.
  intros He. destruct (client_hello_ok sut_id sutPriv kem sut_id_ok) as (_ & _ & Hcl).
  destruct (server_hello_ok ct (Encapsulate_size _ _ _ _ _ Henc)) as [_ Hsl]. destruct hello_bad_ok as [_ Hbl].
  exact (concretize_ok _ i _ _ _ _ _ Hcl Hsl Hbl (server_auth_small e He) (dummy_auth_small _ _ sut_id_ok)).
Qed.

(** Waiting for SERVER_AUTH. *)
Definition waits_sa (e : exchange) (k : result error bytes -> hs Conn) : Prop :=
  (exists k3, k (Ok (hw_wire (x_sa e))) = HWrite (x_ca e) k3 /\
    k3 true = HDone (Ok (establish DirClientToServer DirServerToClient (x_master e, edPub driver_id, ProfileStandard)))) /\
  (forall w code err, openAuthFrame w FrameServerAuth (x_sHS e) DirServerToClient ProfileStandard = inr (code, err) ->
    k (Ok w) = emitHandshakeError (x_cHS e) DirClientToServer 0 code ProfileStandard err).

(** Waiting for SERVER_HELLO. *)
Definition waits_sh (e : exchange) (k : result error bytes -> hs Conn) : Prop :=
  (exists k2, k (Ok (hw_wire (sh_wire ct))) = HRead k2 /\ waits_sa e k2) /\
  (forall g, frame_wf g -> Type_ g <> FrameServerHello -> k (Ok (marshal g)) = HDone (Err ErrWrongFrameType)) /\
  k (Ok (hw_wire (cleartext FrameServerHello (ServerHello_Encode hello_bad)))) = HDone (Err ErrProfileNotOffered).

Definition i_rel (e : exchange) (n : Z) (q : lstate) (s : initiatorScenario) : Prop :=
  exists ep, s = initiator_of e ep /\
  match q with
  | LQ0 => exists k, ep = new_episode (HRead k) /\ waits_sh e k
  | LQ2 => exists k, ep = new_episode (HRead k) /\ waits_sa e k
  | _ => stands DirServerToClient DirClientToServer n q ep
  end.

(** The endpoint's CLIENT_HELLO, and what the driver makes of it. *)
Lemma initiator_reset_eq e k0 k1 f :
  xok e -> runClientHandshake sut_id None (Ok kem) = HWrite (ch_wire sut_id kem) k0 -> k0 true = HRead k1 ->
  readWireFrame (hw_wire (ch_wire sut_id kem)) = Ok f -> Type_ f = FrameClientHello -> Flags f = 0 ->
  Payload f = ClientHello_Encode (hello_c sut_id kem) ->
  DecodeClientHello (ClientHello_Encode (hello_c sut_id kem)) = Ok (hello_c sut_id kem) ->
  initiator_reset x rnd (Ok kem) = Ok (initiator_of e (new_episode (HRead (fun r => k1 r ≫= dialed)))).
Proof.
  intros He Hc Hk0 Hf Ht Hfl Hpl Hcd. unfold initiator_reset.
  assert (pipe_read (DialRaw sul_config (Err ErrCrypto) (Ok kem) true)
    = (Ok f, HRead (fun r => k1 r ≫= dialed))) as ->.
  { rewrite dial_program, Hc.
    change (HWrite (ch_wire sut_id kem) k0 ≫= dialed) with (HWrite (ch_wire sut_id kem) (fun io => k0 io ≫= dialed)).
    unfold pipe_read. rewrite Hf, Hk0. reflexivity. }
  rewrite (bind_known (Ok f) f) by reflexivity. rewrite Ht, Hfl, Hpl.
  rewrite (bind_known (check _ _) tt) by reflexivity. rewrite (bind_known _ _ _ Hcd).
  rewrite (bind_known _ _ _ (Henc : Encapsulate (ch_KEMShare (hello_c sut_id kem)) x rnd = _)). cbn beta iota.
  rewrite (bind_known _ _ _ (xo_hsec _ _ _ _ _ _ He)).
  rewrite (bind_known (DeriveHandshakeTrafficSecrets _ _ _) (x_cHS e, x_sHS e));
    [|rewrite <- (xo_keys _ _ _ _ _ _ He), <- hellos_exchange; reflexivity].
  cbn beta iota.
  pose proof (server_auth_transcript e He) as Hsa. unfold hello_s, serverHello in Hsa. 
  change (MinKEM ProfileStandard) with KEMX25519MLKEM768 in Hsa. rewrite Hsa. reflexivity.
Qed.

Lemma initiator_reset_ok e :
  xok e -> exists s, initiator_reset x rnd (Ok kem) = Ok s /\ i_rel e 0 LQ0 s.
Proof.
  intros He.
  destruct (client_program sut_id driver_id sutPriv None seed xk x rnd ct kem ss sut_id_ok Hkem Hrec Henc
    (or_introl eq_refl) e He) as (k0 & k1 & k2 & k3 & Hc & Hk0 & Hk1 & Hk2 & Hk3 & Hwrong & Hbad & Hauth).
  destruct (client_hello_ok sut_id sutPriv kem sut_id_ok) as (_ & Hcd & Hcl). fold (hello_c sut_id kem) in Hcd, Hcl.
  destruct (cleartext_read FrameClientHello _ ltac:(by vm_compute) Hcl) as (f & Hf & Ht & Hpl & Hfl).
  exists (initiator_of e (new_episode (HRead (fun r => k1 r ≫= dialed)))).
  split; [by apply (initiator_reset_eq e k0 k1 f)|].
  eexists. split; [reflexivity|]. eexists. split; [reflexivity|]. split; [|split].
  - exists (fun r => k2 r ≫= dialed). split; [by rewrite Hk1|]. split.
    + exists (fun io => k3 io ≫= dialed). split; [by rewrite Hk2|by rewrite Hk3].
    + intros w code err Ho. rewrite (Hauth w code err Ho). apply emit_bind.
  - intros g Hwf Hne. by rewrite (Hwrong g Hwf Hne).
  - destruct hello_bad_ok as [Hwf Hsz]. by rewrite (Hbad hello_bad ErrProfileNotOffered Hwf Hsz eq_refl).
Qed.

(** A handshake-phase input runs [stepHandshake]. *)
Lemma initiator_handshake e k i :
  i <> iINIT_CLOSE ->
  initiator_step x rnd (initiator_of e (new_episode (HRead k))) i =
  initiator_stepHandshake (initiator_of e (new_episode (HRead k))) i.
Proof. intros Hi. unfold initiator_step. rewrite (bool_decide_false (i = iINIT_CLOSE) Hi). reflexivity. Qed.

(** A frame that ends the handshake without a word. *)
Lemma initiator_abort e n k i f err :
  i <> iAPP -> i <> iINIT_CLOSE ->
  build (initiator_concretize (initiator_of e (new_episode (HRead k))) i) (x_sHS e) DirServerToClient 0 0 = Ok (marshal f) ->
  frame_wf f -> frame_size f <= MaxFrameSize -> k (Ok (marshal f)) = HDone (Err err) ->
  exists s', initiator_step x rnd (initiator_of e (new_episode (HRead k))) i = (s', oSILENT_ABORT) /\ i_rel e n LQ1 s'.
Proof.
  intros H1 H2 Hb Hwf Hsz Hk. rewrite (initiator_handshake e k i H2). unfold initiator_stepHandshake.
  rewrite (bool_decide_false (i = iAPP) H1). change (i_sHS (initiator_of e _)) with (x_sHS e).
  change initiatorDriverSendDir with DirServerToClient. rewrite Hb.
  rewrite (react_abort _ _ f k err); [|reflexivity|exact Hwf|exact Hsz|exact Hk].
  eexists. split; [reflexivity|]. eexists. split; [reflexivity|reflexivity].
Qed.

(** A frame refused with an ERROR. *)
Lemma initiator_refused e n k i f code err :
  waits_sa e k -> i <> iAPP -> i <> iINIT_CLOSE ->
  build (initiator_concretize (initiator_of e (new_episode (HRead k))) i) (x_sHS e) DirServerToClient 0 0 = Ok (marshal f) ->
  frame_wf f -> frame_size f <= MaxFrameSize -> is_u8 code ->
  openAuthFrame (marshal f) FrameServerAuth (x_sHS e) DirServerToClient ProfileStandard = inr (code, err) ->
  exists s', initiator_step x rnd (initiator_of e (new_episode (HRead k))) i = (s', oERROR code) /\ i_rel e n LQ1 s'.
Proof.
  intros [_ Hk] H1 H2 Hb Hwf Hsz Hcode Ho. rewrite (initiator_handshake e k i H2). unfold initiator_stepHandshake.
  rewrite (bool_decide_false (i = iAPP) H1). change (i_sHS (initiator_of e _)) with (x_sHS e).
  change initiatorDriverSendDir with DirServerToClient. rewrite Hb.
  destruct (react_emit poll (new_episode (HRead k)) f k (x_cHS e) DirClientToServer 0 code err eq_refl Hwf Hsz (Hk _ _ _ Ho))
    as (g & Hre & Ht & Hg); [by vm_compute|exact Hcode|].
  change (i_ep (initiator_of e (new_episode (HRead k)))) with (new_episode (HRead k)). rewrite Hre.
  unfold initiator_classify. rewrite Ht, Z.eqb_refl. change initiatorDriverRecvDir with DirClientToServer.
  change (i_cHS (i_set _ _)) with (x_cHS e). rewrite Hg, decode_error_encoded by done.
  eexists. split; [reflexivity|]. eexists. split; reflexivity.
Qed.

Lemma sh_readable : readable (hw_wire (sh_wire ct)).
Proof.
  apply (cleartext_readable FrameServerHello); [split; [discriminate|reflexivity]|].
  apply (server_hello_ok ct (Encapsulate_size _ _ _ _ _ Henc)).
Qed.

(** The valid SERVER_HELLO: no reaction, and the endpoint reads on. *)
Lemma initiator_server_hello e n k :
  waits_sh e k ->
  exists s', initiator_step x rnd (initiator_of e (new_episode (HRead k))) iSERVER_HELLO = (s', oSILENT) /\ i_rel e n LQ2 s'.
Proof.
  intros [(k2 & Hk & Hsa) _]. rewrite (initiator_handshake e k iSERVER_HELLO) by discriminate.
  unfold initiator_stepHandshake. rewrite bool_decide_false by discriminate.
  change (build (initiator_concretize _ iSERVER_HELLO) _ _ _ _) with (Ok (E := error) (hw_wire (sh_wire ct))). cbn iota.
  unfold react_handshake. change (proc (i_ep (initiator_of e (new_episode (HRead k))))) with (HRead k).
  rewrite (readable_taken _ k sh_readable), Hk.
  eexists. split; [reflexivity|]. eexists. split; [reflexivity|]. by exists k2.
Qed.

(** The valid SERVER_AUTH: the endpoint's CLIENT_AUTH, from which the driver derives the
    same master secret. *)
Lemma initiator_auth e n k :
  xok e -> 0 <= n -> waits_sa e k ->
  exists s', initiator_step x rnd (initiator_of e (new_episode (HRead k))) iSERVER_AUTH = (s', oCLIENT_AUTH) /\
    i_rel e n LQ3 s'.
Proof.
  intros He Hn [(k3 & Hk & Hk3) _]. rewrite (initiator_handshake e k iSERVER_AUTH) by discriminate.
  destruct (auth_read _ _ _ _ _ _ _ _ _ _ _ (xo_server _ _ _ _ _ _ He)) as (Hb & f & Hw & Hwf & Hsz & _).
  destruct (auth_read _ _ _ _ _ _ _ _ _ _ _ (xo_client _ _ _ _ _ _ He)) as (_ & g & _ & _ & _ & Hg & Htg & Hog).
  unfold initiator_stepHandshake. rewrite bool_decide_false by discriminate.
  change (initiator_concretize _ iSERVER_AUTH) with
    (FrameServerAuth, AuthMessage_Encode (mkAuth (edPub driver_id) (x_sCV e) (x_sFin e)), false, false).
  change (i_sHS (initiator_of e _)) with (x_sHS e). change initiatorDriverSendDir with DirServerToClient. rewrite Hb, Hw.
  unfold react_handshake. change (proc (i_ep (initiator_of e (new_episode (HRead k))))) with (HRead k).
  rewrite (wire_taken f k Hwf Hsz), <- Hw, Hk. unfold pipe_read. rewrite Hg, Hk3. cbn beta iota.
  unfold initiator_classify. rewrite Htg. change (FrameClientAuth =? FrameError) with false. rewrite Z.eqb_refl. cbn iota.
  assert (initiator_master (initiator_of e (new_episode (HDone (Ok (establish DirClientToServer DirServerToClient
    (x_master e, edPub driver_id, ProfileStandard)))))) g = Ok (x_master e)) as Hm.
  { unfold initiator_master. change (i_cHS (initiator_of e _)) with (x_cHS e). change initiatorDriverRecvDir with DirClientToServer.
    destruct (openFrameWire g (x_cHS e) DirClientToServer 0 profile) as [pt|]; [|discriminate Hog].
    cbn [mbind result_bind] in Hog. rewrite (bind_known (Ok pt) pt) by reflexivity. rewrite (bind_known _ _ _ Hog).
    change (i_ch (initiator_of e _)) with (hello_c sut_id kem). change (shValid (initiator_of e _)) with (hello_s ct).
    change (i_sHS (initiator_of e _)) with (x_sHS e). rewrite (server_auth_transcript e He).
    exact (xo_master _ _ _ _ _ _ He). }
  change (i_set _ (initiator_of e _)) with (initiator_of e (new_episode (HDone (Ok (establish DirClientToServer DirServerToClient
    (x_master e, edPub driver_id, ProfileStandard)))))). rewrite Hm.
  eexists. split; [reflexivity|]. eexists. split; [reflexivity|]. cbn [stands].
  split; try reflexivity; [split; reflexivity || discriminate ..|]. eexists _, 0. split; [reflexivity|]. split; [reflexivity|].
  split; [lia|]. apply session_new.
Qed.

Lemma initiator_first e n k i :
  xok e -> waits_sh e k ->
  exists s', initiator_step x rnd (initiator_of e (new_episode (HRead k))) i = (s', (learned_initiator LQ0 i).1) /\
    i_rel e n (learned_initiator LQ0 i).2 s'.
Proof.
  intros He Hw. pose proof Hw as (_ & Hwrong & Hbad).
  assert (forall i, i <> iAPP -> i <> iINIT_CLOSE ->
    (initiator_concretize (initiator_of e (new_episode (HRead k))) i).1.1.1 <> FrameServerHello ->
    exists s', initiator_step x rnd (initiator_of e (new_episode (HRead k))) i = (s', oSILENT_ABORT) /\ i_rel e n LQ1 s') as Hother.
  { intros j H1 H2 Ht. destruct (built_frame _ j _ (x_sHS e) DirServerToClient Htamper
      (initiator_shape e (new_episode (HRead k)) j He) H1 H2) as (f & Hb & Hwf & Hsz & Hty).
    apply (initiator_abort e n k j f ErrWrongFrameType H1 H2 Hb Hwf Hsz). apply Hwrong; [exact Hwf|congruence]. }
  destruct i; cbn [learned_initiator fst snd]; try (apply Hother; discriminate).
  - by apply initiator_server_hello.
  - destruct hello_bad_ok as [_ Hsz]. destruct (cleartext_wf FrameServerHello (ServerHello_Encode hello_bad)) as (Hwf & Heq & Hmax);
      [split; [discriminate|reflexivity]|exact Hsz|]. rewrite Heq in *.
    apply (initiator_abort e n k iSERVER_HELLO_BADSEL
      (mkFrame ProtocolVersion 0 FrameServerHello ChanControl 0 (ServerHello_Encode hello_bad)) ErrProfileNotOffered);
      [discriminate|discriminate| |exact Hwf| |exact Hbad].
    + exact (f_equal Ok Heq).
    + rewrite <- blen_marshal. exact (proj2 Hmax).
  - eexists. split; [reflexivity|]. eexists. split; [reflexivity|]. by exists k.
  - eexists. split; [reflexivity|]. eexists. split; [reflexivity|]. by exists k.
Qed.

Lemma initiator_wait e n k i :
  xok e -> 0 <= n -> waits_sa e k ->
  exists s', initiator_step x rnd (initiator_of e (new_episode (HRead k))) i = (s', (learned_initiator LQ2 i).1) /\
    i_rel e n (learned_initiator LQ2 i).2 s'.
Proof.
  intros He Hn Hw.
  assert (forall i, i <> iAPP -> i <> iINIT_CLOSE ->
    (initiator_concretize (initiator_of e (new_episode (HRead k))) i).1.1.1 <> FrameServerAuth ->
    exists s', initiator_step x rnd (initiator_of e (new_episode (HRead k))) i = (s', unexpected) /\ i_rel e n LQ1 s') as Hother.
  { intros j H1 H2 Ht. destruct (built_frame _ j _ (x_sHS e) DirServerToClient Htamper
      (initiator_shape e (new_episode (HRead k)) j He) H1 H2) as (f & Hb & Hwf & Hsz & Hty).
    apply (initiator_refused e n k j f ErrCodeUnexpectedMessage ErrWrongFrameType Hw H1 H2 Hb Hwf Hsz);
      [by vm_compute|]. apply auth_wrong_type; [exact Hwf|congruence]. }
  destruct i; cbn [learned_initiator fst snd]; try (apply Hother; discriminate).
  - by apply initiator_auth.
  - destruct (auth_corrupted (x_sHS e) DirServerToClient FrameServerAuth
      (AuthMessage_Encode (mkAuth (edPub driver_id) (x_sCV e) (x_sFin e))) Htamper)
      as (f & er & Hb & Hwf & Hsz & Ho); [split; [discriminate|reflexivity]|exact (server_auth_small e He)|].
    apply (initiator_refused e n k iSERVER_AUTH_BADAUTH f ErrCodeDecryptFailed er Hw);
      [discriminate|discriminate|exact Hb|exact Hwf|exact Hsz|apply code_range|exact Ho].
  - eexists. split; [reflexivity|]. eexists. split; [reflexivity|]. by exists k.
  - eexists. split; [reflexivity|]. eexists. split; [reflexivity|]. by exists k.
Qed.

Lemma initiator_simulates e n q s i :
  xok e -> 0 <= n < maxSeq -> i_rel e n q s ->
  exists s', initiator_step x rnd s i = (s', (learned_initiator q i).1) /\ i_rel e (n + 1) (learned_initiator q i).2 s'.
Proof.
  intros He Hn (ep & -> & Hq).
  assert (forall cl, up DirServerToClient DirClientToServer cl n ep ->
    exists s', initiator_step x rnd (initiator_of e ep) i = (s', (learned_established cl i).1) /\
      i_rel e (n + 1) (learned_established cl i).2 s') as Hest.
  { intros cl Hup. destruct (established_step _ _ x rnd Htamper cl n ep i _ Hup Hn (initiator_shape e ep i He))
      as (s' & Hs' & Hst).
    exists (initiator_of e s'). split; [|exists s'; split; [reflexivity|by destruct cl, i]].
    unfold initiator_step. change (i_ep (initiator_of e ep)) with ep.
    rewrite (up_open _ _ _ _ _ Hup), (up_est _ _ _ _ _ Hup).
    change initiatorDriverSendDir with DirServerToClient. change initiatorDriverRecvDir with DirClientToServer.
    destruct (bool_decide (i = iINIT_CLOSE)); by rewrite Hs'. }
  destruct q.
  - destruct Hq as (k & -> & Hk). by apply initiator_first.
  - eexists. split; [unfold initiator_step; cbn [stands] in Hq; change (i_ep (initiator_of e ep)) with ep; by rewrite Hq|].
    by exists ep.
  - destruct Hq as (k & -> & Hk). apply initiator_wait; [exact He|lia|exact Hk].
  - apply (Hest false Hq).
  - apply (Hest true Hq).
Qed.

Lemma initiator_outputs :
  exists s, initiator_reset x rnd (Ok kem) = Ok s /\
    forall word, Z.of_nat (length word) < maxSeq ->
      outputs (initiator_step x rnd) s word = mealy learned_initiator LQ0 word.
Proof.
  destruct (exchange_exists sut_id driver_id sutPriv driverPriv ct kem ss sut_id_ok driver_id_ok) as (e & He).
  destruct (initiator_reset_ok e He) as (s & Hs & Hrel). exists s. split; [exact Hs|]. intros word Hlen.
  apply (simulation_outputs _ _ (i_rel e)) with (n := 0); [|lia|lia|exact Hrel].
  intros n q s' i Hn. by apply initiator_simulates.
Qed.
End initiator.
