(* ===== verification/SulRuns.v ===== *)
(** * The endpoints against the draft's state table

    The state table of the draft, its equality with the learned automata, whole
    conversations of the driver of [Sul] over its line protocol, episode after episode,
    and a concrete instance. *)

From S2P Require Import Prelude Errors Registry Sha256 Crypto Tlv Frame Aead Kem KeySchedule Transcript.
From S2P Require Import Handshake ErrorFrame Conn SdkHandshake HandshakeHonest WireValidator Sul SulLearned SulRoles.
From Stdlib Require Import Strings.Byte.
From stdpp Require Import gmap.
Open Scope Z_scope.

(** ** The state table of the draft

    harness/statemodel/npamp-state-table.json: the receiver's reactions as the draft
    lists them, and the rules that fill the other cells (diff_model.py,
    [expand_reference]). *)

Inductive role : Type := Initiator | Responder.

Inductive tstate : Type := START | WAIT_SH | WAIT_SA | LISTEN | WAIT_CA | ESTABLISHED | CLOSING | CLOSED.

#[export] Instance role_dec : EqDecision role.
Proof. solve_decision. Defined.
#[export] Instance tstate_dec : EqDecision tstate.
Proof. solve_decision. Defined.

(** A row of the table; [None] is the role "both". *)
Record row : Type := mkRow { t_role : option role; t_from : tstate; t_input : symbol; t_output : output; t_to : tstate }.

Definition state_table : list row :=
  [ mkRow (Some Initiator) WAIT_SH iSERVER_HELLO oSILENT WAIT_SA;
    mkRow (Some Initiator) WAIT_SH iSERVER_HELLO_BADSEL oSILENT_ABORT CLOSED;
    mkRow (Some Initiator) WAIT_SA iSERVER_AUTH oCLIENT_AUTH ESTABLISHED;
    mkRow (Some Initiator) WAIT_SA iSERVER_AUTH_BADAUTH (oERROR ErrCodeDecryptFailed) CLOSED;
    mkRow (Some Responder) LISTEN iCLIENT_HELLO oSH_SA WAIT_CA;
    mkRow (Some Responder) WAIT_CA iCLIENT_AUTH oSILENT ESTABLISHED;
    mkRow (Some Responder) WAIT_CA iCLIENT_AUTH_BADAUTH (oERROR ErrCodeDecryptFailed) CLOSED;
    mkRow None ESTABLISHED iAPP oACCEPT ESTABLISHED;
    mkRow None ESTABLISHED iKEY_UPDATE oKEY_UPDATE_ACK ESTABLISHED;
    mkRow None ESTABLISHED iCLOSE oCLOSE_ACK CLOSED;
    mkRow None CLOSING iCLOSE_ACK oSILENT CLOSED;
    mkRow None CLOSING iAPP oACCEPT CLOSING;
    mkRow None CLOSING iKEY_UPDATE oKEY_UPDATE_ACK CLOSING;
    mkRow None CLOSING iCLOSE oCLOSE_ACK CLOSED ].

Fixpoint listed (rows : list row) (r : role) (q : tstate) (i : symbol) : option (output * tstate) :=
  match rows with
  | [] => None
  | x :: rows =>
      if match t_role x with Some r' => bool_decide (r' = r) | None => true end
         && bool_decide (t_from x = q) && bool_decide (t_input x = i)
      then Some (t_output x, t_to x) else listed rows r q i
  end.

(** [total_default.unauthenticated_inputs] *)
Definition unauth_inputs : list symbol :=
  [iCLIENT_HELLO; iSERVER_HELLO; iSERVER_HELLO_BADSEL; iSERVER_AUTH_BADAUTH; iCLIENT_AUTH_BADAUTH].
Definition conn_states : list tstate := [ESTABLISHED; CLOSING].

(** [total_default.key_established_by_state] *)
Definition key_established (q : tstate) : bool :=
  match q with WAIT_SA | WAIT_CA | ESTABLISHED | CLOSING => true | _ => false end.

Definition expand_reference (r : role) (q : tstate) (i : symbol) : output * tstate :=
  match listed state_table r q i with
  | Some cell => cell
  | None =>
      if bool_decide (q = CLOSED) then (oSILENT, CLOSED)
      else if bool_decide (i ∈ unauth_inputs) && bool_decide (q ∈ conn_states) then (oSILENT, q)
      else if bool_decide (i = iINIT_CLOSE) then
        if bool_decide (q = ESTABLISHED) then (oSILENT, CLOSING) else (oSILENT, q)
      else if bool_decide (i = iAPP) && negb (bool_decide (q ∈ conn_states)) then (oSILENT, q)
      else (if key_established q then oERROR ErrCodeUnexpectedMessage else oSILENT_ABORT, CLOSED)
  end.

(** [ROLE_INITIAL] *)
Definition role_initial (r : role) : tstate := match r with Initiator => WAIT_SH | Responder => LISTEN end.

Definition learned (r : role) : lstate -> symbol -> output * lstate :=
  match r with Initiator => learned_initiator | Responder => learned_responder end.

(** The pairing of the states the traversal of [compare] ends with. *)
Definition paired (r : role) (q : lstate) : tstate :=
  match q, r with
  | LQ0, Initiator => WAIT_SH
  | LQ0, Responder => LISTEN
  | LQ1, _ => CLOSED
  | LQ2, Initiator => WAIT_SA
  | LQ2, Responder => WAIT_CA
  | LQ3, _ => ESTABLISHED
  | LQ4, _ => CLOSING
  end.

Lemma learned_cell r q i :
  expand_reference r (paired r q) i = ((learned r q i).1, paired r (learned r q i).2).
Proof. by destruct r, q, i; vm_compute. Qed.

Lemma learned_reference r q word : mealy (learned r) q word = mealy (expand_reference r) (paired r q) word.
Proof.
  revert q. induction word as [|i word IH]; intros q; [done|]. cbn [mealy]. by rewrite learned_cell, IH.
Qed.

(** ** Conversations *)

Definition symbol_name (i : symbol) : bytes :=
  match i with
  | iCLIENT_HELLO => str "CLIENT_HELLO"
  | iSERVER_HELLO => str "SERVER_HELLO"
  | iSERVER_HELLO_BADSEL => str "SERVER_HELLO_BADSEL"
  | iSERVER_AUTH => str "SERVER_AUTH"
  | iSERVER_AUTH_BADAUTH => str "SERVER_AUTH_BADAUTH"
  | iCLIENT_AUTH => str "CLIENT_AUTH"
  | iCLIENT_AUTH_BADAUTH => str "CLIENT_AUTH_BADAUTH"
  | iKEY_UPDATE => str "KEY_UPDATE"
  | iKEY_UPDATE_ACK => str "KEY_UPDATE_ACK"
  | iCLOSE => str "CLOSE"
  | iCLOSE_ACK => str "CLOSE_ACK"
  | iAPP => str "APP"
  | iUNKNOWN => str "UNKNOWN"
  | iINIT_CLOSE => str "INIT_CLOSE"
  | iOther => str "?"
  end.

(** The lines of a sequence of episodes, and the replies a machine prescribes. *)
Definition session_lines (words : list (list symbol)) : list bytes :=
  concat ((fun w => str "RESET" :: (symbol_name <$> w)) <$> words).

Definition session_replies {Q} (machine : Q -> symbol -> output * Q) (q : Q) (words : list (list symbol)) : list bytes :=
  concat ((fun w => str "OK" :: (print_output <$> mealy machine q w)) <$> words).

(** A word that does not exhaust a sequence space. *)
Definition short (w : list symbol) : Prop := Z.of_nat (length w) < maxSeq.

Lemma symbol_line i :
  TrimSpace (symbol_name i) = symbol_name i /\ bool_decide (symbol_name i = []) = false /\
  bool_decide (symbol_name i = str "RESET") = false /\ read_symbol (symbol_name i) = i.
Proof. by destruct i; vm_compute. Qed.

Lemma reset_line : TrimSpace (str "RESET") = str "RESET".
Proof. by vm_compute. Qed.

Section serve.
Context {S : Type} (reset : nat -> result error S) (step : S -> symbol -> S * output).

Lemma serve_word n s w rest :
  exists s', serve reset step n (Some s) ((symbol_name <$> w) ++ rest)
    = (print_output <$> outputs step s w) ++ serve reset step n (Some s') rest.
Proof.
  revert s. induction w as [|i w IH]; intros s; [by exists s|].
  destruct (symbol_line i) as (Ht & Hn & Hr & Hi). destruct (step s i) as [s1 o] eqn:Es.
  destruct (IH s1) as (s' & Hs'). exists s'.
  change ((symbol_name <$> i :: w) ++ rest) with (symbol_name i :: ((symbol_name <$> w) ++ rest)).
  cbn [serve outputs]. rewrite Ht, Hn, Hr, Hi, Es. cbn [fmap list_fmap app]. by rewrite Hs'.
Qed.

Lemma serve_session {Q} (machine : Q -> symbol -> output * Q) q words :
  (forall n, exists s, reset n = Ok s /\ forall w, short w -> outputs step s w = mealy machine q w) ->
  Forall short words ->
  forall n s, serve reset step n s (session_lines words) = session_replies machine q words.
Proof.
  intros Hreset Hw. induction Hw as [|w words Hw Hws IH]; intros n s; [done|].
  destruct (Hreset n) as (s0 & Hs0 & Hout). specialize (Hout w Hw).
  destruct (serve_word (n + 1)%nat s0 w (session_lines words)) as (s' & Hs').
  change (session_lines (w :: words)) with (str "RESET" :: ((symbol_name <$> w) ++ session_lines words)).
  change (session_replies machine q (w :: words)) with
    (str "OK" :: ((print_output <$> mealy machine q w) ++ session_replies machine q words)).
  cbn [serve]. rewrite reset_line, (bool_decide_false (str "RESET" = [])), (bool_decide_true (str "RESET" = str "RESET")) by done.
  by rewrite Hs0, Hs', Hout, IH.
Qed.
End serve.

(** ** The two drivers with the randomness of their episodes *)

(** The KEM key of the initiator, and the encapsulation randomness of the responder. *)
Record draw : Type := mkDraw { d_seed : bytes; d_xk : bytes; d_x : bytes; d_rnd : bytes }.

Section drivers.
Context `{Crypto}.

Definition responder_driver_reset (draws : nat -> draw) (n : nat) : result error (draw * responderScenario) :=
  let d := draws n in
  s ← responder_reset (d_x d) (d_rnd d) (NewKEMClient (d_seed d) (d_xk d));
  Ok (d, s).

Definition responder_driver_step (s : draw * responderScenario) (i : symbol) : draw * responderScenario * output :=
  let '(s', o) := responder_step (d_x s.1) (d_rnd s.1) s.2 i in (s.1, s', o).

Definition initiator_driver_reset (draws : nat -> draw) (n : nat) : result error (draw * initiatorScenario) :=
  let d := draws n in
  s ← initiator_reset (d_x d) (d_rnd d) (NewKEMClient (d_seed d) (d_xk d));
  Ok (d, s).

Definition initiator_driver_step (s : draw * initiatorScenario) (i : symbol) : draw * initiatorScenario * output :=
  let '(s', o) := initiator_step (d_x s.1) (d_rnd s.1) s.2 i in (s.1, s', o).

(** Randomness a key exchange accepts and its peer recovers. *)
Definition fair (d : draw) : Prop :=
  mlkem_recovers (d_seed d) (d_rnd d) /\
  exists kem, NewKEMClient (d_seed d) (d_xk d) = Ok kem /\
  exists ct ss, Encapsulate (KEMShare kem) (d_x d) (d_rnd d) = Ok (ct, ss).

Lemma outputs_paired {S} (step : S -> symbol -> S * output) (stepd : draw * S -> symbol -> draw * S * output) d :
  (forall s i, stepd (d, s) i = let '(s', o) := step s i in (d, s', o)) ->
  forall w s, outputs stepd (d, s) w = outputs step s w.
Proof.
  intros Hd. induction w as [|i w IH]; intros s; [done|]. cbn [outputs]. rewrite Hd.
  destruct (step s i) as [s' o]. by rewrite IH.
Qed.
End drivers.

(** The two machines prescribe the same replies. *)
Lemma session_replies_learned r words :
  session_replies (learned r) LQ0 words = session_replies (expand_reference r) (role_initial r) words.
Proof.
  unfold session_replies. f_equal. apply list_fmap_ext. intros _ w _. rewrite learned_reference. by destruct r.
Qed.

Section learned.
Context `{CryptoLaws}.

(** C2: The responder implements the draft's state table.  Whatever episodes the line
    protocol asks for (each a RESET and a word of input symbols), the driver of the
    SDK's server end replies OK and then exactly the outputs of the state table of the
    draft, expanded by its total default; and these are the outputs of the Mealy machine
    that active learning stored for the responder.  The AEAD is assumed to detect a
    corrupted octet and the randomness of the key exchange to be usable. *)
Theorem responder_conforms (draws : nat -> draw) (words : list (list symbol))
    (Htamper : tamper_evident) (Hdraws : forall n, fair (draws n)) (Hwords : Forall short words) :
  let replies := serve (responder_driver_reset draws) responder_driver_step 0 None (session_lines words) in
  replies = session_replies (expand_reference Responder) (role_initial Responder) words /\
  replies = session_replies learned_responder LQ0 words.
Proof.
  assert (serve (responder_driver_reset draws) responder_driver_step 0 None (session_lines words)
    = session_replies learned_responder LQ0 words) as Hl.
  { apply serve_session; [|exact Hwords]. intros n. destruct (Hdraws n) as (Hrec & kem & Hkem & ct & ss & Henc).
    eexists. split; [unfold responder_driver_reset; rewrite Hkem, responder_reset_ok; reflexivity|].
    intros w Hw. rewrite (outputs_paired (responder_step (d_x (draws n)) (d_rnd (draws n)))) by done.
    by apply (responder_outputs Htamper (d_seed (draws n)) (d_xk (draws n)) _ _ ct kem ss Hkem Hrec Henc). }
  split; [|exact Hl]. rewrite Hl. apply (session_replies_learned Responder).
Qed.

(** C3: The initiator implements the draft's state table.  The same for the SDK's client
    end, which has sent its CLIENT_HELLO, and the Mealy machine stored for the
    initiator. *)
Theorem initiator_conforms (draws : nat -> draw) (words : list (list symbol))
    (Htamper : tamper_evident) (Hdraws : forall n, fair (draws n)) (Hwords : Forall short words) :
  let replies := serve (initiator_driver_reset draws) initiator_driver_step 0 None (session_lines words) in
  replies = session_replies (expand_reference Initiator) (role_initial Initiator) words /\
  replies = session_replies learned_initiator LQ0 words.
Proof.
  assert (serve (initiator_driver_reset draws) initiator_driver_step 0 None (session_lines words)
    = session_replies learned_initiator LQ0 words) as Hl.
  { apply serve_session; [|exact Hwords]. intros n. destruct (Hdraws n) as (Hrec & kem & Hkem & ct & ss & Henc).
    destruct (initiator_outputs Htamper (d_seed (draws n)) (d_xk (draws n)) _ _ ct kem ss Hkem Hrec Henc) as (s & Hs & Hout).
    exists (draws n, s). split; [unfold initiator_driver_reset; rewrite Hkem, Hs; reflexivity|].
    intros w Hw. rewrite (outputs_paired (initiator_step (d_x (draws n)) (d_rnd (draws n)))) by done. by apply Hout. }
  split; [|exact Hl]. rewrite Hl. apply (session_replies_learned Initiator).
Qed.
End learned.

(** ** A concrete conversation *)

(** The checksum of the computable instance tells apart texts that differ in one octet. *)
Definition mersenne : Z := 2 ^ 127 - 1.

Lemma be_get_app l r : be_get (l ++ r) = be_get l * 256 ^ blen r + be_get r.
Proof. unfold be_get at 1. rewrite fold_left_app. exact (be_get_fold r (be_get l)). Qed.

Lemma mersenne_divides d (k : nat) : (mersenne | d * 256 ^ Z.of_nat k) -> (mersenne | d).
Proof.
  induction k as [|k IH]; [by rewrite Z.mul_1_r|]. rewrite Nat2Z.inj_succ, Z.pow_succ_r by lia. intros Hd. apply IH.
  apply (Z.gauss mersenne 256); [|by vm_compute]. by replace (256 * (d * 256 ^ Z.of_nat k)) with (d * (256 * 256 ^ Z.of_nat k)) by lia.
Qed.

Lemma sum_octets_inj16 u v : Toy.sum_octets 16 u = Toy.sum_octets 16 v -> (mersenne | be_get u - be_get v).
Proof.
  intros Hs. assert (0 < mersenne) as Hpos by (by vm_compute).
  pose proof (Z.mod_pos_bound (be_get u) mersenne Hpos). pose proof (Z.mod_pos_bound (be_get v) mersenne Hpos).
  assert (mersenne < 256 ^ Z.of_nat 16) as Hlt by (by vm_compute).
  apply be_put_inj in Hs; [|change (2 ^ 127 - 1) with mersenne; lia..].
  change (2 ^ 127 - 1) with mersenne in Hs. apply Z.mod_divide; [lia|]. by rewrite Zminus_mod, Hs, Z.sub_diag.
Qed.

Lemma next_octet b : exists d, b2z (z2b (b2z b + 1)) = b2z b + d /\ d <> 0 /\ Z.abs d < 256.
Proof.
  exists (b2z (z2b (b2z b + 1)) - b2z b). destruct b; vm_compute; split_and!; congruence.
Qed.

Lemma toy_tamper : tamper_evident (H := Toy.crypto).
Proof.
  intros key nonce p aad b rest. change (gcm_seal key nonce p aad) with (Toy.seal key nonce p aad).
  change (gcm_open key nonce (z2b (b2z b + 1) :: rest) aad) with (Toy.open key nonce (z2b (b2z b + 1) :: rest) aad).
  set (b' := z2b (b2z b + 1)). destruct (next_octet b) as (d & Hd & Hd0 & Hdb). fold b' in Hd.
  intros Hs. unfold Toy.open. rewrite bool_decide_false; [done|]. unfold Toy.seal in *. intros Hc.
  pose proof (Toy.length_tag key nonce p aad) as Hl. destruct p as [|b0 p].
  - cbn [app] in Hs. rewrite Hs in Hl. injection Hl as Hl. cbn [length] in Hc. rewrite Hl in Hc. cbn [Nat.sub take app] in Hc.
    rewrite Hs in Hc. injection Hc as Hb. rewrite Hb in Hd. lia.
  - injection Hs as -> <-.
    assert (take (length (b' :: p ++ Toy.tag key nonce (b :: p) aad) - 16) (b' :: p ++ Toy.tag key nonce (b :: p) aad) = b' :: p) as Ht.
    { change (b' :: p ++ ?t) with ((b' :: p) ++ t). apply take_app_length'. rewrite length_app, Hl. lia. }
    rewrite Ht in Hc. injection Hc as Hc. apply app_inv_head in Hc. apply sum_octets_inj16 in Hc.
    rewrite !app_assoc, !(be_get_app (_ ++ _)), !be_get_cons in Hc. rewrite !blen_cons in Hc.
    replace (_ - _) with ((- d) * 256 ^ Z.of_nat (length p)) in Hc by (unfold blen; nia).
    apply mersenne_divides, Z.divide_opp_r, Z.divide_abs_r in Hc. apply Z.divide_pos_le in Hc; [|lia].
    assert (256 < mersenne) by (by vm_compute). lia.
Qed.

Definition sample_draws (n : nat) : draw := mkDraw sample_seed sample_x sample_x sample_rnd.

Lemma sample_fair n : fair (H := Toy.crypto) (sample_draws n).
Proof.
  destruct sample_ready as (_ & _ & Hk & Hr & He). split; [exact Hr|]. exists sample_kem. split; [exact Hk|].
  by exists sample_reply.1, sample_reply.2.
Qed.

Definition responder_words : list (list symbol) :=
  [ [iCLIENT_HELLO; iCLIENT_AUTH; iAPP; iKEY_UPDATE; iCLIENT_AUTH_BADAUTH; iINIT_CLOSE; iCLOSE_ACK; iAPP];
    [iCLIENT_HELLO; iCLIENT_AUTH_BADAUTH]; [iKEY_UPDATE] ].

Definition initiator_words : list (list symbol) :=
  [ [iSERVER_HELLO; iSERVER_AUTH; iAPP; iKEY_UPDATE; iCLOSE; iAPP]; [iSERVER_HELLO_BADSEL]; [iSERVER_HELLO; iUNKNOWN] ].

Lemma words_short : Forall short responder_words /\ Forall short initiator_words.
Proof. by split; repeat constructor. Qed.

Lemma responder_conforms_witness :
  serve (responder_driver_reset (H := Toy.crypto) sample_draws) (responder_driver_step (H := Toy.crypto)) 0 None
    (session_lines responder_words)
  = [str "OK"; str "SH_SA"; str "SILENT"; str "ACCEPT"; str "KEY_UPDATE_ACK"; str "SILENT"; str "SILENT"; str "SILENT"; str "SILENT";
     str "OK"; str "SH_SA"; str "ERROR:decrypt_failed"; str "OK"; str "SILENT_ABORT"].
Proof.
  exact (eq_trans (proj1 (responder_conforms (H := Toy.crypto) (H0 := Toy.laws) sample_draws responder_words toy_tamper sample_fair
    (proj1 words_short))) ltac:(by vm_compute)).
Defined.

Lemma initiator_conforms_witness :
  serve (initiator_driver_reset (H := Toy.crypto) sample_draws) (initiator_driver_step (H := Toy.crypto)) 0 None
    (session_lines initiator_words)
  = [str "OK"; str "SILENT"; str "CLIENT_AUTH"; str "ACCEPT"; str "KEY_UPDATE_ACK"; str "CLOSE_ACK"; str "SILENT";
     str "OK"; str "SILENT_ABORT"; str "OK"; str "SILENT"; str "ERROR:unexpected_message"].
Proof.
  exact (eq_trans (proj1 (initiator_conforms (H := Toy.crypto) (H0 := Toy.laws) sample_draws initiator_words toy_tamper sample_fair
    (proj2 words_short))) ltac:(by vm_compute)).
Defined.
