(* ===== verification/Conform.v ===== *)
(** * The conformance adapter (harness/adapters/go/main.go)

    The testee the conformance runner drives: it reads length-prefixed JSON requests and
    answers each by calling the reference implementation.  A Go map from strings is an
    association list, written with its keys in order.  A panic is [None].  Parameters: the
    texts of errors, and what converting a float64 outside the range of an integer type
    gives, which Go leaves to the machine. *)

From S2P Require Import Prelude Errors Registry Crc32c Frame Tlv Sha256 Crypto Aead KeySchedule Cbor ErrorFrame ChannelFrames Bodies Bridge.
From S2P Require Import CarriageHttp Json JsonLine CarriageJson JsonAny JsonTypes JsonRoundtrip SchemaVersion WireValidator.
From Stdlib Require Import Strings.Byte.
Open Scope Z_scope.

Record request : Type := mkRequest {
  req_Op : bytes;
  req_In : list (bytes * dyn)
}.

Record response : Type := mkResponse {
  resp_Out : list (bytes * dyn);    (* nil and empty are marshalled alike *)
  resp_Error : bytes;
  resp_Skipped : bytes
}.

Definition answer_out (m : list (bytes * dyn)) : response := mkResponse m [] [].
Definition answer_error (e : bytes) : response := mkResponse [] e [].
Definition answer_skipped (w : bytes) : response := mkResponse [] [] w.

(** ** Fields of a request *)

(** [in[k]]; the nil interface when there is none. *)
Definition in_field (m : list (bytes * dyn)) (k : bytes) : dyn :=
  match find (fun e => bool_decide (e.1 = k)) m with Some e => e.2 | None => DNil end.

Definition get_s (m : list (bytes * dyn)) (k : bytes) : bytes :=
  match in_field m k with DStr v => v | _ => [] end.

(** [hex.DecodeString]: the octets before the first error, and whether there was none. *)
Fixpoint DecodeHex (s : bytes) : bytes * bool :=
  match s with
  | [] => ([], true)
  | [_] => ([], false)
  | h1 :: h2 :: s =>
      match hex_value h1, hex_value h2 with
      | Some a, Some b => let '(rest, ok) := DecodeHex s in (z2b (a * 16 + b) :: rest, ok)
      | _, _ => ([], false)
      end
  end.

Definition get_hx (m : list (bytes * dyn)) (k : bytes) : bytes * bool := DecodeHex (get_s m k).

(** [strconv.ParseUint(v, 10, 64)]. *)
Definition ParseUint10 (s : bytes) : option Z :=
  match s with
  | [] => None
  | _ => if forallb is_digit s then (let n := digits_value s in if n <? 2 ^ 64 then Some n else None) else None
  end.

Section conversions.
(** [int(v)] and [uint64(v)] of a float64 out of range. *)
Context (wild : float64 -> Z).

Definition float_int (f : float64) : Z :=
  match truncate f with
  | Some z => if (- 2 ^ 63 <=? z) && (z <? 2 ^ 63) then z else i64 (wild f)
  | None => i64 (wild f)
  end.

Definition float_uint (f : float64) : Z :=
  match truncate f with
  | Some z => if (0 <=? z) && (z <? 2 ^ 64) then z else u64 (wild f)
  | None => u64 (wild f)
  end.

Definition get_i (m : list (bytes * dyn)) (k : bytes) : Z :=
  match in_field m k with DNum v => float_int v | _ => 0 end.

Definition get_u64 (m : list (bytes * dyn)) (k : bytes) : Z :=
  match in_field m k with
  | DStr v => match ParseUint10 v with Some n => n | None => 0 end
  | DNum v => float_uint v
  | _ => 0
  end.
End conversions.

Definition fixedKey (b : bytes) : option bytes := if blen b =? 32 then Some b else None.

(** The largest slice [make] allocates on a 64-bit machine. *)
Definition maxAlloc : Z := 2 ^ 48.

Section handle.
Context `{Crypto}.
(** [err.Error()] of the reference implementation's errors. *)
Context (message : error -> bytes) (wild : float64 -> Z).

Let i := get_i wild.
Let u64_ := get_u64 wild.

Definition bad_hex : response := answer_error (str "bad hex").
Definition hex_str (b : bytes) : dyn := DStr (hex_encode b).

(** ** Framing *)

Definition header_encode (m : list (bytes * dyn)) : option response :=
  let pl := i m (str "payloadLength") in
  if (pl <? 0) || (maxAlloc <? pl) then None    (* make panics *)
  else
    let f := mkFrame (u8 (i m (str "ver"))) (Z.land (u8 (i m (str "flags"))) 0x0F) (u16 (i m (str "frameType")))
               (u16 (i m (str "channel"))) (u64 (i m (str "seq"))) (replicate (Z.to_nat pl) x00) in
    let '(_, frame) := MarshalBinary f in
    Some (answer_out [(str "frame", hex_str (take 36 frame))]).

Definition header_decode (m : list (bytes * dyn)) : response :=
  let '(b, ok) := get_hx m (str "frame") in
  if negb ok then bad_hex
  else
    match UnmarshalBinary b with
    | Err e => answer_error (message e)
    | Ok f =>
        answer_out [ (str "channel", DInt (Channel f)); (str "crc32c", hex_str (slice 21 25 b)); (str "flags", DInt (Flags f));
                     (str "frameType", DInt (Type_ f)); (str "magic", DStr (str "NPAM")); (str "payloadLength", DInt (blen (Payload f)));
                     (str "reservedZero", DBool true); (str "seq", DInt (i64 (Seq f))); (str "ver", DInt (Version f)) ]
    end.

(** The prefix the code builds with the payload length is not used after it. *)
Definition crc32c_op (m : list (bytes * dyn)) : response :=
  let '(b, ok) := get_hx m (str "octets") in
  if negb ok then bad_hex
  else if negb (blen b =? 21) then answer_error (str "crc32c expects the 21-octet header prefix")
  else
    let f := mkFrame (Z.shiftr (at_ b 4) 4) (Z.land (at_ b 4) 0x0F) (be_get (slice 5 7 b)) (be_get (slice 7 9 b)) (be_get (slice 9 17 b)) [] in
    let '(_, frame) := MarshalBinary f in
    if negb (bool_decide (take 21 frame = b)) then answer_error (str "non-canonical header prefix")
    else answer_out [(str "crc32c", hex_str (slice 21 25 frame))].

Definition tlv_decode (m : list (bytes * dyn)) : response :=
  let '(b, ok) := get_hx m (str "tlv") in
  if negb ok then bad_hex
  else if (2 <=? blen b) && ForwardIncompatible (be_get (slice 0 2 b))
  then answer_error (str "unknown forward-incompatible TLV (high bit set)")
  else
    match DecodeTLVs b with
    | Err e => answer_error (message e)
    | Ok [t] => answer_out [(str "length", DInt (blen (TLVValue t))); (str "type", DInt (TLVType t)); (str "value", hex_str (TLVValue t))]
    | Ok _ => answer_error (str "expected exactly one TLV")
    end.

Definition tlv_encode (m : list (bytes * dyn)) : response :=
  let '(valB, ok) := get_hx m (str "value") in
  if negb ok then answer_error (str "bad value hex")
  else answer_out [(str "tlv", hex_str (TLV_Encode (mkTLV (u16 (i m (str "type"))) valB) []))].

(** ** Record protection *)

Definition suite_skipped (m : list (bytes * dyn)) : response :=
  answer_skipped (str "suite not implemented: " ++ get_s m (str "suite")).

Definition is_aes (m : list (bytes * dyn)) : bool := bool_decide (get_s m (str "suite") = str "AES-256-GCM").

Definition key_size : response := answer_error (str "key must be 32 octets for AES-256-GCM").

(** Octets before a hex error are used, as the code drops the error. *)
Definition aead_seal (m : list (bytes * dyn)) : response :=
  if negb (is_aes m) then suite_skipped m
  else
    let nonce := (get_hx m (str "nonce")).1 in
    match fixedKey (get_hx m (str "key")).1 with
    | None => key_size
    | Some key =>
        if negb (blen nonce =? 12) then answer_error (str "nonce must be 12 octets")
        else match SealAES256GCM key nonce 0 (get_hx m (str "aad")).1 (get_hx m (str "pt")).1 with
             | Err e => answer_error (message e)
             | Ok sealed => answer_out [(str "sealed", hex_str sealed)]
             end
    end.

Definition aead_open (m : list (bytes * dyn)) : response :=
  if negb (is_aes m) then suite_skipped m
  else
    let nonce := (get_hx m (str "nonce")).1 in
    match fixedKey (get_hx m (str "key")).1 with
    | None => key_size
    | Some key =>
        if negb (blen nonce =? 12) then answer_error (str "nonce must be 12 octets")
        else match OpenAES256GCM key nonce 0 (get_hx m (str "aad")).1 (get_hx m (str "sealed")).1 with
             | Err _ => answer_error (str "authentication failed")
             | Ok pt => answer_out [(str "pt", hex_str pt)]
             end
    end.

(** The frame a request describes. *)
Definition request_frame (m : list (bytes * dyn)) : Frame :=
  mkFrame (u8 (i m (str "ver"))) (Z.land (u8 (i m (str "flags"))) 0x0F) (u16 (i m (str "frameType"))) (u16 (i m (str "channel")))
    (u64_ m (str "seq")) [].

Definition frame_seal (m : list (bytes * dyn)) : response :=
  if negb (is_aes m) then suite_skipped m
  else
    let iv := (get_hx m (str "iv")).1 in
    let pt := (get_hx m (str "pt")).1 in
    match fixedKey (get_hx m (str "key")).1 with
    | None => key_size
    | Some key =>
        if negb (blen iv =? 12) then answer_error (str "iv must be 12 octets")
        else
          let seq := u64_ m (str "seq") in
          let prefix := HeaderPrefix (request_frame m) (u32 (blen pt)) in
          match SealAES256GCM key iv seq prefix pt with
          | Err e => answer_error (message e)
          | Ok sealed => answer_out [(str "sealed", hex_str sealed)]
          end
    end.

Definition frame_open (m : list (bytes * dyn)) : response :=
  if negb (is_aes m) then suite_skipped m
  else
    let iv := (get_hx m (str "iv")).1 in
    let sealed := (get_hx m (str "sealed")).1 in
    match fixedKey (get_hx m (str "key")).1 with
    | None => key_size
    | Some key =>
        if negb (blen iv =? 12) then answer_error (str "iv must be 12 octets")
        else
          let seq := u64_ m (str "seq") in
          let ptLen := blen sealed - 16 in
          if ptLen <? 0 then answer_error (str "sealed shorter than the 16-octet tag")
          else
            let prefix := HeaderPrefix (request_frame m) (u32 ptLen) in
            match OpenAES256GCM key iv seq prefix sealed with
            | Err _ => answer_error (str "authentication failed")
            | Ok pt => answer_out [(str "pt", hex_str pt)]
            end
    end.

Definition nonce_derive (m : list (bytes * dyn)) : response :=
  let iv := (get_hx m (str "iv")).1 in
  if negb (blen iv =? 12) then answer_error (str "iv must be 12 octets")
  else answer_out [(str "nonce", hex_str (DeriveNonce iv (u64_ m (str "seq"))))].

(** ** Key schedule *)

Definition hash_skipped (m : list (bytes * dyn)) : response :=
  answer_skipped (str "hash not implemented: " ++ get_s m (str "hash")).

(** A negative length is a panic of [make] in crypto/hkdf. *)
Definition hkdf_op (m : list (bytes * dyn)) : option response :=
  let prk := (get_hx m (str "prk")).1 in
  let info := (get_hx m (str "info")).1 in
  let length := i m (str "length") in
  if negb (bool_decide (get_s m (str "hash") = str "sha256")) then Some (hash_skipped m)
  else if length <? 0 then None
  else match hkdf_expand SHA256 prk info (Z.to_nat length) with
       | None => Some (answer_error (message ErrCrypto))
       | Some okm => Some (answer_out [(str "okm", hex_str okm)])
       end.

Definition hkdf_label_op (m : list (bytes * dyn)) : option response :=
  let secret := (get_hx m (str "secret")).1 in
  let ctx := (get_hx m (str "context")).1 in
  let length := i m (str "length") in
  if negb (bool_decide (get_s m (str "hash") = str "sha256")) then Some (hash_skipped m)
  else if length <? 0 then None
  else match HkdfExpandLabel secret (get_s m (str "label")) ctx length SHA256 with
       | Err e => Some (answer_error (message e))
       | Ok out => Some (answer_out [(str "out", hex_str out)])
       end.

Definition profile_named (name : bytes) : option Z :=
  if bool_decide (name = str "Standard") then Some ProfileStandard
  else if bool_decide (name = str "High") then Some ProfileHigh
  else if bool_decide (name = str "Sovereign") then Some ProfileSovereign
  else None.

Definition unknown_profile (m : list (bytes * dyn)) : response := answer_skipped (str "unknown profile: " ++ get_s m (str "profile")).

Definition profile_check (m : list (bytes * dyn)) : response :=
  match profile_named (get_s m (str "profile")) with
  | None => unknown_profile m
  | Some p =>
      let name := get_s m (str "kem") in
      let kem := if bool_decide (name = str "X25519MLKEM768") then Some KEMX25519MLKEM768
                 else if bool_decide (name = str "X25519MLKEM1024") then Some KEMSecP384r1MLKEM1024
                 else None in
      match kem with
      | None => answer_skipped (str "unknown kem: " ++ name)
      | Some kem =>
          if kem <? MinKEM p then answer_error (Profile_String p ++ str " MUST NOT accept a KEM below its minimum")
          else answer_out [(str "accepted", DBool true)]
      end
  end.

Definition derive_traffic (m : list (bytes * dyn)) : response :=
  let master := (get_hx m (str "master")).1 in
  match profile_named (get_s m (str "profile")) with
  | None => unknown_profile m
  | Some p =>
      let dir := if i m (str "dir") =? 1 then DirServerToClient else DirClientToServer in
      let derived :=
        ts ← DeriveTrafficSecret master dir (u64_ m (str "epoch")) (u16 (i m (str "suite"))) (u16 (i m (str "channel"))) p;
        DeriveKeyIV ts p in
      match derived with
      | Err e => answer_error (message e)
      | Ok (key, iv) => answer_out [(str "iv", hex_str iv); (str "key", hex_str key)]
      end
  end.

(** ** Channel bodies *)

Definition decodeEnvelope (m : list (bytes * dyn)) (decode : Z -> bytes -> result error (Z * bytes)) : response :=
  let '(body, ok) := get_hx m (str "body") in
  if negb ok then bad_hex
  else match decode (u16 (i m (str "frameType"))) body with
       | Err e => answer_error (message e)
       | Ok (fk, corr) => answer_out [(str "corr", hex_str corr); (str "frame_kind", DInt (i64 fk))]
       end.

Definition memory_decode (m : list (bytes * dyn)) : response := decodeEnvelope m DecodeMemoryEnvelope.

Definition stream_decode (m : list (bytes * dyn)) : response :=
  let '(body, ok) := get_hx m (str "body") in
  if negb ok then bad_hex
  else match DecodeStreamEnvelope (u16 (i m (str "frameType"))) body with
       | Err e => answer_error (message e)
       | Ok (fk, ssid) => answer_out [(str "frame_kind", DInt (i64 fk)); (str "sub_stream_id", DInt (i64 ssid))]
       end.

Definition bridge_decode (m : list (bytes * dyn)) : response :=
  let '(payload, ok) := get_hx m (str "payload") in
  if negb ok then bad_hex
  else
    match DecodeBridgeFrame (u16 (i m (str "frameType"))) payload with
    | Err e => answer_error (message e)
    | Ok f =>
        let e := bf_Envelope f in
        answer_out [ (str "content_type", DInt (be_ContentType e)); (str "corr", hex_str (be_CorrelationID e)); (str "final", DBool (Final e));
                     (str "flags", DInt (be_Flags e)); (str "foreign", hex_str (bf_Foreign f)); (str "message_kind", DInt (be_Kind e));
                     (str "method", DStr (be_Method e)); (str "protocol_id", DInt (be_Protocol e));
                     (str "safety", match bf_Safety f with
                                    | Some s => DObj [(str "effect", DInt (sl_Effect s)); (str "scope", DStr (sl_Scope s))]
                                    | None => DNil
                                    end) ]
    end.

Definition bridge_encode (m : list (bytes * dyn)) : option response :=
  match in_field m (str "fields") with
  | DObj fields =>
      let '(corr, cok) := DecodeHex (get_s fields (str "corr")) in
      if negb cok then Some (answer_error (str "bad corr hex"))
      else
        let '(foreign, fok) := DecodeHex (get_s fields (str "foreign")) in
        if negb fok then Some (answer_error (str "bad foreign hex"))
        else
          let env := mkEnvelope (u16 (i fields (str "protocol_id"))) (u8 (i fields (str "message_kind"))) (u8 (i fields (str "content_type")))
                       (u8 (i fields (str "flags"))) corr (get_s fields (str "method")) in
          let safety := match in_field fields (str "safety") with
                        | DObj sf => Some (mkLabel (u8 (i sf (str "effect"))) (get_s sf (str "scope")))
                        | _ => None
                        end in
          payload ← EncodeBridgePayload env safety foreign;
          Some (answer_out [(str "payload", hex_str payload)])
  | _ => Some (answer_error (str "missing fields"))
  end.

Definition bridge_correlate (m : list (bytes * dyn)) : response :=
  let '(reqPayload, rqe) := get_hx m (str "requestPayload") in
  if negb rqe then answer_error (str "bad request hex")
  else
    let '(repPayload, rpe) := get_hx m (str "replyPayload") in
    if negb rpe then answer_error (str "bad reply hex")
    else
      match DecodeBridgeEnvelope (u16 (i m (str "requestFrameType"))) reqPayload with
      | Err e => answer_error (message e)
      | Ok reqEnv =>
          match DecodeBridgeEnvelope (u16 (i m (str "replyFrameType"))) repPayload with
          | Err e => answer_error (message e)
          | Ok repEnv => answer_out [(str "match", DBool (CorrelateBridgeReply reqEnv repEnv))]
          end
      end.

(** ** Dispatch *)

Definition operations : list (bytes * (list (bytes * dyn) -> option response)) :=
  [ (str "header.encode", header_encode);
    (str "header.decode", fun m => Some (header_decode m));
    (str "crc32c", fun m => Some (crc32c_op m));
    (str "tlv.decode", fun m => Some (tlv_decode m));
    (str "aead.seal", fun m => Some (aead_seal m));
    (str "aead.open", fun m => Some (aead_open m));
    (str "hkdf.expand", hkdf_op);
    (str "profile.check", fun m => Some (profile_check m));
    (str "memory.body.decode", fun m => Some (memory_decode m));
    (str "stream.body.decode", fun m => Some (stream_decode m));
    (str "capability.body.decode", fun m => Some (decodeEnvelope m DecodeCapabilityEnvelope));
    (str "immune.body.decode", fun m => Some (decodeEnvelope m DecodeImmuneEnvelope));
    (str "settlement.body.decode", fun m => Some (decodeEnvelope m DecodeSettlementEnvelope));
    (str "telemetry.body.decode", fun m => Some (decodeEnvelope m DecodeTelemetryEnvelope));
    (str "commerce.body.decode", fun m => Some (decodeEnvelope m DecodeCommerceEnvelope));
    (str "interaction.body.decode", fun m => Some (decodeEnvelope m DecodeInteractionEnvelope));
    (str "workflow.body.decode", fun m => Some (decodeEnvelope m DecodeWorkflowEnvelope));
    (str "knowledge.body.decode", fun m => Some (decodeEnvelope m DecodeKnowledgeEnvelope));
    (str "bridge.envelope.decode", fun m => Some (bridge_decode m));
    (str "bridge.envelope.encode", bridge_encode);
    (str "bridge.correlate", fun m => Some (bridge_correlate m));
    (str "frame.seal", fun m => Some (frame_seal m));
    (str "frame.open", fun m => Some (frame_open m));
    (str "nonce.derive", fun m => Some (nonce_derive m));
    (str "tlv.encode", fun m => Some (tlv_encode m));
    (str "hkdf.expand_label", hkdf_label_op);
    (str "keys.derive_traffic", fun m => Some (derive_traffic m)) ].

Definition handle (req : request) : option response :=
  match find (fun e => bool_decide (e.1 = req_Op req)) operations with
  | Some e => e.2 (req_In req)
  | None => Some (answer_skipped (str "op not implemented: " ++ req_Op req))
  end.
End handle.

(** ** The request loop *)

Definition request_type : goty := TStruct [(str "op", false, TString); (str "in", false, TAnyMap)].
Definition response_type : goty := TStruct [(str "out", true, TAnyMap); (str "error", true, TString); (str "skipped", true, TString)].

Definition request_val (r : request) : goval := GStruct [GStr (req_Op r); GAnyMap (Some (req_In r))].
Definition request_of (v : goval) : request :=
  match v with
  | GStruct [GStr op; GAnyMap (Some m)] => mkRequest op m
  | GStruct [GStr op; _] => mkRequest op []
  | _ => mkRequest [] []
  end.

Definition response_val (r : response) : goval := GStruct [GAnyMap (Some (resp_Out r)); GStr (resp_Error r); GStr (resp_Skipped r)].
Definition response_of (v : goval) : response :=
  match v with
  | GStruct [GAnyMap m; GStr e; GStr w] => mkResponse (default [] m) e w
  | _ => mkResponse [] [] []
  end.

(** [binary.LittleEndian]. *)
Definition le_put (n : nat) (z : Z) : bytes := reverse (be_put n z).
Definition le_get (b : bytes) : Z := be_get (reverse b).

Section adapter.
Context `{Crypto}.
Context (message : error -> bytes) (wild : float64 -> Z).
(** The text of a [json.Unmarshal] error on these octets. *)
Context (json_error : bytes -> bytes).

(** One turn of the loop: a request in, a framed response out.  A response that does not
    marshal leaves no octets, as the code drops the error. *)
Definition answer (buf : bytes) : option bytes :=
  resp ← match Unmarshal request_type buf with
         | None => Some (answer_error (str "bad request json: " ++ json_error buf))
         | Some v => handle message wild (request_of v)
         end;
  let ob := default [] (Marshal response_type (response_val resp)) in
  Some (le_put 4 (u32 (blen ob)) ++ ob).

Inductive adapter_state : Type :=
| Waiting (pending : bytes)    (* octets read of an unfinished request *)
| Exited.

(** The loop over what has arrived: all the complete requests, then the wait for more.
    Each takes at least four octets, so as much fuel as there are octets is enough. *)
Fixpoint adapter_loop (fuel : nat) (input : bytes) : adapter_state * bytes :=
  match fuel with
  | O => (Waiting input, [])
  | S fuel =>
      if blen input <? 4 then (Waiting input, [])
      else
        let n := Z.to_nat (le_get (take 4 input)) in
        if (length input <? 4 + n)%nat then (Waiting input, [])
        else
          match answer (slice 4 (4 + n) input) with
          | None => (Exited, [])
          | Some out => let '(st, more) := adapter_loop fuel (drop (4 + n) input) in (st, out ++ more)
          end
  end.

(** Octets written to the adapter's standard input; [None] when it has exited. *)
Definition adapter_feed (st : adapter_state) (b : bytes) : option (adapter_state * bytes) :=
  match st with
  | Exited => None
  | Waiting pending => Some (adapter_loop (S (length (pending ++ b))) (pending ++ b))
  end.
End adapter.
