(* ===== verification/Runner.v ===== *)
(** * The conformance runner (harness/runner/main.go)

    The runner spawns a testee, sends it the cases of the corpus one by one over a pair of
    pipes, and grades what comes back.  A testee is an instance of the class [Testee]; a
    timer that fires before an answer is an argument.  What the runner prints while it runs
    is left out, the report it writes is not. *)

From S2P Require Import Prelude Errors Cbor CarriageHttp Json JsonLine CarriageJson JsonAny JsonTypes JsonRoundtrip Conform.
From Stdlib Require Import Strings.Byte SpecFloat.
Open Scope Z_scope.

(** ** The corpus *)

Record Test : Type := mkTest {
  tc_TcId : Z;
  tc_Requirement : bytes;
  tc_Comment : bytes;
  tc_In : list (bytes * dyn);
  tc_Expected : list (bytes * dyn);
  tc_Result : bytes;
  tc_Flags : list bytes
}.

Record Group : Type := mkGroup {
  g_Op : bytes;
  g_Profile : bytes;
  g_Tests : list Test
}.

Record Corpus : Type := mkCorpus {
  cp_Algorithm : bytes;
  cp_SchemaVersion : bytes;
  cp_SpecRevision : bytes;
  cp_TestGroups : list Group
}.

Definition Test_type : goty :=
  TStruct [ (str "tcId", false, TInt); (str "requirement", false, TString); (str "comment", false, TString); (str "in", false, TAnyMap);
            (str "expected", false, TAnyMap); (str "result", false, TString); (str "flags", false, TSlice TString) ].
Definition Group_type : goty :=
  TStruct [(str "op", false, TString); (str "profile", false, TString); (str "tests", false, TSlice Test_type)].
Definition Corpus_type : goty :=
  TStruct [ (str "algorithm", false, TString); (str "schemaVersion", false, TString); (str "specRevision", false, TString);
            (str "testGroups", false, TSlice Group_type) ].

Definition str_of (v : goval) : bytes := match v with GStr s => s | _ => [] end.
Definition items_of (v : goval) : list goval := match v with GSlice (Some l) _ => l | _ => [] end.
Definition members_of (v : goval) : list (bytes * dyn) := match v with GAnyMap (Some m) => m | _ => [] end.

Definition Test_of (v : goval) : Test :=
  match v with
  | GStruct [GInt id; GStr r; GStr c; m; e; GStr res; fl] => mkTest id r c (members_of m) (members_of e) res (map str_of (items_of fl))
  | _ => mkTest 0 [] [] [] [] [] []
  end.
Definition Group_of (v : goval) : Group :=
  match v with
  | GStruct [GStr op; GStr p; ts] => mkGroup op p (map Test_of (items_of ts))
  | _ => mkGroup [] [] []
  end.
Definition Corpus_of (v : goval) : Corpus :=
  match v with
  | GStruct [GStr a; GStr s; GStr r; gs] => mkCorpus a s r (map Group_of (items_of gs))
  | _ => mkCorpus [] [] [] []
  end.

(** ** The command line of the testee *)

Record split_state : Type := mkSplit {
  sp_out : list bytes;
  sp_cur : bytes;
  sp_quote : Z;        (* 0 outside quotes *)
  sp_started : bool
}.

Definition split_rune (s : split_state) (r : Z) : split_state :=
  let '(mkSplit out cur quote started) := s in
  if negb (quote =? 0) then
    if r =? quote then mkSplit out cur 0 started else mkSplit out (cur ++ EncodeRune r) quote started
  else if (r =? 34) || (r =? 39) then mkSplit out cur r true
  else if (r =? 32) || (r =? 9) then
    if started then mkSplit (out ++ [cur]) [] quote false else s
  else mkSplit out (cur ++ EncodeRune r) quote true.

Definition splitCommand (s : bytes) : list bytes :=
  let e := fold_left split_rune (runes (length s) s) (mkSplit [] [] 0 false) in
  if sp_started e then sp_out e ++ [sp_cur e] else sp_out e.

Example split_examples :
  map splitCommand [json "'/opt/my adapter' --break"; str "a  b	c"; str "a'b c'd ''"; str " "]
  = [[str "/opt/my adapter"; str "--break"]; [str "a"; str "b"; str "c"]; [str "ab cd"; []]; []].
Proof. by vm_compute. Qed.

(** ** One call *)

(** A process behind two pipes: octets written to it make it write octets; [None] when the
    write fails. *)
Class Testee (T : Type) : Type := {
  feed : T -> bytes -> option (T * bytes);
  gone : T -> bool
}.

Inductive call_error : Type :=
| marshalRequest
| writeRequest
| readLength
| readBody
| decodeResponse (buf : bytes)
| noResponse.           (* the timer fired *)

Section calls.
Context {T : Type} `{Testee T}.

(** The process and what it wrote that has not been read. *)
Definition pipe : Type := T * bytes.

(** Reading more than the process has written ends at its exit, or by the timer of [call]. *)
Definition callRaw (p : pipe) (req : request) : result call_error (response * pipe) :=
  b ← match Marshal request_type (request_val req) with Some b => Ok b | None => Err marshalRequest end;
  '(t, o1) ← match feed p.1 (le_put 4 (u32 (blen b))) with Some x => Ok x | None => Err writeRequest end;
  '(t, o2) ← match feed t b with Some x => Ok x | None => Err writeRequest end;
  let out := p.2 ++ o1 ++ o2 in
  check (blen out <? 4) (if gone t then readLength else noResponse);;
  let n := le_get (take 4 out) in
  check (blen out <? 4 + n) (if gone t then readBody else noResponse);;
  let buf := slice 4 (4 + Z.to_nat n) out in
  match Unmarshal response_type buf with
  | Some v => Ok (response_of v, (t, drop (4 + Z.to_nat n) out))
  | None => Err (decodeResponse buf)
  end.

Definition call (late : bool) (p : pipe) (req : request) : result call_error (response * pipe) :=
  if late then Err noResponse else callRaw p req.
End calls.

(** ** Grading *)

Inductive verdict : Type := Pass | Fail | Unimplemented | NonStrict.

#[global] Instance verdict_eq_dec : EqDecision verdict.
Proof. solve_decision. Defined.

Section grading.
(** [unicode.SimpleFold], and the texts of call errors. *)
Context (SimpleFold : Z -> Z) (call_text : call_error -> bytes).

(** The orbit of a rune under [SimpleFold], in increasing order up to [tr]; orbits have at
    most four runes. *)
Fixpoint fold_to (fuel : nat) (sr tr r : Z) : Z :=
  match fuel with
  | O => r
  | S fuel => if negb (r =? sr) && (r <? tr) then fold_to fuel sr tr (SimpleFold r) else r
  end.

Definition rune_equal_fold (a b : Z) : bool :=
  let sr := Z.min a b in
  let tr := Z.max a b in
  if tr =? sr then true
  else if tr <? 128 then (65 <=? sr) && (sr <=? 90) && (tr =? sr + 32)
  else fold_to 4 sr tr (SimpleFold sr) =? tr.

Fixpoint runes_equal_fold (a b : list Z) : bool :=
  match a, b with
  | [], [] => true
  | x :: a, y :: b => rune_equal_fold x y && runes_equal_fold a b
  | _, _ => false
  end.

(** [strings.EqualFold]; its loop over ASCII octets gives what the loop over runes gives. *)
Definition EqualFold (s t : bytes) : bool := runes_equal_fold (runes (length s) s) (runes (length t) t).

(** [%v] of a float64: the fewest digits, an exponent of at least two digits below 1e-4 and from 1e6. *)
Definition exponent_text (e : Z) : bytes :=
  (if e <? 0 then str "e-" else str "e+") ++ (if Z.abs e <? 10 then str "0" else []) ++ FormatInt (Z.abs e).

Definition Sprint_float (f : float64) : bytes :=
  match f with
  | S754_zero neg => if neg then str "-0" else str "0"
  | S754_finite neg p e =>
      let '(n, d) := if 0 <=? e then (Zpos p * 2 ^ e, 1) else (Zpos p, 2 ^ (- e)) in
      let '(m, k) := shortest 17 f n d (decimal_exponent n d) 1 in
      let '(m, k) := drop_zeros 20 m k in
      let ds := FormatInt m in
      let p := blen ds + k in
      (if neg then str "-" else []) ++
      (if (p - 1 <? -4) || (6 <=? p - 1)
       then take 1 ds ++ (match drop 1 ds with [] => [] | r => str "." ++ r end) ++ exponent_text (p - 1)
       else fixed_text ds p)
  | S754_infinity neg => if neg then str "-Inf" else str "+Inf"
  | S754_nan => str "NaN"
  end.

(** [fmt.Sprint]: no quotes around strings, maps by sorted keys. *)
Fixpoint Sprint (v : dyn) : bytes :=
  match v with
  | DNil => str "<nil>"
  | DBool b => bool_text b
  | DNum f => Sprint_float f
  | DInt z => FormatInt z
  | DStr s => s
  | DArr l => str "[" ++ join (str " ") (map Sprint l) ++ str "]"
  | DObj m => str "map[" ++ join (str " ") (map (fun e => e.1 ++ str ":" ++ e.2) (sort_entries fst (map (fun e => (e.1, Sprint e.2)) m))) ++ str "]"
  | DText m => str "map[" ++ join (str " ") (map (fun e => e.1 ++ str ":" ++ e.2) (sort_entries fst m)) ++ str "]"
  end.

(** [==] on float64: zeros are equal, NaN is not. *)
Definition valEqual (a b : dyn) : bool :=
  match a with
  | DStr av => match b with DStr bs => EqualFold av bs | _ => false end
  | DNum av => match b with DNum bf => SFeqb av bf | _ => false end
  | DBool av => match b with DBool bb => Bool.eqb av bb | _ => false end
  | _ => bool_decide (Sprint a = Sprint b)
  end.

Fixpoint match_keys (out : list (bytes * dyn)) (exp : list (bytes * dyn)) : bool * bytes :=
  match exp with
  | [] => (true, [])
  | (k, v) :: exp =>
      match lookup_member out k with
      | None => (false, k ++ str ": expected " ++ Sprint v ++ str ", missing in output")
      | Some ov =>
          if negb (valEqual v ov) then (false, k ++ str ": expected " ++ Sprint v ++ str ", got " ++ Sprint ov)
          else match_keys out exp
      end
  end.

Definition matchExpected (exp out : list (bytes * dyn)) : bool * bytes := match_keys out (sort_entries fst exp).

Definition gradeCase (tc : Test) (resp : result call_error response) : verdict * bytes :=
  match resp with
  | Err e => (Fail, str "adapter-error: " ++ call_text e)
  | Ok resp =>
      if negb (bool_decide (resp_Skipped resp = [])) then (Unimplemented, resp_Skipped resp)
      else if bool_decide (tc_Result tc = str "invalid") then
        if negb (bool_decide (resp_Error resp = [])) then (Pass, [])
        else (Fail, str "MUST reject, but adapter accepted (out=" ++ Sprint (DObj (resp_Out resp)) ++ str ")")
      else if bool_decide (tc_Result tc = str "acceptable") then (Pass, [])
      else if negb (bool_decide (resp_Error resp = [])) then (Fail, str "expected success, adapter errored: " ++ resp_Error resp)
      else
        let '(ok, detail) := matchExpected (tc_Expected tc) (resp_Out resp) in
        if ok then (Pass, []) else (Fail, detail)
  end.

(** ** The run *)

Record caseResult : Type := mkCase {
  cr_op : bytes;
  cr_requirement : bytes;
  cr_verdict : verdict;
  cr_detail : bytes;
  cr_tcId : Z
}.

Section run.
Context {T : Type} `{Testee T}.
(** Whether the timer of the n-th call fires before its answer. *)
Context (late : nat -> bool).

(** The cases of a group; the pipe after them, [None] when a call failed. *)
Fixpoint run_tests (op : bytes) (n : nat) (p : pipe) (tests : list Test) : list caseResult * option (nat * pipe) :=
  match tests with
  | [] => ([], Some (n, p))
  | tc :: tests =>
      let r := call (late n) p (mkRequest op (tc_In tc)) in
      let '(v, detail) := gradeCase tc (x ← r; Ok x.1) in
      let c := mkCase op (tc_Requirement tc) v detail (tc_TcId tc) in
      match r with
      | Err _ => ([c], None)
      | Ok (_, p) => let '(cs, e) := run_tests op (S n) p tests in (c :: cs, e)
      end
  end.

Fixpoint run_groups (n : nat) (p : pipe) (groups : list Group) : list caseResult :=
  match groups with
  | [] => []
  | g :: groups =>
      match run_tests (g_Op g) n p (g_Tests g) with
      | (cs, Some (n, p)) => cs ++ run_groups n p groups
      | (cs, None) => cs
      end
  end.
End run.

Definition tally (rs : list caseResult) (v : verdict) : Z := blen (filter (fun r => cr_verdict r = v) rs).

Definition escape_octet (c : byte) : bytes :=
  if oct c x26 then str "&amp;" else if oct c x3c then str "&lt;" else if oct c x3e then str "&gt;" else if oct c x22 then str "&quot;" else [c].

Definition escapeXML (s : bytes) : bytes := flat_map escape_octet s.

(** Text with its apostrophes for double quotes and [|] for the end of a line. *)
Definition xml (s : bytes) : bytes := map (fun c => if oct c x27 then x22 else if oct c x7c then x0a else c) s.

Definition case_text (r : caseResult) : bytes :=
  xml (str "  <testcase classname='") ++ cr_op r ++ xml (str "' name='") ++ cr_requirement r ++ str "#" ++ FormatInt (cr_tcId r) ++ xml (str "'>") ++
  match cr_verdict r with
  | Fail => xml (str "|    <failure>") ++ escapeXML (cr_detail r) ++ xml (str "</failure>|  ")
  | Unimplemented => xml (str "|    <skipped/>|  ")
  | _ => []
  end ++ xml (str "</testcase>|").

Definition writeJUnit (rs : list caseResult) : bytes :=
  xml (str "<?xml version='1.0' encoding='UTF-8'?>|") ++
  xml (str "<testsuite name='npamp_00-conformance' tests='") ++ FormatInt (blen rs) ++ xml (str "' failures='") ++ FormatInt (tally rs Fail) ++ xml (str "'>|") ++
  flat_map case_text rs ++ xml (str "</testsuite>|").

Section command.
Context {T : Type} `{Testee T}.
(** The embedded corpus; [exec.Command] of the fields of the command line. *)
Context (corpusJSON : bytes) (start : list bytes -> option T).

Definition startTestee (cmdline : bytes) : option T :=
  match splitCommand cmdline with
  | [] => None
  | parts => start parts
  end.

(** The exit code, the results and the report written to [junitPath]. *)
Definition runConformance (late : nat -> bool) (testeeCmd junitPath : bytes) : Z * list caseResult * option bytes :=
  match Unmarshal Corpus_type corpusJSON with
  | None => (3, [], None)
  | Some v =>
      match startTestee testeeCmd with
      | None => (3, [], None)
      | Some t =>
          let results := run_groups late 0 (t, []) (cp_TestGroups (Corpus_of v)) in
          (if 0 <? tally results Fail then 1 else 0, results,
           if bool_decide (junitPath = []) then None else Some (writeJUnit results))
      end
  end.
End command.
End grading.

(** [strconv.Atoi]. *)
Definition Atoi (s : bytes) : option Z :=
  let '(neg, d) := match s with c :: s' => if oct c x2d then (true, s') else if oct c x2b then (false, s') else (false, s) | [] => (false, []) end in
  match d with
  | [] => None
  | _ =>
      if forallb is_digit d then
        let z := if neg : bool then - digits_value d else digits_value d in
        if (- 2 ^ 63 <=? z) && (z <? 2 ^ 63) then Some z else None
      else None
  end.

(** The options of the [run] command: testee, report and timeout in seconds; an option
    without its value, and any other argument, is passed over. *)
Fixpoint run_options (args : list bytes) (testee junit : bytes) (timeoutSec : Z) : bytes * bytes * Z :=
  match args with
  | [] => (testee, junit, timeoutSec)
  | a :: rest =>
      match rest with
      | [] => (testee, junit, timeoutSec)
      | v :: rest' =>
          if bool_decide (a = str "--testee") then run_options rest' v junit timeoutSec
          else if bool_decide (a = str "--junit") then run_options rest' testee v timeoutSec
          else if bool_decide (a = str "--timeout") then
            run_options rest' testee junit (match Atoi v with Some n => if 0 <? n then n else timeoutSec | None => timeoutSec end)
          else run_options rest testee junit timeoutSec
      end
  end.

Inductive command : Type :=
| Usage                                              (* exit code 2 *)
| Vectors                                            (* the corpus, ended by a newline *)
| Run (testee junit : bytes) (timeoutSec : Z)
| MissingTestee.                                     (* exit code 2 *)

Definition runner_main (args : list bytes) : command :=
  match args with
  | _ :: verb :: rest =>
      if bool_decide (verb = str "vectors") then Vectors
      else if bool_decide (verb = str "run") then
        let '(testee, junit, t) := run_options rest [] [] 30 in
        if bool_decide (testee = []) then MissingTestee else Run testee junit t
      else Usage
  | _ => Usage
  end.

Definition vectors (corpus : bytes) : bytes :=
  match last corpus with
  | Some c => if oct c x0a then corpus else corpus ++ [x0a]
  | None => [x0a]
  end.

Example runner_arguments :
  runner_main [str "npamp-conform"; str "run"; str "--timeout"; str "+5"; str "--junit"; str "r.xml"; str "x"; str "--testee"; str "./a"]
  = Run (str "./a") (str "r.xml") 5.
Proof. by vm_compute. Qed.
