(* ===== verification/ConformRuns.v ===== *)
(** * Conformance runs

    What a run of the runner against the Go adapter shows: every verdict is the grading of
    what the reference implementation answers, whatever the pipes and JSON do in between;
    and two operations of the adapter that do not test what they are named for. *)

From S2P Require Import Prelude Errors Registry Crc32c Frame Tlv Sha256 Crypto Aead KeySchedule Cbor Conn Bridge.
From S2P Require Import CarriageHttp Json JsonLine CarriageJson JsonAny JsonTypes JsonRoundtrip SchemaVersion Conform Runner.
From Stdlib Require Import Strings.Byte SpecFloat.
Open Scope Z_scope.

(** ** Requests and responses on the wire *)

Lemma le_get_put n z : le_get (le_put n z) = z mod 256 ^ Z.of_nat n.
Proof. unfold le_get, le_put. by rewrite reverse_involutive, be_get_put. Qed.

Lemma length_le_put n z : length (le_put n z) = n.
Proof. unfold le_put. by rewrite length_reverse, length_be_put. Qed.

Lemma le_length (b : bytes) : blen b < 2 ^ 32 -> le_get (le_put 4 (u32 (blen b))) = blen b.
Proof.
  intros Hb. assert (0 <= blen b) as H0 by (unfold blen; lia). unfold u32. rewrite le_get_put. change (256 ^ Z.of_nat 4) with (2 ^ 32).
  by rewrite Z.mod_mod, Z.mod_small by lia.
Qed.

(** A struct whose members are known reads as its fields are stored. *)
Lemma struct_unmarshal fs ms vals :
  members_at 1 ms -> store_members decode fs ms (map (fun f => zero f.2) fs) = Some vals ->
  Unmarshal (TStruct fs) (struct_text ms) = Some (GStruct vals).
Proof.
  intros Hm Hs. apply Unmarshal_document; [by apply (struct_document 0)|]. cbn [decode zero]. rewrite struct_not_null, struct_members by done.
  cbn [mbind option_bind]. by rewrite Hs.
Qed.

Lemma store_hit k n o t fs x vals v y :
  bool_decide (fold_name k = fold_name n) = true -> decode t x v = Some y -> store decode ((n, o, t) :: fs) (x :: vals) k v = Some (y :: vals).
Proof. intros Hk Hd. cbn [store]. by rewrite Hk, Hd. Qed.

Lemma store_miss k n o t fs x vals v vals' :
  bool_decide (fold_name k = fold_name n) = false -> store decode fs vals k v = Some vals' -> store decode ((n, o, t) :: fs) (x :: vals) k v = Some (x :: vals').
Proof. intros Hk Hd. cbn [store]. by rewrite Hk, Hd. Qed.

Lemma store_members_cons fs k v ms vals vals' :
  store decode fs vals k v = Some vals' -> store_members decode fs ((k, v) :: ms) vals = store_members decode fs ms vals'.
Proof. intros H. unfold store_members. cbn [fold_left mbind option_bind fst snd]. by rewrite H. Qed.

(** Stores the next member in the field it names. *)
Ltac store_field H :=
  erewrite store_members_cons;
  [|repeat first [apply store_hit; [vm_compute; reflexivity|exact H]|apply store_miss; [vm_compute; reflexivity|]]].

(** A request whose text says all of it. *)
Definition request_fine (r : request) : Prop := utf8 (req_Op r) /\ dyn_fine 1 (DObj (req_In r)) /\ seen_members (req_In r) = req_In r.

Lemma request_read r : request_fine r ->
  exists raw, Marshal request_type (request_val r) = Some raw /\ Unmarshal request_type raw = Some (request_val r).
Proof.
  intros (Ho & Hi & Hseen). destruct (any_map_seen 1 (req_In r) ltac:(lia) Hi) as (raw & Hm & Hd & Hs & Hdec). rewrite Hseen in Hdec.
  exists (struct_text [(str "op", quote (req_Op r)); (str "in", raw)]). split.
  - unfold request_type, request_val. cbn [Marshal marshal_fields andb]. cbn [Marshal] in Hm. rewrite Hm. done.
  - apply struct_unmarshal.
    + constructor; [split; [apply utf8_str; by vm_compute|by apply quote_document]|]. constructor; [|done]. split; [apply utf8_str; by vm_compute|done].
    + assert (decode TString (GStr []) (quote (req_Op r)) = Some (GStr (req_Op r))) as Hop by (cbn [decode]; by rewrite unmarshal_text_quote).
      cbn [map snd zero]. store_field Hop. store_field Hdec. done.
Qed.

Definition response_fine (r : response) : Prop := dyn_fine 1 (DObj (resp_Out r)) /\ utf8 (resp_Error r) /\ utf8 (resp_Skipped r).

(** What the runner reads of a response. *)
Definition response_seen (r : response) : response := mkResponse (seen_members (resp_Out r)) (resp_Error r) (resp_Skipped r).

Lemma decode_text s old : utf8 s -> decode TString old (quote s) = Some (GStr s).
Proof. intros Hs. cbn [decode]. by rewrite unmarshal_text_quote. Qed.

Lemma response_read r : response_fine r ->
  exists raw v, Marshal response_type (response_val r) = Some raw /\ Unmarshal response_type raw = Some v /\ response_of v = response_seen r.
Proof.
  destruct r as [out err skip]. intros (Ho & He & Hs). cbn [resp_Out resp_Error resp_Skipped] in *.
  destruct (any_map_seen 1 out ltac:(lia) Ho) as (raw & Hm & Hd & _ & Hdec). cbn [Marshal] in Hm.
  set (mo := match out with [] => [] | _ => [(str "out", raw)] end).
  set (me := match err with [] => [] | _ => [(str "error", quote err)] end).
  set (mw := match skip with [] => [] | _ => [(str "skipped", quote skip)] end).
  exists (struct_text (mo ++ me ++ mw)).
  assert (members_at 1 (mo ++ me ++ mw)) as Hat.
  { apply Forall_app_2; [|apply Forall_app_2]; [destruct out|destruct err|destruct skip]; try constructor; try done;
      (split; [apply utf8_str; by vm_compute|]); try exact Hd; by apply quote_document. }
  assert (Marshal response_type (response_val (mkResponse out err skip)) = Some (struct_text (mo ++ me ++ mw))) as Hmar.
  { unfold response_type, response_val. cbn [Marshal resp_Out resp_Error resp_Skipped].
    subst mo me mw. destruct out, err, skip; cbn [marshal_fields andb is_empty Marshal] in *; rewrite ?Hm; done. }
  exists (GStruct [match out with [] => GAnyMap None | _ => GAnyMap (Some (seen_members out)) end; GStr err; GStr skip]).
  split; [done|]. split; [|by destruct out].
  apply struct_unmarshal; [done|]. cbn [map snd zero]. clear Hat Hmar Hm.
  pose proof (decode_text err (GStr []) He) as Herr. pose proof (decode_text skip (GStr []) Hs) as Hsk. change (zero TAnyMap) with (GAnyMap None) in Hdec.
  subst mo me mw. destruct out; [|cbn [app]; store_field Hdec]; (destruct err; [|cbn [app]; store_field Herr]); (destruct skip; [|cbn [app]; store_field Hsk]); done.
Qed.

(** ** A testee that answers *)

(** In a state where it has read all it was sent, the testee answers a framed request with
    [serves] of it, framed, and is in such a state again. *)
Class TesteeLaws {T : Type} `{Testee T} (serves : bytes -> option bytes) (ready : T -> Prop) : Prop :=
  testee_answers : forall t b ob, ready t -> blen b < 2 ^ 32 -> serves b = Some ob ->
    exists t1 o1 t2 o2, feed t (le_put 4 (u32 (blen b))) = Some (t1, o1) /\ feed t1 b = Some (t2, o2) /\
      o1 ++ o2 = le_put 4 (u32 (blen ob)) ++ ob /\ ready t2.

Section served.
Context {T : Type} `{Testee T} (serves : bytes -> option bytes) (ready : T -> Prop) {laws : TesteeLaws serves ready}.

(** The octets of a request and of its response fit the length field. *)
Definition exchanged (req : request) (resp : response) : Prop :=
  exists b ob v, Marshal request_type (request_val req) = Some b /\ blen b < 2 ^ 32 /\ serves b = Some ob /\ blen ob < 2 ^ 32 /\
    Unmarshal response_type ob = Some v /\ response_of v = resp.

Lemma callRaw_served t req resp : ready t -> exchanged req resp -> exists t', ready t' /\ callRaw (t, []) req = Ok (resp, (t', [])).
Proof.
  intros Ht (b & ob & v & Hb & Hlen & Hs & Hol & Hv & Hr). destruct (laws t b ob Ht Hlen Hs) as (t1 & o1 & t2 & o2 & F1 & F2 & Ho & Ht2).
  exists t2. split; [done|]. unfold callRaw. rewrite Hb. cbn [mbind result_bind fst snd]. rewrite F1. cbn [mbind result_bind]. rewrite F2. cbn [mbind result_bind app].
  rewrite Ho. pose proof (length_le_put 4 (u32 (blen ob))) as Hl. set (p := le_put 4 (u32 (blen ob))) in *.
  assert (blen (p ++ ob) = 4 + blen ob) as Hpl by (unfold blen; rewrite length_app, Hl; lia). rewrite Hpl.
  assert (0 <= blen ob) as H0 by (unfold blen; lia).
  assert (le_get p = blen ob) as Hg by (unfold p; by apply le_length).
  assert (take 4 (p ++ ob) = p) as -> by (by rewrite <- Hl, take_app_length). rewrite Hg.
  rewrite (proj2 (Z.ltb_ge (4 + blen ob) 4)), (proj2 (Z.ltb_ge (4 + blen ob) (4 + blen ob))) by lia. cbn [check mbind result_bind]. unfold slice.
  replace (4 + Z.to_nat (blen ob) - 4)%nat with (length ob) by (unfold blen; lia).
  assert (drop 4 (p ++ ob) = ob) as -> by (by rewrite <- Hl, drop_app_length). rewrite firstn_all, Hv.
  rewrite drop_ge by (rewrite length_app; unfold blen; lia). by rewrite Hr.
Qed.

Context (SimpleFold : Z -> Z) (call_text : call_error -> bytes) (late : nat -> bool) (on_time : forall n, late n = false).
(** What the testee answers to a case. *)
Context (answers : bytes -> Test -> response).

Definition graded (op : bytes) (tc : Test) : caseResult :=
  let '(v, detail) := gradeCase SimpleFold call_text tc (Ok (answers op tc)) in mkCase op (tc_Requirement tc) v detail (tc_TcId tc).

Definition answered (op : bytes) (tc : Test) : Prop := exchanged (mkRequest op (tc_In tc)) (answers op tc).

Lemma run_tests_served op tests : forall n t, ready t -> Forall (answered op) tests ->
  exists n' t', ready t' /\ run_tests SimpleFold call_text late op n (t, []) tests = (map (graded op) tests, Some (n', (t', []))).
Proof.
  induction tests as [|tc tests IH]; intros n t Ht Ha; [by exists n, t|]. apply Forall_cons_1 in Ha as [Hc Ha].
  destruct (callRaw_served t _ _ Ht Hc) as (t1 & Ht1 & Hcall). destruct (IH (S n) t1 Ht1 Ha) as (n' & t' & Ht' & Hrun).
  exists n', t'. split; [done|]. cbn [run_tests]. unfold call. rewrite on_time, Hcall. cbn [mbind result_bind fst map].
  unfold graded at 1. destruct (gradeCase _ _ tc _) as [v detail]. by rewrite Hrun.
Qed.

Lemma run_groups_served groups : forall n t, ready t -> Forall (fun g => Forall (answered (g_Op g)) (g_Tests g)) groups ->
  run_groups SimpleFold call_text late n (t, []) groups = flat_map (fun g => map (graded (g_Op g)) (g_Tests g)) groups.
Proof.
  induction groups as [|g groups IH]; intros n t Ht Ha; [done|]. apply Forall_cons_1 in Ha as [Hg Ha]. cbn [run_groups flat_map].
  destruct (run_tests_served (g_Op g) (g_Tests g) n t Ht Hg) as (n' & t' & Ht' & ->). by rewrite IH.
Qed.
End served.

(** ** The adapter as a testee *)

Section adapter_testee.
Context `{Crypto} (message : error -> bytes) (wild : float64 -> Z) (json_error : bytes -> bytes).

#[global] Instance adapter_testee : Testee adapter_state := {
  feed := adapter_feed message wild json_error;
  gone st := match st with Exited => true | Waiting _ => false end
}.

Definition adapter_serves (b : bytes) : option bytes :=
  resp ← match Unmarshal request_type b with
         | None => Some (answer_error (str "bad request json: " ++ json_error b))
         | Some v => handle message wild (request_of v)
         end;
  Some (default [] (Marshal response_type (response_val resp))).

Lemma answer_serves b : answer message wild json_error b = (ob ← adapter_serves b; Some (le_put 4 (u32 (blen ob)) ++ ob)).
Proof. unfold answer, adapter_serves. by destruct (match Unmarshal request_type b with Some _ => _ | None => _ end). Qed.

Lemma adapter_loop_waits fuel p : (length p < 4)%nat -> adapter_loop message wild json_error fuel p = (Waiting p, []).
Proof. intros Hp. destruct fuel; [done|]. cbn [adapter_loop]. by rewrite (proj2 (Z.ltb_lt _ _)) by (unfold blen; lia). Qed.

Lemma adapter_loop_request fuel (b ob : bytes) : blen b < 2 ^ 32 -> adapter_serves b = Some ob ->
  adapter_loop message wild json_error (S fuel) (le_put 4 (u32 (blen b)) ++ b) = (Waiting [], le_put 4 (u32 (blen ob)) ++ ob).
Proof.
  intros Hb Hs. cbn [adapter_loop]. pose proof (length_le_put 4 (u32 (blen b))) as Hl. pose proof (le_length b Hb) as Hg.
  set (p := le_put 4 (u32 (blen b))) in *. rewrite (proj2 (Z.ltb_ge _ _)) by (unfold blen; rewrite length_app; lia).
  assert (take 4 (p ++ b) = p) as -> by (by rewrite <- Hl, take_app_length). rewrite Hg.
  rewrite (proj2 (Nat.ltb_ge _ _)) by (rewrite length_app; unfold blen; lia). unfold slice.
  replace (4 + Z.to_nat (blen b) - 4)%nat with (length b) by (unfold blen; lia).
  assert (drop 4 (p ++ b) = b) as -> by (by rewrite <- Hl, drop_app_length). rewrite firstn_all, answer_serves, Hs.
  cbn [mbind option_bind]. rewrite drop_ge by (rewrite length_app; unfold blen; lia). rewrite adapter_loop_waits by (cbn; lia). by rewrite app_nil_r.
Qed.

Lemma adapter_loop_partial fuel (b : bytes) : blen b < 2 ^ 32 -> b <> [] ->
  adapter_loop message wild json_error fuel (le_put 4 (u32 (blen b))) = (Waiting (le_put 4 (u32 (blen b))), []).
Proof.
  intros Hb Hne. destruct fuel; [done|]. cbn [adapter_loop]. pose proof (length_le_put 4 (u32 (blen b))) as Hl.
  pose proof (le_length b Hb) as Hg.
  set (p := le_put 4 (u32 (blen b))) in *. rewrite (proj2 (Z.ltb_ge _ _)) by (unfold blen; lia).
  assert (take 4 p = p) as -> by (by rewrite <- Hl, firstn_all). rewrite Hg.
  assert (0 < length b)%nat by (destruct b; [done|cbn; lia]). by rewrite (proj2 (Nat.ltb_lt _ _)) by (unfold blen; lia).
Qed.

#[global] Instance adapter_laws : TesteeLaws adapter_serves (fun st => st = Waiting []).
Proof.
  intros t b ob -> Hb Hs. destruct (decide (b = [])) as [->|Hne].
  - exists (Waiting []), (le_put 4 (u32 (blen ob)) ++ ob), (Waiting []), []. cbn [feed adapter_testee adapter_feed app].
    pose proof (adapter_loop_request 4 [] ob Hb Hs) as Hr. rewrite app_nil_r in Hr. split; [f_equal; exact Hr|]. split; [done|]. by rewrite app_nil_r.
  - exists (Waiting (le_put 4 (u32 (blen b)))), [], (Waiting []), (le_put 4 (u32 (blen ob)) ++ ob). cbn [feed adapter_testee adapter_feed app].
    split; [f_equal; by apply adapter_loop_partial|]. split; [f_equal; by apply adapter_loop_request|]. done.
Qed.
End adapter_testee.

(** ** What a verdict means *)

(** The answers a case does not fail on. *)
Definition acceptable_answer (SimpleFold : Z -> Z) (tc : Test) (r : response) : Prop :=
  if decide (resp_Skipped r <> []) then True
  else if decide (tc_Result tc = str "invalid") then resp_Error r <> []
  else if decide (tc_Result tc = str "acceptable") then True
  else resp_Error r = [] /\
    forall k v, (k, v) ∈ tc_Expected tc -> exists w, lookup_member (resp_Out r) k = Some w /\ valEqual SimpleFold v w = true.

Lemma match_keys_iff SimpleFold out exp :
  (match_keys SimpleFold out exp).1 = true <->
  forall k v, (k, v) ∈ exp -> exists w, lookup_member out k = Some w /\ valEqual SimpleFold v w = true.
Proof.
  induction exp as [|[k v] exp IH]; cbn [match_keys]; [split; [intros _ k v ?%elem_of_nil; done|done]|].
  destruct (lookup_member out k) as [w|] eqn:E.
  - destruct (valEqual SimpleFold v w) eqn:E2; cbn [negb fst].
    + rewrite IH. split; intros H k' v' Hin; [|apply H; by right]. apply elem_of_cons in Hin as [[= -> ->]|Hin]; eauto.
    + split; [done|]. intros H. destruct (H k v) as (w' & Hw & Hv); [left|]. congruence.
  - split; [done|]. intros H. destruct (H k v) as (w' & Hw & Hv); [left|]. congruence.
Qed.

Lemma gradeCase_fails SimpleFold call_text tc r :
  (gradeCase SimpleFold call_text tc (Ok r)).1 <> Fail <-> acceptable_answer SimpleFold tc r.
Proof.
  unfold gradeCase, acceptable_answer. destruct (decide (resp_Skipped r <> [])) as [Hs|Hs].
  { by rewrite bool_decide_false by done. }
  rewrite (bool_decide_true (resp_Skipped r = [])) by (destruct (resp_Skipped r); [done|by destruct Hs]). cbn [negb]. destruct (decide (tc_Result tc = str "invalid")) as [Hi|Hi].
  { rewrite (bool_decide_true (tc_Result tc = _)) by done. destruct (decide (resp_Error r = [])) as [He|He].
    - rewrite He. by rewrite bool_decide_true.
    - by rewrite (bool_decide_false (resp_Error r = [])). }
  rewrite (bool_decide_false (tc_Result tc = str "invalid")) by done. destruct (decide (tc_Result tc = str "acceptable")) as [Ha|Ha].
  { by rewrite bool_decide_true. }
  rewrite (bool_decide_false (tc_Result tc = str "acceptable")) by done. destruct (decide (resp_Error r = [])) as [He|He].
  2: { rewrite (bool_decide_false (resp_Error r = [])) by done. cbn. split; [done|by intros []]. }
  rewrite (bool_decide_true (resp_Error r = [])) by done. cbn [negb]. unfold matchExpected.
  pose proof (match_keys_iff SimpleFold (resp_Out r) (sort_entries fst (tc_Expected tc))) as Hk.
  assert (forall e, e ∈ sort_entries fst (tc_Expected tc) <-> e ∈ tc_Expected tc) as Hin by (intros e; by rewrite (sort_entries_perm fst)).
  setoid_rewrite Hin in Hk.
  destruct (match_keys _ _ _) as [[] d]; cbn [fst] in *.
  - split; [intros _; split; [done|]; by apply Hk|done].
  - split; [done|]. intros [_ H]. apply Hk in H. done.
Qed.

Lemma tally_zero rs v : (0 <? tally rs v) = false <-> Forall (fun r => cr_verdict r <> v) rs.
Proof.
  unfold tally. rewrite Z.ltb_ge. induction rs as [|r rs IH]; [by cbn|]. rewrite filter_cons, Forall_cons. destruct (decide (cr_verdict r = v)).
  - split; [unfold blen; cbn [length]; lia|by intros [? _]].
  - rewrite IH. by split; [|intros [_ ?]].
Qed.

(** ** Runs of the runner against the adapter *)

Section conformance.
Context `{Crypto} (message : error -> bytes) (wild : float64 -> Z) (json_error : bytes -> bytes).
Context (SimpleFold : Z -> Z) (call_text : call_error -> bytes).

(** The answer of the reference implementation to a case, as the runner reads it. *)
Definition reference_answer (op : bytes) (tc : Test) : response :=
  match handle message wild (mkRequest op (tc_In tc)) with
  | Some r => response_seen r
  | None => mkResponse [] [] []
  end.

(** A case whose texts fit the framing and on which the adapter does not panic. *)
Definition case_fits (op : bytes) (tc : Test) : Prop :=
  request_fine (mkRequest op (tc_In tc)) /\
  (forall b, Marshal request_type (request_val (mkRequest op (tc_In tc))) = Some b -> blen b < 2 ^ 32) /\
  exists r, handle message wild (mkRequest op (tc_In tc)) = Some r /\ response_fine r /\
    forall b, Marshal response_type (response_val r) = Some b -> blen b < 2 ^ 32.

Lemma case_answered op tc : case_fits op tc -> answered (adapter_serves message wild json_error) reference_answer op tc.
Proof.
  intros (Hreq & Hlen & r & Hh & Hfine & Hrlen). destruct (request_read _ Hreq) as (b & Hb & Hu).
  destruct (response_read r Hfine) as (ob & v & Hm & Hv & Hseen). exists b, ob, v. split; [done|]. split; [by apply Hlen|]. split.
  { unfold adapter_serves. rewrite Hu. change (request_of (request_val ?q)) with q.
    replace (request_of (request_val (mkRequest op (tc_In tc)))) with (mkRequest op (tc_In tc)) by done. rewrite Hh. cbn [mbind option_bind]. by rewrite Hm. }
  split; [by apply Hrlen|]. split; [done|]. unfold reference_answer. by rewrite Hh.
Qed.

Definition reference_results (groups : list Group) : list caseResult :=
  flat_map (fun g => map (graded SimpleFold call_text reference_answer (g_Op g)) (g_Tests g)) groups.

Lemma graded_verdict op tc :
  cr_verdict (graded SimpleFold call_text reference_answer op tc) <> Fail <-> acceptable_answer SimpleFold tc (reference_answer op tc).
Proof. rewrite <- (gradeCase_fails SimpleFold call_text). unfold graded. by destruct (gradeCase _ _ _ _). Qed.

Lemma reference_results_fail groups :
  Forall (fun r => cr_verdict r <> Fail) (reference_results groups) <->
  Forall (fun g => Forall (fun tc => acceptable_answer SimpleFold tc (reference_answer (g_Op g) tc)) (g_Tests g)) groups.
Proof.
  unfold reference_results. induction groups as [|g groups IH]; [done|]. cbn [flat_map]. rewrite Forall_app, Forall_cons, IH, Forall_map.
  apply and_iff_compat_r. rewrite !Forall_forall. unfold compose. by setoid_rewrite graded_verdict.
Qed.

(** C15: A conformance run measures the implementation and nothing else.  When the runner
    drives the Go adapter over its corpus with no timer firing, on cases whose texts fit the
    32-bit length framing, the results are, case by case and in order, the grading of what
    the reference implementation answers to the case: no request or response is lost,
    split, merged or altered by the pipes and the JSON in between, except that an integer
    is read as the nearest float64.  The exit code is 0 exactly when every case has an
    acceptable answer: skipped, rejected if the case is invalid, or without error and with
    every expected member equal if it is valid; it is 1 otherwise. *)
Theorem conformance_run corpusJSON start late (cmd junit : bytes) v :
  Unmarshal Corpus_type corpusJSON = Some v -> startTestee start cmd = Some (Waiting []) -> (forall n, late n = false) ->
  let groups := cp_TestGroups (Corpus_of v) in
  Forall (fun g => Forall (case_fits (g_Op g)) (g_Tests g)) groups ->
  exists code report,
    runConformance (H := adapter_testee message wild json_error) SimpleFold call_text corpusJSON start late cmd junit = (code, reference_results groups, report) /\
    (code = 0 \/ code = 1) /\
    (code = 0 <-> Forall (fun g => Forall (fun tc => acceptable_answer SimpleFold tc (reference_answer (g_Op g) tc)) (g_Tests g)) groups).
Proof.
  intros Hc Hst Hl groups Hf. pose proof (run_groups_served (adapter_serves message wild json_error) (fun st => st = Waiting []) (laws := adapter_laws message wild json_error)
    SimpleFold call_text late Hl reference_answer groups 0 (Waiting []) eq_refl) as Hr.
  unfold runConformance. rewrite Hc, Hst. fold groups. rewrite Hr.
  2: { eapply Forall_impl; [exact Hf|]. intros g Hg. eapply Forall_impl; [exact Hg|]. apply case_answered. }
  fold (reference_results groups). eexists _, _. split; [reflexivity|]. rewrite <- reference_results_fail, <- tally_zero.
  split; by destruct (0 <? _); auto.
Qed.
End conformance.

(** ** What frame.seal seals *)

Lemma DecodeString_hex b : DecodeHex (hex_encode b) = (b, true).
Proof.
  induction b as [|c b IH]; [done|]. pose proof (b2z_range c) as Hc. cbn [hex_encode flat_map app DecodeHex]. fold (hex_encode b).
  rewrite (hex_value_char (b2z c / 16)) by (split; [apply Z.div_pos|apply Z.div_lt_upper_bound]; lia).
  rewrite (hex_value_char (b2z c mod 16)), IH by (apply Z.mod_pos_bound; lia). by rewrite Z.mul_comm, <- Z.div_mod, z2b_b2z by lia.
Qed.

Lemma ParseUint10_digits z : 0 <= z < 2 ^ 64 -> ParseUint10 (dec_digits 20 z) = Some z.
Proof.
  intros Hz. assert (0 <= z < 10 ^ Z.of_nat 20) as Hz' by (cbn; lia). unfold ParseUint10.
  destruct (dec_digits_shape 20 z Hz' ltac:(lia)) as (c & b & Heq & _). pose proof (dec_digits_digits 20 z) as Hd.
  pose proof (digits_value_dec _ _ _ (dec_digits_value 20 z Hz' ltac:(lia))) as Hv. rewrite Heq in *.
  assert (forallb is_digit (c :: b) = true) as -> by (apply forallb_forall; rewrite Forall_forall in Hd; intros x Hx; by apply Hd, list_elem_of_In).
  unfold digits_value. rewrite Hv. by rewrite (proj2 (Z.ltb_lt _ _)) by lia.
Qed.

(** The request that names the frame [sealWith] protects. *)
Definition seal_request (st : epochKeys) (channel ft : Z) (pt : bytes) : list (bytes * dyn) :=
  [ (str "channel", DNum (int_float channel)); (str "flags", DNum (int_float FlagENC)); (str "frameType", DNum (int_float ft));
    (str "iv", DStr (hex_encode (k_iv st))); (str "key", DStr (hex_encode (k_key st))); (str "pt", DStr (hex_encode pt));
    (str "seq", DStr (dec_digits 20 (k_seq st))); (str "suite", DStr (str "AES-256-GCM")); (str "ver", DNum (int_float 2)) ].

Lemma float_int_exact wild z : - 2 ^ 53 < z < 2 ^ 53 -> float_int wild (int_float z) = z.
Proof. intros Hz. unfold float_int. rewrite truncate_int_float by done. by rewrite (proj2 (Z.leb_le _ _)), (proj2 (Z.ltb_lt _ _)) by lia. Qed.

Lemma seal_request_fields wild st channel ft pt : 0 <= channel < 2 ^ 16 -> 0 <= ft < 2 ^ 16 -> 0 <= k_seq st < 2 ^ 64 ->
  request_frame wild (seal_request st channel ft pt) = mkFrame 2 FlagENC ft channel (k_seq st) [] /\
  get_u64 wild (seal_request st channel ft pt) (str "seq") = k_seq st.
Proof.
  intros Hc Hf Hs. unfold request_frame, get_i, get_u64.
  change (in_field (seal_request st channel ft pt) (str "ver")) with (DNum (int_float 2)).
  change (in_field (seal_request st channel ft pt) (str "flags")) with (DNum (int_float FlagENC)).
  change (in_field (seal_request st channel ft pt) (str "frameType")) with (DNum (int_float ft)).
  change (in_field (seal_request st channel ft pt) (str "channel")) with (DNum (int_float channel)).
  change (in_field (seal_request st channel ft pt) (str "seq")) with (DStr (dec_digits 20 (k_seq st))). cbv iota.
  rewrite !float_int_exact by (unfold FlagENC; lia). rewrite ParseUint10_digits by done. split; [|done].
  unfold u16. by rewrite !Z.mod_small by lia.
Qed.

Lemma HeaderPrefix_length_field f n1 n2 : 0 <= n1 < 2 ^ 32 -> 0 <= n2 < 2 ^ 32 -> HeaderPrefix f n1 = HeaderPrefix f n2 -> n1 = n2.
Proof.
  intros H1 H2 E. unfold HeaderPrefix in E. cbv zeta in E. do 5 apply app_inv_head in E. apply (f_equal be_get) in E.
  by rewrite !be_get_put_small in E by done.
Qed.

Section frame_ops.
Context `{CryptoLaws} (message : error -> bytes) (wild : float64 -> Z).

Lemma frame_seal_output st channel ft pt :
  blen (k_key st) = 32 -> blen (k_iv st) = 12 -> 0 <= channel < 2 ^ 16 -> 0 <= ft < 2 ^ 16 -> 0 <= k_seq st < 2 ^ 64 -> blen pt + 16 < 2 ^ 32 ->
  frame_seal message wild (seal_request st channel ft pt) =
  answer_out [(str "sealed", hex_str (gcm_seal (k_key st) (DeriveNonce (k_iv st) (k_seq st)) pt
                                        (HeaderPrefix (mkFrame 2 FlagENC ft channel (k_seq st) []) (blen pt))))].
Proof.
  intros Hk Hi Hc Hf Hs Hp. destruct (seal_request_fields wild st channel ft pt Hc Hf Hs) as [Hfr Hsq]. unfold frame_seal, get_hx, is_aes.
  change (get_s (seal_request st channel ft pt) (str "suite")) with (str "AES-256-GCM").
  change (get_s (seal_request st channel ft pt) (str "iv")) with (hex_encode (k_iv st)).
  change (get_s (seal_request st channel ft pt) (str "pt")) with (hex_encode pt).
  change (get_s (seal_request st channel ft pt) (str "key")) with (hex_encode (k_key st)).
  rewrite bool_decide_true, !DecodeString_hex by done. cbn [negb fst]. unfold fixedKey. rewrite Hk, Hi, Hfr, Hsq. cbn [Z.eqb Pos.eqb negb].
  unfold u32. rewrite (Z.mod_small (blen pt)) by (unfold blen in *; lia). done.
Qed.

(** C32: The operation frame.seal of the adapter does not seal what the protocol seals.  For
    the request that names a frame of a session (its key, iv, sequence number, channel,
    type and plaintext), the adapter answers the octets sealed under a header prefix whose
    payload length is that of the plaintext, while the record layer seals the same frame
    under the length of plaintext and tag, which is what the header on the wire says.  The
    two prefixes always differ, so the record layer opens the adapter's octets only if two
    seals of AES-256-GCM under different associated data coincide. *)
Theorem frame_seal_other_aad st channel ft pt :
  blen (k_key st) = 32 -> blen (k_iv st) = 12 -> 0 <= channel < 2 ^ 16 -> 0 <= ft < 2 ^ 16 -> 0 <= k_seq st < 2 ^ 64 -> blen pt + 16 < 2 ^ 32 ->
  let f := mkFrame 2 FlagENC ft channel (k_seq st) [] in
  let seal := fun p n => gcm_seal (k_key st) (DeriveNonce (k_iv st) (k_seq st)) p (HeaderPrefix f n) in
  frame_seal message wild (seal_request st channel ft pt) = answer_out [(str "sealed", hex_str (seal pt (blen pt)))] /\
  sealWith st channel ft pt = Ok (MarshalBinary (mkFrame 0 FlagENC ft channel (k_seq st) (seal pt (blen pt + 16)))).2 /\
  HeaderPrefix f (blen pt) <> HeaderPrefix f (blen pt + 16) /\
  (forall p, openWith st (mkFrame 2 FlagENC ft channel (k_seq st) (seal pt (blen pt))) = Ok p -> seal p (blen pt + 16) = seal pt (blen pt)).
Proof.
  intros Hk Hi Hc Hf Hs Hp f seal. assert (0 <= blen pt) as H0' by (unfold blen; lia). split; [by apply frame_seal_output|].
  assert (u32 (blen pt + 16) = blen pt + 16) as Hu by (unfold u32; apply Z.mod_small; lia). split; [|split].
  - unfold sealWith, SealAES256GCM. rewrite Hu. reflexivity.
  - intros E. apply HeaderPrefix_length_field in E; lia.
  - assert (blen (seal pt (blen pt)) = blen pt + 16) as Hov by apply gcm_overhead. intros p. unfold openWith, OpenAES256GCM. cbn [Payload Seq]. rewrite Hov, Hu.
    change (HeaderPrefix (mkFrame 2 FlagENC ft channel (k_seq st) _) (blen pt + 16)) with (HeaderPrefix f (blen pt + 16)).
    destruct (gcm_open _ _ _ _) as [q|] eqn:E; [|done]. intros [= ->]. apply gcm_seal_open in E. symmetry. exact E.
Qed.
End frame_ops.

(** ** What crc32c checks *)

(** The operation crc32c answers for the header of a frame without payload only: the
    length it reads from the prefix is not given to the frame it marshals. *)
Lemma crc32c_op_payload f n : frame_wf f -> 0 <= n < 2 ^ 32 ->
  crc32c_op [(str "octets", DStr (hex_encode (HeaderPrefix f n)))] =
  if n =? 0 then answer_out [(str "crc32c", hex_str (be_put 4 (crc32c (HeaderPrefix f 0))))]
  else answer_error (str "non-canonical header prefix").
Proof.
  intros (Hv & Hf & _ & Ht & Hc & Hs & _) Hn. unfold crc32c_op, get_hx.
  change (get_s [(str "octets", DStr (hex_encode (HeaderPrefix f n)))] (str "octets")) with (hex_encode (HeaderPrefix f n)).
  rewrite DecodeString_hex. change (blen (HeaderPrefix f n) =? 21) with true. cbn [negb].
  destruct (octet4 f n [] Hv Hf) as (H1 & H2 & _). change (at_ (marshalHeaderInto f n ++ []) 4) with (at_ (HeaderPrefix f n) 4) in H1, H2.
  rewrite H1, H2. change (slice 5 7 (HeaderPrefix f n)) with (be_put 2 (Type_ f)). change (slice 7 9 (HeaderPrefix f n)) with (be_put 2 (Channel f)).
  change (slice 9 17 (HeaderPrefix f n)) with (be_put 8 (Seq f)). rewrite !(be_get_put_small 2), (be_get_put_small 8) by first [exact Ht|exact Hc|exact Hs].
  set (g := mkFrame ProtocolVersion (Flags f) (Type_ f) (Channel f) (Seq f) []).
  assert (forall k, HeaderPrefix g k = HeaderPrefix f k) as Hg by (intros k; unfold HeaderPrefix, g; cbn [Version Flags Type_ Channel Seq]; by rewrite Hv).
  unfold MarshalBinary. change (Version g =? 0) with false. cbv iota. change (u32 (blen (Payload g))) with 0. rewrite <- (Hg n), <- (Hg 0).
  change (take 21 (marshalHeaderInto g 0 ++ Payload g)) with (HeaderPrefix g 0).
  change (slice 21 25 (marshalHeaderInto g 0 ++ Payload g)) with (be_put 4 (crc32c (HeaderPrefix g 0))).
  destruct (Z.eqb_spec n 0) as [->|Hne]; [by rewrite bool_decide_true|].
  rewrite bool_decide_false; [done|]. intros E. apply Hne. symmetry. apply (HeaderPrefix_length_field g); [lia|done|done].
Qed.

(** ** What grading does not tell apart *)

Lemma runes_ascii s : Forall (fun c => b2z c < 128) s -> runes (length s) s = map b2z s.
Proof.
  induction 1 as [|c s Hc _ IH]; [done|]. cbn [runes length map]. unfold utf8_size. rewrite (proj2 (Z.ltb_lt _ _)) by done.
  change (drop 1 (c :: s)) with s. by rewrite IH.
Qed.

Lemma upper_lower_ok :
  forallb (fun n => forallb (fun m => let c := z2b (Z.of_nat n) in let d := z2b (Z.of_nat m) in
    Bool.eqb (rune_equal_fold (fun r => r) (b2z c) (b2z d)) (oct (to_lower_octet c) (to_lower_octet d))) (seq 0 128)) (seq 0 128) = true.
Proof. by vm_compute. Qed.

Lemma rune_equal_fold_ascii SimpleFold a b : 0 <= a < 128 -> 0 <= b < 128 -> rune_equal_fold SimpleFold a b = rune_equal_fold (fun r => r) a b.
Proof. intros Ha Hb. unfold rune_equal_fold. by rewrite (proj2 (Z.ltb_lt (Z.max a b) 128)) by lia. Qed.

(** Text that differs in case only is equal, also where case matters (a method, a scope);
    an object is equal to the text it prints as; integers that round to the same float64
    are equal. *)
Lemma grading_lenient SimpleFold s t m :
  Forall (fun c => b2z c < 128) s -> map to_lower_octet s = map to_lower_octet t -> Forall (fun c => b2z c < 128) t ->
  valEqual SimpleFold (DStr s) (DStr t) = true /\ valEqual SimpleFold (DObj m) (DStr (Sprint (DObj m))) = true /\
  valEqual SimpleFold (seen (DInt (2 ^ 53))) (seen (DInt (2 ^ 53 + 1))) = true.
Proof.
  intros Hs E Ht. split; [|split; [by apply bool_decide_eq_true|by vm_compute]]. cbn [valEqual]. unfold EqualFold. rewrite !runes_ascii by done.
  revert t E Ht. induction Hs as [|c s Hc _ IH]; intros [|d t] E Ht; try done. injection E as Ecd E. apply Forall_cons_1 in Ht as [Hd Ht].
  cbn [map runes_equal_fold]. rewrite (IH t E Ht), andb_true_r. pose proof (b2z_range c). pose proof (b2z_range d). rewrite rune_equal_fold_ascii by lia.
  pose proof upper_lower_ok as Hall. rewrite forallb_forall in Hall. specialize (Hall (Z.to_nat (b2z c)) ltac:(apply in_seq; lia)).
  rewrite forallb_forall in Hall. specialize (Hall (Z.to_nat (b2z d)) ltac:(apply in_seq; lia)). cbv zeta in Hall.
  rewrite !Z2Nat.id, !z2b_b2z in Hall by lia. apply eqb_prop in Hall. rewrite Hall, Ecd. apply oct_refl.
Qed.
