(* ===== verification/CorpusRuns.v ===== *)
(** * Samples of the conformance runner on the Go adapter

    Two groups of the repository's corpus, at which the theorems of [ConformRuns] apply. *)

From S2P Require Import Prelude Errors Frame Crypto Conn Json CarriageJson JsonAny JsonTypes JsonRoundtrip SchemaVersion.
From S2P Require Import Conform Runner ConformRuns.
From Stdlib Require Import Strings.Byte.
Open Scope Z_scope.

(** ** Two groups of the conformance corpus (harness/runner/corpus/conformance-corpus.json)

    Frame headers and nonces, without comments and flags.  The texts are JSON with an
    apostrophe for each double quote. *)

Definition header_decode_cases : bytes :=
  json "{'op':'header.decode','profile':'any','tests':[" ++
  json "{'tcId':1,'requirement':'wire-format/header','in':{'frame':'4e50414d20000100000000000000000000000000000d880c250000000000000000000000'},'expected':{'magic':'NPAM','ver':2,'flags':0,'frameType':1,'channel':0,'seq':0,'payloadLength':0,'crc32c':'0d880c25','reservedZero':true},'result':'valid'}," ++
  json "{'tcId':2,'requirement':'header/reserved-nonzero-MUST-reject','in':{'frame':'4e50414d20000100000000000000000000000000000d880c250100000000000000000000'},'result':'invalid'}," ++
  json "{'tcId':3,'requirement':'header/crc32c-mismatch-MUST-reject','in':{'frame':'4e50414d2000010000000000000000000000000000000000000000000000000000000000'},'result':'invalid'}," ++
  json "{'tcId':4,'requirement':'header/magic-MUST-reject','in':{'frame':'5850414d2000010000000000000000000000000000f312de9b0000000000000000000000'},'result':'invalid'}," ++
  json "{'tcId':5,'requirement':'header/version-MUST-reject','in':{'frame':'4e50414d3000010000000000000000000000000000e19864e00000000000000000000000'},'result':'invalid'}," ++
  json "{'tcId':6,'requirement':'wire-format/truncated-header-MUST-reject','in':{'frame':'4e50414d20000100000000000000000000000000'},'result':'invalid'}]}".

Definition nonce_derive_cases : bytes :=
  json "{'op':'nonce.derive','profile':'any','tests':[" ++
  json "{'tcId':1,'requirement':'06/nonce/seq-zero-identity','in':{'iv':'a0a1a2a3a4a5a6a7a8a9aaab','seq':'0'},'result':'valid','expected':{'nonce':'a0a1a2a3a4a5a6a7a8a9aaab'}}," ++
  json "{'tcId':2,'requirement':'06/nonce/low-octet','in':{'iv':'a0a1a2a3a4a5a6a7a8a9aaab','seq':'1'},'result':'valid','expected':{'nonce':'a0a1a2a3a4a5a6a7a8a9aaaa'}}," ++
  json "{'tcId':3,'requirement':'06/nonce/high-seq-into-octets-4-11','in':{'iv':'000000000000000000000000','seq':'4278190090'},'result':'valid','expected':{'nonce':'0000000000000000ff00000a'}}," ++
  json "{'tcId':4,'requirement':'06/nonce/full-width-xor','in':{'iv':'ffffffffffffffffffffffff','seq':'72623859790382856'},'result':'valid','expected':{'nonce':'fffffffffefdfcfbfaf9f8f7'}}," ++
  json "{'tcId':5,'requirement':'06/nonce/iv-length-MUST-reject','in':{'iv':'00000000000000000000000000','seq':'0'},'result':'invalid'}]}".

(** A run with the toy cryptography and some text for every error; no case of these groups
    needs either. *)
Definition corpus_run (corpus : bytes) : Z * list caseResult * option bytes :=
  runConformance (H := adapter_testee (H := Toy.crypto) (fun _ => str "rejected") (fun _ => 0) (fun _ => [])) (fun r => r) (fun _ => [])
    corpus (fun _ => Some (Waiting [])) (fun _ => false) (str "npamp-adapter") [].

(** ** Deciding that a case fits *)

Definition utf8_b (s : bytes) : bool := valid_utf8 (length s) s.

Fixpoint dyn_fine_b (d : Z) (v : dyn) : bool :=
  match v with
  | DNil | DBool _ => true
  | DNum f => prints f
  | DInt z => (- 2 ^ 63 <=? z) && (z <? 2 ^ 63)
  | DStr s => utf8_b s
  | DArr l => (d <? maxNestingDepth) && forallb (dyn_fine_b (d + 1)) l
  | DObj m =>
      (d <? maxNestingDepth) && bool_decide (NoDup (map fst m)) && keys_sorted (map fst m) &&
      forallb (fun e => utf8_b e.1 && dyn_fine_b (d + 1) e.2) m
  | DText _ => false
  end.

Lemma dyn_fine_sound v : forall d, dyn_fine_b d v = true -> dyn_fine d v.
Proof.
  induction v as [|b|f|z|s|l IH|m IH|m] using dyn_ind; intros d Hf; cbn [dyn_fine_b dyn_fine] in *; try done.
  - apply andb_true_iff in Hf as [H1%Z.leb_le H2%Z.ltb_lt]. lia.
  - by apply utf8_str.
  - apply andb_true_iff in Hf as [Hd%Z.ltb_lt Hl]. split; [done|]. induction IH as [|v l Hv _ IHl]; [done|].
    cbn [forallb] in Hl. apply andb_true_iff in Hl as [H1 H2]. split; [by apply Hv|by apply IHl].
  - apply andb_true_iff in Hf as [Hf Hl]. apply andb_true_iff in Hf as [Hf Hk]. apply andb_true_iff in Hf as [Hd%Z.ltb_lt Hn%bool_decide_eq_true].
    do 3 (split; [done|]). clear Hk Hn. induction IH as [|[k v] m Hv _ IHm]; [done|]. cbn [forallb fst snd] in *.
    apply andb_true_iff in Hl as [H1 H2]. apply andb_true_iff in H1 as [H0 H1]. split; [split; [by apply utf8_str|by apply Hv]|by apply IHm].
Qed.

Definition text_fits (t : goty) (v : goval) : bool := match Marshal t v with Some b => blen b <? 2 ^ 32 | None => true end.

Lemma text_fits_sound t v b : text_fits t v = true -> Marshal t v = Some b -> blen b < 2 ^ 32.
Proof. unfold text_fits. intros H E. rewrite E in H. by apply Z.ltb_lt. Qed.

(** A value that [json.Unmarshal] could have put in an [any]: no [int] in it. *)
Fixpoint no_ints (v : dyn) : bool :=
  match v with
  | DInt _ => false
  | DArr l => forallb no_ints l
  | DObj m => forallb (fun e => no_ints e.2) m
  | _ => true
  end.

Lemma no_ints_seen v : no_ints v = true -> seen v = v.
Proof.
  induction v as [|b|f|z|s|l IH|m IH|m] using dyn_ind; intros H; try done; cbn [no_ints seen] in *; f_equal.
  - induction IH as [|v l Hv _ IHl]; [done|]. cbn [forallb map] in *. apply andb_true_iff in H as [H1 H2]. by rewrite Hv, IHl.
  - induction IH as [|[k v] m Hv _ IHm]; [done|]. cbn [forallb map fst snd] in *. apply andb_true_iff in H as [H1 H2]. by rewrite Hv, IHm.
Qed.

Section fits.
Context `{Crypto} (message : error -> bytes) (wild : float64 -> Z).

Definition case_fits_b (op : bytes) (tc : Test) : bool :=
  let req := mkRequest op (tc_In tc) in
  utf8_b op && dyn_fine_b 1 (DObj (tc_In tc)) && no_ints (DObj (tc_In tc)) && text_fits request_type (request_val req) &&
  match handle message wild req with
  | Some r => dyn_fine_b 1 (DObj (resp_Out r)) && utf8_b (resp_Error r) && utf8_b (resp_Skipped r) && text_fits response_type (response_val r)
  | None => false
  end.

Lemma case_fits_sound op tc : case_fits_b op tc = true -> case_fits message wild op tc.
Proof.
  unfold case_fits_b. intros Hf. apply andb_true_iff in Hf as [Hf Hr]. apply andb_true_iff in Hf as [Hf Ht]. apply andb_true_iff in Hf as [Hf Hi].
  apply andb_true_iff in Hf as [Ho Hd]. apply no_ints_seen in Hi. cbn [seen] in Hi. injection Hi as Hi. split.
  { split; [by apply utf8_str|]. split; [by apply dyn_fine_sound|exact Hi]. }
  split; [intros b; by apply text_fits_sound|]. destruct (handle _ _ _) as [r|]; [|done]. exists r. split; [done|].
  apply andb_true_iff in Hr as [Hr Htr]. apply andb_true_iff in Hr as [Hr Hsk]. apply andb_true_iff in Hr as [Ho' He].
  split; [split; [by apply dyn_fine_sound|split; by apply utf8_str]|]. intros b. by apply text_fits_sound.
Qed.

Lemma groups_fit groups : forallb (fun g => forallb (case_fits_b (g_Op g)) (g_Tests g)) groups = true ->
  Forall (fun g => Forall (case_fits message wild (g_Op g)) (g_Tests g)) groups.
Proof.
  intros Hg. rewrite forallb_forall in Hg. apply Forall_forall. intros g Hin%list_elem_of_In%Hg. rewrite forallb_forall in Hin.
  apply Forall_forall. intros tc Htc%list_elem_of_In%Hin. by apply case_fits_sound.
Qed.
End fits.

(** ** Samples *)

Definition sample_corpus : bytes := json "{'testGroups':[" ++ header_decode_cases ++ json "," ++ nonce_derive_cases ++ json "]}".
Definition sample_value : goval := match Unmarshal Corpus_type sample_corpus with Some v => v | None => GStr [] end.
Definition sample_groups : list Group := cp_TestGroups (Corpus_of sample_value).

Lemma conformance_run_witness :
  exists code report,
    corpus_run sample_corpus =
      (code, reference_results (H := Toy.crypto) (fun _ => str "rejected") (fun _ => 0) (fun r => r) (fun _ => []) sample_groups, report) /\
    (code = 0 \/ code = 1) /\
    (code = 0 <-> Forall (fun g => Forall (fun tc => acceptable_answer (fun r => r) tc
       (reference_answer (H := Toy.crypto) (fun _ => str "rejected") (fun _ => 0) (g_Op g) tc)) (g_Tests g)) sample_groups).
Proof.
  refine (conformance_run (H := Toy.crypto) (fun _ => str "rejected") (fun _ => 0) (fun _ => []) (fun r => r) (fun _ => []) sample_corpus
    (fun _ => Some (Waiting [])) (fun _ => false) (str "npamp-adapter") [] sample_value _ _ _ _).
  - vm_compute. reflexivity.
  - vm_compute. reflexivity.
  - intros n. reflexivity.
  - apply groups_fit. vm_compute. reflexivity.
Defined.

Definition sample_keys : epochKeys := mkKeys 0 (replicate 32 x01) (replicate 12 x02) 7.

Lemma frame_seal_other_aad_witness :
  let f := mkFrame 2 FlagENC 0x100 1 7 [] in
  let seal := fun p n => gcm_seal (Crypto := Toy.crypto) (k_key sample_keys) (Aead.DeriveNonce (k_iv sample_keys) 7) p (HeaderPrefix f n) in
  openWith (H := Toy.crypto) sample_keys (mkFrame 2 FlagENC 0x100 1 7 (seal (str "payload") 7)) = Err ErrCrypto /\
  HeaderPrefix f 7 <> HeaderPrefix f 23.
Proof.
  pose proof (frame_seal_other_aad (H := Toy.crypto) (H0 := Toy.laws) (fun _ => []) (fun _ => 0) sample_keys 1 0x100 (str "payload")
    ltac:(reflexivity) ltac:(reflexivity) ltac:(done) ltac:(done) ltac:(by vm_compute) ltac:(by vm_compute)) as (_ & _ & Hne & _).
  split; [vm_compute; reflexivity|exact Hne].
Defined.
