(* ===== verification/Interop.v ===== *)
(** * The interoperability command (cmd/npamp-interop/main.go)

    The Go side of the two-implementation interop test: the handshake written out once more
    over the exported primitives, on a raw stream, then one application frame and its echo.
    The programs are reads and writes of frames, as in [SdkHandshake]; randomness is an
    argument.  Two programs joined by two streams run to the same end under every schedule. *)

From S2P Require Import Prelude Errors Registry Sha256 Crypto Tlv Frame Aead Kem KeySchedule Transcript.
From S2P Require Import Handshake Cbor ErrorFrame Conn ConnRecv ConnLogic ConnLive ConnSync SdkHandshake HandshakeRuns HandshakeHonest.
From Stdlib Require Import Strings.Byte.
From stdpp Require Import gmap relations.
Open Scope Z_scope.

Definition interop_frame_type : Z := 0x0120.
Definition interop_profile : Z := ProfileStandard.
Definition interop_max : Z := 16 * 2 ^ 20.

(** ** Frames *)

(** [io.ReadFull] of the header, then [io.CopyN] of the payload. *)
Definition raw_readFrame (stream : bytes) : result error bytes * bytes :=
  if blen stream =? 0 then (Err ErrEOF, [])
  else if blen stream <? HeaderSize then (Err ErrUnexpectedEOF, [])
  else
    let header := take 36 stream in
    if negb (bool_decide (slice 0 4 header = Magic)) then (Err ErrBadMagic, drop 36 stream)
    else
      let payloadLen := be_get (slice 17 21 header) in
      let total := HeaderSize + payloadLen in
      if interop_max <? total then (Err ErrFrameOverMax, drop 36 stream)
      else if blen stream <? total then (Err ErrEOF, [])
      else (Ok (take (Z.to_nat total) stream), drop (Z.to_nat total) stream).

Definition raw_writeFrame (w : hwrite) : hs unit := HWrite w (fun io => HDone (if io then Ok tt else Err ErrIO)).

Definition raw_sendCleartext (ft : Z) (payload : bytes) : hs unit :=
  raw_writeFrame (mkHW (MarshalBinary (mkFrame 0 0 ft ChanControl 0 payload)).2 None).

Definition raw_recvCleartext (want : Z) : hs bytes :=
  wire ← hread;
  f ← hlift (UnmarshalBinary wire);
  hlift (check (negb (Type_ f =? want)) ErrWrongFrameType);;
  hlift (check (negb (Z.land (Flags f) FlagENC =? 0)) ErrEncryption);;
  mret (Payload f).

Section programs.
Context `{Crypto}.

Definition raw_deriveKeyIV (base : bytes) (dir channel : Z) : result error (bytes * bytes) :=
  ts ← DeriveTrafficSecret base dir 0 AEADAES256GCM channel interop_profile;
  DeriveKeyIV ts interop_profile.

Definition raw_sealFrame (base : bytes) (dir channel seq ft : Z) (plaintext : bytes) : result error hwrite :=
  '(key, iv) ← raw_deriveKeyIV base dir channel;
  let aad := HeaderPrefix (mkFrame 0 FlagENC ft channel seq []) (u32 (blen plaintext + 16)) in
  sealed ← SealAES256GCM key iv seq aad plaintext;
  Ok (mkHW (MarshalBinary (mkFrame 0 FlagENC ft channel seq sealed)).2 (Some (base, dir, seq))).

Definition raw_openFrame (f : Frame) (base : bytes) (dir : Z) : result error bytes :=
  '(key, iv) ← raw_deriveKeyIV base dir (Channel f);
  let aad := HeaderPrefix f (u32 (blen (Payload f))) in
  OpenAES256GCM key iv (Seq f) aad (Payload f).

Definition openAuth (wire : bytes) (want : Z) (base : bytes) (dir : Z) : result error AuthMessage :=
  f ← UnmarshalBinary wire;
  check (negb (Type_ f =? want)) ErrWrongFrameType;;
  check (Z.land (Flags f) FlagENC =? 0) ErrEncryption;;
  pt ← raw_openFrame f base dir;
  DecodeAuthMessage pt.

Definition sendData (master : bytes) (dir channel ft seq : Z) (payload : bytes) : hs unit :=
  wire ← hlift (raw_sealFrame master dir channel seq ft payload);
  raw_writeFrame wire.

(** Channel, frame type and payload of the next frame. *)
Definition recvData (master : bytes) (dir wantSeq : Z) : hs (Z * Z * bytes) :=
  wire ← hread;
  f ← hlift (UnmarshalBinary wire);
  hlift (check (Z.land (Flags f) FlagENC =? 0) ErrEncryption);;
  hlift (check (negb (Seq f =? wantSeq)) ErrUnexpectedFrame);;
  pt ← hlift (raw_openFrame f master dir);
  mret (Channel f, Type_ f, pt).

(** ** The handshake *)

(** Everything after SERVER_HELLO has been read; [t] holds CLIENT_HELLO. *)
Definition client_rest (kem : KEMClient) (t : Transcript) (priv pub shPayload : bytes) : hs (bytes * bytes) :=
  let p := interop_profile in
  sh ← hlift (DecodeServerHello shPayload);
  let t := AddFrame FrameServerHello (ServerHello_TLVs sh) t in
  ss ← hlift (KEMClient_SharedSecrets kem (sh_KEMCiphertext sh));
  hsec ← hlift (HandshakeSecret ss p);
  '(cHS, sHS) ← hlift (DeriveHandshakeTrafficSecrets hsec (Transcript_Sum t) p);
  saWire ← hread;
  sAuth ← hlift (openAuth saWire FrameServerAuth sHS DirServerToClient);
  let t := AddTLV (mkTLV TLVIdentityKey (IdentityKey sAuth)) (AddFrameType FrameServerAuth t) in
  hlift (VerifyCertVerify (IdentityKey sAuth) RoleServer (Transcript_Sum t) (CertVerify sAuth));;
  let t := AddTLV (mkTLV TLVCertVerify (CertVerify sAuth)) t in
  sFinKey ← hlift (DeriveFinishedKey sHS p);
  hlift (VerifyFinished sFinKey (Transcript_Sum t) (Finished sAuth) p);;
  let t := AddTLV (mkTLV TLVFinished (Finished sAuth)) t in
  let t := AddTLV (mkTLV TLVIdentityKey pub) (AddFrameType FrameClientAuth t) in
  cCV ← hlift (SignCertVerify priv RoleClient (Transcript_Sum t));
  let t := AddTLV (mkTLV TLVCertVerify cCV) t in
  let thCCV := Transcript_Sum t in
  cFinKey ← hlift (DeriveFinishedKey cHS p);
  cFin ← hlift (ComputeFinished cFinKey thCCV p);
  caWire ← hlift (raw_sealFrame cHS DirClientToServer ChanControl 0 FrameClientAuth (AuthMessage_Encode (mkAuth pub cCV cFin)));
  raw_writeFrame caWire;;
  master ← hlift (DeriveMasterSecret hsec thCCV p);
  mret (master, IdentityKey sAuth).

Definition clientHandshake (kem : result error KEMClient) (priv pub : bytes) : hs (bytes * bytes) :=
  let p := interop_profile in
  kem ← hlift kem;
  let ch := mkClientHello [p] [KEMX25519MLKEM768] [SigEd25519] [AEADAES256GCM] (KEMShare kem) in
  t ← hlift (NewTranscript p);
  raw_sendCleartext FrameClientHello (ClientHello_Encode ch);;
  let t := AddFrame FrameClientHello (ClientHello_TLVs ch) t in
  shPayload ← raw_recvCleartext FrameServerHello;
  client_rest kem t priv pub shPayload.

(** Everything after CLIENT_HELLO has been read. *)
Definition server_rest (x rnd : bytes) (t : Transcript) (priv pub chPayload : bytes) : hs (bytes * bytes) :=
  let p := interop_profile in
  ch ← hlift (DecodeClientHello chPayload);
  let t := AddFrame FrameClientHello (ClientHello_TLVs ch) t in
  '(kemCT, ss) ← hlift (Encapsulate (ch_KEMShare ch) x rnd);
  let sh := mkServerHello ProfileStandard KEMX25519MLKEM768 SigEd25519 AEADAES256GCM kemCT in
  raw_sendCleartext FrameServerHello (ServerHello_Encode sh);;
  let t := AddFrame FrameServerHello (ServerHello_TLVs sh) t in
  hsec ← hlift (HandshakeSecret ss p);
  '(cHS, sHS) ← hlift (DeriveHandshakeTrafficSecrets hsec (Transcript_Sum t) p);
  let t := AddTLV (mkTLV TLVIdentityKey pub) (AddFrameType FrameServerAuth t) in
  sCV ← hlift (SignCertVerify priv RoleServer (Transcript_Sum t));
  let t := AddTLV (mkTLV TLVCertVerify sCV) t in
  sFinKey ← hlift (DeriveFinishedKey sHS p);
  sFin ← hlift (ComputeFinished sFinKey (Transcript_Sum t) p);
  let t := AddTLV (mkTLV TLVFinished sFin) t in
  saWire ← hlift (raw_sealFrame sHS DirServerToClient ChanControl 0 FrameServerAuth (AuthMessage_Encode (mkAuth pub sCV sFin)));
  raw_writeFrame saWire;;
  caWire ← hread;
  cAuth ← hlift (openAuth caWire FrameClientAuth cHS DirClientToServer);
  let t := AddTLV (mkTLV TLVIdentityKey (IdentityKey cAuth)) (AddFrameType FrameClientAuth t) in
  hlift (VerifyCertVerify (IdentityKey cAuth) RoleClient (Transcript_Sum t) (CertVerify cAuth));;
  let t := AddTLV (mkTLV TLVCertVerify (CertVerify cAuth)) t in
  let thCCV := Transcript_Sum t in
  cFinKey ← hlift (DeriveFinishedKey cHS p);
  hlift (VerifyFinished cFinKey thCCV (Finished cAuth) p);;
  master ← hlift (DeriveMasterSecret hsec thCCV p);
  mret (master, IdentityKey cAuth).

Definition serverHandshake (x rnd priv pub : bytes) : hs (bytes * bytes) :=
  let p := interop_profile in
  t ← hlift (NewTranscript p);
  chPayload ← raw_recvCleartext FrameClientHello;
  server_rest x rnd t priv pub chPayload.

(** ** The two ends of the test *)

Definition interop_payload : bytes := str "hello from the go interop client".

(** What the server prints: the peer, and channel, type and payload of the frame. *)
Definition runServer (x rnd priv pub : bytes) : hs (bytes * (Z * Z * bytes)) :=
  '(master, peer) ← serverHandshake x rnd priv pub;
  '(channel, ftype, pt) ← recvData master DirClientToServer 0;
  sendData master DirServerToClient channel interop_frame_type 0 pt;;
  mret (peer, (channel, ftype, pt)).

Definition runClient (kem : result error KEMClient) (priv pub : bytes) : hs bytes :=
  '(master, peer) ← clientHandshake kem priv pub;
  sendData master DirClientToServer ChanMemory interop_frame_type 0 interop_payload;;
  '(channel, ftype, echo) ← recvData master DirServerToClient 0;
  hlift (check (negb (bool_decide (echo = interop_payload))) ErrUnexpectedFrame);;
  mret peer.
End programs.

(** The command frames the stream exactly as the SDK does. *)
Lemma raw_readFrame_eq stream : raw_readFrame stream = readFrame stream.
Proof. unfold raw_readFrame, readFrame. by replace interop_max with maxFrameSize by (by vm_compute). Qed.

(** ** Two programs joined by streams *)

Section net.
Context {A B : Type}.

Record net : Type := mkNet {
  n_cl : hs A;
  n_sv : hs B;
  n_c2s : bytes;
  n_s2c : bytes
}.

Inductive net_step : net -> net -> Prop :=
| net_client_write w k s a b : net_step (mkNet (HWrite w k) s a b) (mkNet (k true) s (a ++ hw_wire w) b)
| net_client_read k s a b w b' :
    raw_readFrame b = (Ok w, b') -> net_step (mkNet (HRead k) s a b) (mkNet (k (Ok w)) s a b')
| net_server_write w k c a b : net_step (mkNet c (HWrite w k) a b) (mkNet c (k true) a (b ++ hw_wire w))
| net_server_read k c a b w a' :
    raw_readFrame a = (Ok w, a') -> net_step (mkNet c (HRead k) a b) (mkNet c (k (Ok w)) a' b).

Lemma raw_readFrame_app a w a' x : raw_readFrame a = (Ok w, a') -> raw_readFrame (a ++ x) = (Ok w, a' ++ x).
Proof.
  unfold raw_readFrame. intros Hr. destruct (blen a =? 0) eqn:H0; [done|]. destruct (blen a <? HeaderSize) eqn:H1; [done|].
  apply Z.eqb_neq in H0. apply Z.ltb_ge in H1. unfold HeaderSize in H1. pose proof (blen_nonneg x) as Hx. rewrite blen_app.
  rewrite (proj2 (Z.eqb_neq _ _)), (proj2 (Z.ltb_ge _ HeaderSize)) by (unfold HeaderSize; lia).
  assert (take 36 (a ++ x) = take 36 a) as Ht by (apply take_app_le; unfold blen in H1; lia). rewrite Ht.
  destruct (negb _); [done|]. pose proof (be_get_range (slice 17 21 (take 36 a))) as Hg. set (total := HeaderSize + _) in *.
  destruct (interop_max <? total); [done|]. destruct (blen a <? total) eqn:H3; [done|]. apply Z.ltb_ge in H3. injection Hr as <- <-.
  rewrite (proj2 (Z.ltb_ge _ total)) by lia. unfold HeaderSize in total.
  rewrite take_app_le, drop_app_le by (unfold blen in *; lia). done.
Qed.

(** Different steps from one state are steps of different sides, and commute. *)
Lemma net_diamond s s1 s2 : net_step s s1 -> net_step s s2 -> s1 = s2 \/ exists s', net_step s1 s' /\ net_step s2 s'.
Proof.
  intros H1 H2. destruct H1 as [w k s a b|k s a b w b' Hr|w k c a b|k c a b w a' Hr]; inversion H2; subst; clear H2;
    try (left; congruence); right; eexists; (split; constructor); first [eassumption|by apply raw_readFrame_app].
Qed.

Definition settled_net (f : net) : Prop := forall s, ~ net_step f s.

Lemma net_strip n : forall s t f, settled_net f -> net_step s t -> nsteps net_step (S n) s f -> nsteps net_step n t f.
Proof.
  induction n as [|n IH]; intros s t f Hf Hst Hn; inversion Hn as [|? ? u ? Hu Hr]; subst; destruct (net_diamond s t u Hst Hu) as [->|(v & Hv1 & Hv2)].
  - exact Hr.
  - inversion Hr; subst. by apply Hf in Hv2.
  - exact Hr.
  - apply nsteps_l with v; [exact Hv1|]. by apply (IH u).
Qed.

(** One schedule that ends decides them all. *)
Lemma every_net_schedule n s f : settled_net f -> nsteps net_step n s f ->
  forall k t, nsteps net_step k s t -> (k <= n)%nat /\ nsteps net_step (n - k) t f /\ (k = n -> t = f).
Proof.
  intros Hf Hn k. revert n s Hn. induction k as [|k IH]; intros n s Hn t Hk; inversion Hk as [|? ? u ? Hu Hr]; subst.
  - split; [lia|]. rewrite Nat.sub_0_r. split; [exact Hn|]. intros <-. by inversion Hn.
  - destruct n as [|n]; [inversion Hn; subst; by apply Hf in Hu|]. pose proof (net_strip n s u f Hf Hu Hn) as Hn'.
    destruct (IH n u Hn' t Hr) as (H1 & H2 & H3). split; [lia|]. split; [done|]. intros [= ->]. by apply H3.
Qed.
End net.
#[global] Arguments net : clear implicits.

Lemma done_settled {A B} (r : result error A) (q : result error B) a b : settled_net (mkNet (HDone r) (HDone q) a b).
Proof. intros s H. inversion H. Qed.

Lemma raw_read_whole w : readable w -> raw_readFrame w = (Ok w, []).
Proof. intros Hw. rewrite raw_readFrame_eq, <- (app_nil_r w) at 1. apply Hw. Qed.

(** A client and a server that exchange four frames and go on as [e]. *)
Definition client_runs {A} (chW shW saW caW : hwrite) (p e : hs A) : Prop :=
  exists k0 k1 k2 k3, p = HWrite chW k0 /\ k0 true = HRead k1 /\ k1 (Ok (hw_wire shW)) = HRead k2 /\
    k2 (Ok (hw_wire saW)) = HWrite caW k3 /\ k3 true = e.

Definition server_runs {A} (chW shW saW caW : hwrite) (p e : hs A) : Prop :=
  exists j0 j1 j2 j3, p = HRead j0 /\ j0 (Ok (hw_wire chW)) = HWrite shW j1 /\ j1 true = HWrite saW j2 /\ j2 true = HRead j3 /\
    j3 (Ok (hw_wire caW)) = e.

Lemma client_runs_bind {A B} chW shW saW caW (p : hs A) v (f : A -> hs B) :
  client_runs chW shW saW caW p (HDone (Ok v)) -> client_runs chW shW saW caW (p ≫= f) (f v).
Proof.
  intros (k0 & k1 & k2 & k3 & -> & H0 & H1 & H2 & H3). eexists (fun io => k0 io ≫= f), (fun r => k1 r ≫= f), (fun r => k2 r ≫= f), (fun io => k3 io ≫= f).
  rewrite H0, H1, H2, H3. done.
Qed.

Lemma server_runs_bind {A B} chW shW saW caW (p : hs A) v (f : A -> hs B) :
  server_runs chW shW saW caW p (HDone (Ok v)) -> server_runs chW shW saW caW (p ≫= f) (f v).
Proof.
  intros (j0 & j1 & j2 & j3 & -> & H0 & H1 & H2 & H3). eexists (fun r => j0 r ≫= f), (fun io => j1 io ≫= f), (fun io => j2 io ≫= f), (fun r => j3 r ≫= f).
  rewrite H0, H1, H2, H3. done.
Qed.

(** The exchange as one schedule. *)
Lemma net_handshake {A B} (pC eC : hs A) (pS eS : hs B) chW shW saW caW :
  readable (hw_wire chW) -> readable (hw_wire shW) -> readable (hw_wire saW) -> readable (hw_wire caW) ->
  client_runs chW shW saW caW pC eC -> server_runs chW shW saW caW pS eS ->
  nsteps net_step 8 (mkNet pC pS [] []) (mkNet eC eS [] []).
Proof.
  intros Rch Rsh Rsa Rca (k0 & k1 & k2 & k3 & -> & Hk0 & Hk1 & Hk2 & Hk3) (j0 & j1 & j2 & j3 & -> & Hj0 & Hj1 & Hj2 & Hj3).
  eapply nsteps_l; [apply net_client_write|]; cbn [app]; rewrite Hk0.
  eapply nsteps_l; [apply net_server_read; by apply raw_read_whole|]. rewrite Hj0.
  eapply nsteps_l; [apply net_server_write|]; cbn [app]; rewrite Hj1.
  eapply nsteps_l; [apply net_client_read; by apply raw_read_whole|]. rewrite Hk1.
  eapply nsteps_l; [apply net_server_write|]; cbn [app]; rewrite Hj2.
  eapply nsteps_l; [apply net_client_read; by apply raw_read_whole|]. rewrite Hk2.
  eapply nsteps_l; [apply net_client_write|]; cbn [app]; rewrite Hk3.
  eapply nsteps_l; [apply net_server_read; by apply raw_read_whole|]. rewrite Hj3. constructor.
Qed.

(** ** The programs along the exchange *)

Lemma openAuth_ok `{Crypto} wire ft bs dir am : openAuthFrame wire ft bs dir ProfileStandard = inl am -> openAuth wire ft bs dir = Ok am.
Proof.
  unfold openAuthFrame, openAuth. destruct (UnmarshalBinary wire) as [f|e]; [|done]. cbn [mbind result_bind].
  destruct (negb (Type_ f =? ft)); [done|]. cbn [check mbind result_bind]. destruct (Z.land (Flags f) FlagENC =? 0); [done|]. cbn [check mbind result_bind].
  change (raw_openFrame f bs dir) with (openFrame f bs dir ProfileStandard). destruct (openFrame f bs dir ProfileStandard) as [pt|e]; [|done]. cbn [mbind result_bind].
  destruct (DecodeAuthMessage pt); [by intros [= ->]|done].
Qed.

Lemma recv_hello {B} ft pl (f : bytes -> hs B) : is_u16 ft -> blen pl < 2 ^ 23 ->
  exists k, raw_recvCleartext ft ≫= f = HRead k /\ k (Ok (hw_wire (cleartext ft pl))) = f pl.
Proof. intros Hft Hpl. destruct (recv_cases ft f Hft) as (k & Hk & Hp & _). exists k. split; [exact Hk|by apply Hp]. Qed.

Section exchange.
Context `{CryptoLaws}.
Context (privC privS seed xk x rnd ct : bytes) (kem : KEMClient) (ss : SharedSecrets).
Context (Hkem : NewKEMClient seed xk = Ok kem) (Hrec : mlkem_recovers seed rnd)
  (Henc : Encapsulate (KEMShare kem) x rnd = Ok (ct, ss)).

Abbreviation pubC := (ed25519_public privC).
Abbreviation pubS := (ed25519_public privS).
Definition interop_idC : localIdentity := stdIdentity privC (ed25519_public privC).
Definition interop_idS : localIdentity := stdIdentity privS (ed25519_public privS).

Lemma std_identity_ok priv : identity_ok (stdIdentity priv (ed25519_public priv)) priv.
Proof. by split. Qed.

Abbreviation chW := (ch_wire interop_idC kem).
Abbreviation shW := (sh_wire ct).
Abbreviation good := (exchange_ok interop_idC interop_idS ct kem ss).

Lemma transcript_points : exists t, NewTranscript ProfileStandard = Ok t /\
  AddFrame FrameServerHello (ServerHello_TLVs (hello_s ct)) (AddFrame FrameClientHello (ClientHello_TLVs (hello_c interop_idC kem)) t)
  = point_hello interop_idC ct kem.
Proof.
  pose proof (hello_transcript interop_idC ct kem) as Ht. unfold helloTranscript in Ht. apply bind_Ok in Ht as (t & Ht & Htp). exists t. split; [exact Ht|].
  apply (f_equal (fun r => match r with Ok a => a | Err _ => t end)) in Htp. exact Htp.
Qed.

Lemma interop_client_script e : good e ->
  client_runs chW shW (x_sa e) (x_ca e) (clientHandshake (Ok kem) privC pubC) (HDone (Ok (x_master e, pubS))).
Proof.
  intros He. destruct transcript_points as (t & Ht & Htp).
  destruct (server_hello_ok ct (Encapsulate_size _ _ _ _ _ Henc)) as [Hsd Hsl]. fold (hello_s ct) in Hsd, Hsl.
  set (rest := client_rest kem (AddFrame FrameClientHello (ClientHello_TLVs (hello_c interop_idC kem)) t) privC pubC).
  destruct (recv_hello FrameServerHello (ServerHello_Encode (hello_s ct)) rest) as (k1 & Hk1 & Hp); [by vm_compute|exact Hsl|].
  destruct (xo_server _ _ _ _ _ e He) as [sign1 verify1 key1 fin1 mac1 seal1 read1 size1 open1].
  destruct (xo_client _ _ _ _ _ e He) as [sign2 verify2 key2 fin2 mac2 seal2 read2 size2 open2].
  eexists _, k1, _, _. split.
  { unfold clientHandshake. rewrite (bind_lift (Ok kem) kem) by reflexivity. rewrite (bind_lift _ _ _ Ht). reflexivity. }
  fold (sh_wire ct) in Hp. split; [exact Hk1|]. rewrite Hp. unfold rest, client_rest. rewrite (bind_lift _ _ _ Hsd). cbv zeta. rewrite Htp. change (sh_KEMCiphertext (hello_s ct)) with ct.
  rewrite (bind_lift _ _ _ (kem_agreement seed xk kem x rnd ct ss Hkem Hrec Henc)).
  rewrite (bind_lift _ _ _ (xo_hsec _ _ _ _ _ e He)), (bind_lift _ _ _ (xo_keys _ _ _ _ _ e He)).
  split; [reflexivity|]. cbn beta iota. rewrite (bind_lift _ _ _ (openAuth_ok _ _ _ _ _ open1)). cbn [IdentityKey CertVerify Finished].
  rewrite (bind_lift _ _ _ verify1), (bind_lift _ _ _ key1), (bind_lift _ _ _ mac1), (bind_lift _ _ _ sign2), (bind_lift _ _ _ key2), (bind_lift _ _ _ fin2).
  rewrite (bind_lift _ _ _ seal2). split; [reflexivity|]. cbv beta iota.
  by rewrite (bind_lift _ _ _ (xo_master _ _ _ _ _ e He)).
Qed.

Lemma interop_server_script e : good e ->
  server_runs chW shW (x_sa e) (x_ca e) (serverHandshake x rnd privS pubS) (HDone (Ok (x_master e, pubC))).
Proof.
  intros He. destruct transcript_points as (t & Ht & Htp).
  destruct (client_hello_ok interop_idC privC kem (std_identity_ok privC)) as (_ & Hcd & Hcl). fold (hello_c interop_idC kem) in Hcd, Hcl.
  set (rest := server_rest x rnd t privS pubS).
  destruct (recv_hello FrameClientHello (ClientHello_Encode (hello_c interop_idC kem)) rest) as (j0 & Hj0 & Hp); [by vm_compute|exact Hcl|].
  destruct (xo_server _ _ _ _ _ e He) as [sign1 verify1 key1 fin1 mac1 seal1 read1 size1 open1].
  destruct (xo_client _ _ _ _ _ e He) as [sign2 verify2 key2 fin2 mac2 seal2 read2 size2 open2].
  eexists j0, _, _, _. split.
  { unfold serverHandshake. rewrite (bind_lift _ _ _ Ht). exact Hj0. }
  fold (ch_wire interop_idC kem) in Hp. rewrite Hp. unfold rest, server_rest. rewrite (bind_lift _ _ _ Hcd).
  change (ch_KEMShare (hello_c interop_idC kem)) with (KEMShare kem). cbv zeta. rewrite (bind_lift _ _ _ Henc). cbv beta iota.
  change (mkServerHello ProfileStandard KEMX25519MLKEM768 SigEd25519 AEADAES256GCM ct) with (hello_s ct). rewrite Htp.
  split; [reflexivity|]. cbv beta iota.
  rewrite (bind_lift _ _ _ (xo_hsec _ _ _ _ _ e He)), (bind_lift _ _ _ (xo_keys _ _ _ _ _ e He)). cbv beta iota.
  rewrite (bind_lift _ _ _ sign1), (bind_lift _ _ _ key1), (bind_lift _ _ _ fin1), (bind_lift _ _ _ seal1).
  split; [reflexivity|]. split; [reflexivity|]. cbv beta iota. rewrite (bind_lift _ _ _ (openAuth_ok _ _ _ _ _ open2)). cbn [IdentityKey CertVerify Finished].
  rewrite (bind_lift _ _ _ verify2), (bind_lift _ _ _ key2), (bind_lift _ _ _ mac2). by rewrite (bind_lift _ _ _ (xo_master _ _ _ _ _ e He)).
Qed.

(** A data frame is written whole and received as it was sent. *)
Lemma data_frame master dir ch ft pt : is_u16 ch -> is_u16 ft -> blen pt < 2 ^ 20 ->
  exists w, readable (hw_wire w) /\
    (forall B (f : unit -> hs B), exists k, sendData master dir ch ft 0 pt ≫= f = HWrite w k /\ k true = f tt) /\
    (forall B (f : Z * Z * bytes -> hs B), exists k, recvData master dir 0 ≫= f = HRead k /\ k (Ok (hw_wire w)) = f (ch, ft, pt)).
Proof.
  intros Hch Hft Hpt. destruct (frame_sealed master dir ch 0 ft pt Hch Hft) as (w & g & Hw & Hr & _ & Hu & Ht & Hc & Hq & Hf & Ho); [by vm_compute|exact Hpt|].
  exists w. split; [exact Hr|]. split; intros B f; eexists.
  - unfold sendData. change (raw_sealFrame master dir ch 0 ft pt) with (sealFrame master dir ch 0 ft pt ProfileStandard).
    rewrite (bind_lift _ _ _ Hw). split; reflexivity.
  - split; [reflexivity|]. cbv beta iota. rewrite (bind_lift _ _ _ Hu), Hf, Hq. change (Z.land FlagENC FlagENC =? 0) with false. cbn [negb check].
    rewrite Z.eqb_refl. cbn [negb]. rewrite !(bind_lift (Ok tt) tt) by reflexivity. change (raw_openFrame g master dir) with (openFrame g master dir ProfileStandard).
    rewrite (bind_lift _ _ _ Ho), Hc, Ht. reflexivity.
Qed.

Lemma exchange_readable e : good e ->
  readable (hw_wire chW) /\ readable (hw_wire shW) /\ readable (hw_wire (x_sa e)) /\ readable (hw_wire (x_ca e)).
Proof.
  intros He. destruct (client_hello_ok interop_idC privC kem (std_identity_ok privC)) as (_ & _ & Hcl). fold (hello_c interop_idC kem) in Hcl.
  destruct (server_hello_ok ct (Encapsulate_size _ _ _ _ _ Henc)) as [_ Hsl]. fold (hello_s ct) in Hsl.
  assert (is_u16 FrameClientHello /\ is_u16 FrameServerHello) as [U1 U2] by (clear; by vm_compute).
  split; [exact (cleartext_readable FrameClientHello (ClientHello_Encode (hello_c interop_idC kem)) U1 Hcl)|].
  split; [exact (cleartext_readable FrameServerHello (ServerHello_Encode (hello_s ct)) U2 Hsl)|].
  split; [apply (xo_server _ _ _ _ _ e He)|apply (xo_client _ _ _ _ _ e He)].
Qed.

Lemma interop_steps : nsteps net_step 12
  (mkNet (runClient (Ok kem) privC pubC) (runServer x rnd privS pubS) [] [])
  (mkNet (HDone (Ok pubS)) (HDone (Ok (pubC, (ChanMemory, interop_frame_type, interop_payload)))) [] []).
Proof.
  destruct (exchange_exists interop_idC interop_idS privC privS ct kem ss (std_identity_ok privC) (std_identity_ok privS)) as [e He].
  destruct (exchange_readable e He) as (R1 & R2 & R3 & R4).
  destruct (data_frame (x_master e) DirClientToServer ChanMemory interop_frame_type interop_payload) as (w1 & Rw1 & Hs1 & Hr1); [by vm_compute..|].
  destruct (data_frame (x_master e) DirServerToClient ChanMemory interop_frame_type interop_payload) as (w2 & Rw2 & Hs2 & Hr2); [by vm_compute..|].
  change 12%nat with (8 + 4)%nat. eapply nsteps_trans; [eapply net_handshake; [exact R1|exact R2|exact R3|exact R4|apply client_runs_bind, (interop_client_script e He)|apply server_runs_bind, (interop_server_script e He)]|].
  cbv beta iota.
  destruct (Hs1 _ (fun _ => '(_, _, echo) ← recvData (x_master e) DirServerToClient 0;
    hlift (check (negb (bool_decide (echo = interop_payload))) ErrUnexpectedFrame);; (mret pubS : hs bytes))) as (k & Hk & Hk').
  destruct (Hr1 _ (fun '(channel, ftype, pt) => sendData (x_master e) DirServerToClient channel interop_frame_type 0 pt;;
    (mret (pubC, (channel, ftype, pt)) : hs (bytes * (Z * Z * bytes))))) as (j & Hj & Hj').
  rewrite Hk, Hj. eapply nsteps_l; [apply net_client_write|]; cbn [app]; rewrite Hk'. eapply nsteps_l; [apply net_server_read; by apply raw_read_whole|]. rewrite Hj'.
  destruct (Hr2 _ (fun '(_, _, echo) => hlift (check (negb (bool_decide (echo = interop_payload))) ErrUnexpectedFrame);; (mret pubS : hs bytes))) as (k2 & Hk2 & Hk2').
  destruct (Hs2 _ (fun _ => (mret (pubC, (ChanMemory, interop_frame_type, interop_payload)) : hs (bytes * (Z * Z * bytes))))) as (j2 & Hj2 & Hj2').
  rewrite Hk2, Hj2. eapply nsteps_l; [apply net_server_write|]; cbn [app]; rewrite Hj2'. eapply nsteps_l; [apply net_client_read; by apply raw_read_whole|]. rewrite Hk2'.
  constructor.
Qed.

(** C18: The interop command works with itself and with the SDK.  For any identities and any
    KEM randomness that decapsulates, under every schedule of reads and writes: the
    command's client and server end after exactly twelve steps, the client having verified
    the echo of its message and both having authenticated each other, the server having
    received the message on the Memory channel; the command's client completes the
    handshake with the SDK's server, and the SDK's client with the command's server, after
    exactly eight steps with one master secret. *)
Theorem interop_compatible pinC pinS :
  pinC = None \/ pinC = Some pubS -> pinS = None \/ pinS = Some pubC ->
  (forall k st, nsteps net_step k (mkNet (runClient (Ok kem) privC pubC) (runServer x rnd privS pubS) [] []) st ->
     let f := mkNet (HDone (Ok pubS)) (HDone (Ok (pubC, (ChanMemory, interop_frame_type, interop_payload)))) [] [] in
     (k <= 12)%nat /\ nsteps net_step (12 - k) st f /\ (k = 12%nat -> st = f)) /\
  exists master,
    (forall k st, nsteps net_step k (mkNet (clientHandshake (Ok kem) privC pubC) (runServerHandshake interop_idS pinS x rnd) [] []) st ->
       let f := mkNet (HDone (Ok (master, pubS))) (HDone (Ok (master, pubC, ProfileStandard))) [] [] in
       (k <= 8)%nat /\ nsteps net_step (8 - k) st f /\ (k = 8%nat -> st = f)) /\
    (forall k st, nsteps net_step k (mkNet (runClientHandshake interop_idC pinC (Ok kem)) (serverHandshake x rnd privS pubS) [] []) st ->
       let f := mkNet (HDone (Ok (master, pubS, ProfileStandard))) (HDone (Ok (master, pubC))) [] [] in
       (k <= 8)%nat /\ nsteps net_step (8 - k) st f /\ (k = 8%nat -> st = f)).
Proof.
  intros HpC HpS. split; [apply (every_net_schedule 12); [apply done_settled|exact interop_steps]|].
  destruct (exchange_exists interop_idC interop_idS privC privS ct kem ss (std_identity_ok privC) (std_identity_ok privS)) as [e He].
  destruct (exchange_readable e He) as (R1 & R2 & R3 & R4). exists (x_master e).
  pose proof (client_script interop_idC interop_idS privC pinC seed xk x rnd ct kem ss (std_identity_ok privC) Hkem Hrec Henc HpC e He) as HC.
  pose proof (server_script interop_idC interop_idS privC privS pinS x rnd ct kem ss (std_identity_ok privC) (std_identity_ok privS) Henc HpS e He) as HS.
  split; apply (every_net_schedule 8); try apply done_settled.
  - apply (net_handshake _ _ _ _ _ _ _ _ R1 R2 R3 R4); [exact (interop_client_script e He)|exact HS].
  - apply (net_handshake _ _ _ _ _ _ _ _ R1 R2 R3 R4); [exact HC|exact (interop_server_script e He)].
Qed.
End exchange.

(** The command does not check what the server selected: where the SDK's client refuses a
    SERVER_HELLO whose selections it did not offer, the command's client goes on to wait
    for SERVER_AUTH, under the Standard profile. *)
Lemma interop_ignores_selections `{CryptoLaws} priv pub kem sh ss :
  server_hello_wf sh -> blen (ServerHello_Encode sh) < 2 ^ 23 -> KEMClient_SharedSecrets kem (sh_KEMCiphertext sh) = Ok ss ->
  exists k0 k1 k2, clientHandshake (Ok kem) priv pub = HWrite (cleartext FrameClientHello (ClientHello_Encode (clientHello [ProfileStandard] kem))) k0 /\
    k0 true = HRead k1 /\ k1 (Ok (hw_wire (cleartext FrameServerHello (ServerHello_Encode sh)))) = HRead k2.
Proof.
  intros Hwf Hsz Hss. assert (exists t, NewTranscript ProfileStandard = Ok t) as [t Ht] by (unfold NewTranscript; rewrite standard_hash; by eexists).
  destruct (recv_hello FrameServerHello (ServerHello_Encode sh)
    (client_rest kem (AddFrame FrameClientHello (ClientHello_TLVs (clientHello [ProfileStandard] kem)) t) priv pub)) as (k1 & Hk1 & Hp);
    [clear; by vm_compute|exact Hsz|].
  destruct (secret_standard ss) as [hsec Hh].
  destruct (handshake_secrets_standard hsec (Transcript_Sum (AddFrame FrameServerHello (ServerHello_TLVs sh)
    (AddFrame FrameClientHello (ClientHello_TLVs (clientHello [ProfileStandard] kem)) t)))) as (cHS & sHS & Hk). eexists _, k1, _. split.
  { unfold clientHandshake. rewrite (bind_lift (Ok kem) kem) by reflexivity. rewrite (bind_lift _ _ _ Ht). reflexivity. }
  split; [exact Hk1|]. rewrite Hp. unfold client_rest. rewrite (bind_lift _ _ _ (decode_server_hello sh Hwf)). cbv zeta.
  rewrite (bind_lift _ _ _ Hss), (bind_lift _ _ _ Hh), (bind_lift _ _ _ Hk). reflexivity.
Qed.

(** ** A concrete run *)

Lemma interop_compatible_witness :
  nsteps net_step 12
    (mkNet (runClient (H := Toy.crypto) (Ok sample_kem) (str "client key") (edPub sample_client))
       (runServer (H := Toy.crypto) sample_x sample_rnd (str "server key") (edPub sample_server)) [] [])
    (mkNet (HDone (Ok (edPub sample_server)))
       (HDone (Ok (edPub sample_client, (ChanMemory, interop_frame_type, interop_payload)))) [] []).
Proof.
  destruct sample_ready as (_ & _ & Hk & Hr & He).
  destruct (interop_compatible (H := Toy.crypto) (H0 := Toy.laws) (str "client key") (str "server key") sample_seed sample_x sample_x sample_rnd _ sample_kem _
    Hk Hr He None None (or_introl eq_refl) (or_introl eq_refl)) as (Hall & _).
  apply (Hall 0%nat). constructor.
Defined.
