(* ===== verification/Commands.v ===== *)
(** * Commands (cmd/n-pamp-firewall, n-pamp-relay, npamp-kat, npamp-vectors, n-pamp-proxy)

    What the commands compute before and around the packages they run: the firewall's
    policy from its flags, the known-answer test over the AES-256-GCM vectors, the vectors
    for the other implementations, and the role and pin of the proxy.  Listening, dialing and printing are left out; the connections a
    command accepts are the sources of the relay it runs. *)

From S2P Require Import Prelude Errors Registry Frame Crypto Aead Relay WireValidator RegistryData RegistryMatch Firewall Json JsonAny SchemaVersion Discovery Conform.
From Stdlib Require Import Strings.Byte.
From stdpp Require Import gmap relations.
Open Scope Z_scope.

(** [strings.SplitN(s, sep, 2)] for a separator of one octet. *)
Fixpoint cut_once (sep : byte) (s : bytes) : option (bytes * bytes) :=
  match s with
  | [] => None
  | c :: s => if oct c sep then Some ([], s) else '(a, b) ← cut_once sep s; Some (c :: a, b)
  end.

(** ** The firewall *)

Inductive command_error : Type :=
| badDenyChannel (raw : bytes)
| badDenyFrameType (raw : bytes)
| loadFailed (e : werror)
| wrapFailed.

Definition parseUint16 (tok : bytes) : option Z :=
  v ← ParseUint (TrimSpace tok);
  if v <? 2 ^ 16 then Some v else None.

Definition denied_channel_reason : bytes := str "denied by -deny-channel".
Definition denied_type_reason : bytes := str "denied by -deny-frame-type".

Definition parse_pair (raw : bytes) : option (Z * Z) :=
  '(c, t) ← cut_once x3a raw;
  ch ← parseUint16 c;
  ft ← parseUint16 t;
  Some (ch, ft).

Fixpoint deny_channels (raws : list bytes) (m : gmap Z bytes) : result command_error (gmap Z bytes) :=
  match raws with
  | [] => Ok m
  | raw :: raws =>
      match parseUint16 raw with
      | None => Err (badDenyChannel raw)
      | Some id => deny_channels raws (<[id := denied_channel_reason]> m)
      end
  end.

Fixpoint deny_types (raws : list bytes) (m : gmap (Z * Z) bytes) : result command_error (gmap (Z * Z) bytes) :=
  match raws with
  | [] => Ok m
  | raw :: raws =>
      match parse_pair raw with
      | None => Err (badDenyFrameType raw)
      | Some p => deny_types raws (<[p := denied_type_reason]> m)
      end
  end.

Definition buildPolicy (denyChannels denyFrameTypes : list bytes) : result command_error ChannelPolicy :=
  ch ← deny_channels denyChannels ∅;
  ft ← deny_types denyFrameTypes ∅;
  Ok (mkPolicy ch ft).

(** The relay the command runs, over the registry files it finds. *)
Definition firewall_main (files : registry_files) (maxFrameSize : Z) (denyChannels denyFrameTypes : list bytes)
    : result command_error (@Firewall PolicyRejectError * Registries * @Relay (hook_error PolicyRejectError)) :=
  reg ← match Load files with Ok reg => Ok reg | Err e => Err (loadFailed e) end;
  policy ← buildPolicy denyChannels denyFrameTypes;
  let fw := mkFirewall (Some reg) (Some (ChannelPolicy_Decide policy)) in
  match Wrap fw (u32 maxFrameSize) with
  | Some r => Ok (fw, reg, r)
  | None => Err wrapFailed
  end.

(** The relay of cmd/n-pamp-relay, which has no hook. *)
Definition relay_main {E} (maxFrameSize : Z) : @Relay E := mkRelay None (u32 maxFrameSize).

(** ** Known answers *)

Definition hexToKey (s : bytes) : option bytes :=
  match DecodeHex s with (b, true) => if blen b =? 32 then Some b else None | _ => None end.

Definition hexToIV (s : bytes) : option bytes :=
  match DecodeHex s with (b, true) => if blen b =? 12 then Some b else None | _ => None end.

Definition hex_field (s : bytes) : option bytes := match DecodeHex s with (b, true) => Some b | _ => None end.

Inductive kat_reason : Type := sealErrored | encryptMismatch | decryptErrored | decryptMismatch | acceptedInvalid | wrongPlaintext.

Fixpoint trim_cr (s : bytes) : bytes := match s with c :: s' => if oct c x0d then trim_cr s' else s | [] => [] end.

Section kat.
Context `{Crypto}.

(** One vector, [None] when it behaves as labelled. *)
Definition kat_vector (result key iv aad msg sealed : bytes) : option kat_reason :=
  if bool_decide (result = str "valid") then
    match SealAES256GCM key iv 0 aad msg with
    | Err _ => Some sealErrored
    | Ok got =>
        if negb (bool_decide (got = sealed)) then Some encryptMismatch
        else match OpenAES256GCM key iv 0 aad sealed with
             | Err _ => Some decryptErrored
             | Ok pt => if negb (bool_decide (pt = msg)) then Some decryptMismatch else None
             end
    end
  else if bool_decide (result = str "invalid") then
    match OpenAES256GCM key iv 0 aad sealed with Ok _ => Some acceptedInvalid | Err _ => None end
  else
    match OpenAES256GCM key iv 0 aad sealed with
    | Ok pt => if negb (bool_decide (pt = msg)) then Some wrongPlaintext else None
    | Err _ => None
    end.

(** A line: [Some None] for one passed over; the vector's label, id and outcome; [None] ends the command. *)
Definition kat_line (line : bytes) : option (option (bytes * bytes * option kat_reason)) :=
  let line := rev (trim_cr (rev line)) in
  if bool_decide (line = []) || bool_decide (take 1 line = str "#") then Some None
  else
    match Discovery.split x09 line with
    | [tc; result; keyHex; ivHex; aadHex; msgHex; ctHex; tagHex] =>
        key ← hexToKey keyHex; iv ← hexToIV ivHex; aad ← hex_field aadHex; msg ← hex_field msgHex; ct ← hex_field ctHex; tag ← hex_field tagHex;
        Some (Some (tc, result, kat_vector result key iv aad msg (ct ++ tag)))
    | _ => None
    end.

Fixpoint kat_lines (lines : list bytes) : option (list (bytes * bytes * option kat_reason)) :=
  match lines with
  | [] => Some []
  | l :: lines => r ← kat_line l; rs ← kat_lines lines; Some (match r with Some v => v :: rs | None => rs end)
  end.

(** The exit code. *)
Definition kat_main (file : option bytes) : Z :=
  match file with
  | None => 1
  | Some raw =>
      match kat_lines (Discovery.split x0a raw) with
      | None => 1
      | Some rs => if forallb (fun r => bool_decide (r.2 = None)) rs && (0 <? blen rs) then 0 else 1
      end
  end.

(** ** Vectors *)

Definition counted (first : Z) (n : nat) : bytes := map (fun i => z2b (first + Z.of_nat i)) (seq 0 n).

Definition vector_frame : Frame := mkFrame 0 0 FramePing ChanControl 0 [].

(** The members printed: name and value. *)
Definition vectors_main : list (bytes * bytes) :=
  let hdr := (MarshalBinary vector_frame).2 in
  let n := DeriveNonce (counted 1 12) 0x0102030405060708 in
  let aad := HeaderPrefix vector_frame 11 in
  let sealed := match SealAES256GCM (counted 0 32) (counted 0x10 12) 7 aad (str "hello world") with Ok b => b | Err _ => [] end in
  [(str "spec", str "draft-bubblefish-npamp-00"); (str "header_ping_control_seq0", hex_encode hdr);
   (str "nonce_iv1to12_seq0102", hex_encode n); (str "aes256gcm_seal_helloworld", hex_encode sealed)].
End kat.

(** What the vectors pin: the frame of a PING and the nonce are computed, and the sealed one
    has the associated data of a frame with a payload of 11 octets, not of the 27 it takes. *)
Lemma vectors_pinned `{Crypto} :
  exists sealed, vectors_main =
    [(str "spec", str "draft-bubblefish-npamp-00");
     (str "header_ping_control_seq0", str "4e50414d20000100000000000000000000000000000d880c250000000000000000000000");
     (str "nonce_iv1to12_seq0102", str "010203040404040c0c0c0c04"); (str "aes256gcm_seal_helloworld", hex_encode sealed)] /\
    sealed = gcm_seal (counted 0 32) (DeriveNonce (counted 0x10 12) 7) (str "hello world") (HeaderPrefix vector_frame 11) /\
    HeaderPrefix vector_frame 11 <> HeaderPrefix vector_frame (u32 (blen (str "hello world") + 16)).
Proof.
  eexists. split; [|split; [reflexivity|by vm_compute]]. unfold vectors_main. cbn [SealAES256GCM].
  assert (hex_encode (MarshalBinary vector_frame).2 = str "4e50414d20000100000000000000000000000000000d880c250000000000000000000000") as -> by (vm_compute; reflexivity).
  assert (hex_encode (DeriveNonce (counted 1 12) 0x0102030405060708) = str "010203040404040c0c0c0c04") as -> by (vm_compute; reflexivity).
  reflexivity.
Qed.

(** With a working AES-256-GCM, a vector labelled valid behaves as labelled exactly when it
    holds what is sealed, one labelled invalid exactly when no plaintext seals to it. *)
Lemma kat_vector_iff `{CryptoLaws} key iv aad msg sealed :
  (kat_vector (str "valid") key iv aad msg sealed = None <-> sealed = gcm_seal key (DeriveNonce iv 0) msg aad) /\
  (kat_vector (str "invalid") key iv aad msg sealed = None <-> forall p, sealed <> gcm_seal key (DeriveNonce iv 0) p aad).
Proof.
  split.
  - change (kat_vector (str "valid") key iv aad msg sealed) with
      (if negb (bool_decide (gcm_seal key (DeriveNonce iv 0) msg aad = sealed)) then Some encryptMismatch
       else match OpenAES256GCM key iv 0 aad sealed with
            | Err _ => Some decryptErrored
            | Ok pt => if negb (bool_decide (pt = msg)) then Some decryptMismatch else None end).
    unfold OpenAES256GCM. destruct (decide (gcm_seal key (DeriveNonce iv 0) msg aad = sealed)) as [<-|Hne].
    + rewrite bool_decide_true, gcm_open_seal by done. cbn [negb]. rewrite bool_decide_true by done. done.
    + rewrite bool_decide_false by done. split; [done|]. intros ->. done.
  - change (kat_vector (str "invalid") key iv aad msg sealed) with
      (match OpenAES256GCM key iv 0 aad sealed with Ok _ => Some acceptedInvalid | Err _ => None end).
    unfold OpenAES256GCM. destruct (gcm_open key (DeriveNonce iv 0) sealed aad) as [p|] eqn:E.
    + apply gcm_seal_open in E. split; [done|]. intros Hn. by apply Hn in E.
    + split; [|done]. intros _ p ->. by rewrite gcm_open_seal in E.
Qed.

(** ** The proxy *)

Inductive proxy_role : Type := Ingress | Egress.

Inductive proxy_usage : Type := bothRoles | noRole | badPeerKey.

Definition proxy_config (httpListen npampRemote npampListen backend expectedPeerKeyHex : bytes) : result proxy_usage (proxy_role * option bytes) :=
  let given := fun s : bytes => negb (bool_decide (s = [])) in
  let ingress := given httpListen && given npampRemote in
  let egress := given npampListen && given backend in
  check (ingress && egress) bothRoles;;
  check (negb ingress && negb egress) noRole;;
  key ← (if given expectedPeerKeyHex then
           match hexToKey expectedPeerKeyHex with Some raw => Ok (Some raw) | None => Err badPeerKey end
         else Ok None);
  Ok (if ingress then Ingress else Egress, key).

(** ** The firewall from its flags *)

Lemma deny_channels_inv raws : forall m m', deny_channels raws m = Ok m' ->
  exists ids, mapM parseUint16 raws = Some ids /\ forall ch, m' !! ch = None <-> m !! ch = None /\ ch ∉ ids.
Proof.
  induction raws as [|raw raws IH]; intros m m' Hd; cbn [deny_channels mapM] in *; [injection Hd as ->; exists []; split; [done|]; set_solver|].
  destruct (parseUint16 raw) as [id|]; [|done]. destruct (IH _ _ Hd) as (ids & Hi & Hm). exists (id :: ids). cbn [mbind option_bind]. rewrite Hi. split; [done|].
  intros ch. rewrite Hm, lookup_insert_None. set_solver.
Qed.

Lemma deny_types_inv raws : forall m m', deny_types raws m = Ok m' ->
  exists ps, mapM parse_pair raws = Some ps /\ forall p, m' !! p = None <-> m !! p = None /\ p ∉ ps.
Proof.
  induction raws as [|raw raws IH]; intros m m' Hd; cbn [deny_types mapM] in *; [injection Hd as ->; exists []; split; [done|]; set_solver|].
  destruct (parse_pair raw) as [id|]; [|done]. destruct (IH _ _ Hd) as (ps & Hi & Hm). exists (id :: ps). cbn [mbind option_bind]. rewrite Hi. split; [done|].
  intros p. rewrite Hm, lookup_insert_None. set_solver.
Qed.

Lemma policy_decides p d h :
  ChannelPolicy_Decide p d h = None <-> DeniedChannels p !! fh_Channel h = None /\ DeniedFrameTypes p !! (fh_Channel h, fh_Type h) = None.
Proof.
  unfold ChannelPolicy_Decide. destruct (DeniedChannels p !! fh_Channel h); [by split; [|intros []]|].
  destruct (DeniedFrameTypes p !! (fh_Channel h, fh_Type h)); by split; [|intros []].
Qed.

(** A frame the command lets through. *)
Record let_through (reg : Registries) (ids : list Z) (pairs : list (Z * Z)) (maxFrameSize : Z) (fr : Frame) : Prop := {
  lt_wf : frame_wf fr;
  lt_registered : registered reg (Channel fr) (Type_ fr);
  lt_size : frame_size fr <= MaxFrameSize /\ (maxFrameSize <> 0 -> frame_size fr <= maxFrameSize);
  lt_channel : Channel fr ∉ ids;
  lt_type : (Channel fr, Type_ fr) ∉ pairs
}.

Lemma let_through_admitted reg ids pairs maxFrameSize policy d fr :
  (forall ch, DeniedChannels policy !! ch = None <-> ch ∉ ids) -> (forall p, DeniedFrameTypes policy !! p = None <-> p ∉ pairs) ->
  admitted (mkFirewall (Some reg) (Some (ChannelPolicy_Decide policy))) reg maxFrameSize d fr <-> let_through reg ids pairs maxFrameSize fr.
Proof.
  intros Hc Hp. assert (policy_allows (mkFirewall (Some reg) (Some (ChannelPolicy_Decide policy))) d fr <-> Channel fr ∉ ids /\ (Channel fr, Type_ fr) ∉ pairs) as Ha.
  { unfold policy_allows. cbn [fw_Policy]. rewrite policy_decides. cbn [header_of fh_Channel fh_Type]. by rewrite Hc, Hp. }
  split; intros [H1 H2 H3 H4]; [apply Ha in H4 as [H4 H5]; by constructor|]. intros. constructor; [done..|]. by apply Ha.
Qed.

(** C19: The firewall command enforces what its flags say.  When it starts, every
    -deny-channel and -deny-frame-type was a code point of 16 bits (or a pair of them), and
    in every state its run can reach, either leg has been written only frames of the other
    leg, in order and unchanged, that are registered, within both size caps, on no denied
    channel and of no denied pair of channel and type (and at most the beginning of one more
    such frame, when a write failed); and over a transport that does not fail a stream of
    such frames is forwarded whole. *)
Theorem firewall_command files maxFrameSize denyChannels denyFrameTypes fw reg r :
  firewall_main files maxFrameSize denyChannels denyFrameTypes = Ok (fw, reg, r) ->
  exists ids pairs, Load files = Ok reg /\ mapM parseUint16 denyChannels = Some ids /\ mapM parse_pair denyFrameTypes = Some pairs /\
    let ok := let_through reg ids pairs (u32 maxFrameSize) in
    (forall srcA srcB st, rtc (run_step r) (flow_init srcA srcB) st -> forall d, exists fs part,
       fl_out st d = frames_octets fs ++ part /\ Forall ok fs /\
       fl_out st d `prefix_of` so_data (match d with DirAToB => srcA | DirBToA => srcB end) /\
       (part = [] \/ exists fr, ok fr /\ part `prefix_of` marshal fr)) /\
    (forall d fs, Forall ok fs -> forall fuel, (length fs < fuel)%nat ->
       forward r fuel d (fun _ => env_fine) (mkSource (frames_octets fs) ErrEOF) = (frames_octets fs, Some None)).
Proof.
  unfold firewall_main. intros Hm. apply bind_Ok in Hm as (reg' & Hl & Hm). destruct (Load files) as [reg0|] eqn:El; [|done]. injection Hl as ->.
  apply bind_Ok in Hm as (policy & Hb & Hm). unfold buildPolicy in Hb. apply bind_Ok in Hb as (mc & Hc & Hb). apply bind_Ok in Hb as (mt & Ht & [= <-]).
  destruct (Wrap _ _) as [r'|] eqn:Ew; [|done]. injection Hm as <- -> ->.
  destruct (deny_channels_inv _ _ _ Hc) as (ids & Hi & Hci). destruct (deny_types_inv _ _ _ Ht) as (pairs & Hp & Hpi).
  assert (forall ch, mc !! ch = None <-> ch ∉ ids) as Hci' by (intros ch; rewrite Hci; by split; [intros []|]).
  assert (forall p, mt !! p = None <-> p ∉ pairs) as Hpi' by (intros p; rewrite Hpi; by split; [intros []|]).
  pose proof (fun d fr => let_through_admitted reg ids pairs (u32 maxFrameSize) (mkPolicy mc mt) d fr Hci' Hpi') as Ha.
  exists ids, pairs. split; [done|]. split; [done|]. split; [done|]. cbv zeta.
  destruct (firewalled_relay (mkFirewall (Some reg) (Some (ChannelPolicy_Decide (mkPolicy mc mt)))) (u32 maxFrameSize)) as [_ Hf].
  destruct (Hf reg r eq_refl Ew) as [H1 H2]. split.
  - intros srcA srcB st Hrun d. destruct (H1 srcA srcB st Hrun d) as (fs & part & Ho & Hfs & Hpre & Hpart). exists fs, part. split; [done|].
    split; [eapply Forall_impl; [exact Hfs|]; intros fr; by apply Ha|]. split; [done|]. destruct Hpart as [?|(fr & Hfr & Hp')]; [by left|right].
    exists fr. split; [by apply (Ha d)|done].
  - intros d fs Hfs. apply H2. eapply Forall_impl; [exact Hfs|]. intros fr. by apply Ha.
Qed.

(** ** The repository's registries with two flags *)

Definition sample_channels : list bytes := [str " 0x0001"; str "7"].
Definition sample_types : list bytes := [str "0x0000:0x0100"].

Example flags_parsed :
  mapM parseUint16 sample_channels = Some [1; 7] /\ mapM parse_pair sample_types = Some [(0, 256)] /\
  parseUint16 (str "65536") = None /\ parse_pair (str "0x0000") = None.
Proof. by vm_compute. Qed.

Lemma firewall_command_witness :
  exists fw r, firewall_main repository_files 0 sample_channels sample_types = Ok (fw, repository_registries, r) /\
    forward r 2 DirAToB (fun _ => env_fine) (mkSource (frames_octets [demo_frame]) ErrEOF) = (frames_octets [demo_frame], Some None).
Proof.
  eexists _, _. split; [unfold firewall_main; rewrite repository_load; reflexivity|].
  edestruct (firewall_command repository_files 0 sample_channels sample_types) as (ids & pairs & _ & Hi & Hp & _ & Hf);
    [unfold firewall_main; rewrite repository_load; reflexivity|].
  destruct flags_parsed as (Ei & Ep & _). rewrite Ei in Hi. rewrite Ep in Hp. injection Hi as <-. injection Hp as <-.
  apply Hf; [|cbn; lia]. apply Forall_singleton. constructor.
  - repeat split; vm_compute; congruence.
  - split_and!; [done|vm_compute; by eexists|intros _; vm_compute; by eexists|]. intros Hs. vm_compute in Hs. discriminate.
  - split; [vm_compute; congruence|done].
  - vm_compute. set_solver.
  - vm_compute. set_solver.
Defined.
